(* ===== verification/_CoqProject ===== *)
-Q . S2P
Prelude.v
BitSet.v
Stack.v
Deque.v
PhysPages.v
VirtRegion.v
MemMap.v
KMalloc.v
Vidmap.v
Heap.v
ElfConvert.v
Sha1.v
UserLib.v
LPHash.v
KissFS.v
Createfs.v
PrefixTree.v
Terminal.v
Keyboard.v
FileDesc.v
Sys.v
Kernel.v
SysCall.v
Loader.v
UserProgs.v
SysErr.v
Grep.v
EndToEnd.v
Sched.v
Rtc.v
Spinlock.v
Pic.v
RingBuf.v
Container.v
Compositor.v
KLib.v
ArrFile.v
Windows.v
MouseDrv.v
Pci.v
Sound.v
Ata.v
Fish.v
TicTacToe.v
