(* ===== verification/Prelude.v ===== *)
(** * TedkOS: a verification development

    TedkOS is a teaching kernel for 32-bit x86 (src/student-distrib, C++ and C), the
    programs that run on it (src/syscalls, src/userland), and two host tools that make
    what it boots from (src/createfs.c, src/elfconvert.c). This library models its own
    logic as functions of Rocq and proves what makes each part, and some of their
    compositions, correct.

    ** The parts and how they interact

    - The host tools. [createfs] packs the host's files into an image of 4096-byte
      blocks; [elfconvert] flattens an ELF executable so that the kernel can copy it to
      one address. Createfs.v and ElfConvert.v.
    - Containers of the kernel. A bit set, a fixed stack, a growing deque, a
      linear-probing hash table, a prefix tree over a memory pool, a ring buffer:
      BitSet.v, Stack.v, Deque.v, LPHash.v, PrefixTree.v, RingBuf.v. The later files use
      the operations defined there, and their proofs the refinement lemmas.
    - Memory. Physical pages of 4 MB (PhysPages.v, over the bit set and the stack),
      virtual pages of a region (VirtRegion.v), page directories and the map manager with
      its two spare directories (MemMap.v), [new] and [delete] over all three
      (KMalloc.v, through the interface [PageSource]), and the heap of a process (Heap.v:
      [sbrk] over physical pages and the map of the process, which sits behind the
      interface [AddressSpace] and is that of Vidmap.v). Vidmap.v: what a user may touch, by the processor's page
      walk and by [validUserPointer], the window of [vidmap] on the text memory, and the
      whole of [loadProcessMap], which is the switch of MemMap.v and then that window.
    - Interrupts. The controller's handler lists (Pic.v), spin locks between processors
      and under nested interrupts (Spinlock.v), the keyboard from the controller's byte
      to the terminal shown (Keyboard.v over Terminal.v), and the virtual real-time
      clocks (Rtc.v over Deque.v).
    - Files. The image as the kernel reads it (KissFS.v, with the hash table of names),
      descriptors (FileDesc.v), and Kernel.v: mount table, device files, dispatcher and
      the file system calls of a process. The terminal and keyboard devices sit behind
      the interface [IFOps].
    - The gate. SysCall.v: [int $0x80] from the number and the registers to the calls of
      Kernel.v and Vidmap.v, with the user's memory and the check of its pointers; the
      calls on processes and on the user interface are a parameter there.
    - Processes. Sched.v: table, run queue, the switch at the end of an interrupt, and the
      dispatcher's calls exec, halt, dotask, fork and wait; Loader.v: the part of exec that
      reads and places the program.
    - Programs. Sys.v is the interface of the system calls: the class [Sys] of the calls,
      [FileView] of what can be said of a state, and the laws [FileSys]. UserLib.v is the
      string library, UserProgs.v and Grep.v the programs of src/syscalls, proved against
      the laws; Kernel.v proves that the kernel keeps them. SysErr.v runs the test program
      of the calls' errors on the gate and the kernel. Sha1.v is the digest of
      src/userland/shafile.
    - The user interface. Container.v has rectangles and the tree of elements, Compositor.v
      the drawing of that tree to the build buffer and the video memory, hit testing, the
      pointer and the windows (its walk uses the stack of Stack.v, the children are deques
      of Deque.v), ArrFile.v the parser of the asset files, Windows.v the title bar painted
      from such a file and the making of a window out of all this. MouseDrv.v has the
      driver that turns the bytes of the mouse into the pointer's moves and clicks (the
      pointer behind the interface [Pointer]), and follows a drag from those bytes to the
      window that moves.
    - Sound. Sound.v: the driver of the sound card over the dispatcher of Kernel.v, with
      the card behind the class [Card] and its laws.
    - Two more programs. Fish.v: the characters that blink on the text screen, a linked
      list in assembly, and the program that reads its two frames through the contract of
      Sys.v. TicTacToe.v: the game's board and loop.
    - The disk. Ata.v: the driver of the ATA disks by DMA, from [read] and [write] to the
      interrupt that wakes the caller, with the hardware behind the class [Hardware] and
      its laws, and the start of the bus master over the controllers that Pci.v found.
    - The bus and the timer. Pci.v: addresses of the configuration space, the scan for the
      disk controllers, and the programming of the interval timer.
    - The kernel's library. KLib.v: [printf] with [itoa], the string functions, the memory
      routines in assembly, and the console that is used before the terminals exist.
    - EndToEnd.v composes builder, kernel and programs: what [createfs] packed is what
      [cat] and [ls] print and what exec loads.

    ** Files, modules and sources

    A module has the name of its file; besides it MemMap.v has [PhysAddr], [TinyMemMap]
    and [Manager], FileDesc.v [FileDescArr], PrefixTree.v [MemoryPool], KissFS.v
    [Filename], Kernel.v [Console], Container.v [Rectangle], Compositor.v [Blend],
    Windows.v [TitleBar], MouseDrv.v [MouseDriver] and [Drag], Pci.v [Pit], Heap.v
    [HeapManager] and Sound.v [SimCard]. In src/student-distrib:
    BitSet inc/klibs/bitset.h; Stack inc/klibs/stack.h; Deque inc/klibs/deque.h; LPHash
    inc/klibs/lphashtable.h; PrefixTree inc/klibs/prefix_tree.h and fixedmemorypool.h;
    RingBuf klibs/ringbuf.cpp; PhysPages, VirtRegion and MemMap inc/klibs/palloc.h and
    klibs/palloc.cpp; KMalloc klibs/kmalloc.cpp; Pic pic/list.cpp and pic/i8259.cpp;
    Spinlock klibs/spinlock.cpp and inc/klibs/AutoSpinLock.h; Terminal
    drivers/terminal.cpp and txtmode.cpp; Keyboard drivers/keyboard.cpp; Rtc
    drivers/rtc.cpp; KissFS fs/kissfs.cpp; FileDesc proc/tasks.cpp; Kernel
    fs/filesystem.cpp, fs/devfs.cpp, drivers/fops_kbterm.cpp,
    syscalls/filesystem_wrapper.cpp and getargs.cpp; Sched proc/tasks.cpp, proc/sched.cpp,
    syscalls/halt.cpp, syscalls.cpp and exec.cpp; Loader syscalls/exec*.cpp; Container inc/ui/container.h,
    inc/ui/drawable.h and ui/rectangle.cpp; Compositor ui/compositor.cpp, ui/mouse.cpp,
    ui/desktop.cpp, ui/window.cpp, ui/button.cpp, ui/image.cpp and the copies of
    ui/vbe.cpp; ArrFile klibs/arrFile.cpp; Windows ui/title_bar.cpp; KLib klibs/lib.cpp; MouseDrv
    drivers/mouse.cpp; Sound drivers/sb16.cpp; Ata drivers/ata/ata.cpp and dma.cpp; Pci drivers/pci.cpp, scan_pci.cpp and
    pit.cpp; Heap proc/tasks.cpp and syscalls/sbrk.cpp; Vidmap
    syscalls/syscalls.cpp, drivers/txtmode.cpp and klibs/palloc.cpp; SysCall
    syscalls/syscalls.cpp, syscall_helpers.h and filesystem_wrapper.cpp. SysErr is
    src/syscalls/ece391syserr.c, Fish src/fish/fish.c and blink.S, TicTacToe
    src/userland/tictactoe/tictactoe.cpp.
    A definition
    has the name of the function or field it translates; helpers that are a loop of a
    function are named after it with [_loop].

    ** Conventions

    State is passed explicitly: an operation takes the record of its object and gives the
    new one. Machine integers are [Z] with the wrap-around written out ([u8], [u16],
    [u32], [s32] below). A C array is a list, read by [aget] and [anth] and written by
    [aset]; where the code does not check an index the model is [None] outside. [None] of
    an operation is a fault (an access outside an object, a null pointer, a division by
    zero), a kernel panic or a loop that does not end; error codes of the code are values
    of the result. Programs are in the monad [prog] of Sys.v, which also has halting and
    processor exceptions.

    A method that runs under its lock from end to end is one step; that this is sound is
    what Spinlock.v shows (nobody else holds the lock, no interrupt comes under it).

    ** Fuel

    Loops are structural where their bound is a number of the code. The others take fuel:
    the probe of the hash table its size, the searches of the run queue its length and
    one, the rotation of the deque of clocks likewise, the walk of a handler list its
    size, the loops of [elfconvert] the file's headers, the walk over the elements of the
    user interface their number and one (the trees themselves are inductive), the page
    loops of [sbrk] 1024, the number of pages there are, the wait for a disk a number that
    is free, the walk over the list of the fish the elements of its array and one. That this is enough is part of
    the theorems, which give a result, not only a property of one. The programs' main
    loops have a fuel argument; their theorems say that from some number on every fuel
    gives the result ([UserProgs.ends]).

    ** What the theorems show

    - From end to end: [cat_prints_host_file], [ls_lists_host_files],
      [exec_runs_converted_elf]; on the way [createfs_kissfs_roundtrip],
      [elfconvert_flattens], [readData_correct], [grep_correct].
    - Memory: no page is handed out twice or taken from a module that is [compact],
      as one that begins at a page is ([alloc_never_hands_out_owned], [aligned_module_reserved],
      [virt_pages_never_overlap], [free_then_alloc]), the page directory and its reverse
      agree ([memmap_one_to_one], [loadProcessMap_spec], [physaddr_roundtrip]), blocks of
      [new] are apart from each other and from the pool headers
      ([new_gives_fresh_disjoint_blocks], [deleted_block_makes_room]), and the break of a
      process moves over pages that are its own ([sbrk_moves_break]).
    - The gate: [foreign_pointers_are_refused] (over [user_pointers_are_own]),
      [file_shown_through_memory], [syserr_all_tests]; [window_follows_terminal].
    - Processes: every interrupt is handled and leaves a consistent table
      ([scheduler_safe]), a process that can run gets the processor
      ([runnable_process_gets_cpu]), exit codes arrive ([exit_code_reaches_parent]).
    - Interrupts and devices: [irqsave_never_spins], [spin_lock_excludes],
      [interrupt_calls_bound_handlers], [rtc_paces_reads], [typed_line_reaches_reader],
      [keyboard_safe], [switch_keeps_screens], [screen_shows_last_rows],
      [terminal_stays_in_bounds].
    - The user interface: [screen_stays_current], [createWindow_shows],
      [click_hits_what_is_seen], [pointer_move_repaints], [move_keeps_tree],
      [drag_carries_window], [arrfile_roundtrip].
    - Sound: [wav_file_is_played], [play_wav_refuses].
    - Programs besides those above: [fish_moves], [blinks_refine], [game_stops_at_line].
    - The disk: [disk_roundtrip], [sector_reads_deliver], [failed_transfer_reports].
    - The bus and the timer: [scan_finds_controllers], [pit_rate_nearest].
    - Containers and libraries against what they stand for: [deque_refines_list],
      [stack_refines_list], [ringbuf_refines_queue], [hashtable_is_map],
      [mount_longest_prefix], [findConsZeros_spec], [strcpy_correct],
      [strncmp_decides_prefix], [itoa_spec], [memory_routines], [printf_prints],
      [sha1_stream_correct],
      [sha1_result_closes].
    - Faults of the code, proved on the model: [failed_opens_exhaust_descriptors] and the
      lemmas [many_files_misread], [unaligned_read_leaks_next_block],
      [read_past_end_leaks], [unaligned_module_tail_allocated],
      [no_mmap_never_allocates], [last1G_freePage_leaks],
      [second_allocConsPage_raises], [switchMap_shared_page_drops_commons],
      [sha1_too_long_reports_null], [double_delete_shares_block],
      [unbind_first_loses_handlers], [constructor_freq], [decision_loop_diverges],
      [fork_after_boot_faults], [parentless_after_boot_faults],
      [dotask_of_live_process_faults], [write_stops_at_nul], [keepif_deadlocks],
      [pointer_leaves_seam], [RGBO_copies_one_byte], [descend_drops],
      [button_covers_nothing], [trailing_percent_overruns], [orig_putc_never_wraps],
      [truncated_file_reads_past_end], [empty_file_index_faults], [assign_keeps_length],
      [refused_sbrk_stays_refused], [pit_rate_one], [samples_lost], [samples_repeated],
      [end_closes_twice], [format_sticks], [missing_file_faults],
      [refused_format_stays_open], [enabled_window_is_stale], [one_call_one_sector],
      [blink_at_zero_loops], [cmovl_never], [square_taken_over].

    ** Not modelled

    The processor itself (paging hardware, TLB, segments, the assembly that switches
    stacks and enters the kernel), the ports a driver only waits on; the
    commands that switch the mouse on; the choice
    of the video mode through the BIOS and the glyphs of the font test; sleeping. In
    Kernel.v and for the programs a call gives the bytes it stores and takes those at the
    pointer; only SysCall.v has the memory they are in, one flat memory, without the page
    faults of the kernel's own accesses. Newlib, clib and Boost are third-party. Interrupts that come inside a handler, and more than one
    process inside the file calls at once, are not interleaved: the file calls are those
    of one process. *)
From stdpp Require Import prelude gmap list numbers strings.
From Stdlib Require Import ZArith Lia.

#[global] Open Scope Z_scope.

(** ** Machine integers

    A [uintN_t] value is a [Z] in [0, 2^N); C's conversions to it are [uN]. *)

Definition u8 (x : Z) : Z := x mod 2 ^ 8.
Definition u16 (x : Z) : Z := x mod 2 ^ 16.
Definition u32 (x : Z) : Z := x mod 2 ^ 32.

(** Conversion to [int32_t] (two's complement). *)
Definition s32 (x : Z) : Z :=
  let y := x mod 2 ^ 32 in if y <? 2 ^ 31 then y else y - 2 ^ 32.

(** A byte read as a [char], which is signed. *)
Definition s8 (c : Z) : Z := if c <? 128 then c else c - 256.
Lemma s8_inj a b : 0 <= a < 256 -> 0 <= b < 256 -> s8 a - s8 b = 0 -> a = b.
Proof. unfold s8. intros. destruct (Z.ltb_spec a 128), (Z.ltb_spec b 128); lia. Qed.

(** [~x] on a [uint32_t]. *)
Definition not32 (x : Z) : Z := Z.land (Z.lnot x) 0xffffffff.

Definition KB (len : Z) : Z := len * 1024.
Definition MB (len : Z) : Z := len * 1024 * 1024.

Class InRange (w : Z) (x : Z) : Prop := in_range : 0 <= x < 2 ^ w.

Create HintDb word.
Create HintDb arr.

Lemma u32_range x : 0 <= u32 x < 2 ^ 32.
Proof. apply Z.mod_pos_bound. lia. Qed.
Lemma u16_range x : 0 <= u16 x < 2 ^ 16.
Proof. apply Z.mod_pos_bound. lia. Qed.
Lemma u8_range x : 0 <= u8 x < 2 ^ 8.
Proof. apply Z.mod_pos_bound. lia. Qed.
Lemma u32_small x : 0 <= x < 2 ^ 32 -> u32 x = x.
Proof. apply Z.mod_small. Qed.
Lemma u16_small x : 0 <= x < 2 ^ 16 -> u16 x = x.
Proof. apply Z.mod_small. Qed.
Lemma u8_small x : 0 <= x < 2 ^ 8 -> u8 x = x.
Proof. apply Z.mod_small. Qed.
Lemma u32_idem x : u32 (u32 x) = u32 x.
Proof. apply u32_small, u32_range. Qed.
Lemma s32_small x : 0 <= x < 2 ^ 31 -> s32 x = x.
Proof.
  intros Hx. unfold s32. rewrite Z.mod_small by lia.
  destruct (Z.ltb_spec x (2 ^ 31)); lia.
Qed.
Lemma u32_s32 x : u32 (s32 x) = u32 x.
Proof.
  unfold s32, u32. destruct (_ <? _).
  - by rewrite Z.mod_mod.
  - replace (x mod 2 ^ 32 - 2 ^ 32) with (x mod 2 ^ 32 + (-1) * 2 ^ 32) by lia.
    rewrite Z.mod_add by lia. by rewrite Z.mod_mod.
Qed.

Lemma s32_id x : - 2 ^ 31 <= x < 2 ^ 31 -> s32 x = x.
Proof.
  intros Hx. unfold s32. destruct (decide (0 <= x)).
  - rewrite Z.mod_small by lia. destruct (Z.ltb_spec x (2 ^ 31)); lia.
  - rewrite <- (Z.mod_add x 1), Z.mod_small by lia. destruct (Z.ltb_spec (x + 1 * 2 ^ 32) (2 ^ 31)); lia.
Qed.
Lemma s32_bounds x : - 2 ^ 31 <= s32 x < 2 ^ 31.
Proof.
  unfold s32. pose proof (Z.mod_pos_bound x (2 ^ 32)). destruct (Z.ltb_spec (x mod 2 ^ 32) (2 ^ 31)); lia.
Qed.
(** [s32] only depends on the value modulo [2^32]. *)
Lemma s32_cong x y : u32 x = u32 y -> s32 x = s32 y.
Proof. unfold s32, u32. by intros ->. Qed.
Lemma u32_add_cong a b a' b' : u32 a = u32 a' -> u32 b = u32 b' -> u32 (a + b) = u32 (a' + b').
Proof. unfold u32. intros Ha Hb. by rewrite (Z.add_mod a b), (Z.add_mod a' b'), Ha, Hb. Qed.
Lemma s32_add_s32 a b : s32 (a + s32 b) = s32 (a + b).
Proof. apply s32_cong, u32_add_cong; [done|apply u32_s32]. Qed.

Lemma u32_sub_s32 a b : u32 (a - s32 b) = u32 (a - b).
Proof.
  unfold u32. rewrite Zminus_mod. change (s32 b mod 2 ^ 32) with (u32 (s32 b)). rewrite u32_s32.
  unfold u32. by rewrite <- Zminus_mod.
Qed.

#[export] Hint Resolve u32_range u16_range u8_range : word.
#[export] Hint Rewrite u32_idem u32_s32 : word.

(** Turn [/] and [mod] by numerals into linear facts, then call [lia]. *)
Ltac zdiv := Z.div_mod_to_equations; lia.

(** Case split on every integer comparison in the goal. *)
Ltac case_cmp :=
  repeat match goal with
  | |- context [ ?a <? ?b ] => destruct (Z.ltb_spec a b)
  | |- context [ ?a <=? ?b ] => destruct (Z.leb_spec a b)
  | |- context [ ?a =? ?b ] => destruct (Z.eqb_spec a b)
  end.

(** ** Bits of a word *)

Lemma land_bit_ne0 w j :
  0 <= j -> negb (Z.land w (Z.shiftl 1 j) =? 0) = Z.testbit w j.
Proof.
  intros Hj. rewrite Z.shiftl_1_l.
  destruct (Z.eqb_spec (Z.land w (2 ^ j)) 0) as [H|H]; simpl.
  - assert (Hb : Z.testbit (Z.land w (2 ^ j)) j = false) by (rewrite H; apply Z.testbit_0_l).
    rewrite Z.land_spec, Z.pow2_bits_true in Hb by lia. by rewrite andb_true_r in Hb.
  - destruct (Z.testbit w j) eqn:E; [done|]. destruct H.
    apply Z.bits_inj'. intros m Hm. rewrite Z.land_spec, Z.testbit_0_l.
    destruct (decide (m = j)) as [->|]; [by rewrite E|].
    rewrite Z.pow2_bits_false by lia. apply andb_false_r.
Qed.

Lemma testbit_shiftl_1 i j : 0 <= i -> Z.testbit (Z.shiftl 1 i) j = bool_decide (i = j).
Proof.
  intros Hi. rewrite Z.shiftl_1_l.
  case_bool_decide as E; [subst; by apply Z.pow2_bits_true|].
  destruct (decide (0 <= j)); [|by apply Z.testbit_neg_r; lia].
  by apply Z.pow2_bits_false.
Qed.

Lemma testbit_not32 w j : 0 <= j < 32 -> Z.testbit (not32 w) j = negb (Z.testbit w j).
Proof.
  intros Hj. unfold not32. rewrite Z.land_spec, Z.lnot_spec by lia.
  change 0xffffffff with (Z.ones 32). rewrite Z.ones_spec_low by lia.
  apply andb_true_r.
Qed.

(** ** Arrays

    A C array is a [list]; [aget]/[aset] are element access at an index of
    type [Z]. Every model guards the index the way the source does; where the
    source does not, the operation returns [None] out of range. *)

Definition aget {A} `{Inhabited A} (l : list A) (i : Z) : A := l !!! Z.to_nat i.
Definition aset {A} (l : list A) (i : Z) (v : A) : list A := <[Z.to_nat i := v]> l.
Definition alen {A} (l : list A) : Z := Z.of_nat (length l).
Definition anth {A} (l : list A) (i : Z) : option A :=
  if 0 <=? i then l !! Z.to_nat i else None.

Section arrays.
Context {A : Type} `{!Inhabited A}.
Implicit Types (l : list A) (v : A).

Lemma alen_aset l i v : alen (aset l i v) = alen l.
Proof. unfold alen, aset. by rewrite length_insert. Qed.
Lemma length_aset l i v : length (aset l i v) = length l.
Proof. apply length_insert. Qed.
Lemma alen_nonneg l : 0 <= alen l.
Proof. unfold alen. lia. Qed.

Lemma aget_aset_eq l i v : 0 <= i < alen l -> aget (aset l i v) i = v.
Proof.
  unfold aget, aset, alen. intros Hi. apply list_lookup_total_insert_eq. lia.
Qed.
Lemma aget_aset_ne l i j v : 0 <= i -> 0 <= j -> i <> j -> aget (aset l i v) j = aget l j.
Proof.
  unfold aget, aset. intros. apply list_lookup_total_insert_ne. lia.
Qed.
Lemma aget_aset l i j v :
  0 <= i < alen l -> 0 <= j -> aget (aset l i v) j = if decide (i = j) then v else aget l j.
Proof.
  intros Hi Hj. case_decide as E; [subst; by apply aget_aset_eq | apply aget_aset_ne; lia].
Qed.
Lemma aget_replicate n v i : 0 <= i < Z.of_nat n -> aget (replicate n v) i = v.
Proof. intros Hi. unfold aget. apply lookup_total_replicate_2. lia. Qed.
Lemma anth_Some_lt l i v : anth l i = Some v -> 0 <= i < alen l.
Proof.
  unfold anth, alen. destruct (Z.leb_spec 0 i); [|done].
  intros Hl%lookup_lt_Some. lia.
Qed.
Lemma anth_aget l i : 0 <= i < alen l -> anth l i = Some (aget l i).
Proof.
  unfold anth, alen, aget. intros Hi. destruct (Z.leb_spec 0 i); [|lia].
  apply list_lookup_lookup_total_lt. lia.
Qed.
End arrays.

#[export] Hint Rewrite @alen_aset @length_aset : arr.
#[export] Hint Resolve alen_nonneg : arr.

(** ** Counted loops: [for (i = lo; i < hi; i++) s = f(i, s)] *)
Definition for_range {S} (lo hi : Z) (f : Z -> S -> S) (s : S) : S :=
  foldl (fun s i => f i s) s (seqZ lo (hi - lo)).

(** The same loop with a body that may fail (a trap, an out-of-range access). *)
Fixpoint for_opt {S} (n : nat) (i : Z) (f : Z -> S -> option S) (s : S) : option S :=
  match n with
  | O => Some s
  | Datatypes.S n' => s' ← f i s; for_opt n' (i + 1) f s'
  end.

(** Invariant of such a loop; each iteration is shown to succeed. *)
Lemma for_opt_ind {S} (P : Z -> S -> Prop) (n : nat) i (f : Z -> S -> option S) s :
  P i s ->
  (forall j s', i <= j < i + Z.of_nat n -> P j s' -> exists s2, f j s' = Some s2 /\ P (j + 1) s2) ->
  exists s', for_opt n i f s = Some s' /\ P (i + Z.of_nat n) s'.
Proof.
  revert i s. induction n as [|n IH]; intros i s H0 Hstep; cbn [for_opt].
  - exists s. by rewrite Z.add_0_r.
  - destruct (Hstep i s ltac:(lia) H0) as (s2 & -> & H2). cbn [mbind option_bind].
    destruct (IH (i + 1) s2 H2) as (s' & E & HP); [intros; apply Hstep; [lia|done]|].
    exists s'. split; [done|]. by replace (i + Z.of_nat (Datatypes.S n)) with (i + 1 + Z.of_nat n) by lia.
Qed.

Lemma for_range_nil {S} lo hi (f : Z -> S -> S) s : hi <= lo -> for_range lo hi f s = s.
Proof. intros. unfold for_range. by rewrite seqZ_nil by lia. Qed.

Lemma for_range_snoc {S} lo hi (f : Z -> S -> S) s :
  lo <= hi -> for_range lo (hi + 1) f s = f hi (for_range lo hi f s).
Proof.
  intros. unfold for_range. replace (hi + 1 - lo) with ((hi - lo) + 1) by lia.
  rewrite seqZ_app, foldl_app by lia. simpl. by replace (lo + (hi - lo)) with hi by lia.
Qed.

Lemma for_range_cons {S} lo hi (f : Z -> S -> S) s :
  lo < hi -> for_range lo hi f s = for_range (lo + 1) hi f (f lo s).
Proof.
  intros. unfold for_range. rewrite (seqZ_cons lo) by lia. simpl.
  by replace (Z.pred (hi - lo)) with (hi - (lo + 1)) by lia.
Qed.

Lemma for_opt_ext {S} (n : nat) (f g : Z -> S -> option S) : (forall i s, f i s = g i s) ->
  forall lo s, for_opt n lo f s = for_opt n lo g s.
Proof.
  intros Hfg. induction n as [|n IH]; intros lo s; cbn [for_opt]; [done|].
  rewrite Hfg. destruct (g lo s); [apply IH|done].
Qed.

(** A loop that cannot fail, as one that may. *)
Lemma for_opt_for_range {S} (n : nat) lo (f : Z -> S -> S) s :
  for_opt n lo (fun i s => Some (f i s)) s = Some (for_range lo (lo + Z.of_nat n) f s).
Proof.
  revert lo s. induction n as [|n IH]; intros lo s; cbn [for_opt].
  - by rewrite for_range_nil by lia.
  - cbn [mbind option_bind]. rewrite IH, (for_range_cons lo (lo + Z.of_nat (Datatypes.S n))) by lia.
    by replace (lo + 1 + Z.of_nat n) with (lo + Z.of_nat (Datatypes.S n)) by lia.
Qed.

(** Loop invariants: [P i s] holds on entry to iteration [i]. *)
Lemma for_range_ind {S} (P : Z -> S -> Prop) lo hi (f : Z -> S -> S) s :
  lo <= hi -> P lo s ->
  (forall i s', lo <= i < hi -> P i s' -> P (i + 1) (f i s')) ->
  P hi (for_range lo hi f s).
Proof.
  intros Hle H0 Hstep.
  assert (Hk : forall k, 0 <= k -> lo + k <= hi -> P (lo + k) (for_range lo (lo + k) f s)).
  { apply (natlike_ind (fun k => lo + k <= hi -> P (lo + k) (for_range lo (lo + k) f s))).
    - intros _. rewrite Z.add_0_r, for_range_nil by lia. done.
    - intros k Hk IH Hb. replace (lo + Z.succ k) with (lo + k + 1) by lia.
      rewrite for_range_snoc by lia. apply Hstep; [lia|]. apply IH. lia. }
  replace hi with (lo + (hi - lo)) by lia. apply Hk; lia.
Qed.

Lemma for_range_split {S} lo mid hi (f : Z -> S -> S) s :
  lo <= mid <= hi -> for_range lo hi f s = for_range mid hi f (for_range lo mid f s).
Proof.
  intros. unfold for_range. replace (hi - lo) with ((mid - lo) + (hi - mid)) by lia.
  rewrite seqZ_app, foldl_app by lia. by replace (lo + (mid - lo)) with mid by lia.
Qed.

Lemma for_range_ext {S} lo hi (f g : Z -> S -> S) s :
  (forall i s', lo <= i < hi -> f i s' = g i s') -> for_range lo hi f s = for_range lo hi g s.
Proof.
  intros Hfg. destruct (decide (lo <= hi)); [|by rewrite !for_range_nil by lia].
  revert Hfg. unfold for_range.
  assert (Hin : forall i, i ∈ seqZ lo (hi - lo) -> lo <= i < hi) by (intros i; rewrite elem_of_seqZ; lia).
  revert s Hin. generalize (seqZ lo (hi - lo)). intros js.
  induction js as [|i js IH]; intros s Hin Hfg; [done|]. simpl.
  rewrite Hfg by (apply Hin; left). apply IH; [|done]. intros j Hj. apply Hin. by right.
Qed.

(** ** Lists *)

(** Writing position [n] extends the prefix of length [n] by one element. *)
Lemma take_insert_snoc {A} (l : list A) n v :
  (n < length l)%nat -> take (S n) (<[n := v]> l) = take n l ++ [v].
Proof.
  intros Hn. erewrite take_S_r by by apply list_lookup_insert_eq.
  by rewrite take_insert_ge by lia.
Qed.

Lemma take_aset_snoc {A} (l : list A) i v :
  0 <= i < alen l -> take (Z.to_nat (i + 1)) (aset l i v) = take (Z.to_nat i) l ++ [v].
Proof.
  unfold alen, aset. intros Hi. replace (Z.to_nat (i + 1)) with (S (Z.to_nat i)) by lia.
  apply take_insert_snoc. lia.
Qed.

Lemma aget_take {A} `{!Inhabited A} (l : list A) i n :
  0 <= i < n -> aget (take (Z.to_nat n) l) i = aget l i.
Proof.
  intros Hi. unfold aget. rewrite !list_lookup_total_alt, lookup_take_lt by lia. done.
Qed.

Lemma aget_app_l {A} `{!Inhabited A} (l k : list A) i :
  0 <= i < alen l -> aget (l ++ k) i = aget l i.
Proof. unfold aget, alen. intros Hi. rewrite lookup_total_app_l by lia. done. Qed.

Lemma aget_app_r {A} `{!Inhabited A} (l k : list A) i :
  alen l <= i -> aget (l ++ k) i = aget k (i - alen l).
Proof.
  unfold aget, alen. intros Hi. rewrite lookup_total_app_r by lia. f_equal. lia.
Qed.

Lemma take_S_delete {A} (l : list A) (k n : nat) :
  (k <= n)%nat -> take n (delete k l) = delete k (take (S n) l).
Proof.
  revert k n. induction l as [|x l IH]; intros k n Hk; simpl.
  - by destruct k, n.
  - destruct k as [|k]; simpl; [done|]. destruct n as [|n]; [lia|].
    simpl. f_equal. apply (IH k n). lia.
Qed.

Lemma aget_lookup {A} `{Inhabited A} (l : list A) (i : nat) (x : A) :
  l !! i = Some x -> aget l (Z.of_nat i) = x.
Proof. intros Hl. unfold aget. rewrite Nat2Z.id. by apply list_lookup_total_correct. Qed.

(** Two runs of consecutive positions with the same elements. *)
Lemma fmap_seqZ_ext {A} (f g : Z -> A) a b n :
  (forall j, 0 <= j < n -> f (a + j) = g (b + j)) -> f <$> seqZ a n = g <$> seqZ b n.
Proof.
  intros Hfg. apply list_eq. intros i. rewrite !list_lookup_fmap.
  destruct (decide (Z.of_nat i < n)).
  - rewrite !lookup_seqZ_lt by lia. simpl. f_equal. apply Hfg. lia.
  - by rewrite !lookup_seqZ_ge by lia.
Qed.

Lemma fmap_seqZ_app {A} (f : Z -> A) a n m :
  0 <= n -> 0 <= m -> f <$> seqZ a (n + m) = (f <$> seqZ a n) ++ (f <$> seqZ (a + n) m).
Proof. intros. by rewrite seqZ_app, fmap_app by lia. Qed.

Lemma alen_fmap_seqZ {A} (f : Z -> A) a n : 0 <= n -> alen (f <$> seqZ a n) = n.
Proof. intros. unfold alen. rewrite length_fmap, length_seqZ. lia. Qed.

Lemma alen_app {A} (l k : list A) : alen (l ++ k) = alen l + alen k.
Proof. unfold alen. rewrite length_app. lia. Qed.

(** [memory::ceil] (student-distrib/klibs/memory.cpp) on [uint32_t]. *)
Definition ceil (len blkSize : Z) : Z :=
  let remainder := len mod blkSize in
  if 0 <? remainder then len / blkSize + 1 else len / blkSize.

(** [memory::alignAt<N>] (student-distrib/inc/klibs/memory.h). *)
Definition alignAt (N x : Z) : Z := Z.land (not32 (u32 (N - 1))) (u32 (x - 1 + N)).

Lemma ceil_spec len blk : 0 <= len -> 0 < blk -> ceil len blk = (len + blk - 1) / blk.
Proof.
  intros Hl Hb. unfold ceil. pose proof (Z.div_mod len blk).
  pose proof (Z.mod_pos_bound len blk).
  destruct (Z.ltb_spec 0 (len mod blk)).
  - apply (Z.div_unique_pos _ _ _ (len mod blk - 1)); lia.
  - apply (Z.div_unique_pos _ _ _ (blk - 1)); lia.
Qed.

(** The result of code that may call [trigger_exception<N>] (the kernel stops
    there) : a value, or the number of the exception raised. *)
Inductive outcome (A : Type) : Type :=
  | Ret (a : A)
  | Raise (exn : Z).
#[global] Arguments Ret {A} _.
#[global] Arguments Raise {A} _.

Definition outcome_bind {A B} (m : outcome A) (f : A -> outcome B) : outcome B :=
  match m with Ret a => f a | Raise e => Raise e end.
Notation "'do' x <- m ; k" := (outcome_bind m (fun x => k))
  (at level 200, x pattern, m at level 100, k at level 200, right associativity).

(** ** Bitwise reasoning on bounded words *)

Lemma testbit_high x n k : 0 <= x < 2 ^ n -> n <= k -> Z.testbit x k = false.
Proof.
  intros Hx Hk. destruct (decide (x = 0)) as [->|]; [apply Z.testbit_0_l|].
  apply Z.bits_above_log2; [lia|]. apply Z.log2_lt_pow2; [lia|].
  destruct (decide (0 <= n)); [|rewrite Z.pow_neg_r in Hx by lia; lia].
  pose proof (Z.pow_le_mono_r 2 n k). lia.
Qed.

Lemma testbit_u32 x k : 0 <= k -> Z.testbit (u32 x) k = (k <? 32) && Z.testbit x k.
Proof.
  intros Hk. unfold u32. destruct (Z.ltb_spec k 32).
  - by rewrite Z.mod_pow2_bits_low by lia.
  - by rewrite Z.mod_pow2_bits_high by lia.
Qed.

(** Equality of two words below [2^n], bit by bit for each of the [n] positions. *)
Lemma bits_eq_bounded n x y :
  0 <= x < 2 ^ n -> 0 <= y < 2 ^ n ->
  (forall k, 0 <= k < n -> Z.testbit x k = Z.testbit y k) -> x = y.
Proof.
  intros Hx Hy Hb. apply Z.bits_inj'. intros k Hk.
  destruct (decide (k < n)); [by apply Hb|].
  by rewrite (testbit_high x n), (testbit_high y n) by lia.
Qed.

Lemma lor_range n x y : 0 <= n -> 0 <= x < 2 ^ n -> 0 <= y < 2 ^ n -> 0 <= Z.lor x y < 2 ^ n.
Proof.
  intros Hn Hx Hy. assert (H0 : 0 <= Z.lor x y) by (apply Z.lor_nonneg; lia).
  split; [done|]. destruct (decide (Z.lor x y = 0)) as [->|]; [lia|].
  assert (n <> 0).
  { intros ->. simpl in *. assert (x = 0) as -> by lia. by assert (y = 0) as -> by lia. }
  assert (Hl : forall z, 0 <= z < 2 ^ n -> Z.log2 z < n).
  { intros z Hz. destruct (decide (z = 0)) as [->|]; [simpl; lia|]. apply Z.log2_lt_pow2; lia. }
  apply Z.log2_lt_pow2; [lia|]. rewrite Z.log2_lor by lia. apply Z.max_lub_lt; auto.
Qed.

Lemma land_range_r n x y : 0 <= y < 2 ^ n -> 0 <= Z.land x y < 2 ^ n.
Proof.
  intros Hy. assert (Z.land x y <= y).
  { assert (H : Z.land (Z.land x y) y = Z.land x y) by by rewrite <- Z.land_assoc, Z.land_diag.
    assert (Hd : Z.ldiff y (Z.land x y) = y - Z.land x y).
    { symmetry. apply Z.sub_nocarry_ldiff. apply Z.bits_inj'. intros k Hk.
      rewrite Z.ldiff_spec, Z.land_spec, Z.testbit_0_l.
      destruct (Z.testbit x k), (Z.testbit y k); done. }
    assert (0 <= Z.ldiff y (Z.land x y)) by (apply Z.ldiff_nonneg; lia). lia. }
  split; [apply Z.land_nonneg; lia | lia].
Qed.

(** Packing: a shifted word or-ed with a narrower one. *)
Lemma lor_shiftl_add a b k :
  0 <= k -> 0 <= b < 2 ^ k -> Z.lor (Z.shiftl a k) b = a * 2 ^ k + b.
Proof.
  intros Hk Hb. rewrite <- Z.shiftl_mul_pow2 by lia.
  assert (Z.land (Z.shiftl a k) b = 0).
  { apply Z.bits_inj'. intros i Hi. rewrite Z.land_spec, Z.testbit_0_l.
    destruct (decide (i < k)).
    - by rewrite Z.shiftl_spec_low by lia.
    - rewrite (testbit_high b k i) by lia. apply andb_false_r. }
  pose proof (Z.add_lor_land (Z.shiftl a k) b). lia.
Qed.

(** [k] ranges over finitely many values: one goal per value. *)
Ltac split_range k :=
  match goal with
  | H : ?lo <= k < ?hi |- _ =>
      let Hin := fresh in
      assert (Hin : k ∈ seqZ lo (hi - lo)) by (apply elem_of_seqZ; lia);
      clear H; vm_compute in Hin;
      repeat (apply elem_of_cons in Hin; destruct Hin as [->|Hin]);
      [.. | by apply elem_of_nil in Hin]
  end.

(** Push [Z.testbit] through the bitwise operators. *)
Ltac testbits :=
  repeat first
    [ rewrite Z.lor_spec | rewrite Z.land_spec | rewrite Z.lxor_spec
    | rewrite Z.shiftr_spec by lia | rewrite Z.shiftl_spec by lia
    | rewrite testbit_u32 by lia ].

(** Evaluate [Z.testbit] at numeral positions: of a numeral by computation, of
    a variable with a known range or at a negative position to [false]. *)
Ltac eval_bits :=
  repeat match goal with
  | |- context [Z.testbit ?x ?k] =>
      let k' := eval vm_compute in k in
      lazymatch k' with Zpos _ => idtac | Z0 => idtac | Zneg _ => idtac end;
      tryif constr_eq k k' then fail else change (Z.testbit x k) with (Z.testbit x k')
  | |- context [Z.testbit ?x (Zneg ?p)] => rewrite (Z.testbit_neg_r x (Zneg p)) by lia
  | |- context [Z.testbit (Zpos ?c) ?k] =>
      let b := eval vm_compute in (Z.testbit (Zpos c) k) in
      change (Z.testbit (Zpos c) k) with b
  | H : 0 <= ?x < 2 ^ ?n |- context [Z.testbit ?x ?k] =>
      rewrite (testbit_high x n k) by first [exact H | lia]
  | |- context [?a <? ?b] =>
      let c := eval vm_compute in (a <? b) in
      lazymatch c with true => idtac | false => idtac end;
      change (a <? b) with c
  end;
  rewrite ?andb_true_r, ?andb_false_r, ?orb_false_r, ?orb_true_r; cbn [andb orb negb].
