(* ===== verification/BitSet.v ===== *)
(** * [util::BitSet<n>] (student-distrib/inc/klibs/bitset.h)

    The bit set is an array of [n] 32-bit words ([uint32_t array[n]]; the code
    over-allocates, one word per bit). Every operation guards its index, so no
    access leaves the array. Equality of sets is the equivalence [equiv]: two
    arrays that answer every [test] alike. *)
From stdpp Require Import prelude gmap list numbers.
From Stdlib Require Import ZArith Lia.
From S2P Require Import Prelude.

Create HintDb bitset.

Module BitSet.

Definition t := list Z.
Definition IntBits : Z := 32.

Section ops.
Context (n : Z).

(** [BitSet() : array() { }] value-initialises the array. *)
Definition init : t := replicate (Z.to_nat n) 0.

Definition set (b : t) (k : Z) : t :=
  if n <=? k then b
  else aset b (k / IntBits)
         (Z.lor (aget b (k / IntBits)) (Z.shiftl 1 (k mod IntBits))).

Definition clear (b : t) (k : Z) : t :=
  if n <=? k then b
  else aset b (k / IntBits)
         (Z.land (aget b (k / IntBits)) (not32 (Z.shiftl 1 (k mod IntBits)))).

Definition flip (b : t) (k : Z) : t :=
  if n <=? k then b
  else aset b (k / IntBits)
         (Z.lxor (aget b (k / IntBits)) (Z.shiftl 1 (k mod IntBits))).

Definition test (b : t) (k : Z) : bool :=
  if n <=? k then false
  else negb (Z.land (aget b (k / IntBits)) (Z.shiftl 1 (k mod IntBits)) =? 0).

(** The [for] loop of [findConsZeros]; [todo] is the number of iterations
    left, so [i = n - todo]. The probe is [test(num)], as in the source. *)
Fixpoint findConsZeros_loop (b : t) (num : Z) (todo : nat)
    (i currMax startOfMax : Z) (foundSomething : bool) : option Z :=
  match todo with
  | O => None
  | S todo' =>
      if test b num then
        findConsZeros_loop b num todo' (i + 1) 0 startOfMax false
      else
        let currMax' := u32 (currMax + 1) in
        let start' := if foundSomething then startOfMax else i in
        if num <=? currMax' then Some start'
        else findConsZeros_loop b num todo' (i + 1) currMax' start' true
  end.

Definition findConsZeros (b : t) (num : Z) : option Z :=
  findConsZeros_loop b num (Z.to_nat n) 0 0 0 false.

(** The array has the length the template gives it. *)
Definition wf (b : t) : Prop := alen b = n.

Definition equiv (b1 b2 : t) : Prop :=
  wf b1 /\ wf b2 /\ forall k, 0 <= k -> test b1 k = test b2 k.
End ops.

Section laws.
Context (n : Z).
Implicit Types b : t.

Lemma test_unfold b k :
  0 <= k -> test n b k =
    if n <=? k then false else Z.testbit (aget b (k / IntBits)) (k mod IntBits).
Proof.
  intros Hk. unfold test, IntBits. destruct (n <=? k); [done|].
  apply land_bit_ne0. apply Z.mod_pos_bound. lia.
Qed.

Lemma word_in_range b k : wf n b -> 0 <= k < n -> 0 <= k / IntBits < alen b.
Proof. unfold wf, IntBits. intros -> Hk. zdiv. Qed.

Lemma same_bit k j :
  k / IntBits = j / IntBits -> k mod IntBits = j mod IntBits -> k = j.
Proof. unfold IntBits. zdiv. Qed.

(** One word is rewritten: what every update law reduces to. *)
Lemma test_update b k j w :
  wf n b -> 0 <= k < n -> 0 <= j ->
  test n (aset b (k / IntBits) w) j =
    if n <=? j then false
    else if decide (k / IntBits = j / IntBits) then Z.testbit w (j mod IntBits)
    else test n b j.
Proof.
  intros Hb Hk Hj. rewrite test_unfold by done.
  destruct (Z.leb_spec n j); [done|].
  rewrite aget_aset; [| by apply word_in_range | unfold IntBits; zdiv].
  case_decide; [done|]. rewrite test_unfold by done.
  destruct (Z.leb_spec n j); [lia|done].
Qed.

Lemma mod_bound k : 0 <= k mod IntBits < 32.
Proof. apply Z.mod_pos_bound. unfold IntBits. lia. Qed.

Ltac update_bit k j :=
  rewrite test_update by done;
  rewrite (test_unfold _ j) by done;
  pose proof (mod_bound k); pose proof (mod_bound j);
  destruct (Z.leb_spec n j); [case_bool_decide; (done || lia)|];
  case_decide;
  [ match goal with E : _ / IntBits = _ |- _ => rewrite <- E end;
    rewrite ?Z.lor_spec, ?Z.land_spec, ?Z.lxor_spec, ?testbit_not32,
      ?testbit_shiftl_1 by lia;
    repeat case_bool_decide; subst; try done;
    try (exfalso; match goal with D : ?a <> ?b |- _ => apply D end;
         by apply same_bit);
    destruct (Z.testbit _ _); done
  | case_bool_decide; [by subst | by destruct (Z.testbit _ _)] ].

Lemma test_set b k j :
  wf n b -> 0 <= k -> 0 <= j ->
  test n (set n b k) j = (bool_decide (k = j) && (k <? n)) || test n b j.
Proof.
  intros Hb Hk Hj. unfold set.
  destruct (Z.leb_spec n k); destruct (Z.ltb_spec k n); try lia.
  - by rewrite andb_false_r.
  - rewrite andb_true_r. update_bit k j.
Qed.

Lemma test_clear b k j :
  wf n b -> 0 <= k -> 0 <= j ->
  test n (clear n b k) j = negb (bool_decide (k = j)) && test n b j.
Proof.
  intros Hb Hk Hj. unfold clear. destruct (Z.leb_spec n k).
  - case_bool_decide; [|done]. subst. unfold test.
    by destruct (Z.leb_spec n j); [|lia].
  - update_bit k j.
Qed.

Lemma test_flip b k j :
  wf n b -> 0 <= k -> 0 <= j ->
  test n (flip n b k) j = xorb (bool_decide (k = j) && (k <? n)) (test n b j).
Proof.
  intros Hb Hk Hj. unfold flip.
  destruct (Z.leb_spec n k); destruct (Z.ltb_spec k n); try lia.
  - by rewrite andb_false_r, xorb_false_l.
  - rewrite andb_true_r. update_bit k j.
Qed.

Lemma test_init k : 0 <= k -> test n (init n) k = false.
Proof.
  intros Hk. rewrite test_unfold by done. destruct (Z.leb_spec n k); [done|].
  unfold init. rewrite aget_replicate by (unfold IntBits; zdiv). apply Z.testbit_0_l.
Qed.

Lemma test_oob b k : n <= k -> test n b k = false.
Proof. intros Hk. unfold test. by destruct (Z.leb_spec n k); [|lia]. Qed.

Lemma bs_wf_init : 0 <= n -> wf n (init n).
Proof. intros. unfold wf, init, alen. rewrite length_replicate. lia. Qed.
Lemma bs_wf_set b k : wf n b -> wf n (set n b k).
Proof. unfold wf, set. destruct (_ <=? _); [done|]. by rewrite alen_aset. Qed.
Lemma bs_wf_clear b k : wf n b -> wf n (clear n b k).
Proof. unfold wf, clear. destruct (_ <=? _); [done|]. by rewrite alen_aset. Qed.
Lemma bs_wf_flip b k : wf n b -> wf n (flip n b k).
Proof. unfold wf, flip. destruct (_ <=? _); [done|]. by rewrite alen_aset. Qed.

Lemma test_set_same b k : wf n b -> 0 <= k < n -> test n (set n b k) k = true.
Proof.
  intros. rewrite test_set by (done || lia). rewrite bool_decide_true by done.
  destruct (Z.ltb_spec k n); [done|lia].
Qed.
Lemma test_set_ne b k j : wf n b -> 0 <= k -> 0 <= j -> k <> j ->
  test n (set n b k) j = test n b j.
Proof. intros. by rewrite test_set, bool_decide_false. Qed.
Lemma test_clear_same b k : wf n b -> 0 <= k -> test n (clear n b k) k = false.
Proof. intros. by rewrite test_clear, bool_decide_true. Qed.
Lemma test_clear_ne b k j : wf n b -> 0 <= k -> 0 <= j -> k <> j ->
  test n (clear n b k) j = test n b j.
Proof. intros. by rewrite test_clear, bool_decide_false. Qed.

(** The scan never looks at position [i]: with the bit at index [num] clear,
    each iteration extends the run found at [0]. *)
Lemma findConsZeros_loop_clear b num todo i cur :
  test n b num = false -> 0 <= cur < 2 ^ 32 - 1 -> cur + Z.of_nat todo < 2 ^ 32 -> cur < num \/ cur = 0 ->
  (cur = 0 -> i = 0) ->
  findConsZeros_loop n b num todo i cur 0 (bool_decide (0 < cur)) =
    if decide (0 < Z.of_nat todo /\ num <= cur + Z.of_nat todo) then Some 0 else None.
Proof.
  intros Ht. revert i cur. induction todo as [|todo IH]; intros i cur Hc Ho Hn Hi; cbn [findConsZeros_loop].
  - rewrite decide_False by lia. done.
  - rewrite Ht, u32_small by lia.
    assert (Hs : (if bool_decide (0 < cur) then 0 else i) = 0)
      by (case_bool_decide; lia).
    rewrite Hs. destruct (Z.leb_spec num (cur + 1)).
    + rewrite decide_True by lia. done.
    + destruct todo as [|todo].
      * cbn [findConsZeros_loop]. rewrite decide_False by lia. done.
      * specialize (IH (i + 1) (cur + 1)).
        rewrite bool_decide_true in IH by lia. rewrite IH by lia.
        apply decide_ext. lia.
Qed.

Lemma findConsZeros_loop_set b num todo i cur st f :
  test n b num = true -> findConsZeros_loop n b num todo i cur st f = None.
Proof.
  intros Ht. revert i cur st f. induction todo as [|todo IH]; intros; simpl; [done|].
  rewrite Ht. apply IH.
Qed.

#[export] Instance equiv_sym : Symmetric (equiv n).
Proof. intros b1 b2 (? & ? & He). split_and!; try done. intros. by rewrite He. Qed.
#[export] Instance equiv_trans : Transitive (equiv n).
Proof.
  intros b1 b2 b3 (? & ? & H1) (? & ? & H2). split_and!; try done.
  intros. by rewrite H1, H2.
Qed.
#[export] Instance set_proper : Proper (equiv n ==> (fun i j => i = j /\ 0 <= i) ==> equiv n) (set n).
Proof.
  intros b1 b2 (W1 & W2 & He) k ? [<- Hk]. split_and!; [by apply bs_wf_set..|].
  intros j Hj. rewrite !test_set by done. by rewrite He.
Qed.
#[export] Instance clear_proper : Proper (equiv n ==> (fun i j => i = j /\ 0 <= i) ==> equiv n) (clear n).
Proof.
  intros b1 b2 (W1 & W2 & He) k ? [<- Hk]. split_and!; [by apply bs_wf_clear..|].
  intros j Hj. rewrite !test_clear by done. by rewrite He.
Qed.
End laws.

#[local] Hint Resolve bs_wf_init bs_wf_set bs_wf_clear bs_wf_flip : bitset.

(** ** Properties *)

(** What [findConsZeros(num)] computes, on every input: the probe is
    [test(num)], so the answer does not depend on the contents of the set
    except at index [num]; it is [0] when that bit is clear and the request
    fits the set, and nothing otherwise. *)
Theorem findConsZeros_spec (n num : Z) (b : t) :
  0 <= n < 2 ^ 32 ->
  findConsZeros n b num =
    if test n b num then None
    else if decide (0 < n /\ num <= n) then Some 0 else None.
Proof.
  intros Hn. unfold findConsZeros. destruct (test n b num) eqn:E.
  - by apply findConsZeros_loop_set.
  - change false with (bool_decide (0 < 0)) at 1.
    rewrite findConsZeros_loop_clear by (done || lia).
    apply decide_ext. lia.
Qed.

Lemma findConsZeros_spec_witness :
  findConsZeros 8 (set 8 (init 8) 0) 2 = Some 0.
Proof.
  rewrite (findConsZeros_spec 8 2 (set 8 (init 8) 0)); [reflexivity | lia].
Defined.

(** [flip] twice is the identity, and [set]/[clear] commute with updates of
    other bits: the array behaves as a set of the indices below [n]. *)
Lemma bitset_set_algebra (n k j : Z) (b : t) :
  wf n b -> 0 <= k -> 0 <= j ->
  equiv n (flip n (flip n b k) k) b /\
  equiv n (clear n (set n b k) k) (clear n b k) /\
  (k <> j -> equiv n (set n (clear n b k) j) (clear n (set n b j) k)).
Proof.
  intros Hb Hk Hj. split_and!; [| |intros Hne]; split_and!; eauto with bitset;
    intros i Hi.
  - rewrite !test_flip by eauto with bitset.
    destruct (_ && _), (test n b i); done.
  - rewrite !test_clear, test_set by eauto with bitset.
    case_bool_decide; [done|]. by destruct (test n b i).
  - rewrite test_set, !test_clear, test_set by eauto with bitset.
    repeat case_bool_decide; subst; done.
Qed.
End BitSet.

#[export] Hint Resolve BitSet.bs_wf_init BitSet.bs_wf_set BitSet.bs_wf_clear BitSet.bs_wf_flip : bitset.
