(* ===== verification/Stack.v ===== *)
(** * [util::Stack<T, Num>] (student-distrib/inc/klibs/stack.h)

    A bounded stack in a fixed array. [contents] is the part below the stack
    pointer; every law is stated about it. A closure passed to [first] may
    change state outside the stack ([pool->get()] does), so the search threads
    a state [S] through the calls, in the order of the source. *)
From stdpp Require Import prelude gmap list numbers.
From Stdlib Require Import ZArith Lia.
From S2P Require Import Prelude.

Create HintDb stack.

Module Stack.

Record t (T : Type) := mk { arr : list T; idx : Z }.
#[global] Arguments mk {T} _ _.
#[global] Arguments arr {T} _.
#[global] Arguments idx {T} _.

Section ops.
Context {T : Type} `{!Inhabited T} (Num : Z) (dflt : T).
Implicit Types st : t T.

(** [Stack() : arr(), idx(0)]; [dflt] is [T()]. *)
Definition init : t T := mk (replicate (Z.to_nat Num) dflt) 0.

Definition empty st : bool := idx st =? 0.
Definition full st : bool := idx st =? Num.
Definition size st : Z := idx st.
Definition resetStackPointer st : t T := mk (arr st) 0.

Definition pop st : T * t T :=
  if idx st =? 0 then (dflt, st)
  else (aget (arr st) (idx st - 1), mk (arr st) (idx st - 1)).

Definition push st (val : T) : t T :=
  if Num <=? idx st then st
  else mk (aset (arr st) (idx st) val) (idx st + 1).

(** [drop]: [None] where the code reads outside [arr]: an index past the
    array, or an empty stack ([idx - 1] wraps to [2^32 - 1]). *)
Definition drop st (killIdx : Z) : option (T * t T) :=
  if (Num <=? killIdx) || (idx st =? 0) then None
  else
    let mem := aget (arr st) killIdx in
    let arr' := for_range killIdx (idx st - 1)
                  (fun i a => aset a i (aget a (i + 1))) (arr st) in
    Some (mem, mk arr' (idx st - 1)).

Definition get st (x : Z) : T := aget (arr st) x.

(** The elements [arr[0] .. arr[idx - 1]]. *)
Definition contents st : list T := take (Z.to_nat (idx st)) (arr st).

(** [first]: [in_idx] is written at every element visited. *)
Fixpoint first_loop {R S} (fn : T -> S -> option R * S) (xs : list T)
    (i in_idx : Z) (s : S) : option R * Z * S :=
  match xs with
  | [] => (None, in_idx, s)
  | x :: xs' =>
      match fn x s with
      | (Some r, s') => (Some r, i, s')
      | (None, s') => first_loop fn xs' (i + 1) i s'
      end
  end.

Definition first {R S} st (in_idx : Z) (fn : T -> S -> option R * S) (s : S)
    : option R * Z * S :=
  first_loop fn (contents st) 0 in_idx s.

(** [firstTrue]: [in_idx] is written only on success. *)
Fixpoint firstTrue_loop {S} (fn : T -> S -> bool * S) (xs : list T)
    (i in_idx : Z) (s : S) : bool * Z * S :=
  match xs with
  | [] => (false, in_idx, s)
  | x :: xs' =>
      match fn x s with
      | (true, s') => (true, i, s')
      | (false, s') => firstTrue_loop fn xs' (i + 1) in_idx s'
      end
  end.

Definition firstTrue {S} st (in_idx : Z) (fn : T -> S -> bool * S) (s : S)
    : bool * Z * S :=
  firstTrue_loop fn (contents st) 0 in_idx s.

(** [dropFirst]: [None] is the trap of [drop]; [Some (None, _)] the miss. *)
Definition dropFirst st (fn : T -> bool) : option (option T * t T) :=
  match first st 0 (fun x (_ : unit) => (if fn x then Some 0 else None, tt)) tt with
  | (Some _, in_idx, _) =>
      match drop st in_idx with
      | Some (x, st') => Some (Some x, st')
      | None => None
      end
  | (None, _, _) => Some (None, st)
  end.

Definition wf st : Prop := alen (arr st) = Num /\ 0 <= idx st <= Num.
End ops.

#[global] Arguments contents {T} st.
#[global] Arguments empty {T} st.
#[global] Arguments size {T} st.

Section laws.
Context {T : Type} `{!Inhabited T} (Num : Z) (dflt : T).
Implicit Types st : t T.

Lemma stack_wf_init : 0 <= Num -> wf Num (init Num dflt).
Proof. intros. split; simpl; [unfold alen; rewrite length_replicate; lia | lia]. Qed.
Lemma contents_init : contents (init Num dflt) = [].
Proof. done. Qed.

Lemma length_contents st : wf Num st -> Z.of_nat (length (contents st)) = idx st.
Proof.
  intros [Ha Hi]. unfold contents, alen in *. rewrite length_take. lia.
Qed.

Lemma empty_spec st : wf Num st -> empty st = bool_decide (contents st = []).
Proof.
  intros Hw. pose proof (length_contents _ Hw) as Hl. unfold empty.
  destruct (contents st) eqn:E; simpl in Hl.
  - destruct (Z.eqb_spec (idx st) 0); [done|lia].
  - rewrite bool_decide_false by done. destruct (Z.eqb_spec (idx st) 0); [lia|done].
Qed.

Lemma stack_wf_push st v : wf Num st -> wf Num (push Num st v).
Proof.
  intros [Ha Hi]. unfold push. destruct (Z.leb_spec Num (idx st)); [done|].
  split; simpl; [by rewrite alen_aset | lia].
Qed.

(** Pushing on a full stack is a no-op; otherwise the element goes on top. *)
Lemma contents_push st v :
  wf Num st ->
  contents (push Num st v) = if decide (idx st < Num) then contents st ++ [v] else contents st.
Proof.
  intros [Ha Hi]. unfold push. destruct (Z.leb_spec Num (idx st)).
  - by rewrite decide_False by lia.
  - rewrite decide_True by lia. unfold contents, aset, alen in *; simpl.
    replace (Z.to_nat (idx st + 1)) with (S (Z.to_nat (idx st))) by lia.
    erewrite take_S_r by (apply list_lookup_insert_eq; lia).
    by rewrite take_insert_ge by lia.
Qed.

Lemma stack_wf_pop st : wf Num st -> wf Num (pop dflt st).2.
Proof.
  intros [Ha Hi]. unfold pop. destruct (Z.eqb_spec (idx st) 0); simpl; [done|].
  split; simpl; [done|lia].
Qed.

Lemma pop_contents st xs x :
  wf Num st -> contents st = xs ++ [x] ->
  (pop dflt st).1 = x /\ contents (pop dflt st).2 = xs /\ wf Num (pop dflt st).2.
Proof.
  intros Hw Hc. pose proof (length_contents _ Hw) as Hl.
  pose proof (stack_wf_pop _ Hw) as Hw'.
  rewrite Hc, length_app in Hl. simpl in Hl. destruct Hw as [Ha Hi].
  unfold pop in *. destruct (Z.eqb_spec (idx st) 0); [lia|]. simpl in *.
  unfold contents in *; simpl in *.
  replace (Z.to_nat (idx st)) with (S (Z.to_nat (idx st - 1))) in Hc by lia.
  unfold alen in Ha.
  destruct (lookup_lt_is_Some_2 (arr st) (Z.to_nat (idx st - 1))) as [y Hy]; [lia|].
  rewrite (take_S_r _ _ y) in Hc by done.
  apply app_inj_tail in Hc as [Hc ->]. split_and!; [|done..].
  unfold aget. by apply list_lookup_total_correct.
Qed.

Lemma pop_empty st : contents st = [] -> wf Num st -> pop dflt st = (dflt, st).
Proof.
  intros Hc Hw. pose proof (length_contents _ Hw) as Hl. rewrite Hc in Hl; simpl in Hl.
  unfold pop. destruct (Z.eqb_spec (idx st) 0); [done|lia].
Qed.

(** The copying loop of [drop]: positions [k, k+m) take their right neighbour. *)
Lemma shift_lookup (a : list T) (k m : Z) (j : nat) :
  0 <= k -> 0 <= m -> k + m < alen a ->
  for_range k (k + m) (fun i a => aset a i (aget a (i + 1))) a !! j =
    if decide (k <= Z.of_nat j < k + m) then a !! S j else a !! j.
Proof.
  intros Hk Hm. revert j. pattern m. apply natlike_ind; [| |done]; clear m Hm.
  - intros j _. rewrite Z.add_0_r, for_range_nil by lia. by rewrite decide_False by lia.
  - intros m Hm IH j Hb. replace (k + Z.succ m) with (k + m + 1) by lia.
    rewrite for_range_snoc by lia. unfold alen in *.
    set (a' := for_range _ _ _ _) in *.
    assert (Hlen : length a' = length a).
    { unfold a'. apply (for_range_ind (fun _ s => length s = length a)); [lia|done|].
      intros. by rewrite length_aset. }
    unfold aset, aget. destruct (decide (Z.to_nat (k + m) = j)) as [<-|Hne].
    + rewrite list_lookup_insert_eq by lia. rewrite decide_True by lia.
      assert (Hj := IH (Z.to_nat (k + m + 1))). rewrite decide_False in Hj by lia.
      replace (S (Z.to_nat (k + m))) with (Z.to_nat (k + m + 1)) by lia.
      rewrite <- Hj by lia. symmetry. apply list_lookup_lookup_total_lt. lia.
    + rewrite list_lookup_insert_ne by done. rewrite IH by lia.
      repeat case_decide; (done || lia).
Qed.

Lemma drop_spec st k :
  wf Num st -> 0 <= k < idx st ->
  exists x st', drop Num st k = Some (x, st') /\ wf Num st' /\
    contents st !! Z.to_nat k = Some x /\
    contents st' = delete (Z.to_nat k) (contents st).
Proof.
  intros [Ha Hi] Hk. unfold drop.
  destruct (Z.leb_spec Num k); [lia|]. destruct (Z.eqb_spec (idx st) 0); [lia|]. simpl.
  eexists _, _. split; [done|].
  set (a' := for_range _ _ _ _).
  assert (Hl : forall j, a' !! j = if decide (k <= Z.of_nat j < idx st - 1)
                                 then arr st !! S j else arr st !! j).
  { intros j. unfold a'. replace (idx st - 1) with (k + (idx st - 1 - k)) by lia.
    rewrite shift_lookup by lia. done. }
  assert (Hlen : length a' = length (arr st)).
  { unfold a'. apply (for_range_ind (fun _ s => length s = length (arr st))); [lia|done|].
    intros. by rewrite length_aset. }
  unfold contents, alen in *; simpl. split_and!.
  - split; simpl; unfold alen; lia.
  - rewrite lookup_take_lt by lia. unfold aget.
    apply list_lookup_lookup_total_lt. lia.
  - apply list_eq. intros j. destruct (decide (j < Z.to_nat (idx st - 1))%nat).
    + rewrite lookup_take_lt by lia. rewrite Hl.
      destruct (decide (j < Z.to_nat k)%nat).
      * rewrite decide_False by lia. rewrite list_lookup_delete_lt by lia.
        by rewrite lookup_take_lt by lia.
      * rewrite decide_True by lia. rewrite list_lookup_delete_ge by lia.
        by rewrite lookup_take_lt by lia.
    + rewrite lookup_take_ge by lia. symmetry. apply lookup_ge_None.
      rewrite length_delete, length_take; [lia|].
      apply lookup_lt_is_Some_2. rewrite length_take. lia.
Qed.

(** A search with a pure predicate stops at the first hit. *)
Lemma first_loop_pure (fn : T -> bool) xs i in_idx :
  exists j, first_loop (fun x (_ : unit) => (if fn x then Some 0 else None, tt)) xs i in_idx tt
    = match list_find (fun x => fn x = true) xs with
      | Some (k, _) => (Some 0, i + Z.of_nat k, tt)
      | None => (None, j, tt)
      end.
Proof.
  revert i in_idx. induction xs as [|x xs IH]; intros i in_idx; simpl.
  - by exists in_idx.
  - destruct (fn x) eqn:E.
    + exists 0. rewrite decide_True by done. by rewrite Z.add_0_r.
    + rewrite decide_False by done. destruct (IH (i + 1) i) as [j ->].
      exists j. destruct (list_find _ xs) as [[k y]|]; simpl; [|done].
      by replace (i + 1 + Z.of_nat k) with (i + Z.of_nat (S k)) by lia.
Qed.

(** A closure that never answers is run on every element, bottom to top. *)
Lemma first_loop_all {R S} (fn : T -> S -> option R * S) xs i in_idx s :
  (forall x s, (fn x s).1 = None) ->
  exists j, first_loop fn xs i in_idx s = (None, j, foldl (fun s x => (fn x s).2) s xs).
Proof.
  intros Hf. revert i in_idx s. induction xs as [|x xs IH]; intros i in_idx s; simpl.
  - by eexists.
  - specialize (Hf x s). destruct (fn x s) as [[r|] s']; [done|]. apply IH.
Qed.

(** [dropFirst] removes the oldest element that satisfies [fn]. *)
Lemma dropFirst_hit st (fn : T -> bool) k x :
  wf Num st -> list_find (fun x => fn x = true) (contents st) = Some (k, x) ->
  exists st', dropFirst Num st fn = Some (Some x, st') /\ wf Num st' /\
    contents st' = delete k (contents st).
Proof.
  intros Hw Hf. unfold dropFirst, first.
  destruct (first_loop_pure fn (contents st) 0 0) as [j ->]. rewrite Hf.
  apply list_find_Some in Hf as (Hx & _ & _).
  pose proof (length_contents _ Hw). pose proof (lookup_lt_Some _ _ _ Hx).
  destruct (drop_spec st (0 + Z.of_nat k) Hw) as (y & st' & -> & ? & Hy & ?); [lia|].
  replace (Z.to_nat (0 + Z.of_nat k)) with k in * by lia.
  simplify_eq. by exists st'.
Qed.

Lemma dropFirst_miss st (fn : T -> bool) :
  list_find (fun x => fn x = true) (contents st) = None ->
  dropFirst Num st fn = Some (None, st).
Proof.
  intros Hf. unfold dropFirst, first.
  by destruct (first_loop_pure fn (contents st) 0 0) as [j ->]; rewrite Hf.
Qed.
End laws.


(** ** Properties *)

(** The bounded stack refines a list: [push] appends (and is dropped when the
    stack holds [Num] elements), [pop] returns the last element, [drop(k)]
    deletes position [k] and keeps the order of the rest. *)
Theorem stack_refines_list {T} `{!Inhabited T} (Num k : Z) (dflt v : T) (st : t T) :
  wf Num st -> 0 <= k < idx st ->
  (pop dflt (push Num st v) =
     if decide (idx st < Num)
     then (v, mk (aset (arr st) (idx st) v) (idx st)) else pop dflt st) /\
  contents (push Num st v) =
    take (Z.to_nat Num) (contents st ++ [v]) /\
  exists x st', drop Num st k = Some (x, st') /\ wf Num st' /\
    contents st !! Z.to_nat k = Some x /\
    contents st' = delete (Z.to_nat k) (contents st).
Proof.
  intros Hw Hk. split_and!; [| |by apply drop_spec].
  - destruct Hw as [Ha Hi]. unfold push. destruct (Z.leb_spec Num (idx st)).
    { by rewrite decide_False by lia. }
    rewrite decide_True by lia. unfold pop; simpl.
    destruct (Z.eqb_spec (idx st + 1) 0); [lia|].
    replace (idx st + 1 - 1) with (idx st) by lia. by rewrite aget_aset_eq by lia.
  - rewrite contents_push by done. pose proof (length_contents _ _ Hw).
    destruct Hw as [Ha Hi]. case_decide.
    + by rewrite take_ge by (rewrite length_app; simpl; lia).
    + rewrite take_app_le by lia. by rewrite take_ge by lia.
Qed.

Lemma stack_refines_list_witness :
  contents (push 4 (mk [7; 8; 9; 0] 3) 5) = [7; 8; 9; 5].
Proof.
  destruct (stack_refines_list 4 1 0 5 (mk [7; 8; 9; 0] 3)) as (_ & H & _).
  - split; [reflexivity | simpl; lia].
  - simpl; lia.
  - exact H.
Defined.
End Stack.

#[export] Hint Resolve Stack.stack_wf_init Stack.stack_wf_push Stack.stack_wf_pop : stack.
