(* ===== verification/Deque.v ===== *)
(** * [Deque<T>] (student-distrib/inc/klibs/deque.h)

    The growing and shrinking ring of pointers behind the run queue and the list of
    drawables. A slot is [None] when its pointer is null or was never written; reading
    through such a pointer, leaving the array and dividing by a capacity of 0 are
    stuck ([None]). [mFront], [mBack] and the sizes are 32-bit words. *)
From stdpp Require Import prelude list numbers.
From Stdlib Require Import ZArith Lia.
From S2P Require Import Prelude.

Module Deque.

Section deque.
Context {T : Type}.

Record t := mk {
  mCapacity : Z; mSize : Z; mFront : Z; mBack : Z; mContents : list (option T) }.

Definition sInitialCapacity : Z := 2.
Definition new_array (n : Z) : list (option T) := replicate (Z.to_nat n) None.

(** [mContents[i] = v], [*mContents[i]] and [a % mCapacity]. *)
Definition store (c : list (option T)) (i : Z) (v : option T) : option (list (option T)) :=
  if (0 <=? i) && (i <? alen c) then Some (<[Z.to_nat i := v]> c) else None.
Definition deref (c : list (option T)) (i : Z) : option T := mjoin (anth c i).
Definition wrap (a cap : Z) : option Z := if cap =? 0 then None else Some (a mod cap).

Fixpoint nullify_loop (n : nat) (cap item : Z) (c : list (option T)) : option (list (option T)) :=
  match n with
  | O => Some c
  | S n =>
      c ← store c item None;
      item ← wrap (item + 1) cap;
      nullify_loop n cap item c
  end.
Definition nullifyContent (d : t) : option t :=
  c ← nullify_loop (Z.to_nat (mSize d)) (mCapacity d) (mFront d) (mContents d);
  Some (mk (mCapacity d) (mSize d) (mFront d) (mBack d) c).

Fixpoint copy_loop (n : nat) (cap item : Z) (src dst : list (option T)) : option (list (option T)) :=
  match n with
  | O => Some dst
  | S n =>
      v ← deref src item;
      dst ← store dst item (Some v);
      item ← wrap (item + 1) cap;
      copy_loop n cap item src dst
  end.
Definition copy (other : t) : option t :=
  c ← copy_loop (Z.to_nat (mSize other)) (mCapacity other) (mFront other) (mContents other)
        (new_array (mCapacity other));
  Some (mk (mCapacity other) (mSize other) (mFront other) (mBack other) c).

Definition init : t := mk sInitialCapacity 0 (2 ^ 32 - 1) (2 ^ 32 - 1) (new_array sInitialCapacity).

(** [_clear] then [_init]. *)
Definition clear (d : t) : option t := _ ← nullifyContent d; Some init.
(** [operator=]: [_clear] then [_copy]. *)
Definition assign (d other : t) : option t := _ ← nullifyContent d; copy other.

Fixpoint reset_loop (n : nat) (cap item i : Z) (src dst : list (option T)) : option (list (option T)) :=
  match n with
  | O => Some dst
  | S n =>
      p ← anth src item;
      dst ← store dst i p;
      item ← wrap (item + 1) cap;
      reset_loop n cap item (i + 1) src dst
  end.
Definition resetCap (d : t) (newCap : Z) : option t :=
  if newCap <=? mSize d then Some d
  else
    c ← reset_loop (Z.to_nat (mSize d)) (mCapacity d) (mFront d) 0 (mContents d) (new_array newCap);
    Some (mk newCap (mSize d) 0 (u32 (mSize d - 1)) c).

(** [operator[]]: [Some None] is [kernelPanic]. *)
Definition at_ (d : t) (pos : Z) : option (option T) :=
  if mSize d <=? pos then Some None
  else
    i ← wrap (u32 (mFront d + pos)) (mCapacity d);
    v ← deref (mContents d) i; Some (Some v).

Definition empty (d : t) : bool := mSize d =? 0.
Definition size (d : t) : Z := mSize d.
Definition max_size (d : t) : Z := mCapacity d.

(** [front] and [back] with the element they point to; [Some None] is the null pointer. *)
Definition front (d : t) : option (option T) :=
  if mSize d =? 0 then Some None else v ← deref (mContents d) (mFront d); Some (Some v).
Definition back (d : t) : option (option T) :=
  if mSize d =? 0 then Some None else v ← deref (mContents d) (mBack d); Some (Some v).

(** The first element of an empty deque. *)
Definition push_first (d : t) (val : T) : option t :=
  c ← store (mContents d) 0 (Some val); Some (mk (mCapacity d) (mSize d + 1) 0 0 c).
Definition grow (d : t) : option t :=
  if mSize d =? mCapacity d then resetCap d (u32 (2 * mCapacity d)) else Some d.
Definition shrink (d : t) : option t :=
  if mSize d <=? mCapacity d / 2 then resetCap d (mCapacity d / 2) else Some d.

Definition push_back (d : t) (val : T) : option t :=
  if mSize d =? 0 then push_first d val
  else
    d ← grow d;
    pos ← wrap (u32 (mBack d + 1)) (mCapacity d);
    c ← store (mContents d) pos (Some val);
    Some (mk (mCapacity d) (mSize d + 1) (mFront d) pos c).

Definition push_front (d : t) (val : T) : option t :=
  if mSize d =? 0 then push_first d val
  else
    d ← grow d;
    pos ← wrap (u32 (mFront d - 1 + mCapacity d)) (mCapacity d);
    c ← store (mContents d) pos (Some val);
    Some (mk (mCapacity d) (mSize d + 1) pos (mBack d) c).

(** The moves of [insert], from the back. *)
Fixpoint move_loop (n : nat) (cap i : Z) (c : list (option T)) : option (list (option T)) :=
  match n with
  | O => Some c
  | S n =>
      p ← anth c i;
      j ← wrap (u32 (i + 1)) cap;
      c ← store c j p;
      i ← wrap (u32 (i - 1 + cap)) cap;
      move_loop n cap i c
  end.
Definition insert (d : t) (val : T) (index : Z) : option t :=
  if index =? mSize d then push_back d val
  else if index =? 0 then push_front d val
  else if mSize d =? 0 then push_first d val
  else
    d ← grow d;
    let sz := mSize d + 1 in
    pos ← wrap (u32 (mFront d + index)) (mCapacity d);
    c ← move_loop (Z.to_nat (u32 (sz - index))) (mCapacity d) (mBack d) (mContents d);
    b ← wrap (u32 (mBack d + 1)) (mCapacity d);
    c ← store c pos (Some val);
    Some (mk (mCapacity d) sz (mFront d) b c).

Definition pop_back (d : t) : option t :=
  if mSize d =? 0 then Some d
  else
    c ← store (mContents d) (mBack d) None;
    b ← wrap (u32 (mBack d - 1 + mCapacity d)) (mCapacity d);
    shrink (mk (mCapacity d) (mSize d - 1) (mFront d) b c).

Definition pop_front (d : t) : option t :=
  if mSize d =? 0 then Some d
  else
    c ← store (mContents d) (mFront d) None;
    f ← wrap (u32 (mFront d + 1)) (mCapacity d);
    shrink (mk (mCapacity d) (mSize d - 1) f (mBack d) c).

(** ** The list a deque holds *)

(** Slot [j] after the front. *)
Definition slot (c : list (option T)) (cap f j : Z) : option (option T) := c !! Z.to_nat ((f + j) mod cap).

Record ring (d : t) (l : list T) : Prop := {
  rep_size : mSize d = alen l;
  rep_len : alen (mContents d) = mCapacity d;
  rep_cap : 0 < mCapacity d /\ alen l <= mCapacity d;
  rep_small : alen l < 2 ^ 30;
  rep_front : l <> [] -> 0 <= mFront d < mCapacity d;
  rep_back : l <> [] -> mBack d = (mFront d + (alen l - 1)) mod mCapacity d;
  rep_slot j v : l !! j = Some v -> slot (mContents d) (mCapacity d) (mFront d) (Z.of_nat j) = Some (Some v) }.

(** Between operations at most half of the array and two slots are free. *)
Definition rep (d : t) (l : list T) : Prop := ring d l /\ mCapacity d <= 2 * alen l + 2.

(** *** Slots *)

Lemma slot_inj cap f j k : 0 <= j < cap -> 0 <= k < cap -> (f + j) mod cap = (f + k) mod cap -> j = k.
Proof.
  intros Hj Hk E. pose proof (Z.div_mod (f + j) cap ltac:(lia)). pose proof (Z.div_mod (f + k) cap ltac:(lia)).
  assert (j - k = cap * ((f + j) / cap - (f + k) / cap)) by lia.
  destruct (Z.lt_trichotomy ((f + j) / cap - (f + k) / cap) 0) as [?|[?|?]]; nia.
Qed.

Lemma store_slot c cap f k v : alen c = cap -> 0 <= k < cap ->
  exists c', store c ((f + k) mod cap) v = Some c' /\ alen c' = cap /\ slot c' cap f k = Some v /\
    forall j, 0 <= j < cap -> j <> k -> slot c' cap f j = slot c cap f j.
Proof.
  intros Hc Hk. pose proof (Z.mod_pos_bound (f + k) cap ltac:(lia)). unfold store.
  rewrite (proj2 (Z.leb_le 0 _)), (proj2 (Z.ltb_lt _ (alen c))) by lia. cbn [andb].
  eexists. split; [reflexivity|]. unfold alen in *. rewrite length_insert. split; [done|]. unfold slot. split.
  - apply list_lookup_insert_eq. lia.
  - intros j Hj Hne. apply list_lookup_insert_ne. intros E. apply Hne.
    pose proof (Z.mod_pos_bound (f + j) cap ltac:(lia)). apply (slot_inj cap f); lia.
Qed.

Lemma slot_anth c cap f j : 0 < cap -> anth c ((f + j) mod cap) = slot c cap f j.
Proof.
  intros. unfold anth, slot. pose proof (Z.mod_pos_bound (f + j) cap ltac:(lia)).
  by rewrite (proj2 (Z.leb_le 0 _)) by lia.
Qed.

Lemma slot_some c cap f j : alen c = cap -> 0 < cap -> exists p, slot c cap f j = Some p.
Proof.
  intros Hc H0. pose proof (Z.mod_pos_bound (f + j) cap H0). unfold slot.
  apply lookup_lt_is_Some_2. unfold alen in Hc. lia.
Qed.

Lemma wrap_pos a cap : 0 < cap -> wrap a cap = Some (a mod cap).
Proof. intros. unfold wrap. by rewrite (proj2 (Z.eqb_neq cap 0)) by lia. Qed.

Lemma slot_front c cap f g j k : (f + j) mod cap = (g + k) mod cap -> slot c cap f j = slot c cap g k.
Proof. unfold slot. by intros ->. Qed.

Lemma mod_step a b cap : 0 < cap -> (a mod cap + b) mod cap = (a + b) mod cap.
Proof. intros. by rewrite Zplus_mod_idemp_l. Qed.
Lemma mod_back a b cap : 0 < cap -> (a mod cap - b + cap) mod cap = (a - b) mod cap.
Proof.
  intros. replace (a mod cap - b + cap) with (a mod cap + (- b + 1 * cap)) by lia.
  rewrite Zplus_mod_idemp_l. replace (a + (- b + 1 * cap)) with (a - b + 1 * cap) by lia. by rewrite Z_mod_plus_full.
Qed.

(** *** Resizing *)

Lemma reset_loop_spec src cap f newCap : alen src = cap -> 0 < cap ->
  forall n i dst, alen dst = newCap -> 0 <= i -> i + Z.of_nat n <= newCap ->
  exists c, reset_loop n cap ((f + i) mod cap) i src dst = Some c /\ alen c = newCap /\
    forall j, 0 <= j < newCap -> slot c newCap 0 j =
      if decide (i <= j < i + Z.of_nat n) then slot src cap f j else slot dst newCap 0 j.
Proof.
  intros Hs H0. induction n as [|n IH]; intros i dst Hd Hi Hle; cbn [reset_loop].
  { exists dst. split; [done|]. split; [done|]. intros j Hj. by rewrite decide_False by lia. }
  rewrite slot_anth by done. destruct (slot_some src cap f i Hs H0) as [p Hp]. rewrite Hp. cbn [mbind option_bind].
  destruct (store_slot dst newCap 0 i p Hd ltac:(lia)) as (d1 & E & L1 & A1 & B1).
  rewrite Z.add_0_l, Z.mod_small in E by lia. rewrite E. cbn [mbind option_bind].
  rewrite wrap_pos, mod_step by done. cbn [mbind option_bind]. replace (f + i + 1) with (f + (i + 1)) by lia.
  destruct (IH (i + 1) d1 L1 ltac:(lia) ltac:(lia)) as (c & Ec & Lc & Sc).
  exists c. split; [done|]. split; [done|]. intros j Hj. rewrite Sc by done.
  destruct (decide (j = i)) as [->|Hne].
  - by rewrite decide_False, decide_True, A1, Hp by lia.
  - repeat case_decide; try lia; [done|]. by apply B1.
Qed.

Lemma resetCap_spec d l newCap : ring d l -> alen l < newCap ->
  exists d', resetCap d newCap = Some d' /\ ring d' l /\ mCapacity d' = newCap.
Proof.
  intros [Rs Rl Rc Rm Rf Rb Rv] Hn. pose proof (alen_nonneg l) as Hl0. unfold resetCap. rewrite (proj2 (Z.leb_gt _ _)) by lia.
  assert (Ha : alen (new_array newCap) = newCap) by (unfold alen, new_array; rewrite length_replicate; lia).
  destruct (decide (l = [])) as [->|Hne].
  { rewrite Rs. cbn [Z.to_nat alen length Z.of_nat reset_loop mbind option_bind].
    eexists. split; [reflexivity|]. split; [|done]. split; cbn in *; try done; lia. }
  specialize (Rf Hne).
  destruct (reset_loop_spec (mContents d) (mCapacity d) (mFront d) newCap Rl ltac:(lia)
    (Z.to_nat (mSize d)) 0 (new_array newCap) Ha ltac:(lia) ltac:(lia)) as (c & E & Lc & Sc).
  rewrite Z.add_0_r, Z.mod_small in E by done. rewrite E. cbn [mbind option_bind].
  assert (Hl : 0 < alen l) by (destruct l; [done|unfold alen; simpl; lia]).
  eexists. split; [reflexivity|]. split; [|done]. split; cbn [mSize mCapacity mFront mBack mContents]; try done; try lia.
  - intros _. rewrite Rs, u32_small by lia. by rewrite Z.mod_small by lia.
  - intros j v Hj. pose proof (lookup_lt_Some _ _ _ Hj). rewrite Sc by (unfold alen in *; lia).
    rewrite decide_True by (unfold alen in *; lia). auto.
Qed.

Lemma grow_spec d l : rep d l -> l <> [] ->
  exists d', grow d = Some d' /\ rep d' l /\ alen l < mCapacity d'.
Proof.
  intros [R Hc] Hne. assert (Hl : 0 < alen l) by (destruct l; [done|unfold alen; simpl; lia]).
  unfold grow. destruct (Z.eqb_spec (mSize d) (mCapacity d)) as [E|E].
  - rewrite u32_small by (destruct R; lia). rewrite (rep_size _ _ R) in E.
    destruct (resetCap_spec d l (2 * mCapacity d) R ltac:(lia)) as (d' & E' & R' & Hc').
    exists d'. split; [done|]. split; [split; [done|]|]; lia.
  - exists d. split; [done|]. split; [by split|]. destruct R; lia.
Qed.

Lemma shrink_spec d l : ring d l -> mCapacity d <= 2 * alen l + 4 ->
  exists d', shrink d = Some d' /\ rep d' l.
Proof.
  intros R Hc. pose proof (alen_nonneg l). unfold shrink. rewrite (rep_size _ _ R).
  destruct (Z.leb_spec (alen l) (mCapacity d / 2)) as [E|E].
  - destruct (Z.eq_dec (alen l) (mCapacity d / 2)) as [E1|E1].
    + unfold resetCap. rewrite (rep_size _ _ R), (proj2 (Z.leb_le _ _)) by lia.
      exists d. split; [done|]. split; [done|]. zdiv.
    + destruct (resetCap_spec d l (mCapacity d / 2) R ltac:(lia)) as (d' & E' & R' & Hc').
      exists d'. split; [done|]. split; [done|]. rewrite Hc'. zdiv.
  - exists d. split; [done|]. split; [done|]. zdiv.
Qed.

(** *** Operations *)

Lemma init_rep : rep init [].
Proof. split; [split|]; cbn; try done; lia. Qed.

Lemma push_first_spec d v : rep d [] -> exists d', push_first d v = Some d' /\ rep d' [v].
Proof.
  intros [[Rs Rl Rc Rm _ _ _] Hc]. change (alen (@nil T)) with 0 in *. unfold push_first.
  destruct (store_slot (mContents d) (mCapacity d) 0 0 (Some v) Rl ltac:(lia)) as (c & E & Lc & A & _).
  rewrite Z.add_0_l, Z.mod_small in E by lia. rewrite E. cbn [mbind option_bind].
  change (alen [v]) with 1. change (alen (@nil T)) with 0 in *.
  eexists. split; [reflexivity|]. split; [split|]; cbn [mSize mCapacity mFront mBack mContents];
    change (alen [v]) with 1; try done; try lia.
  intros j w Hj. destruct j as [|j]; [injection Hj as <-; exact A|done].
Qed.

(** The slots after the element at position [k] is written. *)
Lemma push_back_spec d l v : rep d l -> alen l + 1 < 2 ^ 30 ->
  exists d', push_back d v = Some d' /\ rep d' (l ++ [v]).
Proof.
  intros R Hm. unfold push_back. rewrite (rep_size _ _ (proj1 R)).
  destruct (Z.eqb_spec (alen l) 0) as [E|E].
  { assert (l = []) as -> by (destruct l; [done|unfold alen in E; simpl in E; lia]). by apply push_first_spec. }
  assert (Hne : l <> []) by (intros ->; done).
  destruct (grow_spec d l R Hne) as (d1 & -> & [R1 Hc1] & Hlt). cbn [mbind option_bind].
  destruct R1 as [Rs Rl Rc Rm Rf Rb Rv]. specialize (Rf Hne). specialize (Rb Hne).
  assert (Hb : 0 <= mBack d1 < mCapacity d1) by (rewrite Rb; apply Z.mod_pos_bound; lia).
  rewrite u32_small, wrap_pos, Rb, mod_step by lia. cbn [mbind option_bind].
  replace (mFront d1 + (alen l - 1) + 1) with (mFront d1 + alen l) by lia.
  destruct (store_slot (mContents d1) (mCapacity d1) (mFront d1) (alen l) (Some v) Rl ltac:(lia))
    as (c & -> & Lc & A & B). cbn [mbind option_bind].
  assert (Hl : alen (l ++ [v]) = alen l + 1) by (unfold alen; rewrite length_app; simpl; lia).
  eexists. split; [reflexivity|]. split; [split|]; rewrite ?Hl; cbn [mSize mCapacity mFront mBack mContents]; try done; try lia.
  - intros _. f_equal. lia.
  - intros j w Hj. destruct (decide (Z.of_nat j = alen l)) as [Ej|Ej].
    + rewrite Ej. assert (j = length l) as -> by (unfold alen in Ej; lia).
      rewrite list_lookup_middle in Hj by done. injection Hj as <-. done.
    + pose proof (lookup_lt_Some _ _ _ Hj) as Hlj. rewrite length_app in Hlj. simpl in Hlj. unfold alen in *.
      rewrite lookup_app_l in Hj by lia. rewrite B by lia. auto.
Qed.

Lemma push_front_spec d l v : rep d l -> alen l + 1 < 2 ^ 30 ->
  exists d', push_front d v = Some d' /\ rep d' (v :: l).
Proof.
  intros R Hm. unfold push_front. rewrite (rep_size _ _ (proj1 R)).
  destruct (Z.eqb_spec (alen l) 0) as [E|E].
  { assert (l = []) as -> by (destruct l; [done|unfold alen in E; simpl in E; lia]). by apply push_first_spec. }
  assert (Hne : l <> []) by (intros ->; done).
  destruct (grow_spec d l R Hne) as (d1 & -> & [R1 Hc1] & Hlt). cbn [mbind option_bind].
  destruct R1 as [Rs Rl Rc Rm Rf Rb Rv]. specialize (Rf Hne). specialize (Rb Hne).
  set (cap := mCapacity d1) in *. set (g := (mFront d1 - 1) mod cap).
  rewrite u32_small, wrap_pos by lia. cbn [mbind option_bind].
  assert (Eg : (mFront d1 - 1 + cap) mod cap = (g + 0) mod cap).
  { unfold g. rewrite Z.add_0_r, Zmod_mod. replace (mFront d1 - 1 + cap) with (mFront d1 - 1 + 1 * cap) by lia.
    by rewrite Z_mod_plus_full. }
  rewrite Eg. destruct (store_slot (mContents d1) cap g 0 (Some v) Rl ltac:(lia)) as (c & -> & Lc & A & B).
  cbn [mbind option_bind]. rewrite Z.add_0_r. assert (Hg : 0 <= g < cap) by (apply Z.mod_pos_bound; lia).
  rewrite (Z.mod_small g) by done.
  assert (Hl : alen (v :: l) = alen l + 1) by (unfold alen; simpl; lia).
  eexists. split; [reflexivity|]. split; [split|]; rewrite ?Hl; cbn [mSize mCapacity mFront mBack mContents]; try done; try lia.
  - intros _. unfold g. rewrite mod_step, Rb by lia. f_equal. lia.
  - intros [|j] w Hj; [injection Hj as ->; done|]. pose proof (lookup_lt_Some _ _ _ Hj) as Hlj. simpl in Hlj.
    rewrite B by (unfold alen in *; lia). rewrite <- (Rv j w Hj). apply slot_front.
    unfold g. rewrite mod_step by lia. f_equal. lia.
Qed.

Lemma pop_front_spec d v l : rep d (v :: l) -> exists d', pop_front d = Some d' /\ rep d' l.
Proof.
  intros [[Rs Rl Rc Rm Rf Rb Rv] Hc]. assert (Hl : alen (v :: l) = alen l + 1) by (unfold alen; simpl; lia).
  rewrite Hl in *. pose proof (alen_nonneg l). specialize (Rf ltac:(done)). specialize (Rb ltac:(done)).
  unfold pop_front. rewrite (proj2 (Z.eqb_neq _ _)) by lia.
  destruct (store_slot (mContents d) (mCapacity d) (mFront d) 0 None Rl ltac:(lia)) as (c & E & Lc & _ & B).
  rewrite Z.add_0_r, Z.mod_small in E by done. rewrite E. cbn [mbind option_bind].
  rewrite u32_small, wrap_pos by lia. cbn [mbind option_bind]. apply shrink_spec.
  - split; cbn [mSize mCapacity mFront mBack mContents]; try done; try lia.
    + intros _. apply Z.mod_pos_bound. lia.
    + intros _. rewrite mod_step, Rb by lia. f_equal. lia.
    + intros j w Hj. pose proof (lookup_lt_Some _ _ _ Hj). rewrite <- (Rv (S j) w Hj).
      rewrite <- B by (unfold alen in *; lia). apply slot_front. rewrite mod_step by lia. f_equal. lia.
  - cbn [mCapacity]. lia.
Qed.

Lemma pop_back_spec d v l : rep d (l ++ [v]) -> exists d', pop_back d = Some d' /\ rep d' l.
Proof.
  intros [[Rs Rl Rc Rm Rf Rb Rv] Hc].
  assert (Hl : alen (l ++ [v]) = alen l + 1) by (unfold alen; rewrite length_app; simpl; lia).
  rewrite Hl in *. pose proof (alen_nonneg l). assert (Hne : l ++ [v] <> []) by (by destruct l).
  specialize (Rf Hne). specialize (Rb Hne). replace (alen l + 1 - 1) with (alen l) in Rb by lia.
  unfold pop_back. rewrite (proj2 (Z.eqb_neq _ _)) by lia. rewrite Rb.
  destruct (store_slot (mContents d) (mCapacity d) (mFront d) (alen l) None Rl ltac:(lia)) as (c & -> & Lc & _ & B).
  cbn [mbind option_bind]. pose proof (Z.mod_pos_bound (mFront d + alen l) (mCapacity d) ltac:(lia)).
  rewrite u32_small, wrap_pos, mod_back by lia. cbn [mbind option_bind]. apply shrink_spec.
  - split; cbn [mSize mCapacity mFront mBack mContents]; try done; try lia.
    + intros _. f_equal. lia.
    + intros j w Hj. pose proof (lookup_lt_Some _ _ _ Hj). rewrite B by (unfold alen in *; lia).
      apply Rv. by apply lookup_app_l_Some.
  - cbn [mCapacity]. lia.
Qed.

Lemma move_loop_spec cap f : 0 < cap < 2 ^ 31 -> forall n c b,
  alen c = cap -> -1 <= b -> b + 1 < cap -> Z.of_nat n <= b + 1 ->
  exists c', move_loop n cap ((f + b) mod cap) c = Some c' /\ alen c' = cap /\
    forall j, 0 <= j < cap -> slot c' cap f j =
      if decide (b + 1 - Z.of_nat n < j <= b + 1) then slot c cap f (j - 1) else slot c cap f j.
Proof.
  intros Hcap. induction n as [|n IH]; intros c b Hc Hb0 Hb Hn; cbn [move_loop].
  { exists c. split; [done|]. split; [done|]. intros j Hj. by rewrite decide_False by lia. }
  rewrite slot_anth by lia. destruct (slot_some c cap f b Hc ltac:(lia)) as [p Hp]. rewrite Hp. cbn [mbind option_bind].
  pose proof (Z.mod_pos_bound (f + b) cap ltac:(lia)).
  rewrite (u32_small ((f + b) mod cap + 1)), (wrap_pos ((f + b) mod cap + 1)), mod_step by lia.
  cbn [mbind option_bind]. replace (f + b + 1) with (f + (b + 1)) by lia.
  destruct (store_slot c cap f (b + 1) p Hc ltac:(lia)) as (c1 & -> & L1 & A & B). cbn [mbind option_bind].
  rewrite u32_small, wrap_pos, mod_back by lia. cbn [mbind option_bind]. replace (f + b - 1) with (f + (b - 1)) by lia.
  destruct (IH c1 (b - 1) L1 ltac:(lia) ltac:(lia) ltac:(lia)) as (c' & E & L & Sl).
  exists c'. split; [done|]. split; [done|]. intros j Hj. rewrite Sl by done.
  destruct (decide (j = b + 1)) as [->|Hne].
  - rewrite decide_False, decide_True by lia. rewrite A. replace (b + 1 - 1) with b by lia. done.
  - repeat case_decide; try lia; apply B; lia.
Qed.

Lemma deque_insert_spec d l v index : rep d l -> 0 <= index <= alen l -> alen l + 1 < 2 ^ 30 ->
  exists d', insert d v index = Some d' /\ rep d' (take (Z.to_nat index) l ++ v :: drop (Z.to_nat index) l).
Proof.
  intros R Hi Hm. unfold insert. rewrite (rep_size _ _ (proj1 R)).
  destruct (Z.eqb_spec index (alen l)) as [->|E1].
  { unfold alen. rewrite Nat2Z.id, firstn_all, drop_all. by apply push_back_spec. }
  destruct (Z.eqb_spec index 0) as [->|E2]; [by apply push_front_spec|].
  rewrite (proj2 (Z.eqb_neq _ 0)) by lia. assert (Hne : l <> []) by (intros ->; unfold alen in *; simpl in *; lia).
  destruct (grow_spec d l R Hne) as (d1 & -> & [R1 Hc1] & Hlt). cbn [mbind option_bind]. cbv zeta.
  destruct R1 as [Rs Rl Rc Rm Rf Rb Rv]. specialize (Rf Hne). specialize (Rb Hne).
  set (cap := mCapacity d1) in *. set (f := mFront d1) in *.
  assert (Hb : 0 <= mBack d1 < cap) by (rewrite Rb; apply Z.mod_pos_bound; lia).
  rewrite (u32_small (f + index)), (u32_small (mSize d1 + 1 - index)), (u32_small (mBack d1 + 1)) by lia.
  rewrite (wrap_pos (f + index)) by lia. cbn [mbind option_bind]. rewrite Rb, Rs.
  destruct (move_loop_spec cap f ltac:(lia) (Z.to_nat (alen l + 1 - index)) (mContents d1) (alen l - 1) Rl
    ltac:(lia) ltac:(lia) ltac:(lia)) as (c & -> & Lc & Sc). cbn [mbind option_bind].
  rewrite wrap_pos, mod_step by lia. cbn [mbind option_bind].
  destruct (store_slot c cap f index (Some v) Lc ltac:(lia)) as (c' & -> & Lc' & A & B). cbn [mbind option_bind].
  set (l' := take (Z.to_nat index) l ++ v :: drop (Z.to_nat index) l).
  assert (Hl' : alen l' = alen l + 1).
  { unfold l', alen in *. rewrite length_app, length_take. simpl. rewrite length_drop. lia. }
  eexists. split; [reflexivity|]. split; [split|]; rewrite ?Hl'; cbn [mSize mCapacity mFront mBack mContents]; try done; try lia.
  - intros _. f_equal. lia.
  - intros j w Hj. pose proof (lookup_lt_Some _ _ _ Hj) as Hjl. assert (Hjl' : Z.of_nat j < alen l + 1) by (unfold alen in *; lia).
    unfold l' in Hj. destruct (decide (Z.of_nat j = index)) as [Ej|Ej].
    { rewrite Ej, A. rewrite list_lookup_middle in Hj; [congruence|].
      rewrite length_take. unfold alen in *. lia. }
    rewrite B, Sc by lia. rewrite Z2Nat.id by lia.
    destruct (decide (Z.of_nat j < index)) as [Hlt'|Hge].
    + rewrite decide_False by lia. apply Rv.
      rewrite lookup_app_l, lookup_take_lt in Hj by (rewrite ?length_take; unfold alen in *; lia). done.
    + rewrite decide_True by lia. replace (Z.of_nat j - 1) with (Z.of_nat (j - 1)) by lia. apply Rv.
      rewrite lookup_app_r, length_take in Hj by (rewrite length_take; lia).
      rewrite lookup_cons_ne_0, lookup_drop in Hj by (unfold alen in *; lia).
      rewrite <- Hj. f_equal. unfold alen in *. lia.
Qed.

(** *** Observers *)

Lemma deref_slot d l j v : ring d l -> l !! j = Some v ->
  deref (mContents d) ((mFront d + Z.of_nat j) mod mCapacity d) = Some v.
Proof. intros R Hj. unfold deref. rewrite slot_anth by apply R. by rewrite (rep_slot _ _ R j v Hj). Qed.

Lemma at_spec d l pos : rep d l -> 0 <= pos -> at_ d pos = Some (l !! Z.to_nat pos).
Proof.
  intros [R Hc] Hp. unfold at_. rewrite (rep_size _ _ R). destruct (Z.leb_spec (alen l) pos) as [E|E].
  - rewrite lookup_ge_None_2; [done|]. unfold alen in E. lia.
  - destruct (lookup_lt_is_Some_2 l (Z.to_nat pos)) as [v Hv]; [unfold alen in E; lia|].
    destruct (decide (l = [])) as [->|Hne]; [done|].
    pose proof (rep_front _ _ R Hne). pose proof (rep_cap _ _ R). pose proof (rep_small _ _ R).
    rewrite u32_small, wrap_pos by lia. cbn [mbind option_bind].
    replace pos with (Z.of_nat (Z.to_nat pos)) at 1 by lia. rewrite (deref_slot d l _ v) by done. by rewrite Hv.
Qed.

Lemma front_spec d l : rep d l -> front d = Some (head l).
Proof.
  intros [R Hc]. unfold front. rewrite (rep_size _ _ R). destruct l as [|v l]; [done|].
  pose proof (alen_nonneg l). assert (Hl : alen (v :: l) = alen l + 1) by (unfold alen; simpl; lia).
  rewrite (proj2 (Z.eqb_neq _ 0)) by lia. pose proof (rep_front _ _ R ltac:(done)).
  pose proof (deref_slot d (v :: l) 0 v R eq_refl) as Hd. change (Z.of_nat 0) with 0 in Hd. rewrite Z.add_0_r, Z.mod_small in Hd by done.
  by rewrite Hd.
Qed.

Lemma back_spec d l : rep d l -> back d = Some (list.last l).
Proof.
  intros [R Hc]. unfold back. rewrite (rep_size _ _ R). destruct (decide (l = [])) as [->|Hne]; [done|].
  assert (0 < alen l) by (destruct l; [done|unfold alen; simpl; lia]).
  rewrite (proj2 (Z.eqb_neq _ 0)), (rep_back _ _ R Hne) by lia.
  destruct (list.last l) as [v|] eqn:El; [|by apply last_None in El].
  rewrite last_lookup in El. replace (alen l - 1) with (Z.of_nat (pred (length l))) by (unfold alen in *; lia).
  by rewrite (deref_slot d l _ v).
Qed.

Lemma copy_loop_spec src cap f (l : list T) : alen src = cap -> 0 < cap ->
  (forall j v, l !! j = Some v -> slot src cap f (Z.of_nat j) = Some (Some v)) -> alen l <= cap ->
  forall n i dst, alen dst = cap -> (i + n)%nat = length l ->
  exists c, copy_loop n cap ((f + Z.of_nat i) mod cap) src dst = Some c /\ alen c = cap /\
    forall j, 0 <= j < cap -> slot c cap f j =
      if decide (Z.of_nat i <= j < alen l) then slot src cap f j else slot dst cap f j.
Proof.
  intros Hs H0 Hv Hl. induction n as [|n IH]; intros i dst Hd Hi; cbn [copy_loop].
  { exists dst. split; [done|]. split; [done|]. intros j Hj. unfold alen. by rewrite decide_False by lia. }
  destruct (lookup_lt_is_Some_2 l i) as [v Ev]; [lia|]. unfold deref. rewrite slot_anth, (Hv i v) by done.
  cbn [mjoin option_join mbind option_bind].
  destruct (store_slot dst cap f (Z.of_nat i) (Some v) Hd ltac:(unfold alen in *; lia)) as (d1 & -> & L1 & A1 & B1).
  cbn [mbind option_bind]. rewrite wrap_pos, mod_step by done. cbn [mbind option_bind].
  replace (f + Z.of_nat i + 1) with (f + Z.of_nat (S i)) by lia.
  destruct (IH (S i) d1 L1 ltac:(lia)) as (c & Ec & Lc & Sc).
  exists c. split; [done|]. split; [done|]. intros j Hj. rewrite Sc by done. unfold alen in *.
  destruct (decide (j = Z.of_nat i)) as [->|Hne].
  - by rewrite decide_False, decide_True, A1, (Hv i v) by (done || lia).
  - repeat case_decide; try lia; [done|]. by apply B1.
Qed.

Lemma copy_spec d l : rep d l -> exists d', copy d = Some d' /\ rep d' l.
Proof.
  intros [R Hc]. pose proof R as [Rs Rl Rc Rm Rf Rb Rv]. unfold copy.
  assert (Ha : alen (new_array (mCapacity d)) = mCapacity d) by (unfold alen, new_array; rewrite length_replicate; lia).
  destruct (decide (l = [])) as [->|Hne].
  { rewrite Rs. cbn [Z.to_nat alen length Z.of_nat copy_loop mbind option_bind].
    eexists. split; [reflexivity|]. split; [|done]. by split. }
  specialize (Rf Hne).
  destruct (copy_loop_spec (mContents d) (mCapacity d) (mFront d) l Rl ltac:(lia) Rv ltac:(lia)
    (Z.to_nat (mSize d)) 0%nat (new_array (mCapacity d)) Ha ltac:(unfold alen in *; lia)) as (c & E & Lc & Sc).
  change (Z.of_nat 0) with 0 in *. rewrite Z.add_0_r, Z.mod_small in E by done. rewrite E. cbn [mbind option_bind].
  eexists. split; [reflexivity|]. split; [|done]. split; cbn [mSize mCapacity mFront mBack mContents]; try done.
  intros j v Hj. pose proof (lookup_lt_Some _ _ _ Hj). rewrite Sc, decide_True by (unfold alen in *; lia). auto.
Qed.

Lemma nullify_loop_spec cap f : 0 < cap -> forall n i c, alen c = cap ->
  is_Some (nullify_loop n cap ((f + i) mod cap) c).
Proof.
  intros H0. induction n as [|n IH]; intros i c Hc; [by eexists|]. cbn [nullify_loop].
  destruct (store_slot c cap ((f + i) mod cap) 0 None Hc ltac:(lia)) as (c1 & E & L1 & _).
  rewrite Z.add_0_r, Zmod_mod in E. rewrite E. cbn [mbind option_bind]. rewrite wrap_pos, mod_step by done.
  cbn [mbind option_bind]. replace (f + i + 1) with (f + (i + 1)) by lia. by apply IH.
Qed.

Lemma nullify_spec d l : rep d l -> is_Some (nullifyContent d).
Proof.
  intros [[Rs Rl Rc Rm Rf Rb Rv] Hc]. unfold nullifyContent. destruct (decide (l = [])) as [->|Hne].
  { rewrite Rs. by eexists. }
  destruct (nullify_loop_spec (mCapacity d) (mFront d) ltac:(lia) (Z.to_nat (mSize d)) 0 (mContents d) Rl) as [c E].
  rewrite Z.add_0_r, Z.mod_small in E by auto. rewrite E. by eexists.
Qed.

(** ** The deque against the list *)

Inductive op := PushBack (v : T) | PushFront (v : T) | Insert (v : T) (i : Z) | PopBack | PopFront | Clear | Copy.

Definition step (d : t) (o : op) : option t :=
  match o with
  | PushBack v => push_back d v
  | PushFront v => push_front d v
  | Insert v i => insert d v i
  | PopBack => pop_back d
  | PopFront => pop_front d
  | Clear => clear d
  | Copy => copy d
  end.
Definition list_step (l : list T) (o : op) : list T :=
  match o with
  | PushBack v => l ++ [v]
  | PushFront v => v :: l
  | Insert v i => take (Z.to_nat i) l ++ v :: drop (Z.to_nat i) l
  | PopBack => take (pred (length l)) l
  | PopFront => tail l
  | Clear => []
  | Copy => l
  end.

(** An insertion is at most at the end. *)
Definition op_ok (l : list T) (o : op) : Prop :=
  match o with Insert _ i => 0 <= i <= alen l | _ => True end.

Fixpoint steps (d : t) (os : list op) : option t :=
  match os with [] => Some d | o :: os => d ← step d o; steps d os end.
Fixpoint ops_ok (l : list T) (os : list op) : Prop :=
  match os with [] => True | o :: os => op_ok l o /\ ops_ok (list_step l o) os end.

Lemma step_spec d l o : rep d l -> op_ok l o -> alen l + 1 < 2 ^ 30 ->
  exists d', step d o = Some d' /\ rep d' (list_step l o).
Proof.
  intros R Ho Hm. destruct o; cbn [step list_step].
  - by apply push_back_spec.
  - by apply push_front_spec.
  - by apply deque_insert_spec.
  - destruct (decide (l = [])) as [->|Hne].
    { exists d. split; [|done]. unfold pop_back. by rewrite (rep_size _ _ (proj1 R)). }
    destruct (exists_last Hne) as (l0 & v & ->). rewrite length_app, Nat.add_1_r. cbn [pred].
    rewrite take_app_length. by eapply pop_back_spec.
  - destruct l as [|v l]; [|by eapply pop_front_spec].
    exists d. split; [|done]. unfold pop_front. by rewrite (rep_size _ _ (proj1 R)).
  - unfold clear. destruct (nullify_spec d l R) as [c ->]. exists init. split; [done|apply init_rep].
  - by apply copy_spec.
Qed.

Lemma list_step_length l o : alen (list_step l o) <= alen l + 1.
Proof.
  unfold alen. destruct o; cbn [list_step]; rewrite ?length_app, ?length_take; simpl; rewrite ?length_drop;
    try (destruct l; simpl; lia); lia.
Qed.

(** C38: Whatever is done to a deque of fewer than 2^30 elements, no access leaves the
    array or reads a missing element, and every observer answers what it answers of
    the list the operations describe; the array is never more than half empty but for
    two slots. *)
Theorem deque_refines_list (os : list op) :
  ops_ok [] os -> alen os < 2 ^ 30 ->
  let l := foldl list_step [] os in
  exists d, steps init os = Some d /\ size d = alen l /\ empty d = bool_decide (l = []) /\
    front d = Some (head l) /\ back d = Some (list.last l) /\
    (forall pos, 0 <= pos -> at_ d pos = Some (l !! Z.to_nat pos)) /\
    size d <= max_size d <= 2 * size d + 2.
Proof.
  intros Hos Hm l. assert (Hgen : forall os d l, rep d l -> ops_ok l os -> alen l + alen os < 2 ^ 30 ->
    exists d', steps d os = Some d' /\ rep d' (foldl list_step l os)).
  { clear. induction os as [|o os IH]; intros d l R Hos Hm; [by exists d|].
    assert (Hos' : alen (o :: os) = alen os + 1) by (unfold alen; simpl; lia). pose proof (alen_nonneg os).
    destruct Hos as [Ho Hos]. destruct (step_spec d l o R Ho ltac:(lia)) as (d1 & E & R1).
    cbn [steps foldl]. rewrite E. cbn [mbind option_bind]. apply IH; [done|done|].
    pose proof (list_step_length l o). lia. }
  destruct (Hgen os init [] init_rep Hos ltac:(unfold alen in *; simpl; lia)) as (d & E & R). fold l in R.
  exists d. split; [done|]. pose proof R as [Rg Hc]. unfold size, empty, max_size. rewrite (rep_size _ _ Rg).
  pose proof (rep_cap _ _ Rg). split_and!; try done; try lia.
  - destruct l as [|v l']; [done|]. rewrite bool_decide_false by done. apply Z.eqb_neq. unfold alen. simpl. lia.
  - by apply front_spec.
  - by apply back_spec.
  - intros pos Hp. by apply at_spec.
Qed.
End deque.
#[global] Arguments t : clear implicits.

Lemma deque_refines_list_witness :
  exists d, steps init [PushBack 1; PushBack 2; PushFront 0; Insert 7 2; PopBack] = Some d /\
    size d = 3 /\ front d = Some (Some 0) /\ back d = Some (Some 7) /\ at_ d 1 = Some (Some 1).
Proof.
  destruct (deque_refines_list [PushBack 1; PushBack 2; PushFront 0; Insert 7 2; PopBack])
    as (d & E & Hs & _ & Hf & Hb & Ha & _).
  - cbn. unfold alen. cbn. lia.
  - vm_compute. reflexivity.
  - exists d. split; [exact E|]. split; [exact Hs|]. split; [exact Hf|]. split; [exact Hb|]. apply (Ha 1). lia.
Defined.
End Deque.
