(* ===== verification/PhysPages.v ===== *)
(** * [palloc::PhysPageManager<MaxMemory>] (student-distrib/inc/klibs/palloc.h)

    The physical page allocator: a bit per 4 MB page that says whether it is
    free, and a stack of candidates. The constructor reads the multiboot memory
    map and module list. [AutoSpinLock] is taken and released by every method
    on every path, so a method is one atomic step here.

    [is_free] is the abstraction; [step] is a client that allocates, frees what
    it owns, and reserves pages; the safety theorem is about every state that
    such a client can reach. *)
From stdpp Require Import prelude gmap list numbers sets.
From Stdlib Require Import ZArith Lia.
From S2P Require Import Prelude BitSet Stack.

(** student-distrib/inc/multiboot.h *)
Record memory_map_t := mk_mmap {
  mm_size : Z; base_addr_low : Z; base_addr_high : Z;
  length_low : Z; length_high : Z; mm_type : Z }.
Record module_t := mk_module { mod_start : Z; mod_end : Z }.
Record multiboot_info_t := mk_mbi {
  mbi_flags : Z; mods : list module_t;
  mmap_length : Z; mmap_addr : Z }.

Definition CHECK_FLAG (flags bit : Z) : bool :=
  negb (Z.land flags (Z.shiftl 1 bit) =? 0).

Definition SmallestPageSize : Z := MB 4.

Module PhysPages.

Record t := mk {
  isPhysAddrFree : BitSet.t;
  freePhysAddr : Stack.t Z;
  isCommonPage : BitSet.t }.

Section ops.
(** [n] is [MaxNumElements = MaxMemory / SmallestPageSize]. *)
Context (n : Z).

Definition init : t := mk (BitSet.init n) (Stack.init n 0) (BitSet.init n).

(** The pointer walk over the memory map: the entries visited from address
    [addr] up to [mmap_addr + mmap_length]. [rd] reads an entry; running out
    of [fuel] (an entry whose size wraps the pointer backwards) is [None]. *)
Fixpoint mmap_walk (rd : Z -> memory_map_t) (fuel : nat) (addr lim : Z)
    : option (list memory_map_t) :=
  if u32 addr <? lim then
    match fuel with
    | O => None
    | S fuel' =>
        let m := rd addr in
        rest ← mmap_walk rd fuel' (u32 (addr + mm_size m + 4)) lim;
        Some (m :: rest)
    end
  else Some [].

(** Body of the inner loop: one page index of an available region. *)
Definition add_page (idx : Z) (st : t) : t :=
  if (idx =? 0) || (idx =? 1) then st
  else if BitSet.test n (isPhysAddrFree st) idx then st
  else mk (BitSet.set n (isPhysAddrFree st) idx)
          (Stack.push n (freePhysAddr st) (u16 idx))
          (isCommonPage st).

(** Body of the memory-map loop. *)
Definition add_region (m : memory_map_t) (st : t) : t :=
  let start_low := base_addr_low m in
  let start_high := base_addr_high m in
  if 0 <? start_high then st
  else if 0xffffffff - start_high <? length_high m then st
  else
    let end_high0 := u32 (start_high + length_high m) in
    let end_high := if 0xffffffff - start_low <? length_low m
                    then u32 (end_high0 + 1) else end_high0 in
    let end_low := u32 (start_low + length_low m) in
    let start_idx := Z.lor (Z.shiftr start_low 22) (u32 (Z.shiftl start_high 10)) in
    if negb (Z.land (u32 (Z.shiftl (1 - Z.shiftl 1 10) 22)) end_high =? 0) then st
    else
      let end_idx := if end_high =? 0
                     then Z.lor (Z.shiftr end_low 22) (u32 (Z.shiftl end_high 10))
                     else 0xffc in
      if mm_type m =? 1 then for_range start_idx end_idx add_page st else st.

(** The branch without a memory map:
    [for (uint16_t i = MaxNumElements - 1; i >= 2; i++) push(i)]. The index
    grows until it wraps to [0], after [2^16 - (n - 1)] iterations. *)
Definition add_default (st : t) : t :=
  for_range (n - 1) (2 ^ 16)
    (fun i st => mk (isPhysAddrFree st) (Stack.push n (freePhysAddr st) (u16 i))
                    (isCommonPage st)) st.

Definition clear_free (k : Z) (st : t) : t :=
  mk (BitSet.clear n (isPhysAddrFree st) k) (freePhysAddr st) (isCommonPage st).

(** Mark the pages of one boot module as occupied. *)
Definition clear_module (m : module_t) (st : t) : t :=
  let start := mod_start m in
  let numPages := ceil (u32 (mod_end m - start)) (MB 4) in
  for_range 0 numPages
    (fun j => clear_free (Z.shiftr (u32 (start + u32 (j * MB 4))) 22)) st.

(** The constructor. [None]: the walk over the memory map does not end. *)
Definition construct (rd : Z -> memory_map_t) (mbi : multiboot_info_t) : option t :=
  st ← (if CHECK_FLAG (mbi_flags mbi) 6 then
          ms ← mmap_walk rd (Z.to_nat (mmap_length mbi)) (mmap_addr mbi)
                 (u32 (mmap_addr mbi + mmap_length mbi));
          Some (foldl (fun s m => add_region m s) init ms)
        else Some (add_default init));
  Some (foldl (fun s m => clear_module m s)
          (clear_free 1 (clear_free 0 st)) (mods mbi)).

Definition allocPage (st : t) (common : bool) : option Z * t :=
  if Stack.empty (freePhysAddr st) then (None, st)
  else
    let '(top, stk) := Stack.pop 0 (freePhysAddr st) in
    if BitSet.test n (isPhysAddrFree st) top then
      (Some top,
       mk (BitSet.clear n (isPhysAddrFree st) top) stk
          (if common then BitSet.set n (isCommonPage st) top else isCommonPage st))
    else (None, mk (isPhysAddrFree st) stk (isCommonPage st)).

(** [None] is the out-of-range access of [Stack::drop], shown unreachable. *)
Definition markPageAsUsed (st : t) (pageIndex : Z) : option t :=
  if BitSet.test n (isPhysAddrFree st) pageIndex then
    '(_, stk) ← Stack.dropFirst n (freePhysAddr st) (fun p => pageIndex =? p);
    Some (mk (BitSet.clear n (isPhysAddrFree st) pageIndex) stk (isCommonPage st))
  else Some st.

Definition freePage (st : t) (pageIndex : Z) : t :=
  if BitSet.test n (isPhysAddrFree st) pageIndex then st
  else mk (BitSet.set n (isPhysAddrFree st) pageIndex)
          (Stack.push n (freePhysAddr st) pageIndex)
          (BitSet.clear n (isCommonPage st) pageIndex).

Definition is_free (st : t) (p : Z) : Prop := BitSet.test n (isPhysAddrFree st) p = true.

Record wf (st : t) : Prop := {
  wf_bits : BitSet.wf n (isPhysAddrFree st);
  wf_common : BitSet.wf n (isCommonPage st);
  wf_stack : Stack.wf n (freePhysAddr st);
  wf_elems : Forall (fun p => 0 <= p < 2 ^ 16) (Stack.contents (freePhysAddr st)) }.

(** A client of the allocator and the set of pages it owns: those it was given and has
    not given back, and those it reserved. *)
Inductive step : t * gset Z -> t * gset Z -> Prop :=
  | step_alloc st st' c p (own : gset Z) :
      allocPage st c = (Some p, st') -> step (st, own) (st', {[p]} ∪ own)
  | step_alloc_fail st st' c (own : gset Z) :
      allocPage st c = (None, st') -> step (st, own) (st', own)
  | step_free st p (own : gset Z) :
      p ∈ own -> 0 <= p < 2 ^ 16 -> step (st, own) (freePage st p, own ∖ {[p]})
  | step_mark st st' p (own : gset Z) :
      0 <= p < 2 ^ 16 -> markPageAsUsed st p = Some st' -> step (st, own) (st', {[p]} ∪ own).

(** Owned pages are exactly not free. *)
Definition inv (s : t * gset Z) : Prop :=
  wf s.1 /\ forall p, p ∈ s.2 -> 0 <= p /\ ~ is_free s.1 p.
End ops.

Section laws.
Context (n : Z) (Hn : 2 <= n < 2 ^ 16).
Notation test := (BitSet.test n).
Notation wf := (wf n).
Notation is_free := (is_free n).

Lemma phys_wf_init : wf (init n).
Proof.
  split; simpl; auto with bitset stack lia.
Qed.

Lemma Forall_push st v :
  Stack.wf n st -> Forall (fun p => 0 <= p < 2 ^ 16) (Stack.contents st) ->
  0 <= v < 2 ^ 16 ->
  Forall (fun p => 0 <= p < 2 ^ 16) (Stack.contents (Stack.push n st v)).
Proof.
  intros Hw Hf Hv. rewrite Stack.contents_push by done.
  case_decide; [|done]. apply Forall_app. by rewrite Forall_singleton.
Qed.

(** [pop] on a non-empty stack, as one case split. *)
Lemma allocPage_cases st c :
  wf st ->
  (Stack.contents (freePhysAddr st) = [] /\ allocPage n st c = (None, st)) \/
  exists xs top, Stack.contents (freePhysAddr st) = xs ++ [top] /\
    let stk := (Stack.pop 0 (freePhysAddr st)).2 in
    Stack.contents stk = xs /\ Stack.wf n stk /\ 0 <= top < 2 ^ 16 /\
    allocPage n st c =
      if test (isPhysAddrFree st) top then
        (Some top, mk (BitSet.clear n (isPhysAddrFree st) top) stk
           (if c then BitSet.set n (isCommonPage st) top else isCommonPage st))
      else (None, mk (isPhysAddrFree st) stk (isCommonPage st)).
Proof.
  intros [Hb Hc Hs He]. unfold allocPage. rewrite (Stack.empty_spec n) by done.
  destruct (Stack.contents (freePhysAddr st)) as [|x xs] eqn:E using rev_ind.
  - left. by rewrite bool_decide_true.
  - right. exists xs, x. clear IHxs. split; [done|].
    rewrite bool_decide_false by (by destruct xs).
    destruct (Stack.pop_contents n 0 (freePhysAddr st) xs x Hs E) as (H1 & H2 & H3).
    destruct (Stack.pop 0 (freePhysAddr st)) as [top stk]; simpl in *. subst x.
    split_and!; try done; apply Forall_app in He as [_ He%Forall_inv]; lia.
Qed.

Lemma allocPage_wf st c : wf st -> wf (allocPage n st c).2.
Proof.
  intros Hw. destruct (allocPage_cases st c Hw) as
    [[_ ->]|(xs & top & Hc & Hxs & Hs & Ht & ->)]; [done|].
  destruct Hw as [? ? ? He]. rewrite Hc in He. apply Forall_app in He as [He _].
  destruct (test _ _); split; simpl in *; rewrite ?Hxs; destruct c; eauto with bitset.
Qed.

(** A successful allocation returns a page that was free and is not any more;
    no other page changes. A failed one changes no page. *)
Lemma allocPage_spec st c :
  wf st ->
  match allocPage n st c with
  | (Some p, st') =>
      0 <= p < n /\ is_free st p /\
      (forall q, 0 <= q -> is_free st' q <-> is_free st q /\ q <> p)
  | (None, st') => forall q, is_free st' q <-> is_free st q
  end.
Proof.
  intros Hw. destruct (allocPage_cases st c Hw) as
    [[_ ->]|(xs & top & Hc & Hxs & Hs & Ht & ->)]; [done|].
  unfold PhysPages.is_free. destruct Hw as [Hb ? ? ?].
  destruct (test (isPhysAddrFree st) top) eqn:E; simpl; [|done]. split_and!; [lia| |done|].
  - destruct (decide (n <= top)); [|lia]. by rewrite BitSet.test_oob in E.
  - intros q Hq. rewrite BitSet.test_clear by (done || lia).
    case_bool_decide; simpl; split; naive_solver.
Qed.

Lemma freePage_wf st p : wf st -> 0 <= p < 2 ^ 16 -> wf (freePage n st p).
Proof.
  intros [Hb Hc Hs He] Hp. unfold freePage. destruct (test _ _); [done|].
  split; simpl; eauto with bitset stack. by apply Forall_push.
Qed.

Lemma freePage_spec st p q :
  wf st -> 0 <= p -> 0 <= q ->
  is_free (freePage n st p) q <-> is_free st q \/ (q = p /\ p < n).
Proof.
  intros [Hb _ _ _] Hp Hq. unfold PhysPages.is_free, freePage.
  destruct (test (isPhysAddrFree st) p) eqn:E; simpl.
  - split; [tauto|]. intros [|[-> _]]; done.
  - rewrite BitSet.test_set by done. rewrite orb_true_iff, andb_true_iff, bool_decide_eq_true.
    rewrite Z.ltb_lt. naive_solver.
Qed.

Lemma markPageAsUsed_spec st p :
  wf st -> 0 <= p ->
  exists st', markPageAsUsed n st p = Some st' /\ wf st' /\
    forall q, 0 <= q -> is_free st' q <-> is_free st q /\ q <> p.
Proof.
  intros [Hb Hc Hs He] Hp. unfold markPageAsUsed, PhysPages.is_free.
  destruct (test (isPhysAddrFree st) p) eqn:E.
  - destruct (list_find (fun x => (p =? x) = true) (Stack.contents (freePhysAddr st)))
      as [[k x]|] eqn:F.
    + destruct (Stack.dropFirst_hit n _ (fun q => p =? q) k x Hs F) as (stk & -> & Hw & Hct).
      simpl. eexists; split; [done|]. split.
      * split; simpl; eauto with bitset. rewrite Hct. by apply Forall_delete.
      * intros q Hq; simpl. rewrite BitSet.test_clear by done.
        case_bool_decide; simpl; naive_solver.
    + rewrite (Stack.dropFirst_miss n _ (fun q => p =? q)) by done. simpl.
      eexists; split; [done|]. split.
      * split; simpl; eauto with bitset.
      * intros q Hq; simpl. rewrite BitSet.test_clear by done.
        case_bool_decide; simpl; naive_solver.
  - eexists; split; [done|]. split; [by split|]. intros q Hq.
    split; [|tauto]. intros Ht. split; [done|]. intros ->. congruence.
Qed.

Lemma phys_inv_step s s' : inv n s -> step n s s' -> inv n s'.
Proof.
  intros [Hw Ho] Hs. destruct Hs as [st st' c p own H|st st' c own H|st p own Hp Hr|st st' p own Hr H];
    simpl in *.
  - pose proof (allocPage_wf st c Hw) as Hw'. pose proof (allocPage_spec st c Hw) as Hsp.
    rewrite H in Hw', Hsp. split; [done|]. intros q Hq. simpl in *.
    destruct (decide (q = p)) as [->|]; [split; [lia|]; naive_solver lia|].
    destruct (Ho q) as [? Hnf]; [set_solver|]. split; [done|]. naive_solver.
  - pose proof (allocPage_wf st c Hw) as Hw'. pose proof (allocPage_spec st c Hw) as Hsp.
    rewrite H in Hw', Hsp. split; [done|]. intros q Hq; simpl. rewrite Hsp. by apply Ho.
  - split; [by apply freePage_wf|]. intros q Hq; simpl in *.
    destruct (Ho q) as [? Hnf]; [set_solver|]. split; [done|].
    rewrite freePage_spec by (done || lia). intros [|[-> _]]; [done|set_solver].
  - destruct (markPageAsUsed_spec st p Hw) as (st2 & H2 & Hw2 & Hf); [lia|].
    rewrite H in H2; injection H2 as <-. split; [done|]. intros q Hq; simpl in *.
    destruct (decide (q = p)) as [->|]; [split; [lia|]; rewrite Hf by lia; tauto|].
    destruct (Ho q) as [? Hnf]; [set_solver|]. split; [done|]. rewrite Hf by done. naive_solver.
Qed.

Lemma phys_inv_steps s s' : inv n s -> rtc (step n) s s' -> inv n s'.
Proof. intros Hi Hs. induction Hs; eauto using phys_inv_step. Qed.
End laws.

(** ** The constructor *)

(** The pages the loop of the constructor clears for a module. *)
Definition module_pages (m : module_t) : list Z :=
  (fun j => Z.shiftr (u32 (mod_start m + u32 (j * MB 4))) 22)
    <$> seqZ 0 (ceil (u32 (mod_end m - mod_start m)) (MB 4)).

Definition cleared (mbi : multiboot_info_t) : gset Z :=
  {[0; 1]} ∪ list_to_set (mods mbi ≫= module_pages).

(** What is in use when the kernel boots: its own pages 0 and 1, and every page from that
    of a module's first byte to that of its last one. *)
Definition first_page (m : module_t) : Z := mod_start m / MB 4.
Definition last_page (m : module_t) : Z := (mod_end m - 1) / MB 4.
Definition in_use (mbi : multiboot_info_t) : gset Z :=
  {[0; 1]} ∪ list_to_set (mods mbi ≫= fun m => seqZ (first_page m) (last_page m + 1 - first_page m)).

(** A module that touches no more pages than its length needs, as one that starts on a
    page boundary. *)
Definition compact (m : module_t) : Prop :=
  0 <= mod_start m < mod_end m /\ mod_end m < 2 ^ 32 /\
  last_page m + 1 - first_page m <= (mod_end m - mod_start m + MB 4 - 1) / MB 4.

(** Every byte of a module is on a page in use. *)
Lemma in_use_spec mbi p : p ∈ in_use mbi <-> p = 0 \/ p = 1 \/
  exists m, m ∈ mods mbi /\ first_page m <= p <= last_page m.
Proof.
  unfold in_use. rewrite elem_of_union, elem_of_list_to_set, list_elem_of_bind. setoid_rewrite elem_of_seqZ.
  split.
  - intros [H|(m & H & Hm)]; [set_solver|]. right. right. exists m. split; [done|lia].
  - intros [->|[->|(m & Hm & H)]]; [set_solver..|]. right. exists m. split; [lia|done].
Qed.
Lemma in_use_byte mbi m a : m ∈ mods mbi -> mod_start m <= a < mod_end m -> a / MB 4 ∈ in_use mbi.
Proof.
  intros Hm Ha. apply in_use_spec. right. right. exists m. split; [done|]. unfold first_page, last_page.
  change (MB 4) with 4194304. split; apply Z.div_le_mono; lia.
Qed.
Lemma aligned_compact m : 0 <= mod_start m < mod_end m -> mod_end m < 2 ^ 32 -> mod_start m mod MB 4 = 0 -> compact m.
Proof.
  intros H1 H2 H3. split; [done|]. split; [done|]. unfold first_page, last_page. change (MB 4) with 4194304 in *. zdiv.
Qed.

Section construct.
Context (n : Z) (Hn : 2 <= n < 2 ^ 16).
Notation wf := (wf n).
Notation is_free := (is_free n).

Lemma add_page_wf idx st : wf st -> wf (add_page n idx st).
Proof.
  intros [? ? ? ?]. unfold add_page. destruct (_ || _); [by split|].
  destruct (BitSet.test _ _ _); [by split|].
  split; simpl; auto with bitset stack. by apply Forall_push; auto with word.
Qed.

Lemma for_range_wf lo hi f st :
  (forall i s, wf s -> wf (f i s)) -> wf st -> wf (for_range lo hi f st).
Proof.
  intros Hf Hst. destruct (decide (lo <= hi)).
  - apply (for_range_ind (fun _ => wf)); auto.
  - by rewrite for_range_nil by lia.
Qed.

Lemma add_region_wf m st : wf st -> wf (add_region n m st).
Proof.
  intros Hw. unfold add_region. repeat case_match; try done.
  all: apply for_range_wf; [intros; by apply add_page_wf|done].
Qed.

Lemma add_default_wf st : wf st -> wf (add_default n st).
Proof.
  apply for_range_wf. intros i s [? ? ? ?].
  split; simpl; auto with bitset stack. by apply Forall_push; auto with word.
Qed.

Lemma clear_free_wf k st : wf st -> wf (clear_free n k st).
Proof. intros [? ? ? ?]. split; simpl; auto with bitset. Qed.

Lemma clear_free_spec k st q :
  wf st -> 0 <= k -> 0 <= q -> is_free (clear_free n k st) q <-> is_free st q /\ q <> k.
Proof.
  intros [Hb _ _ _] Hk Hq. unfold PhysPages.is_free; simpl.
  rewrite BitSet.test_clear by done. case_bool_decide; simpl; split; naive_solver.
Qed.

Lemma clear_module_wf m st : wf st -> wf (clear_module n m st).
Proof. apply for_range_wf. intros. by apply clear_free_wf. Qed.

Lemma clear_module_spec m st q :
  wf st -> 0 <= q ->
  is_free (clear_module n m st) q <-> is_free st q /\ q ∉ module_pages m.
Proof.
  intros Hw Hq. unfold clear_module, module_pages, for_range. rewrite Z.sub_0_r.
  set (f := fun j => Z.shiftr (u32 (mod_start m + u32 (j * MB 4))) 22).
  generalize (seqZ 0 (ceil (u32 (mod_end m - mod_start m)) (MB 4))). intros js.
  revert st Hw. induction js as [|j js IH]; intros st Hw; simpl.
  - split; [intros; split; [done|apply not_elem_of_nil]|tauto].
  - rewrite IH by (by apply clear_free_wf).
    assert (0 <= f j) by (apply Z.shiftr_nonneg, u32_range).
    rewrite clear_free_spec, not_elem_of_cons by done. unfold f. tauto.
Qed.

Lemma clear_modules_spec ms st q :
  wf st -> 0 <= q ->
  let st' := foldl (fun s m => clear_module n m s) st ms in
  wf st' /\ (is_free st' q <-> is_free st q /\ q ∉ ms ≫= module_pages).
Proof.
  intros Hw Hq. revert st Hw. induction ms as [|m ms IH]; intros st Hw; simpl.
  - split; [done|]. split; [intros; split; [done|apply not_elem_of_nil]|tauto].
  - destruct (IH (clear_module n m st)) as [Hw' Hi]; [by apply clear_module_wf|].
    split; [done|]. rewrite Hi, clear_module_spec, not_elem_of_app by done. tauto.
Qed.

Lemma scan_wf rd mbi st :
  (if CHECK_FLAG (mbi_flags mbi) 6 then
     ms ← mmap_walk rd (Z.to_nat (mmap_length mbi)) (mmap_addr mbi)
            (u32 (mmap_addr mbi + mmap_length mbi));
     Some (foldl (fun s m => add_region n m s) (init n) ms)
   else Some (add_default n (init n))) = Some st -> wf st.
Proof.
  pose proof (phys_wf_init n Hn) as H0. destruct (CHECK_FLAG _ _).
  - intros (ms & _ & [= <-])%bind_Some. revert H0. generalize (init n).
    induction ms as [|m ms IH]; intros s Hs; simpl; [done|].
    by apply IH, add_region_wf.
  - intros [= <-]. by apply add_default_wf.
Qed.

Lemma construct_spec rd mbi st :
  construct n rd mbi = Some st ->
  wf st /\ forall q, q ∈ cleared mbi -> 0 <= q /\ ~ is_free st q.
Proof.
  intros (st0 & Hscan%scan_wf & [= <-])%bind_Some.
  set (s1 := clear_free n 1 (clear_free n 0 st0)).
  assert (Hw1 : wf s1) by by do 2 apply clear_free_wf.
  split; [by apply (clear_modules_spec (mods mbi) s1 0)|].
  intros q Hq. assert (H0 : 0 <= q).
  { unfold cleared in Hq. rewrite elem_of_union, elem_of_list_to_set, list_elem_of_bind in Hq.
    destruct Hq as [|(m & Hm & _)]; [set_solver by lia|].
    unfold module_pages in Hm. apply list_elem_of_fmap in Hm as (j & -> & _).
    apply Z.shiftr_nonneg, u32_range. }
  split; [done|]. destruct (clear_modules_spec (mods mbi) s1 q Hw1 H0) as [_ ->].
  unfold cleared in Hq. rewrite elem_of_union, elem_of_list_to_set in Hq.
  intros [Hf Hn']. destruct Hq as [Hq|Hq]; [|done].
  unfold s1 in Hf. rewrite !clear_free_spec in Hf by (done || lia || by apply clear_free_wf).
  set_solver.
Qed.

(** The pages of a compact module are cleared. *)
Lemma in_use_cleared mbi : Forall compact (mods mbi) -> in_use mbi ⊆ cleared mbi.
Proof.
  intros Hc p [->|[->|(m & Hm & Hp)]]%in_use_spec; [set_solver..|].
  rewrite list.Forall_forall in Hc. destruct (Hc m Hm) as (H1 & H2 & H3). unfold first_page, last_page in *.
  unfold cleared. apply elem_of_union_r, elem_of_list_to_set, list_elem_of_bind.
  exists m. split; [|done]. unfold module_pages.
  change (MB 4) with 4194304 in *. apply list_elem_of_fmap. exists (p - mod_start m / 4194304). split.
  - assert (Hr : 0 <= mod_start m + (p - mod_start m / 4194304) * 4194304 < 2 ^ 32) by zdiv.
    rewrite (u32_small ((p - mod_start m / 4194304) * 4194304)), u32_small by zdiv.
    rewrite Z.shiftr_div_pow2 by lia. change (2 ^ 22) with 4194304. rewrite Z.div_add by lia. lia.
  - apply elem_of_seqZ. rewrite u32_small, ceil_spec by lia. lia.
Qed.

(** With no page free, no number of calls makes one appear. *)
Lemma alloc_none_iter st c k :
  wf st -> (forall q, 0 <= q -> ~ is_free st q) ->
  (allocPage n (Nat.iter k (fun s => (allocPage n s c).2) st) c).1 = None.
Proof.
  intros Hw Hf.
  assert (Hk : forall j, wf (Nat.iter j (fun s => (allocPage n s c).2) st) /\
    forall q, 0 <= q -> ~ is_free (Nat.iter j (fun s => (allocPage n s c).2) st) q).
  { induction j as [|j [IHw IHf]]; [done|]. simpl.
    set (s := Nat.iter j _ st) in *. split; [by apply allocPage_wf|].
    intros q Hq. pose proof (allocPage_spec n Hn s c IHw) as Hs.
    destruct (allocPage n s c) as [[p|] s']; simpl in *; [|rewrite Hs; by apply IHf].
    destruct Hs as (? & Hp & _). exfalso. eapply IHf; [|exact Hp]. lia. }
  destruct (Hk k) as [Hkw Hkf]. set (s := Nat.iter k _ st) in *.
  pose proof (allocPage_spec n Hn s c Hkw) as Hs.
  destruct (allocPage n s c) as [[p|] s']; [|done].
  destruct Hs as (? & Hp & _). exfalso. eapply Hkf; [|exact Hp]. lia.
Qed.
End construct.

(** ** Properties *)

(** [physPages]: [PhysPageManager<0xff000000>]. *)
Definition physPages_n : Z := 0xff000000 / SmallestPageSize.

(** C20: From the state the constructor builds, whatever a client that frees only pages it
    owns does, [allocPage] never returns a page that is owned: not one handed out before
    and not freed, not one reserved with [markPageAsUsed], not page 0 or 1, and not a page
    that holds a byte of a boot module. The modules are [compact]: none touches more 4 MB
    pages than its length needs, as when it starts on a page boundary; of the others the
    last page is handed out ([unaligned_module_tail_allocated]). *)
Theorem alloc_never_hands_out_owned (n : Z) rd mbi st st' own c p st'' :
  2 <= n < 2 ^ 16 -> Forall compact (mods mbi) ->
  construct n rd mbi = Some st ->
  rtc (step n) (st, in_use mbi) (st', own) ->
  allocPage n st' c = (Some p, st'') ->
  0 <= p < n /\ p ∉ own.
Proof.
  intros Hn Hm [Hw Hr]%construct_spec Hs Ha; [|done].
  assert (Hi : inv n (st, in_use mbi)) by (split; [done|]; intros q Hq; exact (Hr q (in_use_cleared _ Hn _ Hm q Hq))).
  destruct (phys_inv_steps n Hn _ _ Hi Hs) as [Hw' Ho]; simpl in *.
  pose proof (allocPage_spec n Hn st' c Hw') as Hsp. rewrite Ha in Hsp.
  split; [lia|]. intros Hp. destruct (Ho p Hp) as [_ []]. tauto.
Qed.

Definition demo_mbi : multiboot_info_t :=
  mk_mbi (2 ^ 6) [mk_module 0x1000000 0x1500000] 24 0x9000.
Definition demo_rd (_ : Z) : memory_map_t := mk_mmap 20 0x100000 0 0x2000000 0 1.

(** The module has the pages 4 and 5; page 7 is allocated and page 6 reserved. The stack
    still has the pages of the module on it: an allocation fails for each of them before
    page 3 is handed out. *)
Lemma alloc_never_hands_out_owned_witness :
  exists st st1 st2 st3 st4 st5, construct 16 demo_rd demo_mbi = Some st /\
    allocPage 16 st true = (Some 7, st1) /\ markPageAsUsed 16 st1 6 = Some st2 /\
    allocPage 16 st2 true = (None, st3) /\ allocPage 16 st3 true = (None, st4) /\
    allocPage 16 st4 true = (Some 3, st5) /\ 0x14fffff / MB 4 ∈ in_use demo_mbi /\
    0 <= 3 < 16 /\ 3 ∉ ({[6]} ∪ ({[7]} ∪ in_use demo_mbi) : gset Z).
Proof.
  eexists _, _, _, _, _, _. do 6 (split; [vm_compute; reflexivity|]).
  split; [apply (in_use_byte demo_mbi (mk_module 0x1000000 0x1500000)); [left|split; [discriminate|reflexivity]]|].
  eapply (alloc_never_hands_out_owned 16 demo_rd demo_mbi _ _ _ true).
  - lia.
  - constructor; [|constructor]. apply aligned_compact; [split; [discriminate|reflexivity]|reflexivity|reflexivity].
  - vm_compute. reflexivity.
  - eapply rtc_l; [eapply (step_alloc 16 _ _ true); vm_compute; reflexivity|].
    eapply rtc_l; [eapply (step_mark 16 _ _ 6); [lia|vm_compute; reflexivity]|].
    eapply rtc_l; [eapply (step_alloc_fail 16 _ _ true); vm_compute; reflexivity|].
    eapply rtc_l; [eapply (step_alloc_fail 16 _ _ true); vm_compute; reflexivity|]. apply rtc_refl.
  - vm_compute. reflexivity.
Defined.

(** Every byte of a boot module whose start is 4 MB aligned is on a page that
    is not free when the constructor returns. *)
Theorem aligned_module_reserved (n : Z) rd mbi st m a :
  2 <= n < 2 ^ 16 ->
  construct n rd mbi = Some st ->
  m ∈ mods mbi -> 0 <= mod_start m -> mod_end m < 2 ^ 32 ->
  mod_start m mod MB 4 = 0 -> mod_start m <= a < mod_end m ->
  ~ is_free n st (a / MB 4).
Proof.
  intros Hn Hc%construct_spec Hm H0 He Hal Ha; [|done]. destruct Hc as [_ Hr].
  apply Hr. unfold cleared. apply elem_of_union_r, elem_of_list_to_set, list_elem_of_bind.
  exists m. split; [|done]. unfold module_pages.
  change (MB 4) with 4194304 in *. apply list_elem_of_fmap. exists ((a - mod_start m) / 4194304). split.
  - rewrite (u32_small ((a - mod_start m) / 4194304 * 4194304)), u32_small by zdiv.
    rewrite Z.shiftr_div_pow2 by lia. change (2 ^ 22) with 4194304. zdiv.
  - apply elem_of_seqZ. rewrite u32_small, ceil_spec by lia. zdiv.
Qed.

Lemma aligned_module_reserved_witness :
  exists st, construct 16 demo_rd demo_mbi = Some st /\ ~ is_free 16 st (0x14fffff / MB 4).
Proof.
  eexists. split; [vm_compute; reflexivity|].
  eapply (aligned_module_reserved 16 demo_rd demo_mbi _ (mk_module 0x1000000 0x1500000));
    [lia | vm_compute; reflexivity | left | vm_compute; by intros [=] | vm_compute; reflexivity
    | reflexivity | vm_compute; split; [by intros [=] | reflexivity]].
Defined.

(** The page count of a module is taken from its length alone: a module that
    starts inside a page and runs into the next one leaves its last page free,
    and that page is handed out. *)
Theorem unaligned_module_tail_allocated :
  let mbi := mk_mbi (2 ^ 6) [mk_module 0xf00000 0x1100000] 24 0x9000 in
  exists st st', construct 16 (fun _ => mk_mmap 20 0x100000 0 0x1300000 0 1) mbi = Some st /\
    allocPage 16 st false = (Some (0x10fffff / MB 4), st').
Proof. eexists _, _. split; [vm_compute; reflexivity|]. vm_compute. reflexivity. Qed.

(** Without a memory map the constructor fills the stack and no bit: every
    allocation fails, however many are tried. *)
Theorem no_mmap_never_allocates (n : Z) rd mbi c k :
  2 <= n < 2 ^ 16 -> CHECK_FLAG (mbi_flags mbi) 6 = false ->
  exists st, construct n rd mbi = Some st /\
    (allocPage n (Nat.iter k (fun s => (allocPage n s c).2) st) c).1 = None.
Proof.
  intros Hn Hf. assert (Hc : exists st, construct n rd mbi = Some st).
  { unfold construct. rewrite Hf. by eexists. }
  destruct Hc as [st Hc]. exists st. split; [done|].
  pose proof Hc as [Hw _]%construct_spec; [|done]. apply alloc_none_iter; [done..|].
  unfold construct in Hc. rewrite Hf in Hc. simpl in Hc. injection Hc as <-.
  intros q Hq. set (s0 := add_default n (init n)) in *.
  assert (Hw0 : wf n s0) by (apply add_default_wf, phys_wf_init; lia).
  assert (H0 : ~ is_free n s0 q).
  { unfold s0, add_default, is_free.
    apply (for_range_ind (fun _ s => isPhysAddrFree s = BitSet.init n -> BitSet.test n (isPhysAddrFree s) q <> true)
             (n - 1) (2 ^ 16)); [lia| | |].
    - intros _. simpl. by rewrite BitSet.test_init.
    - intros i s _ IH. simpl. exact IH.
    - apply (for_range_ind (fun _ s => isPhysAddrFree s = BitSet.init n)); [lia|done|].
      by intros i s _ IH. }
  assert (Hw1 : wf n (clear_free n 1 (clear_free n 0 s0))) by by do 2 apply clear_free_wf.
  rewrite (proj2 (clear_modules_spec n Hn (mods mbi) _ q Hw1 Hq)).
  rewrite !clear_free_spec by (done || lia || by apply clear_free_wf). tauto.
Qed.

Lemma no_mmap_never_allocates_witness :
  exists st, construct 16 demo_rd (mk_mbi 0 [] 0 0) = Some st /\
    (allocPage 16 (Nat.iter 3 (fun s => (allocPage 16 s true).2) st) true).1 = None.
Proof. apply (no_mmap_never_allocates 16); [lia | reflexivity]. Defined.

(** Freeing an owned page and allocating at once returns that page and
    restores the free set (the candidates are a stack). *)
Theorem free_then_alloc (n : Z) st p c :
  2 <= n < 2 ^ 16 -> wf n st -> 0 <= p < n -> ~ is_free n st p ->
  Stack.idx (freePhysAddr st) < n ->
  exists st', allocPage n (freePage n st p) c = (Some p, st') /\
    BitSet.equiv n (isPhysAddrFree st') (isPhysAddrFree st) /\
    Stack.contents (freePhysAddr st') = Stack.contents (freePhysAddr st).
Proof.
  intros Hn Hw Hp Hf Hs. pose proof (freePage_wf n st p Hw) as Hw'.
  destruct (allocPage_cases n _ c (Hw' ltac:(lia))) as [[He _]|(xs & top & Hc & Hxs & Hsw & Ht & ->)].
  - exfalso. unfold is_free in Hf. unfold freePage in He. destruct (BitSet.test _ _ p); [done|].
    simpl in He. rewrite Stack.contents_push in He by apply Hw.
    rewrite decide_True in He by lia. by destruct (Stack.contents _).
  - revert Hc Hxs. unfold is_free in Hf. unfold freePage.
    destruct (BitSet.test n (isPhysAddrFree st) p) eqn:E; [done|]. simpl.
    rewrite Stack.contents_push, decide_True by (lia || apply Hw).
    intros [<- <-]%app_inj_tail Hxs. destruct Hw as [Hb _ _ _].
    rewrite BitSet.test_set_same by (done || lia). eexists. split; [done|]. split; [|done].
    simpl. split_and!; eauto with bitset. intros q Hq.
    rewrite BitSet.test_clear, BitSet.test_set by (eauto with bitset; lia).
    repeat case_bool_decide; subst; simpl; try done.
Qed.

Lemma free_then_alloc_witness :
  exists st', allocPage 16 (freePage 16 (init 16) 9) true = (Some 9, st') /\
    BitSet.equiv 16 (isPhysAddrFree st') (isPhysAddrFree (init 16)) /\
    Stack.contents (freePhysAddr st') = [].
Proof.
  apply (free_then_alloc 16 (init 16) 9 true);
    [lia | apply phys_wf_init; lia | lia | by vm_compute | reflexivity].
Defined.
End PhysPages.
