(* ===== verification/VirtRegion.v ===== *)
(** * [palloc::VirtualMemRegion<startAddr, MaxSize>] (student-distrib/inc/klibs/palloc.h)

    The allocator of 4 MB virtual pages of a region; the kernel has one,
    [virtLast1G]. A page handed out is an absolute address; its index in the
    region is [(addr - startAddr) / 4MB]. *)
From stdpp Require Import prelude gmap list numbers sets.
From Stdlib Require Import ZArith Lia.
From S2P Require Import Prelude BitSet Stack PhysPages.

Module VirtRegion.

Record t := mk {
  isVirtAddrUsed : BitSet.t;
  freeVirtAddr : Stack.t Z;
  isCommonPage : BitSet.t }.

Section ops.
Context (startAddr MaxSize : Z).

Definition MaxNumElements : Z := MaxSize / SmallestPageSize.
Notation n := MaxNumElements.

(** The constructor pushes [0 .. n-1]. *)
Definition construct : t :=
  for_range 0 n
    (fun i st => mk (isVirtAddrUsed st) (Stack.push n (freeVirtAddr st) (u16 i)) (isCommonPage st))
    (mk (BitSet.init n) (Stack.init n 0) (BitSet.init n)).

Definition page_addr (i : Z) : Z := u32 (i * MB 4 + startAddr).

Definition allocPage (st : t) (common : bool) : option Z * t :=
  if Stack.empty (freeVirtAddr st) then (None, st)
  else
    let '(top, stk) := Stack.pop 0 (freeVirtAddr st) in
    (Some (page_addr top),
     mk (BitSet.set n (isVirtAddrUsed st) top) stk
        (if common then BitSet.set n (isCommonPage st) top else isCommonPage st)).

(** One round of the loop that takes the pages of a run off the stack:
    exception 27 when the page is not there. *)
Definition take_page (common : bool) (i : Z) (st : t) : outcome t :=
  match Stack.first (freeVirtAddr st) 0
          (fun x (_ : unit) => (if i =? x then Some 0 else None, tt)) tt with
  | (Some _, idxInStack, _) =>
      match Stack.drop n (freeVirtAddr st) idxInStack with
      | Some (_, stk) =>
          Ret (mk (isVirtAddrUsed st) stk
                 (if common then BitSet.set n (isCommonPage st) i else isCommonPage st))
      | None => Raise 27
      end
  | (None, _, _) => Raise 27
  end.

Fixpoint take_pages (common : bool) (k : nat) (i : Z) (st : t) : outcome t :=
  match k with
  | O => Ret st
  | S k' => do st' <- take_page common i st; take_pages common k' (i + 1) st'
  end.

Definition allocConsPage (st : t) (num : Z) (common : bool) : outcome (option Z * t) :=
  if Stack.empty (freeVirtAddr st) then Ret (None, st)
  else
    match BitSet.findConsZeros n (isVirtAddrUsed st) num with
    | Some startIdx =>
        do st' <- take_pages common (Z.to_nat num) startIdx st;
        Ret (Some (page_addr startIdx), st')
    | None => Ret (None, st)
    end.

Definition freePage (st : t) (virtAddr : Z) : t :=
  let pageIndex := Z.shiftr virtAddr 22 in
  if BitSet.test n (isVirtAddrUsed st) pageIndex then
    mk (BitSet.clear n (isVirtAddrUsed st) pageIndex)
       (Stack.push n (freeVirtAddr st) pageIndex)
       (BitSet.clear n (isCommonPage st) pageIndex)
  else st.

Record wf (st : t) : Prop := {
  wf_used : BitSet.wf n (isVirtAddrUsed st);
  wf_common : BitSet.wf n (isCommonPage st);
  wf_stack : Stack.wf n (freeVirtAddr st);
  wf_nodup : NoDup (Stack.contents (freeVirtAddr st));
  wf_elems : Forall (fun p => 0 <= p < n) (Stack.contents (freeVirtAddr st)) }.

(** A client: the state and the page indices handed out so far. *)
Inductive step : t * list Z -> t * list Z -> Prop :=
  | step_page st st' c a out i :
      allocPage st c = (Some a, st') -> a = page_addr i -> 0 <= i < n ->
      step (st, out) (st', i :: out)
  | step_cons st st' num c a out i :
      0 <= num -> allocConsPage st num c = Ret (Some a, st') ->
      a = page_addr i -> 0 <= i < n ->
      step (st, out) (st', seqZ i num ++ out)
  | step_free st a out :
      startAddr <= a < 2 ^ 32 -> step (st, out) (freePage st a, out).

Definition free_pages (st : t) : list Z := Stack.contents (freeVirtAddr st).

(** What is handed out and what is on the stack never meet. *)
Definition inv (s : t * list Z) : Prop :=
  wf s.1 /\ NoDup (free_pages s.1 ++ s.2).
End ops.

Section laws.
Context (startAddr MaxSize : Z).
Notation n := (MaxNumElements MaxSize).
Context (Hn : 0 <= n) (Hend : startAddr + n * MB 4 <= 2 ^ 32) (Hstart : 0 <= startAddr).
(** The region starts at or above the index of its own last page, which is what
    makes [freePage] miss. *)
Context (Hhigh : n <= startAddr / MB 4).
Notation wf := (wf MaxSize).

Lemma n_small : n <= 1024.
Proof using Hend Hn Hstart. unfold MB in Hend. lia. Qed.

Lemma page_addr_id i : 0 <= i < n -> page_addr startAddr i = i * MB 4 + startAddr.
Proof using Hend Hn Hstart. intros Hi. unfold page_addr. apply u32_small. unfold MB in *. lia. Qed.

Lemma page_addr_inj i j :
  0 <= i < n -> 0 <= j < n -> page_addr startAddr i = page_addr startAddr j -> i = j.
Proof using Hend Hn Hstart.
  intros Hi Hj. rewrite !page_addr_id by done. unfold MB. lia.
Qed.

(** [freePage] shifts the absolute address, so the index it tests is outside
    the region's bit set: it changes nothing. *)
Lemma freePage_noop st a : startAddr <= a -> freePage MaxSize st a = st.
Proof using Hhigh.
  intros Ha. unfold freePage. rewrite BitSet.test_oob; [done|].
  rewrite Z.shiftr_div_pow2 by lia. unfold MB in *. change (2 ^ 22) with (4 * 1024 * 1024).
  etransitivity; [exact Hhigh|]. apply Z.div_le_mono; lia.
Qed.

Lemma virt_alloc_spec st c :
  wf st ->
  match allocPage startAddr MaxSize st c with
  | (Some a, st') => exists i, a = page_addr startAddr i /\ 0 <= i < n /\ wf st' /\
      free_pages st = free_pages st' ++ [i]
  | (None, st') => st' = st /\ free_pages st = []
  end.
Proof using Type.
  intros [Hu Hc Hs Hd He]. unfold allocPage, free_pages.
  rewrite (Stack.empty_spec n) by done.
  destruct (Stack.contents (freeVirtAddr st)) as [|x xs IH] eqn:E using rev_ind.
  { by rewrite bool_decide_true. }
  clear IH. rewrite bool_decide_false by (by destruct xs).
  destruct (Stack.pop_contents n 0 (freeVirtAddr st) xs x Hs E) as (H1 & H2 & H3).
  destruct (Stack.pop 0 (freeVirtAddr st)) as [top stk]; simpl in *. subst x.
  apply NoDup_app in Hd as (Hd & _ & _). apply Forall_app in He as [He Ht%Forall_inv].
  exists top. split_and!; try done; try lia; [|simpl; by rewrite H2].
  split; simpl; rewrite ?H2; auto with bitset. destruct c; auto with bitset.
Qed.

Lemma list_find_eq (i : Z) (l : list Z) :
  i ∈ l -> exists k, list_find (fun x => (i =? x) = true) l = Some (k, i).
Proof using Type.
  intros Hi. destruct (list_find_elem_of (fun x => (i =? x) = true) l i) as [[k y] Hk];
    [done|by apply Z.eqb_eq|].
  exists k. rewrite Hk. apply list_find_Some in Hk as (_ & Hy%Z.eqb_eq & _). by subst.
Qed.

Lemma take_page_spec st c i :
  wf st ->
  match take_page MaxSize c i st with
  | Ret st' => i ∈ free_pages st /\ wf st' /\ free_pages st ≡ₚ i :: free_pages st'
  | Raise e => e = 27 /\ i ∉ free_pages st
  end.
Proof using Type.
  intros [Hu Hc Hs Hd He]. unfold take_page, Stack.first, free_pages in *.
  destruct (Stack.first_loop_pure (fun x => i =? x) (Stack.contents (freeVirtAddr st)) 0 0)
    as [j ->].
  destruct (list_find _ _) as [[k x]|] eqn:F.
  - apply list_find_Some in F as (Hk & Hix%Z.eqb_eq & _). subst x.
    pose proof (Stack.length_contents _ _ Hs). pose proof (lookup_lt_Some _ _ _ Hk).
    destruct (Stack.drop_spec n (freeVirtAddr st) (0 + Z.of_nat k) Hs)
      as (y & stk & -> & Hw & Hy & Hct); [lia|].
    replace (Z.to_nat (0 + Z.of_nat k)) with k in * by lia.
    assert (y = i) as -> by congruence.
    assert (Hp : Stack.contents (freeVirtAddr st) ≡ₚ i :: Stack.contents stk).
    { rewrite Hct. by apply delete_Permutation. }
    split; [by eapply list_elem_of_lookup_2|]. split; [|done].
    rewrite Hp in Hd, He. apply NoDup_cons in Hd as [? ?]. apply Forall_cons in He as [? ?].
    split; simpl; auto with bitset. destruct c; auto with bitset.
  - split; [done|]. intros [k Hk]%list_find_eq. congruence.
Qed.

Lemma take_pages_spec st c k i :
  wf st ->
  match take_pages MaxSize c k i st with
  | Ret st' => wf st' /\ free_pages st ≡ₚ seqZ i (Z.of_nat k) ++ free_pages st'
  | Raise e => e = 27
  end.
Proof using Type.
  revert st i. induction k as [|k IH]; intros st i Hw; [done|].
  cbn [take_pages]. pose proof (take_page_spec st c i Hw) as Hp.
  destruct (take_page MaxSize c i st) as [st'|e]; simpl; [|tauto].
  destruct Hp as (_ & Hw' & Hp). specialize (IH st' (i + 1) Hw').
  destruct (take_pages _ _ _ _ _) as [st''|]; [|done]. destruct IH as [? IH].
  split; [done|]. rewrite (seqZ_cons i) by lia.
  replace (Z.succ i) with (i + 1) by lia.
  replace (Z.pred (Z.of_nat (S k))) with (Z.of_nat k) by lia. rewrite Hp, IH. done.
Qed.

(** [allocConsPage]: the run, if any, starts at page 0 of the region. *)
Lemma allocConsPage_spec st num c :
  wf st -> 0 <= num ->
  match allocConsPage startAddr MaxSize st num c with
  | Ret (Some a, st') => a = page_addr startAddr 0 /\ 0 < n /\ wf st' /\
      free_pages st ≡ₚ seqZ 0 num ++ free_pages st'
  | Ret (None, st') => st' = st
  | Raise e => e = 27
  end.
Proof using Hend Hn Hstart.
  intros Hw Hnum. unfold allocConsPage. destruct (Stack.empty _); [done|].
  pose proof n_small. rewrite BitSet.findConsZeros_spec by lia.
  destruct (BitSet.test _ _ _); [done|]. case_decide; [|done].
  pose proof (take_pages_spec st c (Z.to_nat num) 0 Hw) as Ht.
  destruct (take_pages _ _ _ _ _); simpl; [|done]. destruct Ht as [? Ht].
  rewrite Z2Nat.id in Ht by lia. split_and!; try done; lia.
Qed.

Lemma construct_contents :
  wf (construct MaxSize) /\ free_pages (construct MaxSize) = seqZ 0 n.
Proof using Hend Hn Hstart.
  pose proof n_small as Hs. unfold construct.
  apply (for_range_ind (fun k st => wf st /\ free_pages st = seqZ 0 k)); [lia| |].
  - split; [|done]. split; simpl; auto with bitset stack; constructor.
  - intros i st Hi [[Hu Hc Hw Hd He] Hf]. unfold free_pages in *; simpl.
    assert (Hx : Stack.idx (freeVirtAddr st) = i).
    { rewrite <- (Stack.length_contents n) by done. rewrite Hf, length_seqZ. lia. }
    assert (Hct : Stack.contents (Stack.push n (freeVirtAddr st) (u16 i)) = seqZ 0 (i + 1)).
    { rewrite Stack.contents_push, decide_True, u16_small, Hf by (done || lia).
      rewrite seqZ_app by lia. simpl. by rewrite Z.add_0_l. }
    split; [|done]. split; simpl; auto with bitset stack; rewrite Hct.
    + apply NoDup_seqZ.
    + apply Forall_forall. intros x Hx'%elem_of_seqZ. lia.
Qed.
End laws.

Section runs.
Context (startAddr MaxSize : Z).
Notation n := (MaxNumElements MaxSize).
Context (Hn : 0 <= n) (Hend : startAddr + n * MB 4 <= 2 ^ 32) (Hstart : 0 <= startAddr).
Context (Hhigh : n <= startAddr / MB 4).

Lemma virt_inv_step s s' : inv MaxSize s -> step startAddr MaxSize s s' -> inv MaxSize s'.
Proof.
  intros [Hw Hd] Hs.
  destruct Hs as [st st' c a out i Ha Hai Hi|st st' num c a out i Hnum Ha Hai Hi|st a out Ha];
    simpl in *.
  - pose proof (virt_alloc_spec startAddr MaxSize st c Hw) as Hsp. rewrite Ha in Hsp.
    destruct Hsp as (j & -> & Hj & Hw' & Hf).
    apply (page_addr_inj startAddr MaxSize Hn Hend Hstart) in Hai as ->; [|done..].
    split; [done|]; simpl. by rewrite Hf, <- app_assoc in Hd.
  - pose proof (allocConsPage_spec startAddr MaxSize Hn Hend Hstart st num c Hw Hnum) as Hsp.
    rewrite Ha in Hsp. destruct Hsp as (-> & H0 & Hw' & Hf).
    apply (page_addr_inj startAddr MaxSize Hn Hend Hstart) in Hai as <-; [|lia..].
    split; [done|]; simpl. rewrite Hf in Hd. by rewrite app_assoc, (Permutation_app_comm (free_pages st')).
  - rewrite (freePage_noop startAddr MaxSize) by (done || lia). done.
Qed.

Lemma take_page_used c i st st' :
  take_page MaxSize c i st = Ret st' -> isVirtAddrUsed st' = isVirtAddrUsed st.
Proof.
  unfold take_page. destruct (Stack.first _ _ _ _) as [[[?|] ?] ?]; [|done].
  destruct (Stack.drop _ _ _) as [[? ?]|]; [|done]. by intros [= <-].
Qed.

Lemma take_pages_used c k i st st' :
  take_pages MaxSize c k i st = Ret st' -> isVirtAddrUsed st' = isVirtAddrUsed st.
Proof.
  revert i st. induction k as [|k IH]; intros i st; cbn [take_pages]; [by intros [= ->]|].
  destruct (take_page _ _ _ _) as [s|] eqn:E; [|done]. simpl. intros H%IH.
  rewrite H. by eapply take_page_used.
Qed.

Lemma take_pages_ok c k i st :
  wf MaxSize st -> (forall j, i <= j < i + Z.of_nat k -> j ∈ free_pages st) ->
  exists st', take_pages MaxSize c k i st = Ret st'.
Proof.
  revert i st. induction k as [|k IH]; intros i st Hw Hin; cbn [take_pages]; [by eexists|].
  pose proof (take_page_spec MaxSize st c i Hw) as Hp.
  destruct (take_page _ _ _ _) as [s|e]; simpl.
  - destruct Hp as (_ & Hw' & Hp). apply IH; [done|]. intros j Hj.
    specialize (Hin j). rewrite Hp, elem_of_cons in Hin.
    destruct Hin as [->|]; [lia|lia|done].
  - destruct Hp as [_ []]. apply Hin. lia.
Qed.
End runs.

(** ** Properties *)

(** [virtLast1G]: [VirtualMemRegion<0xc0000000, 0x3fc00000>], 255 pages. *)
Definition last1G_start : Z := 0xc0000000.
Definition last1G_size : Z := 0x3fc00000.

(** In every state a client of the region can reach from its constructor by
    single-page requests, run requests and frees, no page has been handed out
    twice and no page on the free stack has been handed out. *)
Theorem virt_pages_never_overlap (startAddr MaxSize : Z) st out :
  0 <= startAddr -> startAddr + MaxNumElements MaxSize * MB 4 <= 2 ^ 32 ->
  0 <= MaxNumElements MaxSize <= startAddr / MB 4 ->
  rtc (step startAddr MaxSize) (construct MaxSize, []) (st, out) ->
  NoDup out /\ forall p, p ∈ out -> p ∉ free_pages st.
Proof.
  intros H0 He Hn Hs.
  assert (Hi : inv MaxSize (construct MaxSize, [])).
  { destruct (construct_contents startAddr MaxSize) as [Hw Hf]; [lia..|].
    split; [done|]; simpl. rewrite app_nil_r, Hf. apply NoDup_seqZ. }
  assert (Hi' : inv MaxSize (st, out)).
  { revert Hi. induction Hs as [|s1 s2 s3 H1 H2 IH]; intros; [done|].
    apply IH. eapply virt_inv_step; [..|done]; eauto with lia. }
  destruct Hi' as [_ (_ & Hx & Hd)%NoDup_app]; simpl in *.
  split; [done|]. intros p Hp Hf. by apply (Hx p).
Qed.

Lemma virt_pages_never_overlap_witness :
  let s1 := (allocPage last1G_start last1G_size (construct last1G_size) true).2 in
  NoDup [254] /\ (254 ∈ [254] -> 254 ∉ free_pages s1).
Proof.
  intros s1.
  destruct (virt_pages_never_overlap last1G_start last1G_size s1 [254]) as [H1 H2].
  - unfold last1G_start. lia.
  - vm_compute. by intros [=].
  - vm_compute. split; by intros [=].
  - apply rtc_once. eapply (step_page _ _ _ _ true 0xff800000 [] 254);
      [vm_compute; reflexivity | vm_compute; reflexivity | vm_compute; split; [by intros [=] | reflexivity]].
  - split; [exact H1 | apply H2].
Defined.

(** [freePage] looks the page up by its absolute page number, which in
    [virtLast1G] is at least 768 while the region has 255 pages: freeing any
    address of the region changes nothing, so its pages are never reused. *)
Theorem last1G_freePage_leaks (st : t) (a : Z) :
  last1G_start <= a -> freePage last1G_size st a = st.
Proof.
  apply (freePage_noop last1G_start last1G_size); vm_compute; by intros [=].
Qed.

Lemma last1G_freePage_leaks_witness :
  let r := allocPage last1G_start last1G_size (construct last1G_size) true in
  r.1 = Some 0xff800000 /\ freePage last1G_size r.2 0xff800000 = r.2.
Proof.
  intros r. split; [vm_compute; reflexivity|].
  apply (last1G_freePage_leaks r.2 0xff800000). vm_compute. by intros [=].
Defined.

(** A run of pages can be reserved once. Every request gets page 0 of the
    region ([findConsZeros] answers 0 and [allocConsPage] sets no bit), so the
    second one does not find page 0 on the stack and raises exception 27. *)
Theorem second_allocConsPage_raises (startAddr MaxSize num1 num2 : Z) c1 c2 :
  0 <= startAddr -> startAddr + MaxNumElements MaxSize * MB 4 <= 2 ^ 32 ->
  1 <= num1 < MaxNumElements MaxSize -> 1 <= num2 <= MaxNumElements MaxSize ->
  exists st', allocConsPage startAddr MaxSize (construct MaxSize) num1 c1
                = Ret (Some startAddr, st') /\
    allocConsPage startAddr MaxSize st' num2 c2 = Raise 27.
Proof.
  intros H0 He Hn1 Hn2. set (n := MaxNumElements MaxSize) in *.
  destruct (construct_contents startAddr MaxSize) as [Hw Hf]; [lia..|].
  assert (Hsz : n < 2 ^ 32) by (unfold MB in He; lia).
  assert (Hused : forall st, isVirtAddrUsed st = isVirtAddrUsed (construct MaxSize) ->
    forall num, 1 <= num <= n -> BitSet.findConsZeros n (isVirtAddrUsed st) num = Some 0).
  { intros st -> num Hnum. rewrite BitSet.findConsZeros_spec by lia.
    assert (Hi : isVirtAddrUsed (construct MaxSize) = BitSet.init n).
    { unfold construct. apply (for_range_ind (fun _ s => isVirtAddrUsed s = BitSet.init n)); [lia|done|].
      by intros i s _ IH. }
    rewrite Hi, BitSet.test_init by lia. by rewrite decide_True by lia. }
  destruct (take_pages_ok MaxSize c1 (Z.to_nat num1) 0 (construct MaxSize) Hw) as [st' Ht].
  { intros j Hj. rewrite Hf. apply elem_of_seqZ. lia. }
  exists st'. pose proof (take_pages_spec MaxSize (construct MaxSize) c1 (Z.to_nat num1) 0 Hw) as Hs.
  rewrite Ht in Hs. destruct Hs as [Hw' Hp]. rewrite Hf, Z2Nat.id in Hp by lia.
  assert (H0' : 0 ∉ free_pages st').
  { pose proof (NoDup_seqZ 0 n) as Hd. unfold n in Hd. rewrite Hp in Hd. apply NoDup_app in Hd as (_ & Hd & _).
    apply Hd, elem_of_seqZ. lia. }
  assert (Hne : free_pages st' <> []).
  { intros E. rewrite E, app_nil_r in Hp. apply Permutation_length in Hp.
    rewrite !length_seqZ in Hp. lia. }
  split.
  - unfold allocConsPage. rewrite (Stack.empty_spec n) by apply Hw.
    unfold free_pages in Hf. rewrite Hf, bool_decide_false by (rewrite seqZ_cons by lia; done).
    rewrite (Hused _ eq_refl) by lia. rewrite Ht. simpl. unfold page_addr.
    by rewrite Z.mul_0_l, Z.add_0_l, u32_small by (unfold MB in He; lia).
  - unfold allocConsPage. rewrite (Stack.empty_spec n) by apply Hw'.
    unfold free_pages in Hne. rewrite bool_decide_false by done.
    rewrite (Hused st') by (lia || by eapply take_pages_used).
    replace (Z.to_nat num2) with (S (Z.to_nat (num2 - 1))) by lia. cbn [take_pages].
    pose proof (take_page_spec MaxSize st' c2 0 Hw') as Hs.
    destruct (take_page _ _ _ _) as [s|e]; simpl; [|by destruct Hs as [-> _]].
    by destruct Hs.
Qed.

Lemma second_allocConsPage_raises_witness :
  exists st', allocConsPage last1G_start last1G_size (construct last1G_size) 2 true
                = Ret (Some last1G_start, st') /\
    allocConsPage last1G_start last1G_size st' 1 true = Raise 27.
Proof.
  apply (second_allocConsPage_raises last1G_start last1G_size 2 1 true true);
    vm_compute; repeat split; by intros [=].
Defined.
End VirtRegion.
