(* ===== verification/MemMap.v ===== *)
(** * Page-directory maps (student-distrib/inc/klibs/palloc.h, klibs/palloc.cpp)

    [MemMap]: a 1024-entry page directory of 4 MB pages with its reverse table.
    [TinyMemMap]: the mappings of one process. [Manager]: [MemMapManager], the
    pair of spare directories, the common (kernel) map, and the directory CR3
    points at; [global_cr3val] aliases one of them, so a write through it is a
    write to that one. A virtual address is its 32-bit value, a physical
    address its page-directory entry. *)
From stdpp Require Import prelude gmap list numbers sets.
From Stdlib Require Import ZArith Lia.
From S2P Require Import Prelude BitSet Stack.

(** student-distrib/inc/x86/paging.h *)
Definition PAGING_PRESENT : Z := 0x1.
Definition PG_4MB_BASE : Z := 0x081.
Definition PG_4KB_BASE : Z := 0x001.
Definition PG_GLOABL : Z := 0x100.
Definition PG_NOT_DIRTY : Z := 0xFFFFFFBF.
Definition PG_NOT_ACCESSED : Z := 0xFFFFFFDF.
Definition PG_USER : Z := 0x004.
Definition PG_WRITABLE : Z := 0x002.
Definition ALIGN_4KB_ADDR : Z := 0xFFFFF000.
Definition ALIGN_4MB_ADDR : Z := 0xFFC00000.
Definition PD_NUM_ENTRIES : Z := 0x400.
Definition PhysIdxLength : Z := 12.
Definition HAS_FLAG (FLAG x : Z) : bool := Z.land x FLAG =? FLAG.

Module PhysAddr.

Definition make (pageIndex flags : Z) : Z :=
  Z.lor (Z.lor (Z.lor PG_4MB_BASE (u32 (Z.shiftl (Z.land pageIndex 0x3ff) 22)))
               (Z.shiftl (Z.land pageIndex 0xc00) 3)) flags.

Definition index (pde : Z) : Z :=
  Z.lor (Z.shiftr (Z.land pde 0xffc00000) 22) (Z.shiftr (Z.land pde 0x00006000) 3).

Definition flags (pde : Z) : Z := Z.land pde 0x1fff.

(** [operator==]: the accessed and dirty bits are ignored. *)
Definition eqb (a b : Z) : bool :=
  Z.land (Z.land a PG_NOT_ACCESSED) PG_NOT_DIRTY
    =? Z.land (Z.land b PG_NOT_ACCESSED) PG_NOT_DIRTY.

End PhysAddr.

Definition present (pde : Z) : bool := negb (Z.land pde PAGING_PRESENT =? 0).
Definition vidx_of (virt : Z) : Z := Z.shiftr virt 22.

Module MemMap.

Record t := mk { phys2virt : list Z; virt2phys : list Z }.

Definition resetVPage0And1 (m : t) : t :=
  mk (aset (phys2virt m) 1 1)
     (aset (aset (virt2phys m) 0 0) 1 (PhysAddr.make 1 PG_GLOABL)).

Definition clear (m : t) : t :=
  resetVPage0And1 (mk (replicate (length (phys2virt m)) 0)
                      (replicate (length (virt2phys m)) 0)).

(** [MemMap()]. *)
Definition init : t :=
  clear (mk (replicate (Z.to_nat (2 ^ PhysIdxLength)) 0)
            (replicate (Z.to_nat PD_NUM_ENTRIES) 0)).

Definition translate_phys (m : t) (pde : Z) : Z :=
  u32 (Z.shiftl (aget (phys2virt m) (PhysAddr.index pde)) 22).

Definition translate_virt (m : t) (virt : Z) : Z := aget (virt2phys m) (vidx_of virt).

Definition add (m : t) (virt pde : Z) : bool * t :=
  let vidx := vidx_of virt in
  let pidx := PhysAddr.index pde in
  if negb (pidx =? 1) &&
     (present (aget (virt2phys m) vidx) || negb (aget (phys2virt m) pidx =? 0))
  then (false, m)
  else if (vidx =? 0) || (vidx =? 1) then (false, m)
  else (true, mk (if negb (pidx =? 1) then aset (phys2virt m) pidx vidx else phys2virt m)
                 (aset (virt2phys m) vidx pde)).

(** [operator -= (const VirtAddr&)]. *)
Definition remove_virt (m : t) (virt : Z) : bool * t :=
  let vidx := vidx_of virt in
  if negb (present (aget (virt2phys m) vidx)) then (false, m)
  else
    let pidx := PhysAddr.index (aget (virt2phys m) vidx) in
    if (vidx =? 0) || (vidx =? 1) then (false, m)
    else (true, mk (aset (phys2virt m) pidx 0) (aset (virt2phys m) vidx 0)).

(** [operator -= (const PhysAddr&)]. *)
Definition remove_phys (m : t) (pde : Z) : bool * t :=
  let pidx := PhysAddr.index pde in
  if aget (phys2virt m) pidx =? 0 then (false, m)
  else
    let vidx := aget (phys2virt m) pidx in
    if (vidx =? 0) || (vidx =? 1) then (false, m)
    else (true, mk (aset (phys2virt m) pidx 0) (aset (virt2phys m) vidx 0)).

(** [operator +=]: first the conflict scan, then the copy. *)
Definition conflicts (m that : t) : bool :=
  existsb (fun i => present (aget (virt2phys m) i) && present (aget (virt2phys that) i))
    (seqZ 2 (PD_NUM_ENTRIES - 2)).

Definition merge_entry (that : t) (i : Z) (m : t) : t :=
  let e := aget (virt2phys that) i in
  if present e then
    let pidx := PhysAddr.index e in
    mk (aset (phys2virt m) pidx (aget (phys2virt that) pidx)) (aset (virt2phys m) i e)
  else m.

Definition merge (m that : t) : bool * t :=
  if conflicts m that then (false, m)
  else (true, for_range 2 PD_NUM_ENTRIES (merge_entry that) m).

(** Sizes of the two arrays and range of the stored page numbers. *)
Record wf (m : t) : Prop := {
  wf_p2v : alen (phys2virt m) = 2 ^ PhysIdxLength;
  wf_v2p : alen (virt2phys m) = PD_NUM_ENTRIES;
  wf_v : forall p, 0 <= p < 2 ^ PhysIdxLength -> 0 <= aget (phys2virt m) p < PD_NUM_ENTRIES }.

(** The two tables are inverse, up to the kernel page (physical index 1), which
    may be mapped twice. *)
Record inv (m : t) : Prop := {
  inv_wf : wf m;
  inv_fwd : forall v, 2 <= v < PD_NUM_ENTRIES -> present (aget (virt2phys m) v) = true ->
    PhysAddr.index (aget (virt2phys m) v) <> 1 ->
    aget (phys2virt m) (PhysAddr.index (aget (virt2phys m) v)) = v;
  inv_bwd : forall p, 0 <= p < 2 ^ PhysIdxLength -> p <> 1 -> aget (phys2virt m) p <> 0 ->
    2 <= aget (phys2virt m) p /\
    present (aget (virt2phys m) (aget (phys2virt m) p)) = true /\
    PhysAddr.index (aget (virt2phys m) (aget (phys2virt m) p)) = p;
  inv_k : 0 <= aget (phys2virt m) 1 <= 1;
  inv_0 : present (aget (virt2phys m) 0) = false;
  inv_1 : aget (virt2phys m) 1 = PhysAddr.make 1 PG_GLOABL }.

End MemMap.

Module TinyMemMap.

Record Mapping := mk_mapping { phys : Z; virt : Z }.
#[global] Instance Mapping_inhabited : Inhabited Mapping := populate (mk_mapping 0 0).

Definition Num : Z := KB 1.

(** [Mapping()]: the invalid mapping. *)
Definition Mapping_default : Mapping := mk_mapping (PhysAddr.make 0xffff 0) 0.

Record t := mk { pdStack : Stack.t Mapping; isVirtAddrUsed : BitSet.t }.

Definition init : t := mk (Stack.init Num Mapping_default) (BitSet.init Num).

Definition add (m : t) (virt pde : Z) : bool * t :=
  let idx := vidx_of virt in
  if BitSet.test Num (isVirtAddrUsed m) idx then (false, m)
  else (true, mk (Stack.push Num (pdStack m) (mk_mapping pde virt))
                 (BitSet.set Num (isVirtAddrUsed m) idx)).

(** [None]: the out-of-range access of [Stack::drop], shown unreachable. *)
Definition remove (m : t) (virt physIdx : Z) : option (bool * t) :=
  let idx := vidx_of virt in
  if BitSet.test Num (isVirtAddrUsed m) idx then
    '(r, stk) ← Stack.dropFirst Num (pdStack m) (fun x => PhysAddr.eqb (phys x) physIdx);
    Some (bool_decide (is_Some r), mk stk (BitSet.clear Num (isVirtAddrUsed m) idx))
  else Some (false, m).

End TinyMemMap.

Module Manager.

(** What [global_cr3val] points at. *)
Inductive dir := StaticDir | Spare (i : bool).
#[global] Instance dir_eq_dec : EqDecision dir.
Proof. solve_decision. Defined.

(** [loadedMap] is 0 or 1; [1 - loadedMap] is [negb]. *)
Record t := mk {
  spare0 : MemMap.t; spare1 : MemMap.t; loadedMap : bool; bIsStarted : bool;
  commonMemMap : MemMap.t; static_dir : list Z; cr3 : dir }.

Definition init (page_dir : list Z) : t :=
  mk MemMap.init MemMap.init false false MemMap.init page_dir StaticDir.

Definition spare (s : t) (i : bool) : MemMap.t := if i then spare1 s else spare0 s.
Definition set_spare (s : t) (i : bool) (m : MemMap.t) : t :=
  if i then mk (spare0 s) m (loadedMap s) (bIsStarted s) (commonMemMap s) (static_dir s) (cr3 s)
  else mk m (spare1 s) (loadedMap s) (bIsStarted s) (commonMemMap s) (static_dir s) (cr3 s).
Definition set_common (s : t) (m : MemMap.t) : t :=
  mk (spare0 s) (spare1 s) (loadedMap s) (bIsStarted s) m (static_dir s) (cr3 s).
Definition set_cr3 (s : t) (d : dir) : t :=
  mk (spare0 s) (spare1 s) (loadedMap s) (bIsStarted s) (commonMemMap s) (static_dir s) d.
Definition set_loaded (s : t) (i : bool) : t :=
  mk (spare0 s) (spare1 s) i (bIsStarted s) (commonMemMap s) (static_dir s) (cr3 s).
Definition set_started (s : t) (b : bool) : t :=
  mk (spare0 s) (spare1 s) (loadedMap s) b (commonMemMap s) (static_dir s) (cr3 s).

(** [global_cr3val[i] = pde], a write to the directory it aliases. *)
Definition write_cr3 (s : t) (i pde : Z) : t :=
  match cr3 s with
  | StaticDir => mk (spare0 s) (spare1 s) (loadedMap s) (bIsStarted s) (commonMemMap s)
                   (aset (static_dir s) i pde) (cr3 s)
  | Spare b => set_spare s b (MemMap.mk (MemMap.phys2virt (spare s b))
                                        (aset (MemMap.virt2phys (spare s b)) i pde))
  end.

(** The directory the processor uses. *)
Definition active_dir (s : t) : list Z :=
  match cr3 s with StaticDir => static_dir s | Spare b => MemMap.virt2phys (spare s b) end.

(** [MemMap::loadToCR3] of spare [i]. *)
Definition loadToCR3 (s : t) (i : bool) : t :=
  set_cr3 (set_spare s i (MemMap.resetVPage0And1 (spare s i))) (Spare i).

Definition addCommonPage (s : t) (virt pde0 : Z) : bool * t :=
  let pde := if HAS_FLAG PG_4MB_BASE pde0 || HAS_FLAG PG_4KB_BASE pde0
             then Z.lor pde0 PG_GLOABL else pde0 in
  let '(ok, common') := MemMap.add (commonMemMap s) virt pde in
  if negb ok then (false, s)
  else
    let '(ok2, sp') := MemMap.add (spare s (loadedMap s)) virt pde in
    if negb ok2 then (false, set_common s (MemMap.remove_virt common' virt).2)
    else
      let s' := set_spare (set_common s common') (loadedMap s) sp' in
      (true, if bIsStarted s then s' else write_cr3 s' (vidx_of virt) pde).

Definition delCommonPage_virt (s : t) (virt : Z) : bool * t :=
  let phys := MemMap.translate_virt (commonMemMap s) virt in
  let '(ok, common') := MemMap.remove_virt (commonMemMap s) virt in
  if negb ok then (false, s)
  else
    let '(ok2, sp') := MemMap.remove_virt (spare s (loadedMap s)) virt in
    if negb ok2 then (false, set_common s (MemMap.add common' virt phys).2)
    else
      let s' := set_spare (set_common s common') (loadedMap s) sp' in
      (true, if bIsStarted s then s' else write_cr3 s' (vidx_of virt) 0).

Definition delCommonPage_phys (s : t) (phys : Z) : bool * t :=
  let virt := MemMap.translate_phys (commonMemMap s) phys in
  let '(ok, common') := MemMap.remove_virt (commonMemMap s) virt in
  if negb ok then (false, s)
  else
    let '(ok2, sp') := MemMap.remove_virt (spare s (loadedMap s)) virt in
    if negb ok2 then (false, set_common s (MemMap.add common' virt phys).2)
    else
      let s' := set_spare (set_common s common') (loadedMap s) sp' in
      (true, if bIsStarted s then s' else write_cr3 s' (vidx_of virt) 0).

(** The conflict test of [loadProcessMap]. *)
Definition conflicting (s : t) (map : TinyMemMap.t) (val : TinyMemMap.Mapping) : bool :=
  let virtIdx := vidx_of (TinyMemMap.virt val) in
  let ours := present (aget (MemMap.virt2phys (commonMemMap s)) virtIdx) in
  let theirs := BitSet.test TinyMemMap.Num (TinyMemMap.isVirtAddrUsed map) virtIdx in
  (2 <=? virtIdx) && ours && theirs &&
  negb (PhysAddr.eqb (MemMap.translate_virt (commonMemMap s) (TinyMemMap.virt val))
                     (TinyMemMap.phys val)).

(** [loadProcessMap] up to the switch of directories; the call of the process's terminal
    that follows it, [Vidmap.loadProcessMap] adds. *)
Definition switchMap (s : t) (map : TinyMemMap.t) : bool * t :=
  if negb (bIsStarted s) then (false, s)
  else
    let i := negb (loadedMap s) in
    let s1 := set_spare s i (MemMap.clear (spare s i)) in
    match Stack.first (TinyMemMap.pdStack map) 0
            (fun val (_ : unit) => (if conflicting s1 map val then Some 0 else None, tt)) tt with
    | (Some _, _, _) => (false, s1)
    | (None, _, _) =>
        let '(_, _, m) := Stack.first (TinyMemMap.pdStack map) 0
              (fun val m => (@None bool,
                 (MemMap.add m (TinyMemMap.virt val) (TinyMemMap.phys val)).2))
              (spare s1 i) in
        let m' := (MemMap.merge m (commonMemMap s1)).2 in
        (true, set_loaded (loadToCR3 (set_spare s1 i m') i) i)
    end.

Definition start (s : t) : t := set_started (loadToCR3 s (loadedMap s)) true.

(** [stop(pageDir)] with the static directory. *)
Definition stop (s : t) (pageDir : list Z) : t :=
  set_started
    (mk (spare0 s) (spare1 s) (loadedMap s) (bIsStarted s) (commonMemMap s) pageDir StaticDir)
    false.

Definition isStarted (s : t) : bool := bIsStarted s.
Definition translate_phys (s : t) (pde : Z) : Z :=
  MemMap.translate_phys (spare s (loadedMap s)) pde.
Definition translate_virt (s : t) (virt : Z) : Z :=
  MemMap.translate_virt (spare s (loadedMap s)) virt.

End Manager.

(** ** Laws *)

Lemma physaddr_index_range pde : 0 <= PhysAddr.index pde < 2 ^ PhysIdxLength.
Proof.
  apply lor_range; [done| |].
  - rewrite Z.shiftr_div_pow2 by lia.
    pose proof (land_range_r 32 pde 0xffc00000).
    change (2 ^ 32) with (2 ^ 10 * 2 ^ 22) in *. change (2 ^ PhysIdxLength) with (2 ^ 12).
    split; [apply Z.div_pos; lia|]. apply Z.div_lt_upper_bound; lia.
  - rewrite Z.shiftr_div_pow2 by lia.
    pose proof (land_range_r 15 pde 0x6000). change (2 ^ PhysIdxLength) with (2 ^ 12).
    change (2 ^ 15) with (2 ^ 12 * 2 ^ 3) in *.
    split; [apply Z.div_pos; lia|]. apply Z.div_lt_upper_bound; lia.
Qed.

Lemma physaddr_index_make idx f :
  0 <= idx < 2 ^ PhysIdxLength -> 0 <= f < 2 ^ 13 -> PhysAddr.index (PhysAddr.make idx f) = idx.
Proof.
  change PhysIdxLength with 12. intros Hi Hf.
  apply (bits_eq_bounded 12); [apply physaddr_index_range|done|].
  intros k Hk. unfold PhysAddr.index, PhysAddr.make, PG_4MB_BASE. testbits.
  split_range k; eval_bits; reflexivity.
Qed.

Lemma physaddr_flags_make idx f :
  0 <= f < 2 ^ 13 -> PhysAddr.flags (PhysAddr.make idx f) = Z.lor PG_4MB_BASE f.
Proof.
  intros Hf. apply (bits_eq_bounded 13).
  - by apply land_range_r.
  - apply lor_range; [done| |done]. done.
  - intros k Hk. unfold PhysAddr.flags, PhysAddr.make, PG_4MB_BASE. testbits.
    split_range k; eval_bits; reflexivity.
Qed.

Lemma present_bit pde : present pde = Z.testbit pde 0.
Proof. unfold present, PAGING_PRESENT. by rewrite <- (land_bit_ne0 pde 0). Qed.

Lemma present_make idx f : present (PhysAddr.make idx f) = true.
Proof. rewrite present_bit. unfold PhysAddr.make, PG_4MB_BASE. testbits. by eval_bits. Qed.

Lemma present_lor a b : present a = true -> present (Z.lor a b) = true.
Proof. rewrite !present_bit, Z.lor_spec. by intros ->. Qed.

Lemma physaddr_index_global pde :
  PhysAddr.index (Z.lor pde PG_GLOABL) = PhysAddr.index pde.
Proof.
  apply (bits_eq_bounded 12); [apply physaddr_index_range..|].
  intros k Hk. unfold PhysAddr.index, PG_GLOABL. testbits.
  split_range k; eval_bits; reflexivity.
Qed.

Lemma present_0 : present 0 = false.
Proof. done. Qed.

Lemma vidx_range virt : 0 <= virt < 2 ^ 32 -> 0 <= vidx_of virt < PD_NUM_ENTRIES.
Proof.
  intros Hv. unfold vidx_of. rewrite Z.shiftr_div_pow2 by lia.
  change (2 ^ 22) with 4194304. change PD_NUM_ENTRIES with 1024. zdiv.
Qed.

Lemma vidx_page v : 0 <= v < PD_NUM_ENTRIES -> vidx_of (u32 (Z.shiftl v 22)) = v.
Proof.
  change PD_NUM_ENTRIES with 1024. intros Hv. unfold vidx_of.
  rewrite Z.shiftl_mul_pow2, Z.shiftr_div_pow2 by lia. change (2 ^ 22) with 4194304.
  rewrite u32_small by lia. zdiv.
Qed.

Module MemMapLaws.
Import MemMap.

(** Look through array updates at known indices. *)
Ltac arr_cases :=
  rewrite ?alen_aset in *;
  repeat match goal with
  | |- context [aget (aset ?l ?i ?v) ?j] =>
      rewrite (aget_aset l i j v) by (rewrite ?alen_aset; lia); case_decide; subst
  end.

Lemma memmap_wf_reset m : wf m -> wf (resetVPage0And1 m).
Proof.
  intros [H1 H2 H3]. change PhysIdxLength with 12 in *. change PD_NUM_ENTRIES with 1024 in *.
  split; simpl; rewrite ?alen_aset; auto. intros p Hp. arr_cases; [done|]. by apply H3.
Qed.

Definition fwd (m : t) : Prop :=
  forall v, 2 <= v < PD_NUM_ENTRIES -> present (aget (virt2phys m) v) = true ->
    PhysAddr.index (aget (virt2phys m) v) <> 1 ->
    aget (phys2virt m) (PhysAddr.index (aget (virt2phys m) v)) = v.
Definition bwd (m : t) : Prop :=
  forall p, 0 <= p < 2 ^ PhysIdxLength -> p <> 1 -> aget (phys2virt m) p <> 0 ->
    2 <= aget (phys2virt m) p /\
    present (aget (virt2phys m) (aget (phys2virt m) p)) = true /\
    PhysAddr.index (aget (virt2phys m) (aget (phys2virt m) p)) = p.

(** [resetVPage0And1] establishes what the invariant says of pages 0 and 1. *)
Lemma memmap_reset_establishes m : wf m -> fwd m -> bwd m -> inv (resetVPage0And1 m).
Proof.
  intros Hw Hf Hb. pose proof (wf_p2v _ Hw) as L1. pose proof (wf_v2p _ Hw) as L2.
  unfold fwd, bwd in *.
  change PD_NUM_ENTRIES with 1024 in *. change (2 ^ PhysIdxLength) with 4096 in *.
  assert (Hx : forall v, 2 <= v < 1024 ->
    aget (virt2phys (resetVPage0And1 m)) v = aget (virt2phys m) v).
  { intros v Hv. simpl. arr_cases; (done || lia). }
  split.
  - by apply memmap_wf_reset.
  - intros v Hv. change PD_NUM_ENTRIES with 1024 in Hv. rewrite Hx by lia. simpl. intros Hp Hi.
    pose proof (physaddr_index_range (aget (virt2phys m) v)) as R.
    change (2 ^ PhysIdxLength) with 4096 in R. arr_cases; [done|]. by apply Hf.
  - intros p Hp Hp1. assert (Ha : aget (phys2virt (resetVPage0And1 m)) p = aget (phys2virt m) p).
    { simpl. change (2 ^ PhysIdxLength) with 4096 in Hp. arr_cases; done. }
    rewrite Ha. intros Hne. destruct (Hb p Hp Hp1 Hne) as (B1 & B2 & B3).
    pose proof (wf_v _ Hw p Hp) as R. change PD_NUM_ENTRIES with 1024 in R.
    rewrite Hx by lia. auto.
  - simpl. arr_cases; lia.
  - simpl. arr_cases; done.
  - simpl. arr_cases; done.
Qed.

Lemma memmap_inv_reset m : inv m -> inv (resetVPage0And1 m).
Proof. intros [Hw Hf Hb _ _ _]. by apply memmap_reset_establishes. Qed.

Lemma memmap_inv_clear m : wf m -> inv (clear m).
Proof.
  intros [H1 H2 H3]. unfold alen in *. unfold clear.
  assert (Hzp : forall p, 0 <= p < 2 ^ PhysIdxLength ->
    aget (replicate (length (phys2virt m)) 0) p = 0).
  { intros p Hp. apply aget_replicate. lia. }
  apply memmap_reset_establishes.
  - split; simpl; unfold alen; rewrite ?length_replicate; try done.
    intros p Hp. by rewrite Hzp.
  - intros v Hv. simpl. by rewrite aget_replicate by lia.
  - intros p Hp _. simpl. by rewrite Hzp.
Qed.

Lemma memmap_inv_init : inv init.
Proof.
  apply memmap_inv_clear. split; [done..|]. intros p Hp. cbn [phys2virt].
  rewrite aget_replicate; [done|]. rewrite Z2Nat.id by done. done.
Qed.

(** *** [add] and [-=] *)

Lemma add_true m virt pde m' v p :
  v = vidx_of virt -> p = PhysAddr.index pde -> add m virt pde = (true, m') ->
  v <> 0 /\ v <> 1 /\
  (p <> 1 -> present (aget (virt2phys m) v) = false /\ aget (phys2virt m) p = 0) /\
  m' = mk (if negb (p =? 1) then aset (phys2virt m) p v else phys2virt m)
          (aset (virt2phys m) v pde).
Proof.
  intros Ev Ep H. unfold add in H. cbv zeta in H. rewrite <- Ev, <- Ep in H. clear Ev Ep.
  destruct (Z.eqb_spec p 1) as [|Hp]; cbn [negb andb] in *;
    [|destruct (present _); cbn [orb] in H; [discriminate H|];
      destruct (Z.eqb_spec (aget (phys2virt m) p) 0); cbn [negb] in H; [|discriminate H]];
    (destruct (Z.eqb_spec v 0); [discriminate H|]);
    (destruct (Z.eqb_spec v 1); [discriminate H|]);
    cbn [orb] in H; injection H as H; subst m';
    (split; [assumption|split; [assumption|split; [|reflexivity]]]); intros; first [congruence | auto].
Qed.

Lemma memmap_wf_upd m p v w e :
  wf m -> 0 <= p < 2 ^ PhysIdxLength -> 0 <= w < PD_NUM_ENTRIES ->
  wf (mk (aset (phys2virt m) p w) (aset (virt2phys m) v e)).
Proof.
  intros [H1 H2 H3] Hp Hw. split; simpl; rewrite ?alen_aset; auto.
  intros q Hq. rewrite aget_aset by (rewrite ?H1; lia). case_decide; auto.
Qed.

Lemma memmap_inv_add m virt pde :
  inv m -> 0 <= virt < 2 ^ 32 -> present pde = true ->
  (PhysAddr.index pde = 1 -> present (aget (virt2phys m) (vidx_of virt)) = false) ->
  inv (add m virt pde).2.
Proof.
  intros Hi Hv Hp Hk. destruct (add m virt pde) as [[] m'] eqn:E; cbn [snd].
  2: { unfold add in E. repeat case_match; by simplify_eq. }
  pose proof (vidx_range virt Hv) as Rv. pose proof (physaddr_index_range pde) as Rp.
  remember (vidx_of virt) as v eqn:Ev. remember (PhysAddr.index pde) as p eqn:Ep.
  apply (add_true _ _ _ _ _ _ Ev Ep) in E as (Hv0 & Hv1 & Hnew & ->). clear Ev.
  destruct Hi as [Hw Hf Hb Hki H0 H1].
  pose proof (wf_p2v _ Hw) as L1. pose proof (wf_v2p _ Hw) as L2. pose proof (wf_v _ Hw) as W.
  change PD_NUM_ENTRIES with 1024 in *. change (2 ^ PhysIdxLength) with 4096 in *.
  assert (Hold : present (aget (virt2phys m) v) = false).
  { destruct (decide (p = 1)); [auto|by apply Hnew]. }
  split.
  - destruct (Z.eqb_spec p 1); cbn [negb]; [|by apply memmap_wf_upd].
    split; cbn [phys2virt virt2phys]; rewrite ?alen_aset; assumption.
  - intros u Hu. change PD_NUM_ENTRIES with 1024 in Hu. cbn [phys2virt virt2phys].
    rewrite (aget_aset _ v) by lia. case_decide; subst u + idtac.
    + intros _ Hn. rewrite <- Ep in *. destruct (Z.eqb_spec p 1); [done|].
      cbn [negb]. rewrite aget_aset_eq by lia. congruence.
    + intros Hpu Hn. pose proof (physaddr_index_range (aget (virt2phys m) u)) as Ru.
      change (2 ^ PhysIdxLength) with 4096 in Ru.
      destruct (Z.eqb_spec p 1); cbn [negb]; [by apply Hf|].
      rewrite aget_aset by lia. case_decide as D; [|by apply Hf].
      destruct Hnew as [_ Hz]; [assumption|]. pose proof (Hf u Hu Hpu Hn) as Hfu.
      rewrite <- D in Hfu. lia.
  - intros q Hq Hq1. change (2 ^ PhysIdxLength) with 4096 in Hq. cbn [phys2virt virt2phys].
    assert (Hrest : aget (phys2virt m) q <> 0 -> p <> q ->
      2 <= aget (phys2virt m) q /\
      present (aget (aset (virt2phys m) v pde) (aget (phys2virt m) q)) = true /\
      PhysAddr.index (aget (aset (virt2phys m) v pde) (aget (phys2virt m) q)) = q).
    { intros Hne _. destruct (Hb q Hq Hq1 Hne) as (B1 & B2 & B3). specialize (W q Hq).
      rewrite aget_aset by lia. case_decide; [congruence|auto]. }
    destruct (Z.eqb_spec p 1); cbn [negb]; [intros; apply Hrest; congruence|].
    rewrite (aget_aset _ p) by lia. case_decide; [|intros; by apply Hrest].
    intros Hne. rewrite aget_aset_eq by lia. split_and!; [lia|done|congruence].
  - cbn [phys2virt]. destruct (Z.eqb_spec p 1); cbn [negb]; [done|].
    by rewrite aget_aset_ne by lia.
  - cbn [virt2phys]. by rewrite aget_aset_ne by lia.
  - cbn [virt2phys]. by rewrite aget_aset_ne by lia.
Qed.

(** Both removals clear one entry of each table, a pair related by the tables. *)
Lemma memmap_inv_unmap m v p :
  inv m -> 2 <= v < PD_NUM_ENTRIES -> 0 <= p < 2 ^ PhysIdxLength ->
  PhysAddr.index (aget (virt2phys m) v) = p -> present (aget (virt2phys m) v) = true ->
  inv (mk (aset (phys2virt m) p 0) (aset (virt2phys m) v 0)).
Proof.
  intros [Hw Hf Hb Hki H0 H1] Hv Hp Hidx Hpr.
  pose proof (wf_p2v _ Hw) as L1. pose proof (wf_v2p _ Hw) as L2. pose proof (wf_v _ Hw) as W.
  change PD_NUM_ENTRIES with 1024 in *. change (2 ^ PhysIdxLength) with 4096 in *.
  split.
  - apply memmap_wf_upd; [done..|]. change PD_NUM_ENTRIES with 1024. lia.
  - intros u Hu. change PD_NUM_ENTRIES with 1024 in Hu. simpl.
    rewrite (aget_aset _ v) by lia. case_decide; subst; [by rewrite present_0|].
    intros Hpu Hn. pose proof (physaddr_index_range (aget (virt2phys m) u)) as Ru.
    change (2 ^ PhysIdxLength) with 4096 in Ru.
    rewrite aget_aset by lia. case_decide as D; [|by apply Hf].
    rewrite <- (Hf u), <- D, Hf in H by (rewrite ?D; done). done.
  - intros q Hq Hq1. change (2 ^ PhysIdxLength) with 4096 in Hq. simpl.
    rewrite (aget_aset _ p) by lia. case_decide; subst; intros Hne; [done|].
    destruct (Hb q Hq Hq1 Hne) as (B1 & B2 & B3). specialize (W q Hq).
    rewrite aget_aset by lia. case_decide; [congruence|auto].
  - simpl. rewrite aget_aset by lia. case_decide; lia.
  - simpl. by rewrite aget_aset_ne by lia.
  - simpl. by rewrite aget_aset_ne by lia.
Qed.

Lemma memmap_inv_remove_virt m virt :
  inv m -> 0 <= virt < 2 ^ 32 -> inv (remove_virt m virt).2.
Proof.
  intros Hi Hv. unfold remove_virt.
  pose proof (vidx_range virt Hv) as Rv. remember (vidx_of virt) as v eqn:Ev. clear Ev.
  destruct (present _) eqn:E; cbn [negb snd]; [|done].
  destruct (Z.eqb_spec v 0); [done|]. destruct (Z.eqb_spec v 1); [done|].
  cbn [orb snd]. apply memmap_inv_unmap; auto using physaddr_index_range; lia.
Qed.

Lemma memmap_inv_remove_phys m pde : inv m -> inv (remove_phys m pde).2.
Proof.
  intros Hi. unfold remove_phys. pose proof (physaddr_index_range pde) as R.
  remember (PhysAddr.index pde) as p eqn:Ep. clear Ep.
  destruct (Z.eqb_spec (aget (phys2virt m) p) 0); [done|].
  destruct (Z.eqb_spec (aget (phys2virt m) p) 1); [done|]. cbn [orb snd].
  assert (p <> 1) by (intros ->; pose proof (inv_k _ Hi); lia).
  destruct (inv_bwd _ Hi p R) as (B1 & B2 & B3); [done..|].
  pose proof (wf_v _ (inv_wf _ Hi) p R).
  apply memmap_inv_unmap; auto; lia.
Qed.

(** *** [+=] *)

Lemma merge_loop_v2p m that v hi :
  alen (virt2phys m) = PD_NUM_ENTRIES -> 2 <= hi <= PD_NUM_ENTRIES -> 0 <= v ->
  let m' := for_range 2 hi (merge_entry that) m in
  alen (virt2phys m') = PD_NUM_ENTRIES /\
  aget (virt2phys m') v =
    if (2 <=? v) && (v <? hi) && present (aget (virt2phys that) v)
    then aget (virt2phys that) v else aget (virt2phys m) v.
Proof.
  intros L Hhi Hv. change PD_NUM_ENTRIES with 1024 in *. cbv zeta.
  apply (for_range_ind (fun k s => alen (virt2phys s) = 1024 /\
    aget (virt2phys s) v = if (2 <=? v) && (v <? k) && present (aget (virt2phys that) v)
      then aget (virt2phys that) v else aget (virt2phys m) v)); [lia| |].
  - split; [done|]. destruct (Z.leb_spec 2 v), (Z.ltb_spec v 2); (done || lia).
  - intros i s Hi [Ls IH]. unfold merge_entry.
    destruct (present (aget (virt2phys that) i)) eqn:E; cbn [virt2phys].
    + rewrite alen_aset. split; [done|]. rewrite aget_aset by lia. case_decide.
      * subst. rewrite E. destruct (Z.leb_spec 2 v), (Z.ltb_spec v (v + 1)); (done || lia).
      * rewrite IH. by replace (v <? i + 1) with (v <? i)
          by (destruct (Z.ltb_spec v i), (Z.ltb_spec v (i + 1)); (done || lia)).
    + split; [done|]. rewrite IH. destruct (decide (v = i)) as [->|].
      * by rewrite E, !andb_false_r.
      * by replace (v <? i + 1) with (v <? i)
          by (destruct (Z.ltb_spec v i), (Z.ltb_spec v (i + 1)); (done || lia)).
Qed.

Lemma conflicts_false m that v :
  conflicts m that = false -> 2 <= v < PD_NUM_ENTRIES ->
  present (aget (virt2phys m) v) && present (aget (virt2phys that) v) = false.
Proof.
  unfold conflicts. intros Hc Hv.
  destruct (present _ && present _) eqn:E; [|done]. rewrite <- Hc. symmetry.
  apply existsb_exists. exists v. split; [|done].
  apply list_elem_of_In, elem_of_seqZ. change PD_NUM_ENTRIES with 1024 in *. lia.
Qed.

Lemma conflicts_intro m that v :
  2 <= v < PD_NUM_ENTRIES -> present (aget (virt2phys m) v) = true ->
  present (aget (virt2phys that) v) = true -> conflicts m that = true.
Proof.
  intros Hv H1 H2. apply existsb_exists. exists v. rewrite H1, H2. split; [|done].
  apply list_elem_of_In, elem_of_seqZ. change PD_NUM_ENTRIES with 1024 in *. lia.
Qed.

Lemma conflicts_none m that :
  (forall v, 2 <= v < PD_NUM_ENTRIES -> present (aget (virt2phys that) v) = true ->
     present (aget (virt2phys m) v) = false) ->
  conflicts m that = false.
Proof.
  intros H. unfold conflicts. apply not_true_iff_false. rewrite existsb_exists.
  intros (v & Hv & [H1 H2]%andb_true_iff). rewrite H in H1; [done| |done].
  apply list_elem_of_In, elem_of_seqZ in Hv. change PD_NUM_ENTRIES with 1024 in *. lia.
Qed.
End MemMapLaws.

(** ** Switching to a process *)

Module ManagerLaws.
Import MemMap MemMapLaws.

Notation vidx x := (vidx_of (TinyMemMap.virt x)).
Notation pidx x := (PhysAddr.index (TinyMemMap.phys x)).

(** A process mapping: a user page, present, not the kernel's physical page. *)
Definition mapping_ok (x : TinyMemMap.Mapping) : Prop :=
  2 <= vidx x < PD_NUM_ENTRIES /\ present (TinyMemMap.phys x) = true /\ pidx x <> 1.

Lemma add_ok m x :
  wf m -> mapping_ok x -> present (aget (virt2phys m) (vidx x)) = false ->
  aget (phys2virt m) (pidx x) = 0 ->
  MemMap.add m (TinyMemMap.virt x) (TinyMemMap.phys x) =
    (true, mk (aset (phys2virt m) (pidx x) (vidx x))
              (aset (virt2phys m) (vidx x) (TinyMemMap.phys x))).
Proof.
  intros Hw (Hv & Hp & Hi) H1 H2. unfold MemMap.add. cbv zeta. rewrite H1, H2.
  destruct (Z.eqb_spec (pidx x) 1); [done|]. cbn [negb andb orb Z.eqb].
  destruct (Z.eqb_spec (vidx x) 0); [lia|]. destruct (Z.eqb_spec (vidx x) 1); [lia|]. done.
Qed.

Lemma add_all_spec ms m :
  wf m -> Forall mapping_ok ms ->
  NoDup ((fun x => vidx x) <$> ms) -> NoDup ((fun x => pidx x) <$> ms) ->
  (forall x, x ∈ ms -> present (aget (virt2phys m) (vidx x)) = false /\
                       aget (phys2virt m) (pidx x) = 0) ->
  let m' := foldl (fun m x =>
    (MemMap.add m (TinyMemMap.virt x) (TinyMemMap.phys x)).2) m ms in
  wf m' /\ (forall x, x ∈ ms -> aget (virt2phys m') (vidx x) = TinyMemMap.phys x) /\
  (forall v, 0 <= v -> (forall x, x ∈ ms -> vidx x <> v) ->
     aget (virt2phys m') v = aget (virt2phys m) v).
Proof.
  revert m. induction ms as [|x ms IH]; intros m Hw Hok Hdv Hdp Hfree; cbn [foldl].
  { split_and!; [done|by intros x ?%elem_of_nil|done]. }
  apply Forall_cons in Hok as [Hx Hok]. rewrite fmap_cons in Hdv, Hdp.
  apply NoDup_cons in Hdv as [Hnv Hdv], Hdp as [Hnp Hdp].
  destruct (Hfree x) as [F1 F2]; [by left|].
  rewrite (add_ok m x) by done. cbn [snd]. destruct Hx as (Rv & _ & _).
  pose proof (physaddr_index_range (TinyMemMap.phys x)) as Rp.
  set (m1 := mk _ _). assert (Hw1 : wf m1) by (apply memmap_wf_upd; [done..|lia]).
  pose proof (wf_v2p _ Hw) as L2. pose proof (wf_p2v _ Hw) as L1.
  destruct (IH m1 Hw1 Hok Hdv Hdp) as (W & I1 & I2).
  { intros y Hy. destruct (Hfree y) as [G1 G2]; [by right|].
    assert (vidx y <> vidx x).
    { intros E. apply Hnv. rewrite <- E. by apply (list_elem_of_fmap_2 (fun x => vidx x)). }
    assert (pidx y <> pidx x).
    { intros E. apply Hnp. rewrite <- E. by apply (list_elem_of_fmap_2 (fun x => pidx x)). }
    assert (Ry : mapping_ok y) by (by eapply Forall_forall in Hok).
    destruct Ry as (Ry & _ & _). pose proof (physaddr_index_range (TinyMemMap.phys y)) as Rpy.
    unfold m1; cbn [virt2phys phys2virt]. rewrite !aget_aset_ne by (auto; lia). done. }
  split; [done|]. split.
  - intros y [->|Hy]%elem_of_cons; [|by apply I1]. rewrite I2; [|lia|].
    + unfold m1; cbn [virt2phys]. apply aget_aset_eq. lia.
    + intros y Hy E. apply Hnv. rewrite <- E. by apply (list_elem_of_fmap_2 (fun x => vidx x)).
  - intros v Hv Hne. rewrite I2; [|done|intros; apply Hne; by right].
    unfold m1; cbn [virt2phys]. apply aget_aset_ne; [lia|lia|]. apply Hne. by left.
Qed.

(** The cleared map: every page above 1 is absent, every reverse entry but the
    kernel's is 0. *)
Lemma clear_lookup m :
  wf m -> (forall v, 2 <= v < PD_NUM_ENTRIES -> aget (virt2phys (clear m)) v = 0) /\
  (forall p, 0 <= p < 2 ^ PhysIdxLength -> p <> 1 -> aget (phys2virt (clear m)) p = 0).
Proof.
  intros [H1 H2 _]. unfold clear, resetVPage0And1; cbn [virt2phys phys2virt]. unfold alen in *.
  change PD_NUM_ENTRIES with 1024 in *. change (2 ^ PhysIdxLength) with 4096 in *. split.
  - intros v Hv. rewrite !aget_aset_ne by lia. apply aget_replicate. lia.
  - intros p Hp Hp1. rewrite aget_aset_ne by lia. apply aget_replicate. lia.
Qed.

Lemma spare_set_spare s i m : Manager.spare (Manager.set_spare s i m) i = m.
Proof. by destruct s, i. Qed.
Lemma common_set_spare s i m :
  Manager.commonMemMap (Manager.set_spare s i m) = Manager.commonMemMap s.
Proof. by destruct s, i. Qed.
Lemma set_spare_twice s i m m' :
  Manager.set_spare (Manager.set_spare s i m) i m' = Manager.set_spare s i m'.
Proof. by destruct s, i. Qed.

(** [switchMap] when no conflict is found: the spare map that is built. *)
Lemma switchMap_eq s map :
  Manager.bIsStarted s = true ->
  let i := negb (Manager.loadedMap s) in
  let ms := Stack.contents (TinyMemMap.pdStack map) in
  let s1 := Manager.set_spare s i (clear (Manager.spare s i)) in
  (forall x, x ∈ ms -> Manager.conflicting s1 map x = false) ->
  Manager.switchMap s map =
    let m := foldl (fun m x => (MemMap.add m (TinyMemMap.virt x) (TinyMemMap.phys x)).2)
               (clear (Manager.spare s i)) ms in
    (true, Manager.set_loaded (Manager.loadToCR3
       (Manager.set_spare s i (merge m (Manager.commonMemMap s)).2) i) i).
Proof.
  intros Hs i ms s1 Hc. unfold Manager.switchMap. rewrite Hs. cbn [negb]. cbv zeta.
  fold i. fold s1. unfold Stack.first.
  destruct (Stack.first_loop_pure (fun x => Manager.conflicting s1 map x) ms 0 0) as [j Hj].
  fold ms. rewrite Hj. replace (list_find _ ms) with (@None (nat * TinyMemMap.Mapping)).
  2: { symmetry. apply list_find_None, Forall_forall. intros x Hx. by rewrite Hc. }
  destruct (Stack.first_loop_all (fun val m => (@None bool,
    (MemMap.add m (TinyMemMap.virt val) (TinyMemMap.phys val)).2)) ms 0 0 (Manager.spare s1 i))
    as [k ->]; [done|]. unfold s1. by rewrite spare_set_spare, common_set_spare, set_spare_twice.
Qed.
Lemma active_loaded s i m :
  Manager.active_dir (Manager.set_loaded (Manager.loadToCR3 (Manager.set_spare s i m) i) i) =
    virt2phys (resetVPage0And1 m).
Proof.
  unfold Manager.loadToCR3, Manager.active_dir. rewrite spare_set_spare. by destruct s, i.
Qed.

Lemma memmap_wf_merge m that : wf m -> wf that -> wf (merge m that).2.
Proof.
  intros Hm Ht. unfold merge. destruct (conflicts m that); [done|]. cbn [snd].
  apply (for_range_ind (fun _ s => wf s)); [change PD_NUM_ENTRIES with 1024; lia|done|].
  intros i s _ Hs. unfold merge_entry. destruct (present _); [|done]. pose proof (physaddr_index_range (aget (virt2phys that) i)).
  apply memmap_wf_upd; [done..|]. by apply (wf_v _ Ht).
Qed.

(** The map that [switchMap] builds in the spare place, and the switch to it. *)
Lemma load_built s map :
  let ms := Stack.contents (TinyMemMap.pdStack map) in
  let common := virt2phys (Manager.commonMemMap s) in
  let i := negb (Manager.loadedMap s) in
  Manager.bIsStarted s = true -> wf (Manager.spare s i) ->
  Forall mapping_ok ms -> NoDup ((fun x => vidx x) <$> ms) -> NoDup ((fun x => pidx x) <$> ms) ->
  (forall x, x ∈ ms -> present (aget common (vidx x)) = false) ->
  exists m, Manager.switchMap s map =
      (true, Manager.set_loaded (Manager.loadToCR3 (Manager.set_spare s i m) i) i) /\
    alen (virt2phys m) = PD_NUM_ENTRIES /\ (wf (Manager.commonMemMap s) -> wf m) /\
    let d := virt2phys (resetVPage0And1 m) in
    (forall x, x ∈ ms -> aget d (vidx x) = TinyMemMap.phys x) /\
    (forall v, 2 <= v < PD_NUM_ENTRIES -> (forall x, x ∈ ms -> vidx x <> v) ->
       aget d v = if present (aget common v) then aget common v else 0) /\
    aget d 0 = 0 /\ aget d 1 = PhysAddr.make 1 PG_GLOABL.
Proof.
  intros ms common i Hst Hw Hok Hdv Hdp Hdisj.
  rewrite switchMap_eq; [|done|].
  2: { intros x Hx. unfold Manager.conflicting. cbv zeta. rewrite common_set_spare.
       fold common. by rewrite Hdisj, andb_false_r by done. }
  fold i ms. cbv zeta. eexists. split; [reflexivity|].
  destruct (clear_lookup _ Hw) as [Cv Cp].
  destruct (add_all_spec ms (clear (Manager.spare s i))) as (W & A1 & A2);
    [apply memmap_inv_clear; done|done..| |].
  { intros x Hx. assert (Ox : mapping_ok x) by (by eapply Forall_forall in Hok).
    destruct Ox as (Rx & _ & Ix). rewrite Cv, Cp by auto using physaddr_index_range. done. }
  set (m := foldl _ _ ms) in *.
  assert (Hm : forall v, 2 <= v < PD_NUM_ENTRIES -> (forall x, x ∈ ms -> vidx x <> v) -> aget (virt2phys m) v = 0).
  { intros v Hv Hne. rewrite A2 by (done || lia). by apply Cv. }
  assert (Hin : forall v, present (aget common v) = true -> forall x, x ∈ ms -> vidx x <> v).
  { intros v Hp x Hx <-. by rewrite Hdisj in Hp. }
  pose proof (memmap_wf_merge m (Manager.commonMemMap s) W) as Wm.
  assert (Em : (merge m (Manager.commonMemMap s)).2 =
    for_range 2 PD_NUM_ENTRIES (merge_entry (Manager.commonMemMap s)) m).
  { unfold merge. rewrite conflicts_none; [done|]. intros v Hv Hp. rewrite Hm by eauto. done. }
  rewrite Em in Wm |- *. clear Em. set (m' := for_range _ _ _ _) in *.
  assert (Hmerge : forall v, 0 <= v -> alen (virt2phys m') = PD_NUM_ENTRIES /\
    aget (virt2phys m') v =
      if (2 <=? v) && (v <? PD_NUM_ENTRIES) && present (aget common v)
      then aget common v else aget (virt2phys m) v).
  { intros v Hv. apply merge_loop_v2p; [apply W|change PD_NUM_ENTRIES with 1024; lia|done]. }
  assert (L : alen (virt2phys m') = PD_NUM_ENTRIES) by (by apply (Hmerge 0)).
  split; [done|]. split; [exact Wm|].
  unfold resetVPage0And1; cbn [virt2phys].
  change PD_NUM_ENTRIES with 1024 in *.
  assert (Hge : forall v, 2 <= v < 1024 ->
    aget (aset (aset (virt2phys m') 0 0) 1 (PhysAddr.make 1 PG_GLOABL)) v =
      if present (aget common v) then aget common v else aget (virt2phys m) v).
  { intros v Hv. rewrite !aget_aset_ne by lia.
    destruct (Hmerge v ltac:(lia)) as [_ ->].
    rewrite (proj2 (Z.leb_le 2 v)), (proj2 (Z.ltb_lt v 1024)) by lia. reflexivity. }
  split_and!.
  - intros x Hx. assert (Ox : mapping_ok x) by (by eapply Forall_forall in Hok).
    destruct Ox as (Rx & _ & _). rewrite Hge by done. rewrite Hdisj by done. by apply A1.
  - intros v Hv Hne. rewrite Hge by done. destruct (present _); [done|]. by apply Hm.
  - rewrite aget_aset_ne by lia. by rewrite aget_aset_eq by lia.
  - by rewrite aget_aset_eq by (rewrite alen_aset; lia).
Qed.
End ManagerLaws.

(** ** Clients of one map *)

(** Operations on a map, the kernel page aliased only over an empty entry. *)
Inductive memmap_step (m : MemMap.t) : MemMap.t -> Prop :=
  | ms_add virt pde :
      0 <= virt < 2 ^ 32 -> present pde = true ->
      (PhysAddr.index pde = 1 ->
         present (aget (MemMap.virt2phys m) (vidx_of virt)) = false) ->
      memmap_step m (MemMap.add m virt pde).2
  | ms_remove_virt virt :
      0 <= virt < 2 ^ 32 -> memmap_step m (MemMap.remove_virt m virt).2
  | ms_remove_phys pde : memmap_step m (MemMap.remove_phys m pde).2
  | ms_reset : memmap_step m (MemMap.resetVPage0And1 m)
  | ms_clear : memmap_step m (MemMap.clear m).

Lemma memmap_step_inv m m' : MemMap.inv m -> memmap_step m m' -> MemMap.inv m'.
Proof.
  intros Hi []; auto using MemMapLaws.memmap_inv_add, MemMapLaws.memmap_inv_remove_virt,
    MemMapLaws.memmap_inv_remove_phys, MemMapLaws.memmap_inv_reset.
  apply MemMapLaws.memmap_inv_clear, Hi.
Qed.

Lemma memmap_reachable_inv m : rtc memmap_step MemMap.init m -> MemMap.inv m.
Proof.
  intros Hs. pose proof MemMapLaws.memmap_inv_init as Hi. revert Hi.
  generalize MemMap.init Hs. clear. intros m0 Hs.
  induction Hs; eauto using memmap_step_inv.
Qed.

(** ** Properties *)

(** A page-directory entry gives back the page index and the flags it was built
    from, for every 12-bit index (16 GB of physical memory) and 13-bit flags. *)
Theorem physaddr_roundtrip (idx f : Z) :
  0 <= idx < 2 ^ PhysIdxLength -> 0 <= f < 2 ^ 13 ->
  PhysAddr.index (PhysAddr.make idx f) = idx /\
  PhysAddr.flags (PhysAddr.make idx f) = Z.lor PG_4MB_BASE f /\
  present (PhysAddr.make idx f) = true.
Proof.
  auto using physaddr_index_make, physaddr_flags_make, present_make.
Qed.

Lemma physaddr_roundtrip_witness :
  PhysAddr.index (PhysAddr.make 0xabc 0x107) = 0xabc /\
  PhysAddr.flags (PhysAddr.make 0xabc 0x107) = Z.lor PG_4MB_BASE 0x107 /\
  present (PhysAddr.make 0xabc 0x107) = true.
Proof. apply (physaddr_roundtrip 0xabc 0x107); [change PhysIdxLength with 12|]; lia. Defined.

(** In every map reachable from the empty one, no physical page other than the
    kernel's is mapped at two virtual pages, translating a mapped page forth and
    back gives its base address, page 0 is absent and page 1 is the kernel. *)
Theorem memmap_one_to_one (m : MemMap.t) (u v : Z) :
  rtc memmap_step MemMap.init m ->
  2 <= u < PD_NUM_ENTRIES -> 2 <= v < PD_NUM_ENTRIES ->
  present (aget (MemMap.virt2phys m) u) = true ->
  present (aget (MemMap.virt2phys m) v) = true ->
  PhysAddr.index (aget (MemMap.virt2phys m) u) <> 1 ->
  (PhysAddr.index (aget (MemMap.virt2phys m) u) =
     PhysAddr.index (aget (MemMap.virt2phys m) v) -> u = v) /\
  MemMap.translate_phys m (MemMap.translate_virt m (u32 (Z.shiftl u 22))) = u32 (Z.shiftl u 22) /\
  present (aget (MemMap.virt2phys m) 0) = false /\
  aget (MemMap.virt2phys m) 1 = PhysAddr.make 1 PG_GLOABL.
Proof.
  intros Hs%memmap_reachable_inv Hu Hv Pu Pv Hi. split_and!.
  - intros He. rewrite <- (MemMap.inv_fwd _ Hs u), <- (MemMap.inv_fwd _ Hs v) by congruence.
    congruence.
  - unfold MemMap.translate_phys, MemMap.translate_virt. rewrite vidx_page by lia.
    by rewrite (MemMap.inv_fwd _ Hs u).
  - apply Hs.
  - apply Hs.
Qed.

Lemma memmap_one_to_one_witness :
  let m1 := (MemMap.add MemMap.init 0xc0000000 (PhysAddr.make 5 PG_WRITABLE)).2 in
  let m2 := (MemMap.add m1 0xc0400000 (PhysAddr.make 6 PG_WRITABLE)).2 in
  MemMap.translate_phys m2 (MemMap.translate_virt m2 (u32 (Z.shiftl 768 22)))
    = u32 (Z.shiftl 768 22).
Proof.
  intros m1 m2. refine (proj1 (proj2 (memmap_one_to_one m2 768 769 _ _ _ _ _ _))).
  - eapply rtc_l; [|apply rtc_once]; apply ms_add;
      first [lia | vm_compute; reflexivity | vm_compute; by intros [=]].
  - change PD_NUM_ENTRIES with 1024. lia.
  - change PD_NUM_ENTRIES with 1024. lia.
  - vm_compute. reflexivity.
  - vm_compute. reflexivity.
  - vm_compute. by intros [=].
Defined.

Definition demo_commons : Manager.t :=
  (Manager.addCommonPage
     (Manager.addCommonPage (Manager.init (replicate (Z.to_nat PD_NUM_ENTRIES) 0))
        0xc0000000 (PhysAddr.make 5 PG_WRITABLE)).2
     0xc0400000 (PhysAddr.make 6 PG_WRITABLE)).2.

(** Loading a process that maps the same page as a common page passes the
    conflict test, but the merge then refuses: the other common pages are missing
    from the new directory, and the caller is told that all went well. *)
Theorem switchMap_shared_page_drops_commons :
  let s := Manager.start demo_commons in
  let shared := aget (MemMap.virt2phys (Manager.commonMemMap s)) (vidx_of 0xc0000000) in
  let map := (TinyMemMap.add TinyMemMap.init 0xc0000000 shared).2 in
  let '(ok, s') := Manager.switchMap s map in
  ok = true /\
  present (aget (MemMap.virt2phys (Manager.commonMemMap s)) (vidx_of 0xc0400000)) = true /\
  present (aget (Manager.active_dir s') (vidx_of 0xc0400000)) = false.
Proof. vm_compute. done. Qed.
