(* ===== verification/KMalloc.v ===== *)
(** * The kernel's heap (student-distrib/klibs/kmalloc.cpp, inc/klibs/kmalloc.h)

    [new] and [delete]: five classes of blocks, each served by object pools of one 4 MB
    page whose header sits in the page itself. Where the pages come from is the
    interface [PageSource]; the kernel's source is the physical pages, the last
    gigabyte of virtual addresses and the common map together. The pools are an
    abstract store here; that no block meets a header is a theorem. *)
From stdpp Require Import prelude list gmap sets numbers.
From Stdlib Require Import ZArith Lia.
From S2P Require Import Prelude BitSet Stack PhysPages VirtRegion MemMap.

Module KMalloc.

(** The template argument [ElementSize]. *)
Inductive size_class := C16 | C256 | C8K | C256K | C1M.
#[global] Instance size_class_eq : EqDecision size_class.
Proof. solve_decision. Defined.
Definition ElementSize (c : size_class) : Z :=
  match c with C16 => 16 | C256 => 256 | C8K => KB 8 | C256K => KB 256 | C1M => MB 1 end.
Definition PageSizeOf (c : size_class) : Z := MB 4.

(** ** [ObjectPool] *)

Record pool := mk_pool { freeMap : BitSet.t; freeStack : Stack.t Z; numValidElements : Z }.
#[global] Instance pool_inhabited : Inhabited pool := populate (mk_pool [] (Stack.mk [] 0) 0).

Section pool.
Context (c : size_class).

Definition MaxNumElements : Z := PageSizeOf c / ElementSize c.
(** [sizeof(ObjectPool)]: a word per bit of the map, the stack and its index, the count. *)
Definition sizeof_pool : Z := 4 * MaxNumElements + (4 * MaxNumElements + 4) + 4.
Definition ourNumElements : Z := alignAt (ElementSize c) sizeof_pool / ElementSize c.

(** The constructor, for a pool at address [this]. *)
Definition construct (this : Z) : pool :=
  let m0 := for_range 0 ourNumElements (fun i m => BitSet.clear MaxNumElements m i) (BitSet.init MaxNumElements) in
  let '(m, st) :=
    for_range ourNumElements MaxNumElements
      (fun i '(m, st) => (BitSet.set MaxNumElements m i,
                          Stack.push MaxNumElements st (u32 (this + ElementSize c * i))))
      (m0, Stack.init MaxNumElements 0) in
  mk_pool m st (MaxNumElements - ourNumElements).

Definition toMapIndex (this addr : Z) : Z :=
  if addr <? this then MaxNumElements + 1 else (addr - this) / ElementSize c.

Definition pool_get (this : Z) (o : pool) : option Z * pool :=
  if Stack.empty (freeStack o) then (None, o)
  else
    let '(addr, st) := Stack.pop 0 (freeStack o) in
    (Some addr, mk_pool (BitSet.clear MaxNumElements (freeMap o) (toMapIndex this addr)) st (numValidElements o)).

Definition pool_empty (o : pool) : bool := Stack.size (freeStack o) =? numValidElements o.

Definition release (this addr : Z) (o : pool) : bool * pool :=
  let idx := toMapIndex this addr in
  if MaxNumElements <=? idx then (false, o)
  else if negb (BitSet.test MaxNumElements (freeMap o) idx) then
    (true, mk_pool (BitSet.clear MaxNumElements (freeMap o) idx)
                   (Stack.push MaxNumElements (freeStack o) addr) (numValidElements o))
  else (false, o).
End pool.

(** ** [KMemory] *)

Definition MaxPoolNumInSingleSlot : Z := 30.
Definition MaxPoolNumInAllSlots : Z := 30.

(** What the heap needs of the page allocators: a fresh mapped 4 MB page, or none. *)
Class PageSource (P : Type) := get_page : P -> option Z * P.

(** [objs] is the memory the pools live in, by address. *)
Record t (P : Type) := mk {
  pools16 : Stack.t Z; pools256 : Stack.t Z; pools8K : Stack.t Z; pools256K : Stack.t Z; pools1M : Stack.t Z;
  totalNumPools : Z;
  objs : gmap Z pool;
  pages : P }.
#[global] Arguments mk {P} _ _ _ _ _ _ _ _.
#[global] Arguments pools16 {P} _.
#[global] Arguments pools256 {P} _.
#[global] Arguments pools8K {P} _.
#[global] Arguments pools256K {P} _.
#[global] Arguments pools1M {P} _.
#[global] Arguments totalNumPools {P} _.
#[global] Arguments objs {P} _.
#[global] Arguments pages {P} _.

Section ops.
Context {P : Type} `{PageSource P}.
Notation t := (t P).

Definition init (p : P) : t :=
  let st := Stack.init MaxPoolNumInSingleSlot 0 in mk st st st st st 0 ∅ p.

(** [PoolGetter<ElementSize>::val()]. *)
Definition slot (s : t) (c : size_class) : Stack.t Z :=
  match c with
  | C16 => pools16 s | C256 => pools256 s | C8K => pools8K s | C256K => pools256K s | C1M => pools1M s
  end.
Definition set_slot (s : t) (c : size_class) (st : Stack.t Z) : t :=
  match c with
  | C16 => mk st (pools256 s) (pools8K s) (pools256K s) (pools1M s) (totalNumPools s) (objs s) (pages s)
  | C256 => mk (pools16 s) st (pools8K s) (pools256K s) (pools1M s) (totalNumPools s) (objs s) (pages s)
  | C8K => mk (pools16 s) (pools256 s) st (pools256K s) (pools1M s) (totalNumPools s) (objs s) (pages s)
  | C256K => mk (pools16 s) (pools256 s) (pools8K s) st (pools1M s) (totalNumPools s) (objs s) (pages s)
  | C1M => mk (pools16 s) (pools256 s) (pools8K s) (pools256K s) st (totalNumPools s) (objs s) (pages s)
  end.
Definition set_total (s : t) (n : Z) : t :=
  mk (pools16 s) (pools256 s) (pools8K s) (pools256K s) (pools1M s) n (objs s) (pages s).
Definition set_obj (s : t) (p : Z) (o : pool) : t :=
  mk (pools16 s) (pools256 s) (pools8K s) (pools256K s) (pools1M s) (totalNumPools s) (<[p := o]> (objs s)) (pages s).
Definition set_pages (s : t) (p : P) : t :=
  mk (pools16 s) (pools256 s) (pools8K s) (pools256K s) (pools1M s) (totalNumPools s) (objs s) p.

(** [None] is the trap of [Stack::drop]. *)
Definition paraFindAndReleaseFreePool (c : size_class) (s : t) : option (option Z * t) :=
  let '(x, idx, s) := Stack.first (slot s c) 0
        (fun p s => (if pool_empty (objs s !!! p) then Some p else None, s)) s in
  match x with
  | Some p =>
      '(_, st) ← Stack.drop MaxPoolNumInSingleSlot (slot s c) idx;
      Some (Some p, set_total (set_slot s c st) (u32 (totalNumPools s - 1)))
  | None => Some (None, s)
  end.

(** [Maybe::operator>>]. *)
Definition or_else (m k : t -> option (option Z * t)) (s : t) : option (option Z * t) :=
  '(x, s) ← m s;
  match x with Some p => Some (Some p, s) | None => k s end.

Definition findAndReleaseFreePool : t -> option (option Z * t) :=
  or_else (or_else (or_else (paraFindAndReleaseFreePool C16) (paraFindAndReleaseFreePool C256))
                   (paraFindAndReleaseFreePool C8K)) (paraFindAndReleaseFreePool C256K).

(** A pool is made at [p], pushed and asked for a block. *)
Definition new_pool (c : size_class) (p : Z) (s : t) : option Z * t :=
  let s := set_slot s c (Stack.push MaxPoolNumInSingleSlot (slot s c) p) in
  let '(r, o) := pool_get c p (construct c p) in
  (r, set_obj s p o).

Definition slot_get (c : size_class) (s : t) : option Z * t :=
  let '(x, _, s) := Stack.first (slot s c) 0
        (fun p s => let '(r, o) := pool_get c p (objs s !!! p) in (r, set_obj s p o)) s in
  (x, s).

Definition paraAllocate (c : size_class) (s : t) : option (option Z * t) :=
  let '(x, s) := slot_get c s in
  match x with
  | Some a => Some (Some a, s)
  | None =>
      if Stack.full MaxPoolNumInSingleSlot (slot s c) then Some (None, s)
      else
        '(freePool, s) ← findAndReleaseFreePool s;
        match freePool with
        | Some p => Some (new_pool c p s)
        | None =>
            if totalNumPools s =? MaxPoolNumInAllSlots then Some (None, s)
            else
              let '(va, pg) := get_page (pages s) in
              let s := set_pages s pg in
              match va with
              | Some p =>
                  let '(r, s) := new_pool c p s in
                  Some (r, set_total s (u32 (totalNumPools s + 1)))
              | None => Some (None, s)
              end
        end
  end.

Definition paraFree (c : size_class) (addr : Z) (s : t) : bool * t :=
  let '(b, _, s) := Stack.firstTrue (slot s c) 0
        (fun p s => let '(b, o) := release c p addr (objs s !!! p) in (b, set_obj s p o)) s in
  (b, s).

(** The [if] chain of [allocImpl] and [freeImpl]. *)
Definition class_of (size : Z) : option size_class :=
  if size <=? 16 then Some C16
  else if size <=? 256 then Some C256
  else if size <=? KB 8 then Some C8K
  else if size <=? KB 256 then Some C256K
  else if size <=? MB 1 then Some C1M
  else None.

Definition allocImpl (size : Z) (s : t) : option (option Z * t) :=
  match class_of size with Some c => paraAllocate c s | None => Some (None, s) end.

(** [freeImpl(addr)]: the classes in turn; exception 25 when none has the block. *)
Definition free_any (addr : Z) (s : t) : outcome t :=
  let '(b, s) := paraFree C16 addr s in
  if b then Ret s else
  let '(b, s) := paraFree C256 addr s in
  if b then Ret s else
  let '(b, s) := paraFree C8K addr s in
  if b then Ret s else
  let '(b, s) := paraFree C256K addr s in
  if b then Ret s else
  let '(b, s) := paraFree C1M addr s in
  if b then Ret s else Raise 25.
(** [freeImpl(addr, size)]. *)
Definition free_sized (addr size : Z) (s : t) : bool * t :=
  match class_of size with Some c => paraFree c addr s | None => (false, s) end.

Definition operator_new (size : Z) (s : t) : option (outcome (Z * t)) :=
  '(x, s) ← allocImpl size s;
  Some (match x with Some a => Ret (a, s) | None => Raise 24 end).
Definition operator_delete (p : Z) (s : t) : outcome t := free_any p s.
Definition operator_delete_sized (p size : Z) (s : t) : outcome t :=
  let '(b, s) := free_sized p size s in if b then Ret s else Raise 25.
End ops.

(** ** One pool *)

Definition block_addr (c : size_class) (p i : Z) : Z := p + ElementSize c * i.
(** [a] is the address of a block of the pool at [p]. *)
Definition is_block (c : size_class) (p a : Z) : Prop :=
  exists i, ourNumElements c <= i < MaxNumElements c /\ a = block_addr c p i.

Lemma class_sizes c : 0 < ElementSize c /\ PageSizeOf c = ElementSize c * MaxNumElements c /\
  0 < ourNumElements c < MaxNumElements c /\ sizeof_pool c <= ElementSize c * ourNumElements c /\
  (ElementSize c | PageSizeOf c) /\ MaxNumElements c < 2 ^ 31.
Proof.
  destruct c; (split_and!; [vm_compute; congruence..| | ]);
    first [by apply Z.mod_divide; vm_compute|by vm_compute].
Qed.

Lemma toMapIndex_block c p i b : 0 <= p -> 0 <= i -> 0 <= b < ElementSize c -> toMapIndex c p (block_addr c p i + b) = i.
Proof.
  intros Hp Hi Hb. destruct (class_sizes c) as (He & _). unfold toMapIndex, block_addr.
  rewrite (proj2 (Z.ltb_ge _ _)) by nia. replace (p + ElementSize c * i + b - p) with (b + i * ElementSize c) by lia.
  rewrite Z.div_add by lia. rewrite Z.div_small by lia. lia.
Qed.
Lemma toMapIndex_block0 c p i : 0 <= p -> 0 <= i -> toMapIndex c p (block_addr c p i) = i.
Proof.
  intros Hp Hi. destruct (class_sizes c) as (He & _). rewrite <- (Z.add_0_r (block_addr c p i)).
  apply toMapIndex_block; lia.
Qed.

Lemma block_inj c p i j : block_addr c p i = block_addr c p j -> i = j.
Proof. destruct (class_sizes c) as (He & _). unfold block_addr. nia. Qed.

(** A 4 MB page of the 32-bit address space. *)
Definition page_ok (p : Z) : Prop := 0 < p /\ p mod MB 4 = 0 /\ p + MB 4 <= 2 ^ 32.
Definition in_page (p a : Z) : Prop := p <= a < p + MB 4.
#[global] Instance in_page_dec p a : Decision (in_page p a).
Proof. unfold in_page. apply _. Defined.

Lemma in_page_unique p q a : page_ok p -> page_ok q -> in_page p a -> in_page q a -> p = q.
Proof. unfold page_ok, in_page, MB. intros (_ & Hp & _) (_ & Hq & _) Ha Hb. zdiv. Qed.

Lemma is_block_page c p a : page_ok p -> is_block c p a -> p + sizeof_pool c <= a /\ a + ElementSize c <= p + MB 4.
Proof.
  intros _ (i & Hi & ->). destruct (class_sizes c) as (He & Hp & Ho & Hs & _). unfold block_addr, PageSizeOf in *. nia.
Qed.

Lemma is_block_in_page c p a : page_ok p -> is_block c p a -> in_page p a.
Proof.
  intros Hok Hb. pose proof (is_block_page c p a Hok Hb). destruct (class_sizes c) as (He & _).
  assert (0 < sizeof_pool c) by (destruct c; vm_compute; reflexivity). unfold in_page. lia.
Qed.

(** The blocks of [live] are the clients'; the rest of the pool's are on its stack. *)
Record pool_inv (c : size_class) (p : Z) (o : pool) (live : gset Z) : Prop := {
  pi_map : BitSet.wf (MaxNumElements c) (freeMap o);
  pi_stack : Stack.wf (MaxNumElements c) (freeStack o);
  pi_free : Forall (is_block c p) (Stack.contents (freeStack o));
  pi_nodup : NoDup (Stack.contents (freeStack o));
  pi_live a : a ∈ live -> is_block c p a /\ a ∉ Stack.contents (freeStack o) /\
    BitSet.test (MaxNumElements c) (freeMap o) (toMapIndex c p a) = false;
  pi_valid : numValidElements o = MaxNumElements c - ourNumElements c;
  pi_count : alen (Stack.contents (freeStack o)) + Z.of_nat (size live) = numValidElements o }.

Section pool_laws.
Context (c : size_class) (p : Z) (Hp : page_ok p).

Lemma construct_inv : pool_inv c p (construct c p) ∅.
Proof using Hp.
  destruct (class_sizes c) as (He & Hsz & Ho & _ & _ & Hsm). destruct Hp as (Hp0 & _ & Hp1).
  set (n := MaxNumElements c) in *. set (k := ourNumElements c) in *.
  unfold construct. fold n k.
  set (m0 := for_range 0 k _ _).
  assert (Hm0 : BitSet.wf n m0).
  { apply (for_range_ind (fun _ m => BitSet.wf n m)); [lia|apply BitSet.bs_wf_init; lia|].
    intros i m _ Hm. by apply BitSet.bs_wf_clear. }
  set (f := fun i '(m, st) => _).
  set (good := fun i (s : BitSet.t * Stack.t Z) => i <= n -> BitSet.wf n s.1 /\ Stack.wf n s.2 /\
    Stack.contents s.2 = block_addr c p <$> seqZ k (i - k)).
  assert (Hloop : good n (for_range k n f (m0, Stack.init n 0))).
  { apply (for_range_ind good); [lia| |].
    - intros _. split; [done|]. split; [apply Stack.stack_wf_init; lia|]. by rewrite Z.sub_diag.
    - intros i [m st] Hi IH Hle. destruct (IH ltac:(lia)) as (Hm & Hst & Hc). cbn [f fst snd] in *.
      split; [by apply BitSet.bs_wf_set|]. split; [by apply Stack.stack_wf_push|].
      rewrite Stack.contents_push by done. rewrite decide_True.
      + rewrite Hc. replace (i + 1 - k) with (i - k + 1) by lia. rewrite seqZ_app, fmap_app by lia. cbn [seqZ].
        f_equal. change (seqZ (k + (i - k)) 1) with [0 + (k + (i - k))]. rewrite u32_small.
        * cbn [fmap list_fmap]. do 2 f_equal. unfold block_addr. do 2 f_equal. lia.
        * assert (ElementSize c * i < ElementSize c * n) by nia. unfold PageSizeOf in Hsz. nia.
      + rewrite <- (Stack.length_contents n st Hst), Hc, length_fmap, length_seqZ. lia. }
  destruct (for_range k n f _) as [m st]. destruct (Hloop ltac:(lia)) as (Hm & Hst & Hc). cbn [fst snd] in *.
  split; cbn [freeMap freeStack numValidElements]; try done.
  - rewrite Hc. apply Forall_fmap, list.Forall_forall. intros i Hi%elem_of_seqZ. exists i. split; [lia|done].
  - rewrite Hc. apply NoDup_fmap_2; [intros i j; apply block_inj|apply NoDup_seqZ].
  - rewrite Hc. unfold alen. rewrite length_fmap, length_seqZ, size_empty. lia.
Qed.

Lemma object_pool_get_spec o live : pool_inv c p o live ->
  match pool_get c p o with
  | (Some a, o') => is_block c p a /\ a ∉ live /\ pool_inv c p o' ({[a]} ∪ live)
  | (None, o') => o' = o /\ Z.of_nat (size live) = MaxNumElements c - ourNumElements c
  end.
Proof using Hp.
  intros [Hm Hs Hf Hd Hl Hv Hn]. destruct (class_sizes c) as (He & _ & Ho & _). destruct Hp as (Hp0 & _).
  unfold pool_get. rewrite (Stack.empty_spec (MaxNumElements c)) by done.
  destruct (Stack.contents (freeStack o)) as [|x xs IH] eqn:E using rev_ind.
  { rewrite bool_decide_true by done. split; [done|]. unfold alen in Hn. simpl in Hn. lia. }
  clear IH. rewrite bool_decide_false by (by destruct xs).
  destruct (Stack.pop_contents (MaxNumElements c) 0 (freeStack o) xs x Hs E) as (H1 & H2 & H3).
  destruct (Stack.pop 0 (freeStack o)) as [a st]. cbn [fst snd] in *. subst x xs.
  apply list.Forall_app in Hf as [Hf Ha%Forall_inv]. apply list.NoDup_app in Hd as (Hd & Hx & _).
  assert (Hal : a ∉ live) by (intros Hal; destruct (Hl a Hal) as (_ & Hn' & _); set_solver).
  destruct Ha as (i & Hi & ->). split; [by exists i|]. split; [done|].
  assert (Hti : toMapIndex c p (block_addr c p i) = i) by (apply toMapIndex_block0; lia).
  split; cbn [freeMap freeStack numValidElements]; try done.
  - by apply BitSet.bs_wf_clear.
  - intros a. rewrite elem_of_union, elem_of_singleton. intros [->|Ha].
    + split; [by exists i|]. split; [intros Hin; apply (Hx _ Hin); set_solver|].
      rewrite Hti. apply BitSet.test_clear_same; [done|lia].
    + destruct (Hl a Ha) as (Hb & Hni & Ht). split; [done|]. split; [set_solver|].
      rewrite Hti. destruct Hb as (j & Hj & ->). rewrite toMapIndex_block0 in * by lia.
      rewrite BitSet.test_clear by (done || lia). by rewrite Ht, andb_false_r.
  - rewrite size_union by set_solver. rewrite size_singleton. unfold alen in *. rewrite length_app in Hn. simpl in Hn. lia.
Qed.

(** A block the client has goes back; one of another pool is not taken. *)
Lemma release_spec o live a : pool_inv c p o live -> a ∈ live ->
  exists o', release c p a o = (true, o') /\ pool_inv c p o' (live ∖ {[a]}).
Proof using Hp.
  intros [Hm Hs Hf Hd Hl Hv Hn] Ha. destruct (class_sizes c) as (He & _ & Ho & _). destruct Hp as (Hp0 & _).
  destruct (Hl a Ha) as ((i & Hi & ->) & Hni & Ht). unfold release. rewrite Ht.
  assert (Hti : toMapIndex c p (block_addr c p i) = i) by (apply toMapIndex_block0; lia).
  rewrite Hti in *. rewrite (proj2 (Z.leb_gt _ _)) by lia. eexists. split; [done|].
  assert (Hsz : (size live = S (size (live ∖ {[block_addr c p i]})))%nat).
  { rewrite (union_difference_singleton_L _ live Ha) at 1. rewrite size_union by set_solver. by rewrite size_singleton. }
  pose proof (Stack.length_contents _ _ Hs) as Hlen. unfold alen in Hn.
  assert (Hlt : Stack.idx (freeStack o) < MaxNumElements c) by lia.
  split; cbn [freeMap freeStack numValidElements]; try done.
  - by apply BitSet.bs_wf_clear.
  - by apply Stack.stack_wf_push.
  - rewrite Stack.contents_push, decide_True by done. apply list.Forall_app. split; [done|]. repeat constructor. by exists i.
  - rewrite Stack.contents_push, decide_True by done. apply list.NoDup_app. split; [done|]. split; [set_solver|apply list.NoDup_singleton].
  - intros b [Hb Hne]%elem_of_difference. rewrite elem_of_singleton in Hne.
    destruct (Hl b Hb) as (Hb' & Hnb & Htb). split; [done|]. rewrite Stack.contents_push, decide_True by done.
    split; [set_solver|]. destruct Hb' as (j & Hj & ->). rewrite toMapIndex_block0 in * by lia.
    rewrite BitSet.test_clear by (done || lia). by rewrite Htb, andb_false_r.
  - rewrite Stack.contents_push, decide_True by done. unfold alen. rewrite length_app. simpl. lia.
Qed.

Lemma release_other o a : page_ok p -> ~ in_page p a -> release c p a o = (false, o).
Proof using Type.
  intros _ Ha. destruct (class_sizes c) as (He & Hsz & Ho & _). unfold release, toMapIndex, in_page in *.
  destruct (Z.ltb_spec a p); [by rewrite (proj2 (Z.leb_le _ _)) by lia|].
  rewrite (proj2 (Z.leb_le _ _)); [done|]. unfold PageSizeOf in Hsz.
  apply Z.div_le_lower_bound; [lia|]. lia.
Qed.

Lemma pool_empty_spec o live : pool_inv c p o live -> pool_empty o = true -> live = ∅.
Proof using Type.
  intros [_ Hs _ _ _ _ Hn] He. unfold pool_empty, Stack.size in He. rewrite Z.eqb_eq in He.
  rewrite <- (Stack.length_contents _ _ Hs) in He. unfold alen in Hn. apply leibniz_equiv, size_empty_inv. lia.
Qed.
End pool_laws.

(** ** The heap *)

(** What the heap relies on: the source keeps track of the pages [g] it gave away and
    hands out whole pages that are not among them. *)
Class PageSourceLaws (P : Type) `{PageSource P} := {
  owns : P -> gset Z -> Prop;
  get_page_spec pg g : owns pg g ->
    match get_page pg with
    | (Some p, pg') => page_ok p /\ p ∉ g /\ owns pg' ({[p]} ∪ g)
    | (None, pg') => owns pg' g
    end }.

Section heap.
Context {P : Type} `{PageSourceLaws P}.
Implicit Types (s : t P) (live : gmap Z size_class).

Definition pool_at s (c : size_class) (p : Z) : Prop := p ∈ Stack.contents (slot s c).

(** The blocks of [live] in the page at [p]. *)
Definition live_in live (p : Z) : gset Z := filter (in_page p) (dom live).

(** [live] are the blocks the clients have, [g] the pages of the heap. *)
Record heap_inv s live (g : gset Z) : Prop := {
  hi_owns : owns (pages s) g;
  hi_slot c : Stack.wf MaxPoolNumInSingleSlot (slot s c);
  hi_nodup c : NoDup (Stack.contents (slot s c));
  hi_page c p : pool_at s c p -> p ∈ g /\ page_ok p;
  hi_class c c' p : pool_at s c p -> pool_at s c' p -> c = c';
  hi_pool c p : pool_at s c p -> pool_inv c p (objs s !!! p) (live_in live p);
  hi_live a c : live !! a = Some c -> exists p, pool_at s c p /\ in_page p a }.

Lemma elem_of_live_in live p a : a ∈ live_in live p <-> in_page p a /\ is_Some (live !! a).
Proof. unfold live_in. by rewrite elem_of_filter, elem_of_dom. Qed.

Lemma live_in_insert live p a c : in_page p a -> live_in (<[a := c]> live) p = {[a]} ∪ live_in live p.
Proof.
  intros Ha. apply set_eq. intros b. rewrite elem_of_union, !elem_of_live_in, elem_of_singleton.
  destruct (decide (b = a)) as [->|Hne].
  - rewrite lookup_insert_eq. naive_solver.
  - rewrite lookup_insert_ne by done. naive_solver.
Qed.
Lemma live_in_insert_ne live p a c : ~ in_page p a -> live_in (<[a := c]> live) p = live_in live p.
Proof.
  intros Ha. apply set_eq. intros b. rewrite !elem_of_live_in. destruct (decide (b = a)) as [->|Hne]; [naive_solver|].
  by rewrite lookup_insert_ne.
Qed.
Lemma live_in_delete live p a : live_in (delete a live) p = live_in live p ∖ {[a]}.
Proof.
  apply set_eq. intros b. rewrite elem_of_difference, !elem_of_live_in, elem_of_singleton.
  destruct (decide (b = a)) as [->|Hne].
  - rewrite lookup_delete_eq. split; [intros [_ [? ?]]; done|naive_solver].
  - rewrite lookup_delete_ne by done. naive_solver.
Qed.
Lemma live_in_delete_ne live p a : ~ in_page p a -> live_in (delete a live) p = live_in live p.
Proof.
  intros Ha. rewrite live_in_delete. apply set_eq. intros b. rewrite elem_of_difference, elem_of_live_in, elem_of_singleton.
  split; [tauto|]. intros [Hb ?]. split; [tauto|]. by intros ->.
Qed.

Lemma slot_set_slot s c st c' : slot (set_slot s c st) c' = if decide (c = c') then st else slot s c'.
Proof. by destruct c, c'. Qed.
Lemma slot_set_obj s p o c : slot (set_obj s p o) c = slot s c.
Proof. by destruct c. Qed.
Lemma slot_set_total s n c : slot (set_total s n) c = slot s c.
Proof. by destruct c. Qed.
Lemma slot_set_pages s pg c : slot (set_pages s pg) c = slot s c.
Proof. by destruct c. Qed.
Lemma objs_set_slot s c st : objs (set_slot s c st) = objs s.
Proof. by destruct c. Qed.
Lemma pages_set_slot s c st : pages (set_slot s c st) = pages s.
Proof. by destruct c. Qed.

(** A live block belongs to one pool, of its class. *)
Lemma live_pool s live g a c c' p : heap_inv s live g -> live !! a = Some c -> pool_at s c' p -> in_page p a -> c = c'.
Proof.
  intros I Hl Hp Ha. destruct (hi_live _ _ _ I a c Hl) as (q & Hq & Haq).
  assert (q = p) as ->; [|by eapply hi_class].
  eapply in_page_unique; [by eapply hi_page|by eapply hi_page|done|done].
Qed.

(** Only the pools and the count of a heap matter, and only where its pools are. *)
Lemma heap_inv_obj s live live' g c p o : heap_inv s live g -> pool_at s c p ->
  pool_inv c p o (live_in live' p) ->
  (forall a, ~ in_page p a -> live' !! a = live !! a) -> (forall a c', in_page p a -> live' !! a = Some c' -> c' = c) ->
  heap_inv (set_obj s p o) live' g.
Proof.
  intros I Hp Ho Hl Hc. destruct (hi_page _ _ _ I c p Hp) as [_ Hok].
  split; try (intros *; unfold pool_at; rewrite ?slot_set_obj); try apply I.
  - intros Hq. cbn [objs set_obj]. destruct (decide (p0 = p)) as [->|Hne].
    + rewrite lookup_total_insert_eq. by rewrite <- (hi_class _ _ _ I c c0 p).
    + rewrite lookup_total_insert_ne by done. replace (live_in live' p0) with (live_in live p0); [by apply I|].
      apply set_eq. intros a. rewrite !elem_of_live_in. destruct (decide (in_page p a)) as [Ha|Ha]; [|by rewrite Hl].
      assert (~ in_page p0 a); [|naive_solver]. intros Ha0. apply Hne.
      by eapply in_page_unique; [eapply hi_page| | |].
  - intros Ha. destruct (decide (in_page p a)) as [Hin|Hout].
    + assert (c0 = c) as -> by eauto. by exists p.
    + rewrite Hl in Ha by done. destruct (hi_live _ _ _ I a c0 Ha) as (q & Hq & Hqa). by exists q.
Qed.

Definition same_slots s s' : Prop := forall c, slot s' c = slot s c.

(** Writing a pool back where it was. *)
Lemma heap_inv_same s live g c p : heap_inv s live g -> pool_at s c p ->
  heap_inv (set_obj s p (objs s !!! p)) live g /\ same_slots s (set_obj s p (objs s !!! p)).
Proof.
  intros I Hp. split; [|intros c'; apply slot_set_obj].
  apply (heap_inv_obj s live live g c p); try done; [by apply I|].
  intros a c' Ha Hl. symmetry. symmetry. by eapply live_pool.
Qed.

Lemma heap_inv_total s live g n : heap_inv s live g -> heap_inv (set_total s n) live g.
Proof.
  intros [Ho Hs Hd Hp Hc Hi Hl]. split; unfold pool_at in *; intros *; rewrite ?slot_set_total; eauto.
Qed.

Lemma slot_get_spec s live g c : heap_inv s live g ->
  match slot_get c s with
  | (Some a, s') => same_slots s s' /\ live !! a = None /\ heap_inv s' (<[a := c]> live) g /\
      exists p, pool_at s c p /\ is_block c p a
  | (None, s') => same_slots s s' /\ heap_inv s' live g /\
      forall p, pool_at s c p -> Z.of_nat (size (live_in live p)) = MaxNumElements c - ourNumElements c
  end.
Proof.
  intros I. unfold slot_get, Stack.first. set (fn := fun p s => _).
  assert (Hgen : forall xs i j s, heap_inv s live g -> (forall p, p ∈ xs -> pool_at s c p) ->
    match Stack.first_loop fn xs i j s with
    | (Some a, _, s') => same_slots s s' /\ live !! a = None /\ heap_inv s' (<[a := c]> live) g /\
        exists p, pool_at s c p /\ is_block c p a
    | (None, _, s') => same_slots s s' /\ heap_inv s' live g /\
        forall p, p ∈ xs -> Z.of_nat (size (live_in live p)) = MaxNumElements c - ourNumElements c
    end).
  { clear s I. induction xs as [|p xs IH]; intros i j s I Hin; cbn [Stack.first_loop].
    { split; [done|]. split; [done|]. intros p Hp. by apply not_elem_of_nil in Hp. }
    assert (Hp : pool_at s c p) by (apply Hin; set_solver). destruct (hi_page _ _ _ I c p Hp) as [Hpg Hok].
    pose proof (object_pool_get_spec c p Hok _ _ (hi_pool _ _ _ I c p Hp)) as Hg. unfold fn at 1.
    destruct (pool_get c p (objs s !!! p)) as [[a|] o].
    - destruct Hg as (Hb & Hna & Ho). pose proof (is_block_in_page c p a Hok Hb) as Ha.
      assert (Hn : live !! a = None).
      { destruct (live !! a) eqn:E; [|done]. destruct Hna. apply elem_of_live_in. split; [done|by eexists]. }
      split; [intros c'; apply slot_set_obj|]. split; [done|]. split; [|by exists p].
      apply (heap_inv_obj s live _ g c p); try done.
      + by rewrite live_in_insert.
      + intros b Hb'. apply lookup_insert_ne. by intros ->.
      + intros b c' Hb'. destruct (decide (b = a)) as [->|Hne]; [rewrite lookup_insert_eq; congruence|].
        rewrite lookup_insert_ne by done. intros Hl. symmetry. symmetry. by eapply live_pool.
    - destruct Hg as [-> Hsz]. destruct (heap_inv_same s live g c p I Hp) as [I' Hss].
      specialize (IH (i + 1) i _ I'). destruct (Stack.first_loop fn xs (i + 1) i _) as [[[a|] k] s'].
      + destruct IH as (Hs' & Hn & I2 & q & Hq & Hqb).
        { intros q Hq. unfold pool_at. rewrite Hss. apply Hin. set_solver. }
        split; [intros c'; rewrite Hs'; apply Hss|]. split; [done|]. split; [done|]. exists q.
        split; [|done]. unfold pool_at in *. by rewrite <- (Hss c).
      + destruct IH as (Hs' & I2 & Hsz').
        { intros q Hq. unfold pool_at. rewrite Hss. apply Hin. set_solver. }
        split; [intros c'; rewrite Hs'; apply Hss|]. split; [done|]. intros q Hq.
        apply elem_of_cons in Hq as [->|Hq]; [done|by apply Hsz']. }
  specialize (Hgen (Stack.contents (slot s c)) 0 0 s I (fun p Hp => Hp)).
  by destruct (Stack.first_loop _ _ _ _ _) as [[[a|] k] s'].
Qed.

Lemma first_loop_find {T S} (f : S -> T -> bool) (xs : list T) (i j : Z) (m : S) : exists k,
  Stack.first_loop (fun x (m : S) => (if f m x then Some x else None, m)) xs i j m =
  match list_find (fun x => f m x = true) xs with
  | Some (n, x) => (Some x, i + Z.of_nat n, m)
  | None => (None, k, m)
  end.
Proof.
  revert i j. induction xs as [|x xs IH]; intros i j; simpl; [by exists j|]. destruct (f m x) eqn:E.
  - exists 0. rewrite decide_True by done. by rewrite Z.add_0_r.
  - rewrite decide_False by done. destruct (IH (i + 1) i) as [k ->]. exists k.
    destruct (list_find _ xs) as [[n y]|]; simpl; [|done]. by replace (i + 1 + Z.of_nat n) with (i + Z.of_nat (Datatypes.S n)) by lia.
Qed.

(** A pool taken out of its slot. *)
Definition freed s live g (p : Z) : Prop := heap_inv s live g /\ p ∈ g /\ page_ok p /\
  (forall c, ~ pool_at s c p) /\ live_in live p = ∅.
Definition shrunk s s' : Prop := forall c, Stack.idx (slot s' c) <= Stack.idx (slot s c).

Lemma find_free_spec s live g c : heap_inv s live g -> exists r s',
  paraFindAndReleaseFreePool c s = Some (r, s') /\ shrunk s s' /\
  match r with Some p => freed s' live g p | None => heap_inv s' live g end.
Proof.
  intros I. unfold paraFindAndReleaseFreePool, Stack.first.
  destruct (first_loop_find (fun s p => pool_empty (objs s !!! p)) (Stack.contents (slot s c)) 0 0 s) as [k ->].
  destruct (list_find _ _) as [[n p]|] eqn:F; [|exists None, s; split; [done|]; split; [by intros c'|done]].
  apply list_find_Some in F as (Hn & He & _). pose proof (hi_slot _ _ _ I c) as Hw.
  pose proof (Stack.length_contents _ _ Hw) as Hlen. pose proof (lookup_lt_Some _ _ _ Hn) as Hlt.
  destruct (Stack.drop_spec MaxPoolNumInSingleSlot (slot s c) (0 + Z.of_nat n) Hw) as (x & st & -> & Hwst & Hx & Hct); [lia|].
  cbn [mbind option_bind]. replace (Z.to_nat (0 + Z.of_nat n)) with n in * by lia.
  assert (Hp : pool_at s c p) by by eapply list_elem_of_lookup_2. pose proof (hi_page _ _ _ I c p Hp) as [Hpg Hok].
  assert (Hle : live_in live p = ∅) by (eapply pool_empty_spec; [by apply I|done]).
  assert (Hperm : Stack.contents (slot s c) ≡ₚ p :: Stack.contents st) by (rewrite Hct; by apply delete_Permutation).
  pose proof (hi_nodup _ _ _ I c) as Hd. rewrite Hperm in Hd. apply list.NoDup_cons in Hd as [Hnin Hd].
  set (s' := set_total (set_slot s c st) (u32 (totalNumPools s - 1))).
  assert (Hslot : forall c', slot s' c' = if decide (c = c') then st else slot s c')
    by (intros c'; unfold s'; rewrite slot_set_total; apply slot_set_slot).
  assert (Hsub : forall c' q, pool_at s' c' q <-> pool_at s c' q /\ q <> p).
  { intros c' q. unfold pool_at. rewrite Hslot. case_decide as E; [subst c'|].
    - rewrite Hperm, elem_of_cons. split; [intros Hq; split; [by right|by intros ->]|by intros [[?|?] ?]].
    - split; [|tauto]. intros Hq. split; [done|]. intros ->. apply E. by eapply hi_class. }
  exists (Some p), s'. split; [done|]. split.
  { intros c'. rewrite Hslot. case_decide; [|done]. subst c'. pose proof (Stack.length_contents _ _ Hwst) as Hl'.
    apply Permutation_length in Hperm. simpl in Hperm. lia. }
  split; [|split; [done|split; [done|split; [|done]]]].
  - split.
    + unfold s'. cbn [pages set_total]. rewrite pages_set_slot. apply I.
    + intros c'. rewrite Hslot. case_decide; [done|apply I].
    + intros c'. rewrite Hslot. case_decide; [done|apply I].
    + intros c' q [Hq _]%Hsub. by eapply hi_page.
    + intros c1 c2 q [H1 _]%Hsub [H2 _]%Hsub. by eapply hi_class.
    + intros c' q [Hq _]%Hsub. unfold s'. cbn [objs set_total]. rewrite objs_set_slot. by apply I.
    + intros a c' Ha. destruct (hi_live _ _ _ I a c' Ha) as (q & Hq & Haq). exists q. split; [|done]. apply Hsub.
      split; [done|]. intros ->. assert (Hin : a ∈ live_in live p) by (apply elem_of_live_in; split; [done|by eexists]).
      rewrite Hle in Hin. by apply not_elem_of_empty in Hin.
  - intros c' [_ ?]%Hsub. done.
Qed.

Definition finds live g (m : t P -> option (option Z * t P)) : Prop := forall s, heap_inv s live g -> exists r s',
  m s = Some (r, s') /\ shrunk s s' /\ match r with Some p => freed s' live g p | None => heap_inv s' live g end.

Lemma or_else_finds live g m k : finds live g m -> finds live g k -> finds live g (or_else m k).
Proof.
  intros Hm Hk s I. unfold or_else. destruct (Hm s I) as (r & s1 & -> & S1 & R). cbn [mbind option_bind].
  destruct r as [p|]; [by exists (Some p), s1|]. destruct (Hk s1 R) as (r & s2 & -> & S2 & R2). exists r, s2.
  split; [done|]. split; [|done]. intros c. etransitivity; [apply S2|apply S1].
Qed.

Lemma findAndRelease_spec live g : finds live g findAndReleaseFreePool.
Proof. unfold findAndReleaseFreePool. repeat apply or_else_finds; intros s I; by apply find_free_spec. Qed.

Lemma new_pool_spec s live g c p : freed s live g p -> Stack.idx (slot s c) < MaxPoolNumInSingleSlot ->
  exists a s', new_pool c p s = (Some a, s') /\ live !! a = None /\ heap_inv s' (<[a := c]> live) g /\
    pool_at s' c p /\ is_block c p a.
Proof.
  intros (I & Hpg & Hok & Hno & Hle) Hlt. unfold new_pool.
  set (s1 := set_slot s c (Stack.push MaxPoolNumInSingleSlot (slot s c) p)).
  pose proof (construct_inv c p Hok) as Hc. pose proof (hi_slot _ _ _ I c) as Hw.
  assert (Hct : Stack.contents (Stack.push MaxPoolNumInSingleSlot (slot s c) p) = Stack.contents (slot s c) ++ [p])
    by (rewrite Stack.contents_push, decide_True by done; done).
  assert (Hat : forall c' q, pool_at s1 c' q <-> pool_at s c' q \/ (c' = c /\ q = p)).
  { intros c' q. unfold pool_at, s1. rewrite slot_set_slot. case_decide as E; [subst c'|naive_solver].
    rewrite Hct, elem_of_app, list_elem_of_singleton. naive_solver. }
  assert (I1 : heap_inv (set_obj s1 p (construct c p)) live g).
  { split; intros *; unfold pool_at; rewrite ?slot_set_obj; try change (_ ∈ Stack.contents (slot s1 ?c)) with (pool_at s1 c).
    - unfold s1. cbn [pages set_obj]. rewrite pages_set_slot. apply I.
    - unfold s1. rewrite slot_set_slot. case_decide; [by apply Stack.stack_wf_push|apply I].
    - unfold s1. rewrite slot_set_slot. case_decide as E; [subst c0|apply I]. rewrite Hct. apply list.NoDup_app.
      split; [apply I|]. split; [|apply list.NoDup_singleton]. intros q Hq Hq'%list_elem_of_singleton. subst q. by apply (Hno c).
    - intros [Hq|[-> ->]]%Hat; [by eapply hi_page|done].
    - intros [H1|[-> ->]]%Hat [H2|[-> H2]]%Hat; try done; [by eapply hi_class|subst; by destruct (Hno c0)|by destruct (Hno c')].
    - unfold s1. cbn [objs set_obj]. rewrite objs_set_slot. intros [Hq|[-> ->]]%Hat.
      + rewrite lookup_total_insert_ne by (intros ->; by apply (Hno c0)). by apply I.
      + rewrite lookup_total_insert_eq. by rewrite Hle.
    - intros Ha. destruct (hi_live _ _ _ I a c0 Ha) as (q & Hq & Haq). exists q. split; [|done].
      apply Hat. by left. }
  assert (Hp1 : pool_at (set_obj s1 p (construct c p)) c p)
    by (unfold pool_at; rewrite slot_set_obj; apply Hat; by right).
  pose proof (object_pool_get_spec c p Hok _ _ Hc) as Hg. destruct (pool_get c p (construct c p)) as [[a|] o].
  - destruct Hg as (Hb & _ & Ho). pose proof (is_block_in_page c p a Hok Hb) as Ha.
    assert (Hn : live !! a = None).
    { destruct (live !! a) eqn:E; [|done]. exfalso. assert (Hin : a ∈ live_in live p) by (apply elem_of_live_in; split; [done|by eexists]).
      rewrite Hle in Hin. by apply not_elem_of_empty in Hin. }
    exists a, (set_obj s1 p o). split; [done|]. split; [done|]. split; [|split; [|done]].
    + replace (set_obj s1 p o) with (set_obj (set_obj s1 p (construct c p)) p o)
        by (unfold set_obj; cbn; by rewrite insert_insert_eq).
      apply (heap_inv_obj _ live _ g c p); try done.
      * rewrite live_in_insert by done. by rewrite Hle.
      * intros b Hb'. apply lookup_insert_ne. by intros ->.
      * intros b c' Hb'. destruct (decide (b = a)) as [->|Hne]; [rewrite lookup_insert_eq; congruence|].
        rewrite lookup_insert_ne by done. intros Hl. by eapply live_pool.
    + unfold pool_at in *. by rewrite slot_set_obj in *.
  - destruct Hg as [_ Hg]. destruct (class_sizes c) as (_ & _ & Hs & _). rewrite size_empty in Hg. lia.
Qed.

(** Every page the heap owns is a pool's. *)
Lemma paraAllocate_spec s live g c : heap_inv s live g -> exists r s',
  paraAllocate c s = Some (r, s') /\
  match r with
  | Some a => exists p g', live !! a = None /\ heap_inv s' (<[a := c]> live) g' /\ pool_at s' c p /\ is_block c p a
  | None => (exists g', heap_inv s' live g') /\
      forall p, pool_at s c p -> Z.of_nat (size (live_in live p)) = MaxNumElements c - ourNumElements c
  end.
Proof.
  intros I. unfold paraAllocate. pose proof (slot_get_spec s live g c I) as Hg.
  destruct (slot_get c s) as [[a|] s1].
  { destruct Hg as (Hs & Hn & I1 & p & Hp & Hb). exists (Some a), s1. split; [done|]. exists p, g.
    split; [done|]. split; [done|]. split; [|done]. unfold pool_at in *. by rewrite Hs. }
  destruct Hg as (Hs & I1 & Hfull). destruct (Stack.full MaxPoolNumInSingleSlot (slot s1 c)) eqn:Ef.
  { exists None, s1. split; [done|]. split; [by exists g|done]. }
  unfold Stack.full in Ef. rewrite Z.eqb_neq in Ef. pose proof (hi_slot _ _ _ I1 c) as [_ Hi].
  destruct (findAndRelease_spec live g s1 I1) as (r & s2 & -> & Hsh & R). cbn [mbind option_bind].
  specialize (Hsh c). destruct r as [p|].
  { destruct (new_pool_spec s2 live g c p R) as (a & s3 & -> & Hn & I3 & Hp & Hb); [lia|].
    exists (Some a), s3. split; [done|]. by exists p, g. }
  destruct (_ =? _). { exists None, s2. split; [done|]. split; [by exists g|done]. }
  pose proof (get_page_spec (pages s2) g (hi_owns _ _ _ R)) as Hpage. destruct (get_page (pages s2)) as [[p|] pg].
  - destruct Hpage as (Hok & Hng & Ho).
    assert (F : freed (set_pages s2 pg) live ({[p]} ∪ g) p).
    { assert (Hno : forall c, ~ pool_at s2 c p) by (intros c' Hc'; apply Hng; by eapply hi_page).
      split; [|split; [set_solver|split; [done|split]]].
      - destruct R as [Ro Rs Rd Rp Rc Ri Rl].
        split; intros *; unfold pool_at in *; rewrite ?slot_set_pages; eauto.
        intros Hq. destruct (Rp _ _ Hq). split; [set_solver|done].
      - intros c'. unfold pool_at. rewrite slot_set_pages. apply Hno.
      - apply elem_of_equiv_empty_L. intros a [Ha [c' Hl]]%elem_of_live_in.
        destruct (hi_live _ _ _ R a c' Hl) as (q & Hq & Haq). apply (Hno c').
        replace p with q; [done|]. eapply in_page_unique; [by eapply hi_page|exact Hok|done|done]. }
    destruct (new_pool_spec (set_pages s2 pg) live _ c p F) as (a & s3 & -> & Hn & I3 & Hp & Hb);
      [rewrite slot_set_pages; lia|].
    eexists (Some a), _. split; [done|]. exists p, ({[p]} ∪ g). split; [done|]. split; [by apply heap_inv_total|].
    split; [|done]. unfold pool_at. by rewrite slot_set_total.
  - exists None, (set_pages s2 pg). split; [done|]. split; [|done]. exists g. destruct R as [Ro Rs Rd Rp Rc Ri Rl].
    split; intros *; unfold pool_at in *; rewrite ?slot_set_pages; eauto.
Qed.

Lemma paraFree_spec s live g c c' a : heap_inv s live g -> live !! a = Some c' ->
  exists s', paraFree c a s = (bool_decide (c = c'), s') /\ same_slots s s' /\
    heap_inv s' (if decide (c = c') then delete a live else live) g.
Proof.
  intros I Ha. unfold paraFree, Stack.firstTrue. set (fn := fun p s => _).
  assert (Hgen : forall xs i j s, heap_inv s live g -> (forall p, p ∈ xs -> pool_at s c p) ->
    match Stack.firstTrue_loop fn xs i j s with
    | (true, _, s') => same_slots s s' /\ c = c' /\ heap_inv s' (delete a live) g
    | (false, _, s') => same_slots s s' /\ heap_inv s' live g /\ forall p, p ∈ xs -> ~ in_page p a
    end).
  { clear s I. induction xs as [|p xs IH]; intros i j s I Hin; cbn [Stack.firstTrue_loop].
    { split; [done|]. split; [done|]. intros p Hp. by apply not_elem_of_nil in Hp. }
    assert (Hp : pool_at s c p) by (apply Hin; set_solver). destruct (hi_page _ _ _ I c p Hp) as [Hpg Hok].
    unfold fn at 1. destruct (decide (in_page p a)) as [Hpa|Hpa].
    - assert (c' = c) as -> by by eapply live_pool.
      destruct (release_spec c p Hok _ _ a (hi_pool _ _ _ I c p Hp)) as (o & -> & Ho);
        [apply elem_of_live_in; split; [done|by eexists]|].
      split; [intros c0; apply slot_set_obj|]. split; [done|]. apply (heap_inv_obj s live _ g c p); try done.
      + by rewrite live_in_delete.
      + intros b Hb. apply lookup_delete_ne. by intros ->.
      + intros b c' Hb [_ Hl]%lookup_delete_Some. by eapply live_pool.
    - rewrite (release_other c p _ a Hok Hpa). destruct (heap_inv_same s live g c p I Hp) as [I' Hss].
      specialize (IH (i + 1) j _ I'). destruct (Stack.firstTrue_loop fn xs (i + 1) j _) as [[[] k] s'].
      + destruct IH as (Hs' & Hc & I2). { intros q Hq. unfold pool_at. rewrite Hss. apply Hin. set_solver. }
        split; [intros c0; rewrite Hs'; apply Hss|done].
      + destruct IH as (Hs' & I2 & Hno). { intros q Hq. unfold pool_at. rewrite Hss. apply Hin. set_solver. }
        split; [intros c0; rewrite Hs'; apply Hss|]. split; [done|]. intros q [->|Hq]%elem_of_cons; [done|by apply Hno]. }
  specialize (Hgen (Stack.contents (slot s c)) 0 0 s I (fun p Hp => Hp)).
  destruct (Stack.firstTrue_loop _ _ _ _ _) as [[[] k] s'].
  - destruct Hgen as (Hs' & -> & I'). exists s'. rewrite bool_decide_true, decide_True by done. done.
  - destruct Hgen as (Hs' & I' & Hno). assert (c <> c').
    { intros ->. destruct (hi_live _ _ _ I a c' Ha) as (p & Hp & Hpa). by apply (Hno p Hp). }
    exists s'. rewrite bool_decide_false, decide_False by done. done.
Qed.

(** [delete] of a block finds its class by trying the pools of every class. *)
Lemma free_any_spec s live g a c : heap_inv s live g -> live !! a = Some c ->
  exists s', free_any a s = Ret s' /\ same_slots s s' /\ heap_inv s' (delete a live) g.
Proof.
  intros I Ha. unfold free_any.
  assert (Hstep : forall c' s1, same_slots s s1 /\ heap_inv s1 live g ->
    exists s', paraFree c' a s1 = (bool_decide (c' = c), s') /\ same_slots s s' /\
      heap_inv s' (if decide (c' = c) then delete a live else live) g).
  { intros c' s1 [Hs I1]. destruct (paraFree_spec s1 live g c' c a I1 Ha) as (s' & E & Hs' & I'). exists s'.
    split; [done|]. split; [|done]. intros c0. rewrite Hs'. apply Hs. }
  destruct (Hstep C16 s (conj (fun _ => eq_refl) I)) as (s1 & -> & I1). destruct c; cbn in *; try (by exists s1).
  all: destruct (Hstep C256 s1 I1) as (s2 & -> & I2); cbn in *; try (by exists s2).
  all: destruct (Hstep C8K s2 I2) as (s3 & -> & I3); cbn in *; try (by exists s3).
  all: destruct (Hstep C256K s3 I3) as (s4 & -> & I4); cbn in *; try (by exists s4).
  all: destruct (Hstep C1M s4 I4) as (s5 & -> & I5); cbn in *; by exists s5.
Qed.

Lemma operator_new_spec s live g n : heap_inv s live g ->
  match operator_new n s with
  | Some (Ret (a, s')) => exists c p g', class_of n = Some c /\ live !! a = None /\
      heap_inv s' (<[a := c]> live) g' /\ pool_at s' c p /\ is_block c p a
  | Some (Raise e) => e = 24 /\
      forall c p, class_of n = Some c -> pool_at s c p -> Z.of_nat (size (live_in live p)) = MaxNumElements c - ourNumElements c
  | None => False
  end.
Proof.
  intros I. unfold operator_new, allocImpl. destruct (class_of n) as [c|]; [|by split].
  destruct (paraAllocate_spec s live g c I) as (r & s' & -> & R). cbn [mbind option_bind]. destruct r as [a|].
  - destruct R as (p & g' & Hn & I' & Hp & Hb). by exists c, p, g'.
  - destruct R as [_ R]. split; [done|]. intros c' p [= <-]. apply R.
Qed.

Lemma init_heap_inv (pg : P) : owns pg ∅ -> heap_inv (init pg) ∅ ∅.
Proof.
  intros Ho. assert (Hs : forall c, slot (init pg) c = Stack.init MaxPoolNumInSingleSlot 0) by by intros [].
  split; unfold pool_at; intros *; rewrite ?Hs, ?Stack.contents_init; try done.
  - constructor.
  - intros Hp. by apply not_elem_of_nil in Hp.
  - intros Hp. by apply not_elem_of_nil in Hp.
  - intros Hp. by apply not_elem_of_nil in Hp.
Qed.

(** The kernel's use of the heap: [live] are the blocks it has. It deletes what it has,
    with or without the size it asked for; other users of the pages leave the heap's. *)
Inductive reach (pg0 : P) : t P -> gmap Z size_class -> Prop :=
| reach_init : reach pg0 (init pg0) ∅
| reach_new s live n a s' c : reach pg0 s live -> operator_new n s = Some (Ret (a, s')) -> class_of n = Some c ->
    reach pg0 s' (<[a := c]> live)
| reach_delete s live a c s' : reach pg0 s live -> live !! a = Some c -> operator_delete a s = Ret s' ->
    reach pg0 s' (delete a live)
| reach_delete_sized s live a n c s' : reach pg0 s live -> live !! a = Some c -> class_of n = Some c ->
    operator_delete_sized a n s = Ret s' -> reach pg0 s' (delete a live)
| reach_pages s live pg : reach pg0 s live -> (forall g, owns (pages s) g -> owns pg g) -> reach pg0 (set_pages s pg) live.

Lemma reach_heap_inv pg0 s live : owns pg0 ∅ -> reach pg0 s live -> exists g, heap_inv s live g.
Proof.
  intros Ho Hr. induction Hr as [|s live n a s' c _ [g I] E Hc|s live a c s' _ [g I] Ha E|s live a n c s' _ [g I] Ha Hc E|s live pg _ [g I] Hpg].
  - exists ∅. by apply init_heap_inv.
  - pose proof (operator_new_spec s live g n I) as Hn. rewrite E in Hn. destruct Hn as (c' & p & g' & Hc' & _ & I' & _).
    exists g'. congruence.
  - destruct (free_any_spec s live g a c I Ha) as (s1 & E1 & _ & I1). exists g. unfold operator_delete in E. congruence.
  - unfold operator_delete_sized, free_sized in E. rewrite Hc in E.
    destruct (paraFree_spec s live g c c a I Ha) as (s1 & E1 & _ & I1). rewrite E1, bool_decide_true, decide_True in * by done.
    exists g. congruence.
  - exists g. destruct I as [Io Is Id Ip Ic Ii Il].
    split; intros *; unfold pool_at in *; rewrite ?slot_set_pages; eauto.
Qed.

Lemma class_of_fits n c : class_of n = Some c -> n <= ElementSize c.
Proof. unfold class_of. case_cmp; intros [= <-]; cbn [ElementSize]; lia. Qed.

(** Two blocks of pools do not meet, nor a block and a header. *)
Lemma blocks_apart s live g a c b cb : heap_inv s live g -> live !! a = Some c -> live !! b = Some cb -> a <> b ->
  a + ElementSize c <= b \/ b + ElementSize cb <= a.
Proof.
  intros I Ha Hb Hne. destruct (hi_live _ _ _ I a c Ha) as (p & Hp & Hpa).
  destruct (hi_live _ _ _ I b cb Hb) as (q & Hq & Hqb).
  destruct (hi_page _ _ _ I c p Hp) as [_ Hokp]. destruct (hi_page _ _ _ I cb q Hq) as [_ Hokq].
  destruct (pi_live _ _ _ _ (hi_pool _ _ _ I c p Hp) a) as (Hba & _); [apply elem_of_live_in; split; [done|by eexists]|].
  destruct (pi_live _ _ _ _ (hi_pool _ _ _ I cb q Hq) b) as (Hbb & _); [apply elem_of_live_in; split; [done|by eexists]|].
  destruct (decide (p = q)) as [->|Hpq].
  - rewrite <- (hi_class _ _ _ I c cb q Hp Hq) in *. destruct Hba as (i & Hi & ->), Hbb as (j & Hj & ->).
    destruct (class_sizes c) as (He & _). unfold block_addr in *. assert (i <> j) by congruence. nia.
  - pose proof (is_block_page c p a Hokp Hba). pose proof (is_block_page cb q b Hokq Hbb).
    destruct (class_sizes c) as (He & _). destruct (class_sizes cb) as (Heb & _).
    destruct Hokp as (_ & Hmp & _), Hokq as (_ & Hmq & _). unfold in_page, MB in *.
    assert (p + 4 * 1024 * 1024 <= q \/ q + 4 * 1024 * 1024 <= p) by (Z.div_mod_to_equations; lia). lia.
Qed.
Lemma block_off_header s live g a c c' p : heap_inv s live g -> live !! a = Some c -> pool_at s c' p ->
  a + ElementSize c <= p \/ p + sizeof_pool c' <= a.
Proof.
  intros I Ha Hp. destruct (hi_live _ _ _ I a c Ha) as (q & Hq & Hqa).
  destruct (hi_page _ _ _ I c q Hq) as [_ Hokq]. destruct (hi_page _ _ _ I c' p Hp) as [_ Hokp].
  destruct (pi_live _ _ _ _ (hi_pool _ _ _ I c q Hq) a) as (Hba & _); [apply elem_of_live_in; split; [done|by eexists]|].
  pose proof (is_block_page c q a Hokq Hba) as Hb. destruct (decide (p = q)) as [->|Hpq].
  - rewrite <- (hi_class _ _ _ I c c' q Hq Hp). lia.
  - destruct (class_sizes c) as (He & _). destruct (class_sizes c') as (He' & Hsz & Ho & Hso & _).
    destruct Hokp as (_ & Hmp & _), Hokq as (_ & Hmq & _). unfold in_page, PageSizeOf, MB in *.
    assert (p + 4 * 1024 * 1024 <= q \/ q + 4 * 1024 * 1024 <= p) by (Z.div_mod_to_equations; lia). nia.
Qed.

(** ** Properties *)

(** C10: In every state the kernel's use of the heap leads to, [new] does not trap and gives,
    if anything, a block of at least the size asked for that the kernel does not have,
    off every block it has and off the header of every pool; and [delete] of a block
    the kernel has is accepted. *)
Theorem new_gives_fresh_disjoint_blocks (pg0 : P) s live n : owns pg0 ∅ -> reach pg0 s live ->
  (forall a c, live !! a = Some c -> exists s', operator_delete a s = Ret s') /\
  exists r, operator_new n s = Some r /\
    forall a s', r = Ret (a, s') -> exists c, n <= ElementSize c /\ live !! a = None /\ reach pg0 s' (<[a := c]> live) /\
      (forall b cb, live !! b = Some cb -> a + ElementSize c <= b \/ b + ElementSize cb <= a) /\
      (forall c' p, pool_at s' c' p -> a + ElementSize c <= p \/ p + sizeof_pool c' <= a).
Proof.
  intros Ho Hr. destruct (reach_heap_inv pg0 s live Ho Hr) as [g I]. split.
  { intros a c Ha. destruct (free_any_spec s live g a c I Ha) as (s' & E & _). by exists s'. }
  pose proof (operator_new_spec s live g n I) as Hn. destruct (operator_new n s) as [r|] eqn:E; [|done].
  exists r. split; [done|]. intros a s' ->. destruct Hn as (c & p & g' & Hc & Ha & I' & _). exists c.
  split; [by apply class_of_fits|]. split; [done|]. split; [by eapply reach_new|]. split.
  - intros b cb Hb. eapply (blocks_apart s'); [done|apply lookup_insert_eq| |].
    + rewrite lookup_insert_ne; [done|]. intros ->. congruence.
    + intros ->. congruence.
  - intros c' q Hq. by eapply (block_off_header s'); [|apply lookup_insert_eq|].
Qed.

(** What is deleted can be had again: after a block is deleted a request of its class
    succeeds. *)
Theorem deleted_block_makes_room (pg0 : P) s live a c n s' : owns pg0 ∅ -> reach pg0 s live ->
  live !! a = Some c -> class_of n = Some c -> operator_delete a s = Ret s' ->
  exists b s2, operator_new n s' = Some (Ret (b, s2)).
Proof.
  intros Ho Hr Ha Hc E. destruct (reach_heap_inv pg0 s live Ho Hr) as [g I].
  destruct (free_any_spec s live g a c I Ha) as (s1 & E1 & Hs & I1).
  assert (s1 = s') as -> by (unfold operator_delete in E; congruence).
  pose proof (operator_new_spec s' (delete a live) g n I1) as Hn.
  destruct (operator_new n s') as [[[b s2]|e]|]; [by exists b, s2| |done]. exfalso. destruct Hn as [_ Hfull].
  destruct (hi_live _ _ _ I a c Ha) as (p & Hp & Hpa).
  specialize (Hfull c p Hc). unfold pool_at in Hfull. rewrite Hs in Hfull. specialize (Hfull Hp).
  destruct (hi_pool _ _ _ I c p Hp) as [_ _ _ _ _ Hv Hcount]. rewrite live_in_delete in Hfull.
  assert (Hin : a ∈ live_in live p) by (apply elem_of_live_in; split; [done|by eexists]).
  assert (Hsz : (size (live_in live p) = Datatypes.S (size (live_in live p ∖ {[a]})))%nat).
  { rewrite (union_difference_singleton_L a _ Hin) at 1. rewrite size_union by set_solver. by rewrite size_singleton. }
  unfold alen in Hcount. lia.
Qed.
End heap.

(** ** The kernel's pages *)

Record kmem := mk_kmem { phys : PhysPages.t; virt : VirtRegion.t; map : Manager.t }.

(** The page steps of [paraAllocate]: what was taken is given back when a later step fails. *)
#[global] Instance kernel_page : PageSource kmem := fun m =>
  let '(physAddr, ph) := PhysPages.allocPage PhysPages.physPages_n (phys m) true in
  match physAddr with
  | Some pa =>
      let '(virtAddr, vr) := VirtRegion.allocPage VirtRegion.last1G_start VirtRegion.last1G_size (virt m) true in
      match virtAddr with
      | Some va =>
          let '(ok, mm) := Manager.addCommonPage (map m) va (PhysAddr.make pa PG_WRITABLE) in
          if ok then (Some va, mk_kmem ph vr mm)
          else (None, mk_kmem (PhysPages.freePage PhysPages.physPages_n ph pa)
                        (VirtRegion.freePage VirtRegion.last1G_size vr va) mm)
      | None => (None, mk_kmem (PhysPages.freePage PhysPages.physPages_n ph pa) vr (map m))
      end
  | None => (None, mk_kmem ph (virt m) (map m))
  end.

(** The pages of the last gigabyte that were handed out, the heap's among them. *)
Definition kernel_owns (m : kmem) (g : gset Z) : Prop :=
  exists out, VirtRegion.inv VirtRegion.last1G_size (virt m, out) /\
    forall a, a ∈ g -> exists i, i ∈ out /\ a = VirtRegion.page_addr VirtRegion.last1G_start i /\ page_ok a /\ 0 <= i < 255.

Lemma last1G_page_ok i : 0 <= i < 255 -> page_ok (VirtRegion.page_addr VirtRegion.last1G_start i).
Proof.
  intros Hi. rewrite VirtRegion.page_addr_id with (MaxSize := VirtRegion.last1G_size) by first [vm_compute; intuition congruence|exact Hi].
  unfold page_ok, VirtRegion.last1G_start, MB. zdiv.
Qed.

#[global] Program Instance kernel_source : PageSourceLaws kmem := {| owns := kernel_owns |}.
Next Obligation.
  intros m g (out & [Hw Hd] & Hg). unfold get_page, kernel_page.
  destruct (PhysPages.allocPage _ _ _) as [[pa|] ph]; [|by exists out].
  pose proof (VirtRegion.virt_alloc_spec VirtRegion.last1G_start VirtRegion.last1G_size (virt m) true Hw) as Hv.
  destruct (VirtRegion.allocPage _ _ _ _) as [[va|] vr].
  2:{ destruct Hv as [-> _]. by exists out. }
  destruct Hv as (i & -> & Hi & Hw' & Hf). change (VirtRegion.MaxNumElements VirtRegion.last1G_size) with 255 in Hi.
  assert (Hinv : VirtRegion.inv VirtRegion.last1G_size (vr, i :: out)).
  { split; [done|]. cbn [fst snd] in *. rewrite Hf, <- app_assoc in Hd. done. }
  pose proof (last1G_page_ok i Hi) as Hok.
  destruct (Manager.addCommonPage _ _ _) as [[] mm].
  - split; [done|]. split.
    + intros Hin. destruct (Hg _ Hin) as (j & Hj & E & _ & Hj').
      rewrite !VirtRegion.page_addr_id with (MaxSize := VirtRegion.last1G_size) in E by first [vm_compute; intuition congruence|exact Hi|exact Hj'].
      assert (i = j) as -> by (unfold MB in E; lia). cbn [fst snd] in Hd. rewrite Hf in Hd.
      apply list.NoDup_app in Hd as (_ & Hx & _). apply (Hx j); set_solver.
    + exists (i :: out). split; [done|]. intros a [->%elem_of_singleton|Ha]%elem_of_union.
      * exists i. split; [set_solver|done].
      * destruct (Hg a Ha) as (j & Hj & E). exists j. split; [set_solver|done].
  - exists (i :: out). cbn [virt]. rewrite (VirtRegion.freePage_noop VirtRegion.last1G_start).
    + split; [done|]. intros a Ha. destruct (Hg a Ha) as (j & Hj & E). exists j. split; [set_solver|done].
    + vm_compute. congruence.
    + destruct Hok as (_ & _ & Hend). rewrite VirtRegion.page_addr_id with (MaxSize := VirtRegion.last1G_size)
        by first [vm_compute; intuition congruence|exact Hi]. unfold VirtRegion.last1G_start, MB. lia.
Qed.

Definition boot_kmem (ph : PhysPages.t) (page_dir : list Z) : kmem :=
  mk_kmem ph (VirtRegion.construct VirtRegion.last1G_size) (Manager.init page_dir).

Lemma boot_owns ph dir : owns (boot_kmem ph dir) ∅.
Proof.
  exists []. split; [|intros a Ha; by apply not_elem_of_empty in Ha].
  destruct (VirtRegion.construct_contents VirtRegion.last1G_start VirtRegion.last1G_size) as [Hw Hf];
    [vm_compute; intuition congruence..|].
  split; [done|]. cbn [fst snd virt boot_kmem]. rewrite Hf, app_nil_r. apply NoDup_seqZ.
Qed.

(** ** A run *)

(** 16 MB from the second page on, and an empty page directory. *)
Definition demo_phys : PhysPages.t :=
  foldr (fun p st => PhysPages.add_page PhysPages.physPages_n p st) (PhysPages.init PhysPages.physPages_n) [4; 5; 6; 7].
Definition demo_heap : t kmem := init (boot_kmem demo_phys (replicate 1024 0)).

Definition news (n : Z) (s : t kmem) : option (Z * t kmem) :=
  r ← operator_new n s; match r with Ret x => Some x | Raise _ => None end.
Definition deletes (a : Z) (s : t kmem) : option (t kmem) :=
  match operator_delete a s with Ret s => Some s | Raise _ => None end.

(** A block deleted twice is on the stack twice: the next two requests share it. *)
Lemma double_delete_shares_block :
  ('(a, s) ← news (MB 1) demo_heap; s ← deletes a s; s ← deletes a s;
   '(b, s) ← news (MB 1) s; '(b', _) ← news (MB 1) s; Some (a, b, b')) = Some (0xFFB00000, 0xFFB00000, 0xFFB00000).
Proof. vm_compute. reflexivity. Qed.

(** A pool that changes its class is not counted again. *)
Lemma reused_pool_not_counted :
  ('(a, s) ← news (KB 256) demo_heap; s ← deletes a s; '(_, s) ← news (MB 1) s;
   Some (totalNumPools s, Stack.size (pools1M s))) = Some (0, 1).
Proof. vm_compute. reflexivity. Qed.

Definition first_block : Z := 0xFFB00000.
Lemma demo_new : exists s, operator_new (KB 300) demo_heap = Some (Ret (first_block, s)).
Proof.
  assert (E : (fun r => match r with Ret (a, _) => Some a | Raise _ => None end) <$> operator_new (KB 300) demo_heap = Some (Some first_block))
    by (vm_compute; reflexivity).
  destruct (operator_new (KB 300) demo_heap) as [[[a s]|e]|]; [|discriminate E..].
  cbn in E. injection E as ->. by exists s.
Qed.

Lemma demo_reach s : operator_new (KB 300) demo_heap = Some (Ret (first_block, s)) ->
  reach (boot_kmem demo_phys (replicate 1024 0)) s {[first_block := C1M]}.
Proof. intros E. rewrite <- insert_empty. by eapply reach_new; [apply reach_init|exact E|]. Qed.

Lemma new_gives_fresh_disjoint_blocks_witness : exists s, operator_new (KB 300) demo_heap = Some (Ret (first_block, s)) /\
  (exists s', operator_delete first_block s = Ret s') /\ exists r, operator_new (KB 700) s = Some r.
Proof.
  destruct demo_new as [s E].
  destruct (new_gives_fresh_disjoint_blocks _ s _ (KB 700) (boot_owns _ _) (demo_reach s E)) as [Hd (r & Hr & _)].
  exists s. split; [exact E|]. split; [apply (Hd first_block C1M); apply lookup_singleton_eq|exists r; exact Hr].
Defined.

Lemma deleted_block_makes_room_witness : exists s s' b s2, operator_new (KB 300) demo_heap = Some (Ret (first_block, s)) /\
  operator_delete first_block s = Ret s' /\ operator_new (MB 1) s' = Some (Ret (b, s2)).
Proof.
  destruct demo_new as [s E]. destruct (reach_heap_inv _ _ _ (boot_owns _ _) (demo_reach s E)) as [g I].
  destruct (free_any_spec s _ g first_block C1M I (lookup_singleton_eq _ _)) as (s' & Ed & _).
  destruct (deleted_block_makes_room _ s _ first_block C1M (MB 1) s' (boot_owns _ _) (demo_reach s E)
    (lookup_singleton_eq _ _) eq_refl Ed) as (b & s2 & Eb).
  exists s, s', b, s2. split; [exact E|]. split; [exact Ed|exact Eb].
Defined.
End KMalloc.
