(* ===== verification/Vidmap.v ===== *)
(** * User pointers and the video window (syscalls/syscalls.cpp, drivers/txtmode.cpp)

    Which addresses a user may touch, as the processor's page walk decides, as
    [validUserPointer] checks, and as [loadProcessMap] arranges: the pages of the process
    and, for the owner of the terminal's [vidmap], one 4 KB window on the text memory or on
    the terminal's own copy of it. The directory is the one of MemMap.v. *)
From stdpp Require Import prelude list numbers.
From Stdlib Require Import ZArith Lia.
From S2P Require Import Prelude BitSet Stack MemMap.

Definition PT_BASE : Z := 0x001.
Definition PT_USER : Z := 0x004.
Definition PT_WRITABLE : Z := 0x002.
(** [(~ALIGN_4MB_ADDR) & ALIGN_4KB_ADDR] *)
Definition EXTRACT_PTE : Z := Z.land (not32 ALIGN_4MB_ADDR) ALIGN_4KB_ADDR.
Definition PRE_INIT_VIDEO : Z := 0xb8000.

(** ** The processor's walk *)

(** The physical address of a user's access: directory entries that are present and the
    user's name a page of 4 MB (bit 7) or a table, whose entries must be present and the
    user's too. [table p i] is word [i] of the page table at the physical address [p]. *)
Definition walk (dir : list Z) (table : Z -> Z -> Z) (a : Z) : option Z :=
  let pde := aget dir (a / 2 ^ 22) in
  if Z.testbit pde 0 && Z.testbit pde 2 then
    if Z.testbit pde 7 then Some (pde / 2 ^ 22 * 2 ^ 22 + a mod 2 ^ 22)
    else
      let pte := table (pde / 2 ^ 12 * 2 ^ 12) (a / 2 ^ 12 mod 2 ^ 10) in
      if Z.testbit pte 0 && Z.testbit pte 2 then Some (pte / 2 ^ 12 * 2 ^ 12 + a mod 2 ^ 12) else None
  else None.

Module Vidmap.

Section vidmap.
(** The address of [userFirst4MBTable], and the page tables other than it. *)
Variable table_addr : Z.
Variable other_table : Z -> Z -> Z.
(** [pcbLoadable && canUseCpp && !isFallbackTerm]: the system is up. *)
Variable up : bool.

(** [TextModePainter]'s fields for [vidmap]; a [thread_pcb] is a number, [backupBuffer]
    the buffer's address. *)
Record painter := mk_painter {
  isLoadedInVmem : bool; bIsVidmapEnabled : bool; vidmapOwner : option Z; backupBuffer : Z }.

Record t := mk { maps : Manager.t; userFirst4MBTable : list Z }.

Definition table (s : t) (p i : Z) : Z := if p =? table_addr then aget (userFirst4MBTable s) i else other_table p i.
Definition user_walk (s : t) (a : Z) : option Z := walk (Manager.active_dir (maps s)) (table s) a.

(** The table as the kernel sets it up. *)
Definition init_table : list Z :=
  aset (replicate 1024 0) (Z.shiftr PRE_INIT_VIDEO 12)
    (Z.lor (Z.lor (Z.lor PG_4KB_BASE (Z.shiftl (Z.shiftr PRE_INIT_VIDEO 12) 12)) PG_WRITABLE) PG_USER).

(** [LOAD_PAGE_TABLE(PD_IDX, userFirst4MBTable, FLAGS)] *)
Definition LOAD_PAGE_TABLE (s : t) (idx addr flags : Z) : t :=
  mk (Manager.write_cr3 (maps s) idx (Z.lor (Z.lor PT_BASE (Z.land addr ALIGN_4KB_ADDR)) flags)) (userFirst4MBTable s).
Definition clear_entry0 (s : t) : t := mk (Manager.write_cr3 (maps s) 0 0) (userFirst4MBTable s).

Definition tryMapVidmapNolock (p : painter) (pcb : option Z) (s : t) : t :=
  if negb up then s
  else if negb (bool_decide (pcb = vidmapOwner p)) then s
  else if bIsVidmapEnabled p then
    let addr := if isLoadedInVmem p then PRE_INIT_VIDEO else backupBuffer p in
    let pte := Z.lor (Z.lor (Z.lor PG_4KB_BASE PG_WRITABLE) PG_USER) (Z.land addr ALIGN_4KB_ADDR) in
    LOAD_PAGE_TABLE (mk (maps s) (aset (userFirst4MBTable s) (Z.shiftr PRE_INIT_VIDEO 12) pte))
      0 table_addr (Z.lor PT_WRITABLE PT_USER)
  else clear_entry0 s.

(** The address, [None] is [NULL]; the text that is cleared is not in this state, the call
    in SysCall.v clears it. *)
Definition enableVidmap (p : painter) (theThread : Z) (s : t) : option Z * painter * t :=
  match vidmapOwner p with
  | Some _ => (None, p, s)
  | None =>
      (Some PRE_INIT_VIDEO, mk_painter (isLoadedInVmem p) true (Some theThread) (backupBuffer p),
       LOAD_PAGE_TABLE s 0 table_addr (Z.lor PT_WRITABLE PT_USER))
  end.

Definition tryDisableVidmap (p : painter) (theThread : Z) (s : t) : painter * t :=
  if negb (bool_decide (vidmapOwner p = Some theThread)) then (p, s)
  else (mk_painter (isLoadedInVmem p) false None (backupBuffer p), clear_entry0 s).

(** [show] and [hide], as far as they touch the window: [cur] runs, [page0] says whether
    [virtOfPage0] finds the text memory. *)
Definition show (page0 : bool) (p : painter) (cur : Z) (s : t) : painter * t :=
  if isLoadedInVmem p then (p, s)
  else if negb page0 then (p, s)
  else
    let p := mk_painter true (bIsVidmapEnabled p) (vidmapOwner p) (backupBuffer p) in
    (p, tryMapVidmapNolock p (Some cur) s).
Definition hide (page0 : bool) (p : painter) (cur : Z) (s : t) : painter * t :=
  if negb (isLoadedInVmem p) then (p, s)
  else if negb page0 then (p, s)
  else
    let p := mk_painter false (bIsVidmapEnabled p) (vidmapOwner p) (backupBuffer p) in
    (p, tryMapVidmapNolock p (Some cur) s).

(** [MemMapManager::loadProcessMap]: the switch of directories and, at its end, the call of
    the process's terminal; [pcb] is the one of its main thread. *)
Definition loadProcessMap (map : TinyMemMap.t) (currTerm : option painter) (pcb : Z) (s : t) : bool * t :=
  let '(ok, m) := Manager.switchMap (maps s) map in
  let s := mk m (userFirst4MBTable s) in
  if negb ok then (false, s)
  else (true, match currTerm with None => s | Some p => tryMapVidmapNolock p (Some pcb) s end).

(** ** System calls *)

Definition validUserPointer (s : t) (isKernel : bool) (ptr : Z) : bool :=
  if ptr =? 0 then false
  else if isKernel then true
  else
    let pde := aget (Manager.active_dir (maps s)) (Z.shiftr ptr 22) in
    if HAS_FLAG (Z.lor PG_4MB_BASE PG_USER) pde then true
    else if HAS_FLAG (Z.lor PT_BASE PT_USER) pde then
      let pte := table s (Z.land pde ALIGN_4KB_ADDR) (Z.shiftr (Z.land ptr EXTRACT_PTE) 12) in
      HAS_FLAG (Z.lor PG_4KB_BASE PG_USER) pte
    else false.

(** [vidmap]: the result and what is stored through the pointer; [EFOPS] is 1. A process
    without a terminal faults ([None]). *)
Definition vidmap (s : t) (isKernel : bool) (currTerm : option painter) (pcb ans : Z) :
    option (Z * option Z * option painter * t) :=
  if negb (validUserPointer s isKernel ans) then Some (-1, None, currTerm, s)
  else
    p ← currTerm;
    let '(_ans, p, s) := enableVidmap p pcb s in
    match _ans with
    | None => Some (-1, None, Some p, s)
    | Some a => Some (0, Some a, Some p, s)
    end.

(** ** Flags and bits *)

Lemma has_flag_bits FLAG x : HAS_FLAG FLAG x = true <-> (forall i, Z.testbit FLAG i = true -> Z.testbit x i = true).
Proof.
  unfold HAS_FLAG. rewrite Z.eqb_eq. split.
  - intros E i Hi. apply (f_equal (fun y => Z.testbit y i)) in E. rewrite Z.land_spec, Hi, andb_true_r in E. done.
  - intros Hx. apply Z.bits_inj'. intros i _. rewrite Z.land_spec.
    destruct (Z.testbit FLAG i) eqn:Ei; [rewrite (Hx i Ei); done|apply andb_false_r].
Qed.

Lemma bits_5 i : Z.testbit 5 i = bool_decide (i = 0 \/ i = 2).
Proof.
  destruct (decide (i = 0)) as [->|]; [done|]. destruct (decide (i = 2)) as [->|]; [done|].
  rewrite bool_decide_eq_false_2 by lia. destruct (decide (i < 0)); [by apply Z.testbit_neg_r|].
  destruct (decide (i = 1)) as [->|]; [done|]. apply (testbit_high 5 3 i); lia.
Qed.
Lemma bits_85 i : Z.testbit 0x85 i = bool_decide (i = 0 \/ i = 2 \/ i = 7).
Proof.
  destruct (decide (i = 0)) as [->|]; [done|]. destruct (decide (i = 2)) as [->|]; [done|].
  destruct (decide (i = 7)) as [->|]; [done|]. rewrite bool_decide_eq_false_2 by lia.
  destruct (decide (i < 0)); [by apply Z.testbit_neg_r|].
  destruct (decide (i < 8)); [|apply (testbit_high 0x85 8 i); lia].
  assert (i = 1 \/ i = 3 \/ i = 4 \/ i = 5 \/ i = 6) as [->|[->|[->|[->| ->]]]] by lia; done.
Qed.

Lemma flag_5 x : HAS_FLAG 5 x = Z.testbit x 0 && Z.testbit x 2.
Proof.
  apply eq_iff_eq_true. rewrite has_flag_bits, andb_true_iff. setoid_rewrite bits_5. setoid_rewrite bool_decide_eq_true.
  split; [intros Hb; split; apply Hb; auto|intros [H0 H2] i [-> | ->]; done].
Qed.
Lemma flag_85 x : HAS_FLAG 0x85 x = Z.testbit x 0 && Z.testbit x 2 && Z.testbit x 7.
Proof.
  apply eq_iff_eq_true. rewrite has_flag_bits, !andb_true_iff. setoid_rewrite bits_85. setoid_rewrite bool_decide_eq_true.
  split; [intros Hb; split_and!; apply Hb; auto|intros [[H0 H2] H7] i [->|[->| ->]]; done].
Qed.

Lemma align_4KB x : 0 <= x < 2 ^ 32 -> Z.land x ALIGN_4KB_ADDR = x / 2 ^ 12 * 2 ^ 12.
Proof.
  intros Hx. change ALIGN_4KB_ADDR with (Z.shiftl (Z.ones 20) 12).
  rewrite <- Z.shiftr_div_pow2, <- Z.shiftl_mul_pow2 by lia. apply Z.bits_inj'. intros i Hi.
  rewrite Z.land_spec, !Z.shiftl_spec by lia. destruct (decide (i < 12)).
  - rewrite !(Z.testbit_neg_r _ (i - 12)) by lia. apply andb_false_r.
  - rewrite Z.shiftr_spec by lia. replace (i - 12 + 12) with i by lia. rewrite Z.testbit_ones by lia.
    destruct (decide (i < 32)); [rewrite (proj2 (Z.leb_le 0 _)), (proj2 (Z.ltb_lt _ 20)) by lia; apply andb_true_r|].
    by rewrite (testbit_high x 32 i) by lia.
Qed.
Lemma extract_pte x : 0 <= x -> Z.shiftr (Z.land x EXTRACT_PTE) 12 = x / 2 ^ 12 mod 2 ^ 10.
Proof.
  intros Hx. rewrite Z.shiftr_land. change (Z.shiftr EXTRACT_PTE 12) with (Z.ones 10).
  rewrite Z.land_ones, Z.shiftr_div_pow2 by lia. done.
Qed.

(** The check and the walk agree. *)
Lemma validUserPointer_walk s ptr :
  0 <= aget (Manager.active_dir (maps s)) (ptr / 2 ^ 22) < 2 ^ 32 -> 0 <= ptr < 2 ^ 32 ->
  validUserPointer s false ptr = negb (ptr =? 0) && bool_decide (is_Some (user_walk s ptr)).
Proof.
  intros Hpde Hp. unfold validUserPointer, user_walk, walk. destruct (ptr =? 0); [done|]. cbn [negb andb].
  rewrite Z.shiftr_div_pow2 by lia. rewrite extract_pte by lia. set (pde := aget _ _) in *.
  change (Z.lor PG_4MB_BASE PG_USER) with 0x85. change (Z.lor PT_BASE PT_USER) with 5. change (Z.lor PG_4KB_BASE PG_USER) with 5.
  rewrite flag_85, !flag_5, align_4KB by done. cbv zeta.
  destruct (Z.testbit pde 0 && Z.testbit pde 2); [|by rewrite bool_decide_eq_false_2 by (intros [? [=]])]. cbn [andb].
  destruct (Z.testbit pde 7); [by rewrite bool_decide_eq_true_2 by eauto|].
  destruct (_ && _); [by rewrite bool_decide_eq_true_2 by eauto|by rewrite bool_decide_eq_false_2 by (intros [? [=]])].
Qed.

(** ** Loading a process *)

Lemma active_write m i pde : Manager.active_dir (Manager.write_cr3 m i pde) = aset (Manager.active_dir m) i pde.
Proof.
  by destruct m as [? [] ? ? ? ? [|[]]].
Qed.

(** An entry with the flags [f] for the page or table at [x]. *)
Lemma entry_page f x : 0 <= f < 2 ^ 12 -> 0 <= x < 2 ^ 32 ->
  Z.lor f (Z.land x ALIGN_4KB_ADDR) / 2 ^ 12 * 2 ^ 12 = x / 2 ^ 12 * 2 ^ 12.
Proof.
  intros Hf Hx. rewrite align_4KB by done. f_equal. rewrite <- Z.shiftr_div_pow2 at 1 by lia.
  rewrite Z.shiftr_lor, (Z.shiftr_div_pow2 f) by lia. rewrite (Z.div_small f), Z.lor_0_l by lia.
  rewrite Z.shiftr_div_pow2, Z.div_mul by lia. done.
Qed.
Lemma entry_flags f x i : 0 <= x < 2 ^ 32 -> 0 <= i < 12 -> Z.testbit (Z.lor f (Z.land x ALIGN_4KB_ADDR)) i = Z.testbit f i.
Proof.
  intros Hx Hi. rewrite align_4KB, Z.lor_spec, Z.mul_pow2_bits_low by lia. apply orb_false_r.
Qed.

Hypothesis table_aligned : 0 <= table_addr < 2 ^ 32 /\ table_addr mod 2 ^ 12 = 0.

(** What entry 0 of the directory holds for the window. *)
Definition window_entry : Z := Z.lor (Z.lor PT_BASE (Z.land table_addr ALIGN_4KB_ADDR)) (Z.lor PT_WRITABLE PT_USER).
Lemma window_entry_eq : window_entry = Z.lor 7 (Z.land table_addr ALIGN_4KB_ADDR).
Proof. unfold window_entry. rewrite <- Z.lor_assoc, (Z.lor_comm (Z.land _ _)), Z.lor_assoc. done. Qed.
Lemma window_entry_walk dir tab a : aget dir 0 = window_entry -> 0 <= a < 2 ^ 22 ->
  walk dir tab a =
    let pte := tab table_addr (a / 2 ^ 12) in
    if Z.testbit pte 0 && Z.testbit pte 2 then Some (pte / 2 ^ 12 * 2 ^ 12 + a mod 2 ^ 12) else None.
Proof using table_aligned.
  intros Hd Ha. destruct table_aligned as [Ht Hta]. unfold walk. rewrite (Z.div_small a) by lia. rewrite Hd, window_entry_eq.
  rewrite !entry_flags by (done || lia). cbn [Z.testbit andb Pos.testbit]. rewrite entry_page by (done || lia).
  replace (table_addr / 2 ^ 12 * 2 ^ 12) with table_addr by (rewrite (Z.div_mod table_addr (2 ^ 12)) at 1; lia).
  rewrite (Z.mod_small (a / 2 ^ 12)); [done|]. change (2 ^ 22) with (2 ^ 10 * 2 ^ 12) in Ha.
  split; [apply Z.div_pos; lia|apply Z.div_lt_upper_bound; lia].
Qed.

(** Where the owner's window leads. *)
Definition window_target (p : painter) : Z := if isLoadedInVmem p then PRE_INIT_VIDEO else backupBuffer p.
Definition window_pte (p : painter) : Z :=
  Z.lor (Z.lor (Z.lor PG_4KB_BASE PG_WRITABLE) PG_USER) (Z.land (window_target p) ALIGN_4KB_ADDR).

(** [pcb] has the window of its terminal. *)
Definition has_window (currTerm : option painter) (pcb : Z) (p : painter) : Prop :=
  up = true /\ currTerm = Some p /\ vidmapOwner p = Some pcb /\ bIsVidmapEnabled p = true.

Lemma tryMap_cases p pcb s :
  (~ has_window (Some p) pcb p /\ tryMapVidmapNolock p (Some pcb) s = s) \/
  (~ has_window (Some p) pcb p /\ tryMapVidmapNolock p (Some pcb) s = clear_entry0 s) \/
  (has_window (Some p) pcb p /\
   tryMapVidmapNolock p (Some pcb) s =
     LOAD_PAGE_TABLE (mk (maps s) (aset (userFirst4MBTable s) 0xb8 (window_pte p))) 0 table_addr (Z.lor PT_WRITABLE PT_USER)).
Proof.
  unfold tryMapVidmapNolock, has_window. destruct up; cbn [negb]; [|left; split; [by intros (? & _)|done]].
  case_bool_decide as E; cbn [negb]; [|left; split; [by intros (_ & _ & ? & _)|done]].
  destruct (bIsVidmapEnabled p) eqn:Eb; [right; right; done|right; left; split; [by intros (_ & _ & _ & ?)|done]].
Qed.

(** What the manager and a process's map must be like: pages of 4 MB, distinct, and apart
    from the common ones, which are the kernel's alone. *)
Record loads (m : Manager.t) (map : TinyMemMap.t) : Prop := {
  loads_started : Manager.bIsStarted m = true;
  loads_wf : MemMap.wf (Manager.spare m (negb (Manager.loadedMap m)));
  loads_ok : Forall ManagerLaws.mapping_ok (Stack.contents (TinyMemMap.pdStack map));
  loads_virt : NoDup ((fun x => vidx_of (TinyMemMap.virt x)) <$> Stack.contents (TinyMemMap.pdStack map));
  loads_phys : NoDup ((fun x => PhysAddr.index (TinyMemMap.phys x)) <$> Stack.contents (TinyMemMap.pdStack map));
  loads_apart x : x ∈ Stack.contents (TinyMemMap.pdStack map) ->
    present (aget (MemMap.virt2phys (Manager.commonMemMap m)) (vidx_of (TinyMemMap.virt x))) = false;
  loads_big x : x ∈ Stack.contents (TinyMemMap.pdStack map) ->
    0 <= TinyMemMap.phys x < 2 ^ 32 /\ Z.testbit (TinyMemMap.phys x) 7 = true;
  loads_kernel v : 2 <= v < 1024 ->
    0 <= aget (MemMap.virt2phys (Manager.commonMemMap m)) v < 2 ^ 32 /\
    Z.testbit (aget (MemMap.virt2phys (Manager.commonMemMap m)) v) 2 = false }.

(** The directory after [Manager.switchMap]: entry 0 is empty, the user's entries
    are the process's. *)
Lemma load_dir m map : loads m map -> exists m', Manager.switchMap m map = (true, m') /\
  alen (Manager.active_dir m') = 1024 /\ aget (Manager.active_dir m') 0 = 0 /\
  forall v, 0 < v < 1024 -> 0 <= aget (Manager.active_dir m') v < 2 ^ 32 /\
    ((exists x, x ∈ Stack.contents (TinyMemMap.pdStack map) /\ vidx_of (TinyMemMap.virt x) = v /\
       aget (Manager.active_dir m') v = TinyMemMap.phys x) \/
     Z.testbit (aget (Manager.active_dir m') v) 2 = false).
Proof.
  intros [Hst Hw Hok Hv Hp Ha Hb Hk].
  destruct (ManagerLaws.load_built m map Hst Hw Hok Hv Hp Ha) as (mm & E & Hl & _ & B1 & B2 & B3 & B4).
  eexists. split; [exact E|]. rewrite ManagerLaws.active_loaded. set (d := MemMap.virt2phys (MemMap.resetVPage0And1 mm)) in *.
  split; [unfold d; cbn; by rewrite !alen_aset|]. split; [done|]. intros v Hr.
  destruct (decide (v = 1)) as [->|]; [rewrite B4; split; [done|by right]|].
  destruct (decide (v ∈ (fun x => vidx_of (TinyMemMap.virt x)) <$> Stack.contents (TinyMemMap.pdStack map))) as [Hin|Hn].
  - apply list_elem_of_fmap in Hin as (x & -> & Hx). rewrite (B1 x Hx). split; [by apply Hb|]. left. by exists x.
  - rewrite B2.
    + destruct (Hk v ltac:(lia)) as [H1 H2]. destruct (present _); [split; [done|by right]|split; [done|by right]].
    + change PD_NUM_ENTRIES with 1024. lia.
    + intros x Hx Ex. apply Hn, list_elem_of_fmap. by exists x.
Qed.

(** A page of the directory that the user may touch. *)
Lemma walk_page dir tab a x : aget dir (a / 2 ^ 22) = x -> Z.testbit x 7 = true -> is_Some (walk dir tab a) ->
  walk dir tab a = Some (x / 2 ^ 22 * 2 ^ 22 + a mod 2 ^ 22).
Proof. intros E H7. unfold walk. rewrite E, H7. destruct (_ && _); [done|]. by intros [? [=]]. Qed.
Lemma user_walk_none dir tab a : Z.testbit (aget dir (a / 2 ^ 22)) 2 = false -> walk dir tab a = None.
Proof. intros E. unfold walk. by rewrite E, andb_false_r. Qed.

(** The table has no page but the window. *)
Definition only_window (s : t) : Prop :=
  alen (userFirst4MBTable s) = 1024 /\ forall i, 0 <= i < 1024 -> i <> 0xb8 -> aget (userFirst4MBTable s) i = 0.

Lemma window_entry_range : 0 <= window_entry < 2 ^ 32.
Proof using table_aligned.
  rewrite window_entry_eq. apply lor_range; [lia|lia|]. rewrite align_4KB by apply table_aligned.
  destruct table_aligned as [Ht Hta]. rewrite (Z.div_mod table_addr (2 ^ 12)) in Ht by lia. lia.
Qed.

(** The parts of the first 4 MB the window's table lets the user touch. *)
Lemma window_walk dir tab a pte : aget dir 0 = window_entry -> 0 <= a < 2 ^ 22 -> 
  (forall i, 0 <= i < 1024 -> tab table_addr i = if i =? 0xb8 then pte else 0) ->
  walk dir tab a = if a / 2 ^ 12 =? 0xb8 then
    (if Z.testbit pte 0 && Z.testbit pte 2 then Some (pte / 2 ^ 12 * 2 ^ 12 + a mod 2 ^ 12) else None) else None.
Proof using table_aligned.
  intros Hd Ha Ht. rewrite window_entry_walk by done. cbv zeta. rewrite Ht.
  - by destruct (_ =? 0xb8).
  - change (2 ^ 22) with (1024 * 2 ^ 12) in Ha. split; [apply Z.div_pos; lia|apply Z.div_lt_upper_bound; lia].
Qed.

Lemma window_pte_walk p : 0 <= window_target p < 2 ^ 32 ->
  Z.testbit (window_pte p) 0 = true /\ Z.testbit (window_pte p) 2 = true /\
  window_pte p / 2 ^ 12 * 2 ^ 12 = window_target p / 2 ^ 12 * 2 ^ 12.
Proof.
  intros Ht. unfold window_pte. rewrite !entry_flags by (done || lia). split; [done|]. split; [done|].
  by rewrite entry_page by (done || lia).
Qed.

(** The pages of the process, whatever entry 0 of the directory holds. *)
Definition process_pages (map : TinyMemMap.t) (s : t) : Prop :=
  (forall v, 0 <= v < 1024 -> 0 <= aget (Manager.active_dir (maps s)) v < 2 ^ 32) /\
  forall a, 2 ^ 22 <= a < 2 ^ 32 -> is_Some (user_walk s a) ->
    exists x, x ∈ Stack.contents (TinyMemMap.pdStack map) /\ vidx_of (TinyMemMap.virt x) = a / 2 ^ 22 /\
      user_walk s a = Some (TinyMemMap.phys x / 2 ^ 22 * 2 ^ 22 + a mod 2 ^ 22).

Lemma high_walk m map m' e s : loads m map ->
  alen (Manager.active_dir m') = 1024 ->
  (forall v, 0 < v < 1024 -> 0 <= aget (Manager.active_dir m') v < 2 ^ 32 /\
    ((exists x, x ∈ Stack.contents (TinyMemMap.pdStack map) /\ vidx_of (TinyMemMap.virt x) = v /\
       aget (Manager.active_dir m') v = TinyMemMap.phys x) \/
     Z.testbit (aget (Manager.active_dir m') v) 2 = false)) ->
  Manager.active_dir (maps s) = aset (Manager.active_dir m') 0 e -> 0 <= e < 2 ^ 32 -> process_pages map s.
Proof.
  intros Hl Hlen Hv Hs He. split.
  - intros v Hr. rewrite Hs. destruct (decide (v = 0)) as [->|].
    + by rewrite aget_aset_eq by lia.
    + rewrite aget_aset_ne by lia. apply Hv. lia.
  - intros a Ha Hw. assert (Hr : 0 < a / 2 ^ 22 < 1024).
    { change (2 ^ 32) with (1024 * 2 ^ 22) in Ha. split; [|apply Z.div_lt_upper_bound; lia].
      assert (1 <= a / 2 ^ 22) by (apply Z.div_le_lower_bound; lia). lia. }
    assert (Ee : aget (Manager.active_dir (maps s)) (a / 2 ^ 22) = aget (Manager.active_dir m') (a / 2 ^ 22))
      by (rewrite Hs, aget_aset_ne by lia; done).
    destruct (Hv _ Hr) as [_ [(x & Hx & Hvx & Hax)|Hno]].
    + exists x. split; [done|]. split; [done|]. apply walk_page; [by rewrite Ee|by apply (loads_big _ _ Hl)|done].
    + unfold user_walk in Hw. rewrite user_walk_none in Hw; [by destruct Hw|by rewrite Ee].
Qed.

Lemma low_walk s a : aget (Manager.active_dir (maps s)) 0 = 0 -> 0 <= a < 2 ^ 22 -> user_walk s a = None.
Proof. intros Hs Ha. apply user_walk_none. by rewrite (Z.div_small a), Hs by lia. Qed.

(** The owner's window, in the directory and the table. *)
Lemma window_shown p m tab : 0 <= window_target p < 2 ^ 32 -> alen (Manager.active_dir m) = 1024 ->
  only_window (mk m tab) ->
  let s := LOAD_PAGE_TABLE (mk m (aset tab 0xb8 (window_pte p))) 0 table_addr (Z.lor PT_WRITABLE PT_USER) in
  only_window s /\ Manager.active_dir (maps s) = aset (Manager.active_dir m) 0 window_entry /\
  forall a, 0 <= a < 2 ^ 22 ->
    user_walk s a = if a / 2 ^ 12 =? 0xb8 then Some (window_target p / 2 ^ 12 * 2 ^ 12 + a mod 2 ^ 12) else None.
Proof using table_aligned.
  intros Ht Hlen [Hlt How]. cbv zeta. split; [|split; [apply active_write|]].
  - split; cbn; [by rewrite alen_aset|]. intros i Hi Hne. rewrite aget_aset_ne by lia. by apply How.
  - intros a Ha. unfold user_walk. erewrite window_walk with (pte := window_pte p).
    + destruct (window_pte_walk p Ht) as (-> & -> & ->). done.
    + cbn. rewrite active_write. by rewrite aget_aset_eq by lia.
    + done.
    + intros i Hi. unfold table. rewrite Z.eqb_refl. cbn [userFirst4MBTable LOAD_PAGE_TABLE].
      destruct (Z.eqb_spec i 0xb8) as [->|]; [by rewrite aget_aset_eq by (cbn in Hlt; lia)|].
      rewrite aget_aset_ne by lia. by apply How.
Qed.

(** After a process is loaded, the addresses a user may touch. *)
Lemma loaded_walk s map currTerm pcb : loads (maps s) map -> only_window s ->
  (forall p, currTerm = Some p -> 0 <= backupBuffer p < 2 ^ 32) ->
  exists s', loadProcessMap map currTerm pcb s = (true, s') /\ only_window s' /\ process_pages map s' /\
    (forall p, has_window currTerm pcb p -> forall a, 0 <= a < 2 ^ 22 ->
       user_walk s' a = if a / 2 ^ 12 =? 0xb8 then Some (window_target p / 2 ^ 12 * 2 ^ 12 + a mod 2 ^ 12) else None) /\
    ((forall p, ~ has_window currTerm pcb p) -> forall a, 0 <= a < 2 ^ 22 -> user_walk s' a = None).
Proof using table_aligned.
  intros Hl How Hbb. destruct (load_dir (maps s) map Hl) as (m' & E & Hlen & H0 & Hv).
  unfold loadProcessMap. rewrite E. cbn [negb]. set (s0 := mk m' (userFirst4MBTable s)).
  assert (Hs0 : Manager.active_dir (maps s0) = aset (Manager.active_dir m') 0 0).
  { cbn. rewrite <- H0 at 2. unfold aset, aget. rewrite list_insert_id; [done|]. apply list_lookup_lookup_total_lt.
    unfold alen in Hlen. lia. }
  assert (Hno : forall s1, userFirst4MBTable s1 = userFirst4MBTable s0 -> Manager.active_dir (maps s1) = aset (Manager.active_dir m') 0 0 ->
    (forall p, ~ has_window currTerm pcb p) ->
    only_window s1 /\ process_pages map s1 /\ (forall p, has_window currTerm pcb p -> forall a, 0 <= a < 2 ^ 22 ->
       user_walk s1 a = if a / 2 ^ 12 =? 0xb8 then Some (window_target p / 2 ^ 12 * 2 ^ 12 + a mod 2 ^ 12) else None) /\
    ((forall p, ~ has_window currTerm pcb p) -> forall a, 0 <= a < 2 ^ 22 -> user_walk s1 a = None)).
  { intros s1 Ht1 Hd1 Hnone. split; [unfold only_window; rewrite Ht1; exact How|]. split; [by eapply (high_walk (maps s))|].
    split; [intros p Hp; by destruct (Hnone p)|]. intros _ a Ha. apply low_walk; [|done]. rewrite Hd1. by rewrite aget_aset_eq by lia. }
  eexists. split; [reflexivity|]. destruct currTerm as [p|]; [|apply Hno; [done|done|by intros p (_ & [=] & _)]].
  destruct (tryMap_cases p pcb s0) as [[Hn ->]|[[Hn ->]|[Hw ->]]].
  - apply Hno; [done|done|]. intros q Hq. apply Hn. by destruct Hq as (? & [= <-] & ?).
  - apply Hno; [done|cbn; rewrite active_write|intros q Hq; apply Hn; by destruct Hq as (? & [= <-] & ?)].
    change (Manager.active_dir m') with (Manager.active_dir (maps s0)). rewrite Hs0. unfold aset. by rewrite list_insert_insert_eq.
  - assert (Ht : 0 <= window_target p < 2 ^ 32) by (unfold window_target; destruct (isLoadedInVmem p); [done|by apply Hbb]).
    destruct (window_shown p m' (userFirst4MBTable s) Ht Hlen How) as (W1 & W2 & W3).
    split; [exact W1|]. split; [eapply (high_walk (maps s)); [done..|exact W2|apply window_entry_range]|].
    split; [|intros Hq; by destruct (Hq p)]. intros q (_ & [= <-] & _) a Ha. by apply W3.
Qed.

(** When a terminal is switched to or away from while its [vidmap] owner runs, the owner's
    window goes to the text memory, or to the terminal's own copy. *)
Lemma window_follows_terminal p cur s a : up = true -> vidmapOwner p = Some cur -> bIsVidmapEnabled p = true ->
  0 <= backupBuffer p < 2 ^ 32 -> alen (Manager.active_dir (maps s)) = 1024 -> only_window s -> 0 <= a < 2 ^ 22 ->
  let at_window t := if a / 2 ^ 12 =? 0xb8 then Some (t / 2 ^ 12 * 2 ^ 12 + a mod 2 ^ 12) else None in
  (isLoadedInVmem p = false -> user_walk (show true p cur s).2 a = at_window PRE_INIT_VIDEO) /\
  (isLoadedInVmem p = true -> user_walk (hide true p cur s).2 a = at_window (backupBuffer p)).
Proof using table_aligned.
  intros Hup Ho He Hb Hlen How Ha at_window.
  assert (Hw : forall q, vidmapOwner q = Some cur -> bIsVidmapEnabled q = true -> backupBuffer q = backupBuffer p ->
    user_walk (tryMapVidmapNolock q (Some cur) s) a = at_window (window_target q)).
  { intros q Hq1 Hq2 Hq3. assert (Ht : 0 <= window_target q < 2 ^ 32) by (unfold window_target; destruct (isLoadedInVmem q); [done|by rewrite Hq3]).
    destruct (tryMap_cases q cur s) as [[Hn _]|[[Hn _]|[_ ->]]]; [by destruct Hn..|].
    destruct s as [m tab]. by apply (window_shown q m tab Ht Hlen How). }
  split; intros Hl; unfold show, hide; rewrite Hl; cbn [negb snd]; by rewrite Hw.
Qed.

(** *** The stale window *)

(** [enableVidmap] does not set the table's entry: until the process is next loaded its
    window shows what the window was last used for, here another terminal's buffer. *)
Lemma enabled_window_is_stale p q theThread s a : vidmapOwner p = None -> 0 <= a < 2 ^ 22 ->
  alen (Manager.active_dir (maps s)) = 1024 -> only_window s ->
  aget (userFirst4MBTable s) 0xb8 = window_pte q -> 0 <= window_target q < 2 ^ 32 ->
  exists p' s', enableVidmap p theThread s = (Some PRE_INIT_VIDEO, p', s') /\
    user_walk s' a = if a / 2 ^ 12 =? 0xb8 then Some (window_target q / 2 ^ 12 * 2 ^ 12 + a mod 2 ^ 12) else None.
Proof using table_aligned.
  intros Ho Ha Hlen [Hlt How] Hq Ht. unfold enableVidmap. rewrite Ho. do 2 eexists. split; [reflexivity|].
  unfold user_walk. erewrite window_walk with (pte := window_pte q).
  - destruct (window_pte_walk q Ht) as (-> & -> & ->). done.
  - cbn. rewrite active_write. by rewrite aget_aset_eq by lia.
  - done.
  - intros i Hi. unfold table. rewrite Z.eqb_refl. cbn [userFirst4MBTable LOAD_PAGE_TABLE].
    destruct (Z.eqb_spec i 0xb8) as [->|]; [exact Hq|by apply How].
Qed.

End vidmap.

(** After [loadProcessMap] a pointer that [validUserPointer] lets through is in a page of
    the process's map, where the processor takes the user, or in the window at 0xb8000, and
    then the user sees the text memory or the terminal's own copy of it. *)
Lemma user_pointers_are_own (table_addr : Z) (other_table : Z -> Z -> Z) (up : bool) s map currTerm pcb :
  0 <= table_addr < 2 ^ 32 /\ table_addr mod 2 ^ 12 = 0 ->
  loads (maps s) map -> only_window s ->
  (forall p, currTerm = Some p -> 0 <= backupBuffer p < 2 ^ 32) ->
  exists s', loadProcessMap table_addr up map currTerm pcb s = (true, s') /\
    forall ptr, 0 <= ptr < 2 ^ 32 -> validUserPointer table_addr other_table s' false ptr = true ->
      (exists x, x ∈ Stack.contents (TinyMemMap.pdStack map) /\ vidx_of (TinyMemMap.virt x) = ptr / 2 ^ 22 /\
         user_walk table_addr other_table s' ptr = Some (TinyMemMap.phys x / 2 ^ 22 * 2 ^ 22 + ptr mod 2 ^ 22)) \/
      (exists p, has_window up currTerm pcb p /\ ptr / 2 ^ 12 = 0xb8 /\
         user_walk table_addr other_table s' ptr =
           Some ((if isLoadedInVmem p then PRE_INIT_VIDEO else backupBuffer p / 2 ^ 12 * 2 ^ 12) + ptr mod 2 ^ 12)).
Proof.
  intros Hta Hl How Hbb. destruct (loaded_walk table_addr other_table up Hta s map currTerm pcb Hl How Hbb)
    as (s' & E & _ & [Hr Hp] & Hwin & Hnone).
  exists s'. split; [done|]. intros ptr Hptr. assert (Hd : 0 <= ptr / 2 ^ 22 < 1024).
  { change (2 ^ 32) with (1024 * 2 ^ 22) in Hptr. split; [apply Z.div_pos; lia|apply Z.div_lt_upper_bound; lia]. }
  rewrite validUserPointer_walk by (done || by apply Hr). intros [_ Hw%bool_decide_eq_true]%andb_true_iff.
  destruct (decide (2 ^ 22 <= ptr)); [left; apply Hp; [lia|done]|right].
  assert (Hdec : (exists p, has_window up currTerm pcb p) \/ forall p, ~ has_window up currTerm pcb p).
  { unfold has_window. destruct currTerm as [p|]; [|right; by intros p (_ & [=] & _)].
    destruct up; [|right; by intros q (? & _)]. destruct (bIsVidmapEnabled p) eqn:Eb; [|right; intros q (_ & [= <-] & _ & ?); congruence].
    destruct (decide (vidmapOwner p = Some pcb)); [left; by exists p|right; by intros q (_ & [= <-] & ? & _)]. }
  destruct Hdec as [[p Hwp]|Hn]; [|rewrite Hnone in Hw by (done || lia); by destruct Hw].
  exists p. split; [done|]. rewrite (Hwin p Hwp ptr) in Hw |- * by lia.
  destruct (Z.eqb_spec (ptr / 2 ^ 12) 0xb8); [|by destruct Hw]. split; [done|].
  unfold window_target. by destruct (isLoadedInVmem p).
Qed.

(** What the terminal does to the directory just loaded, whose entry 0 is empty. *)
Lemma terminal_entry0 (table_addr : Z) (up : bool) (s : t) (currTerm : option painter) (pcb : Z) :
  alen (Manager.active_dir (maps s)) = 1024 -> aget (Manager.active_dir (maps s)) 0 = 0 ->
  let s' := match currTerm with None => s | Some p => tryMapVidmapNolock table_addr up p (Some pcb) s end in
  exists e, Manager.active_dir (maps s') = aset (Manager.active_dir (maps s)) 0 e /\
    (forall p, has_window up currTerm pcb p ->
       e = Z.lor (Z.lor 1 (Z.land table_addr 0xFFFFF000)) 6 /\
       userFirst4MBTable s' = aset (userFirst4MBTable s) 0xb8
         (Z.lor 7 (Z.land (if isLoadedInVmem p then 0xb8000 else backupBuffer p) 0xFFFFF000))) /\
    ((forall p, ~ has_window up currTerm pcb p) -> e = 0 /\ userFirst4MBTable s' = userFirst4MBTable s).
Proof.
  intros Hl H0 s'.
  assert (H00 : Manager.active_dir (maps s) = aset (Manager.active_dir (maps s)) 0 0).
  { rewrite <- H0 at 2. unfold aset, aget. rewrite list_insert_id; [done|]. apply list_lookup_lookup_total_lt.
    unfold alen in Hl. lia. }
  destruct currTerm as [p|]; [|exists 0; split; [done|]; split; [by intros p (_ & [=] & _)|done]].
  unfold s'. destruct (tryMap_cases table_addr up p pcb s) as [[Hn ->]|[[Hn ->]|[Hp ->]]].
  - exists 0. split; [done|]. split; [|done]. intros q Hq. destruct Hn. by destruct Hq as (? & [= <-] & ?).
  - exists 0. split; [apply active_write|]. split; [|done]. intros q Hq. destruct Hn. by destruct Hq as (? & [= <-] & ?).
  - eexists. split; [apply active_write|]. split; [|intros Hn; by destruct (Hn p)].
    intros q (_ & [= <-] & _). by split.
Qed.

(** C21: Loading a process whose pages are distinct, of 4 MB, and disjoint from the common map
    switches the processor to a directory of which every entry is known: the process's
    pages, the common pages, the kernel's page at 1, nothing else from 2 on. Entry 0 is
    empty, unless the process's main thread owns the [vidmap] of its terminal: then it is
    the page table [userFirst4MBTable], writable and the user's, whose entry 0xb8 leads to
    the text memory or to the terminal's own copy of it. *)
Theorem loadProcessMap_spec (table_addr : Z) (up : bool) (s : t) (map : TinyMemMap.t) (currTerm : option painter) (pcb : Z) :
  let ms := Stack.contents (TinyMemMap.pdStack map) in
  let common := MemMap.virt2phys (Manager.commonMemMap (maps s)) in
  Manager.bIsStarted (maps s) = true ->
  MemMap.wf (Manager.spare (maps s) (negb (Manager.loadedMap (maps s)))) ->
  Forall ManagerLaws.mapping_ok ms ->
  NoDup ((fun x => vidx_of (TinyMemMap.virt x)) <$> ms) ->
  NoDup ((fun x => PhysAddr.index (TinyMemMap.phys x)) <$> ms) ->
  (forall x, x ∈ ms -> present (aget common (vidx_of (TinyMemMap.virt x))) = false) ->
  exists s', loadProcessMap table_addr up map currTerm pcb s = (true, s') /\
    let dir := Manager.active_dir (maps s') in
    (forall x, x ∈ ms -> aget dir (vidx_of (TinyMemMap.virt x)) = TinyMemMap.phys x) /\
    (forall v, 2 <= v < 1024 -> (forall x, x ∈ ms -> vidx_of (TinyMemMap.virt x) <> v) ->
       aget dir v = if present (aget common v) then aget common v else 0) /\
    aget dir 1 = 0x400181 /\
    (forall p, has_window up currTerm pcb p ->
       aget dir 0 = Z.lor (Z.lor 1 (Z.land table_addr 0xFFFFF000)) 6 /\
       userFirst4MBTable s' = aset (userFirst4MBTable s) 0xb8
         (Z.lor 7 (Z.land (if isLoadedInVmem p then 0xb8000 else backupBuffer p) 0xFFFFF000))) /\
    ((forall p, ~ has_window up currTerm pcb p) -> aget dir 0 = 0 /\ userFirst4MBTable s' = userFirst4MBTable s).
Proof.
  intros ms common Hst Hw Hok Hdv Hdp Hdisj.
  destruct (ManagerLaws.load_built (maps s) map Hst Hw Hok Hdv Hdp Hdisj) as (m & E & L & _ & B1 & B2 & B3 & B4).
  unfold loadProcessMap. rewrite E. cbn [negb]. set (m' := Manager.set_loaded _ _) in *.
  assert (Ed : Manager.active_dir m' = MemMap.virt2phys (MemMap.resetVPage0And1 m)) by apply ManagerLaws.active_loaded.
  clearbody m'. rewrite <- Ed in B1, B2, B3, B4.
  assert (Hl : alen (Manager.active_dir m') = 1024) by (rewrite Ed; unfold MemMap.resetVPage0And1; cbn; by rewrite !alen_aset).
  assert (Hvx : forall x, x ∈ ms -> 2 <= vidx_of (TinyMemMap.virt x)).
  { intros x Hx. rewrite list.Forall_forall in Hok. destruct (Hok x Hx) as (Hr & _). apply Hr. }
  destruct (terminal_entry0 table_addr up (mk m' (userFirst4MBTable s)) currTerm pcb Hl B3) as (e & Ee & Ew & En).
  eexists. split; [reflexivity|]. cbv zeta. rewrite Ee. cbn [maps userFirst4MBTable] in *.
  rewrite !aget_aset_eq by lia. split; [|split; [|split; [|split; [exact Ew|exact En]]]].
  - intros x Hx. specialize (Hvx x Hx). rewrite aget_aset_ne by lia. by apply B1.
  - intros v Hv Hne. rewrite aget_aset_ne by lia. by apply B2.
  - rewrite aget_aset_ne, B4 by lia. done.
Qed.

Definition demo_map : TinyMemMap.t := (TinyMemMap.add TinyMemMap.init 0x8000000 (PhysAddr.make 9 (Z.lor PG_WRITABLE PG_USER))).2.
Definition demo_state : t := mk (Manager.start demo_commons) init_table.
Definition demo_painter : painter := mk_painter false true (Some 7) 0x41a000.

Lemma demo_map_contents : Stack.contents (TinyMemMap.pdStack demo_map) =
  [TinyMemMap.mk_mapping (PhysAddr.make 9 (Z.lor PG_WRITABLE PG_USER)) 0x8000000].
Proof. vm_compute. reflexivity. Qed.

Lemma demo_loads : loads (maps demo_state) demo_map.
Proof.
  split; rewrite ?demo_map_contents.
  - vm_compute. reflexivity.
  - replace (Manager.spare _ _) with MemMap.init by (vm_compute; reflexivity). apply MemMapLaws.memmap_inv_init.
  - repeat constructor; vm_compute; congruence.
  - vm_compute. repeat constructor; set_solver.
  - vm_compute. repeat constructor; set_solver.
  - intros x Hx%list_elem_of_singleton. subst x. vm_compute. reflexivity.
  - intros x Hx%list_elem_of_singleton. subst x. vm_compute. split; [split; congruence|reflexivity].
  - intros v Hv.
    assert (Hall : (fun l => forallb (fun v => (0 <=? aget l v) && (aget l v <? 2 ^ 32) && negb (Z.testbit (aget l v) 2)) (seqZ 2 1022))
      (MemMap.virt2phys (Manager.commonMemMap (maps demo_state))) = true) by (vm_compute; reflexivity).
    cbv beta in Hall. rewrite forallb_forall in Hall. specialize (Hall v).
    rewrite !andb_true_iff, Z.leb_le, Z.ltb_lt, negb_true_iff in Hall.
    destruct Hall as [[? ?] ?]; [apply list_elem_of_In, elem_of_seqZ; clear -Hv; lia|].
    split; [split; assumption|assumption].
Qed.

(** The owner of the window of a terminal that is not shown. *)
Lemma loadProcessMap_spec_witness : exists s',
  loadProcessMap 0x500000 true demo_map (Some demo_painter) 7 demo_state = (true, s') /\
  aget (Manager.active_dir (maps s')) 0 = 0x500007 /\ aget (userFirst4MBTable s') 0xb8 = 0x41a007 /\
  aget (Manager.active_dir (maps s')) 1 = 0x400181 /\
  aget (Manager.active_dir (maps s')) 32 = PhysAddr.make 9 6.
Proof.
  destruct (loadProcessMap_spec 0x500000 true demo_state demo_map (Some demo_painter) 7) as (s' & E & D & _ & D1 & Hp & _).
  - apply (loads_started _ _ demo_loads).
  - apply (loads_wf _ _ demo_loads).
  - apply (loads_ok _ _ demo_loads).
  - apply (loads_virt _ _ demo_loads).
  - apply (loads_phys _ _ demo_loads).
  - apply (loads_apart _ _ demo_loads).
  - destruct (Hp demo_painter) as (D0 & T0); [by split_and!|]. exists s'. split; [exact E|]. split; [exact D0|].
    split; [rewrite T0; vm_compute; reflexivity|]. split; [exact D1|].
    apply (D (TinyMemMap.mk_mapping (PhysAddr.make 9 (Z.lor PG_WRITABLE PG_USER)) 0x8000000)). rewrite demo_map_contents. left.
Defined.

Lemma demo_window : only_window demo_state.
Proof.
  split; [vm_compute; reflexivity|]. intros i Hi Hne. unfold demo_state, init_table. cbn [userFirst4MBTable].
  rewrite aget_aset_ne by (change (Z.shiftr PRE_INIT_VIDEO 12) with 0xb8; lia).
  apply (aget_replicate 1024). lia.
Qed.

End Vidmap.
