(* ===== verification/Heap.v ===== *)
(** * The heap of a process (student-distrib/proc/tasks.cpp, [ProcessDesc::sbrk])

    The break of a process moves by any number of bytes; whole pages of 4 MB are taken
    from the physical allocator and mapped, or unmapped and given back. The map manager is
    behind the interface [AddressSpace]; MemMap.v with the terminal's part in Vidmap.v is
    the instance. *)
From stdpp Require Import prelude gmap list numbers.
From Stdlib Require Import ZArith Lia.
From S2P Require Import Prelude BitSet Stack PhysPages MemMap Vidmap.

(** ** The map of one process *)

Module TinyMemMapLaws.
Import TinyMemMap ManagerLaws.

Notation mappings m := (Stack.contents (pdStack m)).

(** The mappings are sound, of distinct pages on both sides, and the bit set marks the
    virtual pages in use. *)
Record map_wf (m : TinyMemMap.t) : Prop := {
  mw_stack : Stack.wf Num (pdStack m);
  mw_bits : BitSet.wf Num (isVirtAddrUsed m);
  mw_ok : Forall mapping_ok (mappings m);
  mw_virt : NoDup ((fun x => vidx x) <$> mappings m);
  mw_phys : NoDup ((fun x => pidx x) <$> mappings m);
  mw_used v : 0 <= v -> BitSet.test Num (isVirtAddrUsed m) v = true <-> exists x, x ∈ mappings m /\ vidx x = v }.

Lemma mappings_small m : map_wf m -> Stack.idx (pdStack m) < Num.
Proof.
  intros [Ws _ Ok Nv _ _]. rewrite <- (Stack.length_contents Num) by done.
  assert (Hi : ((fun x => vidx x) <$> mappings m) ⊆ seqZ 2 1022).
  { intros v (x & -> & Hx)%list_elem_of_fmap. rewrite list.Forall_forall in Ok. destruct (Ok x Hx) as [R _].
    apply elem_of_seqZ. change PD_NUM_ENTRIES with 1024 in R. lia. }
  apply NoDup_submseteq, submseteq_length in Hi; [|done]. rewrite length_fmap, length_seqZ in Hi.
  change Num with 1024. lia.
Qed.

Lemma tiny_add m x : map_wf m -> mapping_ok x ->
  (forall y, y ∈ mappings m -> vidx y <> vidx x /\ pidx y <> pidx x) ->
  exists m', TinyMemMap.add m (virt x) (phys x) = (true, m') /\ map_wf m' /\ mappings m' = mappings m ++ [x].
Proof.
  intros W Hx Hnew. pose proof (mappings_small m W) as Hs. destruct W as [Ws Wb Ok Nv Np Us].
  assert (Hv : 0 <= vidx x) by (destruct Hx; lia).
  unfold TinyMemMap.add. cbv zeta. destruct (BitSet.test Num (isVirtAddrUsed m) (vidx x)) eqn:E.
  { apply Us in E as (y & Hy & Ey); [|done]. by destruct (Hnew y Hy). }
  eexists. split; [done|]. replace (mk_mapping (phys x) (virt x)) with x by (by destruct x).
  assert (Ec : mappings (mk (Stack.push Num (pdStack m) x) (BitSet.set Num (isVirtAddrUsed m) (vidx x))) = mappings m ++ [x]).
  { cbn [pdStack]. by rewrite Stack.contents_push, decide_True. }
  split; [|exact Ec]. split; rewrite ?Ec; cbn [pdStack isVirtAddrUsed].
  - by apply Stack.stack_wf_push.
  - by apply BitSet.bs_wf_set.
  - apply list.Forall_app. by split; [|constructor].
  - rewrite fmap_app. apply list.NoDup_app. split; [done|]. split; [|apply list.NoDup_singleton].
    intros v (y & -> & Hy)%list_elem_of_fmap Hv'%list_elem_of_singleton. by destruct (Hnew y Hy).
  - rewrite fmap_app. apply list.NoDup_app. split; [done|]. split; [|apply list.NoDup_singleton].
    intros v (y & -> & Hy)%list_elem_of_fmap Hv'%list_elem_of_singleton. by destruct (Hnew y Hy).
  - intros v Hv0. rewrite BitSet.test_set by done. rewrite orb_true_iff, andb_true_iff, bool_decide_eq_true, Us by done.
    setoid_rewrite elem_of_app. setoid_rewrite list_elem_of_singleton. split.
    + intros [[<- _]|(y & Hy & <-)]; eauto.
    + intros (y & [Hy|Hy] & <-); [eauto|]. subst y. left. split; [done|]. destruct Hx as [Hx _].
      apply Z.ltb_lt. exact (proj2 Hx).
Qed.

(** Comparing page table entries compares their pages. *)
Lemma eqb_index a b : PhysAddr.eqb a b = true -> PhysAddr.index a = PhysAddr.index b.
Proof.
  unfold PhysAddr.eqb. intros E%Z.eqb_eq. unfold PhysAddr.index.
  assert (S : forall x m, Z.land (Z.land PG_NOT_ACCESSED PG_NOT_DIRTY) m = m ->
    Z.land (Z.land (Z.land x PG_NOT_ACCESSED) PG_NOT_DIRTY) m = Z.land x m).
  { intros x m Hm. by rewrite <- !Z.land_assoc, (Z.land_assoc PG_NOT_ACCESSED), Hm. }
  rewrite <- (S a 0xffc00000), <- (S b 0xffc00000), <- (S a 0x6000), <- (S b 0x6000) by reflexivity. by rewrite E.
Qed.
Lemma eqb_refl a : PhysAddr.eqb a a = true.
Proof. unfold PhysAddr.eqb. apply Z.eqb_refl. Qed.

Lemma tiny_remove m x : map_wf m -> x ∈ mappings m ->
  exists m', TinyMemMap.remove m (virt x) (phys x) = Some (true, m') /\ map_wf m' /\
    forall y, y ∈ mappings m' <-> y ∈ mappings m /\ y <> x.
Proof.
  intros [Ws Wb Ok Nv Np Us] Hx. assert (Hv : 0 <= vidx x).
  { rewrite list.Forall_forall in Ok. destruct (Ok x Hx) as [R _]. lia. }
  unfold TinyMemMap.remove. cbv zeta. assert (E : BitSet.test Num (isVirtAddrUsed m) (vidx x) = true) by (apply Us; eauto).
  rewrite E. destruct (list_find (fun z => PhysAddr.eqb (phys z) (phys x) = true) (mappings m)) as [[k z]|] eqn:F.
  2: { apply list_find_None in F. rewrite list.Forall_forall in F. destruct (F x Hx). apply eqb_refl. }
  destruct (Stack.dropFirst_hit Num (pdStack m) (fun z => PhysAddr.eqb (phys z) (phys x)) k z Ws F) as (stk & -> & Ws' & Ec).
  cbn [mbind option_bind]. apply list_find_Some in F as (Hk & Hz & _). apply eqb_index in Hz.
  assert (z = x) as ->.
  { apply list_elem_of_lookup in Hx as [j Hj]. assert (j = k) as ->; [|congruence].
    apply (NoDup_lookup _ _ _ (pidx x) Np); rewrite list_lookup_fmap; [by rewrite Hj|]. rewrite Hk. cbn. by rewrite Hz. }
  eexists. split; [done|].
  assert (Em : mappings (mk stk (BitSet.clear Num (isVirtAddrUsed m) (vidx x))) = delete k (mappings m)) by done.
  assert (Pm : mappings m ≡ₚ x :: delete k (mappings m)) by by apply delete_Permutation.
  assert (Nx : NoDup (x :: delete k (mappings m))).
  { rewrite <- Pm. by apply (NoDup_fmap_1 (fun x => vidx x)). }
  apply list.NoDup_cons in Nx as [Nx _].
  assert (El : forall y, y ∈ delete k (mappings m) <-> y ∈ mappings m /\ y <> x).
  { intros y. rewrite Pm at 2. rewrite elem_of_cons. split; [|tauto]. intros Hy. split; [by right|]. by intros ->. }
  rewrite Pm, !fmap_cons in Nv, Np. apply list.NoDup_cons in Nv as [Nv1 Nv2], Np as [_ Np2].
  split; [|by rewrite Em]. split; rewrite ?Em; cbn [pdStack isVirtAddrUsed].
  - done.
  - by apply BitSet.bs_wf_clear.
  - by apply Forall_delete.
  - done.
  - done.
  - intros v Hv0. rewrite BitSet.test_clear by done. rewrite andb_true_iff, negb_true_iff, bool_decide_eq_false, Us by done.
    setoid_rewrite El. split.
    + intros [Hne (y & Hy & <-)]. exists y. split; [|done]. split; [done|]. by intros ->.
    + intros (y & [Hy Hyx] & <-). split; [|eauto]. intros Evx. apply Nv1. rewrite Evx.
      apply (list_elem_of_fmap_2 (fun x => vidx x)). by apply El.
Qed.

End TinyMemMapLaws.

(** ** What the heap asks of the map manager *)

Class AddressSpace (M : Type) := {
  translate : M -> Z -> Z;
  loadProcessMap : M -> TinyMemMap.t -> bool * M }.

(** [as_ok m common]: [m] is in order and its common pages are at the virtual indexes
    [common]. Loading a sound map apart from them succeeds and translates its pages. *)
Class AddressSpaceLaws (M : Type) `{!AddressSpace M} := {
  as_ok : M -> (Z -> Prop) -> Prop;
  as_load m common map : as_ok m common -> TinyMemMapLaws.map_wf map ->
    (forall x, x ∈ Stack.contents (TinyMemMap.pdStack map) -> ~ common (vidx_of (TinyMemMap.virt x))) ->
    exists m', loadProcessMap m map = (true, m') /\ as_ok m' common /\
      forall x, x ∈ Stack.contents (TinyMemMap.pdStack map) -> translate m' (TinyMemMap.virt x) = TinyMemMap.phys x }.

Module Heap.

Definition HeapPages : Z := 1024.
Definition PageFlags : Z := Z.lor PG_WRITABLE PG_USER.

Section heap.
Context {M : Type} `{!AddressSpace M} (n : Z).

(** The members of [ProcessDesc] that make the heap, with the allocator of physical pages
    and the map manager. *)
Record t := mk {
  physPages : PhysPages.t;
  cpu0_memmap : M;
  memmap : TinyMemMap.t;
  heapPhysicalPages : Stack.t Z;
  heapStartingPageIdx : Z;
  heapSize : Z;
  numHeapPages : Z }.

Definition set_heapSize (st : t) (size : Z) : t :=
  mk (physPages st) (cpu0_memmap st) (memmap st) (heapPhysicalPages st) (heapStartingPageIdx st) size (numHeapPages st).
Definition set_pages (st : t) (ph : PhysPages.t) (mm : TinyMemMap.t) (stk : Stack.t Z) (num : Z) : t :=
  mk ph (cpu0_memmap st) mm stk (heapStartingPageIdx st) (heapSize st) num.

(** [VirtAddr((uint8_t * )((heapStartingPageIdx + numHeapPages) * 4_MB))] *)
Definition heapAddr (st : t) (num : Z) : Z := u32 ((heapStartingPageIdx st + num) * MB 4).

(** The loops; [Some (false, _)] is [return NULL], [None] that the fuel ran out (or, in
    the second, a fault of the stack of mappings). *)
Fixpoint grow (fuel : nat) (st : t) : option (bool * t) :=
  if u32 (numHeapPages st * MB 4) <? heapSize st then
    match fuel with
    | O => None
    | S fuel =>
        match PhysPages.allocPage n (physPages st) true with
        | (None, ph) => Some (false, set_pages st ph (memmap st) (heapPhysicalPages st) (numHeapPages st))
        | (Some physAddr, ph) =>
            let '(ok, mm) := TinyMemMap.add (memmap st) (heapAddr st (numHeapPages st)) (PhysAddr.make physAddr PageFlags) in
            if negb ok then Some (false, set_pages st ph mm (heapPhysicalPages st) (numHeapPages st))
            else grow fuel (set_pages st ph mm (Stack.push HeapPages (heapPhysicalPages st) physAddr)
                              (u16 (numHeapPages st + 1)))
        end
    end
  else Some (true, st).

Fixpoint shrink (fuel : nat) (st : t) : option (bool * t) :=
  if u32 (heapSize st + MB 4) <=? u32 (numHeapPages st * MB 4) then
    match fuel with
    | O => None
    | S fuel =>
        let num := u16 (numHeapPages st - 1) in
        let virtAddr := heapAddr st num in
        let physAddr := translate (cpu0_memmap st) virtAddr in
        let '(p, stk) := Stack.pop 0 (heapPhysicalPages st) in
        let ourPhysAddr := PhysAddr.make p PageFlags in
        if negb (PhysAddr.eqb physAddr ourPhysAddr)
        then Some (false, set_pages st (physPages st) (memmap st) stk num)
        else
          let ph := PhysPages.freePage n (physPages st) (PhysAddr.index physAddr) in
          '(_, mm) ← TinyMemMap.remove (memmap st) virtAddr physAddr;
          shrink fuel (set_pages st ph mm stk num)
    end
  else Some (true, st).

Definition sbrk (fuel : nat) (st : t) (delta : Z) : option (Z * t) :=
  let oldHeapSize := heapSize st in
  if (delta <? 0) && (heapSize st <? u32 (- delta)) then Some (0, st)
  else
    let st := set_heapSize st (u32 (heapSize st + delta)) in
    '(ok, st) ← grow fuel st;
    if negb ok then Some (0, st) else
    '(ok, st) ← shrink fuel st;
    if negb ok then Some (0, st) else
    let '(ok, m) := loadProcessMap (cpu0_memmap st) (memmap st) in
    let st := mk (physPages st) m (memmap st) (heapPhysicalPages st) (heapStartingPageIdx st) (heapSize st) (numHeapPages st) in
    if negb ok then Some (0, st)
    else Some (u32 (heapStartingPageIdx st * MB 4 + oldHeapSize), st).

(** [syssbrk] *)
Definition syssbrk (fuel : nat) (st : t) (incr : Z) : option (Z * t) :=
  '(a, st) ← sbrk fuel st incr; Some (s32 a, st).

(** The heap's part of [~ProcessDesc]. *)
Fixpoint free_all (fuel : nat) (stk : Stack.t Z) (ph : PhysPages.t) : option (Stack.t Z * PhysPages.t) :=
  if Stack.empty stk then Some (stk, ph)
  else match fuel with
       | O => None
       | S fuel => let '(idx, stk) := Stack.pop 0 stk in free_all fuel stk (PhysPages.freePage n ph idx)
       end.
End heap.
#[global] Arguments t : clear implicits.
#[global] Arguments mk {M}.

(** ** Heaps in order *)

Section laws.
Context {M : Type} `{!AddressSpace M} `{!AddressSpaceLaws M} (n : Z) (Hn : 2 <= n <= 2 ^ 12).
Context (limit : Z) (common : Z -> Prop).
Implicit Types st : t M.

Notation ms st := (Stack.contents (TinyMemMap.pdStack (memmap st))).
Notation vidx x := (vidx_of (TinyMemMap.virt x)).
Notation pidx x := (PhysAddr.index (TinyMemMap.phys x)).
Notation is_free := (PhysPages.is_free n).

(** The mapping of heap page [i] to the physical page [p]. *)
Definition heap_mapping st (i p : Z) : TinyMemMap.Mapping :=
  TinyMemMap.mk_mapping (PhysAddr.make p PageFlags) (heapAddr st i).

(** The heap has the physical pages [ps]; its virtual pages start at
    [heapStartingPageIdx] and may reach up to [limit]. *)
Record core st (ps : list Z) : Prop := {
  c_range : 2 <= heapStartingPageIdx st /\ heapStartingPageIdx st + numHeapPages st <= limit <= 1024;
  c_num : numHeapPages st = alen ps;
  c_phys : PhysPages.wf n (physPages st);
  c_stack : Stack.wf HeapPages (heapPhysicalPages st) /\ Stack.contents (heapPhysicalPages st) = ps;
  c_map : TinyMemMapLaws.map_wf (memmap st);
  c_page i p : ps !! i = Some p -> 0 <= p < n /\ heap_mapping st (Z.of_nat i) p ∈ ms st;
  c_busy x : x ∈ ms st -> ~ is_free (physPages st) (pidx x);
  c_room x : x ∈ ms st -> heapStartingPageIdx st + numHeapPages st <= vidx x -> limit <= vidx x;
  c_kernel : ~ is_free (physPages st) 1;
  c_space : as_ok (cpu0_memmap st) common;
  c_apart x : x ∈ ms st -> ~ common (vidx x);
  c_reserved v : heapStartingPageIdx st <= v < limit -> ~ common v }.

(** The processor uses the process's map. *)
Definition loaded st : Prop := forall x, x ∈ ms st -> translate (cpu0_memmap st) (TinyMemMap.virt x) = TinyMemMap.phys x.

(** Between a page boundary and the next. *)
Definition tight st : Prop := heapSize st <= numHeapPages st * MB 4 < heapSize st + MB 4.

(** What [sbrk] leaves alone. *)
Definition same_rest st st' : Prop :=
  heapStartingPageIdx st' = heapStartingPageIdx st /\ heapSize st' = heapSize st /\ cpu0_memmap st' = cpu0_memmap st /\
  forall x, vidx x < heapStartingPageIdx st \/ limit <= vidx x -> x ∈ ms st' <-> x ∈ ms st.

Lemma heap_vidx st i p : 0 <= heapStartingPageIdx st + i < 1024 ->
  vidx (heap_mapping st i p) = heapStartingPageIdx st + i.
Proof.
  intros Hi. cbn [TinyMemMap.virt heap_mapping]. unfold heapAddr.
  change (MB 4) with (2 ^ 22). rewrite <- Z.shiftl_mul_pow2 by lia. by apply vidx_page.
Qed.
Lemma heap_pidx st i p : 0 <= p < n -> pidx (heap_mapping st i p) = p.
Proof. intros Hp. cbn [TinyMemMap.phys heap_mapping]. apply physaddr_index_make; [change (2 ^ PhysIdxLength) with (2 ^ 12); lia|done]. Qed.

Lemma grow_step st ps p ph : core st ps -> heapStartingPageIdx st + numHeapPages st < limit ->
  PhysPages.allocPage n (physPages st) true = (Some p, ph) ->
  exists mm, TinyMemMap.add (memmap st) (heapAddr st (numHeapPages st)) (PhysAddr.make p PageFlags) = (true, mm) /\
    let st' := set_pages st ph mm (Stack.push HeapPages (heapPhysicalPages st) p) (u16 (numHeapPages st + 1)) in
    core st' (ps ++ [p]) /\ same_rest st st' /\ (forall x, x ∈ ms st -> x ∈ ms st').
Proof.
  intros C Hlim E. destruct C as [(R1 & R2 & R3) Num Wp (Ws & Ec) Wm Pg Bs Rm Kn Sp Ap Rs].
  pose proof (PhysPages.allocPage_wf n (physPages st) true Wp) as Wp'.
  pose proof (PhysPages.allocPage_spec n ltac:(lia) (physPages st) true Wp) as Al. rewrite E in Wp', Al. cbn [snd] in Wp'.
  destruct Al as (Hp & Hfr & Hfr'). pose proof (alen_nonneg ps) as Hps.
  set (x := heap_mapping st (numHeapPages st) p).
  assert (Ev : vidx x = heapStartingPageIdx st + numHeapPages st) by (apply heap_vidx; lia).
  assert (Ei : pidx x = p) by by apply heap_pidx.
  destruct (TinyMemMapLaws.tiny_add (memmap st) x Wm) as (mm & Em & Wmm & Emm).
  { split; [rewrite Ev; change PD_NUM_ENTRIES with 1024; lia|]. split; [apply present_make|]. rewrite Ei. by intros ->. }
  { intros y Hy. rewrite Ev, Ei. split.
    - intros Hv. pose proof (Rm y Hy). lia.
    - intros Hq. apply (Bs y Hy). by rewrite Hq. }
  exists mm. split; [exact Em|]. intros st'.
  assert (E16 : u16 (numHeapPages st + 1) = numHeapPages st + 1) by (apply u16_small; lia).
  assert (Hin : forall y, y ∈ ms st' <-> y ∈ ms st \/ y = x).
  { intros y. unfold st'. cbn [memmap set_pages]. rewrite Emm, elem_of_app, list_elem_of_singleton. done. }
  assert (Hs : Stack.idx (heapPhysicalPages st) < HeapPages).
  { rewrite <- (Stack.length_contents HeapPages) by done. rewrite Ec. unfold alen in Num. change HeapPages with 1024. lia. }
  split; [split|split].
  - unfold st'; cbn [heapStartingPageIdx numHeapPages set_pages]. lia.
  - unfold st'; cbn [numHeapPages set_pages]. rewrite E16, alen_app. change (alen [p]) with 1. lia.
  - exact Wp'.
  - unfold st'; cbn [heapPhysicalPages set_pages]. split; [by apply Stack.stack_wf_push|].
    by rewrite Stack.contents_push, decide_True, Ec.
  - exact Wmm.
  - intros i q Hi. change (heap_mapping st' (Z.of_nat i) q) with (heap_mapping st (Z.of_nat i) q). rewrite Hin.
    apply lookup_app_Some in Hi as [Hi|[Hl Hi]].
    + destruct (Pg i q Hi) as [? ?]. tauto.
    + assert (i = length ps /\ q = p) as [-> ->].
      { destruct (i - length ps)%nat as [|k] eqn:Ek; [injection Hi as <-; split; [lia|done]|done]. }
      split; [done|]. right. unfold x. by rewrite Num.
  - intros y [Hy| ->]%Hin; unfold st'; cbn [physPages set_pages]; rewrite Hfr' by apply physaddr_index_range.
    + intros [Hf _]. by apply (Bs y Hy).
    + by intros [_ Hne].
  - intros y [Hy| ->]%Hin; unfold st'; cbn [heapStartingPageIdx numHeapPages set_pages]; rewrite E16.
    + intros Hge. apply Rm; [done|lia].
    + rewrite Ev. lia.
  - unfold st'; cbn [physPages set_pages]. rewrite Hfr' by lia. tauto.
  - exact Sp.
  - intros y [Hy| ->]%Hin; [by apply Ap|]. rewrite Ev. apply Rs. lia.
  - exact Rs.
  - split; [done|]. split; [done|]. split; [done|]. intros y Hy. rewrite Hin. split; [|by left].
    intros [?| ->]; [done|]. rewrite Ev in Hy. lia.
  - intros y Hy. apply Hin. by left.
Qed.

(** [k] pages in a row from the allocator. *)
Fixpoint alloc_n (k : nat) (ph : PhysPages.t) : option (list Z * PhysPages.t) :=
  match k with
  | O => Some ([], ph)
  | S k =>
      match PhysPages.allocPage n ph true with
      | (Some p, ph) => '(ps, ph) ← alloc_n k ph; Some (p :: ps, ph)
      | (None, _) => None
      end
  end.

Lemma alloc_n_free k : forall ph ps ph', PhysPages.wf n ph -> alloc_n k ph = Some (ps, ph') ->
  length ps = k /\ NoDup ps /\ (forall p, p ∈ ps -> 0 <= p < n /\ is_free ph p) /\
  forall q, 0 <= q -> is_free ph' q <-> is_free ph q /\ q ∉ ps.
Proof.
  induction k as [|k IH]; intros ph ps ph' W E; cbn [alloc_n] in E.
  { injection E as <- <-. split; [done|]. split; [constructor|]. split; [by intros p ?%elem_of_nil|].
    intros q _. split; [|tauto]. intros ?. split; [done|apply not_elem_of_nil]. }
  pose proof (PhysPages.allocPage_wf n ph true W) as W1. pose proof (PhysPages.allocPage_spec n ltac:(lia) ph true W) as Al.
  destruct (PhysPages.allocPage n ph true) as [[p|] ph1]; [|done]. cbn [snd] in W1. destruct Al as (Hp & Hf & Hf1).
  destruct (alloc_n k ph1) as [[ps1 ph2]|] eqn:E1; [|done]. cbn in E. injection E as <- <-.
  destruct (IH ph1 ps1 ph2 W1 E1) as (Hl & Nd & Hin & Hf2).
  assert (Hnew : p ∉ ps1) by (intros Hi; destruct (Hin p Hi) as [_ Hq]; apply Hf1 in Hq; [tauto|lia]).
  split; [cbn; lia|]. split; [by apply list.NoDup_cons|]. split.
  - intros q [->|Hq]%elem_of_cons; [done|]. destruct (Hin q Hq) as [Rq Fq]. apply Hf1 in Fq; [tauto|lia].
  - intros q Hq. rewrite Hf2, Hf1, not_elem_of_cons by done. tauto.
Qed.

Lemma same_rest_trans st1 st2 st3 : same_rest st1 st2 -> same_rest st2 st3 -> same_rest st1 st3.
Proof.
  intros (A1 & A2 & A3 & A4) (B1 & B2 & B3 & B4). split; [congruence|]. split; [congruence|]. split; [congruence|].
  intros x Hx. rewrite B4 by (by rewrite A1). by apply A4.
Qed.

Lemma pages_small st ps : core st ps -> 0 <= numHeapPages st <= 1022.
Proof. intros [R Nm _ _ _ _ _ _ _ _ _ _]. pose proof (alen_nonneg ps). lia. Qed.

(** The growing loop takes [k] pages or stops at the first that it does not get. *)
Lemma heap_grow_spec k : forall fuel st ps, core st ps -> (k <= fuel)%nat ->
  heapStartingPageIdx st + numHeapPages st + Z.of_nat k <= limit ->
  heapSize st <= (numHeapPages st + Z.of_nat k) * MB 4 ->
  (k <> O -> (numHeapPages st + Z.of_nat k - 1) * MB 4 < heapSize st) ->
  match alloc_n k (physPages st) with
  | Some (new, ph) => exists st', grow n fuel st = Some (true, st') /\ core st' (ps ++ new) /\ physPages st' = ph /\
      same_rest st st' /\ forall x, x ∈ ms st -> x ∈ ms st'
  | None => exists st', grow n fuel st = Some (false, st') /\ heapSize st' = heapSize st
  end.
Proof.
  induction k as [|k IH]; intros fuel st ps C Hf Hlim Hhi Hlo; pose proof (pages_small st ps C) as Hs; change (MB 4) with 4194304 in *.
  - cbn [alloc_n]. exists st. rewrite app_nil_r. split; [|by split_and!].
    assert (E : u32 (numHeapPages st * MB 4) <? heapSize st = false).
    { change (MB 4) with 4194304. rewrite u32_small by lia. apply Z.ltb_ge. lia. }
    destruct fuel; cbn [grow]; by rewrite E.
  - destruct fuel as [|fuel]; [lia|]. specialize (Hlo ltac:(lia)). cbn [alloc_n grow].
    assert (u32 (numHeapPages st * MB 4) <? heapSize st = true) as ->.
    { change (MB 4) with 4194304. rewrite u32_small by lia. apply Z.ltb_lt. lia. }
    destruct (PhysPages.allocPage n (physPages st) true) as [[p|] ph] eqn:E; [|by eexists].
    destruct (grow_step st ps p ph C ltac:(lia) E) as (mm & -> & C' & Sr & Hin). cbn [negb].
    set (st1 := set_pages _ _ _ _ _) in *.
    assert (N1 : numHeapPages st1 = numHeapPages st + 1) by (unfold st1; cbn [numHeapPages set_pages]; apply u16_small; lia).
    specialize (IH fuel st1 (ps ++ [p]) C' ltac:(lia)). rewrite N1 in IH.
    change (heapStartingPageIdx st1) with (heapStartingPageIdx st) in IH. change (heapSize st1) with (heapSize st) in IH.
    specialize (IH ltac:(lia) ltac:(lia) ltac:(lia)). change (physPages st1) with ph in IH.
    destruct (alloc_n k ph) as [[new ph']|]; cbn [mbind option_bind].
    + destruct IH as (st' & E' & C2 & Ep & Sr2 & Hin2). exists st'. split; [exact E'|]. rewrite <- app_assoc in C2.
      split; [exact C2|]. split; [done|]. split; [by apply (same_rest_trans st st1)|]. auto.
    + destruct IH as (st' & E' & Es). by exists st'.
Qed.

Lemma shrink_step st ps p : core st (ps ++ [p]) -> loaded st ->
  let num := u16 (numHeapPages st - 1) in
  let stk := (Stack.pop 0 (heapPhysicalPages st)).2 in
  translate (cpu0_memmap st) (heapAddr st num) = PhysAddr.make p PageFlags /\ (Stack.pop 0 (heapPhysicalPages st)).1 = p /\
  num = numHeapPages st - 1 /\
  exists mm, TinyMemMap.remove (memmap st) (heapAddr st num) (PhysAddr.make p PageFlags) = Some (true, mm) /\
    let st' := set_pages st (PhysPages.freePage n (physPages st) p) mm stk num in
    core st' ps /\ loaded st' /\ same_rest st st' /\ 0 <= p < n.
Proof.
  intros C L num stk. pose proof (pages_small _ _ C) as Hs. destruct C as [(R1 & R2 & R3) Num Wp (Ws & Ec) Wm Pg Bs Rm Kn Sp Ap Rs].
  rewrite alen_app in Num. change (alen [p]) with 1 in Num. pose proof (alen_nonneg ps) as Hps.
  assert (En : num = numHeapPages st - 1) by (unfold num; apply u16_small; lia).
  destruct (Pg (length ps) p) as [Rp Hx]; [rewrite lookup_app_r, Nat.sub_diag by done; done|].
  replace (Z.of_nat (length ps)) with num in Hx by (unfold alen in Num; lia). set (x := heap_mapping st num p) in *.
  destruct (Stack.pop_contents HeapPages 0 (heapPhysicalPages st) ps p Ws Ec) as (E1 & E2 & E3).
  split; [exact (L x Hx)|]. split; [done|]. split; [done|].
  assert (Ev : vidx x = heapStartingPageIdx st + num) by (apply heap_vidx; lia).
  assert (Ei : pidx x = p) by by apply heap_pidx.
  destruct (TinyMemMapLaws.tiny_remove (memmap st) x Wm Hx) as (mm & Em & Wmm & Hin).
  exists mm. split; [exact Em|]. intros st'. pose proof (fun q => PhysPages.freePage_spec n ltac:(lia) (physPages st) p q) as Fr.
  assert (Np : forall y, y ∈ ms st -> y <> x -> pidx y <> p).
  { intros y Hy Hne Hq. apply Hne. pose proof (TinyMemMapLaws.mw_phys _ Wm) as Nd.
    apply list_elem_of_lookup in Hy as [i Hi]. apply list_elem_of_lookup in Hx as [j Hj].
    assert (i = j) as ->; [|congruence]. apply (NoDup_lookup _ _ _ p Nd); rewrite list_lookup_fmap;
      [rewrite Hi; exact (f_equal Some Hq)|rewrite Hj; exact (f_equal Some Ei)]. }
  split; [split|split; [|split; [|done]]].
  - unfold st'; cbn [heapStartingPageIdx numHeapPages set_pages]. lia.
  - unfold st'; cbn [numHeapPages set_pages]. lia.
  - apply PhysPages.freePage_wf; [done|lia].
  - done.
  - exact Wmm.
  - intros i q Hi. change (heap_mapping st' (Z.of_nat i) q) with (heap_mapping st (Z.of_nat i) q).
    destruct (Pg i q) as [Rq Hq]; [by apply lookup_app_l_Some|]. split; [done|]. apply Hin. split; [done|].
    intros Ex. apply (f_equal (fun y => vidx y)) in Ex. pose proof (lookup_lt_Some _ _ _ Hi). unfold alen in Num.
    rewrite Ev, heap_vidx in Ex by lia. lia.
  - intros y [Hy Hne]%Hin. unfold st'; cbn [physPages set_pages].
    rewrite Fr by (done || lia || apply physaddr_index_range). intros [Hf|[Hf _]]; [by apply (Bs y Hy)|by apply (Np y Hy Hne)].
  - intros y [Hy Hne]%Hin. unfold st'; cbn [heapStartingPageIdx numHeapPages set_pages]. intros Hge.
    destruct (decide (vidx y = heapStartingPageIdx st + num)) as [Hv|Hv]; [|apply Rm; [done|lia]].
    exfalso. apply Hne. pose proof (TinyMemMapLaws.mw_virt _ Wm) as Nd.
    apply list_elem_of_lookup in Hy as [i Hi]. apply list_elem_of_lookup in Hx as [j Hj].
    assert (i = j) as ->; [|congruence].
    apply (NoDup_lookup _ _ _ (vidx y) Nd); rewrite list_lookup_fmap;
      [by rewrite Hi|rewrite Hj; exact (f_equal Some (eq_trans Ev (eq_sym Hv)))].
  - unfold st'; cbn [physPages set_pages]. rewrite Fr by (done || lia). intros [Hf|[Hf _]]; [done|].
    pose proof (TinyMemMapLaws.mw_ok _ Wm) as Ok. rewrite list.Forall_forall in Ok. destruct (Ok x Hx) as (_ & _ & Hk). congruence.
  - exact Sp.
  - intros y [Hy _]%Hin. by apply Ap.
  - exact Rs.
  - intros y [Hy _]%Hin. by apply L.
  - split; [done|]. split; [done|]. split; [done|]. intros y Hy. split; [intros [? _]%Hin; done|]. intros Hm. apply Hin. split; [done|].
    intros ->. rewrite Ev in Hy. lia.
Qed.

(** The shrinking loop gives back the last pages. *)
Lemma heap_shrink_spec gone : forall fuel st ps, core st (ps ++ gone) -> loaded st -> (length gone <= fuel)%nat ->
  0 <= heapSize st <= 1022 * MB 4 -> alen ps * MB 4 < heapSize st + MB 4 ->
  (gone <> [] -> heapSize st <= alen ps * MB 4) ->
  exists st', shrink n fuel st = Some (true, st') /\ core st' ps /\ loaded st' /\ same_rest st st' /\
    forall q, 0 <= q -> is_free (physPages st') q <-> is_free (physPages st) q \/ q ∈ gone.
Proof.
  induction gone as [|p gone IH] using rev_ind; intros fuel st ps C L Hf Hsz Hlo Hhi;
    pose proof (pages_small st _ C) as Hs; pose proof (c_num _ _ C) as Num; rewrite alen_app in Num; change (MB 4) with 4194304 in *.
  - change (alen []) with 0 in Num. rewrite app_nil_r in C. exists st.
    assert (E : u32 (heapSize st + MB 4) <=? u32 (numHeapPages st * MB 4) = false).
    { change (MB 4) with 4194304. rewrite !u32_small by lia. apply Z.leb_gt. lia. }
    split; [destruct fuel; cbn [shrink]; by rewrite E|]. split_and!; try done. intros q _. split; [tauto|].
    intros [?|?%elem_of_nil]; done.
  - rewrite length_app in Hf. cbn [length] in Hf. destruct fuel as [|fuel]; [lia|]. rewrite alen_app in Num. change (alen [p]) with 1 in Num.
    pose proof (alen_nonneg gone). assert (Hne : gone ++ [p] <> []) by by destruct gone. specialize (Hhi Hne). cbn [shrink].
    assert (u32 (heapSize st + MB 4) <=? u32 (numHeapPages st * MB 4) = true) as ->.
    { change (MB 4) with 4194304. rewrite !u32_small by lia. apply Z.leb_le. lia. }
    rewrite app_assoc in C. destruct (shrink_step st (ps ++ gone) p C L) as (Et & Ep & En & mm & Em & C' & L' & Sr & Rp).
    cbv zeta. rewrite Et. destruct (Stack.pop 0 (heapPhysicalPages st)) as [p0 stk]. cbn [fst snd] in Ep, C', L', Sr. subst p0.
    rewrite TinyMemMapLaws.eqb_refl. cbn [negb]. rewrite physaddr_index_make by (done || (change (2 ^ PhysIdxLength) with (2 ^ 12); lia)).
    rewrite Em. cbn [mbind option_bind]. set (st1 := set_pages _ _ _ _ _) in *.
    destruct (IH fuel st1 ps C' L') as (st' & E' & C2 & L2 & Sr2 & Fr2); [lia|exact Hsz|exact Hlo|by intros _|].
    exists st'. split; [exact E'|]. split; [done|]. split; [done|]. split; [by apply (same_rest_trans st st1)|].
    intros q Hq. rewrite Fr2 by done. unfold st1; cbn [physPages set_pages].
    rewrite (PhysPages.freePage_spec n ltac:(lia)) by (apply (c_phys _ _ C) || lia). rewrite elem_of_app, list_elem_of_singleton.
    split; [intros [[?|[-> _]]|?]; tauto|]. intros [?|[?| ->]]; [tauto|tauto|]. left. right. split; [done|lia].
Qed.

Lemma core_nodup st ps : core st ps -> NoDup ps /\ forall p, p ∈ ps -> 0 <= p < n /\ ~ is_free (physPages st) p.
Proof.
  intros C. pose proof (pages_small _ _ C) as Hs. destruct C as [(R1 & R2 & R3) Num _ _ Wm Pg Bs _ _ _ _ _]. split.
  - apply NoDup_alt. intros i j p Hi Hj. destruct (Pg i p Hi) as [Rp Mi], (Pg j p Hj) as [_ Mj].
    pose proof (lookup_lt_Some _ _ _ Hi). pose proof (lookup_lt_Some _ _ _ Hj). unfold alen in Num.
    apply list_elem_of_lookup in Mi as [a Ha]. apply list_elem_of_lookup in Mj as [b Hb].
    assert (a = b) as ->.
    { apply (NoDup_lookup _ _ _ p (TinyMemMapLaws.mw_phys _ Wm)); rewrite list_lookup_fmap.
      - rewrite Ha. exact (f_equal Some (heap_pidx st _ p Rp)).
      - rewrite Hb. exact (f_equal Some (heap_pidx st _ p Rp)). }
    rewrite Ha in Hb. injection Hb as Hb. apply (f_equal vidx_of) in Hb.
    change (vidx (heap_mapping st (Z.of_nat i) p) = vidx (heap_mapping st (Z.of_nat j) p)) in Hb.
    rewrite !heap_vidx in Hb by lia. lia.
  - intros p (i & Hi)%list_elem_of_lookup. destruct (Pg i p Hi) as [Rp Mi]. split; [done|].
    rewrite <- (heap_pidx st (Z.of_nat i) p Rp). by apply Bs.
Qed.

(** A heap in order, of the process that runs. *)
Record wf st (ps : list Z) : Prop := {
  w_core : core st ps;
  w_loaded : loaded st;
  w_size : 0 <= heapSize st;
  w_tight : tight st }.

Definition pages_of (size : Z) : Z := (size + MB 4 - 1) / MB 4.

Lemma pages_of_bounds size : 0 <= size -> size <= pages_of size * MB 4 < size + MB 4 /\ 0 <= pages_of size.
Proof. unfold pages_of. change (MB 4) with 4194304. intros. Z.div_mod_to_equations. lia. Qed.

(** The end of [sbrk]: the map is loaded. *)
Definition reload st (m : M) : t M :=
  mk (physPages st) m (memmap st) (heapPhysicalPages st) (heapStartingPageIdx st) (heapSize st) (numHeapPages st).

Lemma reload_spec st ps : core st ps ->
  exists m, loadProcessMap (cpu0_memmap st) (memmap st) = (true, m) /\ core (reload st m) ps /\ loaded (reload st m).
Proof.
  intros [R Nm Wp Ws Wm Pg Bs Rm Kn Sp Ap Rs]. destruct (as_load _ common (memmap st) Sp Wm Ap) as (m & E & Ok & Tr).
  exists m. split; [done|]. split; [|exact Tr]. by split.
Qed.

Lemma sbrk_eq fuel st delta : 0 <= heapSize st -> - 2 ^ 31 <= delta < 2 ^ 31 ->
  0 <= heapSize st + delta < 2 ^ 32 ->
  sbrk n fuel st delta =
    '(ok, st1) ← grow n fuel (set_heapSize st (heapSize st + delta));
    if negb ok then Some (0, st1) else
    '(ok, st1) ← shrink n fuel st1;
    if negb ok then Some (0, st1) else
    let '(ok, m) := loadProcessMap (cpu0_memmap st1) (memmap st1) in
    if negb ok then Some (0, reload st1 m) else Some (u32 (heapStartingPageIdx (reload st1 m) * MB 4 + heapSize st), reload st1 m).
Proof.
  intros H0 Hd Hs. unfold sbrk. cbv zeta. rewrite (u32_small (heapSize st + delta)) by lia.
  assert ((delta <? 0) && (heapSize st <? u32 (- delta)) = false) as ->; [|done].
  destruct (Z.ltb_spec delta 0); [|done]. rewrite u32_small by lia. apply Z.ltb_ge. lia.
Qed.

(** The state after a break has moved: [ps'] are the pages of the heap. *)
Definition moved st (ps : list Z) (size : Z) st' (ps' : list Z) : Prop :=
  heapSize st' = size /\ wf st' ps' /\ alen ps' = pages_of size /\
  (forall i p, ps' !! i = Some p ->
     translate (cpu0_memmap st') (u32 ((heapStartingPageIdx st + Z.of_nat i) * MB 4)) = PhysAddr.make p PageFlags) /\
  (forall q, 0 <= q -> is_free (physPages st') q <-> (is_free (physPages st) q \/ q ∈ ps) /\ q ∉ ps') /\
  (forall x, vidx x < heapStartingPageIdx st \/ limit <= vidx x -> x ∈ ms st' <-> x ∈ ms st).

(** Once the pages are there, loading the map completes the move. *)
Lemma sbrk_finish st ps size st2 ps' : 0 <= size -> core st2 ps' -> same_rest (set_heapSize st size) st2 ->
  alen ps' = pages_of size ->
  (forall q, 0 <= q -> is_free (physPages st2) q <-> (is_free (physPages st) q \/ q ∈ ps) /\ q ∉ ps') ->
  exists st', (let '(ok, m) := loadProcessMap (cpu0_memmap st2) (memmap st2) in
      if negb ok then Some (0, reload st2 m)
      else Some (u32 (heapStartingPageIdx (reload st2 m) * MB 4 + heapSize st), reload st2 m)) =
      Some (u32 (heapStartingPageIdx st * MB 4 + heapSize st), st') /\ moved st ps size st' ps'.
Proof.
  intros Hs C2 (A1 & A2 & A3 & A4) Hlen Hfree. destruct (reload_spec st2 ps' C2) as (m & -> & C3 & L3). cbn [negb].
  cbn [heapStartingPageIdx heapSize set_heapSize] in A1, A2.
  destruct (pages_of_bounds size Hs) as [[K1 K2] K3].
  exists (reload st2 m). split; [by cbn [heapStartingPageIdx reload]; rewrite A1|]. split; [exact A2|].
  split; [|split; [done|split; [|split; [exact Hfree|exact A4]]]].
  - split; [done|done|cbn [heapSize reload]; lia|]. unfold tight. cbn [heapSize numHeapPages reload].
    pose proof (c_num _ _ C2) as N2. rewrite A2, N2, Hlen. lia.
  - intros i p Hi. destruct (c_page _ _ C3 i p Hi) as [_ Hm]. pose proof (L3 _ Hm) as Tr. cbn [TinyMemMap.virt TinyMemMap.phys heap_mapping] in Tr.
    unfold heapAddr in Tr. cbn [heapStartingPageIdx reload] in Tr. by rewrite A1 in Tr.
Qed.

(** The loops do nothing when the pages fit already. *)
Lemma shrink_stays fuel st : 0 <= heapSize st + MB 4 < 2 ^ 32 -> 0 <= numHeapPages st * MB 4 < 2 ^ 32 ->
  numHeapPages st * MB 4 < heapSize st + MB 4 -> shrink n fuel st = Some (true, st).
Proof.
  intros H1 H2 H3. assert (E : u32 (heapSize st + MB 4) <=? u32 (numHeapPages st * MB 4) = false)
    by (rewrite !u32_small by done; apply Z.leb_gt; lia).
  destruct fuel; cbn [shrink]; by rewrite E.
Qed.
Lemma grow_stays fuel st : 0 <= numHeapPages st * MB 4 < 2 ^ 32 -> heapSize st <= numHeapPages st * MB 4 ->
  grow n fuel st = Some (true, st).
Proof.
  intros H2 H3. assert (E : u32 (numHeapPages st * MB 4) <? heapSize st = false)
    by (rewrite u32_small by done; apply Z.ltb_ge; lia).
  destruct fuel; cbn [grow]; by rewrite E.
Qed.

(** ** The break *)

(** C36: On a heap in order, when the new size lies within the room for it (from 0 to the pages
    between the start of the heap and [limit]), [sbrk] moves the break by [delta] and
    returns where it was. Afterwards the heap is in order again with as many pages as the
    new size takes: the ones it had, less the last or followed by pages that were free.
    Every heap page is translated to its physical page with the flags 6, PG_WRITABLE (2)
    and PG_USER (4); exactly the pages given back became free; and the other mappings of
    the process are as before. If the allocator does not have the pages, the result
    is 0. *)
Theorem sbrk_moves_break fuel st ps delta :
  wf st ps -> - 2 ^ 31 <= delta < 2 ^ 31 ->
  0 <= heapSize st + delta <= (limit - heapStartingPageIdx st) * MB 4 -> (1024 <= fuel)%nat ->
  let size := heapSize st + delta in
  let k := pages_of size in
  match alloc_n (Z.to_nat (k - alen ps)) (physPages st) with
  | None => exists st', sbrk n fuel st delta = Some (0, st') /\ heapSize st' = size
  | Some (new, _) =>
      let ps' := take (Z.to_nat k) ps ++ new in
      exists st', sbrk n fuel st delta = Some (u32 (heapStartingPageIdx st * MB 4 + heapSize st), st') /\
        heapSize st' = size /\ wf st' ps' /\ alen ps' = k /\
        (forall i p, ps' !! i = Some p ->
           translate (cpu0_memmap st') (u32 ((heapStartingPageIdx st + Z.of_nat i) * MB 4)) = PhysAddr.make p 6) /\
        (forall q, 0 <= q -> is_free (physPages st') q <-> (is_free (physPages st) q \/ q ∈ ps) /\ q ∉ ps') /\
        (forall x, vidx x < heapStartingPageIdx st \/ limit <= vidx x -> x ∈ ms st' <-> x ∈ ms st)
  end.
Proof.
  intros [C L S0 [Ti1 Ti2]] Hd Hsz Hf size k. pose proof (pages_small _ _ C) as Hs. pose proof (c_range _ _ C) as (R1 & R2 & R3).
  pose proof (c_num _ _ C) as Num. destruct (pages_of_bounds size ltac:(lia)) as [[K1 K2] K3]. fold k in K1, K2, K3.
  assert (Hk : k <= limit - heapStartingPageIdx st) by (fold size in Hsz; change (MB 4) with 4194304 in *; lia).
  set (st0 := set_heapSize st size).
  assert (C0 : core st0 ps) by (destruct C; by split).
  rewrite (sbrk_eq fuel st) by (change (MB 4) with 4194304 in *; lia). fold size st0.
  destruct (core_nodup st ps C) as [Nps Bps].
  destruct (decide (alen ps <= k)) as [Hge|Hlt].
  - (* more pages *)
    pose proof (heap_grow_spec (Z.to_nat (k - alen ps)) fuel st0 ps C0) as G. cbn [heapSize numHeapPages heapStartingPageIdx physPages st0 set_heapSize] in G.
    rewrite Num, Z2Nat.id in G by lia. replace (alen ps + (k - alen ps)) with k in G by lia.
    specialize (G ltac:(lia) ltac:(lia) ltac:(lia) ltac:(change (MB 4) with 4194304 in *; lia)).
    destruct (alloc_n (Z.to_nat (k - alen ps)) (physPages st)) as [[new ph]|] eqn:E.
    2: { destruct G as (st' & -> & Es). cbn [mbind option_bind negb]. by exists st'. }
    destruct G as (st1 & -> & C1 & Ep & Sr & _). cbn [mbind option_bind negb].
    destruct (alloc_n_free _ _ _ _ (c_phys _ _ C) E) as (Hl & Nd & Hin & Hfr).
    rewrite (take_ge ps) by (unfold alen in Hge; lia).
    assert (Hlen : alen (ps ++ new) = k) by (rewrite alen_app; unfold alen in *; lia).
    pose proof (c_num _ _ C1) as N1. pose proof Sr as (_ & S2 & _). cbn [heapSize st0 set_heapSize] in S2.
    rewrite shrink_stays by (rewrite ?S2, ?N1, ?Hlen; change (MB 4) with 4194304 in *; lia).
    cbn [mbind option_bind negb]. apply sbrk_finish; [lia|done|done|done|]. intros q Hq. rewrite Ep, Hfr, not_elem_of_app by done.
    split; [|tauto]. intros [Hq1 Hq2]. split; [tauto|]. split; [|done]. intros Hp. by apply (Bps q Hp).
  - (* fewer pages *)
    replace (Z.to_nat (k - alen ps)) with O by lia. cbn [alloc_n]. rewrite app_nil_r.
    rewrite (grow_stays fuel st0) by (cbn [heapSize numHeapPages st0 set_heapSize]; change (MB 4) with 4194304 in *; lia).
    cbn [mbind option_bind negb].
    assert (Hlen : alen (take (Z.to_nat k) ps) = k) by (unfold alen in *; rewrite length_take; lia).
    destruct (heap_shrink_spec (drop (Z.to_nat k) ps) fuel st0 (take (Z.to_nat k) ps)) as (st2 & -> & C2 & L2 & Sr & Fr);
      [by rewrite take_drop|exact L|rewrite length_drop; unfold alen in *; lia| |rewrite Hlen; exact K2|intros _; rewrite Hlen; exact K1|].
    + cbn [heapSize st0 set_heapSize]. change (MB 4) with 4194304 in *. lia.
    + cbn [mbind option_bind negb]. apply sbrk_finish; [lia|done|done|done|]. intros q Hq. rewrite Fr by done.
      change (physPages st0) with (physPages st). rewrite <- (take_drop (Z.to_nat k) ps) in Nps, Bps.
      rewrite <- (take_drop (Z.to_nat k) ps) at 2. apply list.NoDup_app in Nps as (_ & Nd & _). rewrite elem_of_app. split.
      * intros [Hq1|Hq1]; (split; [tauto|]); intros Hq2; [|by apply (Nd q)].
        apply (Bps q); [|done]. apply elem_of_app. by left.
      * tauto.
Qed.

(** A break below the start of the heap is refused and nothing changes. *)
Lemma sbrk_below_start fuel st delta : - 2 ^ 31 <= delta < 0 -> 0 <= heapSize st < - delta ->
  sbrk n fuel st delta = Some (0, st).
Proof.
  intros Hd Hs. unfold sbrk. cbv zeta. rewrite (proj2 (Z.ltb_lt delta 0)) by lia. rewrite u32_small by lia.
  by rewrite (proj2 (Z.ltb_lt _ _)) by lia.
Qed.

(** After a refused request the size stays where it was asked to be: asking for the
    present break is refused as well, as long as there is no page. *)
Lemma refused_sbrk_stays_refused fuel st ph : 0 <= heapSize st < 2 ^ 32 -> u32 (numHeapPages st * MB 4) < heapSize st ->
  PhysPages.allocPage n (physPages st) true = (None, ph) ->
  exists st', sbrk n (S fuel) st 0 = Some (0, st') /\ heapSize st' = heapSize st.
Proof.
  intros H0 Hlt Ha. unfold sbrk. cbv zeta. change (0 <? 0) with false. cbn [andb]. rewrite Z.add_0_r, u32_small by done.
  cbn [grow]. change (numHeapPages (set_heapSize st (heapSize st))) with (numHeapPages st).
  change (heapSize (set_heapSize st (heapSize st))) with (heapSize st). rewrite (proj2 (Z.ltb_lt _ _) Hlt).
  change (physPages (set_heapSize st (heapSize st))) with (physPages st). rewrite Ha. by eexists.
Qed.

(** The end of the process gives all heap pages back. *)
Lemma free_all_spec ps : forall fuel stk ph, Stack.wf HeapPages stk -> Stack.contents stk = ps -> PhysPages.wf n ph ->
  Forall (fun p => 0 <= p < n) ps -> (length ps <= fuel)%nat ->
  exists stk' ph', free_all n fuel stk ph = Some (stk', ph') /\ Stack.contents stk' = [] /\ PhysPages.wf n ph' /\
    forall q, 0 <= q -> is_free ph' q <-> is_free ph q \/ q ∈ ps.
Proof.
  induction ps as [|p ps IH] using rev_ind; intros fuel stk ph Ws Ec Wp Fp Hf.
  - exists stk, ph. assert (Stack.empty stk = true) as E by (rewrite (Stack.empty_spec HeapPages), Ec by done; done).
    split; [destruct fuel; cbn [free_all]; by rewrite E|]. split_and!; try done. intros q _. split; [tauto|].
    intros [?|?%elem_of_nil]; done.
  - rewrite length_app in Hf. cbn [length] in Hf. destruct fuel as [|fuel]; [lia|]. cbn [free_all].
    assert (Stack.empty stk = false) as ->.
    { rewrite (Stack.empty_spec HeapPages), Ec by done. apply bool_decide_eq_false. by destruct ps. }
    destruct (Stack.pop_contents HeapPages 0 stk ps p Ws Ec) as (E1 & E2 & E3).
    destruct (Stack.pop 0 stk) as [p0 stk1]. cbn [fst snd] in *. subst p0. apply list.Forall_app in Fp as [Fp Hp].
    apply list.Forall_cons in Hp as [Hp _].
    destruct (IH fuel stk1 (PhysPages.freePage n ph p) E3 E2) as (stk' & ph' & E & Ec' & Wp' & Fr);
      [apply PhysPages.freePage_wf; [done|lia]|done|lia|].
    exists stk', ph'. split; [exact E|]. split; [done|]. split; [done|]. intros q Hq. rewrite Fr by done.
    rewrite (PhysPages.freePage_spec n ltac:(lia)) by (done || lia). rewrite elem_of_app, list_elem_of_singleton.
    split; [intros [[?|[-> _]]|?]; tauto|]. intros [?|[?| ->]]; [tauto|tauto|]. left. right. split; [done|lia].
Qed.
End laws.

End Heap.

(** ** The map manager is an address space *)

Module HeapManager.

Definition manager_ok (s : Manager.t) (common : Z -> Prop) : Prop :=
  Manager.bIsStarted s = true /\ (forall i, MemMap.wf (Manager.spare s i)) /\ MemMap.wf (Manager.commonMemMap s) /\
  forall v, 2 <= v < PD_NUM_ENTRIES -> present (aget (MemMap.virt2phys (Manager.commonMemMap s)) v) = true -> common v.

Lemma manager_load s common map : manager_ok s common -> TinyMemMapLaws.map_wf map ->
  (forall x, x ∈ Stack.contents (TinyMemMap.pdStack map) -> ~ common (vidx_of (TinyMemMap.virt x))) ->
  exists s', Manager.switchMap s map = (true, s') /\ manager_ok s' common /\
    forall x, x ∈ Stack.contents (TinyMemMap.pdStack map) -> Manager.translate_virt s' (TinyMemMap.virt x) = TinyMemMap.phys x.
Proof.
  intros (St & Wsp & Wc & Hc) [_ _ Ok Nv Np _] Hap.
  destruct (ManagerLaws.load_built s map St (Wsp _) Ok Nv Np) as (m & E & _ & Wm & B & _).
  { intros x Hx. apply not_true_iff_false. intros Hp. rewrite list.Forall_forall in Ok.
    apply (Hap x Hx), Hc; [apply (Ok x Hx)|done]. }
  specialize (Wm Wc). set (i := negb (Manager.loadedMap s)) in *. eexists. split; [exact E|]. split.
  - split; [by destruct s, i|]. split; [|split; [by destruct s, i|]].
    + intros j. assert (Wr : MemMap.wf (MemMap.resetVPage0And1 m)) by by apply MemMapLaws.memmap_wf_reset.
      specialize (Wsp j). destruct s, i, j; cbn in *; done.
    + intros v. assert (Ec : forall s0, Manager.commonMemMap (Manager.set_loaded (Manager.loadToCR3 s0 i) i) = Manager.commonMemMap s0).
      { intros s0. by destruct s0, i. }
      rewrite Ec, ManagerLaws.common_set_spare. apply Hc.
  - intros x Hx. rewrite <- (B x Hx). unfold Manager.translate_virt, MemMap.translate_virt. by destruct s, i.
Qed.

(** Entry 0 of the directory is of no concern. *)
Lemma manager_ok_write s common e : manager_ok s common -> manager_ok (Manager.write_cr3 s 0 e) common.
Proof.
  intros (St & Wsp & Wc & Hc). destruct s as [s0 s1 l b c d cr]. unfold manager_ok, Manager.write_cr3 in *. cbn in *.
  destruct cr as [|i]; [by split_and!|].
  assert (W : forall m, MemMap.wf m -> MemMap.wf (MemMap.mk (MemMap.phys2virt m) (aset (MemMap.virt2phys m) 0 e))).
  { intros m [W1 W2 W3]. split; cbn; [done|by rewrite alen_aset|done]. }
  destruct i; cbn; (split; [done|]); (split; [|by split]); intros [].
  - apply W, (Wsp true).
  - apply (Wsp false).
  - apply (Wsp true).
  - apply W, (Wsp false).
Qed.
Lemma translate_write s a e : 1 <= vidx_of a -> Manager.translate_virt (Manager.write_cr3 s 0 e) a = Manager.translate_virt s a.
Proof.
  intros Ha. unfold Manager.translate_virt, MemMap.translate_virt. change (Z.shiftr a 22) with (vidx_of a).
  destruct s as [s0 s1 [] b c d [|[]]]; cbn; try done; by rewrite aget_aset_ne by lia.
Qed.

(** The process is given by its terminal and its [pcb]. *)
Section space.
Variables (table_addr : Z) (up : bool) (currTerm : option Vidmap.painter) (pcb : Z).

Definition process_space : AddressSpace Vidmap.t := {|
  translate s := Manager.translate_virt (Vidmap.maps s);
  loadProcessMap s map := Vidmap.loadProcessMap table_addr up map currTerm pcb s |}.
Definition space_ok (s : Vidmap.t) (common : Z -> Prop) : Prop := manager_ok (Vidmap.maps s) common.

Lemma space_load s common map : space_ok s common -> TinyMemMapLaws.map_wf map ->
  (forall x, x ∈ Stack.contents (TinyMemMap.pdStack map) -> ~ common (vidx_of (TinyMemMap.virt x))) ->
  exists s', Vidmap.loadProcessMap table_addr up map currTerm pcb s = (true, s') /\ space_ok s' common /\
    forall x, x ∈ Stack.contents (TinyMemMap.pdStack map) ->
      Manager.translate_virt (Vidmap.maps s') (TinyMemMap.virt x) = TinyMemMap.phys x.
Proof.
  intros Hs Hm Hap. destruct (manager_load _ common map Hs Hm Hap) as (m & E & Ok & Tr).
  unfold Vidmap.loadProcessMap. rewrite E. cbn [negb]. set (s0 := Vidmap.mk m _). eexists. split; [reflexivity|].
  assert (Hw : forall e, manager_ok (Manager.write_cr3 m 0 e) common /\
    forall x, x ∈ Stack.contents (TinyMemMap.pdStack map) ->
      Manager.translate_virt (Manager.write_cr3 m 0 e) (TinyMemMap.virt x) = TinyMemMap.phys x).
  { intros e. split; [by apply manager_ok_write|]. intros x Hx. rewrite translate_write; [by apply Tr|].
    pose proof (TinyMemMapLaws.mw_ok _ Hm) as Hok. rewrite list.Forall_forall in Hok. destruct (Hok x Hx) as ([? _] & _).
    etrans; [|eassumption]. done. }
  destruct currTerm as [p|]; [|done].
  destruct (Vidmap.tryMap_cases table_addr up p pcb s0) as [[_ ->]|[[_ ->]|[_ ->]]]; [done|apply Hw|apply Hw].
Qed.

Definition process_space_laws : @AddressSpaceLaws Vidmap.t process_space :=
  @Build_AddressSpaceLaws Vidmap.t process_space space_ok space_load.
End space.

(** A process with one code page on a machine with three free pages. *)
Definition demo_map : TinyMemMap.t := (TinyMemMap.add TinyMemMap.init 0x8000000 (PhysAddr.make 9 PG_WRITABLE)).2.
Definition demo_phys : PhysPages.t :=
  foldl (PhysPages.freePage PhysPages.physPages_n) (PhysPages.init PhysPages.physPages_n) [20; 21; 22].
Definition demo_common (v : Z) : Prop := False.
Definition demo_manager : Manager.t := Manager.start (Manager.init (replicate (Z.to_nat PD_NUM_ENTRIES) 0)).

Lemma demo_contents : Stack.contents (TinyMemMap.pdStack demo_map) = [TinyMemMap.mk_mapping (PhysAddr.make 9 PG_WRITABLE) 0x8000000].
Proof. vm_compute. reflexivity. Qed.

Lemma demo_map_wf : TinyMemMapLaws.map_wf demo_map.
Proof.
  split; rewrite ?demo_contents.
  - vm_compute. split; [done|split; intros [=]].
  - change (TinyMemMap.isVirtAddrUsed demo_map) with (BitSet.set TinyMemMap.Num (BitSet.init TinyMemMap.Num) 32).
    by apply BitSet.bs_wf_set, BitSet.bs_wf_init.
  - constructor; [|constructor]. split; [vm_compute; split; [intros [=]|done]|]. split; [done|]. intros [=].
  - apply list.NoDup_singleton.
  - apply list.NoDup_singleton.
  - intros v Hv. change (TinyMemMap.isVirtAddrUsed demo_map) with (BitSet.set TinyMemMap.Num (BitSet.init TinyMemMap.Num) 32).
    rewrite BitSet.test_set, BitSet.test_init, orb_false_r; [|done..|by apply BitSet.bs_wf_init|done|done].
    change (32 <? TinyMemMap.Num) with true. rewrite andb_true_r, bool_decide_eq_true. setoid_rewrite list_elem_of_singleton. split.
    + intros <-. by eexists.
    + intros (x & -> & <-). reflexivity.
Qed.

Lemma demo_manager_ok : manager_ok demo_manager demo_common.
Proof.
  pose proof (MemMap.inv_wf _ MemMapLaws.memmap_inv_init) as Wi.
  assert (Wz : MemMap.wf (MemMap.mk (replicate (Z.to_nat (2 ^ PhysIdxLength)) 0) (replicate (Z.to_nat PD_NUM_ENTRIES) 0))).
  { split; [done..|]. intros p Hp. cbn [MemMap.phys2virt]. rewrite aget_replicate; [done|]. by rewrite Z2Nat.id. }
  split; [done|]. split; [|split; [exact Wi|]].
  - intros []; [exact Wi|]. by apply MemMapLaws.memmap_wf_reset.
  - intros v Hv Hp. change (Manager.commonMemMap demo_manager) with MemMap.init in Hp. unfold MemMap.init in Hp.
    by rewrite (proj1 (ManagerLaws.clear_lookup _ Wz) v Hv) in Hp.
Qed.

(** The process, which owns the window of its terminal, has just been loaded; its heap may
    grow up to page 700. *)
#[local] Instance demo_space : AddressSpace Vidmap.t := process_space 0x500000 true (Some Vidmap.demo_painter) 7.
#[local] Instance demo_space_laws : AddressSpaceLaws Vidmap.t := process_space_laws 0x500000 true (Some Vidmap.demo_painter) 7.
Definition demo_space_state : Vidmap.t := Vidmap.mk demo_manager Vidmap.init_table.

Lemma sbrk_moves_break_witness :
  exists m new st', let st := Heap.mk demo_phys m demo_map (Stack.init Heap.HeapPages 0) 34 0 0 in
    Heap.wf PhysPages.physPages_n 700 demo_common st [] /\
    Heap.sbrk PhysPages.physPages_n 1024 st 5000000 = Some (142606336, st') /\
    Heap.wf PhysPages.physPages_n 700 demo_common st' new /\ new = [22; 21] /\
    Manager.translate_virt (Vidmap.maps (Heap.cpu0_memmap st')) (u32 (35 * MB 4)) = PhysAddr.make 21 6.
Proof.
  destruct (space_load 0x500000 true (Some Vidmap.demo_painter) 7 demo_space_state demo_common demo_map demo_manager_ok demo_map_wf) as (m & _ & Ok & Tr); [by intros x _ []|].
  assert (W : Heap.wf PhysPages.physPages_n 700 demo_common
    (Heap.mk demo_phys m demo_map (Stack.init Heap.HeapPages 0) 34 0 0) []).
  { split; [|exact Tr|reflexivity|split; [intros [=]|reflexivity]]. split.
    - cbn. lia.
    - done.
    - unfold demo_phys. cbn [foldl]. repeat (apply PhysPages.freePage_wf; [|lia]). by apply PhysPages.phys_wf_init.
    - split; [by apply Stack.stack_wf_init|done].
    - exact demo_map_wf.
    - intros i p Hi. done.
    - intros x Hx. cbn [Heap.memmap] in Hx. rewrite demo_contents in Hx. apply list_elem_of_singleton in Hx as ->. vm_compute. intros [=].
    - intros x Hx. cbn [Heap.memmap] in Hx. rewrite demo_contents in Hx. apply list_elem_of_singleton in Hx as ->.
      change (34 + 0 <= 32 -> 700 <= 32). lia.
    - vm_compute. intros [=].
    - exact Ok.
    - by intros x _ [].
    - by intros v _ []. }
  pose proof (Heap.sbrk_moves_break PhysPages.physPages_n ltac:(vm_compute; split; intros [=]) 700 demo_common 1024
    (Heap.mk demo_phys m demo_map (Stack.init Heap.HeapPages 0) 34 0 0) [] 5000000 W) as H.
  cbv zeta in H. cbn [Heap.heapSize Heap.heapStartingPageIdx Heap.physPages] in H.
  change (Heap.pages_of (0 + 5000000)) with 2 in H. change (alen (@nil Z)) with 0 in H. change (Z.to_nat (2 - 0)) with 2%nat in H.
  destruct (Heap.alloc_n PhysPages.physPages_n 2 demo_phys) as [[new ph]|] eqn:E; [|vm_compute in E; discriminate E].
  assert (new = [22; 21]) as -> by (vm_compute in E; congruence).
  destruct H as (st' & E' & _ & W' & _ & Tr' & _); [lia|change (MB 4) with 4194304; lia|lia|].
  exists m, [22; 21], st'. split; [exact W|]. split; [exact E'|]. split; [exact W'|]. split; [reflexivity|].
  exact (Tr' 1%nat 21 eq_refl).
Defined.

End HeapManager.
