(* ===== verification/ElfConvert.v ===== *)
(** * The ELF converter (src/elfconvert.c)

    The host program that flattens an ELF executable into the image the kernel loads
    at 0x08048000. The loadable program headers are kept in a circular doubly linked
    list whose root stands in the place of a node. The host's calls are [open], [read],
    [lseek] and [write] on a file that exists and a disk that does not fill;
    [malloc] gives memory with contents of its own. *)
From stdpp Require Import prelude list gmap numbers.
From Stdlib Require Import ZArith Lia.
From S2P Require Import Prelude.

Module ElfConvert.

(** A run of the program: it goes on, it calls [exit], or it leaves its memory. *)
Inductive run (A : Type) := Done (a : A) | Exit (code : Z) | Fault.
#[global] Arguments Done {A} _.
#[global] Arguments Exit {A} _.
#[global] Arguments Fault {A}.
#[global] Instance run_ret : MRet run := fun A a => Done a.
#[global] Instance run_bind : MBind run := fun A B f m =>
  match m with Done a => f a | Exit c => Exit c | Fault => Fault end.
Definition of_option {A} (o : option A) : run A := match o with Some a => Done a | None => Fault end.

(** ** Bytes *)

Definition byte (l : list Z) (o : Z) : Z := if 0 <=? o then default 0 (l !! Z.to_nat o) else 0.
Definition word (l : list Z) (o : Z) : Z := byte l o + 256 * byte l (o + 1).
Definition dword (l : list Z) (o : Z) : Z :=
  byte l o + 256 * byte l (o + 1) + 65536 * byte l (o + 2) + 16777216 * byte l (o + 3).

(** An open file: what it holds and where the next byte is. *)
Record file := mk_file { bytes : list Z; pos : Z }.
Definition read (f : file) (n : Z) : list Z * file :=
  let bs := take (Z.to_nat n) (drop (Z.to_nat (pos f)) (bytes f)) in
  (bs, mk_file (bytes f) (pos f + alen bs)).
(** A write behind the end leaves zeros in between. *)
Definition write (f : file) (bs : list Z) : file :=
  match bs with
  | [] => f
  | _ =>
      let o := bytes f ++ replicate (Z.to_nat (pos f) - length (bytes f)) 0 in
      mk_file (take (Z.to_nat (pos f)) o ++ bs ++ drop (Z.to_nat (pos f) + length bs) o) (pos f + alen bs)
  end.

(** ** The list *)

(** The fields of the nodes by address; the root is at 0. *)
Record store := mk_store { prev : gmap Z Z; next : gmap Z Z; data : gmap Z (list Z); count : Z }.
Definition root : Z := 0.
Definition pheader_list : store := mk_store {[root := root]} {[root := root]} ∅ 0.

(** [list_insert_before]; the [count] nodes made so far are at [1 .. count]. *)
Definition list_insert_before (s : store) (element : Z) (d : list Z) : option store :=
  let result := count s + 1 in
  n ← next s !! element;
  let prev1 := <[result := element]> (prev s) in
  let next1 := <[result := n]> (next s) in
  en ← next1 !! element;
  let prev2 := <[en := result]> prev1 in
  let next2 := <[element := result]> next1 in
  Some (mk_store prev2 next2 (<[result := d]> (data s)) (count s + 1)).

Definition list_insert_at_tail (s : store) (d : list Z) : option store := list_insert_before s root d.

(** ** The program *)

Definition magic_2882 : list Z := [0x7f; 0x45; 0x4c; 0x46; 0].
Definition base : Z := 0x8048000.

(** [strncmp] of the magic, which holds no zero before its end. *)
Definition verify_magic (s2 : list Z) : bool :=
  negb (bool_decide (take 4 magic_2882 = take 4 s2)).

Definition verify_ident (a1 : list Z) : Z :=
  if negb (byte a1 4 =? 1) || negb (byte a1 5 =? 1) || negb (byte a1 6 =? 1)
     || negb (word a1 16 =? 2) || negb (word a1 18 =? 3) || negb (dword a1 20 =? 1)
  then -1 else 0.

Section program.
(** The largest offset [lseek] takes, and what the memory [malloc] gives holds: for
    the [idx]-th header, and for the segment of the node at [j] under [- j]. *)
Variables (off_max : Z) (fresh : Z -> list Z).

Definition lseek (f : file) (off : Z) : option file :=
  if off <=? off_max then Some (mk_file (bytes f) off) else None.

(** The header read into 32 bytes of new memory, or the null pointer. *)
Definition read_program_header (fd : file) (input : list Z) (idx : Z) : run (option (list Z) * file) :=
  let entsize := word input 42 in
  match lseek fd (u32 (dword input 28 + idx * entsize)) with
  | None => Done (None, fd)
  | Some fd =>
      let '(bs, fd) := read fd entsize in
      if 32 <? alen bs then Fault
      else if alen bs =? entsize then Done (Some (bs ++ drop (length bs) (take 32 (fresh idx))), fd)
      else Done (None, fd)
  end.

Definition parse_program_header (a1 : list Z) : Z := if dword a1 0 =? 1 then dword a1 8 else 0.

(** The loop over the headers. *)
Fixpoint headers_loop (n : nat) (i : Z) (input : list Z) (fd : file) (s : store) : run (file * store) :=
  match n with
  | O => mret (fd, s)
  | S n =>
      '(header, fd) ← read_program_header fd input i;
      match header with
      | None => Exit 1
      | Some h =>
          s ← (if negb (parse_program_header h =? 0) then of_option (list_insert_at_tail s h) else mret s);
          headers_loop n (i + 1) input fd s
      end
  end.

(** The body of the loop over the segments. *)
Definition copy_segment (j : Z) (v23 : list Z) (fd outputFD : file) : run (file * file) :=
  let memsz := dword v23 20 in
  let filesz := dword v23 16 in
  let ptr := take (Z.to_nat memsz) (fresh (- j) ++ replicate (Z.to_nat memsz) 0) in
  fd ← match lseek fd (dword v23 4) with Some fd => mret fd | None => Exit 1 end;
  '(ptr, fd) ←
    (if negb (filesz =? 0) then
       let '(bs, fd) := read fd filesz in
       if memsz <? alen bs then Fault
       else if negb (filesz =? alen bs) then Exit 1
       else mret (bs ++ drop (length bs) ptr, fd)
     else mret (ptr, fd));
  outputFD ← match lseek outputFD (u32 (dword v23 8 - base)) with Some f => mret f | None => Exit 1 end;
  let ptr := if filesz <? memsz then take (Z.to_nat filesz) ptr ++ replicate (Z.to_nat (memsz - filesz)) 0 else ptr in
  mret (fd, write outputFD ptr).

Fixpoint segments_loop (fuel : nat) (j : Z) (s : store) (fd outputFD : file) : run file :=
  match fuel with
  | O => Fault
  | S fuel =>
      if j =? root then mret outputFD
      else
        d ← of_option (data s !! j);
        '(fd, outputFD) ← copy_segment j d fd outputFD;
        j ← of_option (prev s !! j);
        segments_loop fuel j s fd outputFD
  end.

(** [main] on the file named [argv1]; [inputbuf] is zero behind the 52 bytes read.
    The index of [e_phnum], [0x2A / 4], is that of [e_ehsize]. *)
Definition main (argv1 : list Z) (input : list Z) : run file :=
  let '(bs, fd) := read (mk_file input 0) 52 in
  if negb (alen bs =? 52) then Exit 1
  else if verify_magic bs then Exit 1
  else if negb (verify_ident bs =? 0) then Exit 1
  else
    let v17 := dword bs (4 * (0x2A / 4)) in
    let n := v17 mod 65536 in
    '(fd, s) ← headers_loop (Z.to_nat n) 0 bs fd pheader_list;
    if n =? 0 then Exit 1
    else if 80 <=? alen argv1 + 10 then Fault
    else
      j ← of_option (prev s !! root);
      segments_loop (S (Z.to_nat (count s))) j s fd (mk_file [] 0).
End program.

(** ** The list keeps the order of insertion *)

(** From [x] along [prev] through [l] to the root. *)
Fixpoint path (s : store) (x : Z) (l : list Z) : Prop :=
  match l with
  | [] => prev s !! x = Some root
  | a :: l => prev s !! x = Some a /\ path s a l
  end.
Definition last_of (x : Z) (l : list Z) : Z := default x (list.last l).

Record rep (s : store) (ds : list (list Z)) : Prop := {
  rep_nodes : exists l, path s root l /\ next s !! root = Some (last_of root l) /\ NoDup (root :: l) /\
    Forall (fun a => 0 < a <= count s) l /\ Forall2 (fun a d => data s !! a = Some d) l ds;
  rep_count : count s = alen ds }.

Lemma elf_path_snoc s s' n : forall l x, path s x l -> NoDup (x :: l) -> n ∉ x :: l ->
  (forall a, a <> n -> a <> last_of x l -> prev s' !! a = prev s !! a) ->
  prev s' !! last_of x l = Some n -> prev s' !! n = Some root -> path s' x (l ++ [n]).
Proof.
  induction l as [|a l IH]; intros x Hp Hd Hn Hf Hl Hr; cbn [path app].
  - by split.
  - destruct Hp as [Ha Hp]. apply list.NoDup_cons in Hd as [Hx Hd].
    assert (Hla : last_of x (a :: l) = last_of a l).
    { unfold last_of. rewrite last_cons. by destruct (list.last l). }
    rewrite Hla in *. split.
    + rewrite Hf; [done|intros ->; set_solver|]. intros ->. apply Hx. unfold last_of.
      destruct (list.last l) eqn:E; [|left]. right. by apply last_Some_elem_of.
    + apply IH; try done. set_solver.
Qed.

Lemma Forall2_elem {A B} (R Q : A -> B -> Prop) l k :
  Forall2 R l k -> (forall a b, a ∈ l -> R a b -> Q a b) -> Forall2 Q l k.
Proof. induction 1; intros HRQ; constructor; [apply HRQ; [left|done]|apply IHForall2; intros; apply HRQ; [by right|done]]. Qed.

Lemma rep_init : rep pheader_list [].
Proof.
  split; [|done]. exists []. split_and!; [done|done|apply list.NoDup_singleton|constructor|constructor].
Qed.

Lemma insert_at_tail_spec s ds d : rep s ds -> exists s', list_insert_at_tail s d = Some s' /\ rep s' (ds ++ [d]).
Proof.
  intros [(l & Hp & Hn & Hd & Hr & Hl) Hc]. unfold list_insert_at_tail, list_insert_before. rewrite Hn.
  cbn [mbind option_bind]. pose proof (alen_nonneg ds) as Hnn. set (n := count s + 1).
  assert (Hn0 : root <> n) by (unfold n, root; lia).
  assert (Hnl : n ∉ root :: l).
  { intros [?|Hin]%elem_of_cons; [done|]. rewrite list.Forall_forall in Hr. specialize (Hr n Hin). unfold n in Hr. lia. }
  rewrite lookup_insert_ne by done. rewrite Hn. cbn [mbind option_bind]. eexists. split; [done|].
  assert (Hlast : last_of root l ∈ root :: l).
  { unfold last_of. destruct (list.last l) eqn:E; [right; by apply last_Some_elem_of|left]. }
  split; cbn [prev next data count].
  - exists (l ++ [n]). split; [|split; [|split; [|split]]].
    + apply (elf_path_snoc s _ n l root Hp Hd Hnl); cbn [prev].
      * intros a Ha Hb. by rewrite !lookup_insert_ne by done.
      * apply lookup_insert_eq.
      * rewrite lookup_insert_ne by (intros E; apply Hnl; by rewrite <- E). apply lookup_insert_eq.
    + rewrite lookup_insert_eq. unfold last_of. by rewrite last_snoc.
    + rewrite app_comm_cons. apply list.NoDup_app. split; [done|]. split; [set_solver|apply list.NoDup_singleton].
    + apply list.Forall_app. split; [|repeat constructor; unfold n; lia]. eapply List.Forall_impl; [|exact Hr]. simpl. lia.
    + apply Forall2_app; [|constructor; [apply lookup_insert_eq|constructor]].
      eapply Forall2_elem; [exact Hl|]. simpl. intros a e Ha He. rewrite lookup_insert_ne; [done|]. set_solver.
  - unfold n. rewrite Hc. unfold alen. rewrite length_app. simpl. lia.
Qed.

(** ** What the converter does *)

Section spec.
Context (off_max : Z) (fresh : Z -> list Z).

(** The header table: [e_phoff], 32 bytes an entry, one entry for every byte of
    [e_ehsize]. *)
Definition phdr (input : list Z) (i : Z) : list Z :=
  take 32 (drop (Z.to_nat (dword input 28 + 32 * i)) input).
Definition loadable (h : list Z) : Prop := parse_program_header h <> 0.
#[global] Instance loadable_dec h : Decision (loadable h).
Proof. unfold loadable. apply _. Defined.
Definition segments (input : list Z) : list (list Z) := filter loadable (phdr input <$> seqZ 0 (word input 40)).

Lemma headers_loop_spec input bs : word bs 42 = 32 -> 0 <= dword bs 28 ->
  dword bs 28 < 2 ^ 31 -> 2 ^ 31 - 1 <= off_max -> alen input < 2 ^ 31 ->
  forall n i fd s ds, bytes fd = input -> 0 <= i -> dword bs 28 + 32 * (i + Z.of_nat n) <= alen input -> rep s ds ->
  exists fd' s', headers_loop off_max fresh n i bs fd s = Done (fd', s') /\ bytes fd' = input /\
    rep s' (ds ++ filter loadable ((fun i => take 32 (drop (Z.to_nat (dword bs 28 + 32 * i)) input)) <$> seqZ i (Z.of_nat n))).
Proof.
  intros He H0 Hsm Hoff Hlen. induction n as [|n IH]; intros i fd s ds Hfd Hi Hb R.
  { exists fd, s. split; [done|]. split; [done|]. cbn. by rewrite app_nil_r. }
  cbn [headers_loop]. unfold read_program_header, lseek. rewrite He. unfold alen in *.
  rewrite u32_small by lia. rewrite (proj2 (Z.leb_le _ _)) by lia. unfold read. cbn [bytes pos]. rewrite Hfd.
  set (h := take (Z.to_nat 32) _). assert (Hh : length h = 32%nat) by (unfold h; rewrite length_take, length_drop; lia).
  unfold alen. rewrite Hh. change (32 <? Z.of_nat 32) with false. change (Z.of_nat 32 =? 32) with true. cbn iota zeta.
  cbn [mbind run_bind]. rewrite (drop_ge (take 32 (fresh i))) by (rewrite length_take; lia). rewrite app_nil_r.
  rewrite (seqZ_cons i) by lia. replace (Z.pred (Z.of_nat (S n))) with (Z.of_nat n) by lia.
  cbn [fmap list_fmap]. change (Z.to_nat 32) with 32%nat in h.
  replace (take 32 (drop (Z.to_nat (dword bs 28 + 32 * i)) input)) with h by (unfold h; do 3 f_equal; lia).
  destruct (Z.eqb_spec (parse_program_header h) 0) as [E|E]; cbn [negb].
  - rewrite (filter_cons_False loadable h) by (intros Hl; by apply Hl). cbn [mret run_ret mbind run_bind].
    replace (Z.succ i) with (i + 1) by lia. apply IH; [done|lia|lia|done].
  - rewrite (filter_cons_True loadable h) by done. destruct (insert_at_tail_spec s ds h R) as (s1 & -> & R1). cbn [of_option mbind run_bind].
    destruct (IH (i + 1) (mk_file input (dword bs 28 + 32 * i + Z.of_nat 32)) s1 (ds ++ [h])) as (fd' & s' & E' & Hb' & R'); [done|lia|lia|done|].
    exists fd', s'. rewrite <- app_assoc in R'. replace (Z.succ i) with (i + 1) by lia. split; [|done].
    rewrite <- E'. do 2 f_equal. lia.
Qed.

(** The bytes of a segment in memory: what the file has, then zeros. *)
Definition seg_bytes (input : list Z) (d : list Z) : list Z :=
  take (Z.to_nat (dword d 16)) (drop (Z.to_nat (dword d 4)) input) ++ replicate (Z.to_nat (dword d 20 - dword d 16)) 0.

(** A segment the image can take: its bytes are in the file, its addresses in the
    4 MB behind the base. *)
Record seg_ok (input : list Z) (d : list Z) : Prop := {
  so_file : 0 <= dword d 16 /\ 0 <= dword d 4 /\ dword d 4 + dword d 16 <= alen input;
  so_size : dword d 16 <= dword d 20;
  so_addr : base <= dword d 8 /\ dword d 8 + dword d 20 < 2 ^ 31 }.

Lemma seg_bytes_length input d : seg_ok input d -> alen (seg_bytes input d) = dword d 20.
Proof.
  intros [(H1 & H2 & H3) H4 _]. unfold seg_bytes, alen in *. rewrite length_app, length_take, length_drop, length_replicate. lia.
Qed.

Lemma copy_segment_spec j d fd out input : bytes fd = input -> alen input < 2 ^ 31 -> 2 ^ 31 - 1 <= off_max ->
  seg_ok input d -> exists fd', copy_segment off_max fresh j d fd out =
    Done (fd', write (mk_file (bytes out) (dword d 8 - base)) (seg_bytes input d)) /\ bytes fd' = input.
Proof.
  intros Hfd Hlen Hoff [(H1 & H2 & H3) H4 (H5 & H6)]. unfold copy_segment, lseek.
  assert (Hb : base = 0x8048000) by done. unfold alen in *.
  rewrite (proj2 (Z.leb_le (dword d 4) _)) by lia. rewrite (u32_small (dword d 8 - base)) by lia.
  rewrite (proj2 (Z.leb_le (dword d 8 - base) _)) by lia. cbn [mret run_ret mbind run_bind].
  set (ptr := take (Z.to_nat (dword d 20)) _).
  assert (Hptr : length ptr = Z.to_nat (dword d 20)) by (unfold ptr; rewrite length_take, length_app, length_replicate; lia).
  unfold read. cbn [bytes pos]. rewrite Hfd. set (bs := take (Z.to_nat (dword d 16)) (drop (Z.to_nat (dword d 4)) input)).
  assert (Hbs : length bs = Z.to_nat (dword d 16)) by (unfold bs; rewrite length_take, length_drop; lia).
  assert (Hfin : forall p, take (Z.to_nat (dword d 16)) p = bs -> length p = Z.to_nat (dword d 20) ->
    (if dword d 16 <? dword d 20 then take (Z.to_nat (dword d 16)) p ++ replicate (Z.to_nat (dword d 20 - dword d 16)) 0 else p)
    = seg_bytes input d).
  { intros p Ht Hp. unfold seg_bytes. fold bs. destruct (Z.ltb_spec (dword d 16) (dword d 20)); [by rewrite Ht|].
    replace (Z.to_nat (dword d 20 - dword d 16)) with 0%nat by lia. rewrite app_nil_r, <- Ht. symmetry. apply take_ge. lia. }
  destruct (Z.eqb_spec (dword d 16) 0) as [E|E]; cbn [negb].
  - cbn [mret run_ret mbind run_bind]. eexists (mk_file input _). split; [|reflexivity]. rewrite Hfin; [reflexivity| |done].
    rewrite E in *. destruct bs; [done|]. simpl in Hbs. lia.
  - unfold alen. rewrite Hbs. rewrite (proj2 (Z.ltb_ge (dword d 20) (Z.of_nat (Z.to_nat (dword d 16))))) by lia. rewrite (proj2 (Z.eqb_eq (dword d 16) (Z.of_nat _))) by lia.
    cbn [negb mret run_ret mbind run_bind]. eexists (mk_file input _). split; [|reflexivity]. rewrite Hfin; [reflexivity| |].
    + rewrite <- Hbs. by rewrite take_app_length.
    + rewrite length_app, length_drop, Hptr, Hbs. lia.
Qed.

(** ** The output file *)

Lemma byte_neg l x : x < 0 -> byte l x = 0.
Proof. intros Hx. unfold byte. by rewrite (proj2 (Z.leb_gt _ _)). Qed.
Lemma byte_lookup l x : 0 <= x -> byte l x = default 0 (l !! Z.to_nat x).
Proof. intros Hx. unfold byte. by rewrite (proj2 (Z.leb_le _ _)). Qed.

Lemma lookup_write o p bs i : 0 <= p -> bs <> [] ->
  default 0 (bytes (write (mk_file o p) bs) !! i) =
  if decide (Z.to_nat p <= i < Z.to_nat p + length bs)%nat then default 0 (bs !! (i - Z.to_nat p)%nat) else default 0 (o !! i).
Proof.
  intros Hp Hne. destruct bs as [|b bs]; [done|]. unfold write. cbn [bytes pos]. set (B := b :: bs).
  set (o' := o ++ replicate (Z.to_nat p - length o) 0).
  assert (Ho : (Z.to_nat p <= length o')%nat) by (unfold o'; rewrite length_app, length_replicate; lia).
  assert (Hi : forall i, default 0 (o' !! i) = default 0 (o !! i)).
  { intros k. unfold o'. destruct (decide (k < length o)%nat) as [Hk|Hk]; [by rewrite lookup_app_l|].
    rewrite lookup_app_r, (lookup_ge_None_2 o) by lia.
    destruct (replicate _ _ !! _) eqn:E; [|done]. by apply lookup_replicate in E as [-> _]. }
  assert (Ht : length (take (Z.to_nat p) o') = Z.to_nat p) by (rewrite length_take; lia).
  case_decide as Hr.
  - rewrite lookup_app_r, Ht by lia. by rewrite lookup_app_l by lia.
  - rewrite <- Hi. destruct (decide (i < Z.to_nat p)%nat) as [Hlt|Hge].
    + rewrite lookup_app_l by lia. by rewrite lookup_take_lt by lia.
    + rewrite lookup_app_r, Ht by lia. rewrite lookup_app_r by lia. rewrite lookup_drop. do 2 f_equal. lia.
Qed.

Lemma byte_write o p bs x : 0 <= p -> byte (bytes (write (mk_file o p) bs)) x =
  if decide (p <= x < p + alen bs) then byte bs (x - p) else byte o x.
Proof.
  intros Hp. destruct (decide (x < 0)) as [Hx|Hx].
  { rewrite !(byte_neg _ x) by done. by rewrite decide_False by lia. }
  destruct (decide (bs = [])) as [->|Hne]; [rewrite decide_False; [done|unfold alen; simpl; lia]|].
  rewrite (byte_lookup _ x), lookup_write by (done || lia). unfold alen.
  case_decide; case_decide; try lia.
  - rewrite byte_lookup by lia. do 2 f_equal. lia.
  - by rewrite byte_lookup by lia.
Qed.

Lemma write_length o p bs : 0 <= p -> alen (bytes (write (mk_file o p) bs)) <= Z.max (alen o) (p + alen bs).
Proof.
  intros Hp. destruct bs as [|b bs]; [simpl; lia|]. unfold write. cbn [bytes pos]. unfold alen.
  rewrite !length_app, length_take, length_drop, length_app, length_replicate. lia.
Qed.

(** The segments written one after the other. *)
Definition place (input : list Z) (out : file) (ds : list (list Z)) : file :=
  foldl (fun o d => write (mk_file (bytes o) (dword d 8 - base)) (seg_bytes input d)) out ds.

(** [x] is the place of an address of [d] in the image. *)
Definition covers (d : list Z) (x : Z) : Prop := dword d 8 - base <= x < dword d 8 - base + dword d 20.
Definition apart (d e : list Z) : Prop := forall x, covers d x -> ~ covers e x.

Lemma place_other input ds : forall out x, Forall (seg_ok input) ds -> Forall (fun d => ~ covers d x) ds ->
  byte (bytes (place input out ds)) x = byte (bytes out) x.
Proof.
  induction ds as [|d ds IH]; intros out x Hok Hx; [done|]. cbn [place foldl]. fold (place input).
  apply list.Forall_cons in Hok as [Hd Hok]. apply list.Forall_cons in Hx as [Hdx Hx]. unfold place in IH. rewrite IH by done.
  rewrite byte_write by (destruct Hd; lia). rewrite decide_False; [done|]. by rewrite seg_bytes_length.
Qed.

Lemma place_byte input ds : forall out d x, Forall (seg_ok input) ds -> ForallOrdPairs apart ds -> d ∈ ds -> covers d x ->
  byte (bytes (place input out ds)) x = byte (seg_bytes input d) (x - (dword d 8 - base)).
Proof.
  induction ds as [|e ds IH]; intros out d x Hok Hap Hd Hx; [by apply not_elem_of_nil in Hd|].
  apply list.Forall_cons in Hok as [He Hok]. inversion_clear Hap as [|? ? Hae Hap'].
  apply elem_of_cons in Hd as [->|Hd]; [|by apply (IH _ d x)]. cbn [place foldl]. fold (place input).
  pose proof (place_other input ds (write (mk_file (bytes out) (dword e 8 - base)) (seg_bytes input e)) x Hok) as Ho.
  unfold place in Ho. rewrite Ho.
  - rewrite byte_write by (destruct He; lia). rewrite seg_bytes_length by done. by rewrite decide_True.
  - eapply List.Forall_impl; [|exact Hae]. intros d' Hd'. by apply Hd'.
Qed.

Lemma write_grows o p bs : 0 <= p -> alen o <= alen (bytes (write (mk_file o p) bs)) /\
  (bs <> [] -> p + alen bs <= alen (bytes (write (mk_file o p) bs))).
Proof.
  intros Hp. destruct bs as [|b bs]; [simpl; split; [lia|done]|]. unfold write. cbn [bytes pos]. unfold alen.
  rewrite !length_app, length_take, length_drop, length_app, length_replicate. lia.
Qed.

Lemma place_grows input ds : forall out, Forall (seg_ok input) ds -> alen (bytes out) <= alen (bytes (place input out ds)) /\
  (forall d x, d ∈ ds -> covers d x -> x < alen (bytes (place input out ds))).
Proof.
  induction ds as [|d ds IH]; intros out Hok; [split; [done|intros d x Hd; by apply not_elem_of_nil in Hd]|].
  apply list.Forall_cons in Hok as [Hd Hok]. destruct (IH (write (mk_file (bytes out) (dword d 8 - base)) (seg_bytes input d)) Hok) as [H1 H2].
  destruct (write_grows (bytes out) (dword d 8 - base) (seg_bytes input d)) as [H3 H4]; [destruct Hd; lia|].
  split; [etransitivity; [exact H3|exact H1]|]. intros e x [->|He]%elem_of_cons Hx; [|by apply (H2 e)].
  eapply Z.lt_le_trans; [|exact H1]. pose proof (seg_bytes_length input d Hd) as Hl. unfold covers in Hx.
  eapply Z.lt_le_trans; [|apply H4]; [lia|]. intros E. rewrite E in Hl. unfold alen in Hl. simpl in Hl. lia.
Qed.

Lemma place_length input ds m : forall out, Forall (seg_ok input) ds ->
  Forall (fun d => dword d 8 - base + dword d 20 <= m) ds -> alen (bytes out) <= m -> alen (bytes (place input out ds)) <= m.
Proof.
  induction ds as [|d ds IH]; intros out Hok Hm Ho; [done|].
  apply list.Forall_cons in Hok as [Hd Hok]. apply list.Forall_cons in Hm as [Hdm Hm]. apply IH; [done..|].
  pose proof (write_length (bytes out) (dword d 8 - base) (seg_bytes input d)) as Hw. rewrite seg_bytes_length in Hw by done.
  destruct Hd. lia.
Qed.

Lemma segments_loop_spec input s : alen input < 2 ^ 31 -> 2 ^ 31 - 1 <= off_max ->
  forall l ds j fd out fuel, bytes fd = input ->
  match l with [] => j = root | a :: l' => j = a /\ path s a l' end ->
  Forall2 (fun a d => data s !! a = Some d) l ds -> Forall (fun a => a <> root) l -> Forall (seg_ok input) ds ->
  (length l < fuel)%nat -> segments_loop off_max fresh fuel j s fd out = Done (place input out ds).
Proof.
  intros Hlen Hoff. induction l as [|a l IH]; intros ds j fd out fuel Hfd Hj Hds Hr Hok Hf; destruct fuel as [|fuel];
    try (simpl in Hf; lia).
  - apply Forall2_nil_inv_l in Hds as ->. subst j. cbn [segments_loop]. rewrite Z.eqb_refl. done.
  - apply Forall2_cons_inv_l in Hds as (d & ds' & Hd & Hds' & ->).
    destruct Hj as [-> Hp]. apply list.Forall_cons in Hr as [Ha Hr]. apply list.Forall_cons in Hok as [Hdok Hok].
    cbn [segments_loop]. rewrite (proj2 (Z.eqb_neq a root)) by done. rewrite Hd. cbn [of_option mbind run_bind].
    destruct (copy_segment_spec a d fd out input Hfd Hlen Hoff Hdok) as (fd' & -> & Hfd'). cbn [mbind run_bind].
    assert (Hj' : exists j', prev s !! a = Some j' /\ match l with [] => j' = root | b :: l' => j' = b /\ path s b l' end).
    { destruct l as [|b l']; cbn [path] in Hp; [by exists root|]. destruct Hp as [Hb Hp]. by exists b. }
    destruct Hj' as (j' & -> & Hj'). cbn [of_option mbind run_bind].
    rewrite (IH ds' j' fd' _ fuel Hfd' Hj' Hds' Hr Hok) by (simpl in Hf; lia). done.
Qed.

(** ** Properties *)

(** An ELF executable the converter takes, as it reads it. *)
Record elf_ok (input : list Z) : Prop := {
  eo_bytes : Forall (fun b => 0 <= b < 256) input;
  eo_size : alen input < 2 ^ 31;
  eo_magic : take 4 input = take 4 magic_2882;
  eo_ident : verify_ident input = 0;
  eo_ehsize : word input 40 = 52;
  eo_phentsize : word input 42 = 32;
  eo_table : dword input 28 + 32 * 52 <= alen input;
  eo_segments : Forall (seg_ok input) (segments input);
  eo_apart : ForallOrdPairs apart (segments input) }.
End spec.

Lemma byte_take l n o : o < Z.of_nat n -> byte (take n l) o = byte l o.
Proof. intros Ho. destruct (decide (o < 0)); [by rewrite !byte_neg|]. rewrite !byte_lookup by lia. by rewrite lookup_take_lt by lia. Qed.
Lemma byte_range l o : Forall (fun b => 0 <= b < 256) l -> 0 <= byte l o < 256.
Proof.
  intros Hl. destruct (decide (o < 0)); [rewrite byte_neg by done; lia|]. rewrite byte_lookup by lia.
  destruct (l !! Z.to_nat o) eqn:E; simpl; [|lia]. rewrite list.Forall_lookup in Hl. by apply (Hl _ _ E).
Qed.

(** The output is the segments, placed in the order of the headers. *)
Lemma elf_main_spec (off_max : Z) (fresh : Z -> list Z) argv1 input :
  elf_ok input -> alen argv1 < 70 -> 2 ^ 31 - 1 <= off_max ->
  main off_max fresh argv1 input = Done (place input (mk_file [] 0) (segments input)).
Proof.
  intros [Hb Hs Hm Hi He Hp Ht Hok Hap] Ha Hoff. unfold main, read. cbn [bytes pos]. rewrite drop_0.
  pose proof (fun o => byte_range input o Hb) as Hby.
  assert (H28 : 0 <= dword input 28) by (unfold dword; pose proof (Hby 28); pose proof (Hby (28 + 1)); pose proof (Hby (28 + 2)); pose proof (Hby (28 + 3)); lia).
  set (bs := take (Z.to_nat 52) input).
  assert (Hbs : length bs = 52%nat) by (unfold bs, alen in *; rewrite length_take; lia).
  assert (Hbt : forall o, o < 52 -> byte bs o = byte input o) by (intros o Ho; unfold bs; apply byte_take; lia).
  unfold alen at 1. rewrite Hbs. change (negb (Z.of_nat 52 =? 52)) with false. cbn iota.
  assert (Hmg : take 4 bs = take 4 magic_2882) by (unfold bs; by rewrite take_take).
  unfold verify_magic. rewrite Hmg. rewrite bool_decide_true by done. cbn [negb].
  assert (Hid : verify_ident bs = verify_ident input) by (unfold verify_ident, word, dword; by rewrite !Hbt by lia).
  rewrite Hid, Hi. cbn [Z.eqb negb]. change (4 * (42 / 4)) with 40.
  assert (Hn : dword bs 40 mod 65536 = 52).
  { unfold dword, word in *. rewrite !Hbt by lia. pose proof (Hby 40). pose proof (Hby (40 + 1)).
    rewrite <- He. replace (_ + _ + _ + _) with (byte input 40 + 256 * byte input (40 + 1) + (byte input (40 + 2) + 256 * byte input (40 + 3)) * 65536) by lia.
    rewrite Z.mod_add by lia. apply Z.mod_small. lia. }
  rewrite Hn. assert (H28' : dword bs 28 = dword input 28) by (unfold dword; by rewrite !Hbt by lia).
  destruct (headers_loop_spec off_max fresh input bs) with (n := Z.to_nat 52) (i := 0)
    (fd := mk_file input (0 + alen bs)) (s := pheader_list) (ds := @nil (list Z))
    as (fd' & s & -> & Hfd & R); [unfold word in *; by rewrite !Hbt by lia|lia|lia|done|done|done|lia|lia|apply rep_init|].
  cbn [app mbind run_bind] in *. rewrite (proj2 (Z.eqb_neq 52 0)) by lia. rewrite (proj2 (Z.leb_gt _ _)) by lia.
  rewrite H28' in R. change (Z.of_nat (Z.to_nat 52)) with 52 in R. rewrite <- He in R at 1. fold (phdr input) in R.
  change (rep s (segments input)) in R. destruct R as [(l & Hpath & _ & Hnd & Hr & Hl) Hc].
  assert (Hj : exists j, prev s !! root = Some j /\ match l with [] => j = root | b :: l' => j = b /\ path s b l' end).
  { destruct l as [|b l']; cbn [path] in Hpath; [by exists root|]. destruct Hpath as [Hb' Hpath]. by exists b. }
  destruct Hj as (j & -> & Hj). cbn [of_option mbind run_bind].
  rewrite (segments_loop_spec off_max fresh input s Hs Hoff l (segments input)); try done.
  - eapply List.Forall_impl; [|exact Hr]. simpl. unfold root. lia.
  - pose proof (List.Forall2_length Hl). unfold alen in Hc. lia.
Qed.


Lemma place_segment input d k : elf_ok input -> d ∈ segments input -> 0 <= k < dword d 20 ->
  byte (bytes (place input (mk_file [] 0) (segments input))) (dword d 8 - base + k) =
  if k <? dword d 16 then byte input (dword d 4 + k) else 0.
Proof.
  intros [_ _ _ _ _ _ _ Hok Hap] Hd Hk. rewrite (place_byte input _ _ d) by (done || unfold covers; lia).
  replace (dword d 8 - base + k - (dword d 8 - base)) with k by lia.
  rewrite list.Forall_forall in Hok. destruct (Hok d Hd) as [(H1 & H2 & H3) H4 _]. unfold seg_bytes, alen in *.
  rewrite byte_lookup by lia. destruct (Z.ltb_spec k (dword d 16)).
  - rewrite lookup_app_l by (rewrite length_take, length_drop; lia). rewrite lookup_take_lt, lookup_drop by lia.
    rewrite byte_lookup by lia. do 2 f_equal. lia.
  - rewrite lookup_app_r by (rewrite length_take, length_drop; lia).
    destruct (replicate _ _ !! _) eqn:E; [|done]. by apply lookup_replicate in E as [-> _].
Qed.


(** ** An executable: its header as one segment, eight bytes and eight zeros as another *)

Definition le32 (x : Z) : list Z := (fun i => x / 256 ^ i mod 256) <$> [0; 1; 2; 3].
Definition demo_elf : list Z :=
  [0x7f; 0x45; 0x4c; 0x46; 1; 1; 1] ++ replicate 9 0 ++ [2; 0; 3; 0] ++ le32 1 ++ le32 0x8049000 ++ le32 52 ++
  le32 0 ++ le32 0 ++ [52; 0; 32; 0; 2; 0; 0; 0; 0; 0; 0; 0] ++
  mjoin (le32 <$> [1; 0; 0x8048000; 0; 52; 52; 5; 4096]) ++
  mjoin (le32 <$> [1; 200; 0x8049000; 0; 8; 16; 6; 4096]) ++
  replicate 84 0 ++ [1; 2; 3; 4; 5; 6; 7; 8] ++ replicate 1600 0.

Lemma demo_elf_segments : segments demo_elf =
  [mjoin (le32 <$> [1; 0; 0x8048000; 0; 52; 52; 5; 4096]); mjoin (le32 <$> [1; 200; 0x8049000; 0; 8; 16; 6; 4096])].
Proof. vm_compute. reflexivity. Qed.

Lemma demo_elf_ok : elf_ok demo_elf.
Proof.
  assert (Hb : forallb (fun b => (0 <=? b) && (b <? 256)) demo_elf = true) by (vm_compute; reflexivity).
  split; rewrite ?demo_elf_segments.
  - rewrite forallb_forall in Hb. apply list.Forall_forall. intros b Hin%list_elem_of_In. specialize (Hb b Hin). cbv beta in Hb. rewrite andb_true_iff, Z.leb_le, Z.ltb_lt in Hb. lia.
  - vm_compute. reflexivity.
  - vm_compute. reflexivity.
  - vm_compute. reflexivity.
  - vm_compute. reflexivity.
  - vm_compute. reflexivity.
  - vm_compute. congruence.
  - repeat constructor; vm_compute; congruence.
  - constructor; [constructor; [|constructor]|constructor; constructor]. intros x Hx Hy. unfold covers in *.
    assert (H1 : x < 52) by exact (proj2 Hx). assert (H2 : 0x1000 <= x) by exact (proj1 Hy). lia.
Qed.

End ElfConvert.
