(* ===== verification/Sha1.v ===== *)
(** * SHA-1 (userland/shafile/sha1.c, sha1.h)

    The streaming implementation as the code has it (context, block buffer,
    64-bit length in two words, error codes), and the FIPS 180-1 digest of a
    whole message as its specification. *)
From stdpp Require Import prelude list numbers.
From Stdlib Require Import ZArith Lia.
From S2P Require Import Prelude.

Module Sha1.

(** ** The implementation *)

Definition shaSuccess : Z := 0.
Definition shaNull : Z := 1.
Definition shaInputTooLong : Z := 2.
Definition shaStateError : Z := 3.
Definition SHA1HashSize : Z := 20.

(** [SHA1Context] *)
Record SHA1Context := mk {
  Intermediate_Hash : list Z;
  Length_Low : Z;
  Length_High : Z;
  Message_Block_Index : Z;
  Message_Block : list Z;
  Computed : Z;
  Corrupted : Z }.

Definition SHA1CircularShift (bits word : Z) : Z :=
  Z.lor (u32 (Z.shiftl word bits)) (Z.shiftr word (32 - bits)).

(** [SHA1Reset]; [None] is the null context. *)
Definition SHA1Reset (context : option SHA1Context) : Z * option SHA1Context :=
  match context with
  | None => (shaNull, None)
  | Some c =>
      (shaSuccess, Some (mk
         (aset (aset (aset (aset (aset (Intermediate_Hash c) 0 0x67452301) 1 0xEFCDAB89)
            2 0x98BADCFE) 3 0x10325476) 4 0xC3D2E1F0)
         0 0 0 (Message_Block c) 0 0))
  end.

(** The five word buffers of [SHA1ProcessMessageBlock]. *)
Record regs := mk_regs { rA : Z; rB : Z; rC : Z; rD : Z; rE : Z }.

Definition K : list Z := [0x5A827999; 0x6ED9EBA1; 0x8F1BBCDC; 0xCA62C1D6].

(** The first loop: the 16 words of the block. *)
Definition load_word (block : list Z) (t : Z) (W : list Z) : list Z :=
  aset W t (Z.lor (Z.lor (Z.lor (u32 (Z.shiftl (aget block (t * 4)) 24))
                                (Z.shiftl (aget block (t * 4 + 1)) 16))
                         (Z.shiftl (aget block (t * 4 + 2)) 8))
                  (aget block (t * 4 + 3))).

(** The second loop: the message schedule. *)
Definition extend_word (t : Z) (W : list Z) : list Z :=
  aset W t (SHA1CircularShift 1
    (Z.lxor (Z.lxor (Z.lxor (aget W (t - 3)) (aget W (t - 8))) (aget W (t - 14)))
            (aget W (t - 16)))).

Definition Ch (B C D : Z) : Z := Z.lor (Z.land B C) (Z.land (not32 B) D).
Definition Parity (B C D : Z) : Z := Z.lxor (Z.lxor B C) D.
Definition Maj (B C D : Z) : Z := Z.lor (Z.lor (Z.land B C) (Z.land B D)) (Z.land C D).

(** One round: the body shared by the four 20-step loops. *)
Definition round (f : Z -> Z -> Z -> Z) (k : Z) (W : list Z) (t : Z) (r : regs) : regs :=
  let temp := u32 (SHA1CircularShift 5 (rA r) + f (rB r) (rC r) (rD r) + rE r + aget W t + k) in
  mk_regs temp (rA r) (SHA1CircularShift 30 (rB r)) (rC r) (rD r).

Definition SHA1ProcessMessageBlock (c : SHA1Context) : SHA1Context :=
  let W := for_range 0 16 (load_word (Message_Block c)) (replicate 80 0) in
  let W := for_range 16 80 extend_word W in
  let H := Intermediate_Hash c in
  let r := mk_regs (aget H 0) (aget H 1) (aget H 2) (aget H 3) (aget H 4) in
  let r := for_range 0 20 (round Ch (aget K 0) W) r in
  let r := for_range 20 40 (round Parity (aget K 1) W) r in
  let r := for_range 40 60 (round Maj (aget K 2) W) r in
  let r := for_range 60 80 (round Parity (aget K 3) W) r in
  let add i x H := aset H i (u32 (aget H i + x)) in
  mk (add 4 (rE r) (add 3 (rD r) (add 2 (rC r) (add 1 (rB r) (add 0 (rA r) H)))))
     (Length_Low c) (Length_High c) 0 (Message_Block c) (Computed c) (Corrupted c).

(** [context->Message_Block[context->Message_Block_Index++] = b] *)
Definition push_byte (b : Z) (c : SHA1Context) : SHA1Context :=
  mk (Intermediate_Hash c) (Length_Low c) (Length_High c) (Message_Block_Index c + 1)
     (aset (Message_Block c) (Message_Block_Index c) b) (Computed c) (Corrupted c).

(** [while (context->Message_Block_Index < lim) ... = 0] *)
Definition zero_until (lim : Z) (c : SHA1Context) : SHA1Context :=
  for_range (Message_Block_Index c) lim (fun _ => push_byte 0) c.

Definition set_byte (i b : Z) (c : SHA1Context) : SHA1Context :=
  mk (Intermediate_Hash c) (Length_Low c) (Length_High c) (Message_Block_Index c)
     (aset (Message_Block c) i (u8 b)) (Computed c) (Corrupted c).

(** The message length in the last 8 octets. *)
Definition store_length (c : SHA1Context) : SHA1Context :=
  let h := Length_High c in let l := Length_Low c in
  set_byte 63 l (set_byte 62 (Z.shiftr l 8) (set_byte 61 (Z.shiftr l 16)
    (set_byte 60 (Z.shiftr l 24) (set_byte 59 h (set_byte 58 (Z.shiftr h 8)
      (set_byte 57 (Z.shiftr h 16) (set_byte 56 (Z.shiftr h 24) c))))))).

Definition SHA1PadMessage (c : SHA1Context) : SHA1Context :=
  let c :=
    if 55 <? Message_Block_Index c
    then zero_until 56 (SHA1ProcessMessageBlock (zero_until 64 (push_byte 0x80 c)))
    else zero_until 56 (push_byte 0x80 c) in
  SHA1ProcessMessageBlock (store_length c).

(** The body of the loop of [SHA1Input]. *)
Definition input_byte (c : SHA1Context) (b : Z) : SHA1Context :=
  let c := push_byte (Z.land b 0xFF) c in
  let low := u32 (Length_Low c + 8) in
  let high := if low =? 0 then u32 (Length_High c + 1) else Length_High c in
  let corrupted := if (low =? 0) && (high =? 0) then 1 else Corrupted c in
  let c := mk (Intermediate_Hash c) low high (Message_Block_Index c) (Message_Block c)
              (Computed c) corrupted in
  if Message_Block_Index c =? 64 then SHA1ProcessMessageBlock c else c.

Fixpoint input_loop (message_array : list Z) (c : SHA1Context) : SHA1Context :=
  match message_array with
  | [] => c
  | b :: rest => if negb (Corrupted c =? 0) then c else input_loop rest (input_byte c b)
  end.

(** [SHA1Input]; [message_array = None] is the null pointer, and the length is
    that of the list. *)
Definition SHA1Input (context : option SHA1Context) (message_array : option (list Z))
    (length : Z) : Z * option SHA1Context :=
  if length =? 0 then (shaSuccess, context)
  else match context, message_array with
  | Some c, Some m =>
      if negb (Computed c =? 0) then
        (shaStateError, Some (mk (Intermediate_Hash c) (Length_Low c) (Length_High c)
           (Message_Block_Index c) (Message_Block c) (Computed c) shaStateError))
      else if negb (Corrupted c =? 0) then (Corrupted c, Some c)
      else (shaSuccess, Some (input_loop (take (Z.to_nat length) m) c))
  | _, _ => (shaNull, context)
  end.

(** [Message_Digest[i] = hash[i>>2] >> 8 * (3 - (i & 3))] *)
Definition digest_byte (H : list Z) (i : Z) : Z :=
  u8 (Z.shiftr (aget H (Z.shiftr i 2)) (8 * (3 - Z.land i 0x03))).

(** [SHA1Result]: the code, the context and the digest written. *)
Definition SHA1Result (context : option SHA1Context) : Z * option SHA1Context * list Z :=
  match context with
  | None => (shaNull, None, [])
  | Some c =>
      if negb (Corrupted c =? 0) then (Corrupted c, Some c, [])
      else
        let c :=
          if Computed c =? 0 then
            let c := SHA1PadMessage c in
            mk (Intermediate_Hash c) 0 0 (Message_Block_Index c)
               (for_range 0 64 (fun i b => aset b i 0) (Message_Block c)) 1 (Corrupted c)
          else c in
        (shaSuccess, Some c, digest_byte (Intermediate_Hash c) <$> seqZ 0 SHA1HashSize)
  end.

(** ** FIPS 180-1: the digest of a whole message *)

Definition be32 (b0 b1 b2 b3 : Z) : Z := b0 * 2 ^ 24 + b1 * 2 ^ 16 + b2 * 2 ^ 8 + b3.
Definition be_bytes (w : Z) : list Z :=
  [w / 2 ^ 24 mod 256; w / 2 ^ 16 mod 256; w / 2 ^ 8 mod 256; w mod 256].

(** [W(0..n-1)] of a block of 16 words. *)
Fixpoint schedule (M : list Z) (n : nat) : list Z :=
  match n with
  | O => M
  | S n => let W := schedule M n in let t := Z.of_nat (length W) in
           W ++ [SHA1CircularShift 1 (Z.lxor (Z.lxor (Z.lxor (aget W (t - 3)) (aget W (t - 8)))
                                                     (aget W (t - 14))) (aget W (t - 16)))]
  end.

Definition f_ (t : Z) : Z -> Z -> Z -> Z :=
  if t <? 20 then Ch else if t <? 40 then Parity else if t <? 60 then Maj else Parity.
Definition K_ (t : Z) : Z := aget K (t / 20).

Definition block_words (b : list Z) : list Z :=
  (fun t => be32 (aget b (4 * t)) (aget b (4 * t + 1)) (aget b (4 * t + 2)) (aget b (4 * t + 3)))
    <$> seqZ 0 16.

Definition compress (H b : list Z) : list Z :=
  let W := schedule (block_words b) 64 in
  let r0 := mk_regs (aget H 0) (aget H 1) (aget H 2) (aget H 3) (aget H 4) in
  let r := foldl (fun r t => round (f_ t) (K_ t) W t r) r0 (seqZ 0 80) in
  zip_with (fun x y => u32 (x + y)) H [rA r; rB r; rC r; rD r; rE r].

(** The 64-byte blocks of a byte string. *)
Definition chunks (l : list Z) : list (list Z) :=
  (fun i => take 64 (drop (64 * i) l)) <$> seq 0 (length l / 64).

Definition pad (m : list Z) : list Z :=
  m ++ [0x80] ++ replicate ((119 - length m mod 64) mod 64) 0 ++
  be_bytes (8 * Z.of_nat (length m) / 2 ^ 32) ++ be_bytes (8 * Z.of_nat (length m) mod 2 ^ 32).

Definition H0 : list Z := [0x67452301; 0xEFCDAB89; 0x98BADCFE; 0x10325476; 0xC3D2E1F0].

Definition sha1 (m : list Z) : list Z := mjoin (be_bytes <$> foldl compress H0 (chunks (pad m))).

(** A context before [SHA1Reset]: only its arrays are known. *)
Definition ctx0 : SHA1Context := mk (replicate 5 0) 0 0 0 (replicate 64 0) 0 0.

(** [SHA1Reset], one [SHA1Input] per piece of the message, [SHA1Result]. *)
Definition sha1_stream (c : SHA1Context) (ms : list (list Z)) : Z * option SHA1Context * list Z :=
  SHA1Result (foldl (fun c m => (SHA1Input c (Some m) (alen m)).2) (SHA1Reset (Some c)).2 ms).

Example sha1_abc :
  sha1 [97; 98; 99] = mjoin (be_bytes <$> [0xA9993E36; 0x4706816A; 0xBA3E2571; 0x7850C26C; 0x9CD0D89D]).
Proof. vm_compute. reflexivity. Qed.

Example stream_abc : (sha1_stream ctx0 [[97]; [98; 99]]).2 = sha1 [97; 98; 99].
Proof. vm_compute. reflexivity. Qed.

(** ** Laws *)

Definition bytes (l : list Z) : Prop := Forall (fun b => 0 <= b < 256) l.

Record wf (c : SHA1Context) : Prop := {
  wf_hash : length (Intermediate_Hash c) = 5%nat;
  wf_block : alen (Message_Block c) = 64;
  wf_bytes : bytes (Message_Block c) }.

Lemma bytes_aget l i : bytes l -> 0 <= aget l i < 256.
Proof.
  intros Hl. unfold aget. rewrite list_lookup_total_alt.
  destruct (l !! Z.to_nat i) as [b|] eqn:E; simpl; [|lia].
  by apply (Forall_lookup_1 _ _ _ _ Hl) in E.
Qed.

Lemma bytes_aset l i b : bytes l -> 0 <= b < 256 -> bytes (aset l i b).
Proof. intros. by apply Forall_insert. Qed.

Lemma load_word_be32 b0 b1 b2 b3 :
  0 <= b0 < 256 -> 0 <= b1 < 256 -> 0 <= b2 < 256 -> 0 <= b3 < 256 ->
  Z.lor (Z.lor (Z.lor (u32 (Z.shiftl b0 24)) (Z.shiftl b1 16)) (Z.shiftl b2 8)) b3
    = be32 b0 b1 b2 b3.
Proof.
  intros. rewrite u32_small by (rewrite Z.shiftl_mul_pow2 by lia; lia).
  replace (Z.shiftl b1 16) with (Z.shiftl (Z.shiftl b1 8) 8) by by rewrite Z.shiftl_shiftl by lia.
  replace (Z.shiftl b0 24) with (Z.shiftl (Z.shiftl (Z.shiftl b0 8) 8) 8)
    by by rewrite !Z.shiftl_shiftl by lia.
  rewrite <- !Z.shiftl_lor, !lor_shiftl_add by lia. unfold be32. lia.
Qed.

(** The array of 80 words is filled with the schedule of the block. *)
Lemma schedule_length M n : length (schedule M n) = (length M + n)%nat.
Proof. induction n; simpl; [|rewrite length_app, IHn; simpl]; lia. Qed.

Lemma load_words_spec b :
  bytes b ->
  let W := for_range 0 16 (load_word b) (replicate 80 0) in
  alen W = 80 /\ take 16 W = block_words b.
Proof.
  intros Hb. unfold block_words.
  apply (for_range_ind (fun t W => alen W = 80 /\ take (Z.to_nat t) W =
    (fun t => be32 (aget b (4 * t)) (aget b (4 * t + 1)) (aget b (4 * t + 2))
                   (aget b (4 * t + 3))) <$> seqZ 0 t)); [lia|done|].
  intros t W Ht [HL HW]. unfold load_word. rewrite alen_aset. split; [done|].
  rewrite take_aset_snoc, HW, load_word_be32, seqZ_app, fmap_app by (lia || by apply bytes_aget).
  simpl. by rewrite Z.add_0_l, (Z.mul_comm t 4).
Qed.

Lemma extend_word_step W M t :
  alen W = 80 -> length M = 16%nat -> 16 <= t < 80 ->
  take (Z.to_nat t) W = schedule M (Z.to_nat (t - 16)) ->
  take (Z.to_nat (t + 1)) (extend_word t W) = schedule M (S (Z.to_nat (t - 16))).
Proof.
  intros HL HlM Ht HW. unfold extend_word. rewrite take_aset_snoc by lia. cbn [schedule].
  cbv zeta. rewrite schedule_length, HlM.
  replace (Z.of_nat (16 + Z.to_nat (t - 16))) with t by lia.
  rewrite <- HW, !aget_take by lia. reflexivity.
Qed.

Lemma extend_words_take W M :
  alen W = 80 -> length M = 16%nat -> take (Z.to_nat 16) W = schedule M (Z.to_nat (16 - 16)) ->
  alen (for_range 16 80 extend_word W) = 80 /\
  take (Z.to_nat 80) (for_range 16 80 extend_word W) = schedule M (Z.to_nat (80 - 16)).
Proof.
  intros HL HlM H0. apply (for_range_ind (fun t W => alen W = 80 /\
    take (Z.to_nat t) W = schedule M (Z.to_nat (t - 16)))); [lia|by split|].
  intros t W' Ht [HL' HW']. split; [unfold extend_word; by rewrite alen_aset|].
  rewrite (extend_word_step _ M) by (done || lia). f_equal. lia.
Qed.

Lemma extend_words_spec W M :
  alen W = 80 -> take 16 W = M -> for_range 16 80 extend_word W = schedule M 64.
Proof.
  intros HL HM. assert (HlM : length M = 16%nat).
  { rewrite <- HM, length_take. unfold alen in HL. lia. }
  destruct (extend_words_take W M HL HlM) as [HL' HW']; [exact HM|].
  assert (E : Z.to_nat (80 - 16) = 64%nat) by reflexivity. rewrite E in HW'. clear E.
  revert HL' HW'. generalize (for_range 16 80 extend_word W), (schedule M 64). intros W' S' HL' HW'.
  rewrite take_ge in HW' by (unfold alen in HL'; lia). exact HW'.
Qed.

(** The four loops are the 80 rounds. *)
Lemma rounds_spec W r :
  for_range 60 80 (round Parity (aget K 3) W) (for_range 40 60 (round Maj (aget K 2) W)
    (for_range 20 40 (round Parity (aget K 1) W) (for_range 0 20 (round Ch (aget K 0) W) r))) =
  foldl (fun r t => round (f_ t) (K_ t) W t r) r (seqZ 0 80).
Proof.
  set (g := fun t r => round (f_ t) (K_ t) W t r).
  assert (Hr : forall lo f k, (forall t, lo <= t < lo + 20 -> f_ t = f /\ K_ t = k) ->
    forall r, for_range lo (lo + 20) (round f k W) r = for_range lo (lo + 20) g r).
  { intros lo f k Hlo r'. apply for_range_ext. intros t r'' Ht. unfold g.
    by destruct (Hlo t Ht) as [-> ->]. }
  pose proof (Hr 0 Ch (aget K 0)) as H1. pose proof (Hr 20 Parity (aget K 1)) as H2.
  pose proof (Hr 40 Maj (aget K 2)) as H3. pose proof (Hr 60 Parity (aget K 3)) as H4.
  simpl Z.add in *. rewrite H1, H2, H3, H4.
  - rewrite <- !for_range_split by lia. done.
  - intros t Ht. split_range t; done.
  - intros t Ht. split_range t; done.
  - intros t Ht. split_range t; done.
  - intros t Ht. split_range t; done.
Qed.

Lemma process_spec c :
  wf c -> SHA1ProcessMessageBlock c =
    mk (compress (Intermediate_Hash c) (Message_Block c)) (Length_Low c) (Length_High c) 0
       (Message_Block c) (Computed c) (Corrupted c).
Proof.
  intros [Hh Hb Hby]. unfold SHA1ProcessMessageBlock. cbv zeta.
  destruct (load_words_spec _ Hby) as [HL HM].
  rewrite (extend_words_spec _ _ HL HM), rounds_spec. unfold compress. cbv zeta.
  set (r := foldl _ _ _). clearbody r.
  destruct c as [H ? ? ? ? ? ?]; cbn [Intermediate_Hash] in *.
  destruct H as [|? [|? [|? [|? [|? [|]]]]]]; try discriminate Hh. reflexivity.
Qed.

(** *** Blocks *)

Lemma length_compress H b : length H = 5%nat -> length (compress H b) = 5%nat.
Proof. intros HH. unfold compress. cbv zeta. rewrite length_zip_with, HH. done. Qed.

Lemma length_fold_compress H bs : length H = 5%nat -> length (foldl compress H bs) = 5%nat.
Proof. revert H. induction bs; intros; [done|]. simpl. auto using length_compress. Qed.

Lemma chunks_snoc l b :
  (64 | length l)%nat -> length b = 64%nat -> chunks (l ++ b) = chunks l ++ [b].
Proof.
  intros [n Hn] Hb. unfold chunks. rewrite length_app, Hb, Hn.
  rewrite <- (Nat.mul_1_l 64) at 2. rewrite <- Nat.mul_add_distr_r, !Nat.div_mul by done.
  rewrite Nat.add_1_r, seq_S, fmap_app. f_equal.
  - apply list_fmap_ext. intros i x Hx%lookup_seq. destruct Hx as [-> Hx].
    rewrite drop_app_le, take_app_le; [done|rewrite length_drop|]; lia.
  - cbn [fmap list_fmap]. f_equal. rewrite drop_app_ge by lia.
    replace (64 * (0 + n) - length l)%nat with 0%nat by lia. rewrite drop_0. by apply take_ge; lia.
Qed.

(** What a context knows about the message [full ++ part] read so far. *)
Record inv (c : SHA1Context) (full part : list Z) : Prop := {
  inv_wf : wf c;
  inv_div : (64 | length full)%nat;
  inv_part : (length part < 64)%nat;
  inv_idx : Message_Block_Index c = alen part;
  inv_block : take (length part) (Message_Block c) = part;
  inv_hash : Intermediate_Hash c = foldl compress H0 (chunks full);
  inv_len : Length_High c * 2 ^ 32 + Length_Low c = 8 * alen (full ++ part);
  inv_low : 0 <= Length_Low c < 2 ^ 32;
  inv_high : 0 <= Length_High c < 2 ^ 32;
  inv_computed : Computed c = 0;
  inv_corrupted : Corrupted c = 0 }.

Lemma wf_push_byte c b : wf c -> 0 <= b < 256 -> wf (push_byte b c).
Proof.
  intros [H1 H2 H3] Hb. split; simpl; [done|by rewrite alen_aset|by apply bytes_aset].
Qed.

Lemma wf_process c : wf c -> wf (SHA1ProcessMessageBlock c).
Proof.
  intros Hw. rewrite process_spec by done. destruct Hw. split; simpl; auto using length_compress.
Qed.

Lemma inv_reset c :
  wf c -> exists c', SHA1Reset (Some c) = (shaSuccess, Some c') /\ inv c' [] [].
Proof.
  intros [H1 H2 H3]. eexists. split; [reflexivity|].
  destruct c as [H ? ? ? ? ? ?]; simpl in *.
  destruct H as [|? [|? [|? [|? [|? [|]]]]]]; try discriminate H1.
  split; cbn; try first [done | lia]. by exists 0%nat.
Qed.

(** The 64-bit length counter in two words. *)
Lemma length_carry low high len :
  0 <= low < 2 ^ 32 -> 0 <= high < 2 ^ 32 -> high * 2 ^ 32 + low = 8 * len ->
  8 * (len + 1) < 2 ^ 64 ->
  let low' := u32 (low + 8) in
  let high' := if low' =? 0 then u32 (high + 1) else high in
  high' * 2 ^ 32 + low' = 8 * (len + 1) /\ 0 <= high' < 2 ^ 32 /\
  (low' =? 0) && (high' =? 0) = false.
Proof.
  intros Hl Hh He Hb low' high'. subst low' high'. unfold u32.
  destruct (decide (low + 8 < 2 ^ 32)).
  - rewrite (Z.mod_small (low + 8)) by lia. destruct (Z.eqb_spec (low + 8) 0); [lia|]. simpl. lia.
  - assert (low + 8 = 2 ^ 32) as -> by lia. rewrite Z.mod_same by lia. simpl.
    rewrite Z.mod_small by lia. destruct (Z.eqb_spec (high + 1) 0); [lia|]. lia.
Qed.

Lemma inv_input_byte c full part b :
  inv c full part -> 0 <= b < 256 -> 8 * (alen (full ++ part) + 1) < 2 ^ 64 ->
  exists full' part', full' ++ part' = full ++ part ++ [b] /\ inv (input_byte c b) full' part'.
Proof.
  intros [W D P I B H L Lo Hi Co Cr] Hb Hlen.
  destruct (length_carry _ _ _ Lo Hi L Hlen) as (E1 & E2 & E3).
  unfold input_byte. cbv zeta. cbn [Length_Low Length_High push_byte Corrupted Message_Block_Index].
  rewrite E3, I. replace (Z.land b 0xFF) with b.
  2: { change 0xFF with (Z.ones 8). by rewrite Z.land_ones, Z.mod_small by lia. }
  assert (Wp : wf (push_byte b c)) by by apply wf_push_byte.
  assert (Hblk : take (length (part ++ [b])) (Message_Block (push_byte b c)) = part ++ [b]).
  { simpl. rewrite I, length_app, Nat.add_1_r. unfold aset, alen. rewrite Nat2Z.id.
    rewrite take_insert_snoc, B; [done|]. destruct W as [_ W _]. unfold alen in W. lia. }
  assert (Hla : alen (full ++ part ++ [b]) = alen (full ++ part) + 1).
  { unfold alen. rewrite !length_app. simpl. lia. }
  unfold alen in I, Hlen |- *. destruct (Z.eqb_spec (Z.of_nat (length part) + 1) 64) as [Ec|Ec].
  - exists (full ++ part ++ [b]), []. rewrite app_nil_r. split; [done|].
    rewrite process_spec by (by destruct Wp; split).
    assert (Hf : length (part ++ [b]) = 64%nat) by (rewrite length_app; simpl; lia).
    destruct Wp as [W1 W2 W3]. assert (Ht : take 64 (Message_Block (push_byte b c)) = part ++ [b]).
    { by rewrite <- Hblk, Hf. }
    rewrite take_ge in Ht by (unfold alen in W2; lia). cbn [push_byte Message_Block] in Ht.
    split; cbn [Intermediate_Hash Message_Block Message_Block_Index Length_High Length_Low
      Computed Corrupted push_byte] in *; rewrite ?app_nil_r; try done; try lia.
    + split; [by apply length_compress|done|done].
    + rewrite !length_app. simpl. destruct D as [k ->]. exists (k + 1)%nat. lia.
    + simpl. lia.
    + rewrite Ht, H, chunks_snoc, foldl_app by done. done.
    + apply u32_range.
  - exists full, (part ++ [b]). split; [done|].
    split; cbn [Intermediate_Hash Message_Block Message_Block_Index Length_High Length_Low
      Computed Corrupted push_byte] in *; try done; try lia.
    + destruct Wp as [W1 W2 W3]. by split.
    + rewrite length_app. simpl. lia.
    + unfold alen. rewrite length_app. simpl. lia.
    + apply u32_range.
Qed.

Lemma inv_input_loop l c full part :
  inv c full part -> bytes l -> 8 * alen (full ++ part ++ l) < 2 ^ 64 ->
  exists full' part', full' ++ part' = full ++ part ++ l /\ inv (input_loop l c) full' part'.
Proof.
  revert c full part. induction l as [|b l IH]; intros c full part Hi Hl Hlen.
  - exists full, part. by rewrite app_nil_r.
  - inversion_clear Hl. simpl. rewrite (inv_corrupted _ _ _ Hi). simpl.
    destruct (inv_input_byte c full part b Hi) as (f' & p' & E & Hi'); [done| |].
    { unfold alen in *. rewrite !length_app in *. simpl in Hlen. lia. }
    assert (E' : f' ++ p' ++ l = full ++ part ++ b :: l).
    { rewrite app_assoc, E, <- !app_assoc. done. }
    destruct (IH _ f' p' Hi') as (f2 & p2 & E2 & Hi2); [done|by rewrite E'|].
    exists f2, p2. by rewrite E2.
Qed.

Lemma inv_input c full part l :
  inv c full part -> bytes l -> 8 * alen (full ++ part ++ l) < 2 ^ 64 ->
  exists c' full' part', full' ++ part' = full ++ part ++ l /\
    SHA1Input (Some c) (Some l) (alen l) = (shaSuccess, Some c') /\ inv c' full' part'.
Proof.
  intros Hi Hl Hlen. unfold SHA1Input. destruct (Z.eqb_spec (alen l) 0) as [E|E].
  - exists c, full, part. destruct l; [by rewrite app_nil_r|]. unfold alen in E. simpl in E. lia.
  - rewrite (inv_computed _ _ _ Hi), (inv_corrupted _ _ _ Hi). cbn [Z.eqb negb].
    unfold alen. rewrite Nat2Z.id, take_ge by done.
    destruct (inv_input_loop l c full part) as (f & p & ? & ?); [done..|]. by exists (input_loop l c), f, p.
Qed.

(** *** Padding *)

(** [zero_until] appends zero bytes to the part of the block in use. *)
Lemma zero_until_spec lim c :
  wf c -> 0 <= Message_Block_Index c <= lim -> lim <= 64 ->
  let c' := zero_until lim c in
  wf c' /\ Message_Block_Index c' = lim /\
  take (Z.to_nat lim) (Message_Block c') =
    take (Z.to_nat (Message_Block_Index c)) (Message_Block c) ++
    replicate (Z.to_nat (lim - Message_Block_Index c)) 0 /\
  Intermediate_Hash c' = Intermediate_Hash c /\ Length_Low c' = Length_Low c /\
  Length_High c' = Length_High c /\ Computed c' = Computed c /\ Corrupted c' = Corrupted c.
Proof.
  intros W Hi Hl. unfold zero_until. cbv zeta.
  apply (for_range_ind (fun i c' => wf c' /\ Message_Block_Index c' = i /\
    take (Z.to_nat i) (Message_Block c') =
      take (Z.to_nat (Message_Block_Index c)) (Message_Block c) ++
      replicate (Z.to_nat (i - Message_Block_Index c)) 0 /\
    Intermediate_Hash c' = Intermediate_Hash c /\ Length_Low c' = Length_Low c /\
    Length_High c' = Length_High c /\ Computed c' = Computed c /\ Corrupted c' = Corrupted c)).
  - lia.
  - rewrite Z.sub_diag, app_nil_r. done.
  - intros i c' Hic (W' & I & B & ?). split; [by apply wf_push_byte|]. cbn. rewrite I.
    split; [done|]. split; [|done]. rewrite take_aset_snoc by (destruct W'; lia).
    rewrite B, <- app_assoc. f_equal.
    replace (Z.to_nat (i + 1 - Message_Block_Index c))
      with (S (Z.to_nat (i - Message_Block_Index c))) by lia.
    by rewrite replicate_S_end.
Qed.

Lemma u8_shiftr h j : 0 <= j -> u8 (Z.shiftr h j) = h / 2 ^ j mod 256.
Proof. intros. unfold u8. by rewrite Z.shiftr_div_pow2 by lia. Qed.

(** The prefix of length [a = i + 1] of an array whose position [i] was just written. *)
Ltac snoc a i :=
  change (Z.to_nat a) with (Z.to_nat (i + 1));
  rewrite take_aset_snoc by (rewrite ?alen_aset; lia).

Lemma store_length_spec c :
  wf c -> let c' := store_length c in
  wf c' /\ Message_Block c' =
    take 56 (Message_Block c) ++ be_bytes (Length_High c) ++ be_bytes (Length_Low c) /\
  Intermediate_Hash c' = Intermediate_Hash c /\ Computed c' = Computed c /\
  Corrupted c' = Corrupted c.
Proof.
  intros W. cbv zeta. split; [|split; [|done]].
  - destruct W as [W1 W2 W3]. split; cbn; [done|by rewrite !alen_aset|].
    repeat apply bytes_aset; auto using u8_range.
  - destruct W as [_ W2 _]. cbn [store_length set_byte Message_Block].
    rewrite !u8_shiftr by lia. unfold u8. change (2 ^ 8) with 256.
    set (h := Length_High c). set (l := Length_Low c).
    match goal with |- ?x = _ => rewrite <- (take_ge x (Z.to_nat 64)) end.
    2: { rewrite !length_aset. unfold alen in W2. lia. }
    snoc 64 63. snoc 63 62. snoc 62 61. snoc 61 60. snoc 60 59. snoc 59 58. snoc 58 57. snoc 57 56.
    unfold be_bytes. rewrite <- !app_assoc. done.
Qed.

(** The padded message in blocks: one more block when at most 55 bytes are left,
    two otherwise. *)
Lemma pad_blocks full part :
  (64 | length full)%nat -> (length part < 64)%nat ->
  let m := full ++ part in
  let lens := be_bytes (8 * Z.of_nat (length m) / 2 ^ 32) ++
              be_bytes (8 * Z.of_nat (length m) mod 2 ^ 32) in
  pad m =
    if decide (length part <= 55)%nat
    then full ++ (part ++ [0x80] ++ replicate (55 - length part) 0 ++ lens)
    else (full ++ (part ++ [0x80] ++ replicate (63 - length part) 0)) ++ (replicate 56 0 ++ lens).
Proof.
  intros [k Hk] Hp. cbv zeta. unfold pad.
  assert (Hm : (length (full ++ part) mod 64 = length part)%nat).
  { rewrite length_app, Hk, Nat.add_comm, Nat.Div0.mod_add. by apply Nat.mod_small. }
  rewrite Hm. generalize (be_bytes (8 * Z.of_nat (length (full ++ part)) / 2 ^ 32) ++
              be_bytes (8 * Z.of_nat (length (full ++ part)) mod 2 ^ 32)). intros lens.
  case_decide.
  - replace ((119 - length part) mod 64)%nat with (55 - length part)%nat.
    + by rewrite <- !app_assoc.
    + replace (119 - length part)%nat with ((55 - length part) + 1 * 64)%nat by lia.
      rewrite Nat.Div0.mod_add. symmetry. apply Nat.mod_small. lia.
  - rewrite Nat.mod_small by lia.
    replace (119 - length part)%nat with ((63 - length part) + 56)%nat by lia.
    by rewrite replicate_add, <- !app_assoc.
Qed.

Lemma wf_block_64 c : wf c -> take 64 (Message_Block c) = Message_Block c.
Proof. intros [_ W _]. apply take_ge. unfold alen in W. lia. Qed.

(** The end of [SHA1PadMessage]: the length is stored and the block processed. *)
Lemma finish_spec c l blk :
  wf c -> take (Z.to_nat 56) (Message_Block c) = blk ->
  Length_High c * 2 ^ 32 + Length_Low c = l -> 0 <= Length_Low c < 2 ^ 32 ->
  let c' := SHA1ProcessMessageBlock (store_length c) in
  wf c' /\ Corrupted c' = Corrupted c /\
  Intermediate_Hash c' = compress (Intermediate_Hash c)
    (blk ++ be_bytes (l / 2 ^ 32) ++ be_bytes (l mod 2 ^ 32)).
Proof.
  intros W B L Lo. cbv zeta. destruct (store_length_spec c W) as (W' & B' & H' & _ & Cr).
  split; [by apply wf_process|]. rewrite process_spec by done. cbn [Corrupted Intermediate_Hash].
  split; [exact Cr|]. change (Z.to_nat 56) with 56%nat in B. rewrite H', B', B.
  assert (l / 2 ^ 32 = Length_High c) as -> by (symmetry; apply (Z.div_unique _ _ _ (Length_Low c)); lia).
  assert (l mod 2 ^ 32 = Length_Low c) as -> by (symmetry; apply (Z.mod_unique _ _ (Length_High c)); lia).
  reflexivity.
Qed.

Lemma pad_spec c full part :
  inv c full part -> let c' := SHA1PadMessage c in
  wf c' /\ Corrupted c' = 0 /\
  Intermediate_Hash c' = foldl compress H0 (chunks (pad (full ++ part))).
Proof.
  intros [W D P I B H L Lo Hi Co Cr]. cbv zeta. unfold SHA1PadMessage.
  rewrite pad_blocks by done. unfold alen in L, I.
  set (l := 8 * Z.of_nat (length (full ++ part))) in *.
  assert (Wp : wf (push_byte 0x80 c)) by (apply wf_push_byte; [done|lia]).
  assert (Bp : take (Z.to_nat (Z.of_nat (length part) + 1)) (Message_Block (push_byte 0x80 c))
               = part ++ [0x80]).
  { cbn [push_byte Message_Block]. rewrite I, take_aset_snoc by (destruct W; lia).
    by rewrite Nat2Z.id, B. }
  rewrite I. destruct (Z.ltb_spec 55 (Z.of_nat (length part))) as [Hlt|Hlt];
    case_decide as Hc; try lia.
  - destruct (zero_until_spec 64 (push_byte 0x80 c) Wp) as (W1 & I1 & B1 & H1 & L1 & Hi1 & Co1 & Cr1);
      [cbn; lia|lia|]. cbv zeta in *. set (c1 := zero_until 64 _) in *.
    pose proof (wf_process c1 W1) as W2. rewrite (process_spec c1 W1) in W2 |- *.
    set (c2 := mk _ _ _ _ _ _ _) in *.
    destruct (zero_until_spec 56 c2 W2) as (W3 & I3 & B3 & H3 & L3 & Hi3 & Co3 & Cr3);
      [cbn; lia|lia|]. cbv zeta in *.
    destruct (finish_spec (zero_until 56 c2) l (replicate 56 0)) as (W4 & Cr4 & H4);
      [done|by rewrite B3|rewrite Hi3, L3; cbn; by rewrite Hi1, L1|rewrite L3; cbn; by rewrite L1|].
    cbv zeta in *. split; [done|]. rewrite Cr4, Cr3. split; [cbn; by rewrite Cr1|].
    rewrite H4, H3. cbn [c2 Intermediate_Hash]. rewrite H1. cbn [push_byte Intermediate_Hash].
    change (Z.to_nat 64) with 64%nat in B1. rewrite (wf_block_64 _ W1) in B1.
    replace (Z.to_nat (64 - Message_Block_Index (push_byte 128 c))) with (63 - length part)%nat in B1
      by (cbn; lia).
    cbn [push_byte Message_Block_Index] in B1. rewrite I in B1.
    change (Message_Block (push_byte 0x80 c)) with (Message_Block (push_byte 128 c)) in *.
    rewrite Bp in B1. rewrite !chunks_snoc, !foldl_app.
    + simpl foldl. rewrite B1, H, <- app_assoc. done.
    + done.
    + rewrite !length_app, length_replicate. simpl. lia.
    + rewrite !length_app, length_replicate. simpl. destruct D as [k ->]. exists (k + 1)%nat. lia.
    + rewrite !length_app, length_replicate. simpl. lia.
  - destruct (zero_until_spec 56 (push_byte 0x80 c) Wp) as (W1 & I1 & B1 & H1 & L1 & Hi1 & Co1 & Cr1);
      [cbn; lia|lia|]. cbv zeta in *.
    replace (Z.to_nat (56 - Message_Block_Index (push_byte 128 c))) with (55 - length part)%nat in B1
      by (cbn; lia).
    cbn [push_byte Message_Block_Index] in B1. rewrite I, Bp in B1.
    destruct (finish_spec (zero_until 56 (push_byte 0x80 c)) l
      (part ++ [0x80] ++ replicate (55 - length part) 0)) as (W4 & Cr4 & H4);
      [done|by rewrite B1, <- app_assoc|by rewrite Hi1, L1|by rewrite L1|].
    cbv zeta in *. split; [done|]. rewrite Cr4, Cr1. split; [done|].
    rewrite H4, H1. cbn [push_byte Intermediate_Hash]. rewrite chunks_snoc, foldl_app.
    + simpl foldl. by rewrite H, <- !app_assoc.
    + done.
    + rewrite !length_app, length_replicate. simpl. lia.
Qed.

(** The digest bytes are the big-endian bytes of the five words. *)
Lemma digest_bytes H :
  length H = 5%nat -> digest_byte H <$> seqZ 0 SHA1HashSize = mjoin (be_bytes <$> H).
Proof.
  intros HH. destruct H as [|a [|b [|c [|d [|e [|]]]]]]; try discriminate HH.
  change (seqZ 0 SHA1HashSize) with [0;1;2;3;4;5;6;7;8;9;10;11;12;13;14;15;16;17;18;19].
  cbn [fmap list_fmap mjoin list_join]. unfold digest_byte, be_bytes.
  repeat match goal with |- context [Z.shiftr ?i 2] =>
    let v := eval vm_compute in (Z.shiftr i 2) in change (Z.shiftr i 2) with v end.
  repeat match goal with |- context [8 * (3 - Z.land ?i 3)] =>
    let v := eval vm_compute in (8 * (3 - Z.land i 3)) in
    change (8 * (3 - Z.land i 3)) with v end.
  rewrite !u8_shiftr by lia. change (2 ^ 0) with 1. rewrite !Z.div_1_r.
  cbn [aget list_lookup_total lookup_total app]. done.
Qed.

Lemma inv_inputs ms c full part :
  inv c full part -> Forall bytes ms -> 8 * alen (full ++ part ++ mjoin ms) < 2 ^ 64 ->
  exists c' full' part', full' ++ part' = full ++ part ++ mjoin ms /\ inv c' full' part' /\
    foldl (fun c m => (SHA1Input c (Some m) (alen m)).2) (Some c) ms = Some c'.
Proof.
  revert c full part. induction ms as [|m ms IH]; intros c full part Hi Hm Hl.
  - exists c, full, part. simpl. by rewrite app_nil_r.
  - inversion_clear Hm. simpl in *.
    destruct (inv_input c full part m Hi) as (c1 & f1 & p1 & E1 & Hin & Hi1); [done| |].
    { unfold alen in *. rewrite !length_app in *. lia. }
    assert (E : f1 ++ p1 ++ mjoin ms = full ++ part ++ m ++ mjoin ms)
      by (rewrite app_assoc, E1, <- !app_assoc; done).
    destruct (IH c1 f1 p1 Hi1) as (c2 & f2 & p2 & E2 & Hi2 & Hf); [done|by rewrite E|].
    exists c2, f2, p2. rewrite E2, E. by rewrite Hin.
Qed.

Lemma result_spec c full part :
  inv c full part -> exists c',
    SHA1Result (Some c) = (shaSuccess, Some c', sha1 (full ++ part)) /\
    Computed c' = 1 /\ Corrupted c' = 0 /\
    digest_byte (Intermediate_Hash c') <$> seqZ 0 SHA1HashSize = sha1 (full ++ part).
Proof.
  intros Hi. destruct (pad_spec _ _ _ Hi) as (W & Cr & H). cbv zeta in *.
  assert (HD : digest_byte (Intermediate_Hash (SHA1PadMessage c)) <$> seqZ 0 SHA1HashSize
               = sha1 (full ++ part)).
  { rewrite digest_bytes by apply W. unfold sha1. by rewrite H. }
  unfold SHA1Result. rewrite (inv_corrupted _ _ _ Hi), (inv_computed _ _ _ Hi).
  revert W Cr H HD. generalize (SHA1PadMessage c), (sha1 (full ++ part)). intros P d W Cr H HD.
  cbn [Z.eqb negb]. cbv zeta. cbn [Intermediate_Hash]. rewrite HD.
  eexists. split; [reflexivity|]. cbn [Computed Corrupted Intermediate_Hash]. by rewrite Cr, HD.
Qed.

(** C12: Feeding a message below 2^64 bits piece by piece, in any split, to a freshly
    reset context gives success and exactly the FIPS 180-1 digest of the whole
    message. *)
Theorem sha1_stream_correct (c : SHA1Context) (ms : list (list Z)) :
  wf c -> Forall bytes ms -> 8 * alen (mjoin ms) < 2 ^ 64 ->
  exists c', sha1_stream c ms = (shaSuccess, Some c', sha1 (mjoin ms)).
Proof.
  intros W Hb Hl. destruct (inv_reset c W) as (c1 & E1 & Hi). unfold sha1_stream. rewrite E1.
  destruct (inv_inputs ms c1 [] [] Hi Hb Hl) as (c2 & f & p & E & Hi2 & Hf).
  cbn [snd]. rewrite Hf. destruct (result_spec _ _ _ Hi2) as (c3 & E3 & _).
  exists c3. by rewrite E3, E.
Qed.

Lemma sha1_stream_correct_witness :
  exists c', sha1_stream ctx0 [[97; 98]; []; [99]] =
    (shaSuccess, Some c', mjoin (be_bytes <$>
      [0xA9993E36; 0x4706816A; 0xBA3E2571; 0x7850C26C; 0x9CD0D89D])).
Proof.
  destruct (sha1_stream_correct ctx0 [[97; 98]; []; [99]]) as [c' E].
  - split; [done|done|]. apply Forall_replicate. lia.
  - repeat constructor; lia.
  - vm_compute. done.
  - exists c'. rewrite E.
    replace (sha1 _) with (mjoin (be_bytes <$>
      [0xA9993E36; 0x4706816A; 0xBA3E2571; 0x7850C26C; 0x9CD0D89D]))
      by (vm_compute; reflexivity).
    reflexivity.
Defined.

(** After a result the context is closed: asking again gives the same digest,
    and any further input is refused with [shaStateError], after which the
    digest is refused too. *)
Theorem sha1_result_closes (c : SHA1Context) (full part more : list Z) :
  inv c full part -> more <> [] ->
  exists c1 c2,
    SHA1Result (Some c) = (shaSuccess, Some c1, sha1 (full ++ part)) /\
    SHA1Result (Some c1) = (shaSuccess, Some c1, sha1 (full ++ part)) /\
    SHA1Input (Some c1) (Some more) (alen more) = (shaStateError, Some c2) /\
    SHA1Result (Some c2) = (shaStateError, Some c2, []).
Proof.
  intros Hi Hm. destruct (result_spec _ _ _ Hi) as (c1 & E1 & Co & Cr & HD).
  exists c1. eexists. split; [exact E1|]. split.
  - unfold SHA1Result. rewrite Cr, Co. cbn [Z.eqb negb]. cbv zeta. by rewrite HD.
  - unfold SHA1Input. destruct (Z.eqb_spec (alen more) 0) as [E|E].
    { destruct more; [done|]. unfold alen in E. simpl in E. lia. }
    rewrite Co. cbn [Z.eqb negb]. split; reflexivity.
Qed.

Lemma sha1_result_closes_witness :
  exists c, SHA1Reset (Some ctx0) = (shaSuccess, Some c) /\
    exists c1 c2, SHA1Result (Some c) = (shaSuccess, Some c1, sha1 []) /\
      SHA1Input (Some c1) (Some [0]) 1 = (shaStateError, Some c2).
Proof.
  destruct (inv_reset ctx0) as (c & E & Hi); [split; [done|done|apply Forall_replicate; lia]|].
  exists c. split; [done|]. destruct (sha1_result_closes c [] [] [0] Hi) as (c1 & c2 & E1 & _ & E2 & _);
    [done|]. by exists c1, c2.
Defined.

(** The byte that takes the length to 2^64 bits is accepted with success; the
    digest is then refused with code 1, [shaNull], not [shaInputTooLong]. *)
Theorem sha1_too_long_reports_null (c : SHA1Context) (b : Z) :
  Computed c = 0 -> Corrupted c = 0 -> Length_Low c = 2 ^ 32 - 8 -> Length_High c = 2 ^ 32 - 1 ->
  exists c', SHA1Input (Some c) (Some [b]) 1 = (shaSuccess, Some c') /\
    SHA1Result (Some c') = (shaNull, Some c', []).
Proof.
  intros Co Cr L H. unfold SHA1Input. rewrite Co, Cr. cbn [Z.eqb negb].
  eexists. split; [reflexivity|]. change (take (Z.to_nat 1) [b]) with [b]. cbn [input_loop].
  rewrite Cr. cbn [Z.eqb negb]. unfold input_byte. cbv zeta.
  cbn [push_byte Length_Low Length_High Corrupted Message_Block_Index]. rewrite L, H.
  change (u32 (2 ^ 32 - 8 + 8) =? 0) with true. change (u32 (2 ^ 32 - 1 + 1) =? 0) with true.
  cbn [andb]. unfold SHA1Result.
  assert (E : forall i B (c' := mk (Intermediate_Hash c) (u32 (2 ^ 32 - 8 + 8))
      (u32 (2 ^ 32 - 1 + 1)) i B (Computed c) 1),
    Corrupted (if i =? 64 then SHA1ProcessMessageBlock c' else c') = 1) by (intros; by destruct (_ =? _)).
  by rewrite E.
Qed.

Lemma sha1_too_long_reports_null_witness :
  exists c', SHA1Result (Some c') = (shaNull, Some c', []).
Proof.
  destruct (sha1_too_long_reports_null
    (mk H0 (2 ^ 32 - 8) (2 ^ 32 - 1) 63 (replicate 64 0) 0 0) 7) as (c' & _ & E); [done..|].
  by exists c'.
Defined.
End Sha1.
