(* ===== verification/UserLib.v ===== *)
(** * The C string library of the user programs (syscalls/ece391support.c)

    A C object is a list of bytes, a pointer an index into it. Reading or
    writing outside the object is [None]. *)
From stdpp Require Import prelude list numbers.
From Stdlib Require Import ZArith Lia.
From S2P Require Import Prelude.

Module UserLib.

(** Element access that fails out of range, as the abstract machine of C does. *)
Definition load (mem : list Z) (p : Z) : option Z := anth mem p.
Definition store (mem : list Z) (p v : Z) : option (list Z) :=
  if (0 <=? p) && (p <? alen mem) then Some (aset mem p v) else None.

(** [ece391_strlen]: the scan from [s]; it leaves the object after at most as
    many steps as there are bytes. *)
Fixpoint strlen_loop (fuel : nat) (mem : list Z) (s len : Z) : option Z :=
  match fuel with
  | O => None
  | S fuel =>
      c ← load mem s;
      if c =? 0 then Some len else strlen_loop fuel mem (s + 1) (u32 (len + 1))
  end.
Definition strlen (mem : list Z) (s : Z) : option Z := strlen_loop (S (length mem)) mem s 0.

(** [ece391_strcpy]: the byte is read, written, and tested; source and
    destination may lie in the same object. *)
Fixpoint strcpy_loop (fuel : nat) (mem : list Z) (dst src : Z) : option (list Z) :=
  match fuel with
  | O => None
  | S fuel =>
      c ← load mem src;
      mem ← store mem dst c;
      if c =? 0 then Some mem else strcpy_loop fuel mem (dst + 1) (src + 1)
  end.
Definition strcpy (mem : list Z) (dst src : Z) : option (list Z) :=
  strcpy_loop (S (length mem)) mem dst src.

(** [ece391_strcmp] on two objects. *)
Fixpoint strcmp_loop (fuel : nat) (m1 m2 : list Z) (s1 s2 : Z) : option Z :=
  match fuel with
  | O => None
  | S fuel =>
      a ← load m1 s1; b ← load m2 s2;
      if a =? b then if a =? 0 then Some 0 else strcmp_loop fuel m1 m2 (s1 + 1) (s2 + 1)
      else Some (a - b)
  end.
Definition strcmp (m1 m2 : list Z) (s1 s2 : Z) : option Z :=
  strcmp_loop (S (length m1)) m1 m2 s1 s2.

(** [ece391_strncmp]; [n] is a [uint32_t]. *)
Fixpoint strncmp_loop (fuel : nat) (m1 m2 : list Z) (s1 s2 n : Z) : option Z :=
  match fuel with
  | O => None
  | S fuel =>
      a ← load m1 s1; b ← load m2 s2;
      if a =? b then
        if a =? 0 then Some 0
        else let n := u32 (n - 1) in
             if n =? 0 then Some 0 else strncmp_loop fuel m1 m2 (s1 + 1) (s2 + 1) n
      else Some (a - b)
  end.
Definition strncmp (m1 m2 : list Z) (s1 s2 n : Z) : option Z :=
  if n =? 0 then Some 0 else strncmp_loop (S (length m1)) m1 m2 s1 s2 n.

(** [lookup]: "0123456789ABCDEFGHIJKLMNOPQRSTUVWXYZ" and its terminator. *)
Definition lookup : list Z :=
  ((fun i => 48 + i) <$> seqZ 0 10) ++ ((fun i => 65 + i) <$> seqZ 0 26) ++ [0].

(** [ece391_strrev]: in-place reversal by two indices. *)
Fixpoint strrev_loop (fuel : nat) (mem : list Z) (s beg end_ : Z) : option (list Z) :=
  match fuel with
  | O => None
  | S fuel =>
      if beg <? end_ then
        tmp ← load mem (s + end_);
        b ← load mem (s + beg);
        mem ← store mem (s + end_) b;
        mem ← store mem (s + beg) tmp;
        strrev_loop fuel mem s (beg + 1) (end_ - 1)
      else Some mem
  end.
Definition strrev (mem : list Z) (s : Z) : option (list Z) :=
  len ← strlen mem s;
  let end_ := s32 (len - 1) in
  if end_ <=? 0 then Some mem else strrev_loop (S (length mem)) mem s 0 end_.

(** The digit loop of [ece391_itoa]: lowest digit first. A zero radix traps. *)
Fixpoint itoa_loop (fuel : nat) (mem : list Z) (newbuf newval radix : Z) : option (list Z * Z) :=
  match fuel with
  | O => None
  | S fuel =>
      if 0 <? newval then
        if u32 radix =? 0 then None
        else
          let i := s32 (newval mod u32 radix) in
          c ← load lookup i;
          mem ← store mem newbuf c;
          itoa_loop fuel mem (newbuf + 1) (newval / u32 radix) radix
      else Some (mem, newbuf)
  end.
Definition itoa (value : Z) (mem : list Z) (buf radix : Z) : option (list Z) :=
  if value =? 0 then
    mem ← store mem buf 48; store mem (buf + 1) 0
  else
    '(mem, newbuf) ← itoa_loop (S (length mem)) mem buf value radix;
    mem ← store mem newbuf 0;
    strrev mem buf.

(** A NUL-terminated string [w] at [p]. *)
Definition cstr (mem : list Z) (p : Z) (w : list Z) : Prop :=
  0 <= p /\ Forall (fun c => c <> 0) w /\
  take (S (length w)) (drop (Z.to_nat p) mem) = w ++ [0].

(** The value of a numeral, most significant digit first. *)
Definition digit_value (c : Z) : Z := if c <? 65 then c - 48 else c - 55.
Definition numeral (radix : Z) (w : list Z) : Z :=
  foldl (fun acc c => acc * radix + digit_value c) 0 w.

Example itoa_255 : itoa 255 (replicate 8 7) 1 16 = Some [7; 70; 70; 0; 7; 7; 7; 7].
Proof. reflexivity. Qed.
Example itoa_1984 : itoa 1984 (replicate 6 7) 0 10 = Some [49; 57; 56; 52; 0; 7].
Proof. reflexivity. Qed.
Example strncmp_prefix : strncmp [97; 98; 0] [97; 99; 0] 0 0 1 = Some 0.
Proof. reflexivity. Qed.

(** ** Laws *)

Lemma cstr_length mem p w : cstr mem p w -> p + alen w + 1 <= alen mem.
Proof.
  intros (Hp & _ & E). apply (f_equal length) in E.
  rewrite length_take, length_drop, length_app in E. cbn [length] in E. unfold alen. lia.
Qed.

Lemma cstr_load mem p w i :
  cstr mem p w -> 0 <= i <= alen w -> load mem (p + i) = (w ++ [0]) !! Z.to_nat i.
Proof.
  intros (Hp & Hw & E) Hi. unfold load, anth, alen in *.
  destruct (Z.leb_spec 0 (p + i)); [|lia].
  rewrite <- E, lookup_take_lt, lookup_drop by lia. f_equal. lia.
Qed.

(** The bytes of a string one by one: the next byte, and the rest of the string. *)
Lemma cstr_cons mem p c w : cstr mem p (c :: w) -> load mem p = Some c /\ c <> 0 /\ cstr mem (p + 1) w.
Proof.
  intros H. pose proof (cstr_load _ _ _ 0 H) as L. rewrite Z.add_0_r in L.
  rewrite L by (unfold alen; simpl; lia). destruct H as (Hp & Hw & E). inversion_clear Hw.
  split; [done|]. split; [done|]. split; [lia|]. split; [done|].
  destruct (drop (Z.to_nat p) mem) as [|d l] eqn:Ed; [done|]. simpl in E.
  injection E as -> E. replace (Z.to_nat (p + 1)) with (Z.to_nat p + 1)%nat by lia.
  rewrite <- drop_drop, Ed. simpl. done.
Qed.

Lemma cstr_nil mem p : cstr mem p [] -> load mem p = Some 0.
Proof.
  intros H. pose proof (cstr_load _ _ _ 0 H) as L. rewrite Z.add_0_r in L. apply L.
  unfold alen. simpl. lia.
Qed.

Lemma strlen_loop_spec w : forall fuel mem p len,
  cstr mem p w -> (length w < fuel)%nat -> 0 <= len -> len + alen w < 2 ^ 32 ->
  strlen_loop fuel mem p len = Some (len + alen w).
Proof.
  induction w as [|c w IH]; intros [|fuel] mem p len Hs Hf Hl Hb; simpl in Hf; try lia.
  - simpl. rewrite (cstr_nil _ _ Hs). simpl. unfold alen. simpl. by rewrite Z.add_0_r.
  - apply cstr_cons in Hs as (L & Hc & Hs). simpl. rewrite L. simpl.
    destruct (Z.eqb_spec c 0); [done|]. unfold alen in *. simpl in Hb.
    rewrite u32_small, IH by (done || unfold alen; lia). f_equal. unfold alen. simpl. lia.
Qed.

Lemma strlen_spec mem p w : cstr mem p w -> alen w < 2 ^ 32 -> strlen mem p = Some (alen w).
Proof.
  intros Hs Hb. pose proof (cstr_length _ _ _ Hs) as Hl. destruct (Hs) as (Hp & _). unfold strlen.
  rewrite (strlen_loop_spec w); [done|done| |lia|lia]. unfold alen in *. lia.
Qed.

Lemma strcmp_loop_spec w1 : forall w2 fuel m1 m2 s1 s2,
  cstr m1 s1 w1 -> cstr m2 s2 w2 -> (length w1 < fuel)%nat ->
  exists d, strcmp_loop fuel m1 m2 s1 s2 = Some d /\ (d = 0 <-> w1 = w2).
Proof.
  induction w1 as [|a w1 IH]; intros w2 [|fuel] m1 m2 s1 s2 H1 H2 Hf; simpl in Hf; try lia.
  - apply cstr_nil in H1. simpl. rewrite H1. destruct w2 as [|b w2].
    + rewrite (cstr_nil _ _ H2). simpl. by exists 0.
    + apply cstr_cons in H2 as (-> & Hb & _). cbn [mbind option_bind].
      destruct (Z.eqb_spec 0 b); [congruence|]. exists (0 - b). split; [done|].
      split; [lia|done].
  - apply cstr_cons in H1 as (L1 & Ha & H1). simpl. rewrite L1. destruct w2 as [|b w2].
    + rewrite (cstr_nil _ _ H2). cbn [mbind option_bind].
      destruct (Z.eqb_spec a 0); [done|]. exists (a - 0). split; [done|]. split; [lia|done].
    + apply cstr_cons in H2 as (-> & Hb & H2). cbn [mbind option_bind].
      destruct (Z.eqb_spec a b) as [->|Hne].
      * destruct (Z.eqb_spec b 0); [done|]. destruct (IH w2 fuel m1 m2 _ _ H1 H2) as (d & E & Hd);
          [lia|]. exists d. split; [done|]. rewrite Hd. split; congruence.
      * exists (a - b). split; [done|]. split; [lia|congruence].
Qed.

Lemma strcmp_eq_iff m1 m2 s1 s2 w1 w2 :
  cstr m1 s1 w1 -> cstr m2 s2 w2 ->
  exists d, strcmp m1 m2 s1 s2 = Some d /\ (d = 0 <-> w1 = w2).
Proof.
  intros H1 H2. apply strcmp_loop_spec; [done..|].
  pose proof (cstr_length _ _ _ H1). destruct H1 as (? & _). unfold alen in *. lia.
Qed.

(** [strncmp] compares the first [n] bytes (up to the terminators). *)
Lemma strncmp_loop_spec w1 : forall w2 fuel m1 m2 s1 s2 n,
  cstr m1 s1 w1 -> cstr m2 s2 w2 -> (length w1 < fuel)%nat -> 0 < n < 2 ^ 32 ->
  exists d, strncmp_loop fuel m1 m2 s1 s2 n = Some d /\
    (d = 0 <-> take (Z.to_nat n) w1 = take (Z.to_nat n) w2).
Proof.
  induction w1 as [|a w1 IH]; intros w2 [|fuel] m1 m2 s1 s2 n H1 H2 Hf Hn; simpl in Hf; try lia.
  - apply cstr_nil in H1. simpl. rewrite H1, take_nil. destruct w2 as [|b w2].
    + rewrite (cstr_nil _ _ H2), take_nil. simpl. by exists 0.
    + apply cstr_cons in H2 as (-> & Hb & _). cbn [mbind option_bind].
      destruct (Z.eqb_spec 0 b); [congruence|]. exists (0 - b). split; [done|].
      destruct (Z.to_nat n) eqn:En; [lia|]. split; [lia|done].
  - apply cstr_cons in H1 as (L1 & Ha & H1). simpl. rewrite L1.
    destruct (Z.to_nat n) as [|k] eqn:En; [lia|]. destruct w2 as [|b w2].
    + rewrite (cstr_nil _ _ H2). cbn [mbind option_bind].
      destruct (Z.eqb_spec a 0); [done|]. exists (a - 0). split; [done|]. split; [lia|done].
    + apply cstr_cons in H2 as (-> & Hb & H2). cbn [mbind option_bind take].
      destruct (Z.eqb_spec a b) as [->|Hne].
      * destruct (Z.eqb_spec b 0); [done|]. cbv zeta. rewrite u32_small by lia.
        destruct (Z.eqb_spec (n - 1) 0) as [E1|E1].
        -- exists 0. assert (k = 0%nat) as -> by lia. done.
        -- destruct (IH w2 fuel m1 m2 _ _ (n - 1) H1 H2) as (d & E & Hd); [lia..|].
           exists d. split; [done|]. replace (Z.to_nat (n - 1)) with k in Hd by lia.
           rewrite Hd. split; congruence.
      * exists (a - b). split; [done|]. split; [lia|congruence].
Qed.

Lemma strncmp_eq_iff m1 m2 s1 s2 w1 w2 n :
  cstr m1 s1 w1 -> cstr m2 s2 w2 -> 0 <= n < 2 ^ 32 ->
  exists d, strncmp m1 m2 s1 s2 n = Some d /\
    (d = 0 <-> take (Z.to_nat n) w1 = take (Z.to_nat n) w2).
Proof.
  intros H1 H2 Hn. unfold strncmp. destruct (Z.eqb_spec n 0) as [->|]; [by exists 0|].
  apply strncmp_loop_spec; [done..| |lia].
  pose proof (cstr_length _ _ _ H1). destruct H1 as (? & _). unfold alen in *. lia.
Qed.

Lemma store_Some mem p v : 0 <= p < alen mem -> store mem p v = Some (aset mem p v).
Proof. intros. unfold store. by rewrite (proj2 (Z.leb_le 0 p)), (proj2 (Z.ltb_lt p _)) by lia. Qed.

Lemma cstr_aset_out mem p w q v :
  cstr mem p w -> 0 <= q -> q < p \/ p + alen w < q -> cstr (aset mem q v) p w.
Proof.
  intros (Hp & Hw & E) Hq Ho. split; [done|]. split; [done|]. rewrite <- E.
  unfold aset, alen in *. apply list_eq. intros i.
  destruct (decide (i < S (length w))%nat); [|by rewrite !lookup_take_ge by lia].
  rewrite !lookup_take_lt, !lookup_drop, list_lookup_insert_ne by lia. done.
Qed.

(** A string copied down over itself, or between disjoint places. *)
Lemma strcpy_loop_spec w : forall fuel mem dst src,
  cstr mem src w -> (length w < fuel)%nat -> 0 <= dst -> dst + alen w < alen mem ->
  dst <= src \/ src + alen w < dst ->
  strcpy_loop fuel mem dst src =
    Some (take (Z.to_nat dst) mem ++ w ++ [0] ++ drop (Z.to_nat (dst + alen w + 1)) mem).
Proof.
  induction w as [|c w IH]; intros [|fuel] mem dst src Hs Hf Hd Hb Ho; simpl in Hf; try lia.
  - simpl. rewrite (cstr_nil _ _ Hs). unfold alen in *. simpl in *.
    rewrite store_Some by (unfold alen; lia). simpl. f_equal. unfold aset.
    rewrite insert_take_drop by lia. do 3 f_equal. lia.
  - apply cstr_cons in Hs as (L & Hc & Hs). simpl. rewrite L. cbn [mbind option_bind].
    unfold alen in *. simpl in Hb, Ho.
    rewrite store_Some by (unfold alen; lia). cbn [mbind option_bind].
    destruct (Z.eqb_spec c 0); [done|]. rewrite IH.
    + f_equal. unfold aset, alen. replace (Z.to_nat (dst + 1)) with (S (Z.to_nat dst)) by lia.
      rewrite take_insert_snoc by lia. rewrite <- app_assoc. cbn [app].
      rewrite drop_insert_lt by lia.
      by replace (dst + 1 + Z.of_nat (length w) + 1) with (dst + Z.of_nat (S (length w)) + 1) by lia.
    + apply cstr_aset_out; [done|lia|]. unfold alen. lia.
    + lia.
    + lia.
    + unfold alen. rewrite length_aset. lia.
    + unfold alen. lia.
Qed.

Lemma strcpy_spec mem dst src w :
  cstr mem src w -> 0 <= dst -> dst + alen w < alen mem ->
  dst <= src \/ src + alen w < dst ->
  strcpy mem dst src =
    Some (take (Z.to_nat dst) mem ++ w ++ [0] ++ drop (Z.to_nat (dst + alen w + 1)) mem).
Proof. intros Hs. intros. apply strcpy_loop_spec; [done| |done..]. unfold alen in *. lia. Qed.

(** Reversal of the middle of a memory. *)
Lemma load_middle pre c post : load (pre ++ c :: post) (alen pre) = Some c.
Proof.
  unfold load, anth, alen. destruct (Z.leb_spec 0 (Z.of_nat (length pre))); [|lia].
  by rewrite Nat2Z.id, list_lookup_middle.
Qed.
Lemma store_middle pre c post v :
  store (pre ++ c :: post) (alen pre) v = Some (pre ++ v :: post).
Proof.
  rewrite store_Some by (unfold alen; rewrite length_app; simpl; lia).
  unfold aset, alen. rewrite Nat2Z.id. f_equal. rewrite insert_app_r_alt by done.
  by rewrite Nat.sub_diag.
Qed.

Lemma strrev_loop_spec fuel : forall pre mid post s beg end_,
  s + beg = alen pre -> end_ - beg + 1 = alen mid -> (length mid < 2 * fuel)%nat ->
  strrev_loop fuel (pre ++ mid ++ post) s beg end_ = Some (pre ++ reverse mid ++ post).
Proof.
  induction fuel as [|fuel IH]; intros pre mid post s beg end_ Hs Hm Hf; [lia|]. simpl.
  destruct mid as [|a mid]; [|destruct mid as [|b mid _] using rev_ind].
  - destruct (Z.ltb_spec beg end_); [unfold alen in Hm; simpl in Hm; lia|]. done.
  - destruct (Z.ltb_spec beg end_); [unfold alen in Hm; simpl in Hm; lia|]. done.
  - cbn [length] in Hf. rewrite !length_app in Hf. cbn [length] in Hf. unfold alen in Hm. simpl in Hm.
    rewrite length_app in Hm. simpl in Hm. rewrite (proj2 (Z.ltb_lt beg end_)) by lia.
    assert (Hend : s + end_ = alen (pre ++ a :: mid)) by (unfold alen in *; rewrite length_app; simpl; lia).
    replace (pre ++ (a :: mid ++ [b]) ++ post) with ((pre ++ a :: mid) ++ b :: post)
      by by rewrite <- !app_assoc; simpl; rewrite <- app_assoc.
    rewrite Hend, load_middle. cbn [mbind option_bind].
    replace (load ((pre ++ a :: mid) ++ b :: post) (s + beg)) with (Some a)
      by by rewrite Hs, <- app_assoc; simpl; rewrite load_middle.
    cbn [mbind option_bind]. rewrite store_middle. cbn [mbind option_bind].
    rewrite <- app_assoc, Hs. cbn [app]. rewrite store_middle. cbn [mbind option_bind].
    replace (pre ++ b :: mid ++ a :: post) with ((pre ++ [b]) ++ mid ++ (a :: post))
      by by rewrite <- app_assoc.
    rewrite IH.
    + rewrite reverse_cons, reverse_app. simpl. by rewrite <- !app_assoc.
    + unfold alen in *. rewrite length_app. simpl. lia.
    + unfold alen. lia.
    + lia.
Qed.

Lemma cstr_app pre w post :
  Forall (fun c => c <> 0) w -> cstr (pre ++ w ++ 0 :: post) (alen pre) w.
Proof.
  intros Hw. split; [unfold alen; lia|]. split; [done|]. unfold alen.
  rewrite Nat2Z.id, drop_app_length, take_app_ge by lia.
  replace (S (length w) - length w)%nat with 1%nat by lia. done.
Qed.

Lemma strrev_spec pre w post :
  Forall (fun c => c <> 0) w -> alen w < 2 ^ 31 ->
  strrev (pre ++ w ++ 0 :: post) (alen pre) = Some (pre ++ reverse w ++ 0 :: post).
Proof.
  intros Hw Hb. unfold strrev. rewrite (strlen_spec _ _ w) by (by apply cstr_app || lia).
  cbn [mbind option_bind]. cbv zeta. destruct w as [|a w]; [done|].
  rewrite s32_small by (unfold alen in *; simpl in *; lia).
  destruct (Z.leb_spec (alen (a :: w) - 1) 0) as [Hl|Hl].
  - unfold alen in Hl. destruct w; [done|simpl in Hl; lia].
  - apply strrev_loop_spec; [lia|unfold alen; lia|]. rewrite !length_app. simpl. lia.
Qed.

(** *** [itoa] *)

Lemma lookup_digit i :
  0 <= i < 36 -> exists c, load lookup i = Some c /\ digit_value c = i /\ 48 <= c <= 90.
Proof. intros Hi. split_range i; eexists; split_and!; vm_compute; try reflexivity; by intros [=]. Qed.

Lemma itoa_loop_spec radix : 2 <= radix <= 36 -> forall fuel k mem nb v,
  (k < fuel)%nat -> 0 <= v < 2 ^ Z.of_nat k -> 0 <= nb -> nb + Z.of_nat k <= alen mem ->
  exists ds, itoa_loop fuel mem nb v radix =
      Some (take (Z.to_nat nb) mem ++ ds ++ drop (Z.to_nat (nb + alen ds)) mem, nb + alen ds) /\
    (length ds <= k)%nat /\ Forall (fun c => 48 <= c <= 90) ds /\
    numeral radix (reverse ds) = v /\ reverse ds !! 0%nat <> Some 48.
Proof.
  intros Hr. induction fuel as [|fuel IH]; intros k mem nb v Hk Hv Hnb Hroom; [lia|]. cbn [itoa_loop].
  destruct (Z.ltb_spec 0 v) as [Hpos|Hz].
  2: { exists []. unfold alen. simpl. rewrite Z.add_0_r, take_drop. split_and!; try done; [lia|].
       change (numeral radix (reverse [])) with 0. lia. }
  rewrite (u32_small radix) by lia. destruct (Z.eqb_spec radix 0); [lia|].
  destruct k as [|k]; [simpl in Hv; lia|].
  pose proof (Z.mod_pos_bound v radix ltac:(lia)) as Hmod.
  cbv zeta. rewrite s32_small by lia.
  destruct (lookup_digit (v mod radix)) as (c & Lc & Dc & Rc); [lia|].
  rewrite Lc. cbn [mbind option_bind]. rewrite store_Some by lia. cbn [mbind option_bind].
  assert (Hdiv : 0 <= v / radix < 2 ^ Z.of_nat k).
  { split; [apply Z.div_pos; lia|]. apply Z.div_lt_upper_bound; [lia|].
    rewrite Nat2Z.inj_succ, Z.pow_succ_r in Hv by lia. nia. }
  destruct (IH k (aset mem nb c) (nb + 1) (v / radix)) as (ds & E & Hl & Hf & Hn & Hlast);
    [lia|done|lia|rewrite alen_aset; lia|].
  exists (c :: ds). rewrite E. unfold alen in *. simpl length. split_and!.
  - f_equal. f_equal; [|lia]. replace (Z.to_nat (nb + 1)) with (S (Z.to_nat nb)) by lia. unfold aset.
    rewrite take_insert_snoc, <- app_assoc by lia. cbn [app]. rewrite drop_insert_lt by lia.
    do 4 f_equal. lia.
  - lia.
  - by constructor.
  - rewrite reverse_cons. unfold numeral in *. rewrite foldl_app, Hn. simpl. rewrite Dc.
    pose proof (Z.div_mod v radix). lia.
  - rewrite reverse_cons. destruct (reverse ds) as [|d ds']; [|done]. simpl. intros [= ->].
    change (numeral radix []) with 0 in Hn. change (digit_value 48) with 0 in Dc.
    pose proof (Z.div_mod v radix). lia.
Qed.

(** ** Properties *)

(** [itoa] writes, at [buf], the numeral of [value] in the given radix, without
    leading zero, followed by NUL, and leaves every other byte alone; the numeral
    reads back as [value]. 33 bytes of room are enough for any 32-bit value. *)
Theorem itoa_spec (value buf radix : Z) (mem : list Z) :
  0 <= value < 2 ^ 32 -> 2 <= radix <= 36 -> 0 <= buf -> buf + 33 <= alen mem ->
  exists w,
    itoa value mem buf radix =
      Some (take (Z.to_nat buf) mem ++ w ++ [0] ++ drop (Z.to_nat (buf + alen w + 1)) mem) /\
    1 <= alen w <= 32 /\ Forall (fun c => 48 <= c <= 90) w /\
    numeral radix w = value /\ (w !! 0%nat = Some 48 -> w = [48]).
Proof.
  intros Hv Hr Hb Hroom. unfold itoa. destruct (Z.eqb_spec value 0) as [->|Hne].
  - exists [48]. split; [|split_and!; try done; repeat constructor; lia].
    rewrite store_Some by lia. cbn [mbind option_bind].
    rewrite store_Some by (rewrite alen_aset; lia). unfold aset, alen in *. f_equal.
    rewrite insert_take_drop by (rewrite length_insert; lia).
    replace (Z.to_nat (buf + 1)) with (S (Z.to_nat buf)) by lia.
    rewrite take_insert_snoc, <- app_assoc, drop_insert_lt by lia.
    replace (Z.to_nat (buf + Z.of_nat (length [48]) + 1)) with (S (S (Z.to_nat buf))) by (simpl; lia).
    done.
  - destruct (itoa_loop_spec radix Hr (S (length mem)) 32 mem buf value)
      as (ds & E & Hl & Hf & Hn & Hh); [unfold alen in *; lia|done|done|lia|].
    rewrite E. cbn [mbind option_bind].
    set (pre := take (Z.to_nat buf) mem). assert (Hpre : alen pre = buf).
    { unfold pre, alen in *. rewrite length_take. lia. }
    assert (Hdrop : exists x post, drop (Z.to_nat (buf + alen ds)) mem = x :: post /\
      post = drop (Z.to_nat (buf + alen ds + 1)) mem).
    { destruct (drop (Z.to_nat (buf + alen ds)) mem) as [|x post] eqn:Ed.
      - apply (f_equal length) in Ed. rewrite length_drop in Ed. unfold alen in *. simpl in Ed. lia.
      - exists x, post. split; [done|]. unfold alen in *.
        replace (Z.to_nat (buf + Z.of_nat (length ds) + 1))
          with (Z.to_nat (buf + Z.of_nat (length ds)) + 1)%nat by lia.
        by rewrite <- drop_drop, Ed. }
    destruct Hdrop as (x & post & -> & Hpost). rewrite app_assoc.
    replace (buf + alen ds) with (alen (pre ++ ds)) by (unfold alen in *; rewrite length_app; lia).
    rewrite store_middle. cbn [mbind option_bind]. rewrite <- app_assoc, <- Hpre.
    rewrite strrev_spec; [|eapply List.Forall_impl; [|exact Hf]; simpl; lia|unfold alen; lia].
    exists (reverse ds). unfold alen. rewrite length_reverse. split_and!.
    + rewrite Hpost. unfold alen in Hpre. rewrite Hpre. done.
    + destruct ds; simpl; [|lia]. change (numeral radix (reverse [])) with 0 in Hn. lia.
    + lia.
    + by apply Forall_reverse.
    + done.
    + intros ?. done.
Qed.

Lemma itoa_spec_witness :
  exists w, itoa 2048 (replicate 40 0) 3 10 = Some (replicate 3 0 ++ w ++ [0] ++ drop
    (Z.to_nat (3 + alen w + 1)) (replicate 40 0)) /\ numeral 10 w = 2048.
Proof.
  destruct (itoa_spec 2048 3 10 (replicate 40 0)) as (w & E & _ & _ & Hn & _).
  - lia.
  - lia.
  - lia.
  - vm_compute. by intros [=].
  - exists w. by split.
Defined.

(** [strcpy] moves a string down over itself or to a disjoint place: exactly the
    string and its NUL are written. *)
Theorem strcpy_correct (mem : list Z) (dst src : Z) (w : list Z) :
  cstr mem src w -> 0 <= dst -> dst + alen w < alen mem ->
  dst <= src \/ src + alen w < dst ->
  exists mem', strcpy mem dst src = Some mem' /\ cstr mem' dst w /\ alen mem' = alen mem /\
    (forall i, 0 <= i -> i < dst \/ dst + alen w < i -> aget mem' i = aget mem i).
Proof.
  intros Hs Hd Hb Ho. eexists. split; [by apply strcpy_spec|].
  assert (Hl : alen (take (Z.to_nat dst) mem) = dst) by (unfold alen in *; rewrite length_take; lia).
  split_and!.
  - pose proof (cstr_app (take (Z.to_nat dst) mem) w (drop (Z.to_nat (dst + alen w + 1)) mem)) as C.
    rewrite Hl in C. apply C, Hs.
  - unfold alen in *. rewrite !length_app, length_drop. simpl. lia.
  - intros i Hi [Hlt|Hgt].
    + rewrite aget_app_l by lia. by rewrite aget_take by lia.
    + rewrite aget_app_r, aget_app_r, aget_app_r by (unfold alen in *; simpl; lia).
      unfold aget. rewrite lookup_total_drop. f_equal. unfold alen in *. simpl. lia.
Qed.

Lemma strcpy_correct_witness :
  exists mem', strcpy [1; 2; 97; 98; 0; 9] 0 2 = Some mem' /\ cstr mem' 0 [97; 98].
Proof.
  destruct (strcpy_correct [1; 2; 97; 98; 0; 9] 0 2 [97; 98]) as (mem' & E & C & _).
  - split; [lia|]. split; [repeat constructor; lia|done].
  - lia.
  - vm_compute. done.
  - lia.
  - by exists mem'.
Defined.

(** [strcmp] answers 0 exactly on equal strings, [strncmp] exactly when the first
    [n] bytes agree; both always answer on terminated strings. *)
Theorem strncmp_decides_prefix (m1 m2 : list Z) (s1 s2 n : Z) (w1 w2 : list Z) :
  cstr m1 s1 w1 -> cstr m2 s2 w2 -> 0 <= n < 2 ^ 32 ->
  exists d e, strcmp m1 m2 s1 s2 = Some d /\ strncmp m1 m2 s1 s2 n = Some e /\
    (d = 0 <-> w1 = w2) /\
    (e = 0 <-> take (Z.to_nat n) w1 = take (Z.to_nat n) w2).
Proof.
  intros H1 H2 Hn. destruct (strcmp_eq_iff _ _ _ _ _ _ H1 H2) as (d & Ed & Hd).
  destruct (strncmp_eq_iff _ _ _ _ _ _ n H1 H2 Hn) as (e & Ee & He). by exists d, e.
Qed.

Lemma strncmp_decides_prefix_witness :
  exists d e, strcmp [97; 98; 0] [97; 99; 0] 0 0 = Some d /\
    strncmp [97; 98; 0] [97; 99; 0] 0 0 1 = Some e /\ (d = 0 <-> [97; 98] = [97; 99]).
Proof.
  destruct (strncmp_decides_prefix [97; 98; 0] [97; 99; 0] 0 0 1 [97; 98] [97; 99])
    as (d & e & Ed & Ee & Hd & _).
  - split; [lia|]. split; [repeat constructor; lia|done].
  - split; [lia|]. split; [repeat constructor; lia|done].
  - lia.
  - by exists d, e.
Defined.
End UserLib.
