(* ===== verification/LPHash.v ===== *)
(** * Linear-probing hash table (student-distrib/inc/klibs/lphashtable.h)

    The table is an array of [size] entries; a probe is the code's loop, which
    does not end on a table without a free or matching slot: it gets [size] steps
    (it has seen every slot by then), and [None] stands for its divergence. *)
From stdpp Require Import prelude list numbers.
From Stdlib Require Import ZArith Lia.
From S2P Require Import Prelude.

(** What the table asks of its key type: [HashFn::hash] and [operator==], an
    equivalence that the hash respects. *)
Class HashFn (K : Type) := {
  hash : K -> Z;
  keq : K -> K -> bool;
  hash_nonneg : forall k, 0 <= hash k;
  keq_refl : forall k, keq k k = true;
  keq_trans : forall a b c, keq a b = true -> keq a c = keq b c;
  keq_sym : forall a b, keq a b = keq b a;
  keq_hash : forall a b, keq a b = true -> hash a = hash b }.

Module LPHash.
Section table.
Context {K V : Type} `{!HashFn K} (size : Z) (dflt : V).

(** [HashEntry]: [None] when [_isSet] is false. *)
Definition entry : Type := option (K * V).
Definition t : Type := list entry.
#[local] Instance entry_inhabited : Inhabited entry := populate None.

Definition init : t := replicate (Z.to_nat size) None.

(** [isSet() && getKey() != key]: the slot makes the probe go on. *)
Definition busy (e : entry) (key : K) : bool :=
  match e with Some (k, _) => negb (keq k key) | None => false end.

Fixpoint probe (fuel : nat) (tab : t) (key : K) (pos : Z) : option Z :=
  match fuel with
  | O => None
  | S fuel =>
      if busy (aget tab pos) key then probe fuel tab key ((pos + 1) mod size) else Some pos
  end.

Definition find (tab : t) (key : K) : option Z :=
  probe (Z.to_nat size) tab key (hash key mod size).

(** [get(key, found)]: the value and [found]. *)
Definition get (tab : t) (key : K) : option (V * bool) :=
  pos ← find tab key;
  Some (match aget tab pos with None => (dflt, false) | Some (_, v) => (v, true) end).

Definition put (tab : t) (key : K) (value : V) : option t :=
  pos ← find tab key;
  Some (aset tab pos (Some (key, value))).

(** ** Invariant *)

Definition slot (key : K) (j : Z) : Z := (hash key + j) mod size.

(** Every entry is reachable from its hash through busy slots, and some slot is
    free. *)
Record inv (tab : t) : Prop := {
  inv_len : alen tab = size;
  inv_chain : forall i k v, 0 <= i < size -> aget tab i = Some (k, v) ->
    exists j, 0 <= j < size /\ i = slot k j /\
      forall j', 0 <= j' < j -> busy (aget tab (slot k j')) k = true }.

Definition has_free (tab : t) : Prop := exists i, 0 <= i < size /\ aget tab i = None.

Lemma slot_range key j : 0 < size -> 0 <= slot key j < size.
Proof. intros. unfold slot. apply Z.mod_pos_bound. lia. Qed.

Lemma slot_succ key j : 0 < size -> (slot key j + 1) mod size = slot key (j + 1).
Proof.
  intros. unfold slot. rewrite Zplus_mod_idemp_l. f_equal. lia.
Qed.

(** The slots of a key cover the table. *)
Lemma slot_onto key i : 0 <= i < size -> exists j, 0 <= j < size /\ slot key j = i.
Proof.
  intros Hi. exists ((i - hash key) mod size). split; [apply Z.mod_pos_bound; lia|].
  unfold slot. rewrite Zplus_mod_idemp_r. replace (hash key + (i - hash key)) with i by lia.
  apply Z.mod_small. lia.
Qed.

(** The probe returns the first slot that is not busy. *)
Lemma probe_first tab key j : 0 < size -> forall fuel j0,
  0 <= j0 <= j -> (Z.to_nat (j - j0) < fuel)%nat ->
  (forall j', j0 <= j' < j -> busy (aget tab (slot key j')) key = true) ->
  busy (aget tab (slot key j)) key = false ->
  probe fuel tab key (slot key j0) = Some (slot key j).
Proof.
  intros Hs. induction fuel as [|fuel IH]; intros j0 Hj Hf Hb He; [lia|]. simpl.
  destruct (decide (j0 = j)) as [->|Hne]; [by rewrite He|].
  rewrite Hb, slot_succ by lia. apply IH; [lia|lia| |done]. intros j' Hj'. apply Hb. lia.
Qed.

Lemma find_first tab key j :
  0 < size -> 0 <= j < size ->
  (forall j', 0 <= j' < j -> busy (aget tab (slot key j')) key = true) ->
  busy (aget tab (slot key j)) key = false ->
  find tab key = Some (slot key j).
Proof.
  intros Hs Hj Hb He. unfold find.
  replace (hash key mod size) with (slot key 0) by (unfold slot; by rewrite Z.add_0_r).
  apply probe_first; try done; lia.
Qed.

(** The first slot that is not busy, when there is one. *)
Lemma first_free tab key :
  0 < size -> (exists i, 0 <= i < size /\ busy (aget tab i) key = false) ->
  exists j, 0 <= j < size /\ busy (aget tab (slot key j)) key = false /\
    forall j', 0 <= j' < j -> busy (aget tab (slot key j')) key = true.
Proof.
  intros Hs (i & Hi & Hb). destruct (slot_onto key i Hi) as (j & Hj & <-).
  assert (Hex : forall n, (exists j, 0 <= j < Z.of_nat n /\ busy (aget tab (slot key j)) key = false) ->
    exists j, 0 <= j < Z.of_nat n /\ busy (aget tab (slot key j)) key = false /\
      forall j', 0 <= j' < j -> busy (aget tab (slot key j')) key = true).
  { induction n as [|n IH]; intros (j1 & Hj1 & Hb1); [lia|].
    destruct (existsb (fun j => negb (busy (aget tab (slot key j)) key)) (seqZ 0 (Z.of_nat n))) eqn:E.
    - apply existsb_exists in E as (j2 & Hin & Hb2%negb_true_iff).
      apply list_elem_of_In, elem_of_seqZ in Hin.
      destruct IH as (j3 & Hj3 & Hb3 & Hf3); [exists j2; split; [lia|done]|].
      exists j3. split; [lia|]. done.
    - assert (Hall : forall j', 0 <= j' < Z.of_nat n -> busy (aget tab (slot key j')) key = true).
      { intros j' Hj'. destruct (busy (aget tab (slot key j')) key) eqn:E'; [done|].
        assert (existsb (fun j => negb (busy (aget tab (slot key j)) key)) (seqZ 0 (Z.of_nat n)) = true);
          [|congruence].
        apply existsb_exists. exists j'. rewrite E'. split; [|done].
        apply list_elem_of_In, elem_of_seqZ. lia. }
      exists j1. split; [lia|]. split; [done|]. intros j' Hj'.
      apply Hall. destruct (decide (j1 < Z.of_nat n)) as [Hlt|]; [|lia].
      rewrite Hall in Hb1 by lia. done. }
  destruct (Hex (Z.to_nat size)) as (j1 & H1 & H2); [exists j; split; [lia|done]|].
  exists j1. split; [lia|done].
Qed.

(** [find] answers on a table with a free slot: either a free slot and then no
    entry has the key, or the only entry with the key. *)
Lemma find_spec tab key :
  inv tab -> has_free tab -> 0 < size ->
  exists pos, find tab key = Some pos /\ 0 <= pos < size /\
    match aget tab pos with
    | Some (k, _) => keq k key = true
    | None => forall i k v, 0 <= i < size -> aget tab i = Some (k, v) -> keq k key = false
    end /\
    (forall i k v, 0 <= i < size -> aget tab i = Some (k, v) -> keq k key = true -> i = pos) /\
    (exists j, 0 <= j < size /\ pos = slot key j /\
       forall j', 0 <= j' < j -> busy (aget tab (slot key j')) key = true).
Proof.
  intros [HL HC] (i0 & Hi0 & Hfree) Hs.
  destruct (first_free tab key Hs) as (j & Hj & Hb & Hbefore); [exists i0; by rewrite Hfree|].
  exists (slot key j). split; [by apply find_first|]. split; [by apply slot_range|].
  assert (Huniq : forall i k v, 0 <= i < size -> aget tab i = Some (k, v) -> keq k key = true ->
    i = slot key j).
  { intros i k v Hi He Hk. destruct (HC i k v Hi He) as (j1 & Hj1 & Hi1 & Hb1).
    assert (Hsl : forall x, slot k x = slot key x) by (intros x; unfold slot; by rewrite (keq_hash k key)).
    assert (Hbk : forall e, busy e k = busy e key).
    { intros [[k' v']|]; [|done]. simpl. f_equal.
      rewrite (keq_sym k' k), (keq_sym k' key). by apply keq_trans. }
    rewrite Hsl in Hi1. subst i. f_equal.
    destruct (Z.lt_trichotomy j1 j) as [Hlt|[->|Hgt]]; [|done|].
    - specialize (Hbefore j1 ltac:(lia)). rewrite He in Hbefore. simpl in Hbefore.
      by rewrite Hk in Hbefore.
    - specialize (Hb1 j ltac:(lia)). rewrite Hsl, Hbk, Hb in Hb1. done. }
  split; [|split; [done|by exists j]].
  destruct (aget tab (slot key j)) as [[k v]|] eqn:E.
  - simpl in Hb. by destruct (keq k key).
  - intros i k v Hi He. destruct (keq k key) eqn:Ek; [|done].
    rewrite (Huniq i k v Hi He Ek), E in He. done.
Qed.

(** The map a table stands for. *)
Definition lookup_ (tab : t) (key : K) : option V :=
  match get tab key with Some (v, true) => Some v | _ => None end.

Lemma get_spec tab key :
  inv tab -> has_free tab -> 0 < size ->
  (exists i k v, 0 <= i < size /\ aget tab i = Some (k, v) /\ keq k key = true /\
     get tab key = Some (v, true)) \/
  ((forall i k v, 0 <= i < size -> aget tab i = Some (k, v) -> keq k key = false) /\
     get tab key = Some (dflt, false)).
Proof.
  intros Hi Hf Hs. destruct (find_spec tab key Hi Hf Hs) as (pos & E & Hp & Hc & Hu & _).
  unfold get. rewrite E. cbn [mbind option_bind]. destruct (aget tab pos) as [[k v]|] eqn:Ep.
  - left. by exists pos, k, v.
  - by right.
Qed.

(** An entry with the key determines the answer. *)
Lemma get_entry tab key i k v :
  inv tab -> has_free tab -> 0 < size -> 0 <= i < size ->
  aget tab i = Some (k, v) -> keq k key = true -> get tab key = Some (v, true).
Proof.
  intros Hi Hf Hs Hr He Hk. destruct (find_spec tab key Hi Hf Hs) as (pos & E & Hp & _ & Hu & _).
  unfold get. rewrite E. cbn [mbind option_bind]. rewrite <- (Hu i k v Hr He Hk), He. done.
Qed.

Lemma keq_ne a b c : keq a b = true -> keq a c = false -> keq b c = false.
Proof. intros H1 H2. by rewrite <- (keq_trans a b c). Qed.

(** [put] answers, keeps the chains, and writes one slot. *)
Lemma put_spec tab key v :
  inv tab -> has_free tab -> 0 < size ->
  exists pos, put tab key v = Some (aset tab pos (Some (key, v))) /\ 0 <= pos < size /\
    inv (aset tab pos (Some (key, v))) /\
    (forall i k w, 0 <= i < size -> i <> pos -> aget tab i = Some (k, w) -> keq k key = false) /\
    match aget tab pos with Some (k, _) => keq k key = true | None => True end.
Proof.
  intros Hi Hf Hs. destruct (find_spec tab key Hi Hf Hs) as (pos & E & Hp & Hc & Hu & j & Hj & Hpos & Hb).
  exists pos. unfold put. rewrite E. split; [done|]. split; [done|]. split; [|split].
  - destruct Hi as [HL HC]. split; [by rewrite alen_aset|]. intros i k w Hi He.
    destruct (decide (i = pos)) as [->|Hne].
    + rewrite aget_aset_eq in He by lia. injection He as -> ->. exists j. split; [done|].
      split; [done|]. intros j' Hj'.
      assert (slot k j' <> pos).
      { intros Heq. specialize (Hb j' Hj'). rewrite Heq in Hb.
        destruct (aget tab pos) as [[k0 v0]|]; simpl in Hb; [|done]. by rewrite Hc in Hb. }
      rewrite aget_aset_ne by (pose proof (slot_range k j' Hs); lia). by apply Hb.
    + rewrite aget_aset_ne in He by lia. destruct (HC i k w Hi He) as (j1 & Hj1 & Hs1 & Hb1).
      exists j1. split; [done|]. split; [done|]. intros j' Hj'.
      destruct (decide (slot k j' = pos)) as [Heq|Hn].
      * rewrite Heq, aget_aset_eq by lia. simpl. specialize (Hb1 j' Hj'). rewrite Heq in Hb1.
        destruct (aget tab pos) as [[k0 v0]|] eqn:Ep; [|done]. simpl in Hb1.
        destruct (keq k0 k) eqn:Ek; [done|]. by rewrite (keq_ne k0 key k).
      * rewrite aget_aset_ne by (pose proof (slot_range k j' Hs); lia). by apply Hb1.
  - intros i k w Hir Hne He. destruct (keq k key) eqn:Ek; [|done].
    destruct Hne. by eapply Hu.
  - by destruct (aget tab pos) as [[k0 v0]|].
Qed.

(** Reading after writing. *)
Lemma get_put tab key v key' tab' :
  inv tab -> has_free tab -> 0 < size -> put tab key v = Some tab' -> has_free tab' ->
  get tab' key' = if keq key key' then Some (v, true) else get tab key'.
Proof.
  intros Hi Hf Hs Hput Hf'. destruct (put_spec tab key v Hi Hf Hs) as (pos & E & Hp & Hi' & Hu & Hc).
  rewrite E in Hput. injection Hput as <-. pose proof (inv_len _ Hi) as HL.
  destruct (keq key key') eqn:Ek.
  - eapply (get_entry _ _ pos); [done..| |done]. by rewrite aget_aset_eq by lia.
  - destruct (get_spec tab key' Hi Hf Hs) as [(i & k & w & Hir & He & Hk & ->)|[Hnone ->]].
    + eapply (get_entry _ _ i); [done..| |exact Hk]. rewrite aget_aset_ne; [done|lia|lia|].
      intros ->. rewrite He in Hc. rewrite (keq_trans k key key') in Hk by done. congruence.
    + destruct (get_spec _ key' Hi' Hf' Hs) as [(i & k & w & Hir & He & Hk & _)|[_ ->]]; [|done].
      destruct (decide (i = pos)) as [->|Hne].
      * rewrite aget_aset_eq in He by lia. injection He as -> ->. congruence.
      * rewrite aget_aset_ne in He by lia. by rewrite (Hnone i k w) in Hk.
Qed.

(** *** Room *)

Definition used (tab : list entry) : nat := length (filter (fun e : entry => is_Some e) tab).

Lemma used_free (tab : list entry) : alen tab = size -> Z.of_nat (used tab) < size -> has_free tab.
Proof.
  intros HL Hu. destruct (decide (Exists (fun e : entry => e = None) tab)) as [He|Hn].
  - apply Exists_exists in He as (e & He & ->).
    apply list_elem_of_In, list_elem_of_lookup in He as [i Hl]. pose proof (lookup_lt_Some _ _ _ Hl).
    exists (Z.of_nat i). unfold alen in HL. split; [lia|]. by apply aget_lookup.
  - exfalso. assert (Hall : used tab = length tab); [|unfold alen in HL; lia].
    unfold used. clear -Hn. induction tab as [|e tab IH]; [done|].
    rewrite filter_cons_True.
    + simpl. f_equal. apply IH. intros Hx. apply Hn. by right.
    + destruct e; [done|]. destruct Hn. by left.
Qed.

Lemma used_put (tab : list entry) i e : (used (aset tab i e) <= S (used tab))%nat.
Proof.
  unfold used, aset. revert i. induction tab as [|x tab IH]; intros i; [simpl; lia|].
  destruct (Z.to_nat i) as [|n] eqn:En; simpl.
  - rewrite !filter_cons. repeat case_decide; simpl; lia.
  - specialize (IH (Z.of_nat n)). rewrite Nat2Z.id in IH.
    rewrite !filter_cons. repeat case_decide; simpl; lia.
Qed.

Lemma used_init : used init = 0%nat.
Proof. unfold used, init. induction (Z.to_nat size); [done|]. simpl. by rewrite filter_cons_False by (by intros []). Qed.

Lemma inv_init : 0 < size -> inv init.
Proof.
  intros Hs. split.
  - unfold alen, init. rewrite length_replicate. lia.
  - intros i k v Hi He. unfold init in He. rewrite aget_replicate in He by lia. done.
Qed.

(** Inserting a list of bindings: the later one wins. *)
Fixpoint puts (tab : t) (kvs : list (K * V)) : option t :=
  match kvs with
  | [] => Some tab
  | (k, v) :: kvs => tab ← put tab k v; puts tab kvs
  end.

Lemma puts_spec kvs : forall tab,
  inv tab -> 0 < size -> Z.of_nat (used tab) + alen kvs < size ->
  exists tab', puts tab kvs = Some tab' /\ inv tab' /\
    Z.of_nat (used tab') < size /\
    forall key, get tab' key =
      match list_find (fun kv => keq kv.1 key = true) (reverse kvs) with
      | Some (_, kv) => Some (kv.2, true)
      | None => get tab key
      end.
Proof.
  induction kvs as [|[k v] kvs IH]; intros tab Hi Hs Hu; unfold alen in *; simpl in Hu.
  - exists tab. split; [done|]. split; [done|]. split; [lia|done].
  - destruct (put_spec tab k v Hi) as (pos & E & Hp & Hi' & _); [apply used_free; [apply Hi|lia]|done|].
    pose proof (used_put tab pos (Some (k, v))) as Hup.
    destruct (IH (aset tab pos (Some (k, v)))) as (tab' & E' & Hi2 & Hu2 & Hg); [done|done|lia|].
    exists tab'. simpl. rewrite E. split; [done|]. split; [done|]. split; [done|]. intros key.
    rewrite Hg, reverse_cons.
    assert (Hf' : has_free (aset tab pos (Some (k, v)))) by (apply used_free; [apply Hi'|lia]).
    rewrite (get_put tab k v key _ Hi) by (done || (apply used_free; [apply Hi|lia])).
    destruct (list_find _ (reverse kvs)) as [[n kv]|] eqn:Ef.
    + by rewrite (list_find_app_l _ _ _ _ _ Ef).
    + rewrite list_find_app_r by done. simpl.
      destruct (decide (keq k key = true)) as [Hk|Hk]; [by rewrite Hk|].
      by apply not_true_is_false in Hk as ->.
Qed.

(** A full table without the key: the probe never ends. *)
Lemma full_diverges tab key :
  0 < size -> (forall i, 0 <= i < size -> busy (aget tab i) key = true) -> get tab key = None.
Proof.
  intros Hs Hb. unfold get, find.
  assert (Hp : forall fuel pos, 0 <= pos < size -> probe fuel tab key pos = None).
  { induction fuel as [|fuel IH]; intros pos Hp; [done|]. simpl. rewrite Hb by done.
    apply IH, Z.mod_pos_bound. lia. }
  by rewrite Hp by (apply Z.mod_pos_bound; lia).
Qed.
End table.

(** ** Properties *)

(** Fewer insertions than slots: every insertion and every lookup ends, and the
    table is the finite map of the bindings, the latest one winning. *)
Theorem hashtable_is_map {K V} `{!HashFn K} (size : Z) (dflt : V) (kvs : list (K * V)) :
  alen kvs < size ->
  exists tab, puts size (init size) kvs = Some tab /\
    forall key, get size dflt tab key =
      Some (match list_find (fun kv => keq kv.1 key = true) (reverse kvs) with
            | Some (_, kv) => (kv.2, true)
            | None => (dflt, false)
            end).
Proof.
  intros Hl. pose proof (alen_nonneg kvs). assert (Hs : 0 < size) by lia.
  destruct (puts_spec size dflt kvs (init size)) as (tab & E & Hi & Hu & Hg);
    [by apply inv_init|done|rewrite used_init; lia|].
  exists tab. split; [done|]. intros key. rewrite Hg. destruct (list_find _ _) as [[n kv]|]; [done|].
  destruct (get_spec size dflt (init size) key) as [(i & k & v & Hir & He & _)|[_ ->]];
    [by apply inv_init| |done| |done].
  - apply used_free; [by apply inv_init|]. rewrite used_init. lia.
  - unfold init in He. by rewrite aget_replicate in He by lia.
Qed.

(** Keys that collide on purpose. *)
#[local] Instance parity_hash : HashFn Z.
Proof.
  refine {| hash k := k mod 2; keq := Z.eqb |}.
  - intros k. apply Z.mod_pos_bound. lia.
  - apply Z.eqb_refl.
  - intros a b c ->%Z.eqb_eq. done.
  - apply Z.eqb_sym.
  - intros a b ->%Z.eqb_eq. done.
Defined.

Lemma hashtable_is_map_witness :
  exists tab, puts 4 (init 4) [(4, 10); (6, 20); (4, 30)] = Some tab /\
    get 4 0 tab 4 = Some (30, true) /\ get 4 0 tab 6 = Some (20, true) /\ get 4 0 tab 5 = Some (0, false).
Proof.
  destruct (hashtable_is_map 4 0 [(4, 10); (6, 20); (4, 30)]) as (tab & E & Hg).
  { vm_compute. reflexivity. }
  exists tab. split; [exact E|]. split_and!; [exact (Hg 4)|exact (Hg 6)|exact (Hg 5)].
Defined.
End LPHash.
