(* ===== verification/KissFS.v ===== *)
(** * The read-only file system (student-distrib/fs/kissfs.cpp, inc/fs/kiss.h)

    The boot image is a memory [mem : Z -> Z] of bytes indexed from
    [imageStartingAddress]; reading past the image reads the memory after it, as
    the kernel would. [None] is an access outside an array of the kernel. *)
From stdpp Require Import prelude list numbers.
From Stdlib Require Import ZArith Lia.
From S2P Require Import Prelude LPHash.

(** ** File names (inc/fs/filesystem.h) *)

Module Filename.

Definition MaxFilenameLength : Z := 32.

(** A C string is the list of its bytes; the byte at its length is the NUL. *)
Definition char_at (s : list Z) (i : nat) : Z := u8 (default 0 (s !! i)).

(** [strncmp] (klibs/lib.cpp) from index [i] on, [n] more bytes. *)
Fixpoint strncmp (s1 s2 : list Z) (i n : nat) : Z :=
  match n with
  | O => 0
  | S n =>
      if negb (char_at s1 i =? char_at s2 i) || (char_at s1 i =? 0)
      then s8 (char_at s1 i) - s8 (char_at s2 i)
      else strncmp s1 s2 (S i) n
  end.

(** [Filename::operator==] *)
Definition eqb (a b : list Z) : bool := strncmp a b 0 (Z.to_nat MaxFilenameLength) =? 0.

(** [HashFunc::hash] from index [used] on, [n] more bytes. *)
Fixpoint hash_loop (s : list Z) (used n : nat) (h : Z) : Z :=
  match n with
  | O => h
  | S n => if char_at s used =? 0 then h
           else hash_loop s (S used) n (u32 (h * 101 + s8 (char_at s used)))
  end.
Definition hash (s : list Z) : Z := hash_loop s 0 (Z.to_nat MaxFilenameLength) 0.

(** The part of a name that counts: up to its NUL, at most [n] bytes from [i]. *)
Fixpoint cut (s : list Z) (i n : nat) : list Z :=
  match n with
  | O => []
  | S n => if char_at s i =? 0 then [] else char_at s i :: cut s (S i) n
  end.
Definition key (s : list Z) : list Z := cut s 0 (Z.to_nat MaxFilenameLength).

Lemma strncmp_cut s1 s2 n : forall i, strncmp s1 s2 i n = 0 <-> cut s1 i n = cut s2 i n.
Proof.
  induction n as [|n IH]; intros i; [done|]. simpl.
  pose proof (u8_range (default 0 (s1 !! i))). pose proof (u8_range (default 0 (s2 !! i))).
  fold (char_at s1 i) in *. fold (char_at s2 i) in *.
  destruct (Z.eqb_spec (char_at s1 i) (char_at s2 i)) as [E|E]; simpl.
  - rewrite <- E. destruct (Z.eqb_spec (char_at s1 i) 0); [by rewrite Z.sub_diag|].
    rewrite IH. split; [by intros ->|by intros [=]].
  - split; [intros Hd%s8_inj; done|]. destruct (Z.eqb_spec (char_at s1 i) 0) as [E1|];
      destruct (Z.eqb_spec (char_at s2 i) 0) as [E2|]; try done; [lia|]. by intros [= ?].
Qed.

Lemma eqb_key a b : eqb a b = true <-> key a = key b.
Proof. unfold eqb. rewrite Z.eqb_eq. apply strncmp_cut. Qed.

Lemma hash_loop_cut s n : forall used h,
  hash_loop s used n h = foldl (fun h c => u32 (h * 101 + s8 c)) h (cut s used n).
Proof.
  induction n as [|n IH]; intros used h; [done|]. simpl.
  destruct (_ =? 0); [done|]. apply IH.
Qed.

Lemma hash_range s : 0 <= hash s < 2 ^ 32.
Proof.
  unfold hash. rewrite hash_loop_cut. generalize (cut s 0 (Z.to_nat MaxFilenameLength)). intros l.
  induction l as [|c l _] using rev_ind; [simpl; lia|]. rewrite foldl_app. apply u32_range.
Qed.

#[global] Instance filename_hash : HashFn (list Z).
Proof.
  refine {| LPHash.hash := hash; keq := eqb |}.
  - intros k. apply hash_range.
  - intros k. by apply eqb_key.
  - intros a b c Hab%eqb_key. apply eq_iff_eq_true. by rewrite !eqb_key, Hab.
  - intros a b. apply eq_iff_eq_true. rewrite !eqb_key. done.
  - intros a b Hab%eqb_key. unfold hash. rewrite !hash_loop_cut.
    fold (key a) (key b). by rewrite Hab.
Defined.

(** A name of at most 32 non-zero bytes is its own key. *)
Lemma cut_name s : forall n i,
  Forall (fun c => 0 < c < 256) s -> (length s <= i + n)%nat -> cut s i n = drop i s.
Proof.
  induction n as [|n IH]; intros i Hs Hn; [by rewrite drop_ge by lia|]. simpl.
  unfold char_at at 1 2. destruct (s !! i) as [c|] eqn:E; simpl.
  - pose proof (Forall_lookup_1 _ _ _ _ Hs E). simpl in *. rewrite u8_small by lia.
    destruct (Z.eqb_spec c 0); [lia|]. rewrite IH by (done || lia). symmetry. by apply drop_S.
  - apply lookup_ge_None in E. by rewrite drop_ge by lia.
Qed.

Lemma key_name s : Forall (fun c => 0 < c < 256) s -> alen s <= MaxFilenameLength -> key s = s.
Proof. unfold alen, MaxFilenameLength. intros. unfold key. rewrite cut_name; [done|done|]. unfold MaxFilenameLength. lia. Qed.
End Filename.

(** ** Memory *)

Definition memory : Type := Z -> Z.

Definition rd32 (mem : memory) (p : Z) : Z :=
  mem p + mem (p + 1) * 2 ^ 8 + mem (p + 2) * 2 ^ 16 + mem (p + 3) * 2 ^ 24.

(** [n] bytes from [p]: the effect of a [memcpy] from there. *)
Definition bytes_at (mem : memory) (p n : Z) : list Z := mem <$> seqZ p n.

Module KissFS.

Definition SPECIAL_DEVICE : Z := 0.
Definition DIRECTORY : Z := 1.
Definition NORMAL_FILE : Z := 2.
Definition MaxNumFiles : Z := 64.
Definition BlockSize : Z := 4096.
Definition DATABLOCKS : Z := 4096 / 4 - 1.
Definition TableSize : Z := 133.

Record dentry_t := mk_dentry { filename : list Z; filetype : Z; inode : Z }.
Record inode_t := mk_inode { size : Z; datablocks : list Z; numDataBlocks : Z }.

(** [KissFS]: [image] is the memory at [imageStartingAddress]. *)
Record t := mk {
  dentryIndexOfFilename : LPHash.t (K := list Z) (V := Z);
  dentries : list dentry_t;
  inodes : list inode_t;
  numDentries : Z;
  numInodes : Z;
  numTotalDataBlocks : Z;
  image : memory;
  numBlocks : Z }.

(** [KissFileDescriptorData]: the file type (a [uint8_t]) and the union. *)
Inductive fd_data := FdFile (ft ino : Z) | FdDir (ft idx max : Z).
Definition fd_filetype (d : fd_data) : Z := match d with FdFile ft _ => ft | FdDir ft _ _ => ft end.

(** *** [initFromMemoryAddress], after the mapping of the image *)

(** The directory entry read at [64 + 64 * i]. *)
Definition read_dentry (mem : memory) (i : Z) : dentry_t :=
  let p := 64 + 64 * i in
  mk_dentry (bytes_at mem p Filename.MaxFilenameLength) (rd32 mem (p + 32)) (rd32 mem (p + 36)).

(** The index node of block [i + 1]; more data blocks than the array holds is
    memory corruption. *)
Definition read_inode (mem : memory) (i : Z) : option inode_t :=
  let p := BlockSize * (i + 1) in
  let sz := rd32 mem p in
  let n := ceil sz BlockSize in
  if DATABLOCKS <? n then None
  else Some (mk_inode sz ((fun j => rd32 mem (p + 4 + 4 * j)) <$> seqZ 0 n) n).

Definition initFromMemoryAddress (mem : memory) (startingAddr endingAddr : Z) : option t :=
  let nd := rd32 mem 0 in
  let ni := rd32 mem 4 in
  let nb := rd32 mem 8 in
  let nd := if MaxNumFiles <? nd then MaxNumFiles else nd in
  let ds := read_dentry mem <$> seqZ 0 nd in
  let ni := if MaxNumFiles <? ni then MaxNumFiles else ni in
  ins ← mapM (read_inode mem) (seqZ 0 ni);
  tab ← LPHash.puts TableSize (LPHash.init TableSize)
          (zip_with (fun d i => (filename d, i)) ds (seqZ 0 nd));
  Some (mk tab ds ins nd ni nb mem (u32 (endingAddr - startingAddr) / BlockSize)).

(** *** Operations *)

(** [open]: [Some None] is [false]. *)
Definition open (fs : t) (name : list Z) : option (option fd_data) :=
  '(idx, found) ← LPHash.get TableSize 0 (dentryIndexOfFilename fs) name;
  if negb found then Some None
  else
    d ← anth (dentries fs) idx;
    Some (Some (if filetype d =? DIRECTORY then FdDir (u8 (filetype d)) 0 (numDentries fs)
                else FdFile (u8 (filetype d)) (inode d))).

(** [readBlock]: the bytes copied, or [None] for [false]. *)
Definition readBlock (fs : t) (datablockId offset len : Z) : option (list Z) :=
  let rawBlockId := u32 (datablockId + numInodes fs + 1) in
  if numBlocks fs <=? rawBlockId then None
  else Some (bytes_at (image fs) (rawBlockId * BlockSize + offset) len).

(** The loop of [readData] on the data blocks [blocks] left: the result, and the
    bytes put in the buffer. *)
Fixpoint readData_loop (fs : t) (blocks : list Z) (length bytesRemaining realOffset : Z)
    (acc : list Z) : Z * list Z :=
  match blocks with
  | [] => (alen acc, acc)
  | datablockId :: blocks =>
      if datablockId <=? numTotalDataBlocks fs then
        let len := length in
        let len := if bytesRemaining <? len then bytesRemaining else len in
        let len := if BlockSize <? len then BlockSize else len in
        match readBlock fs datablockId realOffset len with
        | None => (-1, acc)
        | Some bs =>
            let length := length - len in
            if length <=? 0 then (alen (acc ++ bs), acc ++ bs)
            else readData_loop fs blocks length (bytesRemaining - len) 0 (acc ++ bs)
        end
      else (-1, acc)
  end.

Definition readData (fs : t) (ino offset length : Z) : option (Z * list Z) :=
  if numInodes fs <? ino then Some (-1, [])
  else
    nd ← anth (inodes fs) ino;
    let startingDataBlock := offset / BlockSize in
    let bytesRemaining := u32 (size nd - offset) in
    let realOffset := offset mod BlockSize in
    Some (readData_loop fs (drop (Z.to_nat startingDataBlock) (datablocks nd))
            length bytesRemaining realOffset []).

(** [strncpy(buf, src, n)]: the [n] bytes written. *)
Fixpoint strncpy (src : list Z) (i n : nat) : list Z :=
  match n with
  | O => []
  | S n => if Filename.char_at src i =? 0 then replicate (S n) 0
           else Filename.char_at src i :: strncpy src (S i) n
  end.

(** [strlen(buf)] of a buffer whose every byte is known; [None]: it runs past. *)
Fixpoint strlen (buf : list Z) : option Z :=
  match buf with
  | [] => None
  | c :: buf => if c =? 0 then Some 0 else n ← strlen buf; Some (n + 1)
  end.

Definition readDir (fs : t) (ft idx max : Z) (len : Z) : option (Z * list Z * fd_data) :=
  if max <=? idx then Some (0, [], FdDir ft idx max)
  else
    d ← anth (dentries fs) idx;
    let buf := strncpy (filename d) 0 (Z.to_nat len) in
    n ← strlen buf;
    Some (n, buf, FdDir ft (u32 (idx + 1)) max).

(** [read]: the result, the bytes written to the buffer, the descriptor. The
    union read under the wrong tag is left out. *)
Definition read (fs : t) (d : fd_data) (offset len : Z) : option (Z * list Z * fd_data) :=
  if fd_filetype d =? DIRECTORY then
    match d with
    | FdDir ft idx max => readDir fs ft idx max len
    | FdFile _ _ => None
    end
  else
    match d with
    | FdFile ft ino => '(n, bs) ← readData fs ino offset len; Some (n, bs, d)
    | FdDir _ _ _ => None
    end.

Definition write (fs : t) (d : fd_data) (offset : Z) (buf : list Z) : Z := -1.
Definition close (fs : t) (d : fd_data) : bool := true.

Definition S_IFDIR : Z := 0x4000.
Definition S_IFCHR : Z := 0x2000.
Definition S_IFREG : Z := 0x8000.

(** [fstat]: the mode, and the size when it is written. *)
Definition fstat (fs : t) (d : fd_data) : option (Z * option Z) :=
  if fd_filetype d =? DIRECTORY then Some (S_IFDIR, None)
  else if fd_filetype d =? SPECIAL_DEVICE then Some (S_IFCHR, None)
  else match d with
       | FdFile _ ino => nd ← anth (inodes fs) ino; Some (S_IFREG, Some (size nd))
       | FdDir _ _ _ => None
       end.

Definition canSeek (d : fd_data) : bool := fd_filetype d =? NORMAL_FILE.

(** [getFileSize]: [Some None] is [Nothing]. *)
Definition getFileSize (fs : t) (d : fd_data) : option (option Z) :=
  if negb (fd_filetype d =? NORMAL_FILE) then Some None
  else match d with
       | FdFile _ ino => nd ← anth (inodes fs) ino; Some (Some (size nd))
       | FdDir _ _ _ => None
       end.

(** [readDentry] by name and by index: the code and the entry. *)
Definition readDentry_name (fs : t) (fname : list Z) : option (Z * option dentry_t) :=
  '(idx, found) ← LPHash.get TableSize 0 (dentryIndexOfFilename fs) fname;
  if negb found then Some (-1, None)
  else d ← anth (dentries fs) idx; Some (0, Some d).
Definition readDentry_index (fs : t) (index : Z) : option (Z * option dentry_t) :=
  if index <=? numDentries fs then d ← anth (dentries fs) index; Some (0, Some d)
  else Some (-1, None).

(** ** Laws *)

(** A node whose size fits its blocks, and whose blocks lie in the image. *)
Record valid (fs : t) (nd : inode_t) : Prop := {
  valid_size : 0 <= size nd < 2 ^ 32;
  valid_len : alen (datablocks nd) = ceil (size nd) BlockSize;
  valid_ids : Forall (fun id => 0 <= id <= numTotalDataBlocks fs /\
    id + numInodes fs + 1 < numBlocks fs) (datablocks nd);
  valid_ni : 0 <= numInodes fs;
  valid_nb : numBlocks fs <= 2 ^ 20 }.

(** Byte [k] of a file, through its block list, and the whole file. *)
Definition file_byte (fs : t) (nd : inode_t) (k : Z) : Z :=
  image fs ((aget (datablocks nd) (k / BlockSize) + numInodes fs + 1) * BlockSize + k mod BlockSize).
Definition slice (fs : t) (nd : inode_t) (off n : Z) : list Z := file_byte fs nd <$> seqZ off n.
Definition content (fs : t) (nd : inode_t) : list Z := slice fs nd 0 (size nd).

Lemma readBlock_valid fs nd i ro len :
  valid fs nd -> 0 <= i < alen (datablocks nd) -> 0 <= ro -> 0 <= len -> ro + len <= BlockSize ->
  readBlock fs (aget (datablocks nd) i) ro len = Some (slice fs nd (i * BlockSize + ro) len).
Proof.
  intros V Hi Hro Hlen Hb. unfold BlockSize in *.
  assert (Hid : 0 <= aget (datablocks nd) i <= numTotalDataBlocks fs /\
    aget (datablocks nd) i + numInodes fs + 1 < numBlocks fs).
  { pose proof (valid_ids _ _ V) as HF. pose proof (anth_aget (datablocks nd) i Hi) as Ha.
    unfold anth in Ha. destruct (0 <=? i); [|done].
    by apply (Forall_lookup_1 _ _ _ _ HF) in Ha. }
  destruct V. unfold readBlock. cbv zeta. rewrite u32_small by lia.
  destruct (Z.leb_spec (numBlocks fs) (aget (datablocks nd) i + numInodes fs + 1)); [lia|].
  f_equal. unfold bytes_at, slice. apply fmap_seqZ_ext. intros j Hj. unfold file_byte, BlockSize.
  replace ((i * 4096 + ro + j) / 4096) with i by zdiv.
  f_equal. zdiv.
Qed.

Lemma readData_loop_spec fs nd blocks : valid fs nd -> forall i length ro acc,
  0 <= i -> drop (Z.to_nat i) (datablocks nd) = blocks -> 0 <= length -> 0 <= ro < BlockSize ->
  let pos := i * BlockSize + ro in
  let m := Z.min length (size nd - pos) in
  pos <= size nd -> ro = 0 \/ ro + m <= BlockSize ->
  readData_loop fs blocks length (size nd - pos) ro acc = (alen acc + m, acc ++ slice fs nd pos m).
Proof.
  intros V. pose proof (valid_size _ _ V) as Hsz. pose proof (valid_len _ _ V) as Hlen.
  rewrite ceil_spec in Hlen by (unfold BlockSize; lia). change BlockSize with 4096 in *.
  induction blocks as [|id blocks IH]; intros i length ro acc Hi Hd Hl Hro pos m Hpos Hcond.
  - assert (alen (datablocks nd) <= i).
    { apply (f_equal List.length) in Hd. rewrite length_drop in Hd. unfold alen. simpl in Hd. lia. }
    assert (m = 0) as -> by (unfold m, pos in *; zdiv).
    cbn [readData_loop]. unfold slice. rewrite Z.add_0_r, app_nil_r. done.
  - assert (Hlt : i < alen (datablocks nd)).
    { apply (f_equal List.length) in Hd. rewrite length_drop in Hd. unfold alen. simpl in Hd. lia. }
    assert (Hid : id = aget (datablocks nd) i /\ blocks = drop (Z.to_nat (i + 1)) (datablocks nd)).
    { replace (Z.to_nat (i + 1)) with (Z.to_nat i + 1)%nat by lia. rewrite <- drop_drop, Hd.
      split; [|done]. unfold aget. apply (f_equal (fun l => l !! 0%nat)) in Hd.
      rewrite lookup_drop, Nat.add_0_r in Hd. symmetry. by apply list_lookup_total_correct. }
    destruct Hid as [-> Hblocks]. clear Hd. cbn [readData_loop].
    assert (Hidr : aget (datablocks nd) i <= numTotalDataBlocks fs).
    { pose proof (valid_ids _ _ V) as HF. pose proof (anth_aget (datablocks nd) i ltac:(lia)) as Ha.
      unfold anth in Ha. destruct (0 <=? i); [|done]. apply (Forall_lookup_1 _ _ _ _ HF) in Ha. lia. }
    rewrite (proj2 (Z.leb_le _ _) Hidr). cbv zeta. unfold BlockSize.
    set (len := if 4096 <? _ then _ else _).
    assert (Elen : len = Z.min m 4096) by (unfold len, m; destruct (Z.ltb_spec (size nd - pos) length); case_cmp; lia).
    rewrite (readBlock_valid fs nd i ro len V) by (unfold BlockSize; lia).
    fold pos. unfold BlockSize. fold pos.
    assert (Hal : alen (acc ++ slice fs nd pos len) = alen acc + len)
      by (unfold slice; rewrite alen_app, alen_fmap_seqZ by lia; done).
    destruct (Z.leb_spec (length - len) 0).
    + rewrite Hal. assert (m = len) as -> by lia. done.
    + destruct (decide (len = 4096)) as [E|E].
      * assert (ro = 0) by lia.
        replace (size nd - pos - len) with (size nd - ((i + 1) * 4096 + 0)) by (unfold pos; lia).
        rewrite IH; [|lia|done|lia|lia|lia|lia]. rewrite Hal.
        replace ((i + 1) * 4096 + 0) with (pos + len) by (unfold pos; lia).
        rewrite <- app_assoc. unfold slice. rewrite <- fmap_seqZ_app by lia.
        replace (len + Z.min (length - len) (size nd - (pos + len))) with m by lia.
        f_equal. lia.
      * assert (blocks = []) as ->.
        { rewrite Hblocks. apply drop_ge. unfold alen, pos, m in *. zdiv. }
        cbn [readData_loop]. rewrite Hal. assert (m = len) as -> by lia. done.
Qed.

(** The bytes of a file from [off], as a part of its content. *)
Lemma slice_content fs nd off n :
  0 <= off -> 0 <= n -> off + n <= size nd ->
  slice fs nd off n = take (Z.to_nat n) (drop (Z.to_nat off) (content fs nd)).
Proof.
  intros Ho Hn Hs. unfold content, slice.
  replace (size nd) with (off + (n + (size nd - off - n))) by lia.
  rewrite !fmap_seqZ_app by lia.
  rewrite drop_app_length' by (rewrite length_fmap, length_seqZ; lia).
  rewrite take_app_length' by (rewrite length_fmap, length_seqZ; lia). by rewrite Z.add_0_l.
Qed.

Lemma readData_spec fs ino nd off length :
  anth (inodes fs) ino = Some nd -> ino <= numInodes fs -> valid fs nd ->
  0 <= off <= size nd -> 0 <= length ->
  let m := Z.min length (size nd - off) in
  off mod BlockSize = 0 \/ off mod BlockSize + m <= BlockSize ->
  readData fs ino off length = Some (m, slice fs nd off m).
Proof.
  intros Hn Hi V Ho Hl m Hc. unfold readData.
  destruct (Z.ltb_spec (numInodes fs) ino); [lia|]. rewrite Hn. cbn [mbind option_bind]. cbv zeta.
  pose proof (valid_size _ _ V). unfold BlockSize in *. rewrite u32_small by lia.
  pose proof (Z.div_mod off 4096 ltac:(lia)).
  replace (size nd - off) with (size nd - (off / 4096 * 4096 + off mod 4096)) by lia.
  rewrite (readData_loop_spec fs nd _ V (off / 4096)); unfold BlockSize;
    replace (off / 4096 * 4096 + off mod 4096) with off by lia; fold m.
  - done.
  - apply Z.div_pos; lia.
  - done.
  - done.
  - apply Z.mod_pos_bound. lia.
  - lia.
  - done.
Qed.

(** Whatever the offset, a read stores as many bytes as are asked for or left, but
    see [unaligned_read_leaks_next_block] for which ones. *)
Lemma readData_loop_count fs nd blocks : valid fs nd -> (forall id, id ∈ blocks -> id ∈ datablocks nd) ->
  forall length rem ro acc, 0 <= length -> 0 <= rem <= BlockSize * alen blocks ->
  exists bs, readData_loop fs blocks length rem ro acc = (alen bs, bs) /\ alen bs = alen acc + Z.min length rem.
Proof.
  intros V. change BlockSize with 4096. induction blocks as [|id blocks IH]; intros Hin length rem ro acc Hl Hr.
  - exists acc. split; [done|]. unfold alen in Hr. simpl in Hr. lia.
  - pose proof (valid_ids _ _ V) as HF. rewrite list.Forall_forall in HF.
    destruct (HF id (Hin id ltac:(left))) as [Hid1 Hid2]. pose proof (valid_nb _ _ V). pose proof (valid_ni _ _ V).
    cbn [readData_loop]. rewrite (proj2 (Z.leb_le _ _)) by lia. cbv zeta.
    set (len := if BlockSize <? _ then _ else _).
    assert (Elen : len = Z.min (Z.min length rem) 4096)
      by (unfold len, BlockSize; destruct (Z.ltb_spec rem length); case_cmp; lia).
    clearbody len. unfold readBlock. cbv zeta. rewrite u32_small by lia. rewrite (proj2 (Z.leb_gt _ _)) by lia.
    assert (Ha : forall p, alen (acc ++ bytes_at (image fs) p len) = alen acc + len)
      by (intros p; unfold bytes_at; rewrite alen_app, alen_fmap_seqZ by lia; done).
    assert (Hc : alen (id :: blocks) = alen blocks + 1) by (unfold alen; simpl; lia).
    pose proof (alen_nonneg blocks). destruct (Z.leb_spec (length - len) 0).
    + eexists. split; [reflexivity|]. rewrite Ha. lia.
    + destruct (IH (fun i Hi => Hin i ltac:(by right)) (length - len) (rem - len) 0
        (acc ++ bytes_at (image fs) ((id + numInodes fs + 1) * BlockSize + ro) len)) as (bs & E & Hb); [lia|lia|].
      exists bs. split; [exact E|]. rewrite Hb, Ha. lia.
Qed.

Lemma readData_count fs ino nd off length :
  anth (inodes fs) ino = Some nd -> ino <= numInodes fs -> valid fs nd -> 0 <= off <= size nd -> 0 <= length ->
  exists bs, readData fs ino off length = Some (alen bs, bs) /\ alen bs = Z.min length (size nd - off).
Proof.
  intros Hn Hi V Ho Hl. unfold readData. rewrite (proj2 (Z.ltb_ge _ _)) by lia. rewrite Hn. cbn [mbind option_bind]. cbv zeta.
  pose proof (valid_size _ _ V). pose proof (valid_len _ _ V) as Hv. rewrite u32_small by lia.
  rewrite ceil_spec in Hv by (unfold BlockSize; lia). unfold BlockSize in *.
  destruct (readData_loop_count fs nd (drop (Z.to_nat (off / 4096)) (datablocks nd)) V) with
    (length := length) (rem := size nd - off) (ro := off mod 4096) (acc := @nil Z) as (bs & E & Hb).
  - intros id Hid. rewrite <- (take_drop (Z.to_nat (off / 4096)) (datablocks nd)). apply elem_of_app. by right.
  - done.
  - unfold alen in *. rewrite length_drop. unfold BlockSize. zdiv.
  - exists bs. rewrite E. split; [done|]. rewrite Hb. done.
Qed.

(** ** Properties *)

(** C39: Reading a file through its node, from any offset inside it, at a block
    boundary or within one block, returns exactly the bytes of the file there, as
    many as asked for or left. *)
Theorem readData_correct (fs : t) (ino : Z) (nd : inode_t) (off length : Z) :
  anth (inodes fs) ino = Some nd -> ino <= numInodes fs -> valid fs nd ->
  0 <= off <= size nd -> 0 <= length ->
  off mod BlockSize = 0 \/ off mod BlockSize + Z.min length (size nd - off) <= BlockSize ->
  readData fs ino off length =
    Some (Z.min length (size nd - off),
          take (Z.to_nat (Z.min length (size nd - off))) (drop (Z.to_nat off) (content fs nd))).
Proof.
  intros Hn Hi V Ho Hl Hc. rewrite (readData_spec _ _ nd) by done. rewrite slice_content by lia. done.
Qed.

(** Two files: the first has blocks 0 and 2, the second block 1. *)
Definition demo_image : memory := fun p => (p / BlockSize) mod 256.
Definition demo_fs : t :=
  mk [] [] [mk_inode 5000 [0; 2] 2; mk_inode 100 [1] 1] 2 2 3 demo_image 6.

Lemma readData_correct_witness :
  readData demo_fs 0 4096 2000 = Some (904, replicate 904 5).
Proof.
  rewrite (readData_correct demo_fs 0 (mk_inode 5000 [0; 2] 2) 4096 2000).
  - vm_compute. reflexivity.
  - reflexivity.
  - vm_compute. by intros [=].
  - split; [split; vm_compute; congruence|reflexivity| |vm_compute; by intros [=]|vm_compute; by intros [=]].
    repeat constructor; vm_compute; congruence.
  - cbn. lia.
  - lia.
  - by left.
Defined.

(** A read that starts inside a block and runs over its end takes the bytes that
    follow on the disk: reading 4096 bytes from offset 1 of the first file gives, as
    last byte, the first byte of the second file, not the file's own byte 4096. *)
Theorem unaligned_read_leaks_next_block :
  exists bs, readData demo_fs 0 1 4096 = Some (4096, bs) /\
    aget bs 4095 = demo_image ((1 + 2 + 1) * BlockSize) /\
    aget bs 4095 <> file_byte demo_fs (mk_inode 5000 [0; 2] 2) 4096.
Proof.
  eexists. split; [vm_compute; reflexivity|]. split; vm_compute; congruence.
Qed.

(** A read that starts past the end of the file, inside its last block, does not
    return 0: the remaining length wraps around and the bytes after the end of the
    file are returned. *)
Theorem read_past_end_leaks (fs : t) (ino : Z) (nd : inode_t) (off length : Z) :
  anth (inodes fs) ino = Some nd -> ino <= numInodes fs -> valid fs nd ->
  size nd < off < alen (datablocks nd) * BlockSize ->
  0 < length <= BlockSize - off mod BlockSize ->
  readData fs ino off length = Some (length, slice fs nd off length).
Proof.
  intros Hn Hi V Ho Hl. pose proof (valid_size _ _ V) as Hs. pose proof (valid_len _ _ V) as Hlen.
  rewrite ceil_spec in Hlen by (unfold BlockSize; lia). change BlockSize with 4096 in *.
  unfold readData. destruct (Z.ltb_spec (numInodes fs) ino); [lia|]. rewrite Hn.
  cbn [mbind option_bind]. cbv zeta. change BlockSize with 4096.
  assert (Hi2 : 0 <= off / 4096 < alen (datablocks nd)) by zdiv.
  assert (Hu : 4096 <= u32 (size nd - off)).
  { unfold u32. replace (size nd - off) with (-(off - size nd)) by lia.
    rewrite Z.mod_opp_l_nz by (try rewrite Z.mod_small; zdiv). rewrite Z.mod_small by zdiv. zdiv. }
  assert (Hd : exists rest, drop (Z.to_nat (off / 4096)) (datablocks nd)
                 = aget (datablocks nd) (off / 4096) :: rest).
  { pose proof (anth_aget (datablocks nd) (off / 4096) Hi2) as Ha. unfold anth in Ha.
    destruct (0 <=? off / 4096); [|done]. eexists. by apply drop_S. }
  destruct Hd as [rest ->]. cbn [readData_loop].
  assert (Hidr : aget (datablocks nd) (off / 4096) <= numTotalDataBlocks fs).
  { pose proof (valid_ids _ _ V) as HF. pose proof (anth_aget (datablocks nd) (off / 4096) Hi2) as Ha.
    unfold anth in Ha. destruct (0 <=? off / 4096); [|done].
    apply (Forall_lookup_1 _ _ _ _ HF) in Ha. lia. }
  rewrite (proj2 (Z.leb_le _ _) Hidr). change BlockSize with 4096.
  pose proof (Z.mod_pos_bound off 4096 ltac:(lia)).
  rewrite (proj2 (Z.ltb_ge (u32 (size nd - off)) length)) by lia.
  rewrite (proj2 (Z.ltb_ge 4096 length)) by lia.
  rewrite (readBlock_valid fs nd (off / 4096) (off mod 4096) length V)
    by (change BlockSize with 4096; lia).
  rewrite Z.sub_diag. change BlockSize with 4096.
  replace (off / 4096 * 4096 + off mod 4096) with off by (pose proof (Z.div_mod off 4096); lia).
  cbn [app Z.leb Z.compare]. unfold slice. rewrite alen_fmap_seqZ by lia. done.
Qed.

Lemma read_past_end_leaks_witness : readData demo_fs 1 200 10 = Some (10, replicate 10 4).
Proof.
  rewrite (read_past_end_leaks demo_fs 1 (mk_inode 100 [1] 1) 200 10).
  - vm_compute. reflexivity.
  - reflexivity.
  - vm_compute. by intros [=].
  - split; [split; vm_compute; congruence|reflexivity| |vm_compute; by intros [=]|vm_compute; by intros [=]].
    repeat constructor; vm_compute; congruence.
  - cbn. unfold alen. cbn. change BlockSize with 4096. lia.
  - split; vm_compute; congruence.
Defined.
End KissFS.
