(* ===== verification/Createfs.v ===== *)
(** * The image builder (createfs.c)

    Host files in, a boot image out. Pointers into the boot block are offsets, the
    blocks are byte memories, the inode list is a heap of doubly linked nodes, and
    the C library's [rand] is a stream of numbers given from outside. *)
From stdpp Require Import prelude list numbers gmap.
From Stdlib Require Import ZArith Lia.
From S2P Require Import Prelude LPHash KissFS.

Module Createfs.

(** ** Bytes *)

Definition le_bytes (v : Z) : list Z :=
  [v mod 256; v / 2 ^ 8 mod 256; v / 2 ^ 16 mod 256; v / 2 ^ 24 mod 256].

Definition st_bytes (m : memory) (p : Z) (data : list Z) : memory :=
  fun x => if (p <=? x) && (x <? p + alen data) then aget data (x - p) else m x.
Definition st32 (m : memory) (p v : Z) : memory := st_bytes m p (le_bytes v).
Definition fill (m : memory) (p n v : Z) : memory :=
  fun x => if (p <=? x) && (x <? p + n) then v else m x.

(** The output file: [lseek] then [write]; a hole reads as zeros. *)
Record file := mk_file { flen : Z; fbyte : memory }.
Definition fwrite (f : file) (off n : Z) (src : memory) : file :=
  mk_file (Z.max (flen f) (off + n))
    (fun x => if (off <=? x) && (x <? off + n) then src (x - off) else fbyte f x).

(** ** Host files *)

(** A directory entry with what [stat] and [read] report of it; [stale] is what a
    fresh [malloc] block holds where [read] does not write. *)
Record host_file := mk_host {
  d_name : list Z; st_mode : Z; st_size : Z; contents : list Z;
  read_error : option Z; stale : memory }.

Definition S_ISREG (m : Z) : bool := Z.land m 0xf000 =? 0x8000.
Definition S_ISCHR (m : Z) : bool := Z.land m 0xf000 =? 0x2000.

(** ** The inode list *)

Record node := mk_node { prev : Z; next : Z; data : Z }.
(** [inode_root_t] is the node at address 0: [head] is [prev], [tail] is [next]. *)
Record inode_list_t := mk_list { nodes : gmap Z node; fresh : Z; count : Z }.

Definition inode_list : inode_list_t := mk_list {[ 0 := mk_node 0 0 0 ]} 1 0.

Definition set_prev (m : gmap Z node) (a p : Z) : option (gmap Z node) :=
  n ← m !! a; Some (<[a := mk_node p (next n) (data n)]> m).
Definition set_next (m : gmap Z node) (a p : Z) : option (gmap Z node) :=
  n ← m !! a; Some (<[a := mk_node (prev n) p (data n)]> m).

Definition list_insert_after (l : inode_list_t) (element d : Z) : option inode_list_t :=
  let result := fresh l in
  e ← nodes l !! element;
  let m := <[result := mk_node (prev e) element d]> (nodes l) in
  m ← set_next m (prev e) result;
  m ← set_prev m element result;
  Some (mk_list m (result + 1) (count l + 1)).

Definition list_insert_before (l : inode_list_t) (element d : Z) : option inode_list_t :=
  let result := fresh l in
  e ← nodes l !! element;
  let m := <[result := mk_node element (next e) d]> (nodes l) in
  m ← set_prev m (next e) result;
  m ← set_next m element result;
  Some (mk_list m (result + 1) (count l + 1)).

Definition list_insert_at_head (l : inode_list_t) (d : Z) : option inode_list_t :=
  list_insert_after l 0 d.
Definition list_insert_at_tail (l : inode_list_t) (d : Z) : option inode_list_t :=
  list_insert_before l 0 d.

(** [for (i = head; i != root; i = i->prev)]: the data met. *)
Fixpoint walk (fuel : nat) (m : gmap Z node) (i : Z) : option (list Z) :=
  match fuel with
  | O => None
  | S fuel =>
      if i =? 0 then Some []
      else n ← m !! i; ds ← walk fuel m (prev n); Some (data n :: ds)
  end.
Definition traverse (l : inode_list_t) : option (list Z) :=
  r ← nodes l !! 0; walk (S (size (nodes l))) (nodes l) (prev r).

(** ** The free map *)

Record freemap := mk_map { fm_inodes : Z; fm_blocks : Z; fm_used : list Z }.

Definition get_size (a1 a2 : Z) : Z := u32 (a1 + a2 + 1).
Definition init_freemap (a1 a2 : Z) : freemap :=
  let x := u32 (2 * a1) in let y := u32 (2 * a2) in
  mk_map x y (aset (replicate (Z.to_nat (get_size x y)) 0) 0 1).
Definition get_num_inodes (m : freemap) : Z := fm_inodes m.
Definition get_num_datablocks (m : freemap) : Z := fm_blocks m.

Section rand.
(** [rand()]: its successive results; [k] counts the calls. *)
Context (rand : nat -> Z).

(** [do v2 = rand() % modulus; while (used[base + v2 + 1])]: the number drawn and
    the calls made. *)
Fixpoint draw (fuel : nat) (k : nat) (modulus base : Z) (used : list Z) : option (Z * nat) :=
  match fuel with
  | O => None
  | S fuel =>
      let v2 := rand k mod modulus in
      b ← anth used (base + v2 + 1);
      if b =? 0 then Some (v2, S k) else draw fuel (S k) modulus base used
  end.

Definition get_inode_block (fuel k : nat) (m : freemap) : option (Z * nat * freemap) :=
  '(v, k) ← draw fuel k (fm_inodes m) 0 (fm_used m);
  Some (v, k, mk_map (fm_inodes m) (fm_blocks m) (aset (fm_used m) (v + 1) 1)).

Definition get_data_block (fuel k : nat) (m : freemap) : option (Z * nat * freemap) :=
  '(v, k) ← draw fuel k (fm_blocks m) (fm_inodes m) (fm_used m);
  Some (v, k, mk_map (fm_inodes m) (fm_blocks m) (aset (fm_used m) (v + fm_inodes m + 1) 1)).

(** ** Files *)

(** [create_dentry] at offset [dest] of the boot block: the code and the block. *)
Definition create_dentry (src : list Z) (mode : Z) (bb : memory) (dest : Z) : Z * memory :=
  let bb := fill bb dest 0x40 0 in
  if negb (S_ISREG mode || S_ISCHR mode) then (-1, bb)
  else
    let bb := st32 bb (dest + 32) (if S_ISREG mode then 2 else 0) in
    let bb := st_bytes bb dest (KissFS.strncpy src 0 0x1f) in
    let bb := st_bytes bb (dest + 31) [0] in
    (0, st32 bb (dest + 36) (u32 (-1))).

(** The block of a file: the inode block, the data blocks, and the words 2047
    (the directory entry), 2048 (number of blocks) and 2049 (inode number). *)
Record ibuf := mk_ibuf {
  iblk : memory; iblocks : list memory; identry : Z; icount : Z; inum : Z }.

(** Data block [i] after [read]. *)
Definition read_block (h : host_file) (i : Z) : memory :=
  fun x => let k := i * 4096 + x in
           if k <? alen (contents h) then aget (contents h) k else stale h k.

Definition create_file (h : host_file) : option ibuf :=
  if st_size h <=? 0x3FF000 then
    let v3 := st_size h / 4096 in
    let v3 := if Z.land (st_size h) 0xFFF =? 0 then v3 else v3 + 1 in
    if (match read_error h with Some i => i <? v3 | None => false end) then None
    else Some (mk_ibuf (st32 (fun _ => 0) 0 (st_size h)) (read_block h <$> seqZ 0 v3) 0 v3 0)
  else None.

(** The state of [main] while it reads the directory. *)
Record state := mk_state { bblock : memory; bufs : list ibuf; ilist : inode_list_t }.

Definition boot0 : memory :=
  st32 (st32 (st32 (st_bytes (fun _ => 0) 64 [46; 0]) 96 1) 100 0) 0 1.
Definition state0 : state := mk_state boot0 [] inode_list.

(** One round of the directory loop. [bblock[0]] is a [char]. *)
Definition add_file (h : host_file) (s : state) : option state :=
  let dest := bblock s 0 * 64 + 64 in
  let '(v11, bb) := create_dentry (d_name h) (st_mode h) (bblock s) dest in
  if negb (v11 =? 0) then Some (mk_state bb (bufs s) (ilist s))
  else match create_file h with
  | Some b =>
      let b := mk_ibuf (iblk b) (iblocks b) dest (icount b) (inum b) in
      let bb := st32 bb 0 (u32 (rd32 bb 0 + 1)) in
      let bb := st32 bb 4 (u32 (rd32 bb 4 + 1)) in
      let bb := st32 bb 8 (u32 (rd32 bb 8 + icount b)) in
      l ← list_insert_at_tail (ilist s) (alen (bufs s));
      Some (mk_state bb (bufs s ++ [b]) l)
  | None => Some (mk_state bb (bufs s) (ilist s))
  end.

Fixpoint read_dir (dir : list host_file) (s : state) : option state :=
  match dir with
  | [] => Some s
  | h :: dir => if rd32 (bblock s) 0 <=? 0x3E then s ← add_file h s; read_dir dir s else Some s
  end.

(** The inode numbers: each buffer's word 2049 and its directory entry. *)
Fixpoint number_inodes (fuel : nat) (ds : list Z) (k : nat) (m : freemap) (bb : memory)
    (bs : list ibuf) : option (nat * freemap * memory * list ibuf) :=
  match ds with
  | [] => Some (k, m, bb, bs)
  | d :: ds =>
      b ← anth bs d;
      '(v, k, m) ← get_inode_block fuel k m;
      number_inodes fuel ds k m (st32 bb (identry b + 36) v)
        (aset bs d (mk_ibuf (iblk b) (iblocks b) (identry b) (icount b) v))
  end.

(** The data block numbers of one file, from word [ptr + 1] on. *)
Fixpoint number_blocks (fuel : nat) (n : nat) (ptr : Z) (k : nat) (m : freemap) (blk : memory)
    : option (nat * freemap * memory) :=
  match n with
  | O => Some (k, m, blk)
  | S n =>
      '(v, k, m) ← get_data_block fuel k m;
      number_blocks fuel n (ptr + 1) k m (st32 blk ((ptr + 1) * 4) v)
  end.
Fixpoint number_files (fuel : nat) (ds : list Z) (k : nat) (m : freemap) (bs : list ibuf)
    : option (nat * freemap * list ibuf) :=
  match ds with
  | [] => Some (k, m, bs)
  | d :: ds =>
      b ← anth bs d;
      '(k, m, blk) ← number_blocks fuel (Z.to_nat (icount b)) 0 k m (iblk b);
      number_files fuel ds k m (aset bs d (mk_ibuf blk (iblocks b) (identry b) (icount b) (inum b)))
  end.

(** The writes: boot block, inode blocks, data blocks. *)
Definition write_inode (b : ibuf) (f : file) : file :=
  fwrite f (inum b * 4096 + 4096) 4096 (iblk b).
Definition write_data (ni : Z) (b : ibuf) (f : file) : file :=
  for_range 0 (icount b) (fun j f =>
    fwrite f ((rd32 (iblk b) ((j + 1) * 4) + ni + 1) * 4096) 4096
      (default (fun _ => 0) (anth (iblocks b) j))) f.

(** [main] from the opened directory to the finished image. *)
Definition main (fuel : nat) (dir : list host_file) : option file :=
  s ← read_dir dir state0;
  let m := init_freemap (rd32 (bblock s) 4) (rd32 (bblock s) 8) in
  let bb := st32 (bblock s) 4 (get_num_inodes m) in
  let bb := st32 bb 8 (get_num_datablocks m) in
  ds ← traverse (ilist s);
  '(k, m, bb, bs) ← number_inodes fuel ds 0 m bb (bufs s);
  '(k, m, bs) ← number_files fuel ds k m bs;
  let f := fwrite (mk_file 0 (fun _ => 0)) 0 4096 bb in
  bufs ← mapM (anth bs) ds;
  let f := foldl (fun f b => write_inode b f) f bufs in
  Some (foldl (fun f b => write_data (get_num_inodes m) b f) f bufs).
End rand.

(** Two files read back through the kernel's file system. *)
Definition ascii_a : list Z := [104; 105].
Example demo :
  let h1 := mk_host [97] 0x8000 2 ascii_a None (fun _ => 7) in
  let h2 := mk_host [98; 98] 0x8000 5000 (replicate 5000 9) None (fun _ => 7) in
  match main (fun k => Z.of_nat k * 5) 20 [h1; mk_host [46; 46] 0x4000 0 [] None (fun _ => 0); h2] with
  | None => False
  | Some img =>
      match KissFS.initFromMemoryAddress (fbyte img) 0 (flen img) with
      | None => False
      | Some fs =>
          match KissFS.open fs [98; 98], KissFS.open fs [97] with
          | Some (Some d2), Some (Some d1) =>
              (KissFS.fd_filetype d2, (x ← KissFS.read fs d1 0 10; Some x.1)) = (2, Some (2, ascii_a)) /\
              (x ← KissFS.read fs d2 0 9000; Some x.1) = Some (5000, replicate 5000 9)
          | _, _ => False
          end
      end
  end.
Proof. vm_compute. done. Qed.

(** ** Laws: memories *)

Lemma le_bytes_combine v :
  0 <= v < 2 ^ 32 ->
  v mod 256 + v / 2 ^ 8 mod 256 * 2 ^ 8 + v / 2 ^ 16 mod 256 * 2 ^ 16 + v / 2 ^ 24 mod 256 * 2 ^ 24 = v.
Proof. intros. zdiv. Qed.

Lemma st_bytes_in m p data x :
  p <= x < p + alen data -> st_bytes m p data x = aget data (x - p).
Proof.
  intros. unfold st_bytes. by rewrite (proj2 (Z.leb_le p x)), (proj2 (Z.ltb_lt x _)) by lia.
Qed.
Lemma st_bytes_out m p data x :
  x < p \/ p + alen data <= x -> st_bytes m p data x = m x.
Proof.
  intros. unfold st_bytes. destruct (Z.leb_spec p x), (Z.ltb_spec x (p + alen data)); (done || lia).
Qed.
Lemma fill_in m p n v x : p <= x < p + n -> fill m p n v x = v.
Proof.
  intros. unfold fill. by rewrite (proj2 (Z.leb_le p x)), (proj2 (Z.ltb_lt x _)) by lia.
Qed.
Lemma fill_out m p n v x : x < p \/ p + n <= x -> fill m p n v x = m x.
Proof. intros. unfold fill. destruct (Z.leb_spec p x), (Z.ltb_spec x (p + n)); (done || lia). Qed.

Lemma st32_out m p v x : x < p \/ p + 4 <= x -> st32 m p v x = m x.
Proof. intros. by apply st_bytes_out. Qed.

Lemma rd32_ext m m' p : (forall x, p <= x < p + 4 -> m x = m' x) -> rd32 m p = rd32 m' p.
Proof. intros H. unfold rd32. by rewrite !H by lia. Qed.

Lemma rd32_st32_eq m p v : 0 <= v < 2 ^ 32 -> rd32 (st32 m p v) p = v.
Proof.
  intros Hv. unfold rd32, st32. assert (alen (le_bytes v) = 4) by done.
  rewrite !st_bytes_in by lia.
  replace (p - p) with 0 by lia. replace (p + 1 - p) with 1 by lia.
  replace (p + 2 - p) with 2 by lia. replace (p + 3 - p) with 3 by lia.
  by apply le_bytes_combine.
Qed.

Lemma rd32_st32_ne m p q v : q + 4 <= p \/ p + 4 <= q -> rd32 (st32 m p v) q = rd32 m q.
Proof. intros. apply rd32_ext. intros x Hx. apply st32_out. lia. Qed.

Lemma bytes_at_ext m m' p n : (forall x, p <= x < p + n -> m x = m' x) -> bytes_at m p n = bytes_at m' p n.
Proof. intros H. apply fmap_seqZ_ext. intros j Hj. apply H. lia. Qed.

(** ** The list *)

(** [path m i as_ ds]: from [i], following [prev], the nodes [as_] with data [ds],
    then the root. *)
Fixpoint path (m : gmap Z node) (i : Z) (as_ : list Z) (ds : list Z) : Prop :=
  match as_, ds with
  | [], [] => i = 0
  | a :: as_, d :: ds => i = a /\ a <> 0 /\ exists n, m !! a = Some n /\ data n = d /\ path m (prev n) as_ ds
  | _, _ => False
  end.

(** The list whose data are [ds], first to last. *)
Definition is_list (l : inode_list_t) (ds : list Z) : Prop :=
  exists as_ r, nodes l !! 0 = Some r /\ path (nodes l) (prev r) as_ ds /\
    next r = List.last as_ 0 /\ NoDup as_ /\ (forall a, fresh l <= a -> nodes l !! a = None) /\
    Forall (fun a => 0 < a < fresh l) as_ /\ 0 < fresh l /\ size (nodes l) = S (length as_).

Lemma path_frame m m' i as_ ds :
  (forall a n, a ∈ as_ -> m !! a = Some n -> exists n', m' !! a = Some n' /\ data n' = data n /\ prev n' = prev n) ->
  path m i as_ ds -> path m' i as_ ds.
Proof.
  revert i ds. induction as_ as [|a as_ IH]; intros i [|d ds] Hf Hp; simpl in *; try done.
  destruct Hp as (-> & Ha & n & Hn & Hd & Hp). split; [done|]. split; [done|].
  destruct (Hf a n) as (n' & Hn' & Hd' & Hp'); [by left|done|].
  exists n'. split; [done|]. split; [congruence|]. rewrite Hp'. apply IH; [|done].
  intros a' n0 Hin. apply Hf. by right.
Qed.

Lemma path_snoc m i as_ ds a d n :
  a <> 0 -> a ∉ as_ -> NoDup as_ -> path m i as_ ds -> m !! a = Some n -> data n = d -> prev n = 0 ->
  let m' := match as_ with [] => m | _ =>
    match m !! List.last as_ 0 with
    | Some e => <[List.last as_ 0 := mk_node a (next e) (data e)]> m | None => m end end in
  path m' (match as_ with [] => a | _ => i end) (as_ ++ [a]) (ds ++ [d]).
Proof.
  intros Ha Hnin Hnd Hp Hn Hd Hpn. cbv zeta.
  revert i ds Hp. induction as_ as [|b as_ IH]; intros i [|d0 ds] Hp; simpl in *; try done.
  - split; [done|]. split; [done|]. exists n. done.
  - destruct Hp as (-> & Hb & e & He & Hde & Hp). split; [done|]. split; [done|].
    apply not_elem_of_cons in Hnin as [Hab Hnin]. apply NoDup_cons in Hnd as [Hbn Hnd].
    destruct as_ as [|c as_].
    + destruct ds as [|]; [|done]. simpl in *. rewrite He. exists (mk_node a (next e) (data e)).
      rewrite lookup_insert_eq. split; [done|]. split; [done|]. simpl. split; [done|]. split; [done|].
      exists n. rewrite lookup_insert_ne by done. split; [done|]. split; [done|]. done.
    + specialize (IH Hnin Hnd (prev e) ds Hp). remember (List.last (c :: as_) 0) as z eqn:Hz.
      assert (Hzin : z ∈ c :: as_).
      { subst z. clear. revert c. induction as_ as [|x as_ IH]; intros c; [left|]. right. apply IH. }
      exists e. replace (match as_ with [] => c | _ :: _ => List.last as_ 0 end) with z in * by (subst z; done).
      destruct (m !! z) as [f|] eqn:Ef; [|done].
      rewrite lookup_insert_ne by (intros ->; done). done.
Qed.

Lemma is_list_init : is_list inode_list [].
Proof.
  exists [], (mk_node 0 0 0). split; [done|]. split; [done|]. split; [done|]. split; [constructor|].
  split; [|split; [constructor|split; [simpl; lia|done]]].
  intros a Ha. simpl in *. apply lookup_singleton_ne. lia.
Qed.

Lemma last_in (as_ : list Z) : as_ <> [] -> List.last as_ 0 ∈ as_.
Proof.
  intros Hne. destruct as_ as [|a as_]; [done|]. clear Hne. revert a.
  induction as_ as [|x as_ IH]; intros a; [left|]. right. apply IH.
Qed.

Lemma path_lookup m i as_ ds a : path m i as_ ds -> a ∈ as_ -> is_Some (m !! a).
Proof.
  revert i ds. induction as_ as [|b as_ IH]; intros i [|d ds] Hp Hin; simpl in *; try done.
  - by apply elem_of_nil in Hin.
  - destruct Hp as (-> & _ & n & Hn & _ & Hp). apply elem_of_cons in Hin as [->|Hin]; eauto.
Qed.

Lemma list_insert_at_tail_spec l ds d :
  is_list l ds -> exists l', list_insert_at_tail l d = Some l' /\ is_list l' (ds ++ [d]) /\
    count l' = count l + 1.
Proof.
  intros (as_ & r & Hr & Hp & Hnext & Hnd & Hfresh & Hbnd & Hpos & Hsz).
  set (res := fresh l). assert (Hres : nodes l !! res = None) by (apply Hfresh; unfold res; lia).
  assert (Hres0 : res <> 0) by (unfold res; lia).
  assert (Hresnin : res ∉ as_).
  { intros Hin. eapply Forall_forall in Hbnd; [|exact Hin]. unfold res in Hbnd. lia. }
  unfold list_insert_at_tail, list_insert_before. rewrite Hr. cbn [mbind option_bind]. fold res.
  set (m1 := <[res := mk_node 0 (next r) d]> (nodes l)).
  assert (Hm1 : forall a, a <> res -> m1 !! a = nodes l !! a) by (intros; by apply lookup_insert_ne).
  assert (Hp1 : path m1 (prev r) as_ ds).
  { eapply path_frame; [|exact Hp]. intros a n Hin Hn. exists n. rewrite Hm1; [done|]. by intros ->. }
  assert (Hs1 : size m1 = S (S (length as_))) by (unfold m1; by rewrite map_size_insert_None, Hsz).
  destruct as_ as [|a0 as0].
  - simpl in Hnext. rewrite Hnext. unfold set_prev at 1. rewrite Hm1, Hr by done.
    cbn [mbind option_bind]. unfold set_next. rewrite lookup_insert_eq. cbn [mbind option_bind].
    eexists. split; [reflexivity|]. split; [|done]. simpl in *. destruct ds; [|done].
    eexists [res], _. cbn [nodes fresh]. rewrite lookup_insert_eq. split; [done|]. cbn [prev next].
    split; [|split; [done|split]].
    + simpl. split; [done|]. split; [done|]. exists (mk_node 0 0 d). rewrite !lookup_insert_ne by done.
      unfold m1. rewrite Hnext, lookup_insert_eq. done.
    + apply NoDup_singleton.
    + split; [|split; [constructor; [lia|constructor]|split; [lia|]]].
      * intros a Ha. rewrite !lookup_insert_ne by lia. rewrite Hm1 by lia. apply Hfresh. lia.
      * rewrite insert_insert_eq. rewrite map_size_insert_Some; [done|]. exists r. by rewrite Hm1.
  - set (as1 := a0 :: as0) in *. set (z := List.last as1 0) in *.
    assert (Hz : z ∈ as1) by by apply last_in.
    assert (Hz0 : z <> 0 /\ z <> res).
    { split; [|by intros ->]. eapply Forall_forall in Hbnd; [|exact Hz]. lia. }
    assert (Hzb : 0 < z < res) by (eapply Forall_forall in Hbnd; [|exact Hz]; done).
    destruct (path_lookup _ _ _ _ z Hp1 Hz) as [e He].
    rewrite Hnext. unfold set_prev. rewrite He. cbn [mbind option_bind].
    unfold set_next. rewrite lookup_insert_ne, Hm1, Hr by (done || lia). cbn [mbind option_bind].
    eexists. split; [reflexivity|]. split; [|done].
    exists (as1 ++ [res]). eexists. cbn [nodes fresh]. rewrite lookup_insert_eq. split; [done|].
    cbn [prev next]. split; [|split; [|split]].
    + pose proof (path_snoc m1 (prev r) as1 ds res d (mk_node 0 (next r) d) Hres0 Hresnin Hnd Hp1
        (lookup_insert_eq _ _ _) eq_refl eq_refl) as Hp2.
      cbv zeta in Hp2. unfold as1 in Hp2 at 1. cbv iota in Hp2. fold z in Hp2. rewrite He in Hp2.
      unfold as1 in Hp2 at 1. cbv iota in Hp2.
      eapply path_frame; [|exact Hp2]. intros a n Hin Hn. exists n.
      rewrite lookup_insert_ne; [done|]. intros <-.
      apply elem_of_app in Hin as [Hin|Hin%list_elem_of_singleton]; [|done].
      eapply Forall_forall in Hbnd; [|exact Hin]. lia.
    + by rewrite List.last_last.
    + apply NoDup_app. split; [done|]. split; [|apply NoDup_singleton].
      intros x Hx Hx'%list_elem_of_singleton. by subst x.
    + split; [|split; [|split; [lia|]]].
      * intros a Ha. rewrite !lookup_insert_ne by lia. rewrite Hm1 by lia. apply Hfresh. lia.
      * apply Forall_app. split; [|constructor; [lia|constructor]].
        eapply List.Forall_impl; [|exact Hbnd]. simpl. lia.
      * assert (Hm0 : <[z := mk_node res (next e) (data e)]> m1 !! 0 = Some r)
          by by rewrite lookup_insert_ne, Hm1 by lia.
        rewrite map_size_insert_Some by by exists r.
        rewrite map_size_insert_Some by by exists e. rewrite Hs1, length_app. simpl. lia.
Qed.

Lemma walk_path m i as_ ds fuel : path m i as_ ds -> (length as_ < fuel)%nat -> walk fuel m i = Some ds.
Proof.
  revert i ds fuel. induction as_ as [|a as_ IH]; intros i [|d ds] [|fuel] Hp Hf; simpl in *; try done; try lia.
  - by subst i.
  - destruct Hp as (-> & Ha & n & Hn & Hd & Hp). destruct (Z.eqb_spec a 0); [done|].
    rewrite Hn. cbn [mbind option_bind]. rewrite (IH _ _ _ Hp) by lia. simpl. by rewrite Hd.
Qed.

Lemma traverse_spec l ds : is_list l ds -> traverse l = Some ds.
Proof.
  intros (as_ & r & Hr & Hp & _ & _ & _ & _ & _ & Hsz). unfold traverse. rewrite Hr.
  cbn [mbind option_bind]. eapply walk_path; [exact Hp|]. lia.
Qed.

(** ** Reading the directory *)

(** A regular file that fits, or an entry that is neither a file nor a device. *)
Definition file_ok (h : host_file) : Prop :=
  S_ISREG (st_mode h) = true /\ st_size h = alen (contents h) /\ alen (contents h) <= 0x3FF000 /\
  read_error h = None /\ Forall (fun c => 0 < c < 256) (d_name h) /\ 1 <= alen (d_name h) <= 31 /\
  d_name h <> [46].
Definition skipped (h : host_file) : Prop :=
  S_ISREG (st_mode h) = false /\ S_ISCHR (st_mode h) = false.
Definition files (dir : list host_file) : list host_file :=
  filter (fun h => S_ISREG (st_mode h) = true) dir.

Definition nblk (h : host_file) : Z := ceil (alen (contents h)) 4096.
Definition total (fs : list host_file) : Z := foldr (fun h n => nblk h + n) 0 fs.

(** The 32 name bytes of a directory entry. *)
Definition name32 (h : host_file) : list Z := d_name h ++ replicate (Z.to_nat (32 - alen (d_name h))) 0.

Definition buf_of (i : nat) (h : host_file) : ibuf :=
  mk_ibuf (st32 (fun _ => 0) 0 (alen (contents h))) (read_block h <$> seqZ 0 (nblk h))
    (64 + 64 * (1 + Z.of_nat i)) (nblk h) 0.

Definition dentry_at (bb : memory) (i : Z) (name : list Z) (ft : Z) : Prop :=
  bytes_at bb (64 + 64 * i) 32 = name /\ rd32 bb (64 + 64 * i + 32) = ft.

Record dir_inv (s : state) (fs : list host_file) : Prop := {
  di_byte : bblock s 0 = 1 + alen fs;
  di_n : rd32 (bblock s) 0 = 1 + alen fs;
  di_inodes : rd32 (bblock s) 4 = alen fs;
  di_blocks : rd32 (bblock s) 8 = total fs;
  di_dot : dentry_at (bblock s) 0 (46 :: replicate 31 0) 1;
  di_files : forall i h, fs !! i = Some h -> dentry_at (bblock s) (1 + Z.of_nat i) (name32 h) 2;
  di_bufs : bufs s = imap buf_of fs;
  di_list : is_list (ilist s) (seqZ 0 (alen fs)) }.

Lemma strncpy_spec src n : forall i,
  Forall (fun c => 0 < c < 256) src -> (length src <= i + n)%nat ->
  KissFS.strncpy src i n = drop i src ++ replicate (n - (length src - i)) 0.
Proof.
  induction n as [|n IH]; intros i Hs Hn.
  - rewrite drop_ge by lia. done.
  - cbn [KissFS.strncpy]. unfold Filename.char_at. destruct (src !! i) as [c|] eqn:E; cbn [default].
    + pose proof (Forall_lookup_1 _ _ _ _ Hs E) as Hc. simpl in Hc. simpl.
      rewrite u8_small by lia. destruct (Z.eqb_spec c 0); [lia|].
      rewrite (drop_S src c i) by done. rewrite IH by (done || lia). cbn [app].
      apply lookup_lt_Some in E. do 3 f_equal. lia.
    + apply lookup_ge_None in E. rewrite drop_ge by lia. cbn [app].
      by replace (S n - (length src - i))%nat with (S n) by lia.
Qed.

Lemma nblk_range h : alen (contents h) <= 0x3FF000 -> 0 <= nblk h <= 1023.
Proof.
  intros H. pose proof (alen_nonneg (contents h)). unfold nblk.
  rewrite ceil_spec by lia. zdiv.
Qed.

Lemma total_app fs h : total (fs ++ [h]) = total fs + nblk h.
Proof. induction fs; simpl; lia. Qed.
Lemma total_range fs : Forall file_ok fs -> 0 <= total fs <= 1023 * alen fs.
Proof.
  induction 1 as [|h fs (_ & _ & Hh & _) _ IH]; [done|]. cbn [total foldr].
  pose proof (nblk_range h Hh). unfold alen in *. simpl. fold (total fs). lia.
Qed.

(** Outside the 64 bytes of its entry, [create_dentry] changes nothing. *)
Lemma create_dentry_out src mode bb dest x :
  (length src <= 31)%nat -> Forall (fun c => 0 < c < 256) src \/ S_ISREG mode || S_ISCHR mode = false ->
  x < dest \/ dest + 64 <= x -> (create_dentry src mode bb dest).2 x = bb x.
Proof.
  intros Hl Hs Hx. unfold create_dentry. destruct (S_ISREG mode || S_ISCHR mode) eqn:E; cbn [negb snd].
  - change (Z.to_nat 31) with 31%nat. destruct Hs as [Hs|]; [|done]. rewrite strncpy_spec by (done || lia).
    rewrite !st32_out by lia. rewrite !st_bytes_out, st32_out, fill_out; try done; try lia.
    + unfold alen. rewrite length_app, length_replicate, length_drop. lia.
    + unfold alen. simpl. lia.
  - by rewrite fill_out by lia.
Qed.

Lemma create_dentry_file h bb dest :
  file_ok h -> let '(v, bb') := create_dentry (d_name h) (st_mode h) bb dest in
  v = 0 /\ bytes_at bb' dest 32 = name32 h /\ rd32 bb' (dest + 32) = 2.
Proof.
  intros (Hr & _ & _ & _ & Hn & Hl & _). unfold create_dentry. rewrite Hr. cbn [orb negb].
  split; [done|].
  unfold alen in Hl. rewrite strncpy_spec by (done || lia). rewrite drop_0.
  set (nm := d_name h ++ replicate (31 - (length (d_name h) - 0)) 0).
  assert (Hnm : alen nm = 31) by (unfold nm, alen; rewrite length_app, length_replicate; lia).
  split.
  - rewrite (bytes_at_ext _ (st_bytes (st_bytes (st32 (fill bb dest 64 0) (dest + 32) 2) dest nm)
      (dest + 31) [0])) by (intros; apply st32_out; lia).
    unfold bytes_at. replace 32 with (31 + 1) by lia. rewrite fmap_seqZ_app by lia.
    unfold name32, alen. replace (Z.to_nat (32 - Z.of_nat (length (d_name h))))
      with (S (31 - (length (d_name h) - 0))) by lia.
    rewrite replicate_S_end, app_assoc. fold nm. f_equal.
    + apply list_eq. intros i. rewrite list_lookup_fmap. unfold alen in Hnm.
      destruct (decide (i < 31)%nat).
      * rewrite lookup_seqZ_lt by lia. simpl. rewrite st_bytes_out by lia.
        rewrite st_bytes_in by (unfold alen; lia).
        replace (dest + Z.of_nat i - dest) with (Z.of_nat i) by lia.
        unfold aget. rewrite Nat2Z.id. symmetry. apply list_lookup_lookup_total_lt. lia.
      * rewrite lookup_seqZ_ge by lia. simpl. symmetry. apply lookup_ge_None. lia.
    + simpl. rewrite st_bytes_in by (unfold alen; simpl; lia). by rewrite Z.sub_diag.
  - rewrite rd32_st32_ne by lia.
    rewrite (rd32_ext _ (st32 (fill bb dest 64 0) (dest + 32) 2)); [by apply rd32_st32_eq|].
    intros x Hx. rewrite st_bytes_out by (unfold alen; simpl; lia). by rewrite st_bytes_out by lia.
Qed.

Lemma create_file_ok h :
  file_ok h -> create_file h =
    Some (mk_ibuf (st32 (fun _ => 0) 0 (alen (contents h))) (read_block h <$> seqZ 0 (nblk h))
                  0 (nblk h) 0).
Proof.
  intros (_ & Hs & Hl & He & _). unfold create_file. rewrite Hs, He.
  rewrite (proj2 (Z.leb_le _ _) Hl).
  assert (E : (if Z.land (alen (contents h)) 0xFFF =? 0 then alen (contents h) / 4096
               else alen (contents h) / 4096 + 1) = nblk h).
  { unfold nblk, ceil. change 0xFFF with (Z.ones 12). rewrite Z.land_ones by lia.
    change (2 ^ 12) with 4096. pose proof (Z.mod_pos_bound (alen (contents h)) 4096 ltac:(lia)).
    destruct (Z.eqb_spec (alen (contents h) mod 4096) 0), (Z.ltb_spec 0 (alen (contents h) mod 4096)); lia. }
  by rewrite E.
Qed.

(** A boot block that agrees outside the entry being written. *)
Lemma dentry_at_ext bb bb' i name ft :
  (forall x, 64 + 64 * i <= x < 64 + 64 * i + 64 -> bb' x = bb x) ->
  dentry_at bb i name ft -> dentry_at bb' i name ft.
Proof.
  intros H [H1 H2]. split.
  - rewrite <- H1. apply bytes_at_ext. intros x Hx. apply H. lia.
  - rewrite <- H2. apply rd32_ext. intros x Hx. apply H. lia.
Qed.

Lemma st32_byte0 m p v : 0 <= v < 256 -> st32 m p v p = v.
Proof.
  intros. unfold st32. rewrite st_bytes_in by (unfold alen; simpl; lia).
  rewrite Z.sub_diag. cbn. apply Z.mod_small. lia.
Qed.

Lemma dir_inv_0 : dir_inv state0 [].
Proof.
  split; try reflexivity; [split; vm_compute; reflexivity|done|apply is_list_init].
Qed.

Lemma add_file_skipped s fs h :
  dir_inv s fs -> skipped h -> alen fs <= 32 ->
  exists s', add_file h s = Some s' /\ dir_inv s' fs.
Proof.
  intros [] [Hr Hc] Hn. unfold add_file. rewrite di_byte0.
  unfold create_dentry. rewrite Hr, Hc. cbn [orb negb Z.eqb]. eexists. split; [reflexivity|].
  assert (Ho : forall x, x < (1 + alen fs) * 64 + 64 ->
    fill (bblock s) ((1 + alen fs) * 64 + 64) 64 0 x = bblock s x) by (intros; apply fill_out; lia).
  pose proof (alen_nonneg fs).
  split; cbn [bblock bufs ilist]; try done.
  - by rewrite Ho by lia.
  - etrans; [|exact di_n0]. apply rd32_ext. intros. apply Ho. lia.
  - etrans; [|exact di_inodes0]. apply rd32_ext. intros. apply Ho. lia.
  - etrans; [|exact di_blocks0]. apply rd32_ext. intros. apply Ho. lia.
  - eapply dentry_at_ext; [|exact di_dot0]. intros. apply Ho. lia.
  - intros i h' Hi. pose proof (lookup_lt_Some _ _ _ Hi). eapply dentry_at_ext; [|by apply di_files0].
    intros. apply Ho. unfold alen. lia.
Qed.

Lemma add_file_ok s fs h :
  dir_inv s fs -> Forall file_ok fs -> file_ok h -> alen fs < 32 ->
  exists s', add_file h s = Some s' /\ dir_inv s' (fs ++ [h]).
Proof.
  intros [] Hfs Hh Hn. unfold add_file. rewrite di_byte0. set (dest := (1 + alen fs) * 64 + 64).
  pose proof (alen_nonneg fs). pose proof (total_range fs Hfs).
  pose proof (create_dentry_file h (bblock s) dest Hh) as Hd.
  assert (Ho : forall x, x < dest \/ dest + 64 <= x ->
    (create_dentry (d_name h) (st_mode h) (bblock s) dest).2 x = bblock s x).
  { intros x Hx. destruct Hh as (Hr & _ & _ & _ & Hnm & Hl & _).
    apply create_dentry_out; [unfold alen in Hl; lia|by left|done]. }
  destruct (create_dentry _ _ _ _) as [v bb]. cbn [snd] in Ho.
  destruct Hd as (-> & Hd1 & Hd2). cbn [Z.eqb negb]. rewrite create_file_ok by done. cbv zeta.
  cbn [icount iblk iblocks inum].
  destruct (list_insert_at_tail_spec _ _ (alen (bufs s)) di_list0) as (l' & El & Hl & _).
  rewrite El. cbn [mbind option_bind]. eexists. split; [reflexivity|].
  pose proof (nblk_range h ltac:(apply Hh)).
  assert (R0 : rd32 bb 0 = 1 + alen fs)
    by (etrans; [|exact di_n0]; apply rd32_ext; intros; apply Ho; unfold dest; lia).
  rewrite R0. set (b1 := st32 bb 0 _).
  assert (R4 : rd32 b1 4 = alen fs).
  { unfold b1. rewrite rd32_st32_ne by lia. etrans; [|exact di_inodes0]. apply rd32_ext. intros.
    apply Ho. unfold dest. lia. }
  rewrite R4. set (b2 := st32 b1 4 _).
  assert (R8 : rd32 b2 8 = total fs).
  { unfold b2, b1. rewrite !rd32_st32_ne by lia. etrans; [|exact di_blocks0]. apply rd32_ext. intros.
    apply Ho. unfold dest. lia. }
  rewrite R8. rewrite !u32_small in * by lia.
  assert (Hx : forall x, 12 <= x -> st32 b2 8 (total fs + nblk h) x = bb x).
  { intros x Hx. unfold b2, b1. by rewrite !st32_out by lia. }
  assert (Ha : alen (fs ++ [h]) = alen fs + 1) by (rewrite alen_app; done).
  split; cbn [bblock bufs ilist]; rewrite ?Ha, ?total_app.
  - rewrite !st32_out by lia. unfold b2. rewrite st32_out by lia. unfold b1.
    rewrite u32_small by lia. rewrite st32_byte0 by lia. lia.
  - rewrite rd32_st32_ne by lia. unfold b2. rewrite rd32_st32_ne by lia. unfold b1.
    rewrite u32_small by lia. rewrite rd32_st32_eq by lia. lia.
  - rewrite rd32_st32_ne by lia. unfold b2. rewrite u32_small by lia. by rewrite rd32_st32_eq by lia.
  - by rewrite rd32_st32_eq by lia.
  - eapply dentry_at_ext; [|exact di_dot0]. intros x Hxr. rewrite Hx by lia. apply Ho. unfold dest. lia.
  - intros i h' Hi. apply lookup_snoc_Some in Hi as [[Hlt Hi]|[-> <-]].
    + eapply dentry_at_ext; [|by apply di_files0]. intros x Hxr. rewrite Hx by lia. apply Ho.
      unfold dest, alen. lia.
    + replace (64 + 64 * (1 + Z.of_nat (length fs))) with dest by (unfold dest, alen; lia).
      unfold dentry_at. replace (64 + 64 * (1 + Z.of_nat (length fs))) with dest by (unfold dest, alen; lia).
      split; [rewrite <- Hd1; apply bytes_at_ext|rewrite <- Hd2; apply rd32_ext];
        intros; apply Hx; unfold dest in *; lia.
  - rewrite imap_app. simpl. rewrite di_bufs0. f_equal. unfold buf_of. rewrite Nat.add_0_r.
    do 2 f_equal. unfold dest, alen. lia.
  - rewrite seqZ_app by lia. rewrite Z.add_0_l. simpl.
    replace (alen (bufs s)) with (alen fs) in Hl; [done|].
    rewrite di_bufs0. unfold alen. by rewrite length_imap.
Qed.

Lemma read_dir_spec dir : forall s fs,
  dir_inv s fs -> Forall file_ok fs -> Forall (fun h => file_ok h \/ skipped h) dir ->
  alen (fs ++ files dir) <= 32 ->
  exists s', read_dir dir s = Some s' /\ dir_inv s' (fs ++ files dir) /\ Forall file_ok (fs ++ files dir).
Proof.
  induction dir as [|h dir IH]; intros s fs Hi Hfs Hd Hn.
  - exists s. unfold files. rewrite filter_nil, app_nil_r. done.
  - inversion_clear Hd as [|? ? Hh Hd']. cbn [read_dir]. rewrite (di_n _ _ Hi).
    assert (Hle : alen fs <= 32) by (rewrite alen_app in Hn; pose proof (alen_nonneg (files (h :: dir))); lia).
    rewrite (proj2 (Z.leb_le _ _)) by lia. destruct Hh as [Hh|Hh].
    + assert (Hf : files (h :: dir) = h :: files dir).
      { unfold files. rewrite filter_cons_True; [done|]. apply Hh. }
      rewrite Hf in *. assert (E : fs ++ h :: files dir = (fs ++ [h]) ++ files dir) by by rewrite <- app_assoc.
      destruct (add_file_ok s fs h) as (s' & -> & Hi'); try done.
      { rewrite E, !alen_app in Hn. pose proof (alen_nonneg (files dir)). unfold alen in *. simpl in Hn. lia. }
      cbn [mbind option_bind]. rewrite E in *. apply IH; try done.
      apply Forall_app. split; [done|]. by constructor.
    + assert (Hf : files (h :: dir) = files dir).
      { unfold files. rewrite filter_cons_False; [done|]. destruct Hh as [-> _]. done. }
      rewrite Hf in *. destruct (add_file_skipped s fs h) as (s' & -> & Hi'); try done.
      cbn [mbind option_bind]. by apply IH.
Qed.

(** ** Drawing free blocks *)

(** What the builder relies on: [rand] reaches every residue again and again. *)
Definition fair (rand : nat -> Z) : Prop :=
  forall modulus r n, 0 <= r < modulus -> modulus <= 2 ^ 31 ->
    exists k, (n <= k)%nat /\ rand k mod modulus = r.

(** With enough fuel the result is [a], whatever the fuel. *)
Definition ev {A} (f : nat -> option A) (a : A) : Prop :=
  exists N, forall fuel, (N <= fuel)%nat -> f fuel = Some a.

Lemma ev_ret {A} (a : A) : ev (fun _ => Some a) a.
Proof. by exists 0%nat. Qed.
Lemma ev_bind {A B} (f : nat -> option A) (g : nat -> A -> option B) a b :
  ev f a -> ev (fun n => g n a) b -> ev (fun n => f n ≫= g n) b.
Proof.
  intros [N Hf] [M Hg]. exists (N `max` M)%nat. intros n Hn. rewrite Hf by lia. simpl. apply Hg. lia.
Qed.
Lemma ev_ext {A} (f g : nat -> option A) a : (forall n, f n = g n) -> ev f a -> ev g a.
Proof. intros Hfg [N Hf]. exists N. intros n Hn. rewrite <- Hfg. by apply Hf. Qed.

Section alloc.
Context (rand : nat -> Z) (Hfair : fair rand).

Lemma draw_spec modulus base used k :
  0 < modulus <= 2 ^ 31 -> 0 <= base -> base + modulus + 1 <= alen used ->
  (exists v, 0 <= v < modulus /\ aget used (base + v + 1) = 0) ->
  exists v k', ev (fun fuel => draw rand fuel k modulus base used) (v, k') /\
    0 <= v < modulus /\ aget used (base + v + 1) = 0.
Proof.
  intros Hm Hb Hl (v0 & Hv0 & Hfree).
  destruct (Hfair modulus v0 k Hv0) as (k0 & Hk0 & Hr0); [lia|].
  assert (Hind : forall d k, (k0 = k + d)%nat ->
    exists v k', ev (fun fuel => draw rand fuel k modulus base used) (v, k') /\
      0 <= v < modulus /\ aget used (base + v + 1) = 0).
  { clear k Hk0. induction d as [|d IH]; intros k Hk.
    - rewrite Nat.add_0_r in Hk. subst k0. exists v0, (S k). split; [|done].
      exists 1%nat. intros [|fuel] Hf; [lia|]. simpl. rewrite Hr0, anth_aget by lia.
      simpl. by rewrite Hfree.
    - pose proof (Z.mod_pos_bound (rand k) modulus ltac:(lia)) as Hmod.
      destruct (decide (aget used (base + rand k mod modulus + 1) = 0)) as [E|E].
      + exists (rand k mod modulus), (S k). split; [|done].
        exists 1%nat. intros [|fuel] Hf; [lia|]. simpl. rewrite anth_aget by lia. simpl. by rewrite E.
      + destruct (IH (S k)) as (v & k' & [N HN] & Hv); [lia|]. exists v, k'. split; [|done].
        exists (S N). intros [|fuel] Hf; [lia|]. simpl. rewrite anth_aget by lia. simpl.
        destruct (Z.eqb_spec (aget used (base + rand k mod modulus + 1)) 0); [done|].
        apply HN. lia. }
  apply (Hind (k0 - k)%nat). lia.
Qed.

(** Some number below the modulus is not taken yet. *)
Lemma pigeonhole (n : Z) (l : list Z) :
  alen l < n -> exists v, 0 <= v < n /\ v ∉ l.
Proof.
  intros Hl. destruct (decide (Exists (fun v => v ∉ l) (seqZ 0 n))) as [He|Hn].
  - apply List.Exists_exists in He as (v & Hv%list_elem_of_In%elem_of_seqZ & Hnin).
    exists v. split; [lia|done].
  - exfalso. assert (Hsub : forall v, v ∈ seqZ 0 n -> v ∈ l).
    { intros v Hv. destruct (decide (v ∈ l)); [done|]. destruct Hn.
      apply List.Exists_exists. exists v. split; [by apply list_elem_of_In|done]. }
    apply (NoDup_submseteq _ l (NoDup_seqZ 0 n)) in Hsub. apply submseteq_length in Hsub.
    rewrite length_seqZ in Hsub. unfold alen in Hl. lia.
Qed.

(** The free map after the numbers [ns] and [ids] have been drawn. *)
Record fm_inv (ni nb : Z) (m : freemap) (ns ids : list Z) : Prop := {
  fmi_ni : fm_inodes m = ni;
  fmi_nb : fm_blocks m = nb;
  fmi_rng : 0 <= ni <= 2 ^ 30 /\ 0 <= nb <= 2 ^ 30;
  fmi_len : alen (fm_used m) = ni + nb + 1;
  fmi_inodes : forall v, 0 <= v < ni -> aget (fm_used m) (v + 1) = if decide (v ∈ ns) then 1 else 0;
  fmi_blocks : forall v, 0 <= v < nb -> aget (fm_used m) (v + ni + 1) = if decide (v ∈ ids) then 1 else 0;
  fmi_nodup : NoDup ns /\ NoDup ids;
  fmi_is : Forall (fun v => 0 <= v < ni) ns;
  fmi_ids : Forall (fun v => 0 <= v < nb) ids }.

Lemma fm_inv_init n t :
  0 <= n <= 2 ^ 28 -> 0 <= t <= 2 ^ 28 -> fm_inv (2 * n) (2 * t) (init_freemap n t) [] [].
Proof.
  intros Hn Ht. unfold init_freemap, get_size. rewrite !u32_small by (rewrite ?u32_small; lia).
  assert (Hl : alen (replicate (Z.to_nat (2 * n + 2 * t + 1)) 0) = 2 * n + 2 * t + 1)
    by (unfold alen; rewrite length_replicate; lia).
  split; cbn [fm_inodes fm_blocks fm_used]; try done; try lia.
  - by rewrite alen_aset.
  - intros v Hv. rewrite aget_aset_ne, aget_replicate by lia.
    case_decide as E; [by apply elem_of_nil in E|done].
  - intros v Hv. rewrite aget_aset_ne, aget_replicate by lia.
    case_decide as E; [by apply elem_of_nil in E|done].
  - split; constructor.
Qed.

Lemma get_inode_block_spec ni nb m ns ids k :
  fm_inv ni nb m ns ids -> alen ns < ni ->
  exists v k' m', ev (fun fuel => get_inode_block rand fuel k m) (v, k', m') /\
    fm_inv ni nb m' (ns ++ [v]) ids.
Proof.
  intros [] Hlt. destruct (pigeonhole ni ns Hlt) as (v0 & Hv0 & Hnin).
  destruct (draw_spec (fm_inodes m) 0 (fm_used m) k) as (v & k' & Hev & Hv & Hfree).
  { pose proof (alen_nonneg ns). lia. }
  { lia. }
  { lia. }
  { exists v0. split; [lia|]. rewrite Z.add_0_l, fmi_inodes0 by lia. by rewrite decide_False. }
  exists v, k', (mk_map (fm_inodes m) (fm_blocks m) (aset (fm_used m) (v + 1) 1)). split.
  - unfold get_inode_block. eapply ev_bind; [exact Hev|]. apply ev_ret.
  - rewrite Z.add_0_l, fmi_inodes0 in Hfree by lia. case_decide as Hvin; [done|].
    split; cbn [fm_inodes fm_blocks fm_used]; try done.
    + by rewrite alen_aset.
    + intros w Hw. destruct (decide (w = v)) as [->|Hne].
      * rewrite aget_aset_eq by lia. rewrite decide_True by set_solver. done.
      * rewrite aget_aset_ne by lia. rewrite fmi_inodes0 by done.
        repeat case_decide; set_solver.
    + intros w Hw. rewrite aget_aset_ne by lia. by apply fmi_blocks0.
    + split; [|apply fmi_nodup0]. apply NoDup_app. split; [apply fmi_nodup0|].
      split; [set_solver|apply NoDup_singleton].
    + apply Forall_app. split; [done|]. constructor; [lia|done].
Qed.

Lemma get_data_block_spec ni nb m ns ids k :
  fm_inv ni nb m ns ids -> alen ids < nb ->
  exists v k' m', ev (fun fuel => get_data_block rand fuel k m) (v, k', m') /\
    fm_inv ni nb m' ns (ids ++ [v]).
Proof.
  intros [] Hlt. destruct (pigeonhole nb ids Hlt) as (v0 & Hv0 & Hnin).
  destruct (draw_spec (fm_blocks m) (fm_inodes m) (fm_used m) k) as (v & k' & Hev & Hv & Hfree).
  { pose proof (alen_nonneg ids). lia. }
  { lia. }
  { lia. }
  { exists v0. split; [lia|]. rewrite fmi_ni0, (Z.add_comm ni), fmi_blocks0 by lia.
    by rewrite decide_False. }
  exists v, k', (mk_map (fm_inodes m) (fm_blocks m) (aset (fm_used m) (v + fm_inodes m + 1) 1)). split.
  - unfold get_data_block. eapply ev_bind; [exact Hev|]. apply ev_ret.
  - rewrite fmi_ni0 in *. rewrite fmi_nb0 in *.
    rewrite (Z.add_comm ni), fmi_blocks0 in Hfree by lia. case_decide as Hvin; [done|].
    split; cbn [fm_inodes fm_blocks fm_used]; try done.
    + by rewrite alen_aset.
    + intros w Hw. rewrite aget_aset_ne by lia. by apply fmi_inodes0.
    + intros w Hw. destruct (decide (w = v)) as [->|Hne].
      * rewrite aget_aset_eq by lia. rewrite decide_True by set_solver. done.
      * rewrite aget_aset_ne by lia. rewrite fmi_blocks0 by done.
        repeat case_decide; set_solver.
    + split; [apply fmi_nodup0|]. apply NoDup_app. split; [apply fmi_nodup0|].
      split; [set_solver|apply NoDup_singleton].
    + apply Forall_app. split; [done|]. constructor; [lia|done].
Qed.

(** What the numbering passes compute. *)
Definition set_inum (b : ibuf) (v : Z) : ibuf :=
  mk_ibuf (iblk b) (iblocks b) (identry b) (icount b) v.
Definition put_inums (bb : memory) (l : list (ibuf * Z)) : memory :=
  foldl (fun bb bv => st32 bb (identry bv.1 + 36) bv.2) bb l.
Fixpoint st_ids (blk : memory) (ptr : Z) (vs : list Z) : memory :=
  match vs with [] => blk | v :: vs => st_ids (st32 blk ((ptr + 1) * 4) v) (ptr + 1) vs end.
Definition set_ids (b : ibuf) (vs : list Z) : ibuf :=
  mk_ibuf (st_ids (iblk b) 0 vs) (iblocks b) (identry b) (icount b) (inum b).

(** One element of an array at a time. *)
Lemma array_step {A} (bs : list A) (j : nat) c :
  (j + S c)%nat = length bs -> exists b,
    anth bs (Z.of_nat j) = Some b /\ drop j bs = b :: drop (S j) bs /\
    forall b', take (S j) (aset bs (Z.of_nat j) b') = take j bs ++ [b'] /\
      drop (S j) (aset bs (Z.of_nat j) b') = drop (S j) bs /\
      length (aset bs (Z.of_nat j) b') = length bs.
Proof.
  intros Hl. destruct (bs !! j) as [b|] eqn:Hb; [|apply lookup_ge_None in Hb; lia].
  exists b. unfold anth, aset. rewrite Nat2Z.id. split; [by destruct (Z.leb_spec 0 (Z.of_nat j)); [|lia]|].
  split; [by apply drop_S|]. intros b'. rewrite take_insert_snoc by lia.
  rewrite drop_insert_lt by lia. by rewrite length_insert.
Qed.

Lemma number_inodes_spec ni nb ids c : forall j k m bb bs ns,
  (j + c)%nat = length bs -> fm_inv ni nb m ns ids -> alen ns + Z.of_nat c <= ni ->
  exists vs k' m', length vs = c /\ fm_inv ni nb m' (ns ++ vs) ids /\
    ev (fun fuel => number_inodes rand fuel (seqZ (Z.of_nat j) (Z.of_nat c)) k m bb bs)
      (k', m', put_inums bb (zip (drop j bs) vs), take j bs ++ zip_with set_inum (drop j bs) vs).
Proof.
  induction c as [|c IH]; intros j k m bb bs ns Hl Hi Hn.
  - exists [], k, m. rewrite app_nil_r. split; [done|]. split; [done|].
    rewrite seqZ_nil, !zip_with_nil_r, app_nil_r, take_ge by lia. apply ev_ret.
  - destruct (get_inode_block_spec ni nb m ns ids k Hi) as (v & k1 & m1 & Hev & Hi1); [lia|].
    destruct (array_step bs j c Hl) as (b & Hb & Hd & Hset).
    destruct (Hset (set_inum b v)) as (Ht & Hd' & Hl').
    destruct (IH (S j) k1 m1 (st32 bb (identry b + 36) v) (aset bs (Z.of_nat j) (set_inum b v))
      (ns ++ [v])) as (vs & k2 & m2 & Hvs & Hi2 & Hev2); [lia|done|rewrite alen_app; unfold alen; simpl; unfold alen in Hn; lia|].
    exists (v :: vs), k2, m2. rewrite <- app_assoc in Hi2. split; [simpl; lia|]. split; [done|].
    rewrite seqZ_cons by lia. replace (Z.pred (Z.of_nat (S c))) with (Z.of_nat c) by lia.
    replace (Z.succ (Z.of_nat j)) with (Z.of_nat (S j)) by lia.
    rewrite Ht, Hd', <- app_assoc in Hev2. rewrite Hd.
    cbn [number_inodes]. rewrite Hb. cbn [mbind option_bind].
    eapply ev_ext; [|eapply (ev_bind _ (fun n x => number_inodes rand n (seqZ (Z.of_nat (S j)) (Z.of_nat c))
      x.1.2 x.2 (st32 bb (identry b + 36) x.1.1) (aset bs (Z.of_nat j) (set_inum b x.1.1))));
      [exact Hev|exact Hev2]].
    intros n. cbv beta. destruct (get_inode_block rand n k m) as [[[? ?] ?]|]; done.
Qed.

Lemma number_blocks_spec ni nb ns n : forall ptr k m blk ids,
  fm_inv ni nb m ns ids -> alen ids + Z.of_nat n <= nb ->
  exists vs k' m', length vs = n /\ fm_inv ni nb m' ns (ids ++ vs) /\
    ev (fun fuel => number_blocks rand fuel n ptr k m blk) (k', m', st_ids blk ptr vs).
Proof.
  induction n as [|n IH]; intros ptr k m blk ids Hi Hn.
  - exists [], k, m. rewrite app_nil_r. split; [done|]. split; [done|]. apply ev_ret.
  - destruct (get_data_block_spec ni nb m ns ids k Hi) as (v & k1 & m1 & Hev & Hi1); [lia|].
    destruct (IH (ptr + 1) k1 m1 (st32 blk ((ptr + 1) * 4) v) (ids ++ [v])) as (vs & k2 & m2 & Hvs & Hi2 & Hev2);
      [done|rewrite alen_app; unfold alen in *; simpl; lia|].
    exists (v :: vs), k2, m2. rewrite <- app_assoc in Hi2. split; [simpl; lia|]. split; [done|].
    cbn [number_blocks st_ids].
    eapply ev_ext; [|eapply (ev_bind _ (fun f x => number_blocks rand f n (ptr + 1)
      x.1.2 x.2 (st32 blk ((ptr + 1) * 4) x.1.1))); [exact Hev|exact Hev2]].
    intros f. cbv beta. destruct (get_data_block rand f k m) as [[[? ?] ?]|]; done.
Qed.

Definition counts (bs : list ibuf) : Z := foldr (fun b n => Z.of_nat (Z.to_nat (icount b)) + n) 0 bs.

Lemma number_files_spec ni nb ns c : forall j k m bs ids,
  (j + c)%nat = length bs -> fm_inv ni nb m ns ids -> alen ids + counts (drop j bs) <= nb ->
  exists vss k' m', Forall2 (fun b vs => length vs = Z.to_nat (icount b)) (drop j bs) vss /\
    fm_inv ni nb m' ns (ids ++ mjoin vss) /\
    ev (fun fuel => number_files rand fuel (seqZ (Z.of_nat j) (Z.of_nat c)) k m bs)
      (k', m', take j bs ++ zip_with set_ids (drop j bs) vss).
Proof.
  induction c as [|c IH]; intros j k m bs ids Hl Hi Hn.
  - exists [], k, m. rewrite drop_ge by lia. cbn [mjoin list_join]. rewrite app_nil_r.
    split; [constructor|]. split; [done|].
    rewrite seqZ_nil, app_nil_r, take_ge by lia. apply ev_ret.
  - destruct (array_step bs j c Hl) as (b & Hb & Hd & Hset). rewrite Hd in Hn |- *.
    cbn [counts foldr] in Hn. fold (counts (drop (S j) bs)) in Hn.
    assert (Hc0 : 0 <= counts (drop (S j) bs)).
    { clear. induction (drop (S j) bs); simpl; lia. }
    destruct (number_blocks_spec ni nb ns (Z.to_nat (icount b)) 0 k m (iblk b) ids Hi)
      as (vs & k1 & m1 & Hvs & Hi1 & Hev); [lia|].
    destruct (Hset (set_ids b vs)) as (Ht & Hd' & Hl').
    destruct (IH (S j) k1 m1 (aset bs (Z.of_nat j) (set_ids b vs)) (ids ++ vs))
      as (vss & k2 & m2 & HF & Hi2 & Hev2); [lia|done|rewrite Hd', alen_app; unfold alen in *; lia|].
    exists (vs :: vss), k2, m2. rewrite Hd' in HF. split; [by constructor|].
    cbn [mjoin list_join]. rewrite <- app_assoc in Hi2. split; [done|].
    rewrite seqZ_cons by lia. replace (Z.pred (Z.of_nat (S c))) with (Z.of_nat c) by lia.
    replace (Z.succ (Z.of_nat j)) with (Z.of_nat (S j)) by lia.
    rewrite Ht, Hd', <- app_assoc in Hev2.
    cbn [number_files zip_with]. rewrite Hb. cbn [mbind option_bind].
    eapply ev_ext; [|eapply (ev_bind _ (fun n x => number_files rand n (seqZ (Z.of_nat (S j)) (Z.of_nat c))
      x.1.1 x.1.2 (aset bs (Z.of_nat j) (mk_ibuf x.2 (iblocks b) (identry b) (icount b) (inum b)))));
      [exact Hev|exact Hev2]].
    intros n. cbv beta. destruct (number_blocks rand n _ 0 k m (iblk b)) as [[[? ?] ?]|]; done.
Qed.
End alloc.

(** *** What the passes leave in the blocks *)

Lemma rd32_st_ids_ne vs : forall blk ptr q,
  q + 4 <= (ptr + 1) * 4 -> rd32 (st_ids blk ptr vs) q = rd32 blk q.
Proof.
  induction vs as [|v vs IH]; intros blk ptr q Hq; [done|]. cbn [st_ids].
  rewrite IH by lia. apply rd32_st32_ne. lia.
Qed.

Lemma rd32_st_ids vs : forall blk ptr j v,
  vs !! j = Some v -> 0 <= v < 2 ^ 32 ->
  rd32 (st_ids blk ptr vs) ((ptr + Z.of_nat j + 1) * 4) = v.
Proof.
  induction vs as [|w vs IH]; intros blk ptr [|j] v Hj Hv; simpl in Hj; try done; cbn [st_ids].
  - injection Hj as ->. rewrite rd32_st_ids_ne by lia.
    replace (ptr + Z.of_nat 0 + 1) with (ptr + 1) by lia. by apply rd32_st32_eq.
  - replace (ptr + Z.of_nat (S j) + 1) with (ptr + 1 + Z.of_nat j + 1) by lia. by apply IH.
Qed.

Lemma put_inums_out l : forall bb x,
  (forall bv, bv ∈ l -> x < identry bv.1 + 36 \/ identry bv.1 + 40 <= x) -> put_inums bb l x = bb x.
Proof.
  induction l as [|bv l IH]; intros bb x Hx; [done|]. cbn [put_inums foldl].
  fold (put_inums (st32 bb (identry bv.1 + 36) bv.2) l). rewrite IH.
  - apply st32_out. specialize (Hx bv ltac:(left)). lia.
  - intros bv' Hin. apply Hx. by right.
Qed.

Lemma put_inums_at l : forall bb i b v,
  l !! i = Some (b, v) -> 0 <= v < 2 ^ 32 ->
  (forall j bv, j <> i -> l !! j = Some bv -> identry bv.1 + 4 <= identry b \/ identry b + 4 <= identry bv.1) ->
  rd32 (put_inums bb l) (identry b + 36) = v.
Proof.
  induction l as [|bv l IH]; intros bb [|i] b v Hi Hv Hd; simpl in Hi; try done;
    cbn [put_inums foldl]; fold (put_inums (st32 bb (identry bv.1 + 36) bv.2) l).
  - injection Hi as ->. rewrite (rd32_ext _ (st32 bb (identry b + 36) v)); [by apply rd32_st32_eq|].
    intros x Hx. apply put_inums_out. intros bv Hin. apply list_elem_of_lookup in Hin as [j Hj].
    specialize (Hd (S j) bv ltac:(done) Hj). lia.
  - eapply IH; [done|done|]. intros j bv' Hne Hj. apply (Hd (S j)); [congruence|done].
Qed.

(** *** Blocks of a file *)

Definition wr (f : file) (w : Z * memory) : file := fwrite f (w.1 * 4096) 4096 w.2.

Lemma wr_block b src f x : 0 <= x < 4096 -> fbyte (wr f (b, src)) (b * 4096 + x) = src x.
Proof.
  intros Hx. cbn. rewrite (proj2 (Z.leb_le _ _)), (proj2 (Z.ltb_lt _ _)) by lia. simpl.
  f_equal. lia.
Qed.
Lemma wr_other w f b x : 0 <= x < 4096 -> b <> w.1 -> fbyte (wr f w) (b * 4096 + x) = fbyte f (b * 4096 + x).
Proof.
  intros Hx Hb. cbn. destruct (Z.leb_spec (w.1 * 4096) (b * 4096 + x)); [|done].
  destruct (Z.ltb_spec (b * 4096 + x) (w.1 * 4096 + 4096)); [lia|done].
Qed.

Lemma wrs_out W : forall f b x, 0 <= x < 4096 -> b ∉ W.*1 ->
  fbyte (foldl wr f W) (b * 4096 + x) = fbyte f (b * 4096 + x).
Proof.
  induction W as [|w W IH]; intros f b x Hx Hb; [done|]. cbn [foldl fmap list_fmap] in *.
  apply not_elem_of_cons in Hb as [Hb1 Hb2]. rewrite IH by done. by apply wr_other.
Qed.

Lemma wrs_in W : forall f b src x, 0 <= x < 4096 -> NoDup W.*1 -> (b, src) ∈ W ->
  fbyte (foldl wr f W) (b * 4096 + x) = src x.
Proof.
  induction W as [|w W IH]; intros f b src x Hx Hnd Hin; [by apply elem_of_nil in Hin|].
  cbn [foldl fmap list_fmap] in *. apply NoDup_cons in Hnd as [Hw Hnd].
  apply elem_of_cons in Hin as [<-|Hin]; [|by apply IH].
  rewrite wrs_out by done. by apply wr_block.
Qed.

Lemma wrs_len W : forall f, flen f <= flen (foldl wr f W) /\
  forall b, b ∈ W.*1 -> (b + 1) * 4096 <= flen (foldl wr f W).
Proof.
  induction W as [|w W IH]; intros f; cbn [foldl fmap list_fmap].
  - split; [lia|]. intros b Hb. by apply elem_of_nil in Hb.
  - destruct (IH (wr f w)) as [H1 H2]. cbn [wr fwrite flen] in H1. split; [lia|].
    intros b [->|Hb]%elem_of_cons; [lia|by apply H2].
Qed.

Lemma wrs_len_le W B : forall f, flen f <= B * 4096 -> Forall (fun b => b < B) W.*1 ->
  flen (foldl wr f W) <= B * 4096.
Proof.
  induction W as [|w W IH]; intros f Hf HW; [done|]. cbn [foldl fmap list_fmap] in *.
  inversion_clear HW. apply IH; [|done]. cbn [wr fwrite flen]. lia.
Qed.

(** The writes of [main], as blocks. *)
Definition data_writes (ni : Z) (b : ibuf) : list (Z * memory) :=
  (fun j => (rd32 (iblk b) ((j + 1) * 4) + ni + 1, default (fun _ => 0) (anth (iblocks b) j)))
    <$> seqZ 0 (icount b).
Definition all_writes (ni : Z) (bb : memory) (bs : list ibuf) : list (Z * memory) :=
  (0, bb) :: ((fun b => (inum b + 1, iblk b)) <$> bs) ++ mjoin (data_writes ni <$> bs).

Lemma foldl_fmap {A B C} (f : C -> B -> C) (g : A -> B) l : forall c,
  foldl f c (g <$> l) = foldl (fun c a => f c (g a)) c l.
Proof. induction l; intros c; [done|]. simpl. done. Qed.

Lemma foldl_mjoin {A B C} (f : C -> B -> C) (g : A -> list B) l : forall c,
  foldl f c (mjoin (g <$> l)) = foldl (fun c a => foldl f c (g a)) c l.
Proof. induction l; intros c; [done|]. simpl. by rewrite foldl_app. Qed.

Lemma foldl_ext_eq {A C} (f g : C -> A -> C) l : (forall c a, f c a = g c a) ->
  forall c, foldl f c l = foldl g c l.
Proof. intros H. induction l; intros c; [done|]. simpl. by rewrite H. Qed.

Lemma writes_blocks ni bb bs :
  foldl (fun f b => write_data ni b f) (foldl (fun f b => write_inode b f)
    (fwrite (mk_file 0 (fun _ => 0)) 0 4096 bb) bs) bs =
  foldl wr (mk_file 0 (fun _ => 0)) (all_writes ni bb bs).
Proof.
  unfold all_writes. cbn [foldl]. rewrite foldl_app, foldl_fmap, foldl_mjoin.
  rewrite (foldl_ext_eq (fun f b => write_inode b f) (fun c a => wr c (inum a + 1, iblk a)) bs).
  - apply foldl_ext_eq. intros f b. unfold write_data, data_writes, for_range.
    rewrite Z.sub_0_r, foldl_fmap. done.
  - intros f b. unfold write_inode, wr. cbn [fst snd]. by replace (inum b * 4096 + 4096) with ((inum b + 1) * 4096) by lia.
Qed.

(** ** The finished image *)

(** The buffer of file [i] at the end of [main]. *)
Definition final_buf (i : nat) (p : host_file * (Z * list Z)) : ibuf :=
  set_ids (set_inum (buf_of i p.1) p.2.1) p.2.2.
Definition inode_image (h : host_file) (ids : list Z) : memory :=
  st_ids (st32 (fun _ => 0) 0 (alen (contents h))) 0 ids.

(** The blocks written, for files with their inode numbers and data blocks. *)
Definition ent_data (ni : Z) (p : host_file * (Z * list Z)) : list (Z * memory) :=
  imap (fun j id => (id + ni + 1, read_block p.1 (Z.of_nat j))) p.2.2.
Definition image_writes (ni : Z) (bb : memory) (ents : list (host_file * (Z * list Z))) :=
  (0, bb) :: ((fun p => (p.2.1 + 1, inode_image p.1 p.2.2)) <$> ents) ++ mjoin (ent_data ni <$> ents).

Definition ent_ok (t : Z) (p : host_file * (Z * list Z)) : Prop :=
  alen p.2.2 = nblk p.1 /\ Forall (fun id => 0 <= id < t) p.2.2.

Lemma data_writes_final ni t i p :
  ent_ok t p -> t <= 2 ^ 31 -> data_writes ni (final_buf i p) = ent_data ni p.
Proof.
  intros [Hl Hr] Ht. destruct p as [h [v ids]]. unfold data_writes, final_buf, ent_data.
  cbn [set_ids set_inum buf_of iblk iblocks icount fst snd] in *.
  apply list_eq. intros j. rewrite list_lookup_fmap, list_lookup_imap.
  unfold alen in Hl. destruct (ids !! j) as [id|] eqn:E.
  - pose proof (lookup_lt_Some _ _ _ E). rewrite lookup_seqZ_lt by lia. cbn [fmap option_fmap option_map].
    pose proof (Forall_lookup_1 _ _ _ _ Hr E) as Hid. simpl in Hid.
    replace ((0 + Z.of_nat j + 1) * 4) with ((0 + Z.of_nat j + 1) * 4) by lia.
    rewrite (rd32_st_ids _ _ 0 j id) by (done || lia). f_equal. f_equal.
    unfold anth. rewrite (proj2 (Z.leb_le _ _)) by lia. rewrite list_lookup_fmap, lookup_seqZ_lt by lia.
    simpl. f_equal. lia.
  - apply lookup_ge_None in E. rewrite lookup_seqZ_ge by lia. done.
Qed.

Lemma imap_zip3 fs vs vss : length vs = length fs -> length vss = length fs ->
  zip_with set_ids (zip_with set_inum (imap buf_of fs) vs) vss = imap final_buf (zip fs (zip vs vss)).
Proof.
  intros H1 H2. apply list_eq. intros i.
  rewrite !lookup_zip_with, !list_lookup_imap, !lookup_zip_with.
  destruct (fs !! i); simpl; [|done]. destruct (vs !! i); simpl; [|done]. by destruct (vss !! i).
Qed.

Lemma writes_final ni t bb ents :
  Forall (ent_ok t) ents -> t <= 2 ^ 31 ->
  all_writes ni bb (imap final_buf ents) = image_writes ni bb ents.
Proof.
  intros He Ht. unfold all_writes, image_writes. f_equal. f_equal.
  - rewrite fmap_imap. apply list_eq. intros i. rewrite list_lookup_imap, list_lookup_fmap. done.
  - f_equal. rewrite fmap_imap. apply list_eq. intros i. rewrite list_lookup_imap, list_lookup_fmap.
    destruct (ents !! i) as [p|] eqn:E; [|done]. simpl. f_equal.
    apply (data_writes_final ni t); [|done]. by apply (Forall_lookup_1 _ _ _ _ He E).
Qed.

(** What the boot block says. *)
Record boot_ok (bb : memory) (fs : list host_file) (vs : list Z) : Prop := {
  bo_n : rd32 bb 0 = 1 + alen fs;
  bo_inodes : rd32 bb 4 = 2 * alen fs;
  bo_blocks : rd32 bb 8 = 2 * total fs;
  bo_dot : dentry_at bb 0 (46 :: replicate 31 0) 1;
  bo_files : forall i h, fs !! i = Some h -> dentry_at bb (1 + Z.of_nat i) (name32 h) 2;
  bo_inum : forall i v, vs !! i = Some v -> rd32 bb (64 + 64 * (1 + Z.of_nat i) + 36) = v }.

Lemma boot_final s fs vs :
  dir_inv s fs -> alen fs <= 32 -> 0 <= total fs <= 2 ^ 20 -> length vs = length fs ->
  Forall (fun v => 0 <= v < 2 ^ 31) vs ->
  boot_ok (put_inums (st32 (st32 (bblock s) 4 (2 * alen fs)) 8 (2 * total fs)) (zip (imap buf_of fs) vs))
    fs vs.
Proof.
  intros [] Hn Ht Hl Hv. pose proof (alen_nonneg fs).
  set (b0 := st32 (st32 (bblock s) 4 _) 8 _). set (l := zip (imap buf_of fs) vs).
  assert (Hent : forall j bv, l !! j = Some bv -> identry bv.1 = 64 + 64 * (1 + Z.of_nat j)).
  { intros j [b v] Hj. unfold l in Hj. rewrite lookup_zip_with, list_lookup_imap in Hj.
    destruct (fs !! j); [|done]. simpl in Hj. destruct (vs !! j); [|done]. injection Hj as <- <-. done. }
  assert (Ho : forall x, (forall j, x < 64 + 64 * (1 + Z.of_nat j) + 36 \/
    64 + 64 * (1 + Z.of_nat j) + 40 <= x) -> put_inums b0 l x = b0 x).
  { intros x Hx. apply put_inums_out. intros bv Hin. apply list_elem_of_lookup in Hin as [j Hj].
    rewrite (Hent _ _ Hj). apply Hx. }
  assert (Hb0 : forall x, 12 <= x -> b0 x = bblock s x) by (intros; unfold b0; by rewrite !st32_out by lia).
  split.
  - etrans; [apply rd32_ext; intros; apply Ho; lia|]. unfold b0. by rewrite !rd32_st32_ne by lia.
  - etrans; [apply rd32_ext; intros; apply Ho; lia|]. unfold b0. rewrite rd32_st32_ne by lia.
    apply rd32_st32_eq. lia.
  - etrans; [apply rd32_ext; intros; apply Ho; lia|]. apply rd32_st32_eq. lia.
  - destruct di_dot0 as [D1 D2]. split.
    + rewrite <- D1. apply bytes_at_ext. intros x Hx. rewrite Ho by lia. apply Hb0. lia.
    + rewrite <- D2. apply rd32_ext. intros x Hx. rewrite Ho by lia. apply Hb0. lia.
  - intros i h Hi. destruct (di_files0 i h Hi) as [D1 D2]. split.
    + rewrite <- D1. apply bytes_at_ext. intros x Hx. rewrite Ho by lia. apply Hb0. lia.
    + rewrite <- D2. apply rd32_ext. intros x Hx. rewrite Ho by lia. apply Hb0. lia.
  - intros i v Hi. destruct (l !! i) as [[b v']|] eqn:E.
    + pose proof (Hent _ _ E) as Hb. cbn [fst] in Hb. rewrite <- Hb.
      assert (v' = v) as ->.
      { unfold l in E. rewrite lookup_zip_with, list_lookup_imap, Hi in E.
        destruct (fs !! i); [|done]. simpl in E. congruence. }
      pose proof (Forall_lookup_1 _ _ _ _ Hv Hi) as Hvr. simpl in Hvr.
      eapply put_inums_at; [exact E|lia|]. intros j bv Hne Hj. rewrite (Hent _ _ Hj), Hb. lia.
    + unfold l in E. rewrite lookup_zip_with, list_lookup_imap, Hi in E.
      apply lookup_lt_Some in Hi. destruct (lookup_lt_is_Some_2 fs i) as [h Hh]; [lia|].
      rewrite Hh in E. done.
Qed.

Lemma counts_total bs fs :
  Forall2 (fun b h => icount b = nblk h) bs fs -> Forall file_ok fs -> counts bs = total fs.
Proof.
  induction 1 as [|b h bs fs Hb _ IH]; intros Hf; [done|]. inversion_clear Hf as [|? ? Hh Hf'].
  cbn [counts total foldr]. fold (counts bs). fold (total fs).
  rewrite IH, Hb by done. pose proof (nblk_range h ltac:(apply Hh)). lia.
Qed.

Lemma inum_bufs fs vs :
  length vs = length fs ->
  Forall2 (fun b h => icount b = nblk h) (zip_with set_inum (imap buf_of fs) vs) fs.
Proof.
  intros Hl. apply Forall2_same_length_lookup_2.
  - rewrite length_zip_with, length_imap. lia.
  - intros i b h Hb Hh. rewrite lookup_zip_with, list_lookup_imap, Hh in Hb. simpl in Hb.
    destruct (vs !! i); [|done]. by injection Hb as <-.
Qed.

Lemma mapM_anth {A} (bs : list A) (c : nat) : forall j, (j + c)%nat = length bs ->
  mapM (anth bs) (seqZ (Z.of_nat j) (Z.of_nat c)) = Some (drop j bs).
Proof.
  induction c as [|c IH]; intros j Hj.
  - rewrite seqZ_nil, drop_ge by lia. done.
  - destruct (array_step bs j c Hj) as (b & Hb & Hd & _).
    rewrite seqZ_cons by lia. replace (Z.pred (Z.of_nat (S c))) with (Z.of_nat c) by lia.
    replace (Z.succ (Z.of_nat j)) with (Z.of_nat (S j)) by lia.
    cbn [mapM]. rewrite Hb, IH, Hd by lia. done.
Qed.

Lemma main_spec rand dir :
  fair rand -> Forall (fun h => file_ok h \/ skipped h) dir -> alen (files dir) <= 32 ->
  exists vs vss bb,
    let fs := files dir in
    Forall file_ok fs /\ length vs = length fs /\ length vss = length fs /\ boot_ok bb fs vs /\
    NoDup vs /\ Forall (fun v => 0 <= v < 2 * alen fs) vs /\
    NoDup (mjoin vss) /\ Forall (fun id => 0 <= id < 2 * total fs) (mjoin vss) /\
    Forall (ent_ok (2 * total fs)) (zip fs (zip vs vss)) /\
    ev (fun fuel => main rand fuel dir)
      (foldl wr (mk_file 0 (fun _ => 0)) (image_writes (2 * alen fs) bb (zip fs (zip vs vss)))).
Proof.
  intros Hfair Hdir Hn. destruct (read_dir_spec dir state0 [] dir_inv_0) as (s & Es & Hi & Hok);
    [constructor|done|done|]. cbn [app] in Hi, Hok. set (fs := files dir) in *.
  pose proof (alen_nonneg fs) as Hn0. pose proof (total_range fs Hok) as Ht.
  set (n := alen fs) in *. set (t := total fs) in *.
  assert (Hlen : length fs = Z.to_nat n) by (unfold n, alen; lia).
  assert (Hbufs : length (bufs s) = length fs) by (by rewrite (di_bufs _ _ Hi), length_imap).
  destruct (number_inodes_spec rand Hfair (2 * n) (2 * t) [] (length fs) 0%nat 0%nat (init_freemap n t)
    (st32 (st32 (bblock s) 4 (2 * n)) 8 (2 * t)) (bufs s) [])
    as (vs & k1 & m1 & Hvs & Hi1 & Hev1); [lia|apply fm_inv_init; lia|unfold alen; simpl; lia|].
  rewrite drop_0, take_0 in Hev1. cbn [app] in Hev1, Hi1.
  set (bs1 := zip_with set_inum (bufs s) vs) in *.
  assert (Hbs1 : length bs1 = length fs) by (unfold bs1; rewrite length_zip_with; lia).
  assert (Hc : Forall2 (fun b h => icount b = nblk h) bs1 fs).
  { unfold bs1. rewrite (di_bufs _ _ Hi). by apply inum_bufs. }
  destruct (number_files_spec rand Hfair (2 * n) (2 * t) vs (length fs) 0%nat k1 m1 bs1 [])
    as (vss & k2 & m2 & HF & Hi2 & Hev2); [lia|done|
      rewrite drop_0, (counts_total bs1 fs) by done; unfold alen; simpl; lia|].
  rewrite drop_0 in HF, Hev2. rewrite take_0 in Hev2. cbn [app] in Hev2, Hi2.
  assert (Hvss : length vss = length fs) by (apply Forall2_length in HF; lia).
  set (bb := put_inums _ _) in Hev1. exists vs, vss, bb. cbv zeta.
  assert (Hents : Forall (ent_ok (2 * t)) (zip fs (zip vs vss))).
  { apply Forall_lookup_2. intros i [h [v ids]] E. rewrite !lookup_zip_with in E.
    destruct (fs !! i) as [h'|] eqn:Eh; [|done]. simpl in E. destruct (vs !! i) as [v'|] eqn:Ev; [|done].
    simpl in E. destruct (vss !! i) as [ids'|] eqn:Ei; [|done]. injection E as -> -> ->.
    split; cbn [fst snd].
    - destruct (bs1 !! i) as [b|] eqn:Eb.
      + pose proof (Forall2_lookup_lr _ _ _ _ _ _ HF Eb Ei) as Hids.
        pose proof (Forall2_lookup_lr _ _ _ _ _ _ Hc Eb Eh) as Hcb. simpl in *.
        rewrite Hcb in Hids. pose proof (Forall_lookup_1 _ _ _ _ Hok Eh) as Hh.
        pose proof (nblk_range h ltac:(apply Hh)). unfold alen. lia.
      + apply lookup_ge_None in Eb. apply lookup_lt_Some in Eh. lia.
    - pose proof (fmi_ids _ _ _ _ _ Hi2) as Hr. rewrite Forall_forall in Hr |- *.
      intros id Hid. apply Hr. apply list_elem_of_join. exists ids. split; [done|].
      by apply list_elem_of_lookup_2 in Ei. }
  split_and!; try done.
  - unfold bb. rewrite (di_bufs _ _ Hi). apply boot_final; [done|done|lia|done|].
    eapply List.Forall_impl; [|apply (fmi_is _ _ _ _ _ Hi1)]. simpl. lia.
  - apply (fmi_nodup _ _ _ _ _ Hi1).
  - apply (fmi_is _ _ _ _ _ Hi1).
  - apply (fmi_nodup _ _ _ _ _ Hi2).
  - apply (fmi_ids _ _ _ _ _ Hi2).
  - rewrite <- (writes_final (2 * n) (2 * t)) by (done || lia).
    rewrite <- imap_zip3 by lia. rewrite <- (di_bufs _ _ Hi). fold bs1.
    rewrite <- writes_blocks.
    destruct Hev1 as [N1 Hev1], Hev2 as [N2 Hev2]. exists (N1 `max` N2)%nat. intros fuel Hf.
    unfold main. rewrite Es. cbn [mbind option_bind]. cbv zeta.
    rewrite (di_inodes _ _ Hi), (di_blocks _ _ Hi). fold n t.
    unfold get_num_inodes, get_num_datablocks.
    pose proof (fm_inv_init n t ltac:(lia) ltac:(lia)) as Hinit.
    rewrite (fmi_ni _ _ _ _ _ Hinit), (fmi_nb _ _ _ _ _ Hinit).
    rewrite (traverse_spec _ _ (di_list _ _ Hi)). cbn [mbind option_bind]. fold n.
    replace (Z.of_nat (length fs)) with n in Hev1, Hev2 by (unfold n, alen; done).
    change (Z.of_nat 0) with 0 in Hev1, Hev2.
    rewrite Hev1 by lia. cbn [mbind option_bind]. rewrite Hev2 by lia. cbn [mbind option_bind].
    set (bs2 := zip_with set_ids bs1 vss).
    assert (Hbs2 : length bs2 = length fs) by (unfold bs2; rewrite length_zip_with; lia).
    pose proof (mapM_anth bs2 (length fs) 0 ltac:(lia)) as HM.
    replace (Z.of_nat (length fs)) with n in HM by (unfold n, alen; done).
    change (Z.of_nat 0) with 0 in HM. rewrite HM, drop_0. cbn [mbind option_bind].
    by rewrite (fmi_ni _ _ _ _ _ Hi2).
Qed.

(** ** The image mounted by the kernel *)

Lemma write_numbers ni bb fs vs vss :
  length vs = length fs -> length vss = length fs ->
  (image_writes ni bb (zip fs (zip vs vss))).*1 =
    0 :: ((fun v => v + 1) <$> vs) ++ ((fun id => id + ni + 1) <$> mjoin vss).
Proof.
  intros H1 H2. unfold image_writes. rewrite fmap_cons, fmap_app. f_equal. f_equal.
  - rewrite <- list_fmap_compose. apply list_eq. intros i.
    rewrite !list_lookup_fmap, !lookup_zip_with.
    destruct (vs !! i) as [v|] eqn:E.
    + pose proof (lookup_lt_Some _ _ _ E). destruct (lookup_lt_is_Some_2 fs i) as [h ->]; [lia|].
      destruct (lookup_lt_is_Some_2 vss i) as [ids ->]; [lia|]. done.
    + destruct (fs !! i); done.
  - revert fs vss H1 H2. induction vs as [|v vs IH]; intros [|h fs] [|ids vss] H1 H2; try done.
    cbn [zip_with zip fmap list_fmap mjoin list_join]. rewrite !fmap_app. f_equal.
    + unfold ent_data. cbn [fst snd]. rewrite fmap_imap. apply list_eq. intros i.
      rewrite list_lookup_imap, list_lookup_fmap. done.
    + apply IH; simpl in *; lia.
Qed.

Lemma numbers_nodup ni t vs ids :
  0 <= ni -> NoDup vs -> Forall (fun v => 0 <= v < ni) vs ->
  NoDup ids -> Forall (fun id => 0 <= id < t) ids ->
  NoDup (0 :: ((fun v => v + 1) <$> vs) ++ ((fun id => id + ni + 1) <$> ids)).
Proof.
  intros Hni Hv Hvr Hi Hir. rewrite Forall_forall in Hvr, Hir. apply NoDup_cons. split.
  - rewrite elem_of_app, !list_elem_of_fmap. intros [(v & E & Hin)|(id & E & Hin)].
    + specialize (Hvr v Hin). lia.
    + specialize (Hir id Hin). lia.
  - apply NoDup_app. split; [|split].
    + apply NoDup_fmap_2; [|done]. intros x y Hxy. simpl in Hxy. lia.
    + intros x (v & -> & Hin)%list_elem_of_fmap (id & E & Hin')%list_elem_of_fmap.
      specialize (Hvr v Hin). specialize (Hir id Hin'). lia.
    + apply NoDup_fmap_2; [|done]. intros x y Hxy. simpl in Hxy. lia.
Qed.

Lemma bytes_at_len m p n : 0 <= n -> length (bytes_at m p n) = Z.to_nat n.
Proof. intros. unfold bytes_at. by rewrite length_fmap, length_seqZ. Qed.

(** A name with its padding is the key of the name. *)
Lemma cut_zeros w k n : forall i,
  Forall (fun c => 0 < c < 256) w -> (length w < i + n)%nat -> (i <= length w)%nat ->
  Filename.cut (w ++ replicate k 0) i n = drop i w.
Proof.
  intros i Hw Hn Hi. rewrite <- (Filename.cut_name w n i) by (done || lia). clear Hn Hi.
  revert i. induction n as [|n IH]; intros i; [done|]. cbn [Filename.cut].
  assert (E : Filename.char_at (w ++ replicate k 0) i = Filename.char_at w i).
  { unfold Filename.char_at. destruct (decide (i < length w)%nat).
    - by rewrite lookup_app_l by lia.
    - rewrite lookup_app_r, (lookup_ge_None_2 w) by lia. simpl.
      destruct (replicate k 0 !! (i - length w)%nat) as [x|] eqn:E; [|done].
      apply lookup_replicate in E as [-> _]. done. }
  by rewrite E, IH.
Qed.

Lemma key_name32 h : file_ok h -> Filename.key (name32 h) = d_name h.
Proof.
  intros (_ & _ & _ & _ & Hn & Hl & _). unfold alen in Hl. unfold Filename.key, name32.
  rewrite cut_zeros; [by rewrite drop_0|done| |lia]. change (Z.to_nat Filename.MaxFilenameLength) with 32%nat. lia.
Qed.
Lemma key_dname h : file_ok h -> Filename.key (d_name h) = d_name h.
Proof.
  intros (_ & _ & _ & _ & Hn & Hl & _). apply Filename.key_name; [done|].
  change Filename.MaxFilenameLength with 32. lia.
Qed.

(** The only element of a list that fits is found, from either end. *)
Lemma list_find_unique {A} (P : A -> Prop) `{!forall x, Decision (P x)} l x :
  x ∈ l -> P x -> (forall y, y ∈ l -> P y -> y = x) -> exists i, list_find P (reverse l) = Some (i, x).
Proof.
  intros Hin HP Hu. destruct (list_find_elem_of P (reverse l) x) as [[i y] E]; [by apply elem_of_reverse|done|].
  exists i. rewrite E. apply list_find_Some in E as (Hl & HPy & _).
  apply list_elem_of_lookup_2 in Hl. rewrite elem_of_reverse in Hl. by rewrite (Hu y Hl HPy).
Qed.

(** What the node block of a file parses to. *)
Lemma read_inode_image mem i h ids :
  0 <= i -> alen ids = nblk h -> alen (contents h) <= 0x3FF000 ->
  Forall (fun id => 0 <= id < 2 ^ 32) ids ->
  (forall x, 0 <= x < 4096 -> mem ((i + 1) * 4096 + x) = inode_image h ids x) ->
  KissFS.read_inode mem i = Some (KissFS.mk_inode (alen (contents h)) ids (nblk h)).
Proof.
  intros Hi Hl Hs Hr Hm. pose proof (nblk_range h Hs) as Hn. pose proof (alen_nonneg (contents h)).
  assert (Hrd : forall q, 0 <= q <= 4092 -> rd32 mem (KissFS.BlockSize * (i + 1) + q) = rd32 (inode_image h ids) q).
  { intros q Hq. unfold rd32. change KissFS.BlockSize with 4096.
    replace (4096 * (i + 1)) with ((i + 1) * 4096) by lia. rewrite <- !Z.add_assoc, !Hm by lia. done. }
  unfold KissFS.read_inode. cbv zeta. pose proof (Hrd 0 ltac:(lia)) as H0. rewrite Z.add_0_r in H0.
  rewrite H0. unfold inode_image in *. rewrite rd32_st_ids_ne, rd32_st32_eq by lia.
  fold (nblk h). change KissFS.BlockSize with 4096. fold (nblk h).
  rewrite (proj2 (Z.ltb_ge KissFS.DATABLOCKS (nblk h))) by (change KissFS.DATABLOCKS with 1023; lia).
  do 2 f_equal. apply list_eq. intros j. rewrite list_lookup_fmap. unfold alen in Hl.
  destruct (ids !! j) as [id|] eqn:E.
  - pose proof (lookup_lt_Some _ _ _ E). rewrite lookup_seqZ_lt by lia.
    cbn [fmap option_fmap option_map]. f_equal.
    pose proof (Forall_lookup_1 _ _ _ _ Hr E) as Hid. simpl in Hid.
    change 4096 with KissFS.BlockSize. rewrite <- Z.add_assoc, Hrd by lia.
    replace (4 + 4 * (0 + Z.of_nat j)) with ((0 + Z.of_nat j + 1) * 4) by lia.
    by apply rd32_st_ids.
  - apply lookup_ge_None in E. by rewrite lookup_seqZ_ge by lia.
Qed.

Lemma read_inode_hole mem i :
  0 <= i -> (forall x, 0 <= x < 4096 -> mem ((i + 1) * 4096 + x) = 0) ->
  KissFS.read_inode mem i = Some (KissFS.mk_inode 0 [] 0).
Proof.
  intros Hi Hm. unfold KissFS.read_inode. cbv zeta.
  assert (E : rd32 mem (KissFS.BlockSize * (i + 1)) = 0).
  { unfold rd32. change KissFS.BlockSize with 4096. replace (4096 * (i + 1)) with ((i + 1) * 4096) by lia.
    rewrite !Hm by lia. pose proof (Hm 0 ltac:(lia)) as H0. rewrite Z.add_0_r in H0. rewrite H0. done. }
  rewrite E. done.
Qed.

Section mounted.
Context (fs : list host_file) (vs : list Z) (vss : list (list Z)) (bb mem : memory) (start endd : Z).
Notation n := (alen fs).
Notation t := (total fs).
Notation ents := (zip fs (zip vs vss)).
Notation W := (image_writes (2 * n) bb ents).
Notation img := (foldl wr (mk_file 0 (fun _ => 0)) W).

Context (Hok : Forall file_ok fs) (Hn : n <= 32) (Hvs : length vs = length fs)
  (Hvss : length vss = length fs) (Hboot : boot_ok bb fs vs)
  (Nvs : NoDup vs) (Rvs : Forall (fun v => 0 <= v < 2 * n) vs)
  (Nids : NoDup (mjoin vss)) (Rids : Forall (fun id => 0 <= id < 2 * t) (mjoin vss))
  (Hents : Forall (ent_ok (2 * t)) ents)
  (Hdata : Exists (fun h => contents h <> []) fs)
  (Hnames : NoDup (d_name <$> fs))
  (Hmem : forall x, 0 <= x < flen img -> mem x = fbyte img x)
  (Hsize : endd - start = flen img).

Lemma t_range : 0 <= t <= 32736.
Proof. pose proof (total_range fs Hok). lia. Qed.

Lemma W_numbers : W.*1 = 0 :: ((fun v => v + 1) <$> vs) ++ ((fun id => id + 2 * n + 1) <$> mjoin vss).
Proof. by apply write_numbers. Qed.

Lemma W_nodup : NoDup W.*1.
Proof. rewrite W_numbers. apply (numbers_nodup _ (2 * t)); try done. pose proof (alen_nonneg fs). lia. Qed.

Lemma W_bound : Forall (fun b => b < 2 * n + 2 * t + 1) W.*1.
Proof.
  rewrite W_numbers. pose proof (alen_nonneg fs). pose proof t_range. constructor; [lia|].
  rewrite Forall_forall in Rvs, Rids. apply Forall_app. split; apply Forall_forall.
  - intros x (v & -> & Hv)%list_elem_of_fmap. specialize (Rvs v Hv). lia.
  - intros x (v & -> & Hv)%list_elem_of_fmap. specialize (Rids v Hv). lia.
Qed.

Lemma img_flen_ub : flen img <= (2 * n + 2 * t + 1) * 4096.
Proof.
  apply wrs_len_le; [|apply W_bound]. simpl. pose proof (alen_nonneg fs). pose proof t_range. lia.
Qed.

Lemma img_flen_block b : b ∈ W.*1 -> (b + 1) * 4096 <= flen img.
Proof. apply wrs_len. Qed.

Lemma mem_block b src x : (b, src) ∈ W -> 0 <= b -> 0 <= x < 4096 -> mem (b * 4096 + x) = src x.
Proof.
  intros Hin Hb Hx.
  assert (Hb1 : b ∈ W.*1) by (apply list_elem_of_fmap; by exists (b, src)).
  pose proof (img_flen_block b Hb1). rewrite Hmem by lia. apply wrs_in; [done|apply W_nodup|done].
Qed.

Lemma mem_hole b x : b ∉ W.*1 -> 0 <= b -> (b + 1) * 4096 <= flen img -> 0 <= x < 4096 ->
  mem (b * 4096 + x) = 0.
Proof. intros Hb H0 Hl Hx. rewrite Hmem by lia. rewrite wrs_out by done. done. Qed.

Lemma mem_boot x : 0 <= x < 4096 -> mem x = bb x.
Proof.
  intros Hx. rewrite <- (Z.add_0_l x) at 1. change 0 with (0 * 4096).
  apply mem_block; [left|lia|lia].
Qed.

Lemma ent_lookup i h : fs !! i = Some h -> exists v ids,
  vs !! i = Some v /\ vss !! i = Some ids /\ ents !! i = Some (h, (v, ids)) /\
  0 <= v < 2 * n /\ alen ids = nblk h /\ Forall (fun id => 0 <= id < 2 * t) ids.
Proof.
  intros Hi. pose proof (lookup_lt_Some _ _ _ Hi).
  destruct (lookup_lt_is_Some_2 vs i) as [v Hv]; [lia|].
  destruct (lookup_lt_is_Some_2 vss i) as [ids Hids]; [lia|].
  assert (E : ents !! i = Some (h, (v, ids))) by by rewrite !lookup_zip_with, Hi, Hv, Hids.
  exists v, ids. destruct (Forall_lookup_1 _ _ _ _ Hents E) as [E1 E2].
  split_and!; try done. all: by apply (Forall_lookup_1 _ _ _ _ Rvs Hv).
Qed.

Lemma ent_inode i h v ids x : ents !! i = Some (h, (v, ids)) -> 0 <= v -> 0 <= x < 4096 ->
  mem ((v + 1) * 4096 + x) = inode_image h ids x.
Proof.
  intros E Hv Hx. apply mem_block; [|lia|done]. right. apply elem_of_app. left.
  apply list_elem_of_fmap. exists (h, (v, ids)). split; [done|]. by apply list_elem_of_lookup_2 in E.
Qed.

Lemma ent_block i h v ids j id x :
  ents !! i = Some (h, (v, ids)) -> ids !! j = Some id -> 0 <= id -> 0 <= x < 4096 ->
  mem ((id + 2 * n + 1) * 4096 + x) = read_block h (Z.of_nat j) x /\
  (id + 2 * n + 1 + 1) * 4096 <= flen img.
Proof.
  intros E Hj Hid Hx. pose proof (alen_nonneg fs).
  assert (Hin : (id + 2 * n + 1, read_block h (Z.of_nat j)) ∈ W).
  { right. apply elem_of_app. right. apply list_elem_of_join. exists (ent_data (2 * n) (h, (v, ids))).
    split; [|apply list_elem_of_fmap; exists (h, (v, ids)); split; [done|by apply list_elem_of_lookup_2 in E]].
    apply list_elem_of_lookup. exists j. unfold ent_data. cbn [fst snd].
    by rewrite list_lookup_imap, Hj. }
  split; [apply mem_block; [done|lia|done]|].
  apply img_flen_block. apply list_elem_of_fmap. by exists (id + 2 * n + 1, read_block h (Z.of_nat j)).
Qed.

(** Some data block is written, so the image covers every inode block. *)
Lemma img_flen_lb : (2 * n + 2) * 4096 <= flen img.
Proof.
  apply List.Exists_exists in Hdata as (h & Hin%list_elem_of_In & Hne).
  apply list_elem_of_lookup in Hin as [i Hi].
  destruct (ent_lookup i h Hi) as (v & ids & _ & _ & E & _ & Hl & Hr).
  assert (Hb : 1 <= nblk h).
  { unfold nblk. rewrite ceil_spec by (unfold alen; lia). destruct (contents h); [done|].
    unfold alen. simpl. zdiv. }
  destruct ids as [|id ids]; [unfold alen in Hl; simpl in Hl; lia|].
  inversion_clear Hr. destruct (ent_block i h v (id :: ids) 0 id 0 E eq_refl) as [_ Hf]; lia.
Qed.

Lemma inodes_read : exists ins, mapM (KissFS.read_inode mem) (seqZ 0 (2 * n)) = Some ins /\
  forall i h v ids, ents !! i = Some (h, (v, ids)) -> fs !! i = Some h -> vs !! i = Some v ->
    anth ins v = Some (KissFS.mk_inode (alen (contents h)) ids (nblk h)).
Proof.
  pose proof (alen_nonneg fs) as Hn0. pose proof t_range as Ht.
  assert (Hfile : forall i h v ids, ents !! i = Some (h, (v, ids)) -> fs !! i = Some h -> 0 <= v ->
    KissFS.read_inode mem v = Some (KissFS.mk_inode (alen (contents h)) ids (nblk h))).
  { intros i h v ids E Hi Hv. destruct (Forall_lookup_1 _ _ _ _ Hents E) as [E1 E2]. cbn [fst snd] in *.
    pose proof (Forall_lookup_1 _ _ _ _ Hok Hi) as Hh.
    apply read_inode_image; [done|done|apply Hh| |].
    - eapply List.Forall_impl; [|exact E2]. simpl. lia.
    - intros x Hx. by eapply ent_inode. }
  destruct (mapM_is_Some_2 (KissFS.read_inode mem) (seqZ 0 (2 * n))) as [ins Hins].
  { apply Forall_forall. intros i Hi%elem_of_seqZ. destruct (decide (i ∈ vs)) as [Hin|Hnin].
    - apply list_elem_of_lookup in Hin as [k Hk]. pose proof (lookup_lt_Some _ _ _ Hk).
      destruct (lookup_lt_is_Some_2 fs k) as [h Hh]; [lia|].
      destruct (ent_lookup k h Hh) as (v & ids & Hv & _ & E & _).
      assert (v = i) as -> by congruence.
      exists (KissFS.mk_inode (alen (contents h)) ids (nblk h)). apply (Hfile k); [done|done|lia].
    - exists (KissFS.mk_inode 0 [] 0). apply read_inode_hole; [lia|]. intros x Hx. apply mem_hole; [|lia| |done].
      + rewrite W_numbers. intros [He|Hin]%elem_of_cons; [lia|].
        apply elem_of_app in Hin as [(v & E & Hin)%list_elem_of_fmap|(id & E & Hin)%list_elem_of_fmap].
        * assert (i = v) by lia. by subst v.
        * rewrite Forall_forall in Rids. specialize (Rids id Hin). lia.
      + pose proof img_flen_lb. lia. }
  exists ins. split; [done|]. intros i h v ids E Hi Hv.
  pose proof (Forall_lookup_1 _ _ _ _ Rvs Hv) as Hr. simpl in Hr.
  apply mapM_Some in Hins. unfold anth. rewrite (proj2 (Z.leb_le 0 v)) by lia.
  destruct (Forall2_lookup_l _ _ _ (Z.to_nat v) v Hins) as (nd & Hnd & Er).
  { rewrite lookup_seqZ_lt by lia. f_equal. lia. }
  rewrite Hnd. rewrite (Hfile i h v ids) in Er by (done || lia). done.
Qed.

Lemma dentry_read i h v : fs !! i = Some h -> vs !! i = Some v ->
  KissFS.read_dentry mem (1 + Z.of_nat i) = KissFS.mk_dentry (name32 h) 2 v.
Proof.
  intros Hi Hv. destruct (bo_files _ _ _ Hboot i h Hi) as [D1 D2].
  pose proof (bo_inum _ _ _ Hboot i v Hv) as D3. pose proof (lookup_lt_Some _ _ _ Hi) as Hlt.
  unfold alen in Hn. unfold KissFS.read_dentry. cbv zeta. f_equal.
  - rewrite <- D1. apply bytes_at_ext. intros. apply mem_boot. change Filename.MaxFilenameLength with 32 in *. lia.
  - rewrite <- D2. apply rd32_ext. intros. apply mem_boot. lia.
  - rewrite <- D3. apply rd32_ext. intros. apply mem_boot. lia.
Qed.

Lemma dentry_dot : exists ino, KissFS.read_dentry mem 0 = KissFS.mk_dentry (46 :: replicate 31 0) 1 ino.
Proof.
  destruct (bo_dot _ _ _ Hboot) as [D1 D2]. eexists. unfold KissFS.read_dentry. cbv zeta. f_equal.
  - rewrite <- D1. apply bytes_at_ext. intros. apply mem_boot. change Filename.MaxFilenameLength with 32 in *. lia.
  - rewrite <- D2. apply rd32_ext. intros. apply mem_boot. lia.
Qed.

(** The entries of the image: the directory, then the files. *)
Definition entry_list : list KissFS.dentry_t := KissFS.read_dentry mem <$> seqZ 0 (1 + n).

Lemma entry_names : (fun d => Filename.key (KissFS.filename d)) <$> entry_list = [46] :: (d_name <$> fs).
Proof.
  unfold entry_list. pose proof (alen_nonneg fs). rewrite seqZ_cons by lia. rewrite !fmap_cons.
  destruct dentry_dot as [ino ->]. f_equal. rewrite <- list_fmap_compose.
  apply list_eq. intros i. rewrite !list_lookup_fmap. destruct (fs !! i) as [h|] eqn:Hi.
  - destruct (ent_lookup i h Hi) as (v & _ & Hv & _). pose proof (lookup_lt_Some _ _ _ Hi).
    rewrite lookup_seqZ_lt by (unfold alen; lia). cbn [fmap option_fmap option_map]. unfold compose.
    change (Z.succ 0) with 1. rewrite (dentry_read i h v) by done. cbn [KissFS.filename].
    by rewrite key_name32 by by apply (Forall_lookup_1 _ _ _ _ Hok Hi).
  - apply lookup_ge_None in Hi. rewrite lookup_seqZ_ge by (unfold alen; lia). done.
Qed.

Definition table_entries : list (list Z * Z) :=
  zip_with (fun d i => (KissFS.filename d, i)) entry_list (seqZ 0 (1 + n)).

Lemma table_entry_lookup e : e ∈ table_entries -> exists i, 0 <= i < 1 + n /\
  e = (KissFS.filename (KissFS.read_dentry mem i), i).
Proof.
  intros [j Hj]%list_elem_of_lookup. unfold table_entries, entry_list in Hj.
  rewrite lookup_zip_with, list_lookup_fmap in Hj.
  destruct (seqZ 0 (1 + n) !! j) as [i|] eqn:E; [|done]. injection Hj as <-.
  exists i. split; [|done]. apply list_elem_of_lookup_2, elem_of_seqZ in E. lia.
Qed.

(** The entry with the name of a file is the entry of the file. *)
Lemma table_find i h : fs !! i = Some h ->
  exists k, list_find (fun kv => keq kv.1 (d_name h) = true) (reverse table_entries) =
    Some (k, (name32 h, 1 + Z.of_nat i)).
Proof.
  intros Hi. pose proof (Forall_lookup_1 _ _ _ _ Hok Hi) as Hh. pose proof (lookup_lt_Some _ _ _ Hi).
  destruct (ent_lookup i h Hi) as (v & ids & Hv & _).
  pose proof (dentry_read i h v Hi Hv) as Hd. apply list_find_unique.
  - apply list_elem_of_lookup. exists (S i). unfold table_entries, entry_list.
    rewrite lookup_zip_with, list_lookup_fmap, lookup_seqZ_lt by (unfold alen; lia).
    cbn [fmap option_fmap option_map mbind option_bind].
    replace (0 + Z.of_nat (S i)) with (1 + Z.of_nat i) by lia. by rewrite Hd.
  - cbn [fst]. apply Filename.eqb_key. by rewrite key_name32, key_dname.
  - intros e (j & Hj & ->)%table_entry_lookup Hk. cbn [fst] in Hk. apply Filename.eqb_key in Hk.
    rewrite key_dname in Hk by done. destruct (decide (j = 0)) as [->|Hne].
    + destruct dentry_dot as [ino Ed]. rewrite Ed in Hk. destruct Hh as (_ & _ & _ & _ & _ & _ & Hdot). destruct Hdot.
      rewrite <- Hk. vm_compute. reflexivity.
    + destruct (lookup_lt_is_Some_2 fs (Z.to_nat (j - 1))) as [h' Hh']; [unfold alen in Hj; lia|].
      destruct (ent_lookup _ h' Hh') as (v' & ids' & Hv' & _).
      pose proof (dentry_read _ h' v' Hh' Hv') as Hd'.
      replace (1 + Z.of_nat (Z.to_nat (j - 1))) with j in Hd' by lia. rewrite Hd' in Hk |- *.
      cbn [KissFS.filename] in *. rewrite key_name32 in Hk by by apply (Forall_lookup_1 _ _ _ _ Hok Hh').
      assert (Z.to_nat (j - 1) = i) as Hij.
      { apply (NoDup_lookup _ _ _ (d_name h) Hnames); rewrite list_lookup_fmap; [rewrite Hh'|rewrite Hi]; simpl; by rewrite ?Hk. }
      rewrite Hij, Hi in Hh'. injection Hh' as <-. do 2 f_equal. lia.
Qed.

(** The first entry is the directory. *)
Lemma table_dot : exists k, list_find (fun kv => keq kv.1 [46] = true) (reverse table_entries) =
    Some (k, (46 :: replicate 31 0, 0)).
Proof.
  pose proof (alen_nonneg fs). destruct dentry_dot as [ino Ed]. apply list_find_unique.
  - apply list_elem_of_lookup. exists 0%nat. unfold table_entries, entry_list.
    rewrite lookup_zip_with, list_lookup_fmap, lookup_seqZ_lt by lia.
    cbn [fmap option_fmap option_map mbind option_bind]. change (0 + Z.of_nat 0) with 0. by rewrite Ed.
  - done.
  - intros e (j & Hj & ->)%table_entry_lookup Hk. cbn [fst] in Hk. apply Filename.eqb_key in Hk.
    destruct (decide (j = 0)) as [->|Hne]; [by rewrite Ed|].
    destruct (lookup_lt_is_Some_2 fs (Z.to_nat (j - 1))) as [h Hh]; [unfold alen in Hj; lia|].
    destruct (ent_lookup _ h Hh) as (v & ids & Hv & _).
    pose proof (dentry_read _ h v Hh Hv) as Hd. replace (1 + Z.of_nat (Z.to_nat (j - 1))) with j in Hd by lia.
    pose proof (Forall_lookup_1 _ _ _ _ Hok Hh) as Ho. rewrite Hd in Hk. cbn [KissFS.filename] in Hk.
    rewrite key_name32 in Hk by done. destruct Ho as (_ & _ & _ & _ & _ & _ & Hdot). destruct Hdot.
    rewrite Hk. reflexivity.
Qed.

(** What the kernel has read of the image. *)
Lemma mounted_fields : exists ins tab,
  KissFS.initFromMemoryAddress mem start endd =
    Some (KissFS.mk tab entry_list ins (1 + n) (2 * n) (2 * t) mem (u32 (endd - start) / KissFS.BlockSize)) /\
  (forall i h v ids, ents !! i = Some (h, (v, ids)) -> fs !! i = Some h -> vs !! i = Some v ->
    anth ins v = Some (KissFS.mk_inode (alen (contents h)) ids (nblk h))) /\
  forall key, LPHash.get KissFS.TableSize 0 tab key =
    match list_find (fun kv => keq kv.1 key = true) (reverse table_entries) with
    | Some (_, kv) => Some (kv.2, true)
    | None => LPHash.get KissFS.TableSize 0 (LPHash.init KissFS.TableSize) key
    end.
Proof.
  pose proof (alen_nonneg fs) as Hn0. pose proof t_range as Ht.
  destruct Hboot as [B0 B4 B8 Bd Bf Bi].
  assert (Hrd : forall q, 0 <= q <= 4092 -> rd32 mem q = rd32 bb q)
    by (intros q Hq; apply rd32_ext; intros; apply mem_boot; lia).
  unfold KissFS.initFromMemoryAddress. cbv zeta. rewrite !Hrd, B0, B4, B8 by lia.
  change KissFS.MaxNumFiles with 64.
  rewrite (proj2 (Z.ltb_ge 64 (1 + n))), (proj2 (Z.ltb_ge 64 (2 * n))) by lia.
  destruct inodes_read as (ins & -> & Hins). cbn [mbind option_bind]. fold entry_list. fold table_entries.
  assert (Hte : alen table_entries = 1 + n).
  { unfold alen at 1. unfold table_entries, entry_list.
    rewrite length_zip_with, length_fmap, length_seqZ. lia. }
  destruct (LPHash.puts_spec KissFS.TableSize 0 table_entries (LPHash.init KissFS.TableSize))
    as (tab & -> & Htab & Hused & Hget).
  { apply LPHash.inv_init. done. }
  { done. }
  { rewrite LPHash.used_init, Hte. change KissFS.TableSize with 133. lia. }
  cbn [mbind option_bind]. exists ins, tab. split; [reflexivity|]. by split.
Qed.

Lemma mounted_file kfs ins tab h :
  kfs = KissFS.mk tab entry_list ins (1 + n) (2 * n) (2 * t) mem (u32 (endd - start) / KissFS.BlockSize) ->
  (forall i h v ids, ents !! i = Some (h, (v, ids)) -> fs !! i = Some h -> vs !! i = Some v ->
    anth ins v = Some (KissFS.mk_inode (alen (contents h)) ids (nblk h))) ->
  (forall key, LPHash.get KissFS.TableSize 0 tab key =
    match list_find (fun kv => keq kv.1 key = true) (reverse table_entries) with
    | Some (_, kv) => Some (kv.2, true)
    | None => LPHash.get KissFS.TableSize 0 (LPHash.init KissFS.TableSize) key
    end) ->
  h ∈ fs -> exists ino nd,
    KissFS.open kfs (d_name h) = Some (Some (KissFS.FdFile 2 ino)) /\
    anth (KissFS.inodes kfs) ino = Some nd /\ ino <= KissFS.numInodes kfs /\
    KissFS.valid kfs nd /\ KissFS.content kfs nd = contents h.
Proof.
  intros -> Hins Hget Hin. pose proof (alen_nonneg fs) as Hn0. pose proof t_range as Ht. pose proof img_flen_ub as Hub.
  apply list_elem_of_lookup in Hin as [i Hi]. destruct (ent_lookup i h Hi) as (v & ids & Hv & Hids & E & Hvr & Hl & Hr).
  pose proof (Forall_lookup_1 _ _ _ _ Hok Hi) as Hh. pose proof (lookup_lt_Some _ _ _ Hi) as Hlt.
  exists v, (KissFS.mk_inode (alen (contents h)) ids (nblk h)).
  cbn [KissFS.inodes KissFS.numInodes]. split; [|split; [by eapply Hins|split; [lia|split]]].
  - unfold KissFS.open. cbn [KissFS.dentryIndexOfFilename KissFS.dentries]. rewrite Hget.
    destruct (table_find i h Hi) as [k ->]. cbn [snd mbind option_bind negb].
    unfold anth. rewrite (proj2 (Z.leb_le 0 (1 + Z.of_nat i))) by lia.
    replace (Z.to_nat (1 + Z.of_nat i)) with (S i) by lia.
    unfold entry_list; rewrite list_lookup_fmap, lookup_seqZ_lt by (unfold alen; lia). cbn [fmap option_fmap option_map].
    replace (0 + Z.of_nat (S i)) with (1 + Z.of_nat i) by lia. by rewrite (dentry_read i h v).
  - pose proof (nblk_range h ltac:(apply Hh)). split; cbn [KissFS.size KissFS.datablocks KissFS.numTotalDataBlocks KissFS.numInodes KissFS.numBlocks].
    + pose proof (alen_nonneg (contents h)). destruct Hh as (_ & _ & Hs & _). lia.
    + done.
    + rewrite Hsize, u32_small by (pose proof img_flen_lb; lia). apply Forall_lookup_2. intros j id Hj.
      pose proof (Forall_lookup_1 _ _ _ _ Hr Hj) as Hid. simpl in Hid.
      destruct (ent_block i h v ids j id 0 E Hj) as [_ Hf]; [lia|lia|]. split; [lia|].
      apply Z.lt_le_trans with (id + 2 * n + 1 + 1); [lia|]. change KissFS.BlockSize with 4096.
      apply Z.div_le_lower_bound; lia.
    + lia.
    + change KissFS.BlockSize with 4096. unfold u32.
      pose proof (Z.mod_pos_bound (endd - start) (2 ^ 32) ltac:(lia)). zdiv.
  - unfold KissFS.content, KissFS.slice. cbn [KissFS.size]. apply list_eq. intros k.
    rewrite list_lookup_fmap. destruct (contents h !! k) as [c|] eqn:Ec.
    + pose proof (lookup_lt_Some _ _ _ Ec). rewrite lookup_seqZ_lt by (unfold alen; lia).
      cbn [fmap option_fmap option_map]. f_equal. unfold KissFS.file_byte.
      cbn [KissFS.image KissFS.datablocks KissFS.numInodes]. change KissFS.BlockSize with 4096.
      rewrite Z.add_0_l. assert (Hb : (Z.to_nat (Z.of_nat k / 4096) < length ids)%nat).
      { unfold nblk in Hl. rewrite ceil_spec in Hl by (unfold alen; lia). unfold alen in Hl. zdiv. }
      destruct (lookup_lt_is_Some_2 ids _ Hb) as [id Hid].
      pose proof (Forall_lookup_1 _ _ _ _ Hr Hid) as Hidr. simpl in Hidr.
      pose proof (Z.mod_pos_bound (Z.of_nat k) 4096 ltac:(lia)).
      destruct (ent_block i h v ids _ id (Z.of_nat k mod 4096) E Hid) as [Hm _]; [lia|lia|].
      unfold aget. rewrite (list_lookup_total_correct _ _ id Hid), Hm. unfold read_block. cbv zeta.
      replace (Z.of_nat (Z.to_nat (Z.of_nat k / 4096)) * 4096 + Z.of_nat k mod 4096) with (Z.of_nat k) by zdiv.
      rewrite (proj2 (Z.ltb_lt _ _)) by (unfold alen; lia).
      by apply aget_lookup.
    + apply lookup_ge_None in Ec. rewrite lookup_seqZ_ge by (unfold alen; lia). done.
Qed.

(** The kernel on the image: every file under its name, and the directory. *)
Record mounts (kfs : KissFS.t) : Prop := {
  mt_file h : h ∈ fs -> exists ino nd,
    KissFS.open kfs (d_name h) = Some (Some (KissFS.FdFile 2 ino)) /\
    anth (KissFS.inodes kfs) ino = Some nd /\ ino <= KissFS.numInodes kfs /\
    KissFS.valid kfs nd /\ KissFS.content kfs nd = contents h;
  mt_dot : KissFS.open kfs [46] = Some (Some (KissFS.FdDir 1 0 (1 + n)));
  mt_names : (fun d => Filename.key (KissFS.filename d)) <$> KissFS.dentries kfs = [46] :: (d_name <$> fs) }.

Lemma mounted_spec : exists kfs, KissFS.initFromMemoryAddress mem start endd = Some kfs /\ mounts kfs.
Proof.
  destruct mounted_fields as (ins & tab & E & Hins & Hget). eexists. split; [exact E|]. split.
  - intros h. by eapply mounted_file.
  - unfold KissFS.open. cbn [KissFS.dentryIndexOfFilename KissFS.dentries KissFS.numDentries].
    rewrite Hget. destruct table_dot as [k ->]. cbn [snd mbind option_bind negb].
    unfold anth, entry_list. cbn [Z.leb Z.compare]. pose proof (alen_nonneg fs).
    rewrite list_lookup_fmap, lookup_seqZ_lt by lia. cbn [fmap option_fmap option_map mbind option_bind].
    change (0 + Z.of_nat (Z.to_nat 0)) with 0. destruct dentry_dot as [ino ->]. done.
  - apply entry_names.
Qed.
End mounted.

(** The builder ends, and the kernel mounts what it built. *)
Lemma built_mounts (rand : nat -> Z) (dir : list host_file) :
  fair rand -> Forall (fun h => file_ok h \/ skipped h) dir -> alen (files dir) <= 32 ->
  Exists (fun h => contents h <> []) (files dir) -> NoDup (d_name <$> files dir) ->
  exists img, ev (fun fuel => main rand fuel dir) img /\
    forall (mem : memory) (start endd : Z),
      (forall x, 0 <= x < flen img -> mem x = fbyte img x) -> endd - start = flen img ->
      exists kfs, KissFS.initFromMemoryAddress mem start endd = Some kfs /\ mounts (files dir) kfs.
Proof.
  intros Hfair Hdir Hn Hdata Hnames.
  destruct (main_spec rand dir Hfair Hdir Hn)
    as (vs & vss & bb & Hok & Hvs & Hvss & Hboot & N1 & R1 & N2 & R2 & He & Hev).
  eexists. split; [exact Hev|]. intros mem start endd Hmem Hsize.
  by apply (mounted_spec (files dir) vs vss bb mem start endd).
Qed.

Lemma files_ok dir : Forall (fun h => file_ok h \/ skipped h) dir -> Forall file_ok (files dir).
Proof.
  intros Hd. apply Forall_forall. intros h [Hr Hin]%list_elem_of_filter.
  rewrite Forall_forall in Hd. destruct (Hd h Hin) as [?|[? _]]; [done|congruence].
Qed.

(** ** Properties *)

(** C3: Whatever the order and the free blocks drawn, the builder ends, and the image of
    at most 32 regular files with distinct names, mounted by the kernel, gives
    back every file: it opens under its name, and any read from a block boundary
    or inside one block returns the bytes of the host file. Directories among the
    entries are skipped. *)
Theorem createfs_kissfs_roundtrip (rand : nat -> Z) (dir : list host_file) :
  fair rand -> Forall (fun h => file_ok h \/ skipped h) dir -> alen (files dir) <= 32 ->
  Exists (fun h => contents h <> []) (files dir) -> NoDup (d_name <$> files dir) ->
  exists img, ev (fun fuel => main rand fuel dir) img /\
    forall (mem : memory) (start endd : Z),
      (forall x, 0 <= x < flen img -> mem x = fbyte img x) -> endd - start = flen img ->
      exists fs, KissFS.initFromMemoryAddress mem start endd = Some fs /\
        forall h, h ∈ files dir -> exists ino,
          KissFS.open fs (d_name h) = Some (Some (KissFS.FdFile 2 ino)) /\
          forall off len, 0 <= off <= alen (contents h) -> 0 <= len ->
            let m := Z.min len (alen (contents h) - off) in
            off mod 4096 = 0 \/ off mod 4096 + m <= 4096 ->
            KissFS.readData fs ino off len =
              Some (m, take (Z.to_nat m) (drop (Z.to_nat off) (contents h))).
Proof.
  intros Hfair Hdir Hn Hdata Hnames.
  destruct (built_mounts rand dir Hfair Hdir Hn Hdata Hnames) as (img & Hev & Hb).
  exists img. split; [exact Hev|]. intros mem start endd Hmem Hsize.
  destruct (Hb mem start endd Hmem Hsize) as (fs & Hfs & Hread).
  exists fs. split; [done|]. intros h Hin. destruct (mt_file _ _ Hread h Hin) as (ino & nd & Ho & Hnd & Hino & Hv & Hc).
  assert (Hsz : KissFS.size nd = alen (contents h)).
  { rewrite <- Hc. unfold KissFS.content, KissFS.slice. rewrite alen_fmap_seqZ; [done|].
    apply Hv. }
  exists ino. split; [done|]. intros off len Ho' Hl m Hal. unfold m in *. rewrite <- Hsz in *.
  rewrite (KissFS.readData_spec fs ino nd) by done.
  by rewrite KissFS.slice_content, Hc by lia.
Qed.

(** A stream that reaches every residue: 0, then 0 1, then 0 1 2, ... *)
Fixpoint sweep (k : nat) : Z * Z :=
  match k with
  | O => (0, 0)
  | S k => let '(i, top) := sweep k in if i =? top then (0, top + 1) else (i + 1, top)
  end.

Lemma sweep_reach : forall top, 0 <= top -> exists k, sweep k = (0, top).
Proof.
  apply natlike_ind; [by exists 0%nat|]. intros top Ht [k Hk].
  assert (Hrun : forall i, 0 <= i -> i <= top -> exists k, sweep k = (i, top)).
  { apply (natlike_ind (fun i => i <= top -> exists k, sweep k = (i, top))).
    - intros _. by exists k.
    - intros j Hj IH Hle. destruct IH as [k' Hk']; [lia|]. exists (S k'). simpl. rewrite Hk'.
      destruct (Z.eqb_spec j top); [lia|done]. }
  destruct (Hrun top) as [k' Hk']; [lia|lia|]. exists (S k'). simpl. rewrite Hk'.
  by rewrite Z.eqb_refl.
Qed.

Lemma sweep_run i : forall k top d, sweep k = (i, top) -> 0 <= d -> i + d <= top ->
  sweep (k + Z.to_nat d) = (i + d, top).
Proof.
  intros k top d Hk. revert d. apply (natlike_ind (fun d => i + d <= top -> sweep (k + Z.to_nat d) = (i + d, top))).
  - intros _. by rewrite Nat.add_0_r, Z.add_0_r.
  - intros d Hd IH Hle. replace (k + Z.to_nat (Z.succ d))%nat with (S (k + Z.to_nat d)) by lia.
    simpl. rewrite IH by lia. destruct (Z.eqb_spec (i + d) top); [lia|]. f_equal. lia.
Qed.

Lemma sweep_top k : (sweep k).2 <= Z.of_nat k.
Proof. induction k as [|k IH]; [done|]. cbn [sweep]. destruct (sweep k) as [i top]. cbn [snd] in IH. destruct (_ =? _); simpl; lia. Qed.

Lemma sweep_fair : fair (fun k => (sweep k).1).
Proof.
  intros modulus r n Hr _. destruct (sweep_reach (modulus + Z.of_nat n)) as [k Hk]; [lia|].
  exists (k + Z.to_nat r)%nat. split.
  - pose proof (sweep_top k) as Ht. rewrite Hk in Ht. simpl in Ht. lia.
  - rewrite (sweep_run 0 k (modulus + Z.of_nat n) r Hk) by lia. cbn [fst]. apply Z.mod_small. lia.
Qed.

Definition demo_dir : list host_file :=
  [ mk_host [46; 46] 0x4000 0 [] None (fun _ => 0);
    mk_host [97] 0x8000 2 ascii_a None (fun _ => 7);
    mk_host [98; 98] 0x8000 5000 (replicate 5000 9) None (fun _ => 7) ].

Lemma createfs_kissfs_roundtrip_witness :
  exists img, ev (fun fuel => main (fun k => (sweep k).1) fuel demo_dir) img /\
    exists fs ino, KissFS.initFromMemoryAddress (fbyte img) 0 (flen img) = Some fs /\
      KissFS.open fs [98; 98] = Some (Some (KissFS.FdFile 2 ino)) /\
      KissFS.readData fs ino 0 100 = Some (100, replicate 100 9).
Proof.
  destruct (createfs_kissfs_roundtrip (fun k => (sweep k).1) demo_dir) as (img & Hev & Hm).
  - apply sweep_fair.
  - unfold demo_dir. constructor; [right; by split|].
    constructor; [left|constructor; [left|constructor]]; split_and!;
      first [vm_compute; congruence|vm_compute; reflexivity|repeat constructor; lia].
  - vm_compute. congruence.
  - apply List.Exists_exists. eexists. split; [left; reflexivity|]. done.
  - vm_compute. repeat constructor; set_solver.
  - exists img. split; [done|].
    destruct (Hm (fbyte img) 0 (flen img)) as (fs & Hfs & Hr); [done|lia|].
    destruct (Hr (mk_host [98; 98] 0x8000 5000 (replicate 5000 9) None (fun _ => 7))) as (ino & Ho & Hd).
    { right. left. }
    exists fs, ino. split; [done|]. split; [done|].
    rewrite (Hd 0 100); [vm_compute; reflexivity|vm_compute; split; congruence|lia|by left].
Defined.

(** 33 one-byte files. *)
Definition many_files : list host_file :=
  (fun i => mk_host [65 + i] 0x8000 1 [1 + i] None (fun _ => 0)) <$> seqZ 0 33.

Definition first_byte (fs : KissFS.t) (name : list Z) : option (Z * list Z) :=
  d ← KissFS.open fs name;
  match d with
  | Some d => '(n, bs, _) ← KissFS.read fs d 0 1; Some (n, bs)
  | None => None
  end.

(** Every file opens, and the first byte read is not the file's. *)
Definition all_misread (fs : KissFS.t) (hs : list host_file) : bool :=
  forallb (fun h => match first_byte fs (d_name h) with
                    | Some (n, bs) => negb (bool_decide (bs = contents h)) | None => false end) hs.

Lemma many_files_check :
  match main Z.of_nat 10 many_files with
  | Some img =>
      match KissFS.initFromMemoryAddress (fbyte img) 0 (flen img) with
      | Some fs => all_misread fs many_files
      | None => false
      end
  | None => false
  end = true.
Proof. vm_compute. reflexivity. Qed.

(** Of 33 small files with distinct names, which the builder accepts, the kernel
    opens every one and reads a wrong byte from every one: the builder reserves 66
    index nodes, the kernel clamps that number to 64 and looks for every data block
    two blocks too early. *)
Theorem many_files_misread :
  Forall file_ok many_files /\ NoDup (d_name <$> many_files) /\
  exists img fs, main Z.of_nat 10 many_files = Some img /\
    KissFS.initFromMemoryAddress (fbyte img) 0 (flen img) = Some fs /\
    Forall (fun h => exists n bs, first_byte fs (d_name h) = Some (n, bs) /\ bs <> contents h) many_files.
Proof.
  split; [|split].
  - unfold many_files. apply Forall_fmap, Forall_seqZ. intros i Hi.
    split_and!; try done; unfold alen; simpl; try lia; [repeat constructor; lia|]. intros [=]. lia.
  - unfold many_files. rewrite <- list_fmap_compose. apply NoDup_fmap_2; [|apply NoDup_seqZ].
    intros x y. simpl. intros [= ?]. lia.
  - pose proof many_files_check as Hc.
    destruct (main Z.of_nat 10 many_files) as [img|]; [|discriminate Hc].
    destruct (KissFS.initFromMemoryAddress _ _ _) as [fs|] eqn:Ef; [|discriminate Hc].
    exists img, fs. split; [done|]. split; [done|]. apply Forall_forall. intros h Hh.
    unfold all_misread in Hc. rewrite forallb_forall in Hc. apply list_elem_of_In in Hh.
    specialize (Hc h Hh). destruct (first_byte fs (d_name h)) as [[n bs]|]; [|done].
    exists n, bs. split; [done|]. by apply negb_true_iff, bool_decide_eq_false in Hc.
Qed.
End Createfs.
