(* ===== verification/PrefixTree.v ===== *)
(** * The mount table (inc/klibs/prefix_tree.h, inc/klibs/fixedmemorypool.h)

    Nodes live in a fixed pool; a pointer is an index into it. [None] is an access
    outside an array, or a node built at the null pointer a spent pool returns. *)
From stdpp Require Import prelude gmap list numbers.
From Stdlib Require Import ZArith Lia.
From S2P Require Import Prelude.

(** ** [MemoryPool<T, capacity>] *)

Module MemoryPool.

Record t := mk { unusedIndex : Z; unusedMemory : list Z }.

Definition init (capacity : Z) : t := mk (capacity - 1) (seqZ 0 capacity).

(** [get]: the pointer, or [nullptr]. *)
Definition get (p : t) : option Z * t :=
  if unusedIndex p <? 0 then (None, p)
  else (Some (aget (unusedMemory p) (unusedIndex p)), mk (unusedIndex p - 1) (unusedMemory p)).

Definition release (p : t) (ptr : Z) : option t :=
  let i := unusedIndex p + 1 in
  if i <? alen (unusedMemory p) then Some (mk i (aset (unusedMemory p) i ptr)) else None.

(** The pointers that may still be handed out. *)
Definition free (p : t) : list Z := take (Z.to_nat (unusedIndex p + 1)) (unusedMemory p).

Definition wf (capacity : Z) (p : t) : Prop :=
  alen (unusedMemory p) = capacity /\ -1 <= unusedIndex p < capacity /\ NoDup (free p) /\
  Forall (fun q => 0 <= q < capacity) (free p).

Lemma pool_wf_init capacity : 0 <= capacity -> wf capacity (init capacity).
Proof.
  intros Hc. unfold wf, init, free, alen; cbn. rewrite length_seqZ.
  rewrite take_ge by (rewrite length_seqZ; lia). split_and!; [lia..|apply NoDup_seqZ|].
  apply Forall_seqZ. lia.
Qed.

(** [get] hands out a free pointer and takes it off the free ones. *)
Lemma pool_get_spec capacity p q p' :
  wf capacity p -> get p = (Some q, p') ->
  wf capacity p' /\ q ∈ free p /\ 0 <= q < capacity /\
  (forall r, r ∈ free p' <-> r ∈ free p /\ r <> q).
Proof.
  intros (Hl & Hi & Hnd & Hr) E. unfold get in E. destruct (Z.ltb_spec (unusedIndex p) 0); [done|].
  injection E as <- <-. unfold wf, free in *. cbn.
  replace (unusedIndex p - 1 + 1) with (unusedIndex p) by lia.
  set (q := aget _ _) in *.
  assert (Es : take (Z.to_nat (unusedIndex p + 1)) (unusedMemory p)
    = take (Z.to_nat (unusedIndex p)) (unusedMemory p) ++ [q]).
  { replace (Z.to_nat (unusedIndex p + 1)) with (S (Z.to_nat (unusedIndex p))) by lia.
    apply take_S_r. unfold q, aget. apply list_lookup_lookup_total_lt. unfold alen in *. lia. }
  rewrite Es in *. apply list.NoDup_app in Hnd as (Hnd & Hd & _). apply list.Forall_app in Hr as [Hr Hq].
  rewrite list.Forall_singleton in Hq.
  split_and!; try done; try lia.
  - apply elem_of_app. right. by left.
  - intros r. rewrite elem_of_app, list_elem_of_singleton. split.
    + intros Hin. split; [by left|]. intros ->. apply (Hd q Hin). by left.
    + intros [[?|?] ?]; done.
Qed.
End MemoryPool.

(** ** [PrefixTree<T>] *)

Module PrefixTree.
Notation ascii := (Forall (fun c => 0 <= c < 128)).

Section tree.
Context {T : Type} (T0 : T).

Definition capacity : Z := 100.

Record node := mk_node { value : T; children : gmap Z Z; hasValue : bool }.
Definition new_node : node := mk_node T0 ∅ false.

#[global] Instance node_inhabited : Inhabited node := populate new_node.

Record t := mk { count : Z; root : Z; pool : MemoryPool.t; mem : list node }.

(** [new (pool) PrefixTreeNode<T>()] *)
Definition alloc (pool : MemoryPool.t) (mem : list node) : option (Z * MemoryPool.t * list node) :=
  match MemoryPool.get pool with
  | (Some p, pool) => Some (p, pool, aset mem p new_node)
  | (None, _) => None
  end.

Definition init : option t :=
  '(p, pool, mem) ← alloc (MemoryPool.init capacity) (replicate (Z.to_nat capacity) new_node);
  Some (mk 0 p pool mem).

(** [children[index]]; a [char] of 128 and more is a negative index. *)
Definition child (mem : list node) (p index : Z) : option (option Z) :=
  if 128 <=? index then None else Some (children (aget mem p) !! index).

Definition set_child (mem : list node) (p index q : Z) : list node :=
  let n := aget mem p in aset mem p (mk_node (value n) (<[index := q]> (children n)) (hasValue n)).
Definition set_value (mem : list node) (p : Z) (val : T) : list node :=
  let n := aget mem p in aset mem p (mk_node val (children n) true).

(** The walk of [insert]. *)
Fixpoint insert_loop (key : list Z) (pool : MemoryPool.t) (mem : list node) (pCrawl : Z)
    : option (Z * MemoryPool.t * list node) :=
  match key with
  | [] => Some (pCrawl, pool, mem)
  | index :: key =>
      c ← child mem pCrawl index;
      match c with
      | Some q => insert_loop key pool mem q
      | None =>
          '(q, pool, mem) ← alloc pool mem;
          insert_loop key pool (set_child mem pCrawl index q) q
      end
  end.

Definition insert (tr : t) (key : list Z) (val : T) : option t :=
  '(p, pool, mem) ← insert_loop key (pool tr) (mem tr) (root tr);
  Some (mk (count tr + 1) (root tr) pool (set_value mem p val)).

(** The walk of [search], from level [level] on. *)
Fixpoint search_loop (key : list Z) (mem : list node) (level pCrawl : Z) (lastVal : T) (lastLevel : Z)
    : option (T * Z) :=
  match key with
  | [] => Some (lastVal, lastLevel)
  | index :: key =>
      c ← child mem pCrawl index;
      match c with
      | None => Some (lastVal, lastLevel)
      | Some q =>
          let n := aget mem q in
          if hasValue n then search_loop key mem (level + 1) q (value n) level
          else search_loop key mem (level + 1) q lastVal lastLevel
      end
  end.

Definition search (tr : t) (key : list Z) : option (T * Z) :=
  '(lastVal, lastLevel) ← search_loop key (mem tr) 0 (root tr) T0 0;
  Some (lastVal, lastLevel + 1).

(** ** Laws *)

(** The node a key leads to. *)
Definition step (mem : list node) (p : option Z) (index : Z) : option Z :=
  p ← p; children (aget mem p) !! index.
Definition walk (mem : list node) (p : Z) (key : list Z) : option Z := foldl (step mem) (Some p) key.

(** The finite map the tree stands for. *)
Definition get (tr : t) (key : list Z) : option T :=
  p ← walk (mem tr) (root tr) key;
  let n := aget (mem tr) p in if hasValue n then Some (value n) else None.

(** No two keys lead to one node, and no node of the tree is free. *)
Definition shape (pool : MemoryPool.t) (mem : list node) (root : Z) : Prop :=
  MemoryPool.wf capacity pool /\ alen mem = capacity /\
  (forall k p, walk mem root k = Some p -> 0 <= p < capacity /\ p ∉ MemoryPool.free pool) /\
  (forall k1 k2 p, walk mem root k1 = Some p -> walk mem root k2 = Some p -> k1 = k2).

Definition inv (tr : t) : Prop := shape (pool tr) (mem tr) (root tr).

Lemma walk_snoc mem p k i : walk mem p (k ++ [i]) = step mem (walk mem p k) i.
Proof. unfold walk. by rewrite foldl_app. Qed.
Lemma walk_app mem p k1 k2 q : walk mem p k1 = Some q -> walk mem p (k1 ++ k2) = walk mem q k2.
Proof. unfold walk. rewrite foldl_app. by intros ->. Qed.
Lemma walk_none mem p k1 k2 : walk mem p k1 = None -> walk mem p (k1 ++ k2) = None.
Proof. unfold walk. rewrite foldl_app. intros ->. by induction k2. Qed.

Lemma node_aget_aset_eq (m : list node) p n : 0 <= p < alen m -> aget (aset m p n) p = n.
Proof. intros. unfold aget, aset, alen in *. by rewrite list_lookup_total_insert_eq by lia. Qed.
Lemma node_aget_aset_ne (m : list node) p q n : 0 <= p -> 0 <= q -> p <> q -> aget (aset m p n) q = aget m q.
Proof. intros. unfold aget, aset. by rewrite list_lookup_total_insert_ne by lia. Qed.
Lemma node_alen_aset (m : list node) p n : alen (aset m p n) = alen m.
Proof. unfold alen, aset. by rewrite length_insert. Qed.

(** A new child adds one key, that leads to a node without value. *)
Lemma add_child_walk root p m mem' k index q r :
  shape p m root -> walk m root k = Some q -> children (aget m q) !! index = None ->
  0 <= r < capacity -> r ∈ MemoryPool.free p ->
  mem' = set_child (aset m r new_node) q index r ->
  forall k', walk mem' root k' = if decide (k' = k ++ [index]) then Some r else walk m root k'.
Proof.
  intros (_ & Hlen & Hin & Hinj) Hk Hc Hr Hfree ->.
  destruct (Hin _ _ Hk) as [Hq Hqf]. assert (Hqr : q <> r) by (intros ->; done).
  unfold set_child. rewrite node_aget_aset_ne by lia.
  intros k'. induction k' as [|i k' IH] using rev_ind.
  { rewrite decide_False by by intros ?%app_cons_not_nil. done. }
  rewrite !walk_snoc, IH. destruct (decide (k' = k ++ [index])) as [->|Hne].
  - rewrite decide_False by (intros E; apply (f_equal length) in E; rewrite !length_app in E; simpl in E; lia).
    rewrite walk_snoc, Hk. cbn [step mbind option_bind]. rewrite Hc.
    rewrite node_aget_aset_ne by lia. by rewrite node_aget_aset_eq by lia.
  - destruct (walk m root k') as [q0|] eqn:E0; cbn [step mbind option_bind].
    + destruct (Hin _ _ E0) as [Hq0 Hq0f]. destruct (decide (q0 = q)) as [->|Hn].
      * assert (k' = k) as -> by eauto. rewrite node_aget_aset_eq by (rewrite node_alen_aset; lia). cbn.
        destruct (decide (index = i)) as [->|Hi].
        -- rewrite lookup_insert_eq. by rewrite decide_True.
        -- rewrite lookup_insert_ne by done. rewrite decide_False; [done|].
           intros [_ ?]%app_inj_2; [congruence|done].
      * rewrite !node_aget_aset_ne by (try lia; intros ->; done).
        rewrite decide_False; [done|]. intros [-> _]%app_inj_2; [congruence|done].
    + rewrite decide_False; [done|]. intros [-> _]%app_inj_2; [congruence|done].
Qed.

Lemma add_child_shape root p p' m k index q r :
  shape p m root -> walk m root k = Some q -> children (aget m q) !! index = None ->
  MemoryPool.get p = (Some r, p') ->
  let mem' := set_child (aset m r new_node) q index r in
  shape p' mem' root /\ 0 <= r < capacity /\
  (forall k', walk mem' root k' = if decide (k' = k ++ [index]) then Some r else walk m root k') /\
  hasValue (aget mem' r) = false /\
  (forall s, 0 <= s -> s <> r -> value (aget mem' s) = value (aget m s) /\ hasValue (aget mem' s) = hasValue (aget m s)).
Proof.
  intros Hs Hk Hc Hg mem'. destruct Hs as (Hp & Hlen & Hin & Hinj).
  destruct (MemoryPool.pool_get_spec _ _ _ _ Hp Hg) as (Hp' & Hrf & Hr & Hfree).
  assert (Hs : shape p m root) by by split.
  pose proof (add_child_walk root p m mem' k index q r Hs Hk Hc Hr Hrf eq_refl) as Hw.
  destruct (Hin _ _ Hk) as [Hq Hqf]. assert (Hqr : q <> r) by (intros ->; done).
  split; [|split; [done|split; [done|]]].
  - split; [done|]. split; [unfold mem', set_child; by rewrite !node_alen_aset|]. split.
    + intros k' s. rewrite Hw. case_decide; [intros [= <-]|intros [? Hsf]%Hin; split; [done|]].
      * split; [done|]. rewrite Hfree. tauto.
      * rewrite Hfree. tauto.
    + intros k1 k2 s. rewrite !Hw. do 2 case_decide; [congruence| | |eauto].
      * intros [= <-] [_ ?]%Hin. done.
      * intros [_ ?]%Hin [= <-]. done.
  - unfold mem', set_child. rewrite (node_aget_aset_ne m r q) by lia. split.
    + rewrite node_aget_aset_ne by lia. by rewrite node_aget_aset_eq by lia.
    + intros s Hs0 Hsr. destruct (decide (s = q)) as [->|].
      * rewrite node_aget_aset_eq by (rewrite node_alen_aset; lia). done.
      * by rewrite !node_aget_aset_ne by lia.
Qed.

Definition getm (mem : list node) (root : Z) (key : list Z) : option T :=
  p ← walk mem root key;
  let n := aget mem p in if hasValue n then Some (value n) else None.

Lemma child_ascii m p index : index < 128 -> child m p index = Some (children (aget m p) !! index).
Proof. intros. unfold child. by rewrite (proj2 (Z.leb_gt 128 index)) by lia. Qed.

Lemma insert_loop_spec root key : forall k0 p m q,
  ascii key -> shape p m root -> walk m root k0 = Some q -> alen key <= MemoryPool.unusedIndex p + 1 ->
  exists q' p' m', insert_loop key p m q = Some (q', p', m') /\ shape p' m' root /\
    walk m' root (k0 ++ key) = Some q' /\ (forall k, getm m' root k = getm m root k) /\
    MemoryPool.unusedIndex p - alen key <= MemoryPool.unusedIndex p'.
Proof.
  induction key as [|index key IH]; intros k0 p m q Ha Hs Hk Hfree.
  - exists q, p, m. rewrite app_nil_r. change (alen (@nil Z)) with 0. split_and!; try done; lia.
  - apply list.Forall_cons in Ha as [Hi Ha].
    assert (El : alen (index :: key) = alen key + 1) by (unfold alen; simpl; lia). rewrite El in *.
    cbn [insert_loop]. rewrite child_ascii by lia. cbn [mbind option_bind].
    assert (Happ : k0 ++ index :: key = (k0 ++ [index]) ++ key) by by rewrite <- app_assoc.
    rewrite Happ. destruct (children (aget m q) !! index) as [q1|] eqn:Ec.
    + destruct (IH (k0 ++ [index]) p m q1 Ha Hs) as (q' & p' & m' & ? & ? & ? & ? & ?); [|lia|].
      { rewrite walk_snoc, Hk. done. }
      exists q', p', m'. split_and!; try done; lia.
    + unfold alloc. destruct (MemoryPool.get p) as [[r|] p1] eqn:Eg; cycle 1.
      { unfold MemoryPool.get in Eg. destruct (Z.ltb_spec (MemoryPool.unusedIndex p) 0); [|done].
        unfold alen in *. lia. }
      assert (Hp1 : MemoryPool.unusedIndex p1 = MemoryPool.unusedIndex p - 1).
      { unfold MemoryPool.get in Eg. destruct (_ <? 0); [done|]. by injection Eg as _ <-. }
      cbn [mbind option_bind]. destruct (add_child_shape root p p1 m k0 index q r Hs Hk Ec Eg)
        as (Hs1 & Hr & Hw & Hv & Hsame).
      set (m1 := set_child _ _ _ _) in *.
      destruct (IH (k0 ++ [index]) p1 m1 r Ha Hs1) as (q' & p' & m' & ? & ? & ? & Hg & ?); [|lia|].
      { by rewrite Hw, decide_True. }
      exists q', p', m'. split_and!; try done; try lia. intros k. rewrite Hg. unfold getm. rewrite Hw.
      case_decide as Ek; [subst k|].
      * cbn [mbind option_bind]. rewrite Hv. rewrite walk_snoc, Hk. cbn [step mbind option_bind].
        by rewrite Ec.
      * destruct (walk m root k) as [s|] eqn:E; [|done]. cbn [mbind option_bind].
        destruct Hs as (Hp & _ & Hin & _). destruct (Hin _ _ E) as [Hsr Hsf].
        destruct (Hsame s) as [-> ->]; [lia| |done].
        intros ->. destruct (MemoryPool.pool_get_spec _ _ _ _ Hp Eg) as (_ & ? & _). done.
Qed.

Lemma set_value_walk m q v : alen m = capacity -> 0 <= q < capacity ->
  forall k root, walk (set_value m q v) root k = walk m root k.
Proof.
  intros Hl Hq k root. induction k as [|i k IH] using rev_ind; [done|]. rewrite !walk_snoc, IH.
  destruct (walk m root k) as [s|]; [|done]. cbn [step mbind option_bind].
  unfold set_value, aget, aset. destruct (decide (Z.to_nat s = Z.to_nat q)) as [E|E].
  - rewrite E, list_lookup_total_insert_eq by (unfold alen in Hl; lia). done.
  - by rewrite list_lookup_total_insert_ne by done.
Qed.

Lemma insert_spec tr key v :
  inv tr -> ascii key -> alen key <= MemoryPool.unusedIndex (pool tr) + 1 ->
  exists tr', insert tr key v = Some tr' /\ inv tr' /\
    (forall k, get tr' k = if decide (k = key) then Some v else get tr k) /\
    MemoryPool.unusedIndex (pool tr) - alen key <= MemoryPool.unusedIndex (pool tr').
Proof.
  intros Hs Ha Hf. destruct (insert_loop_spec (root tr) key [] (pool tr) (mem tr) (root tr) Ha Hs eq_refl Hf)
    as (q & p' & m' & E & (Hp' & Hl & Hin & Hinj) & Hw & Hg & Hu). cbn [app] in Hw.
  eexists. split; [unfold insert; rewrite E; reflexivity|].
  destruct (Hin _ _ Hw) as [Hq Hqf]. pose proof (set_value_walk m' q v Hl Hq) as Hwv.
  split; [|split; [|done]].
  - split; [done|]. split; [unfold set_value; cbn; by rewrite node_alen_aset|]. cbn [mem pool root].
    split; [intros k p; rewrite Hwv; apply Hin|]. intros k1 k2 p. rewrite !Hwv. apply Hinj.
  - intros k. unfold get at 1. cbn [mem root]. rewrite Hwv. case_decide as Ek; [subst k|].
    + rewrite Hw. cbn [mbind option_bind]. unfold set_value. by rewrite node_aget_aset_eq by lia.
    + change (get tr k) with (getm (mem tr) (root tr) k). rewrite <- Hg. unfold getm.
      destruct (walk m' (root tr) k) as [s|] eqn:Es; [|done]. cbn [mbind option_bind].
      unfold set_value. rewrite node_aget_aset_ne; [done|lia|destruct (Hin _ _ Es); lia|]. intros ->. eauto.
Qed.

(** [best tr done v l]: of the mounted keys that begin [done], the longest has the
    value [v] and the last level [l]. *)
Definition best (tr : t) (key : list Z) (v : T) (l : Z) : Prop :=
  (exists k, k <> [] /\ k `prefix_of` key /\ get tr k = Some v /\ l = alen k - 1 /\
     forall k', k' `prefix_of` key -> (length k < length k')%nat -> get tr k' = None) \/
  (v = T0 /\ l = 0 /\ forall k', k' <> [] -> k' `prefix_of` key -> get tr k' = None).

Lemma prefix_snoc_cases (k key : list Z) i : k `prefix_of` key ++ [i] -> k `prefix_of` key \/ k = key ++ [i].
Proof.
  intros [r E]. destruct r as [|x r _] using rev_ind; [right; by rewrite app_nil_r in E|].
  rewrite app_assoc in E. apply app_inj_2 in E as [-> _]; [|done]. left. by eexists.
Qed.

Lemma best_extend tr key v l i : best tr key v l -> get tr (key ++ [i]) = None -> best tr (key ++ [i]) v l.
Proof.
  intros [(k & Hk & Hp & Hg & Hl & Hlong)|(Hv & Hl & Hnone)] Hn.
  - left. exists k. split_and!; try done; [by apply prefix_app_r|].
    intros k' [Hp'| ->]%prefix_snoc_cases Hlt; eauto.
  - right. split_and!; try done. intros k' Hk' [Hp'| ->]%prefix_snoc_cases; eauto.
Qed.

Lemma best_dead tr key v l rest :
  best tr key v l -> (forall k, k `prefix_of` rest -> k <> [] -> get tr (key ++ k) = None) ->
  best tr (key ++ rest) v l.
Proof.
  intros Hb. induction rest as [|i rest IH] using rev_ind; intros Hn; [by rewrite app_nil_r|].
  rewrite app_assoc. apply best_extend.
  - apply IH. intros k Hk. apply Hn. by apply prefix_app_r.
  - rewrite <- app_assoc. apply Hn; [done|]. by destruct rest.
Qed.

Lemma search_loop_spec tr rest : forall key p v l,
  inv tr -> ascii rest -> walk (mem tr) (root tr) key = Some p -> best tr key v l ->
  exists v' l', search_loop rest (mem tr) (alen key) p v l = Some (v', l') /\ best tr (key ++ rest) v' l'.
Proof.
  induction rest as [|i rest IH]; intros key p v l Hs Ha Hw Hb.
  - exists v, l. by rewrite app_nil_r.
  - pose proof Ha as [Hi Ha']%list.Forall_cons. cbn [search_loop]. rewrite child_ascii by lia. cbn [mbind option_bind].
    assert (Hstep : walk (mem tr) (root tr) (key ++ [i]) = children (aget (mem tr) p) !! i)
      by by rewrite walk_snoc, Hw.
    destruct (children (aget (mem tr) p) !! i) as [q|] eqn:Ec.
    + replace (key ++ i :: rest) with ((key ++ [i]) ++ rest) by by rewrite <- app_assoc.
      assert (El : alen key + 1 = alen (key ++ [i])) by (unfold alen; rewrite length_app; simpl; lia).
      rewrite El. destruct (hasValue (aget (mem tr) q)) eqn:Ev.
      * apply IH; [done..|]. left. exists (key ++ [i]). split_and!; [by intros [_ ?]%app_nil|done| |lia|].
        -- unfold get. rewrite Hstep. cbn [mbind option_bind]. by rewrite Ev.
        -- intros k' Hp Hlt. apply prefix_length in Hp. lia.
      * apply IH; [done..|]. apply best_extend; [done|]. unfold get. rewrite Hstep.
        cbn [mbind option_bind]. by rewrite Ev.
    + exists v, l. split; [done|]. apply best_dead; [done|]. intros k [r Hk] Hne. unfold get.
      destruct k as [|c k]; [done|]. injection Hk as -> _.
      replace (key ++ c :: k) with ((key ++ [c]) ++ k) by by rewrite <- app_assoc.
      by rewrite walk_none.
Qed.

Lemma search_spec tr key :
  inv tr -> ascii key -> exists v l, search tr key = Some (v, l + 1) /\ best tr key v l.
Proof.
  intros Hs Ha. destruct (search_loop_spec tr key [] (root tr) T0 0 Hs Ha eq_refl) as (v & l & E & Hb).
  { right. split_and!; [done..|]. intros k' Hk [r Hr]. symmetry in Hr. by apply app_nil in Hr as [-> _]. }
  exists v, l. split; [|done]. unfold search. change (alen (@nil Z)) with 0 in E. by rewrite E.
Qed.

Lemma init_spec : exists tr, init = Some tr /\ inv tr /\ (forall k, get tr k = None) /\
  MemoryPool.unusedIndex (pool tr) = 98.
Proof.
  unfold init. destruct (alloc (MemoryPool.init capacity) (replicate (Z.to_nat capacity) new_node))
    as [[[p pl] m]|] eqn:E; [|done].
  eexists. split; [reflexivity|]. unfold alloc in E.
  destruct (MemoryPool.get (MemoryPool.init capacity)) as [[r|] pl'] eqn:Eg; [|done].
  injection E as -> -> <-.
  destruct (MemoryPool.pool_get_spec _ _ _ _ (MemoryPool.pool_wf_init capacity ltac:(done)) Eg)
    as (Hwf & _ & Hr & Hfree).
  assert (Hroot : aget (aset (replicate (Z.to_nat capacity) new_node) p new_node) p = new_node).
  { apply node_aget_aset_eq. unfold alen. rewrite length_replicate. unfold capacity in *. lia. }
  set (m := aset _ _ _) in *.
  assert (Hwalk : forall k, walk m p k = if decide (k = []) then Some p else None).
  { intros k. induction k as [|i k IH] using rev_ind; [done|]. rewrite walk_snoc, IH.
    rewrite (decide_False (P := k ++ [i] = [])) by (by intros [_ ?]%app_nil).
    case_decide; [|done]. cbn [step mbind option_bind]. by rewrite Hroot. }
  split; [|split].
  - split; [done|]. split; [cbn [mem]; unfold m; by rewrite node_alen_aset|]. cbn [mem root pool]. split.
    + intros k q. rewrite Hwalk. case_decide; [|done]. intros [= <-]. split; [done|]. rewrite Hfree. tauto.
    + intros k1 k2 q. rewrite !Hwalk. do 2 case_decide; congruence.
  - intros k. unfold get. cbn [mem root]. rewrite Hwalk. case_decide; [|done]. cbn [mbind option_bind].
    by rewrite Hroot.
  - cbn [pool]. unfold MemoryPool.get in Eg. cbn in Eg. by injection Eg as _ <-.
Qed.
End tree.

(** ** Properties *)

(** The characters of the mount points. *)
Fixpoint chars {T} (kvs : list (list Z * T)) : Z :=
  match kvs with [] => 0 | kv :: kvs => alen kv.1 + chars kvs end.

(** Mounting under [keys], one after the other. *)
Fixpoint inserts {T} (T0 : T) (tr : t) (kvs : list (list Z * T)) : option t :=
  match kvs with
  | [] => Some tr
  | (k, v) :: kvs => tr ← insert T0 tr k v; inserts T0 tr kvs
  end.

(** The last value given to a key. *)
Definition assoc_last {T} (kvs : list (list Z * T)) (key : list Z) : option T :=
  foldl (fun o kv => if decide (key = kv.1) then Some kv.2 else o) None kvs.

Lemma inserts_spec {T} (T0 : T) kvs : forall tr,
  inv T0 tr -> Forall (fun kv => ascii kv.1) kvs ->
  chars kvs <= MemoryPool.unusedIndex (pool tr) + 1 ->
  exists tr', inserts T0 tr kvs = Some tr' /\ inv T0 tr' /\
    forall k, get T0 tr' k = foldl (fun o kv => if decide (k = kv.1) then Some kv.2 else o) (get T0 tr k) kvs.
Proof.
  induction kvs as [|[k v] kvs IH]; intros tr Hs Ha Hf; [by exists tr|].
  apply list.Forall_cons in Ha as [Hk Ha]. simpl in Hf, Hk.
  assert (Hpos : forall l : list (list Z * T), 0 <= chars l) by (induction l; simpl; unfold alen; lia).
  pose proof (Hpos kvs).
  destruct (insert_spec T0 tr k v Hs Hk) as (tr1 & E & Hs1 & Hg & Hu); [lia|].
  destruct (IH tr1 Hs1 Ha) as (tr' & E' & Hs' & Hg'); [lia|].
  exists tr'. simpl. rewrite E. cbn [mbind option_bind]. split; [done|]. split; [done|].
  intros k'. rewrite Hg', Hg. done.
Qed.

Lemma assoc_last_other {T} (kvs : list (list Z * T)) key :
  Forall (fun kv => kv.1 <> key) kvs -> assoc_last kvs key = None.
Proof.
  unfold assoc_last. intros Hk. induction kvs as [|kv kvs IH] using rev_ind; [done|].
  apply list.Forall_app in Hk as [Hk [Hne _]%list.Forall_cons]. rewrite foldl_app. simpl.
  rewrite decide_False by congruence. by apply IH.
Qed.

(** C32: The mount table answers a path with the value of the longest mount point that
    begins it and with that point's length; with the null value and 1 when there is
    none. Up to 99 characters of mount points always fit. Mount points are not empty, and
    they and the path are ASCII: a byte of 128 or more would index outside the children. *)
Theorem mount_longest_prefix {T} (T0 : T) (kvs : list (list Z * T)) (path : list Z) :
  Forall (fun kv => ascii kv.1 /\ kv.1 <> []) kvs ->
  chars kvs <= 99 -> ascii path ->
  exists tr0 tr v n, init T0 = Some tr0 /\ inserts T0 tr0 kvs = Some tr /\ search T0 tr path = Some (v, n) /\
    ((exists k, k `prefix_of` path /\ assoc_last kvs k = Some v /\ n = alen k /\
       forall k', k' `prefix_of` path -> is_Some (assoc_last kvs k') -> (length k' <= length k)%nat) \/
     (v = T0 /\ n = 1 /\ forall k', k' `prefix_of` path -> assoc_last kvs k' = None)).
Proof.
  intros Hk Hf Hp. destruct (init_spec T0) as (tr0 & E0 & Hs0 & Hg0 & Hu0).
  destruct (inserts_spec T0 kvs tr0 Hs0) as (tr & E & Hs & Hg); [|lia|].
  { eapply List.Forall_impl; [|exact Hk]. by intros ? []. }
  assert (Hget : forall k, get T0 tr k = assoc_last kvs k) by (intros k; rewrite Hg, Hg0; done).
  assert (Hnil : assoc_last kvs [] = None).
  { apply assoc_last_other. eapply List.Forall_impl; [|exact Hk]. by intros ? []. }
  destruct (search_spec T0 tr path Hs Hp) as (v & l & Es & Hb). exists tr0, tr, v, (l + 1).
  split_and!; [done..|]. destruct Hb as [(k & Hne & Hpre & Hv & -> & Hlong)|(-> & -> & Hnone)].
  - left. exists k. split; [done|]. rewrite <- Hget. split; [done|]. split; [lia|].
    intros k' Hp' Hsome. rewrite <- Hget in Hsome. destruct (decide (length k < length k')%nat); [|lia].
    rewrite Hlong in Hsome by done. by destruct Hsome.
  - right. split_and!; [done..|]. intros k' Hp'. destruct (decide (k' = [])) as [->|]; [done|].
    rewrite <- Hget. auto.
Qed.

(** The kernel's two mounts: the root, and the devices. *)
Lemma mount_longest_prefix_witness :
  let kvs := [([47], 1); ([47; 100; 101; 118; 47], 2)] in
  exists tr0 tr v n, init 0 = Some tr0 /\ inserts 0 tr0 kvs = Some tr /\
    search 0 tr [47; 100; 101; 118; 47; 114; 116; 99] = Some (v, n).
Proof.
  intros kvs.
  destruct (mount_longest_prefix 0 kvs [47; 100; 101; 118; 47; 114; 116; 99])
    as (tr0 & tr & v & n & E0 & E1 & E2 & _).
  - repeat constructor; simpl; done.
  - vm_compute. by intros [=].
  - repeat constructor; simpl; done.
  - by exists tr0, tr, v, n.
Defined.
End PrefixTree.
