(* ===== verification/Terminal.v ===== *)
(** * The terminal (drivers/terminal.cpp, drivers/txtmode.cpp, inc/drivers/kbterm.h)

    A terminal edits the line typed on the keyboard, hands it to the process that
    reads, and lays the bytes written to it out on the 80 by 25 text screen. Its
    methods run under its lock; each is one step. *)
From stdpp Require Import prelude list numbers.
From Stdlib Require Import ZArith Lia.
From S2P Require Import Prelude.

Module Terminal.

Definition TAB_WIDTH : Z := 4.
Definition SCREEN_WIDTH : Z := 80.
Definition SCREEN_HEIGHT : Z := 25.
Definition TEXT_STYLE : Z := 7.
Definition TERM_BUFFER_SIZE : Z := 128.

(** ** [TextModePainter] *)

(** [vga] is the video memory; [crtc] the cursor location the controller holds. *)
Record painter := mk_painter {
  vga : list Z;
  backupBuffer : list Z;
  cursorX : Z;
  cursorY : Z;
  isLoadedInVmem : bool;
  crtc : Z }.

(** [videoMem()], and a write to it. *)
Definition videoMem (p : painter) : list Z := if isLoadedInVmem p then vga p else backupBuffer p.
Definition set_videoMem (p : painter) (m : list Z) : painter :=
  if isLoadedInVmem p
  then mk_painter m (backupBuffer p) (cursorX p) (cursorY p) true (crtc p)
  else mk_painter (vga p) m (cursorX p) (cursorY p) false (crtc p).

(** [n] blank cells: [rep stosw] of [' ' + (TEXT_STYLE << 8)]. *)
Definition blanks (n : Z) : list Z := mjoin (replicate (Z.to_nat n) [32; TEXT_STYLE]).

Definition helpSetCursor (p : painter) (x y : Z) : painter :=
  if SCREEN_WIDTH <=? x then p
  else if SCREEN_HEIGHT <=? y then p
  else mk_painter (vga p) (backupBuffer p) (cursorX p) (cursorY p) (isLoadedInVmem p)
         (u16 (SCREEN_WIDTH * y + x)).

Definition setCursor (p : painter) (x y : Z) : painter :=
  let p := mk_painter (vga p) (backupBuffer p) x y (isLoadedInVmem p) (crtc p) in
  if negb (isLoadedInVmem p) then p else helpSetCursor p x y.

Definition clearScreen (p : painter) : painter :=
  let p := set_videoMem p (blanks (SCREEN_WIDTH * SCREEN_HEIGHT)
             ++ drop (Z.to_nat (2 * (SCREEN_WIDTH * SCREEN_HEIGHT))) (videoMem p)) in
  setCursor p 0 0.

(** [rep movsd] of the lines but the first, then [rep stosw] of the last. *)
Definition scrollDown (p : painter) : painter :=
  let n := Z.to_nat ((SCREEN_HEIGHT - 1) * SCREEN_WIDTH * 2) in
  let m := videoMem p in
  let m := take n (drop (Z.to_nat (2 * SCREEN_WIDTH)) m) ++ drop n m in
  let m := take n m ++ blanks SCREEN_WIDTH ++ drop (Z.to_nat (2 * SCREEN_WIDTH * SCREEN_HEIGHT)) m in
  set_videoMem p m.

(** [showChar]; [None] is a write outside the screen. *)
Definition showChar (p : painter) (x y c : Z) : option painter :=
  let a := u32 (2 * u32 (SCREEN_WIDTH * y + x)) in
  if a + 1 <? alen (videoMem p)
  then Some (set_videoMem p (aset (aset (videoMem p) a (u8 c)) (a + 1) TEXT_STYLE)) else None.

Definition clearLine (p : painter) (y : Z) : option painter :=
  let a := Z.to_nat (u32 (y * SCREEN_WIDTH * 2)) in
  let m := videoMem p in
  if (a + 160 <=? length m)%nat
  then Some (set_videoMem p (take a m ++ blanks SCREEN_WIDTH ++ drop (a + 160) m)) else None.

(** [show] and [hide]: the copies between the video memory and the backup; the
    remapping of a process's video page is left out. *)
Definition show (p : painter) : painter :=
  if isLoadedInVmem p then p
  else helpSetCursor (mk_painter (backupBuffer p) (backupBuffer p) (cursorX p) (cursorY p) true (crtc p))
         (cursorX p) (cursorY p).
Definition hide (p : painter) : painter :=
  if negb (isLoadedInVmem p) then p
  else mk_painter (vga p) (vga p) (cursorX p) (cursorY p) false (crtc p).

(** ** [Term] *)

Record item := mk_item { displayed_char : Z; x_offset : Z; y_offset : Z }.
#[global] Instance item_inhabited : Inhabited item := populate (mk_item 0 0 0).

Record t := mk {
  next_char_x : Z;
  next_char_y : Z;
  term_buf : list item;
  term_buf_pos : Z;
  OwnedByPid : Z;
  UserWaitingRead : bool;
  UserWaitingBuffer : option Z;
  UserWaitingLen : Z;
  scr : painter }.

Definition set_xy (s : t) (x y : Z) : t :=
  mk x y (term_buf s) (term_buf_pos s) (OwnedByPid s) (UserWaitingRead s) (UserWaitingBuffer s)
     (UserWaitingLen s) (scr s).
Definition set_scr (s : t) (p : painter) : t :=
  mk (next_char_x s) (next_char_y s) (term_buf s) (term_buf_pos s) (OwnedByPid s) (UserWaitingRead s)
     (UserWaitingBuffer s) (UserWaitingLen s) p.
Definition set_pos (s : t) (pos : Z) : t :=
  mk (next_char_x s) (next_char_y s) (term_buf s) pos (OwnedByPid s) (UserWaitingRead s)
     (UserWaitingBuffer s) (UserWaitingLen s) (scr s).
Definition set_wait (s : t) (owner : Z) (w : bool) (b : option Z) (n : Z) : t :=
  mk (next_char_x s) (next_char_y s) (term_buf s) (term_buf_pos s) owner w b n (scr s).

(** [term_buf[term_buf_pos++] = rec] *)
Definition push (s : t) (rec : item) : option t :=
  if term_buf_pos s <? TERM_BUFFER_SIZE
  then Some (mk (next_char_x s) (next_char_y s) (aset (term_buf s) (term_buf_pos s) rec) (term_buf_pos s + 1)
               (OwnedByPid s) (UserWaitingRead s) (UserWaitingBuffer s) (UserWaitingLen s) (scr s))
  else None.

(** One line down, scrolling at the bottom; the column is set apart. *)
Definition line_down (s : t) : t :=
  if next_char_y s <? SCREEN_HEIGHT - 1 then set_xy s (next_char_x s) (next_char_y s + 1)
  else set_scr s (scrollDown (scr s)).

Definition show_at (s : t) (x y c : Z) : option t := p ← showChar (scr s) x y c; Some (set_scr s p).
Definition cursor (s : t) : t := set_scr s (setCursor (scr s) (next_char_x s) (next_char_y s)).

(** [helpFinishRead]: the result and the bytes stored. *)
Definition helpFinishRead (s : t) (buffer : option Z) (nbytes : Z) : t * Z * list Z :=
  match buffer with
  | None => (s, -1, [])
  | Some _ =>
      let copylen := if u32 nbytes <? term_buf_pos s then nbytes else term_buf_pos s in
      (set_pos s 0, Z.max 0 copylen,
        (fun i => u8 (displayed_char (aget (term_buf s) i))) <$> seqZ 0 copylen)
  end.

(** A process whose read ends: its pid, its buffer, the result and the bytes. *)
Definition wakeup : Type := Z * option Z * Z * list Z.

Definition nolock_enter_handler (s : t) : option (t * option wakeup) :=
  let s := if next_char_y s <? SCREEN_HEIGHT - 1 then set_xy s 0 (next_char_y s + 1)
           else set_scr (set_xy s 0 (next_char_y s)) (scrollDown (scr s)) in
  s ← push s (mk_item 10 0 0);
  if UserWaitingRead s then
    let s := set_wait s (OwnedByPid s) false (UserWaitingBuffer s) (UserWaitingLen s) in
    let '(s, n, bs) := helpFinishRead s (UserWaitingBuffer s) (UserWaitingLen s) in
    Some (s, Some (OwnedByPid s, UserWaitingBuffer s, n, bs))
  else Some (set_pos s 0, None).

(** [for (j = from; j <= to; j++) showChar(j, y, ' ')] *)
Fixpoint erase (n : nat) (s : t) (j y : Z) : option t :=
  match n with
  | O => Some s
  | S n => s ← show_at s j y 32; erase n s (j + 1) y
  end.

Definition nolock_backspace_handler (s : t) : option t :=
  if 0 <? term_buf_pos s then
    let i := aget (term_buf s) (term_buf_pos s - 1) in
    s ← (if negb (y_offset i =? 0) then
           p ← clearLine (scr s) (next_char_y s);
           let s := set_scr s p in
           let s := set_xy s (u32 (SCREEN_WIDTH - x_offset i)) (u32 (next_char_y s - 1)) in
           erase (Z.to_nat (SCREEN_WIDTH - next_char_x s)) s (next_char_x s) (next_char_y s)
         else
           let orig_x := next_char_x s in
           let s := set_xy s (u32 (orig_x - x_offset i)) (next_char_y s) in
           erase (Z.to_nat (orig_x + 1 - next_char_x s)) s (next_char_x s) (next_char_y s));
    Some (set_pos s (term_buf_pos s - 1))
  else Some s.

Definition nolock_tab_handler (s : t) : option t :=
  if TERM_BUFFER_SIZE - 1 <=? term_buf_pos s then Some s
  else
    let old_x := next_char_x s in
    let s := set_xy s (u32 (old_x + (4 - old_x mod TAB_WIDTH))) (next_char_y s) in
    if SCREEN_WIDTH <=? next_char_x s then
      push (line_down (set_xy s 0 (next_char_y s))) (mk_item 9 (u32 (SCREEN_WIDTH - old_x)) 1)
    else push s (mk_item 9 (u32 (next_char_x s - old_x)) 0).

Definition nolock_putc (s : t) (c : Z) : option t :=
  let s := set_pos s 0 in
  s ← (if c =? 0 then Some s
       else if (c =? 10) || (c =? 13) then
         Some (line_down (set_xy s 0 (next_char_y s)))
       else if c =? 9 then
         let s := set_xy s (u32 (next_char_x s + (4 - next_char_x s mod TAB_WIDTH))) (next_char_y s) in
         if SCREEN_WIDTH <=? next_char_x s
         then Some (line_down (set_xy s (next_char_x s mod SCREEN_WIDTH) (next_char_y s)))
         else Some s
       else
         s ← show_at s (next_char_x s) (next_char_y s) c;
         let s := set_xy s (u32 (next_char_x s + 1)) (next_char_y s) in
         if next_char_x s =? SCREEN_WIDTH then Some (line_down (set_xy s 0 (next_char_y s))) else Some s);
  Some (cursor s).

(** [read] by the process [pid]: at once, or when a line is entered. *)
Inductive read_result := Returns (n : Z) (bs : list Z) | Blocks.
Definition read (s : t) (pid : Z) (buf : option Z) (nbytes : Z) : t * read_result :=
  let go s :=
    if term_buf_pos s <? u32 nbytes
    then (set_wait s (OwnedByPid s) true buf nbytes, Blocks)
    else let '(s, n, bs) := helpFinishRead s buf nbytes in (s, Returns n bs) in
  if OwnedByPid s =? -1 then go (set_wait s pid false (UserWaitingBuffer s) (UserWaitingLen s))
  else if negb (OwnedByPid s =? pid) then (s, Returns (-1) [])
  else go s.

(** [write]: the bytes up to the first NUL, at most [nbytes]. *)
Fixpoint write_loop (s : t) (buf : list Z) (i nbytes : Z) : option (t * Z) :=
  match buf with
  | [] => Some (s, nbytes)
  | c :: buf => if c =? 0 then Some (s, i) else s ← nolock_putc s c; write_loop s buf (i + 1) nbytes
  end.
(** [buf] holds the [nbytes] bytes at the pointer. *)
Definition write (s : t) (buf : list Z) (nbytes : Z) : option (t * Z) := write_loop s buf 0 nbytes.

Definition nolock_cls (s : t) : t :=
  cursor (set_scr (set_xy (set_pos s 0) 0 0) (clearScreen (scr s))).

Definition setOwner (s : t) (upid : Z) : t := set_wait s upid false None (-1).
Definition canBeOwnedBy (s : t) (tid : Z) : bool := (OwnedByPid s =? -1) || (OwnedByPid s =? tid).

(** [key]: a key combination from the keyboard. *)
Definition KKC_ASCII_MASK : Z := 0xFF.
Definition KKC_SPECIAL_MASK : Z := 0xFF00.
Definition KKC_CTRL : Z := 0x010000.
Definition KKC_SHIFT : Z := 0x040000.
Definition KKC_ENTER : Z := 0x100.
Definition KKC_BACKSPACE : Z := 0x200.
Definition KKC_TAB : Z := 0x800.

(** [ascii_shift_table] (terminal-asm.S). *)
Definition ascii_shift_table : list Z :=
  replicate 39 0 ++ [34] ++ replicate 4 0 ++ [60; 95; 62; 63] ++
  [41; 33; 64; 35; 36; 37; 94; 38; 42; 40] ++ [0; 58; 0; 43] ++ replicate 29 0 ++
  [123; 124; 125; 0; 0; 126] ++ seqZ 65 26 ++ replicate 5 0.

Definition key_char (kkc : Z) (capslock : bool) : option Z :=
  let c := Z.land kkc KKC_ASCII_MASK in
  c ← (if Z.land kkc KKC_SHIFT =? 0 then Some c
       else up ← anth ascii_shift_table c; Some (if up =? 0 then c else up));
  Some (if capslock then
          if (97 <=? c) && (c <=? 122) then c - 97 + 65
          else if (65 <=? c) && (c <=? 90) then c - 65 + 97 else c
        else c).

Definition type_char (s : t) (c : Z) : option t :=
  if term_buf_pos s <? TERM_BUFFER_SIZE - 1 then
    s ← show_at s (next_char_x s) (next_char_y s) c;
    let old_x := next_char_x s in
    let s := set_xy s (u32 (old_x + 1)) (next_char_y s) in
    if next_char_x s =? SCREEN_WIDTH
    then push (line_down (set_xy s 0 (next_char_y s))) (mk_item c (u32 (SCREEN_WIDTH - old_x)) 1)
    else push s (mk_item c (u32 (next_char_x s - old_x)) 0)
  else Some s.

Definition key (s : t) (kkc : Z) (capslock : bool) : option (t * option wakeup) :=
  '(s, w) ←
    (if negb (Z.land (Z.land kkc (not32 KKC_ASCII_MASK)) (not32 KKC_SHIFT) =? 0) then
       if negb (Z.land kkc (not32 KKC_SPECIAL_MASK) =? 0) then
         if kkc =? Z.lor KKC_CTRL 108 then Some (set_scr (set_pos (set_xy s 0 0) 0) (clearScreen (scr s)), None)
         else Some (s, None)
       else
         let k := Z.land kkc KKC_SPECIAL_MASK in
         if k =? KKC_BACKSPACE then s ← nolock_backspace_handler s; Some (s, None)
         else if k =? KKC_TAB then s ← nolock_tab_handler s; Some (s, None)
         else if k =? KKC_ENTER then nolock_enter_handler s
         else Some (s, None)
     else
       if term_buf_pos s <? TERM_BUFFER_SIZE - 1 then
         c ← key_char kkc capslock; s ← type_char s c; Some (s, None)
       else Some (s, None));
  Some (cursor s, w).

(** A terminal as it is constructed, hidden. *)
Definition init_painter : painter :=
  clearScreen (mk_painter (replicate 4000 0) (replicate 4000 0) 0 0 false 0).
Definition init : t := mk 0 0 (replicate (Z.to_nat TERM_BUFFER_SIZE) (mk_item 0 0 0)) 0 (-1) false None (-1) init_painter.

(** The text on the screen, row by row. *)
Definition cell_chars (m : list Z) : list Z := (fun i => aget m (2 * i)) <$> seqZ 0 (SCREEN_WIDTH * SCREEN_HEIGHT).

Example init_blank : alen (videoMem (scr init)) = 4000. Proof. reflexivity. Qed.
Example shift_a : key_char (97 + KKC_SHIFT) false = Some 65. Proof. reflexivity. Qed.
Example shift_1 : key_char (49 + KKC_SHIFT) true = Some 33. Proof. reflexivity. Qed.
Example typed_line :
  (s ← Some (read init 3 (Some 100) 10).1;
   '(s, _) ← key s 97 false; '(s, _) ← key s 98 false; '(s, _) ← key s KKC_BACKSPACE false;
   '(s, _) ← key s 99 true; '(_, w) ← key s KKC_ENTER false; w) = Some (3, Some 100, 3, [97; 67; 10]).
Proof. vm_compute. reflexivity. Qed.

(** ** The painter keeps its buffers *)

Definition screen_ok (p : painter) : Prop := alen (vga p) = 4000 /\ alen (backupBuffer p) = 4000.

Lemma videoMem_len p : screen_ok p -> alen (videoMem p) = 4000.
Proof. intros [??]. unfold videoMem. by destruct isLoadedInVmem. Qed.
Lemma set_videoMem_ok p m : screen_ok p -> alen m = 4000 -> screen_ok (set_videoMem p m).
Proof. intros [??] ?. unfold set_videoMem. by destruct (isLoadedInVmem p). Qed.
Lemma videoMem_set p m : videoMem (set_videoMem p m) = m.
Proof. unfold videoMem, set_videoMem. by destruct (isLoadedInVmem p). Qed.

Lemma length_blanks n : length (blanks n) = (2 * Z.to_nat n)%nat.
Proof. unfold blanks. induction (Z.to_nat n) as [|k IH]; simpl in *; lia. Qed.

Lemma helpSetCursor_mem p x y : videoMem (helpSetCursor p x y) = videoMem p /\
  (screen_ok p -> screen_ok (helpSetCursor p x y)).
Proof. unfold helpSetCursor. by destruct (SCREEN_WIDTH <=? x), (SCREEN_HEIGHT <=? y). Qed.
Lemma setCursor_mem p x y : videoMem (setCursor p x y) = videoMem p /\
  (screen_ok p -> screen_ok (setCursor p x y)).
Proof.
  unfold setCursor. cbv zeta. set (q := mk_painter _ _ _ _ _ _).
  assert (Hq : videoMem q = videoMem p /\ (screen_ok p -> screen_ok q)) by done.
  clearbody q. destruct (negb _); [done|]. destruct (helpSetCursor_mem q x y) as [-> ?]. tauto.
Qed.

Lemma scrollDown_mem p : screen_ok p ->
  videoMem (scrollDown p) = drop 160 (videoMem p) ++ blanks 80 /\ screen_ok (scrollDown p).
Proof.
  intros Hp. pose proof (videoMem_len p Hp) as Hl. unfold alen in Hl.
  assert (E : videoMem (scrollDown p) = drop 160 (videoMem p) ++ blanks 80).
  { unfold scrollDown. rewrite videoMem_set. cbv zeta. unfold SCREEN_HEIGHT, SCREEN_WIDTH.
    set (n := Z.to_nat _). assert (Hn : n = 3840%nat) by done. clearbody n. subst n.
    change (Z.to_nat (2 * 80)) with 160%nat. change (Z.to_nat (2 * 80 * 25)) with 4000%nat.
    assert (L : length (drop 160 (videoMem p)) = 3840%nat) by (rewrite length_drop; lia).
    rewrite (take_ge (drop 160 (videoMem p))) by lia.
    rewrite take_app_length' by lia.
    rewrite (drop_ge _ 4000), app_nil_r; [done|]. rewrite length_app, !length_drop. lia. }
  split; [done|]. unfold scrollDown in *. apply set_videoMem_ok; [done|].
  rewrite videoMem_set in E. rewrite E. unfold alen.
  rewrite length_app, length_drop, length_blanks. change (Z.to_nat 80) with 80%nat. lia.
Qed.

(** The cell of column [x], row [y]. *)
Definition put_cell (m : list Z) (x y c : Z) : list Z :=
  aset (aset m (2 * (80 * y + x)) (u8 c)) (2 * (80 * y + x) + 1) TEXT_STYLE.

Lemma alen_aset_Z (m : list Z) p v : alen (aset m p v) = alen m.
Proof. unfold alen. by rewrite length_aset. Qed.

Lemma showChar_mem p x y c : screen_ok p -> 0 <= x < 80 -> 0 <= y < 25 ->
  exists p', showChar p x y c = Some p' /\ videoMem p' = put_cell (videoMem p) x y c /\ screen_ok p'.
Proof.
  intros Hp Hx Hy. unfold showChar, SCREEN_WIDTH. cbv zeta. rewrite videoMem_len by done.
  rewrite (u32_small (80 * y + x)) by lia. rewrite u32_small by lia.
  rewrite (proj2 (Z.ltb_lt _ _)) by lia. eexists. split; [reflexivity|]. rewrite videoMem_set.
  split; [done|]. apply set_videoMem_ok; [done|]. by rewrite !alen_aset_Z, videoMem_len.
Qed.

Lemma clearLine_ok p y : screen_ok p -> 0 <= y < 25 ->
  exists p', clearLine p y = Some p' /\ screen_ok p'.
Proof.
  intros Hp Hy. unfold clearLine, SCREEN_WIDTH. cbv zeta. rewrite u32_small by lia.
  pose proof (videoMem_len p Hp) as Hl. unfold alen in Hl.
  rewrite (proj2 (Nat.leb_le _ _)) by lia. eexists. split; [reflexivity|].
  apply set_videoMem_ok; [done|]. unfold alen.
  rewrite !length_app, length_take, length_drop, length_blanks. change (Z.to_nat 80) with 80%nat. lia.
Qed.

Lemma clearScreen_mem p : screen_ok p ->
  videoMem (clearScreen p) = blanks 2000 /\ screen_ok (clearScreen p).
Proof.
  intros Hp. pose proof (videoMem_len p Hp) as Hl. unfold alen in Hl. unfold clearScreen. cbv zeta.
  change (SCREEN_WIDTH * SCREEN_HEIGHT) with 2000.
  rewrite drop_ge, app_nil_r by (change (Z.to_nat (2 * 2000)) with 4000%nat; lia).
  destruct (setCursor_mem (set_videoMem p (blanks 2000)) 0 0) as [-> Hok].
  split; [by rewrite videoMem_set|]. apply Hok, set_videoMem_ok; [done|].
  unfold alen. rewrite length_blanks. change (Z.to_nat 2000) with 2000%nat. lia.
Qed.

(** ** The invariant *)

(** The items of the line, the last typed first. *)
Definition items (s : t) : list item := reverse (take (Z.to_nat (term_buf_pos s)) (term_buf s)).

(** Taking the items back one by one, the cursor stays on the screen. *)
Fixpoint chain (its : list item) (x : Z) : Prop :=
  match its with
  | [] => 0 <= x < 80
  | i :: its =>
      0 <= x < 80 /\ 1 <= x_offset i <= 4 /\
      if y_offset i =? 0 then chain its (x - x_offset i) else x = 0 /\ chain its (80 - x_offset i)
  end.
Definition wraps (its : list item) : Z := alen (filter (fun i => y_offset i <> 0) its).

Record inv (s : t) : Prop := {
  inv_y : 0 <= next_char_y s < 25;
  inv_buf : alen (term_buf s) = 128;
  inv_pos : 0 <= term_buf_pos s <= 127;
  inv_chain : chain (items s) (next_char_x s);
  inv_wraps : wraps (items s) <= next_char_y s;
  inv_scr : screen_ok (scr s);
  inv_wait : UserWaitingRead s = true -> UserWaitingBuffer s <> None;
  inv_len : - 2 ^ 31 <= UserWaitingLen s < 2 ^ 31 }.

Lemma chain_x its x : chain its x -> 0 <= x < 80.
Proof. destruct its; simpl; tauto. Qed.

Lemma chain_wraps its : forall x, chain its x -> 80 * wraps its + x <= 79 + 4 * alen its.
Proof.
  induction its as [|i its IH]; intros x; [unfold wraps, alen; simpl; lia|]. intros (Hx & Ho & H).
  assert (alen (i :: its) = alen its + 1) as -> by (unfold alen; simpl; lia).
  unfold wraps in *. rewrite filter_cons. destruct (Z.eqb_spec (y_offset i) 0) as [E|E].
  - rewrite decide_False by lia. specialize (IH _ H). lia.
  - rewrite decide_True by done. destruct H as [-> H]. specialize (IH _ H).
    unfold alen in *. simpl. lia.
Qed.

Lemma items_len s : 0 <= term_buf_pos s <= alen (term_buf s) -> alen (items s) = term_buf_pos s.
Proof. intros. unfold items, alen in *. rewrite length_reverse, length_take. lia. Qed.

(** A step that does not touch the line. *)
Lemma items_same s s' : term_buf s' = term_buf s -> term_buf_pos s' = term_buf_pos s -> items s' = items s.
Proof. unfold items. by intros -> ->. Qed.

Lemma items_nil s : term_buf_pos s = 0 -> items s = [].
Proof. unfold items. intros ->. done. Qed.

Lemma push_spec s rec :
  alen (term_buf s) = 128 -> 0 <= term_buf_pos s < 128 ->
  exists s', push s rec = Some s' /\ items s' = rec :: items s /\ alen (term_buf s') = 128 /\
    term_buf_pos s' = term_buf_pos s + 1 /\ next_char_x s' = next_char_x s /\ next_char_y s' = next_char_y s /\
    scr s' = scr s /\ UserWaitingRead s' = UserWaitingRead s /\ UserWaitingBuffer s' = UserWaitingBuffer s /\
    UserWaitingLen s' = UserWaitingLen s /\ OwnedByPid s' = OwnedByPid s.
Proof.
  intros Hb Hp. unfold push, TERM_BUFFER_SIZE. rewrite (proj2 (Z.ltb_lt _ _)) by lia.
  eexists. split; [reflexivity|]. cbn. split_and!; try done; [|by rewrite <- Hb; unfold alen, aset; rewrite length_insert].
  unfold items. cbn. replace (Z.to_nat (term_buf_pos s + 1)) with (S (Z.to_nat (term_buf_pos s))) by lia.
  unfold aset. rewrite take_insert_snoc by (unfold alen in Hb; lia). by rewrite reverse_snoc.
Qed.

(** The frame of [line_down]. *)
Lemma line_down_spec s : screen_ok (scr s) -> 0 <= next_char_y s < 25 ->
  let s' := line_down s in
  next_char_x s' = next_char_x s /\ next_char_y s' = Z.min 24 (next_char_y s + 1) /\ screen_ok (scr s') /\
  term_buf s' = term_buf s /\ term_buf_pos s' = term_buf_pos s /\ UserWaitingRead s' = UserWaitingRead s /\
  UserWaitingBuffer s' = UserWaitingBuffer s /\ UserWaitingLen s' = UserWaitingLen s /\ OwnedByPid s' = OwnedByPid s.
Proof.
  intros Hs Hy. unfold line_down, SCREEN_HEIGHT. cbv zeta. destruct (Z.ltb_spec (next_char_y s) (25 - 1)); cbn.
  - split_and!; try done; lia.
  - split_and!; try done; [lia|]. by apply scrollDown_mem.
Qed.

(** ** Every method keeps the invariant *)

Lemma set_scr_id s : set_scr s (scr s) = s.
Proof. by destruct s. Qed.

Lemma erase_spec n : forall s j y, screen_ok (scr s) -> 0 <= j -> j + Z.of_nat n <= 80 -> 0 <= y < 25 ->
  exists p, erase n s j y = Some (set_scr s p) /\ screen_ok p.
Proof.
  induction n as [|n IH]; intros s j y Hs Hj Hn Hy; cbn [erase].
  - exists (scr s). by rewrite set_scr_id.
  - destruct (showChar_mem (scr s) j y 32 Hs ltac:(lia) Hy) as (p & E & _ & Hp).
    unfold show_at. rewrite E. cbn [mbind option_bind].
    destruct (IH (set_scr s p) (j + 1) y) as (p' & E' & Hp'); [done|lia..|].
    exists p'. by rewrite E'.
Qed.

Lemma cursor_inv s : inv s -> inv (cursor s) /\ items (cursor s) = items s.
Proof. intros []. split; [|done]. split; try done. cbn. by apply setCursor_mem. Qed.

Lemma chain_push its x c : chain its x -> x + 1 < 80 -> chain (mk_item c 1 0 :: its) (x + 1).
Proof. intros Hc Hx. pose proof (chain_x _ _ Hc). cbn. replace (x + 1 - 1) with x by lia. split_and!; try lia; done. Qed.

Lemma wraps_cons i its : wraps (i :: its) = (if y_offset i =? 0 then 0 else 1) + wraps its.
Proof.
  unfold wraps. rewrite filter_cons. destruct (Z.eqb_spec (y_offset i) 0).
  - rewrite decide_False by lia. done.
  - rewrite decide_True by done. unfold alen. simpl. lia.
Qed.

(** The reader that waits is the same. *)
Definition same_wait (s s' : t) : Prop :=
  UserWaitingRead s' = UserWaitingRead s /\ UserWaitingBuffer s' = UserWaitingBuffer s /\
  UserWaitingLen s' = UserWaitingLen s /\ OwnedByPid s' = OwnedByPid s.

(** A new item of width [w] at the end of the line: the cursor moves on, or starts
    the next row. *)
Lemma advance_inv s s1 c w :
  inv s -> term_buf_pos s < 127 -> screen_ok (scr s1) -> 1 <= w <= 4 ->
  s1 = set_scr s (scr s1) ->
  let x := next_char_x s in
  (x + w < 80 -> exists s', push (set_xy s1 (x + w) (next_char_y s1)) (mk_item c w 0) = Some s' /\
     inv s' /\ items s' = mk_item c w 0 :: items s /\ same_wait s s') /\
  (80 <= x + w -> exists s', push (line_down (set_xy s1 0 (next_char_y s1))) (mk_item c (80 - x) 1) = Some s' /\
     inv s' /\ items s' = mk_item c (80 - x) 1 :: items s /\ same_wait s s').
Proof.
  intros I Hp Hok Hw -> x. pose proof (inv_pos _ I). pose proof (inv_y _ I).
  pose proof (chain_x _ _ (inv_chain _ I)) as Hx. pose proof (chain_wraps _ _ (inv_chain _ I)) as Hwr.
  rewrite items_len in Hwr by (rewrite (inv_buf _ I); lia). pose proof (inv_wraps _ I).
  fold x in Hx, Hwr. set (p := scr s1) in *. clearbody p.
  split; intros Hlt.
  - destruct (push_spec (set_xy (set_scr s p) (x + w) (next_char_y s)) (mk_item c w 0))
      as (s' & E & Hi & Hb & Hpos & HX & HY & HS & W1 & W2 & W3 & W4); [apply I|cbn; lia|].
    change (items (set_xy (set_scr s p) (x + w) (next_char_y s))) with (items s) in Hi.
    assert (Hsw : same_wait s s') by by split_and!.
    cbn in *. exists s'. split_and!; try done. split; try done; try (rewrite ?Hpos, ?HY; lia).
    + rewrite Hi, HX. cbn. replace (x + w - w) with x by lia. split_and!; try lia. apply I.
    + rewrite Hi, wraps_cons, HY. cbn. lia.
    + by rewrite HS.
    + rewrite W1, W2. apply I.
    + rewrite W3. apply I.
  - set (s2 := set_xy (set_scr s p) 0 (next_char_y s)).
    destruct (line_down_spec s2) as (X & Y & S & B & P & W1 & W2 & W3 & W4); [done|cbn; lia|].
    destruct (push_spec (line_down s2) (mk_item c (80 - x) 1))
      as (s' & E & Hi & Hb & Hpos & HX & HY & HS & V1 & V2 & V3 & V4); [rewrite B; apply I|rewrite P; cbn; lia|].
    rewrite (items_same s2 (line_down s2)) in Hi by done. change (items s2) with (items s) in Hi.
    assert (Hsw : same_wait s s') by (split_and!; etrans; [done|done|done|done|done|done|done|done]).
    exists s'. unfold s2 in *. cbn in *. split_and!; try done; try congruence. split; try done.
    + rewrite HY, Y. lia.
    + rewrite Hpos, P. lia.
    + rewrite Hi, HX, X. cbn. replace (80 - (80 - x)) with x by lia. split_and!; try lia. apply I.
    + rewrite Hi, wraps_cons, HY, Y. cbn. lia.
    + by rewrite HS.
    + rewrite V1, V2, W1, W2. apply I.
    + rewrite V3, W3. apply I.
Qed.

(** The line typed so far, the last character first. *)
Definition chars (s : t) : list Z := displayed_char <$> items s.

Lemma type_char_spec s c : inv s -> term_buf_pos s < 127 ->
  exists s', type_char s c = Some s' /\ inv s' /\ chars s' = c :: chars s /\ same_wait s s'.
Proof.
  intros I Hp. pose proof (chain_x _ _ (inv_chain _ I)) as Hx. pose proof (inv_y _ I).
  unfold type_char, TERM_BUFFER_SIZE. rewrite (proj2 (Z.ltb_lt _ _)) by lia.
  destruct (showChar_mem (scr s) (next_char_x s) (next_char_y s) c) as (p & E & _ & Hok); [apply I|lia..|].
  unfold show_at. rewrite E. cbn [mbind option_bind]. cbv zeta. cbn [next_char_x next_char_y set_scr set_xy].
  rewrite (u32_small (next_char_x s + 1)) by lia. unfold SCREEN_WIDTH.
  destruct (advance_inv s (set_scr s p) c 1 I Hp Hok ltac:(lia) eq_refl) as [Hlt Hge].
  destruct (Z.eqb_spec (next_char_x s + 1) 80) as [E80|E80].
  - rewrite u32_small by lia. destruct Hge as (s' & E' & I' & Hi & W); [lia|]. cbn in E'.
    exists s'. split_and!; try done; try apply W. unfold chars. by rewrite Hi.
  - rewrite u32_small by lia. destruct Hlt as (s' & E' & I' & Hi & W); [lia|]. cbn in E'.
    replace (next_char_x s + 1 - next_char_x s) with 1 by lia.
    exists s'. split_and!; try done; try apply W. unfold chars. by rewrite Hi.
Qed.

Lemma tab_spec s : inv s -> term_buf_pos s < 127 ->
  exists s', nolock_tab_handler s = Some s' /\ inv s' /\ chars s' = 9 :: chars s /\ same_wait s s'.
Proof.
  intros I Hp. pose proof (chain_x _ _ (inv_chain _ I)) as Hx. pose proof (inv_y _ I).
  unfold nolock_tab_handler, TERM_BUFFER_SIZE. rewrite (proj2 (Z.leb_gt _ _)) by lia. cbv zeta.
  unfold TAB_WIDTH, SCREEN_WIDTH. cbn [next_char_x next_char_y set_xy].
  assert (Hm : 0 <= next_char_x s mod 4 < 4) by (apply Z.mod_pos_bound; lia).
  set (w := 4 - next_char_x s mod 4) in *. rewrite (u32_small (next_char_x s + w)) by lia.
  destruct (advance_inv s s 9 w I Hp (inv_scr _ I) ltac:(lia) (eq_sym (set_scr_id s))) as [Hlt Hge].
  destruct (Z.leb_spec 80 (next_char_x s + w)).
  - rewrite u32_small by lia. destruct Hge as (s' & E' & I' & Hi & W); [lia|].
    exists s'. split_and!; try done; try apply W. unfold chars. by rewrite Hi.
  - rewrite u32_small by lia. destruct Hlt as (s' & E' & I' & Hi & W); [lia|].
    replace (next_char_x s + w - next_char_x s) with w by lia.
    exists s'. split_and!; try done; try apply W. unfold chars. by rewrite Hi.
Qed.

(** The last item of a line that is not empty. *)
Lemma items_last s : inv s -> 0 < term_buf_pos s ->
  items s = aget (term_buf s) (term_buf_pos s - 1) :: items (set_pos s (term_buf_pos s - 1)).
Proof.
  intros I Hp. pose proof (inv_buf _ I). pose proof (inv_pos _ I). unfold items. cbn.
  replace (Z.to_nat (term_buf_pos s)) with (S (Z.to_nat (term_buf_pos s - 1))) by lia.
  erewrite take_S_r; [by rewrite reverse_snoc|]. unfold aget.
  apply list_lookup_lookup_total_lt. unfold alen in *. lia.
Qed.

Lemma backspace_spec s : inv s ->
  exists s', nolock_backspace_handler s = Some s' /\ inv s' /\ chars s' = tail (chars s) /\ same_wait s s'.
Proof.
  intros I. pose proof (inv_pos _ I) as Hpos. pose proof (inv_y _ I) as Hy.
  unfold nolock_backspace_handler. destruct (Z.ltb_spec 0 (term_buf_pos s)) as [Hp|Hp]; cycle 1.
  { exists s. split_and!; try done. unfold chars. by rewrite items_nil by lia. }
  pose proof (items_last s I Hp) as Hi. set (i := aget _ _) in *. cbv zeta.
  pose proof (inv_chain _ I) as Hc. pose proof (inv_wraps _ I) as Hw. rewrite Hi in Hc, Hw. rewrite wraps_cons in Hw.
  destruct Hc as (Hx & Ho & Hc).
  assert (Hwn : 0 <= wraps (items (set_pos s (term_buf_pos s - 1)))) by (unfold wraps, alen; lia).
  assert (Hfin : forall x y p, chain (items (set_pos s (term_buf_pos s - 1))) x -> 0 <= y < 25 ->
    wraps (items (set_pos s (term_buf_pos s - 1))) <= y -> screen_ok p ->
    inv (set_pos (set_scr (set_xy s x y) p) (term_buf_pos s - 1))).
  { intros x y p HC HY HW HS. split; try done; try apply I. cbn. lia. }
  assert (Hch : chars (set_pos s (term_buf_pos s - 1)) = tail (chars s)).
  { unfold chars. by rewrite Hi. }
  destruct (Z.eqb_spec (y_offset i) 0) as [E|E]; cbn [negb].
  - cbn [next_char_x next_char_y set_xy]. pose proof (chain_x _ _ Hc) as Hx'.
    rewrite u32_small by lia.
    destruct (erase_spec (Z.to_nat (next_char_x s + 1 - (next_char_x s - x_offset i)))
      (set_xy s (next_char_x s - x_offset i) (next_char_y s)) (next_char_x s - x_offset i) (next_char_y s))
      as (p & -> & Hok); [apply I|lia..|].
    eexists. split; [reflexivity|]. split; [|done]. apply Hfin; [done|lia|lia|done].
  - destruct Hc as [Hx0 Hc]. pose proof (chain_x _ _ Hc).
    destruct (clearLine_ok (scr s) (next_char_y s) (inv_scr _ I) Hy) as (p1 & -> & Hok1).
    cbn [mbind option_bind next_char_x next_char_y set_xy set_scr].
    unfold SCREEN_WIDTH. rewrite (u32_small (80 - x_offset i)), (u32_small (next_char_y s - 1)) by lia.
    destruct (erase_spec (Z.to_nat (80 - (80 - x_offset i)))
      (set_xy (set_scr s p1) (80 - x_offset i) (next_char_y s - 1)) (80 - x_offset i) (next_char_y s - 1))
      as (p & -> & Hok); [done|lia..|].
    eexists. split; [reflexivity|]. split; [|done]. apply (Hfin (80 - x_offset i) (next_char_y s - 1) p); [done|lia|lia|done].
Qed.

(** The first [n] bytes of the line, in the order typed. *)
Lemma finish_bytes s n : 0 <= n <= term_buf_pos s -> term_buf_pos s <= alen (term_buf s) ->
  (fun i => u8 (displayed_char (aget (term_buf s) i))) <$> seqZ 0 n = take (Z.to_nat n) (u8 <$> reverse (chars s)).
Proof.
  intros Hn Hb. unfold chars, items. rewrite <- fmap_reverse, reverse_involutive, <- !fmap_take, take_take.
  rewrite Nat.min_l by lia. rewrite <- list_fmap_compose.
  apply list_eq. intros k. rewrite !list_lookup_fmap. destruct (decide (k < Z.to_nat n)%nat) as [Hk|Hk].
  - rewrite lookup_take_lt by lia. rewrite lookup_seqZ_lt by lia. cbn.
    assert (Hl : (k < length (term_buf s))%nat) by (unfold alen in *; lia).
    rewrite (list_lookup_lookup_total_lt _ k) by done. cbn. unfold aget. by replace (Z.to_nat (0 + Z.of_nat k)) with k by lia.
  - rewrite lookup_take_ge by lia. rewrite lookup_seqZ_ge by lia. done.
Qed.

(** Enter: a waiting reader gets the line and its new line. *)
Lemma enter_spec s : inv s ->
  exists s' w, nolock_enter_handler s = Some (s', w) /\ inv s' /\ chars s' = [] /\
    UserWaitingRead s' = false /\ OwnedByPid s' = OwnedByPid s /\
    w = (if UserWaitingRead s then
           let line := u8 <$> reverse (chars s) ++ [10] in
           let n := if u32 (UserWaitingLen s) <? alen line then UserWaitingLen s else alen line in
           Some (OwnedByPid s, UserWaitingBuffer s, Z.max 0 n, take (Z.to_nat n) line)
         else None).
Proof.
  intros I. pose proof (inv_pos _ I) as Hpos. pose proof (inv_y _ I) as Hy.
  unfold nolock_enter_handler.
  assert (E0 : (if next_char_y s <? SCREEN_HEIGHT - 1 then set_xy s 0 (next_char_y s + 1)
    else set_scr (set_xy s 0 (next_char_y s)) (scrollDown (scr s))) = line_down (set_xy s 0 (next_char_y s))) by done.
  rewrite E0. clear E0. set (s2 := set_xy s 0 (next_char_y s)).
  destruct (line_down_spec s2) as (X & Y & S & B & P & W1 & W2 & W3 & W4); [apply I|cbn; lia|].
  destruct (push_spec (line_down s2) (mk_item 10 0 0))
    as (s' & E & Hi & Hb & Hpos' & HX & HY & HS & V1 & V2 & V3 & V4); [rewrite B; apply I|rewrite P; cbn; lia|].
  rewrite (items_same s2 (line_down s2)) in Hi by done. change (items s2) with (items s) in Hi.
  assert (Hch : chars s' = 10 :: chars s) by (unfold chars; by rewrite Hi).
  rewrite E. cbn [mbind option_bind].
  rewrite V1, W1. change (UserWaitingRead s2) with (UserWaitingRead s).
  assert (Hinv : forall w b n, (w = true -> b <> None) -> - 2 ^ 31 <= n < 2 ^ 31 -> inv (set_pos (set_wait s' (OwnedByPid s') w b n) 0)).
  { intros w b n Hwb Hn0. assert (Hx0 : next_char_x s' = 0) by (rewrite HX, X; done).
    assert (Hy0 : 0 <= next_char_y s' < 25) by (rewrite HY, Y; cbn; lia).
    split; cbn; try done.
    - by rewrite Hx0.
    - apply Hy0.
    - rewrite HS. done. }
  destruct (UserWaitingRead s) eqn:Er.
  - unfold helpFinishRead. cbn [UserWaitingBuffer UserWaitingLen set_wait].
    rewrite V2, W2. change (UserWaitingBuffer s2) with (UserWaitingBuffer s).
    pose proof (inv_wait _ I Er) as Hb0. destruct (UserWaitingBuffer s) as [b|] eqn:Eb; [|done].
    eexists _, _. split; [reflexivity|]. split; [by apply Hinv; [|rewrite V3, W3; apply I]|]. split; [done|]. split; [done|].
    split; [cbn; by rewrite V4, W4|]. cbv zeta. cbn [term_buf_pos set_wait].
    rewrite V3, W3. change (UserWaitingLen s2) with (UserWaitingLen s).
    assert (El : u8 <$> reverse (chars s) ++ [10] = u8 <$> reverse (chars s')) by by rewrite Hch, reverse_cons.
    rewrite El. assert (Ep : alen (u8 <$> reverse (chars s')) = term_buf_pos s').
    { unfold alen. rewrite length_fmap, length_reverse. unfold chars. rewrite length_fmap.
      apply items_len. rewrite Hb, Hpos', P. cbn. lia. }
    rewrite Ep. set (n := if _ <? _ then _ else _).
    assert (Hn : 0 <= n <= term_buf_pos s').
    { pose proof (inv_len _ I). assert (Hle : 0 <= term_buf_pos s' <= 128) by (rewrite Hpos', P; cbn; lia).
      subst n. destruct (Z.ltb_spec (u32 (UserWaitingLen s)) (term_buf_pos s')) as [Hlt|]; [|lia].
      unfold u32 in Hlt. destruct (Z.lt_ge_cases (UserWaitingLen s) 0); [|rewrite Z.mod_small in Hlt; lia].
      replace (UserWaitingLen s) with ((UserWaitingLen s + 2 ^ 32) + (-1) * 2 ^ 32) in Hlt by lia.
      rewrite Z.mod_add, Z.mod_small in Hlt by lia. lia. }
    assert (Hpl : term_buf_pos s' <= alen (term_buf s')) by (rewrite Hb, Hpos', P; cbn; lia).
    rewrite <- finish_bytes by done.
    by rewrite V4, W4.
  - eexists _, _. split; [reflexivity|]. split; [|split; [done|split; [cbn; rewrite V1, W1; exact Er|split; [|done]]]].
    + assert (Hx0 : next_char_x s' = 0) by (rewrite HX, X; done).
      assert (Hy0 : 0 <= next_char_y s' < 25) by (rewrite HY, Y; cbn; lia).
      split; cbn; try done.
      * by rewrite Hx0.
      * apply Hy0.
      * by rewrite HS.
      * rewrite V1, W1. cbn. by rewrite Er.
      * rewrite V3, W3. apply I.
    + cbn. by rewrite V4, W4.
Qed.

(** ** What a write shows: the layout of the text *)

(** The rows of all that was written, the last one unfinished. *)
Record doc := mk_doc { above : list (list Z); cur : list Z; col : Z }.

Definition blank_row : list Z := blanks 80.
Definition feed (d : doc) (x : Z) : doc := mk_doc (above d ++ [cur d]) blank_row x.
Definition lay (d : doc) (c : Z) : doc :=
  if c =? 0 then d
  else if (c =? 10) || (c =? 13) then feed d 0
  else if c =? 9 then
    let x := col d + (4 - col d mod 4) in
    if 80 <=? x then feed d (x mod 80) else mk_doc (above d) (cur d) x
  else
    let d := mk_doc (above d) (aset (aset (cur d) (2 * col d) (u8 c)) (2 * col d + 1) TEXT_STYLE) (col d + 1) in
    if col d =? 80 then feed d 0 else d.
Definition layout (d : doc) (text : list Z) : doc := foldl lay d text.

(** The screen shows the last 25 rows; those not reached yet are blank. *)
Record shows (s : t) (d : doc) : Prop := {
  shows_x : next_char_x s = col d;
  shows_y : next_char_y s = Z.min 24 (alen (above d));
  shows_rows : Forall (fun r => length r = 160%nat) (above d);
  shows_cur : length (cur d) = 160%nat;
  shows_screen : videoMem (scr s) =
    mjoin (drop (Z.to_nat (alen (above d) - next_char_y s)) (above d)) ++ cur d ++
    mjoin (replicate (Z.to_nat (24 - next_char_y s)) blank_row) }.

Lemma length_blank_row : length blank_row = 160%nat.
Proof. unfold blank_row. by rewrite length_blanks. Qed.

Lemma length_join_rows rows : Forall (fun r => length r = 160%nat) rows ->
  length (mjoin rows : list Z) = (160 * length rows)%nat.
Proof.
  induction rows as [|r rows IH]; intros Hr; [done|].
  apply list.Forall_cons in Hr as [Hr1 Hr]. specialize (IH Hr).
  change (mjoin (r :: rows)) with (r ++ mjoin rows). rewrite length_app, Hr1. cbn [length]. lia.
Qed.

(** A new line on the screen is a new row of the text. *)
Lemma feed_shows s d x : shows s d -> screen_ok (scr s) ->
  shows (line_down (set_xy s x (next_char_y s))) (feed d x).
Proof.
  intros [Hx Hy Hr Hc Hs] Hok.
  assert (Hlen : alen (above (feed d x)) = alen (above d) + 1) by (unfold alen; cbn; rewrite length_app; cbn; lia).
  destruct (line_down_spec (set_xy s x (next_char_y s))) as (X & Y & _); [done|unfold alen in *; cbn; lia|].
  split.
  - by rewrite X.
  - rewrite Y, Hlen. cbn. lia.
  - cbn. apply list.Forall_app. by repeat constructor.
  - apply length_blank_row.
  - rewrite Y, Hlen. cbn [next_char_y set_xy]. unfold line_down, SCREEN_HEIGHT. cbn [next_char_y set_xy].
    destruct (Z.ltb_spec (next_char_y s) (25 - 1)) as [Hlt|Hge]; cbn [scr set_xy set_scr feed above cur].
    + rewrite Hs, Z.min_r by lia.
      replace (alen (above d) - next_char_y s) with 0 by lia.
      replace (alen (above d) + 1 - (next_char_y s + 1)) with 0 by lia.
      change (Z.to_nat 0) with 0%nat. rewrite !drop_0, join_app. cbn [mjoin list_join]. rewrite app_nil_r.
      replace (Z.to_nat (24 - next_char_y s)) with (S (Z.to_nat (24 - (next_char_y s + 1)))) by lia.
      cbn [replicate mjoin list_join]. by rewrite <- app_assoc.
    + assert (next_char_y s = 24) as Ey by lia. rewrite Ey in *.
      destruct (scrollDown_mem (scr s) Hok) as [-> _]. rewrite Hs.
      change (Z.to_nat (24 - 24)) with 0%nat. change (Z.min 24 (24 + 1)) with 24.
      change (Z.to_nat (24 - 24)) with 0%nat. cbn [replicate mjoin list_join]. rewrite !app_nil_r.
      set (k := Z.to_nat (alen (above d) - 24)).
      replace (Z.to_nat (alen (above d) + 1 - 24)) with (S k) by lia.
      destruct (drop k (above d)) as [|r0 rest] eqn:Ed.
      { assert (E0 : length (drop k (above d)) = 0%nat) by by rewrite Ed.
        rewrite length_drop in E0. unfold k, alen in *. lia. }
      assert (Ek : drop (S k) (above d) = rest).
      { replace (S k) with (k + 1)%nat by lia. by rewrite <- drop_drop, Ed. }
      rewrite (drop_app_le (above d)) by (subst k; unfold alen in *; lia). rewrite Ek, join_app.
      assert (Hr0 : length r0 = 160%nat).
      { apply (list.Forall_drop _ k) in Hr. rewrite Ed in Hr. by apply list.Forall_cons in Hr as [? _]. }
      cbn [mjoin list_join]. rewrite app_nil_r, <- !app_assoc.
      rewrite drop_app_length' by done. by rewrite <- app_assoc.
Qed.

(** The cell the cursor stands on. *)
Lemma put_cell_shows s d c : shows s d -> 0 <= col d < 80 ->
  put_cell (videoMem (scr s)) (next_char_x s) (next_char_y s) c =
    mjoin (drop (Z.to_nat (alen (above d) - next_char_y s)) (above d)) ++
    aset (aset (cur d) (2 * col d) (u8 c)) (2 * col d + 1) TEXT_STYLE ++
    mjoin (replicate (Z.to_nat (24 - next_char_y s)) blank_row).
Proof.
  intros [Hx Hy Hr Hc Hs] Hcol. unfold put_cell. rewrite Hs, Hx.
  set (top := mjoin (drop _ _)). set (bot := mjoin (replicate _ _)).
  assert (Ht : length top = Z.to_nat (160 * next_char_y s)).
  { unfold top. rewrite length_join_rows by by apply Forall_drop.
    rewrite length_drop. unfold alen in *. lia. }
  unfold aset.
  replace (Z.to_nat (2 * (80 * next_char_y s + col d))) with (length top + Z.to_nat (2 * col d))%nat
    by (rewrite Ht; unfold alen in *; lia).
  replace (Z.to_nat (2 * (80 * next_char_y s + col d) + 1)) with (length top + Z.to_nat (2 * col d + 1))%nat
    by (rewrite Ht; unfold alen in *; lia).
  rewrite insert_app_r, insert_app_r. rewrite insert_app_l by (rewrite Hc; lia).
  by rewrite insert_app_l by (rewrite length_insert, Hc; lia).
Qed.

(** The state after a step of [nolock_putc]: the line is gone; [f] is what became
    of the text on the screen. *)
Definition put_ok (s s' : t) (f : doc -> doc) : Prop :=
  inv s' /\ term_buf_pos s' = 0 /\ same_wait s s' /\ forall d, shows s d -> shows s' (f d).

Lemma put_ok_cursor s s1 f :
  inv s -> term_buf_pos s1 = 0 -> alen (term_buf s1) = 128 -> screen_ok (scr s1) ->
  0 <= next_char_x s1 < 80 -> 0 <= next_char_y s1 < 25 -> same_wait s s1 ->
  (forall d, shows s d -> shows s1 (f d)) -> put_ok s (cursor s1) f.
Proof.
  intros I Hp1 Hb1 Hok1 Hx1 Hy1 W HD. pose proof W as (W1 & W2 & W3 & W4).
  assert (Hi : items (cursor s1) = []) by (apply items_nil; done).
  split; [split; try done|split; [done|split; [done|]]].
  - cbn. lia.
  - by rewrite Hi.
  - rewrite Hi. change (0 <= next_char_y s1). lia.
  - cbn. by apply setCursor_mem.
  - cbn. rewrite W1, W2. apply I.
  - cbn. rewrite W3. apply I.
  - intros d Hd. destruct (HD d Hd) as [X Y R C S]. split; try done. cbn.
    destruct (setCursor_mem (scr s1) (next_char_x s1) (next_char_y s1)) as [-> _]. done.
Qed.

Lemma put_ok_feed s s1 f x :
  inv s -> term_buf_pos s1 = 0 -> alen (term_buf s1) = 128 -> screen_ok (scr s1) ->
  0 <= next_char_y s1 < 25 -> same_wait s s1 -> (forall d, shows s d -> shows s1 (f d)) -> 0 <= x < 80 ->
  put_ok s (cursor (line_down (set_xy s1 x (next_char_y s1)))) (fun d => feed (f d) x).
Proof.
  intros I P1 B1 S1 Y1 (U1 & U2 & U3 & U4) D1 Hx1.
  destruct (line_down_spec (set_xy s1 x (next_char_y s1)) S1 Y1) as (X & Y & S & B & P & V1 & V2 & V3 & V4).
  apply put_ok_cursor; try done.
  - by rewrite P.
  - by rewrite B.
  - rewrite X. done.
  - rewrite Y. cbn. lia.
  - split_and!; [rewrite V1|rewrite V2|rewrite V3|rewrite V4]; done.
  - intros d Hd. apply feed_shows; auto.
Qed.

Lemma putc_spec s c : inv s -> exists s', nolock_putc s c = Some s' /\ put_ok s s' (fun d => lay d c).
Proof.
  intros I. pose proof (inv_y _ I) as Hy. pose proof (chain_x _ _ (inv_chain _ I)) as Hx.
  pose proof (inv_scr _ I) as Hok. pose proof (inv_buf _ I) as Hb.
  unfold nolock_putc, lay. cbv zeta. set (s0 := set_pos s 0).
  assert (Hd0 : forall d, shows s d -> shows s0 d) by by intros d [].
  destruct (c =? 0).
  { eexists. split; [reflexivity|]. by apply put_ok_cursor. }
  destruct ((c =? 10) || (c =? 13)).
  { eexists. split; [reflexivity|]. by apply (put_ok_feed s s0 (fun d => d)). }
  destruct (c =? 9).
  - cbn [mbind option_bind next_char_x next_char_y set_xy]. unfold TAB_WIDTH, SCREEN_WIDTH.
    change (next_char_x s0) with (next_char_x s). change (next_char_y s0) with (next_char_y s).
    pose proof (Z.mod_pos_bound (next_char_x s) 4 ltac:(lia)).
    rewrite (u32_small (next_char_x s + _)) by lia. set (w := next_char_x s + (4 - next_char_x s mod 4)) in *.
    destruct (Z.leb_spec 80 w) as [Hw|Hw]; (eexists; split; [reflexivity|]).
    + destruct (put_ok_feed s s0 (fun d => d) (w mod 80)) as (? & ? & ? & HD); try done; [apply Z.mod_pos_bound; lia|].
      split_and!; try done. intros d Hd. rewrite <- (shows_x _ _ Hd). fold w.
      rewrite (proj2 (Z.leb_le _ _)) by lia. by apply HD.
    + apply put_ok_cursor; try done; [cbn; lia|]. intros d Hd. rewrite <- (shows_x _ _ Hd). fold w.
      rewrite (proj2 (Z.leb_gt _ _)) by lia. destruct Hd. by split.
  - destruct (showChar_mem (scr s) (next_char_x s) (next_char_y s) c Hok Hx Hy) as (p & E & Em & Hp).
    unfold show_at. change (scr s0) with (scr s). change (next_char_x s0) with (next_char_x s).
    change (next_char_y s0) with (next_char_y s). rewrite E. cbn [mbind option_bind next_char_x next_char_y set_xy set_scr].
    change (next_char_x s0) with (next_char_x s). change (next_char_y s0) with (next_char_y s).
    rewrite (u32_small (next_char_x s + 1)) by lia. cbn [col above cur].
    set (s1 := set_xy (set_scr s0 p) (next_char_x s + 1) (next_char_y s)).
    set (row := fun d => aset (aset (cur d) (2 * col d) (u8 c)) (2 * col d + 1) TEXT_STYLE).
    assert (Hd1 : forall d, shows s d -> shows s1 (mk_doc (above d) (row d) (col d + 1))).
    { intros d Hd. rewrite (put_cell_shows s d c Hd) in Em by (rewrite <- (shows_x _ _ Hd); lia).
      destruct Hd as [X Y R C S]. split; try done.
      - cbn. by rewrite X.
      - unfold row. cbn. by rewrite !length_aset. }
    destruct (Z.eqb_spec (next_char_x s + 1) SCREEN_WIDTH) as [E8|E8]; unfold SCREEN_WIDTH in E8;
      (eexists; split; [reflexivity|]).
    + destruct (put_ok_feed s s1 (fun d => mk_doc (above d) (row d) (col d + 1)) 0) as (? & ? & ? & HD); try done.
      split_and!; try done. intros d Hd. rewrite (proj2 (Z.eqb_eq _ 80)) by (rewrite <- (shows_x _ _ Hd); done).
      by apply HD.
    + apply put_ok_cursor; try done; [cbn; lia|]. intros d Hd.
      rewrite (proj2 (Z.eqb_neq _ 80)) by (rewrite <- (shows_x _ _ Hd); done). by apply Hd1.
Qed.

Lemma write_loop_spec text : forall s i nbytes rest,
  inv s -> Forall (fun c => c <> 0) text -> rest = [] \/ (exists r, rest = 0 :: r) ->
  exists s', write_loop s (text ++ rest) i nbytes
      = Some (s', match rest with [] => nbytes | _ => i + alen text end) /\
    inv s' /\ same_wait s s' /\ (text <> [] -> term_buf_pos s' = 0) /\
    (forall d, shows s d -> shows s' (layout d text)).
Proof.
  induction text as [|c text IH]; intros s i nbytes rest I Ht Hr.
  - exists s. split_and!; try done. destruct Hr as [->|[r ->]]; [done|].
    cbn [app write_loop Z.eqb]. change (alen (@nil Z)) with 0. by rewrite Z.add_0_r.
  - apply list.Forall_cons in Ht as [Hc Ht]. cbn [app write_loop]. rewrite (proj2 (Z.eqb_neq c 0)) by done.
    destruct (putc_spec s c I) as (s1 & E & I1 & P1 & W1 & D1). rewrite E. cbn [mbind option_bind].
    destruct (IH s1 (i + 1) nbytes rest I1 Ht Hr) as (s' & E' & I' & W' & P' & D'). exists s'. split_and!; try done.
    + rewrite E'. destruct rest; [done|]. do 2 f_equal. unfold alen. cbn [length]. lia.
    + destruct W1 as (? & ? & ? & ?), W' as (? & ? & ? & ?). split_and!; congruence.
    + intros _. destruct text; [|by apply P']. cbn in E'. destruct Hr as [->|[r ->]]; by injection E' as <-.
    + intros d Hd. cbn. by apply D', D1.
Qed.

(** ** Keys *)

Inductive stroke := Char (c : Z) (shift : bool) | Tab | Back.
Definition kkc_of (k : stroke) : Z :=
  match k with
  | Char c shift => Z.lor c (if shift then KKC_SHIFT else 0)
  | Tab => KKC_TAB
  | Back => KKC_BACKSPACE
  end.
(** Codes of the keyboard table: 7-bit characters. *)
Definition stroke_ok (k : stroke) : Prop := match k with Char c _ => 0 <= c < 128 | _ => True end.

Definition plain_kkc (kkc : Z) : bool :=
  Z.land (Z.land kkc (not32 KKC_ASCII_MASK)) (not32 KKC_SHIFT) =? 0.

Definition char_check (shift caps : bool) (c : Z) : bool :=
  let kkc := kkc_of (Char c shift) in
  plain_kkc kkc && match key_char kkc caps with Some c' => (0 <=? c') && (c' <? 128) | None => false end.

Lemma char_checks : forallb (fun sh => forallb (fun caps => forallb (char_check sh caps) (seqZ 0 128)) [false; true]) [false; true] = true.
Proof. vm_compute. reflexivity. Qed.

(** Every character key is printable text, whatever the shifts. *)
Lemma key_char_ok c shift caps : 0 <= c < 128 ->
  plain_kkc (kkc_of (Char c shift)) = true /\
  exists c', key_char (kkc_of (Char c shift)) caps = Some c' /\ 0 <= c' < 128.
Proof.
  intros Hc. pose proof char_checks as H. rewrite forallb_forall in H.
  specialize (H shift ltac:(destruct shift; simpl; tauto)). rewrite forallb_forall in H.
  specialize (H caps ltac:(destruct caps; simpl; tauto)). rewrite forallb_forall in H.
  specialize (H c ltac:(apply list_elem_of_In, elem_of_seqZ; lia)).
  unfold char_check in H. apply andb_true_iff in H as [H1 H2]. split; [done|].
  destruct (key_char _ _) as [c'|]; [|done]. exists c'. split; [done|].
  apply andb_true_iff in H2 as [?%Z.leb_le ?%Z.ltb_lt]. lia.
Qed.

(** What a key does to the line, which holds at most 127 characters. *)
Definition edit (caps : bool) (line : list Z) (k : stroke) : list Z :=
  match k with
  | Char c shift => if alen line <? 127 then default 0 (key_char (kkc_of k) caps) :: line else line
  | Tab => if alen line <? 127 then 9 :: line else line
  | Back => tail line
  end.

Lemma chars_len s : inv s -> alen (chars s) = term_buf_pos s.
Proof.
  intros I. unfold chars, alen. rewrite length_fmap. apply items_len. rewrite (inv_buf _ I).
  pose proof (inv_pos _ I). lia.
Qed.

Lemma cursor_spec s : inv s -> inv (cursor s) /\ chars (cursor s) = chars s /\ same_wait s (cursor s).
Proof. intros I. destruct (cursor_inv s I) as [? E]. split; [done|]. split; [|done]. unfold chars. by rewrite E. Qed.

Lemma same_wait_trans s1 s2 s3 : same_wait s1 s2 -> same_wait s2 s3 -> same_wait s1 s3.
Proof. intros (?&?&?&?) (?&?&?&?). split_and!; congruence. Qed.

Lemma key_stroke_spec s k caps : inv s -> stroke_ok k ->
  exists s', key s (kkc_of k) caps = Some (s', None) /\ inv s' /\ chars s' = edit caps (chars s) k /\ same_wait s s'.
Proof.
  intros I Hk. pose proof (chars_len s I) as Hl. pose proof (inv_pos _ I).
  assert (Hend : forall s1, inv s1 -> chars s1 = edit caps (chars s) k -> same_wait s s1 ->
    exists s', Some (cursor s1, @None wakeup) = Some (s', None) /\ inv s' /\ chars s' = edit caps (chars s) k /\ same_wait s s').
  { intros s1 I1 E1 W1. destruct (cursor_spec s1 I1) as (I2 & E2 & W2). eexists. split; [reflexivity|].
    split; [done|]. rewrite E2. split; [done|]. by eapply same_wait_trans. }
  destruct k as [c shift| |]; unfold key.
  - destruct (key_char_ok c shift caps Hk) as (Hp & c' & Hc & _). unfold plain_kkc in Hp. rewrite Hp. cbn [negb].
    cbn [edit] in *. rewrite Hl in *. unfold TERM_BUFFER_SIZE. change (128 - 1) with 127.
    destruct (Z.ltb_spec (term_buf_pos s) 127).
    + rewrite Hc in *. cbn [mbind option_bind]. destruct (type_char_spec s c' I ltac:(lia)) as (s1 & -> & I1 & E1 & W1).
      by apply Hend.
    + by apply Hend.
  - change (kkc_of Tab) with KKC_TAB. cbn [Z.land KKC_TAB].
    change (negb (Z.land (Z.land KKC_TAB (not32 KKC_ASCII_MASK)) (not32 KKC_SHIFT) =? 0)) with true.
    change (negb (Z.land KKC_TAB (not32 KKC_SPECIAL_MASK) =? 0)) with false. cbn iota.
    change (Z.land KKC_TAB KKC_SPECIAL_MASK =? KKC_BACKSPACE) with false.
    change (Z.land KKC_TAB KKC_SPECIAL_MASK =? KKC_TAB) with true. cbn iota. cbn [edit] in *. rewrite Hl in *.
    destruct (Z.ltb_spec (term_buf_pos s) 127).
    + destruct (tab_spec s I ltac:(lia)) as (s1 & -> & I1 & E1 & W1). by apply Hend.
    + unfold nolock_tab_handler, TERM_BUFFER_SIZE. rewrite (proj2 (Z.leb_le _ _)) by lia. by apply Hend.
  - change (kkc_of Back) with KKC_BACKSPACE.
    change (negb (Z.land (Z.land KKC_BACKSPACE (not32 KKC_ASCII_MASK)) (not32 KKC_SHIFT) =? 0)) with true.
    change (negb (Z.land KKC_BACKSPACE (not32 KKC_SPECIAL_MASK) =? 0)) with false. cbn iota.
    change (Z.land KKC_BACKSPACE KKC_SPECIAL_MASK =? KKC_BACKSPACE) with true. cbn iota.
    destruct (backspace_spec s I) as (s1 & -> & I1 & E1 & W1). by apply Hend.
Qed.

Lemma key_enter s caps : inv s ->
  exists s' w, nolock_enter_handler s = Some (s', w) /\ key s KKC_ENTER caps = Some (cursor s', w).
Proof.
  intros I. destruct (enter_spec s I) as (s' & w & E & _). exists s', w. split; [done|].
  unfold key.
  change (negb (Z.land (Z.land KKC_ENTER (not32 KKC_ASCII_MASK)) (not32 KKC_SHIFT) =? 0)) with true.
  change (negb (Z.land KKC_ENTER (not32 KKC_SPECIAL_MASK) =? 0)) with false. cbn iota.
  change (Z.land KKC_ENTER KKC_SPECIAL_MASK =? KKC_BACKSPACE) with false.
  change (Z.land KKC_ENTER KKC_SPECIAL_MASK =? KKC_TAB) with false.
  change (Z.land KKC_ENTER KKC_SPECIAL_MASK =? KKC_ENTER) with true. cbn iota. by rewrite E.
Qed.

(** Several keys. *)
Fixpoint keys (s : t) (caps : bool) (ks : list stroke) : option t :=
  match ks with
  | [] => Some s
  | k :: ks => '(s, _) ← key s (kkc_of k) caps; keys s caps ks
  end.

Lemma keys_spec caps ks : forall s, inv s -> Forall stroke_ok ks ->
  exists s', keys s caps ks = Some s' /\ inv s' /\ chars s' = foldl (edit caps) (chars s) ks /\ same_wait s s'.
Proof.
  induction ks as [|k ks IH]; intros s I Hk; [by exists s|]. apply list.Forall_cons in Hk as [Hk1 Hk].
  destruct (key_stroke_spec s k caps I Hk1) as (s1 & E & I1 & C1 & W1). cbn [keys foldl]. rewrite E.
  cbn [mbind option_bind]. destruct (IH s1 I1 Hk) as (s' & E' & I' & C' & W').
  exists s'. rewrite C1 in C'. split; [done|]. split; [done|]. split; [done|]. by eapply same_wait_trans.
Qed.

Lemma term_init_inv : inv init.
Proof. split; try (vm_compute; by split_and!); try done; vm_compute; by split. Qed.

Lemma init_shows : shows init (mk_doc [] blank_row 0).
Proof. by split. Qed.

Lemma term_read_spec s pid buf n : inv s -> buf <> None -> - 2 ^ 31 <= n < 2 ^ 31 -> inv (read s pid buf n).1.
Proof.
  intros I Hb Hn. assert (Hgo : forall s1, inv s1 -> inv (
    if term_buf_pos s1 <? u32 n then (set_wait s1 (OwnedByPid s1) true buf n, Blocks)
    else let '(s, n, bs) := helpFinishRead s1 buf n in (s, Returns n bs)).1).
  { intros s1 I1. destruct (_ <? _); cbn.
    - destruct I1. by split.
    - unfold helpFinishRead. destruct buf; [|done]. cbn. pose proof (inv_y _ I1).
      pose proof (chain_x _ _ (inv_chain _ I1)).
      assert (Hi : items (set_pos s1 0) = []) by done.
      destruct I1. split; try done; rewrite ?Hi; try done. change (0 <= next_char_y s1). lia. }
  unfold read. destruct (OwnedByPid s =? -1); [|destruct (negb _); [done|by apply Hgo]].
  apply Hgo. destruct I. by split.
Qed.

(** ** Properties *)

Inductive event :=
  | EKey (kkc : Z) (caps : bool) | EWrite (buf : list Z) | ERead (pid : Z) (buf : option Z) (n : Z)
  | EOwner (upid : Z) | ECls | EShow | EHide.

Definition handle (s : t) (e : event) : option t :=
  match e with
  | EKey kkc caps => '(s, _) ← key s kkc caps; Some s
  | EWrite buf => '(s, _) ← write s buf (alen buf); Some s
  | ERead pid buf n => Some (read s pid buf n).1
  | EOwner upid => Some (setOwner s upid)
  | ECls => Some (nolock_cls s)
  | EShow => Some (set_scr s (show (scr s)))
  | EHide => Some (set_scr s (hide (scr s)))
  end.

(** 7-bit characters; a buffer that is not null; an [int32_t] length. *)
Definition event_ok (e : event) : Prop :=
  match e with
  | EKey kkc _ => Z.land kkc KKC_ASCII_MASK < 128
  | ERead _ buf n => buf <> None /\ - 2 ^ 31 <= n < 2 ^ 31
  | _ => True
  end.

Fixpoint handles (s : t) (es : list event) : option t :=
  match es with [] => Some s | e :: es => s ← handle s e; handles s es end.

Lemma key_inv s kkc caps : inv s -> Z.land kkc KKC_ASCII_MASK < 128 ->
  exists s' w, key s kkc caps = Some (s', w) /\ inv s'.
Proof.
  intros I Hk. assert (Hend : forall s1 (w : option wakeup), inv s1 ->
    exists s' w', Some (cursor s1, w) = Some (s', w') /\ inv s').
  { intros s1 w I1. exists (cursor s1), w. split; [done|]. by apply cursor_spec. }
  pose proof (inv_pos _ I). pose proof (inv_y _ I). unfold key. destruct (negb _).
  - destruct (negb _); [destruct (_ =? _)|].
    + apply Hend. destruct I. split; try done; cbn; try lia. by apply clearScreen_mem.
    + by apply Hend.
    + cbv zeta. destruct (_ =? _); [|destruct (_ =? _); [|destruct (_ =? _)]].
      * destruct (backspace_spec s I) as (s1 & -> & I1 & _). by apply Hend.
      * destruct (decide (term_buf_pos s < 127)).
        -- destruct (tab_spec s I ltac:(lia)) as (s1 & -> & I1 & _). by apply Hend.
        -- unfold nolock_tab_handler, TERM_BUFFER_SIZE. rewrite (proj2 (Z.leb_le _ _)) by lia. by apply Hend.
      * destruct (enter_spec s I) as (s1 & w & -> & I1 & _). by apply Hend.
      * by apply Hend.
  - destruct (_ <? _) eqn:Ep; [|by apply Hend]. apply Z.ltb_lt in Ep. unfold TERM_BUFFER_SIZE in Ep.
    assert (Hc : is_Some (key_char kkc caps)).
    { unfold key_char. destruct (Z.land kkc KKC_SHIFT =? 0); [by eexists|].
      destruct (anth ascii_shift_table (Z.land kkc KKC_ASCII_MASK)) as [up|] eqn:E; [by eexists|].
      unfold anth in E. assert (0 <= Z.land kkc KKC_ASCII_MASK) by (apply Z.land_nonneg; right; done).
      rewrite (proj2 (Z.leb_le 0 _)) in E by done. apply lookup_ge_None in E.
      change (length ascii_shift_table) with 128%nat in E. lia. }
    destruct Hc as [c ->]. cbn [mbind option_bind].
    destruct (type_char_spec s c I ltac:(lia)) as (s1 & -> & I1 & _). by apply Hend.
Qed.

(** ** Only [show] and [hide] change where the painter draws *)

Lemma set_videoMem_loaded p m : isLoadedInVmem (set_videoMem p m) = isLoadedInVmem p.
Proof. unfold set_videoMem. by destruct (isLoadedInVmem p) eqn:E. Qed.
Lemma helpSetCursor_loaded p x y : isLoadedInVmem (helpSetCursor p x y) = isLoadedInVmem p.
Proof. unfold helpSetCursor. by destruct (SCREEN_WIDTH <=? x), (SCREEN_HEIGHT <=? y). Qed.
Lemma setCursor_loaded p x y : isLoadedInVmem (setCursor p x y) = isLoadedInVmem p.
Proof. unfold setCursor. cbv zeta. destruct (negb _); [done|]. by rewrite helpSetCursor_loaded. Qed.
Lemma clearScreen_loaded p : isLoadedInVmem (clearScreen p) = isLoadedInVmem p.
Proof. unfold clearScreen. by rewrite setCursor_loaded, set_videoMem_loaded. Qed.
Lemma scrollDown_loaded p : isLoadedInVmem (scrollDown p) = isLoadedInVmem p.
Proof. apply set_videoMem_loaded. Qed.

Definition loaded (s : t) : bool := isLoadedInVmem (scr s).

Lemma showChar_loaded p x y c p' : showChar p x y c = Some p' -> isLoadedInVmem p' = isLoadedInVmem p.
Proof. unfold showChar. cbv zeta. intros H. destruct (_ <? _); [|done]. injection H as <-. apply set_videoMem_loaded. Qed.
Lemma clearLine_loaded p y p' : clearLine p y = Some p' -> isLoadedInVmem p' = isLoadedInVmem p.
Proof. unfold clearLine. cbv zeta. intros H. destruct (_ <=? _)%nat; [|done]. injection H as <-. apply set_videoMem_loaded. Qed.
Lemma line_down_loaded s : loaded (line_down s) = loaded s.
Proof. unfold line_down. destruct (_ <? _); [done|]. apply scrollDown_loaded. Qed.
Lemma push_loaded s r s' : push s r = Some s' -> loaded s' = loaded s.
Proof. unfold push. destruct (_ <? _); [|done]. by injection 1 as <-. Qed.
Lemma show_at_loaded s x y c s' : show_at s x y c = Some s' -> loaded s' = loaded s.
Proof.
  unfold show_at. destruct (showChar _ _ _ _) as [p|] eqn:E; [|done]. injection 1 as <-. by apply showChar_loaded in E.
Qed.
Lemma erase_loaded n : forall s j y s', erase n s j y = Some s' -> loaded s' = loaded s.
Proof.
  induction n as [|n IH]; intros s j y s' H; cbn [erase] in H; [by injection H as <-|].
  destruct (show_at _ _ _ _) as [s1|] eqn:E; [|done]. apply IH in H. by rewrite H, (show_at_loaded _ _ _ _ _ E).
Qed.
Lemma helpFinishRead_loaded s b n : loaded (helpFinishRead s b n).1.1 = loaded s.
Proof. unfold helpFinishRead. by destruct b. Qed.

Lemma type_char_loaded s c s' : type_char s c = Some s' -> loaded s' = loaded s.
Proof.
  unfold type_char. destruct (_ <? _); [|by injection 1 as <-].
  destruct (show_at _ _ _ _) as [s1|] eqn:E; [|done]. apply show_at_loaded in E. cbn [mbind option_bind].
  destruct (_ =? _); intros H%push_loaded; rewrite H; [rewrite line_down_loaded|]; exact E.
Qed.
Lemma tab_loaded s s' : nolock_tab_handler s = Some s' -> loaded s' = loaded s.
Proof.
  unfold nolock_tab_handler. destruct (_ <=? _); [by injection 1 as <-|]. cbv zeta.
  destruct (_ <=? _); intros H%push_loaded; rewrite H; [by rewrite line_down_loaded|done].
Qed.
Lemma backspace_loaded s s' : nolock_backspace_handler s = Some s' -> loaded s' = loaded s.
Proof.
  unfold nolock_backspace_handler. destruct (_ <? _); [|by injection 1 as <-]. cbv zeta.
  destruct (negb _).
  - destruct (clearLine _ _) as [p|] eqn:E; [|done]. cbn [mbind option_bind].
    destruct (erase _ _ _ _) as [s1|] eqn:E1; [|done]. injection 1 as <-.
    apply clearLine_loaded in E. apply erase_loaded in E1. change (loaded s1 = loaded s). rewrite E1. exact E.
  - destruct (erase _ _ _ _) as [s1|] eqn:E1; [|done]. injection 1 as <-. by apply erase_loaded in E1.
Qed.
Lemma enter_loaded s s' w : nolock_enter_handler s = Some (s', w) -> loaded s' = loaded s.
Proof.
  unfold nolock_enter_handler. cbv zeta.
  assert (Hl : forall s1, loaded s1 = loaded s ->
    (s1 ← push s1 (mk_item 10 0 0);
      if UserWaitingRead s1 then
        let s1 := set_wait s1 (OwnedByPid s1) false (UserWaitingBuffer s1) (UserWaitingLen s1) in
        let '(s2, n, bs) := helpFinishRead s1 (UserWaitingBuffer s1) (UserWaitingLen s1) in
        Some (s2, Some (OwnedByPid s2, UserWaitingBuffer s2, n, bs))
      else Some (set_pos s1 0, None)) = Some (s', w) -> loaded s' = loaded s).
  { intros s1 Hl H. destruct (push s1 _) as [s2|] eqn:E; [|done]. apply push_loaded in E. cbn [mbind option_bind] in H.
    rewrite <- Hl, <- E. destruct (UserWaitingRead s2); [|by injection H as <-].
    match type of H with context [helpFinishRead ?a ?b ?c] => pose proof (helpFinishRead_loaded a b c) as Hf end.
    destruct (helpFinishRead _ _ _) as [[s3 n] bs]. injection H as <-. exact Hf. }
  destruct (_ <? _); apply Hl; [done|]. apply scrollDown_loaded.
Qed.

Lemma key_loaded s kkc caps s' w : key s kkc caps = Some (s', w) -> loaded s' = loaded s.
Proof.
  unfold key. intros H.
  match type of H with mbind _ ?m = _ => destruct m as [[s1 w1]|] eqn:E; [|done] end.
  assert (loaded s' = loaded s1) as ->.
  { cbn in H. injection H as <- _. apply setCursor_loaded. }
  clear H. revert E. repeat case_match; intros E.
  all: try (injection E as <- _; (reflexivity || apply clearScreen_loaded)).
  - destruct (nolock_backspace_handler s) as [s2|] eqn:E2; [|done]. injection E as <- _. by apply backspace_loaded.
  - destruct (nolock_tab_handler s) as [s2|] eqn:E2; [|done]. injection E as <- _. by apply tab_loaded.
  - by apply enter_loaded in E.
  - destruct (key_char kkc caps) as [c|]; [|done]. cbn [mbind option_bind] in E.
    destruct (type_char s c) as [s2|] eqn:E2; [|done]. injection E as <- _. by apply type_char_loaded in E2.
Qed.

(** Where a byte string holds its first NUL. *)
Lemma split_nul buf : exists w rest, buf = w ++ rest /\ Forall (fun c => c <> 0) w /\ (rest = [] \/ exists r, rest = 0 :: r).
Proof.
  induction buf as [|c buf (w & rest & -> & Hw & Hr)]; [exists [], []; by split_and!; [| |left]|].
  destruct (decide (c = 0)) as [->|Hc].
  - exists [], (0 :: w ++ rest). split_and!; [done|done|right; by eexists].
  - exists (c :: w), rest. split_and!; [done|by constructor|done].
Qed.

Lemma handle_inv s e : inv s -> event_ok e -> exists s', handle s e = Some s' /\ inv s'.
Proof.
  intros I He. destruct e as [kkc caps|buf|pid buf n|upid| | |]; cbn [handle].
  - destruct (key_inv s kkc caps I He) as (s' & w & -> & I'). by exists s'.
  - destruct (split_nul buf) as (w & rest & -> & Hw & Hr). unfold write.
    destruct (write_loop_spec w s 0 (alen (w ++ rest)) rest I Hw Hr) as (s' & -> & I' & _). by exists s'.
  - destruct He as [Hb Hn]. eexists. split; [reflexivity|]. by apply term_read_spec.
  - eexists. split; [reflexivity|]. destruct I. by split.
  - eexists. split; [reflexivity|]. apply cursor_inv. destruct I. split; try done; cbn; try lia.
    by apply clearScreen_mem.
  - eexists. split; [reflexivity|]. destruct I as [? ? ? ? ? Hs ? ?]. split; try done. cbn. unfold show.
    destruct (isLoadedInVmem _); [done|]. apply helpSetCursor_mem. destruct Hs. by split.
  - eexists. split; [reflexivity|]. destruct I as [? ? ? ? ? Hs ? ?]. split; try done. cbn. unfold hide.
    destruct (negb _); [done|]. destruct Hs. by split.
Qed.

(** C27: Whatever is typed, written, read or switched, and in whatever order, the terminal
    never writes outside its line buffer or the screen memory, and its cursor stays
    on the screen. *)
Theorem terminal_stays_in_bounds (es : list event) :
  Forall event_ok es ->
  exists s, handles init es = Some s /\ 0 <= next_char_x s < 80 /\ 0 <= next_char_y s < 25 /\
    0 <= term_buf_pos s < 128.
Proof.
  assert (Hgen : forall s, inv s -> Forall event_ok es -> exists s', handles s es = Some s' /\ inv s').
  { induction es as [|e es IH]; intros s I He; [by exists s|]. apply list.Forall_cons in He as [He1 He].
    destruct (handle_inv s e I He1) as (s1 & E & I1). cbn [handles]. rewrite E. by apply IH. }
  intros He. destruct (Hgen init term_init_inv He) as (s & E & I). exists s. split; [done|].
  pose proof (chain_x _ _ (inv_chain _ I)). pose proof (inv_y _ I). pose proof (inv_pos _ I). lia.
Qed.

Lemma terminal_stays_in_bounds_witness :
  exists s, handles init [EKey 97 false; EKey KKC_TAB false; EWrite [104; 10]; EKey KKC_BACKSPACE true] = Some s.
Proof.
  destruct (terminal_stays_in_bounds [EKey 97 false; EKey KKC_TAB false; EWrite [104; 10]; EKey KKC_BACKSPACE true])
    as (s & E & _); [repeat constructor|by exists s].
Defined.

(** The line discipline: the process that waits gets the line as typed and edited,
    with its new line, cut to the length it asked for; nothing else of the line is
    kept. *)
Lemma line_discipline (s : t) (caps : bool) (ks : list stroke) :
  inv s -> chars s = [] -> UserWaitingRead s = true -> Forall stroke_ok ks ->
  0 < UserWaitingLen s -> 
  let line := reverse (foldl (edit caps) [] ks) ++ [10] in
  exists s1 s2 n, keys s caps ks = Some s1 /\
    key s1 KKC_ENTER caps = Some (s2, Some (OwnedByPid s, UserWaitingBuffer s, n, take (Z.to_nat n) (u8 <$> line))) /\
    n = Z.min (UserWaitingLen s) (alen line) /\ chars s2 = [] /\ UserWaitingRead s2 = false.
Proof.
  intros I Hc Hw Hk Hn line. destruct (keys_spec caps ks s I Hk) as (s1 & E1 & I1 & C1 & W1 & W2 & W3 & W4).
  rewrite Hc in C1. destruct (key_enter s1 caps I1) as (s2 & w & E2 & E3).
  destruct (enter_spec s1 I1) as (s2' & w' & E2' & I2 & C2 & V1 & V2 & Ew).
  rewrite E2 in E2'. injection E2' as <- <-. rewrite W1, Hw, C1, W2, W3, W4 in Ew. cbv zeta in Ew.
  pose proof (inv_len _ I). rewrite u32_small in Ew by lia.
  exists s1, (cursor s2), (Z.min (UserWaitingLen s) (alen line)). split; [done|].
  rewrite E3, Ew. fold line.
  assert (El : alen (u8 <$> line) = alen line) by (unfold alen; by rewrite length_fmap).
  rewrite El. split_and!; try done.
  - do 3 f_equal. destruct (Z.ltb_spec (UserWaitingLen s) (alen line)).
    + rewrite Z.min_l by lia. by rewrite Z.max_r by lia.
    + rewrite Z.min_r by lia. by rewrite Z.max_r by (unfold alen; lia).
Qed.

Lemma line_discipline_witness :
  exists s1 s2, keys (read init 3 (Some 100) 10).1 false [Char 97 true; Char 98 false; Back; Tab] = Some s1 /\
    key s1 KKC_ENTER false = Some (s2, Some (3, Some 100, 3, [65; 9; 10])).
Proof.
  destruct (line_discipline (read init 3 (Some 100) 10).1 false [Char 97 true; Char 98 false; Back; Tab])
    as (s1 & s2 & n & E1 & E2 & En & _).
  - apply term_read_spec; [apply term_init_inv|done|lia].
  - reflexivity.
  - reflexivity.
  - repeat constructor; simpl; lia.
  - done.
  - exists s1, s2. split; [exact E1|]. rewrite E2, En. vm_compute. reflexivity.
Defined.

(** C22: A write of text without NUL takes all of it, and the screen is the last 25 rows
    of the layout of what was written: rows of 80 columns, broken at new lines, tabs
    every 4 columns. *)
Theorem screen_shows_last_rows (s : t) (d : doc) (text : list Z) :
  inv s -> shows s d -> Forall (fun c => c <> 0) text ->
  exists s', write s text (alen text) = Some (s', alen text) /\ inv s' /\ shows s' (layout d text).
Proof.
  intros I Hd Ht. destruct (write_loop_spec text s 0 (alen text) [] I Ht (or_introl eq_refl))
    as (s' & E & I' & _ & _ & D). exists s'. rewrite app_nil_r in E. split_and!; auto.
Qed.

Lemma screen_shows_last_rows_witness :
  exists s', write init [104; 105; 10; 33] 4 = Some (s', 4) /\ (next_char_x s', next_char_y s') = (1, 1).
Proof.
  destruct (screen_shows_last_rows init (mk_doc [] blank_row 0) [104; 105; 10; 33]) as (s' & E & _ & [X Y _ _ _]).
  - apply term_init_inv.
  - apply init_shows.
  - by repeat constructor.
  - exists s'. split; [exact E|]. by rewrite X, Y.
Defined.

(** A NUL ends a write: what follows it is dropped, and the count tells it. *)
Theorem write_stops_at_nul (s : t) (d : doc) (text rest : list Z) :
  inv s -> shows s d -> Forall (fun c => c <> 0) text ->
  exists s', write s (text ++ 0 :: rest) (alen (text ++ 0 :: rest)) = Some (s', alen text) /\
    shows s' (layout d text).
Proof.
  intros I Hd Ht. destruct (write_loop_spec text s 0 (alen (text ++ 0 :: rest)) (0 :: rest) I Ht)
    as (s' & E & I' & _ & _ & D); [right; by eexists|]. exists s'. split; [exact E|auto].
Qed.
End Terminal.
