(* ===== verification/Keyboard.v ===== *)
(** * The keyboard (student-distrib/drivers/keyboard.cpp, inc/drivers/kkc.h, kbterm.h)

    From the scan codes of the controller to the clients: the table of key codes, the
    modifiers held down, the shortcuts that switch between the six text terminals and
    the seventh client, and the key itself to the client that is shown. The terminals
    are those of Terminal.v; they share the video memory. *)
From stdpp Require Import prelude list numbers.
From Stdlib Require Import ZArith Lia.
From S2P Require Import Prelude Terminal.

(** A client that is not a text terminal (inc/drivers/ievent.h). *)
Class IEvent (L : Type) := {
  ev_key : Z -> bool -> L -> L;
  ev_keyDown : Z -> bool -> L -> L;
  ev_keyUp : Z -> bool -> L -> L;
  ev_show : L -> L;
  ev_hide : L -> L }.

Module Keyboard.

(** ** Key codes *)

Definition KKC_COMBINE_MASK : Z := 0x7FFF0000.
Definition KKC_PRESS : Z := 0.
Definition KKC_RELEASE : Z := 0x80000000.
Definition KKC_ALT : Z := 0x020000.
Definition KKC_CAPSLOCK : Z := 0x900.
Definition KKC_F1 : Z := 0xB00.
Notation KKC_CTRL := Terminal.KKC_CTRL.
Notation KKC_SHIFT := Terminal.KKC_SHIFT.
Notation KKC_ASCII_MASK := Terminal.KKC_ASCII_MASK.
Notation KKC_SPECIAL_MASK := Terminal.KKC_SPECIAL_MASK.

Definition KBascii : list Z :=
  [0; 0xA00; 49; 50; 51; 52; 53; 54; 55; 56; 57; 48; 45; 61; 0x200; 0x800;
   113; 119; 101; 114; 116; 121; 117; 105; 111; 112; 91; 93; 0x100; KKC_CTRL;
   97; 115; 100; 102; 103; 104; 106; 107; 108; 59; 39; 96; KKC_SHIFT;
   92; 122; 120; 99; 118; 98; 110; 109; 44; 46; 47; KKC_SHIFT; 42; KKC_ALT; 32; KKC_CAPSLOCK;
   0xB00; 0xC00; 0xD00; 0xE00; 0xF00; 0x1000; 0x1100; 0x1200; 0x1300; 0x1400;
   0; 0; 0x1A00; 0x400; 0x1C00; 45; 0x600; 0; 0x700; 43; 0x1B00; 0x500; 0x1D00; 0x1700; 0x300;
   0; 0; 0; 0x1500; 0x1600] ++ replicate 39 0.
Definition SPECIAL_PREFIX : Z := 0xE0.
Definition RELEASE_OFFSET : Z := 0x80.

Definition numClients : Z := 7.
Definition numTextTerms : Z := 6.

Section keyboard.
Context {L : Type} `{EV : !IEvent L}.

(** [vmem] is the video memory; the listener is the seventh client, whose pointer is
    past the terminals until [updateClient] sets it. *)
Record t := mk {
  caps_locked : bool;
  pending_kc : Z;
  pending_special : bool;
  currClient : Z;
  textTerms : list Terminal.t;
  vmem : list Z;
  listener : option L }.

Definition set_caps (s : t) (b : bool) : t :=
  mk b (pending_kc s) (pending_special s) (currClient s) (textTerms s) (vmem s) (listener s).
Definition set_pending (s : t) (k : Z) : t :=
  mk (caps_locked s) k (pending_special s) (currClient s) (textTerms s) (vmem s) (listener s).
Definition set_special (s : t) (b : bool) : t :=
  mk (caps_locked s) (pending_kc s) b (currClient s) (textTerms s) (vmem s) (listener s).
Definition set_curr (s : t) (c : Z) : t :=
  mk (caps_locked s) (pending_kc s) (pending_special s) c (textTerms s) (vmem s) (listener s).
Definition set_listener (s : t) (l : option L) : t :=
  mk (caps_locked s) (pending_kc s) (pending_special s) (currClient s) (textTerms s) (vmem s) l.

(** A terminal with the video memory as it is. *)
Definition with_vga (v : list Z) (tm : Terminal.t) : Terminal.t :=
  let p := Terminal.scr tm in
  Terminal.set_scr tm (Terminal.mk_painter v (Terminal.backupBuffer p) (Terminal.cursorX p) (Terminal.cursorY p)
                         (Terminal.isLoadedInVmem p) (Terminal.crtc p)).
Definition put_term (s : t) (i : Z) (tm : Terminal.t) : t :=
  mk (caps_locked s) (pending_kc s) (pending_special s) (currClient s) (<[Z.to_nat i := tm]> (textTerms s))
     (Terminal.vga (Terminal.scr tm)) (listener s).

(** A virtual call on client [i]: [f] on a terminal, [g] on the listener. *)
Definition on_client {A} (s : t) (i : Z) (dflt : A) (f : Terminal.t -> option (Terminal.t * A)) (g : L -> L) : option (t * A) :=
  if i <? numTextTerms then
    tm ← anth (textTerms s) i;
    '(tm, a) ← f (with_vga (vmem s) tm);
    Some (put_term s i tm, a)
  else
    l ← (if i <? numClients then listener s else None);
    Some (set_listener s (Some (g l)), dflt).

Definition client_key (s : t) (kkc : Z) : option (t * option Terminal.wakeup) :=
  on_client s (currClient s) None (fun tm => Terminal.key tm kkc (caps_locked s)) (ev_key kkc (caps_locked s)).
(** [Term::keyDown] and [Term::keyUp] do nothing. *)
Definition client_keyDown (s : t) (kkc : Z) : option t :=
  '(s, _) ← on_client s (currClient s) tt (fun tm => Some (tm, tt)) (ev_keyDown kkc (caps_locked s)); Some s.
Definition client_keyUp (s : t) (kkc : Z) : option t :=
  '(s, _) ← on_client s (currClient s) tt (fun tm => Some (tm, tt)) (ev_keyUp kkc (caps_locked s)); Some s.

Definition term_show (tm : Terminal.t) : Terminal.t := Terminal.set_scr tm (Terminal.show (Terminal.scr tm)).
Definition term_hide (tm : Terminal.t) : Terminal.t := Terminal.set_scr tm (Terminal.hide (Terminal.scr tm)).

Definition showClient (s : t) (id : Z) : option t :=
  if id =? currClient s then Some s
  else
    '(s, _) ← on_client s (currClient s) tt (fun tm => Some (term_hide tm, tt)) ev_hide;
    '(s, _) ← on_client s id tt (fun tm => Some (term_show tm, tt)) ev_show;
    Some (set_curr s id).

(** A client past the last one is out of the array. *)
Definition updateClient (s : t) (clientId : Z) (l : L) : option (bool * t) :=
  if clientId <? numTextTerms then Some (false, s)
  else if clientId <? numClients then Some (true, set_listener s (Some l)) else None.

Definition switchTo (s : t) (clientId : Z) : option t := showClient s clientId.

(** The answer is whether the key was a shortcut. *)
Definition handleShortcut (s : t) (kernelKeycode : Z) : option (bool * t) :=
  if Z.land kernelKeycode KKC_SPECIAL_MASK =? KKC_CAPSLOCK then Some (true, set_caps s (negb (caps_locked s)))
  else
    match list_find (fun n => kernelKeycode = Z.lor KKC_ALT (KKC_F1 + 0x100 * n)) (seqZ 0 7) with
    | Some (_, n) => s ← switchTo s n; Some (true, s)
    | None => Some (false, s)
    end.

(** The key's event, and what it woke up. *)
Definition handle (s : t) (kernelKeycode : Z) : option (t * option Terminal.wakeup) :=
  let ascii_part := Z.land kernelKeycode KKC_ASCII_MASK in
  let special_part := Z.land kernelKeycode KKC_SPECIAL_MASK in
  let combine_part := Z.land kernelKeycode KKC_COMBINE_MASK in
  if negb (Z.land kernelKeycode KKC_RELEASE =? 0) then
    let change := Z.land 0xFFFFFFFF (not32 combine_part) in
    s ← client_keyUp (set_pending s (Z.land (pending_kc s) change)) kernelKeycode;
    Some (s, None)
  else if negb (combine_part =? 0) then Some (set_pending s (Z.lor (pending_kc s) combine_part), None)
  else if negb (ascii_part =? 0) || negb (special_part =? 0) then
    let kkc := Z.lor (Z.lor (pending_kc s) special_part) ascii_part in
    s ← client_keyDown s kkc;
    '(done, s) ← handleShortcut s kkc;
    if (done : bool) then Some (s, None)
    else client_key s (Z.lor (Z.lor (pending_kc s) special_part) ascii_part)
  else Some (s, None).

(** One interrupt, with the byte of the controller. *)
Definition kb_handler (s : t) (keyboard_scancode : Z) : option (t * option Terminal.wakeup) :=
  if keyboard_scancode =? 0 then Some (s, None)
  else if keyboard_scancode =? SPECIAL_PREFIX then Some (set_special s true, None)
  else if pending_special s && (keyboard_scancode =? 0x18) then Some (set_special s false, None)
  else
    let s := set_special s false in
    if Z.land keyboard_scancode RELEASE_OFFSET =? 0 then
      c ← anth KBascii keyboard_scancode; handle s (Z.lor c KKC_PRESS)
    else
      c ← anth KBascii (Z.land keyboard_scancode (not32 RELEASE_OFFSET)); handle s (Z.lor c KKC_RELEASE).

(** A burst of interrupts and the readers they wake up. *)
Fixpoint kb_handlers (s : t) (codes : list Z) : option (t * list Terminal.wakeup) :=
  match codes with
  | [] => Some (s, [])
  | c :: codes =>
      '(s, w) ← kb_handler s c;
      '(s, ws) ← kb_handlers s codes;
      Some (s, match w with Some w => w :: ws | None => ws end)
  end.

(** The terminals as they are constructed, the first one shown ([init_main]). *)
Definition init (l : option L) : option t :=
  let s := mk false 0 false 0 (replicate (Z.to_nat numTextTerms) Terminal.init) (replicate 4000 0) l in
  '(s, _) ← on_client s 0 tt (fun tm => Some (term_show tm, tt)) (fun l => l); Some s.

(** ** Bits of the key codes *)

Definition kkc_bits_ok (c : Z) : bool := (Z.land c KKC_ASCII_MASK <? 128) && (0 <=? c) && (c <? 2 ^ 31).
Lemma KBascii_bits : forallb kkc_bits_ok KBascii = true.
Proof. vm_compute. reflexivity. Qed.
Lemma KBascii_len : length KBascii = 128%nat.
Proof. reflexivity. Qed.

Lemma KBascii_ok code : 0 <= code < 128 ->
  exists c, anth KBascii code = Some c /\ Z.land c KKC_ASCII_MASK < 128 /\ 0 <= c < 2 ^ 31.
Proof.
  intros Hc. exists (aget KBascii code). rewrite anth_aget by (unfold alen; rewrite KBascii_len; lia).
  split; [done|]. pose proof KBascii_bits as H. rewrite forallb_forall in H.
  assert (Hin : List.In (aget KBascii code) KBascii).
  { apply list_elem_of_In. unfold aget. apply list_elem_of_lookup_total_2. rewrite KBascii_len. lia. }
  specialize (H _ Hin). unfold kkc_bits_ok in H. rewrite !andb_true_iff in H. lia.
Qed.

(** The modifiers held down are not part of the character. *)
Definition no_ascii (p : Z) : Prop := Z.land p KKC_ASCII_MASK = 0.

Lemma no_ascii_key p k :
  no_ascii p ->
  Z.land (Z.lor (Z.lor p (Z.land k KKC_SPECIAL_MASK)) (Z.land k KKC_ASCII_MASK)) KKC_ASCII_MASK = Z.land k KKC_ASCII_MASK.
Proof.
  intros Hp. rewrite !Z.land_lor_distr_l, Hp, <- !Z.land_assoc.
  change (Z.land KKC_SPECIAL_MASK KKC_ASCII_MASK) with 0. by rewrite Z.land_0_r, Z.land_diag.
Qed.
Lemma no_ascii_hold p k : no_ascii p -> no_ascii (Z.lor p (Z.land k KKC_COMBINE_MASK)).
Proof.
  unfold no_ascii. intros Hp. rewrite Z.land_lor_distr_l, Hp, <- Z.land_assoc.
  change (Z.land KKC_COMBINE_MASK KKC_ASCII_MASK) with 0. by rewrite Z.land_0_r.
Qed.
Lemma no_ascii_drop p m : no_ascii p -> no_ascii (Z.land p m).
Proof. unfold no_ascii. intros Hp. by rewrite <- Z.land_assoc, (Z.land_comm m), Z.land_assoc, Hp. Qed.

Lemma land_press_ascii c : Z.land (Z.lor c KKC_PRESS) KKC_ASCII_MASK = Z.land c KKC_ASCII_MASK.
Proof. unfold KKC_PRESS. by rewrite Z.lor_0_r. Qed.

(** ** What the terminals keep *)

Lemma with_vga_inv v tm : Terminal.inv tm -> alen v = 4000 -> Terminal.inv (with_vga v tm).
Proof. intros [] Hv. split; try done. cbn. destruct inv_scr as [_ ?]. by split. Qed.
Lemma with_vga_loaded v tm : Terminal.loaded (with_vga v tm) = Terminal.loaded tm.
Proof. done. Qed.
Lemma inv_vga tm : Terminal.inv tm -> alen (Terminal.vga (Terminal.scr tm)) = 4000.
Proof. intros I. by destruct (Terminal.inv_scr _ I). Qed.

Lemma term_show_inv tm : Terminal.inv tm -> Terminal.inv (term_show tm).
Proof.
  intros I. pose proof I as [? ? ? ? ? [? ?] ? ?]. split; try done. cbn. unfold Terminal.show.
  destruct (Terminal.isLoadedInVmem _); [done|]. by apply Terminal.helpSetCursor_mem.
Qed.
Lemma term_hide_inv tm : Terminal.inv tm -> Terminal.inv (term_hide tm).
Proof. intros I. pose proof I as [? ? ? ? ? [? ?] ? ?]. split; try done. cbn. unfold Terminal.hide. by destruct (negb _). Qed.
Lemma term_show_loaded tm : Terminal.loaded (term_show tm) = true.
Proof.
  unfold Terminal.loaded, term_show, Terminal.show. cbn [Terminal.scr Terminal.set_scr].
  destruct (Terminal.isLoadedInVmem (Terminal.scr tm)) eqn:E; [done|]. by rewrite Terminal.helpSetCursor_loaded.
Qed.
Lemma term_hide_loaded tm : Terminal.loaded (term_hide tm) = false.
Proof.
  unfold Terminal.loaded, term_hide, Terminal.hide. cbn [Terminal.scr Terminal.set_scr].
  by destruct (Terminal.isLoadedInVmem (Terminal.scr tm)) eqn:E.
Qed.

(** Every terminal is well formed, the one shown is the only one that draws on the
    video memory, and the seventh client has its listener. *)
Record ok (s : t) : Prop := {
  ok_curr : 0 <= currClient s < numClients;
  ok_terms : length (textTerms s) = 6%nat;
  ok_vmem : alen (vmem s) = 4000;
  ok_term : forall i tm, textTerms s !! i = Some tm -> Terminal.inv tm;
  ok_shown : forall i tm, textTerms s !! i = Some tm ->
    Terminal.loaded tm = bool_decide (Z.of_nat i = currClient s);
  ok_pending : no_ascii (pending_kc s);
  ok_listener : is_Some (listener s) }.

(** All but what is shown. *)
Record wf (s : t) : Prop := {
  wf_terms : length (textTerms s) = 6%nat;
  wf_vmem : alen (vmem s) = 4000;
  wf_term : forall i tm, textTerms s !! i = Some tm -> Terminal.inv tm;
  wf_listener : is_Some (listener s) }.
Lemma ok_wf s : ok s -> wf s.
Proof. by intros []. Qed.

(** Which terminals draw on the video memory. *)
Definition shows (s : t) (c : Z) : Prop :=
  forall i tm, textTerms s !! i = Some tm -> Terminal.loaded tm = bool_decide (Z.of_nat i = c).

(** A virtual call on a client: the terminals but that one are the same. *)
Lemma on_client_wf {A} s i (dflt : A) f g : wf s -> 0 <= i < numClients ->
  (forall tm, Terminal.inv tm -> exists tm' a, f tm = Some (tm', a) /\ Terminal.inv tm') ->
  exists s' a, on_client s i dflt f g = Some (s', a) /\ wf s' /\
    currClient s' = currClient s /\ pending_kc s' = pending_kc s /\ caps_locked s' = caps_locked s /\
    pending_special s' = pending_special s /\
    (forall tm', textTerms s' !! Z.to_nat i = Some tm' -> vmem s' = Terminal.vga (Terminal.scr tm')) /\
    (numTextTerms <= i -> vmem s' = vmem s) /\
    (forall j tm', textTerms s' !! j = Some tm' -> exists tm, textTerms s !! j = Some tm /\
       if decide (Z.of_nat j = i) then exists a', f (with_vga (vmem s) tm) = Some (tm', a') else tm' = tm).
Proof.
  intros [Ht Hv Hi [l Hl]] Hc Hf. unfold on_client, numClients, numTextTerms in *.
  destruct (Z.ltb_spec i 6) as [Hlt|Hge].
  - destruct (lookup_lt_is_Some_2 (textTerms s) (Z.to_nat i)) as [tm E]; [lia|].
    unfold anth. rewrite (proj2 (Z.leb_le 0 i)), E by lia. cbn [mbind option_bind].
    destruct (Hf (with_vga (vmem s) tm)) as (tm' & a & E' & I'); [apply with_vga_inv; eauto|].
    rewrite E'. eexists _, a. split; [reflexivity|].
    assert (Hlk : forall j tm1, <[Z.to_nat i:=tm']> (textTerms s) !! j = Some tm1 ->
      (j = Z.to_nat i /\ tm1 = tm') \/ (j <> Z.to_nat i /\ textTerms s !! j = Some tm1)).
    { intros j tm1. destruct (decide (j = Z.to_nat i)) as [->|Hj].
      - rewrite list_lookup_insert_eq by lia. intros [= ->]. by left.
      - rewrite list_lookup_insert_ne by done. by right. }
    split_and!; try done.
    + split; cbn; [by rewrite length_insert|by apply inv_vga| |by exists l].
      intros j tm1 Hj. destruct (Hlk _ _ Hj) as [[-> ->]|[_ Hj']]; [done|eauto].
    + cbn. intros tm1 Hj. by destruct (Hlk _ _ Hj) as [[_ ->]|[? _]].
    + lia.
    + cbn. intros j tm1 Hj. destruct (Hlk _ _ Hj) as [[-> ->]|[Hne Hj']].
      * exists tm. split; [done|]. rewrite decide_True by lia. by exists a.
      * exists tm1. split; [done|]. by rewrite decide_False by lia.
  - rewrite (proj2 (Z.ltb_lt i 7)) by lia. rewrite Hl. cbn [mbind option_bind].
    eexists _, dflt. split; [reflexivity|].
    split; [split; try done; by exists (g l)|]. split_and!; try done.
    + cbn. intros tm' Hj%lookup_lt_Some. lia.
    + cbn. intros j tm' Hj. exists tm'. split; [done|].
      pose proof (lookup_lt_Some _ _ _ Hj). rewrite decide_False by lia. done.
Qed.

(** A call that leaves the terminal where it draws. *)
Lemma on_client_ok {A} s (dflt : A) f g : ok s ->
  (forall tm, Terminal.inv tm -> exists tm' a, f tm = Some (tm', a) /\ Terminal.inv tm' /\ Terminal.loaded tm' = Terminal.loaded tm) ->
  exists s' a, on_client s (currClient s) dflt f g = Some (s', a) /\ ok s' /\ currClient s' = currClient s.
Proof.
  intros Hok Hf. destruct (on_client_wf s (currClient s) dflt f g (ok_wf _ Hok) (ok_curr _ Hok)) as
    (s' & a & E & [] & Ec & Ep & _ & _ & _ & _ & Hj).
  { intros tm I. destruct (Hf tm I) as (tm' & a & ? & ? & _). by exists tm', a. }
  exists s', a. split; [done|]. split; [|done].
  split; try done; [rewrite Ec; apply Hok| |rewrite Ep; apply Hok].
  intros i tm' Hi. destruct (Hj _ _ Hi) as (tm & Htm & Hd). rewrite Ec, <- (ok_shown _ Hok _ _ Htm).
  destruct (decide _); [|by subst].
  destruct Hd as [a' Ha]. destruct (Hf (with_vga (vmem s) tm)) as (tm1 & a1 & E1 & _ & L1).
  { apply with_vga_inv; [by eapply ok_term|apply Hok]. }
  rewrite E1 in Ha. injection Ha as <- _. by rewrite L1.
Qed.

(** What terminal [i] shows, or would show. *)
Definition screen (s : t) (i : nat) : option (list Z) :=
  (fun tm => Terminal.videoMem (Terminal.scr (with_vga (vmem s) tm))) <$> textTerms s !! i.

Lemma helpSetCursor_vga p x y : Terminal.vga (Terminal.helpSetCursor p x y) = Terminal.vga p.
Proof. unfold Terminal.helpSetCursor. by destruct (Terminal.SCREEN_WIDTH <=? x), (Terminal.SCREEN_HEIGHT <=? y). Qed.
Lemma term_show_screen tm : Terminal.loaded tm = false ->
  Terminal.vga (Terminal.scr (term_show tm)) = Terminal.videoMem (Terminal.scr tm) /\
  Terminal.loaded (term_show tm) = true.
Proof.
  intros H. split; [|apply term_show_loaded]. unfold Terminal.loaded in H. cbn. unfold Terminal.show, Terminal.videoMem.
  rewrite H. apply helpSetCursor_vga.
Qed.
Lemma term_hide_screen v tm : Terminal.loaded tm = true ->
  let tm' := term_hide (with_vga v tm) in
  Terminal.vga (Terminal.scr tm') = v /\ Terminal.backupBuffer (Terminal.scr tm') = v /\ Terminal.loaded tm' = false.
Proof. intros H. unfold Terminal.loaded in *. cbn in *. unfold Terminal.hide. cbn. by rewrite H. Qed.

Lemma videoMem_shown v tm : Terminal.loaded tm = true -> Terminal.videoMem (Terminal.scr (with_vga v tm)) = v.
Proof. unfold Terminal.loaded, Terminal.videoMem. cbn. by intros ->. Qed.
Lemma videoMem_hidden v tm : Terminal.loaded tm = false ->
  Terminal.videoMem (Terminal.scr (with_vga v tm)) = Terminal.backupBuffer (Terminal.scr tm).
Proof. unfold Terminal.loaded, Terminal.videoMem. cbn. by intros ->. Qed.

(** The switch, its invariant, and that no screen changes. *)
Lemma showClient_spec s id : ok s -> 0 <= id < numClients ->
  exists s', showClient s id = Some s' /\ ok s' /\ currClient s' = id /\ length (textTerms s') = length (textTerms s) /\
    forall i tm', textTerms s' !! i = Some tm' -> exists tm, textTerms s !! i = Some tm /\
      Terminal.videoMem (Terminal.scr (with_vga (vmem s') tm')) = Terminal.videoMem (Terminal.scr (with_vga (vmem s) tm)).
Proof.
  intros Hok Hid. unfold showClient. destruct (Z.eqb_spec id (currClient s)) as [->|Hne].
  { exists s. split_and!; try done. intros i tm Hi. by exists tm. }
  destruct (on_client_wf s (currClient s) tt (fun tm => Some (term_hide tm, tt)) ev_hide (ok_wf _ Hok) (ok_curr _ Hok))
    as (s1 & [] & -> & W1 & C1 & P1 & _ & _ & V1 & U1 & J1);
    [intros tm I; eexists _, _; split; [reflexivity|by apply term_hide_inv]|].
  cbn [mbind option_bind].
  destruct (on_client_wf s1 id tt (fun tm => Some (term_show tm, tt)) ev_show W1 Hid)
    as (s2 & [] & -> & W2 & C2 & P2 & _ & _ & V2 & U2 & J2);
    [intros tm I; eexists _, _; split; [reflexivity|by apply term_show_inv]|].
  cbn [mbind option_bind]. eexists. split; [reflexivity|].
  assert (Hv1 : vmem s1 = vmem s).
  { destruct (decide (numTextTerms <= currClient s)) as [Hc|Hc]; [by apply U1|]. pose proof (ok_curr _ Hok).
    destruct (lookup_lt_is_Some_2 (textTerms s1) (Z.to_nat (currClient s))) as [tm1 E1];
      [rewrite (wf_terms _ W1); unfold numTextTerms in *; lia|].
    rewrite (V1 _ E1). destruct (J1 _ _ E1) as (tm & E & D). rewrite decide_True in D by lia.
    destruct D as [? [= <- _]]. apply term_hide_screen. rewrite (ok_shown _ Hok _ _ E). apply bool_decide_true. lia. }
  assert (HJ : forall i tm2, textTerms s2 !! i = Some tm2 -> exists tm, textTerms s !! i = Some tm /\
    Terminal.loaded tm2 = bool_decide (Z.of_nat i = id) /\
    Terminal.videoMem (Terminal.scr (with_vga (vmem s2) tm2)) = Terminal.videoMem (Terminal.scr (with_vga (vmem s) tm))).
  { intros i tm2 Hi. destruct (J2 _ _ Hi) as (tm1 & Hi1 & D2). destruct (J1 _ _ Hi1) as (tm & Hi0 & D1).
    exists tm. split; [done|]. pose proof (ok_shown _ Hok _ _ Hi0) as HL.
    destruct (decide (Z.of_nat i = id)) as [Ei|Hn].
    - rewrite decide_False in D1 by lia. subst tm1. destruct D2 as [[] [= <-]]. rewrite bool_decide_true by done.
      split; [apply term_show_loaded|]. rewrite videoMem_shown by apply term_show_loaded.
      rewrite bool_decide_false in HL by lia. rewrite (V2 (term_show (with_vga (vmem s1) tm))) by (by rewrite <- Ei, Nat2Z.id).
      rewrite Hv1. by apply term_show_screen.
    - subst tm2. rewrite (bool_decide_false (Z.of_nat i = id)) by done.
      destruct (decide (Z.of_nat i = currClient s)) as [Ec|Hn'].
      + rewrite bool_decide_true in HL by done. destruct D1 as [[] [= <-]].
        destruct (term_hide_screen (vmem s) tm HL) as (_ & Eb & El). split; [done|].
        by rewrite videoMem_hidden, videoMem_shown.
      + subst tm1. rewrite bool_decide_false in HL by done. split; [done|]. by rewrite !videoMem_hidden. }
  split; [|split; [done|split]].
  - destruct W2 as [? ? ? ?]. split; try done; [|cbn; rewrite P2, P1; apply Hok].
    cbn. intros i tm2 Hi. by destruct (HJ _ _ Hi) as (_ & _ & ? & _).
  - cbn. by rewrite (wf_terms _ W2), (ok_terms _ Hok).
  - cbn. intros i tm2 Hi. destruct (HJ _ _ Hi) as (tm & ? & _ & ?). by exists tm.
Qed.

(** ** Every byte of the controller is handled *)

Lemma set_pending_ok s p : ok s -> no_ascii p -> ok (set_pending s p).
Proof. by intros [] ?. Qed.
Lemma set_special_ok s b : ok s -> ok (set_special s b).
Proof. by intros []. Qed.
Lemma set_caps_ok s b : ok s -> ok (set_caps s b).
Proof. by intros []. Qed.

Lemma handleShortcut_ok s k : ok s -> exists b s', handleShortcut s k = Some (b, s') /\ ok s'.
Proof.
  intros Hok. unfold handleShortcut. destruct (_ =? _); [eexists _, _; split; [reflexivity|by apply set_caps_ok]|].
  destruct (list_find _ (seqZ 0 7)) as [[i n]|] eqn:E; [|eexists _, _; by split].
  apply list_find_Some in E as (E & _ & _). apply lookup_seqZ in E.
  destruct (showClient_spec s n Hok) as (s' & E' & Hok' & _); [unfold numClients; lia|].
  unfold switchTo. rewrite E'. eexists _, _. by split.
Qed.

Lemma client_keyDown_ok s k : ok s -> exists s', client_keyDown s k = Some s' /\ ok s' /\ currClient s' = currClient s.
Proof.
  intros Hok. unfold client_keyDown.
  destruct (on_client_ok s tt (fun tm => Some (tm, tt)) (ev_keyDown k (caps_locked s)) Hok) as (s' & [] & -> & ? & ?);
    [intros tm I; by exists tm, ()|by exists s'].
Qed.
Lemma client_keyUp_ok s k : ok s -> exists s', client_keyUp s k = Some s' /\ ok s' /\ currClient s' = currClient s.
Proof.
  intros Hok. unfold client_keyUp.
  destruct (on_client_ok s tt (fun tm => Some (tm, tt)) (ev_keyUp k (caps_locked s)) Hok) as (s' & [] & -> & ? & ?);
    [intros tm I; by exists tm, ()|by exists s'].
Qed.
Lemma client_key_ok s k : ok s -> Z.land k KKC_ASCII_MASK < 128 -> exists s' w, client_key s k = Some (s', w) /\ ok s'.
Proof.
  intros Hok Hk. unfold client_key.
  destruct (on_client_ok s None (fun tm => Terminal.key tm k (caps_locked s)) (ev_key k (caps_locked s)) Hok)
    as (s' & w & E & ? & _); [|by exists s', w].
  intros tm I. destruct (Terminal.key_inv tm k (caps_locked s) I Hk) as (tm' & w & E & I').
  exists tm', w. split; [done|]. split; [done|]. by apply Terminal.key_loaded in E.
Qed.

Lemma handle_ok s c : ok s -> Z.land c KKC_ASCII_MASK < 128 -> exists s' w, handle s c = Some (s', w) /\ ok s'.
Proof.
  intros Hok Hc. pose proof (ok_pending _ Hok) as Hp. unfold handle. cbv zeta. destruct (negb (_ =? 0)).
  - destruct (client_keyUp_ok (set_pending s (Z.land (pending_kc s) (Z.land 0xFFFFFFFF (not32 (Z.land c KKC_COMBINE_MASK))))) c)
      as (s' & -> & ? & _); [by apply set_pending_ok, no_ascii_drop|]. eexists _, _. by split.
  - destruct (negb (_ =? 0)); [eexists _, _; split; [reflexivity|]; by apply set_pending_ok, no_ascii_hold|].
    destruct (_ || _); [|eexists _, _; by split].
    set (k := Z.lor (Z.lor (pending_kc s) _) _).
    destruct (client_keyDown_ok s k Hok) as (s1 & E1 & H1 & _). rewrite E1. cbn [mbind option_bind].
    destruct (handleShortcut_ok s1 k H1) as (b & s2 & -> & H2). cbn [mbind option_bind].
    destruct b; [by eexists _, _|]. apply client_key_ok; [done|].
    by rewrite no_ascii_key by apply H2.
Qed.

Lemma land_release_ascii c : 0 <= c -> Z.land (Z.lor c KKC_RELEASE) KKC_ASCII_MASK = Z.land c KKC_ASCII_MASK.
Proof. intros Hc. rewrite Z.land_lor_distr_l. change (Z.land KKC_RELEASE KKC_ASCII_MASK) with 0. by rewrite Z.lor_0_r. Qed.

Lemma byte_code code : 0 <= code < 256 ->
  if Z.land code RELEASE_OFFSET =? 0 then 0 <= code < 128 else 0 <= Z.land code (not32 RELEASE_OFFSET) < 128.
Proof.
  intros Hc. assert (Hb : forallb (fun code => if Z.land code RELEASE_OFFSET =? 0 then (0 <=? code) && (code <? 128)
    else (0 <=? Z.land code (not32 RELEASE_OFFSET)) && (Z.land code (not32 RELEASE_OFFSET) <? 128)) (seqZ 0 256) = true)
    by (vm_compute; reflexivity).
  rewrite forallb_forall in Hb. specialize (Hb code ltac:(apply list_elem_of_In, elem_of_seqZ; lia)).
  destruct (_ =? 0); rewrite andb_true_iff in Hb; lia.
Qed.

Lemma kb_handler_ok s code : ok s -> 0 <= code < 256 -> exists s' w, kb_handler s code = Some (s', w) /\ ok s'.
Proof.
  intros Hok Hc. unfold kb_handler. destruct (_ =? 0); [by exists s, None|].
  destruct (_ =? _); [eexists _, _; split; [reflexivity|by apply set_special_ok]|].
  destruct (_ && _); [eexists _, _; split; [reflexivity|by apply set_special_ok]|].
  pose proof (byte_code code Hc) as Hb. destruct (Z.land code RELEASE_OFFSET =? 0);
    destruct (KBascii_ok _ Hb) as (c & -> & Ha & Hr); cbn [mbind option_bind]; apply handle_ok; try by apply set_special_ok.
  - by rewrite land_press_ascii.
  - by rewrite land_release_ascii by lia.
Qed.

Lemma kb_handlers_ok codes : forall s, ok s -> Forall (fun c => 0 <= c < 256) codes ->
  exists s' ws, kb_handlers s codes = Some (s', ws) /\ ok s'.
Proof.
  induction codes as [|c codes IH]; intros s Hok Hc; [by exists s, []|]. apply list.Forall_cons in Hc as [Hc1 Hc].
  destruct (kb_handler_ok s c Hok Hc1) as (s1 & w & E1 & H1). destruct (IH s1 H1 Hc) as (s2 & ws & E2 & H2).
  cbn [kb_handlers]. rewrite E1. cbn [mbind option_bind]. rewrite E2. by eexists _, _.
Qed.

(** The state at boot. *)
Lemma init_ok l : exists s, init (Some l) = Some s /\ ok s /\ currClient s = 0 /\ pending_kc s = 0 /\
  pending_special s = false /\ caps_locked s = false.
Proof.
  unfold init. set (s := mk _ _ _ _ _ _ _).
  destruct (on_client_wf s 0 tt (fun tm => Some (term_show tm, tt)) (fun l => l))
    as (s1 & [] & E & [] & C & P & K & S & _ & _ & J).
  - split; try done. intros i tm Hi. apply lookup_replicate in Hi as [-> _]. apply Terminal.term_init_inv.
  - done.
  - intros tm I. eexists _, _. split; [reflexivity|by apply term_show_inv].
  - rewrite E. exists s1. split; [done|]. split; [|done]. split; try done.
    + by rewrite C.
    + intros i tm1 Hi. destruct (J _ _ Hi) as (tm & Hi0 & D). rewrite C. change (currClient s) with 0.
      destruct (decide (Z.of_nat i = 0)) as [Hz|Hz].
      * destruct D as [[] [= <-]]. rewrite bool_decide_true by done. apply term_show_loaded.
      * subst tm1. rewrite bool_decide_false by done. apply lookup_replicate in Hi0 as [-> _]. reflexivity.
    + by rewrite P.
Qed.

(** ** Typing on the terminal that is shown *)

(** The bytes of a key stroke: pressed and released, shift held around it. *)
Definition scancode (c : Z) : option Z := (fun p => Z.of_nat p.1) <$> list_find (fun k => k = c) KBascii.
Definition tap (code : Z) : list Z := [code; code + RELEASE_OFFSET].
Definition strokes (k : Terminal.stroke) : list Z :=
  match k with
  | Terminal.Char c shift =>
      let sc := tap (default 0 (scancode c)) in if shift then [42] ++ sc ++ [42 + RELEASE_OFFSET] else sc
  | Terminal.Tab => tap 15
  | Terminal.Back => tap 14
  end.
Definition enter : list Z := tap 28.
(** The keyboard has a key for the character. *)
Definition typeable (k : Terminal.stroke) : Prop :=
  match k with Terminal.Char c _ => 1 <= c < 128 /\ is_Some (scancode c) | _ => True end.

(** Terminal [tm], the [i]th, is shown, and [p] is held down. *)
Record typing (s : t) (i : nat) (p : Z) (tm : Terminal.t) : Prop := {
  ty_curr : currClient s = Z.of_nat i;
  ty_num : (i < 6)%nat;
  ty_pending : pending_kc s = p;
  ty_special : pending_special s = false;
  ty_term : with_vga (vmem s) <$> textTerms s !! i = Some tm }.
(** What typing there leaves alone. *)
Definition frame (i : nat) (s s' : t) : Prop :=
  caps_locked s' = caps_locked s /\ listener s' = listener s /\
  forall j, j <> i -> textTerms s' !! j = textTerms s !! j.

Lemma kb_frame_trans i s1 s2 s3 : frame i s1 s2 -> frame i s2 s3 -> frame i s1 s3.
Proof. intros (?&?&H1) (?&?&H2). split_and!; [congruence..|]. intros j Hj. by rewrite H2, H1. Qed.

Lemma with_vga_self tm : with_vga (Terminal.vga (Terminal.scr tm)) tm = tm.
Proof. by destruct tm as [? ? ? ? ? ? ? ? []]. Qed.

Lemma on_client_typing {A} s i p tm (dflt : A) f g tm' a : typing s i p tm -> f tm = Some (tm', a) ->
  exists s', on_client s (currClient s) dflt f g = Some (s', a) /\ typing s' i p tm' /\ frame i s s'.
Proof.
  intros [Hc Hi Hp Hs Ht] Hf. unfold on_client. rewrite Hc. unfold numTextTerms.
  rewrite (proj2 (Z.ltb_lt _ _)) by lia. unfold anth. rewrite (proj2 (Z.leb_le 0 _)), Nat2Z.id by lia.
  destruct (textTerms s !! i) as [tm0|] eqn:E; [|done]. injection Ht as Ht. cbn [mbind option_bind].
  rewrite Ht, Hf. eexists. split; [reflexivity|]. split; [split; try done|split_and!; try done].
  - cbn. rewrite Nat2Z.id, list_lookup_insert_eq by (by eapply lookup_lt_Some). apply (f_equal Some), with_vga_self.
  - intros j Hj. cbn. by rewrite Nat2Z.id, list_lookup_insert_ne.
Qed.

(** A byte of a key that goes to the client as [kkc], of one that is held, and of one
    that is released, with [p] held before and [p'] after. *)
Definition is_press (code : Z) : bool := negb (code =? 0) && negb (code =? SPECIAL_PREFIX) && (Z.land code RELEASE_OFFSET =? 0).
Definition key_code (code p kkc : Z) : bool :=
  is_press code &&
  match anth KBascii code with
  | Some k =>
      let k := Z.lor k KKC_PRESS in
      (Z.land k KKC_RELEASE =? 0) && (Z.land k KKC_COMBINE_MASK =? 0) &&
      (negb (Z.land k KKC_ASCII_MASK =? 0) || negb (Z.land k KKC_SPECIAL_MASK =? 0)) &&
      (Z.lor (Z.lor p (Z.land k KKC_SPECIAL_MASK)) (Z.land k KKC_ASCII_MASK) =? kkc) &&
      negb (Z.land kkc KKC_SPECIAL_MASK =? KKC_CAPSLOCK) &&
      match list_find (fun n => kkc = Z.lor KKC_ALT (KKC_F1 + 0x100 * n)) (seqZ 0 7) with Some _ => false | None => true end
  | None => false
  end.
Definition hold_code (code p p' : Z) : bool :=
  is_press code &&
  match anth KBascii code with
  | Some k => let k := Z.lor k KKC_PRESS in
      (Z.land k KKC_RELEASE =? 0) && negb (Z.land k KKC_COMBINE_MASK =? 0) && (Z.lor p (Z.land k KKC_COMBINE_MASK) =? p')
  | None => false
  end.
Definition release_code (code p p' : Z) : bool :=
  negb (code =? 0) && negb (code =? SPECIAL_PREFIX) && negb (Z.land code RELEASE_OFFSET =? 0) &&
  match anth KBascii (Z.land code (not32 RELEASE_OFFSET)) with
  | Some k => let k := Z.lor k KKC_RELEASE in
      negb (Z.land k KKC_RELEASE =? 0) &&
      (Z.land p (Z.land 0xFFFFFFFF (not32 (Z.land k KKC_COMBINE_MASK))) =? p')
  | None => false
  end.

Lemma typing_special s i p tm : typing s i p tm -> typing (set_special s false) i p tm /\ frame i s (set_special s false).
Proof. by intros []. Qed.

Lemma key_step s i p tm code kkc tm' w : typing s i p tm -> key_code code p kkc = true ->
  Terminal.key tm kkc (caps_locked s) = Some (tm', w) ->
  exists s', kb_handler s code = Some (s', w) /\ typing s' i p tm' /\ frame i s s'.
Proof.
  intros Hty Hk Hkey. unfold key_code, is_press in Hk. rewrite !andb_true_iff, !negb_true_iff in Hk.
  destruct Hk as (((H0 & H1) & H2) & Hk). unfold kb_handler. rewrite H0, H1, (ty_special _ _ _ _ Hty), H2. cbn [andb].
  destruct (anth KBascii code) as [k|]; [|done]. cbn [mbind option_bind]. cbv zeta in Hk.
  rewrite !andb_true_iff, negb_true_iff in Hk. destruct Hk as (((((K1 & K2) & K3) & K4%Z.eqb_eq) & K5) & K6).
  destruct (typing_special _ _ _ _ Hty) as [Hty1 F1]. set (s1 := set_special s false) in *.
  unfold handle. cbv zeta. rewrite K1, K2, K3. cbn [negb]. rewrite (ty_pending _ _ _ _ Hty1), K4.
  destruct (on_client_typing s1 i p tm tt (fun tm => Some (tm, tt)) (ev_keyDown kkc (caps_locked s1)) tm tt Hty1 eq_refl)
    as (s2 & E2 & Hty2 & F2).
  unfold client_keyDown. rewrite E2. cbn [mbind option_bind]. unfold handleShortcut. rewrite K5.
  destruct (list_find _ (seqZ 0 7)); [done|]. cbn [mbind option_bind]. rewrite (ty_pending _ _ _ _ Hty2), K4.
  unfold client_key. assert (Ec : caps_locked s2 = caps_locked s) by apply F2. rewrite <- Ec in Hkey.
  destruct (on_client_typing s2 i p tm None (fun tm => Terminal.key tm kkc (caps_locked s2)) (ev_key kkc (caps_locked s2))
    tm' w Hty2 Hkey) as (s3 & E3 & Hty3 & F3).
  exists s3. split; [done|]. split; [done|]. by eapply kb_frame_trans, kb_frame_trans.
Qed.

Lemma hold_step s i p p' tm code : typing s i p tm -> hold_code code p p' = true ->
  exists s', kb_handler s code = Some (s', None) /\ typing s' i p' tm /\ frame i s s'.
Proof.
  intros Hty Hk. unfold hold_code, is_press in Hk. rewrite !andb_true_iff, !negb_true_iff in Hk.
  destruct Hk as (((H0 & H1) & H2) & Hk). unfold kb_handler. rewrite H0, H1, (ty_special _ _ _ _ Hty), H2. cbn [andb].
  destruct (anth KBascii code) as [k|]; [|done]. cbn [mbind option_bind]. cbv zeta in Hk.
  rewrite !andb_true_iff in Hk. destruct Hk as ((K1 & K2) & K3%Z.eqb_eq). unfold handle. cbv zeta. rewrite K1, K2. cbn [negb].
  eexists. split; [reflexivity|]. destruct Hty as [? ? <- ? ?]. by split.
Qed.

Lemma release_step s i p p' tm code : typing s i p tm -> release_code code p p' = true ->
  exists s', kb_handler s code = Some (s', None) /\ typing s' i p' tm /\ frame i s s'.
Proof.
  intros Hty Hk. unfold release_code in Hk. rewrite !andb_true_iff, !negb_true_iff in Hk.
  destruct Hk as (((H0 & H1) & H2) & Hk). unfold kb_handler. rewrite H0, H1, (ty_special _ _ _ _ Hty), H2. cbn [andb].
  destruct (anth KBascii _) as [k|]; [|done]. cbn [mbind option_bind]. cbv zeta in Hk.
  rewrite !andb_true_iff, negb_true_iff in Hk. destruct Hk as (K1 & K2%Z.eqb_eq). unfold handle. cbv zeta. rewrite K1. cbn [negb].
  set (s1 := set_pending _ _). assert (Hty1 : typing s1 i p' tm) by (destruct Hty as [? ? <- ? ?]; by split).
  assert (F1 : frame i s s1) by done. clearbody s1.
  set (kkc := Z.lor k KKC_RELEASE).
  destruct (on_client_typing s1 i p' tm tt (fun tm => Some (tm, tt)) (ev_keyUp kkc (caps_locked s1)) tm tt Hty1 eq_refl)
    as (s2 & E2 & Hty2 & F2).
  unfold client_keyUp. rewrite E2. cbn [mbind option_bind]. exists s2. split; [done|]. split; [done|]. by eapply kb_frame_trans.
Qed.

(** The codes of the character keys. *)
Definition char_code (c : Z) : bool :=
  match scancode c with
  | Some sc => forallb (fun p => key_code sc p (Z.lor c p) && release_code (sc + RELEASE_OFFSET) p p) [0; KKC_SHIFT]
  | None => true
  end.
Lemma char_codes : forallb char_code (seqZ 1 127) = true.
Proof. vm_compute. reflexivity. Qed.
Lemma char_code_ok c p : 1 <= c < 128 -> is_Some (scancode c) -> p = 0 \/ p = KKC_SHIFT ->
  key_code (default 0 (scancode c)) p (Z.lor c p) = true /\
  release_code (default 0 (scancode c) + RELEASE_OFFSET) p p = true.
Proof.
  intros Hc [sc Esc] Hp. pose proof char_codes as Hall. rewrite forallb_forall in Hall.
  specialize (Hall c ltac:(apply list_elem_of_In, elem_of_seqZ; lia)). unfold char_code in Hall. rewrite Esc in Hall.
  rewrite forallb_forall in Hall. specialize (Hall p ltac:(simpl; naive_solver)).
  rewrite Esc. by apply andb_true_iff in Hall.
Qed.

Lemma kb_handlers_app l1 : forall s l2 s1 w1 s2 w2,
  kb_handlers s l1 = Some (s1, w1) -> kb_handlers s1 l2 = Some (s2, w2) -> kb_handlers s (l1 ++ l2) = Some (s2, w1 ++ w2).
Proof.
  induction l1 as [|c l1 IH]; intros s l2 s1 w1 s2 w2 H1 H2; [by injection H1 as <- <-|].
  cbn [kb_handlers app] in *. destruct (kb_handler s c) as [[s3 w]|]; [|done]. cbn [mbind option_bind] in *.
  destruct (kb_handlers s3 l1) as [[s4 ws]|] eqn:E; [|done]. cbn [mbind option_bind] in H1. injection H1 as <- <-.
  rewrite (IH _ _ _ _ _ _ E H2). by destruct w.
Qed.

(** A key pressed and released. *)
Lemma tap_step s i p tm code kkc tm' w : typing s i p tm -> key_code code p kkc = true ->
  release_code (code + RELEASE_OFFSET) p p = true -> Terminal.key tm kkc (caps_locked s) = Some (tm', w) ->
  exists s', kb_handlers s (tap code) = Some (s', match w with Some w => [w] | None => [] end) /\ typing s' i p tm' /\ frame i s s'.
Proof.
  intros Hty Hk Hr Hkey. destruct (key_step _ _ _ _ _ _ _ _ Hty Hk Hkey) as (s1 & E1 & Hty1 & F1).
  destruct (release_step _ _ _ _ _ _ Hty1 Hr) as (s2 & E2 & Hty2 & F2).
  exists s2. split; [|split; [done|by eapply kb_frame_trans]].
  unfold tap. cbn [kb_handlers]. rewrite E1. cbn [mbind option_bind]. by rewrite E2.
Qed.

Lemma stroke_step s i tm k tm' : typing s i 0 tm -> typeable k ->
  Terminal.key tm (Terminal.kkc_of k) (caps_locked s) = Some (tm', None) ->
  exists s', kb_handlers s (strokes k) = Some (s', []) /\ typing s' i 0 tm' /\ frame i s s'.
Proof.
  intros Hty Hk Hkey. destruct k as [c [|]| |]; cbn [Terminal.kkc_of strokes] in *.
  - destruct Hk as [Hc Hs]. destruct (char_code_ok c KKC_SHIFT Hc Hs (or_intror eq_refl)) as [K R].
    destruct (hold_step s i 0 KKC_SHIFT tm 42 Hty eq_refl) as (s1 & E1 & Hty1 & F1).
    assert (Ec : caps_locked s1 = caps_locked s) by apply F1. rewrite <- Ec in Hkey.
    destruct (tap_step _ _ _ _ _ _ _ _ Hty1 K R Hkey) as (s2 & E2 & Hty2 & F2).
    destruct (release_step s2 i KKC_SHIFT 0 tm' (42 + RELEASE_OFFSET) Hty2 eq_refl) as (s3 & E3 & Hty3 & F3).
    exists s3. split; [|split; [done|by eapply kb_frame_trans, kb_frame_trans]].
    eapply (kb_handlers_app [42] s _ s1 [] s3 []); [cbn [kb_handlers]; by rewrite E1|].
    eapply (kb_handlers_app _ s1 _ s2 [] s3 []); [exact E2|]. cbn [kb_handlers]. by rewrite E3.
  - destruct Hk as [Hc Hs]. destruct (char_code_ok c 0 Hc Hs (or_introl eq_refl)) as [K R].
    by apply (tap_step _ _ _ _ _ _ _ None Hty K R).
  - by apply (tap_step s i 0 tm 15 Terminal.KKC_TAB tm' None Hty eq_refl eq_refl).
  - by apply (tap_step s i 0 tm 14 Terminal.KKC_BACKSPACE tm' None Hty eq_refl eq_refl).
Qed.

Lemma typeable_ok k : typeable k -> Terminal.stroke_ok k.
Proof. destruct k; [|done..]. cbn. lia. Qed.

Lemma strokes_step caps ks : forall s i tm tm', typing s i 0 tm -> Terminal.inv tm -> caps_locked s = caps ->
  Forall typeable ks -> Terminal.keys tm caps ks = Some tm' ->
  exists s', kb_handlers s (mjoin (strokes <$> ks)) = Some (s', []) /\ typing s' i 0 tm' /\ frame i s s'.
Proof.
  induction ks as [|k ks IH]; intros s i tm tm' Hty I Ec Hks Hkeys.
  - injection Hkeys as <-. by exists s.
  - apply list.Forall_cons in Hks as [Hk Hks].
    destruct (Terminal.key_stroke_spec tm k caps I (typeable_ok k Hk)) as (tm1 & E1 & I1 & _).
    cbn [Terminal.keys] in Hkeys. rewrite E1 in Hkeys. cbn [mbind option_bind] in Hkeys. rewrite <- Ec in E1.
    destruct (stroke_step s i tm k tm1 Hty Hk E1) as (s1 & H1 & Hty1 & F1).
    destruct (IH s1 i tm1 tm' Hty1 I1) as (s2 & H2 & Hty2 & F2); [rewrite <- Ec; apply F1|done|done|].
    exists s2. split; [|split; [done|by eapply kb_frame_trans]]. exact (kb_handlers_app _ _ _ _ _ _ _ H1 H2).
Qed.

(** C11: From the interrupts to the reader: when the process that reads the terminal shown
    waits, the bytes of a line's key strokes and of Enter wake it up once, with the
    line as it was typed and edited, cut to the length it asked for; the other
    terminals are as before. *)
Theorem typed_line_reaches_reader (s : t) (i : nat) (tm : Terminal.t) (ks : list Terminal.stroke) :
  typing s i 0 tm -> Terminal.inv tm -> Terminal.chars tm = [] -> Terminal.UserWaitingRead tm = true ->
  0 < Terminal.UserWaitingLen tm -> Forall typeable ks ->
  let line := reverse (foldl (Terminal.edit (caps_locked s)) [] ks) ++ [10] in
  let n := Z.min (Terminal.UserWaitingLen tm) (alen line) in
  exists s' tm',
    kb_handlers s (mjoin (strokes <$> ks) ++ enter) =
      Some (s', [(Terminal.OwnedByPid tm, Terminal.UserWaitingBuffer tm, n, take (Z.to_nat n) (u8 <$> line))]) /\
    typing s' i 0 tm' /\ Terminal.chars tm' = [] /\ Terminal.UserWaitingRead tm' = false /\ frame i s s'.
Proof.
  intros Hty I Hch Hw Hl Hks line n.
  destruct (Terminal.line_discipline tm (caps_locked s) ks I Hch Hw) as (tm1 & tm2 & n' & E1 & E2 & -> & C2 & W2); [|done|].
  { eapply List.Forall_impl; [|exact Hks]. apply typeable_ok. }
  destruct (strokes_step (caps_locked s) ks s i tm tm1 Hty I eq_refl Hks E1) as (s1 & H1 & Hty1 & F1).
  assert (Ec : caps_locked s1 = caps_locked s) by apply F1. rewrite <- Ec in E2.
  destruct (tap_step s1 i 0 tm1 28 Terminal.KKC_ENTER tm2 _ Hty1 eq_refl eq_refl E2) as (s2 & H2 & Hty2 & F2).
  rewrite Ec in H2. exists s2, tm2. split; [exact (kb_handlers_app _ _ _ _ _ _ _ H1 H2)|]. split_and!; try done. by eapply kb_frame_trans.
Qed.

(** Whatever bytes the keyboard controller sends, in whatever order, every interrupt
    is handled without a fault; the modifiers never disturb the character; every
    terminal stays well formed and the one that is shown is the only one that draws
    on the video memory. *)
Theorem keyboard_safe (l : L) (codes : list Z) :
  Forall (fun c => 0 <= c < 256) codes ->
  exists s0 s ws, init (Some l) = Some s0 /\ kb_handlers s0 codes = Some (s, ws) /\
    0 <= currClient s < numClients /\ length (textTerms s) = 6%nat /\
    forall i tm, textTerms s !! i = Some tm ->
      Terminal.inv tm /\ (Terminal.isLoadedInVmem (Terminal.scr tm) = true <-> Z.of_nat i = currClient s).
Proof.
  intros Hc. destruct (init_ok l) as (s0 & E0 & H0 & _). destruct (kb_handlers_ok codes s0 H0 Hc) as (s & ws & E & Hs).
  exists s0, s, ws. do 2 (split; [done|]). split; [apply Hs|]. split; [apply Hs|].
  intros i tm Hi. split; [by eapply ok_term|]. pose proof (ok_shown _ Hs _ _ Hi) as HL.
  unfold Terminal.loaded in HL. rewrite HL. apply bool_decide_eq_true.
Qed.

(** A switch to another client changes the contents of no terminal, and the video
    memory then holds those of the terminal shown. *)
Theorem switch_keeps_screens (s : t) (id : Z) :
  ok s -> 0 <= id < numClients ->
  exists s', switchTo s id = Some s' /\ ok s' /\ currClient s' = id /\
    (forall i, screen s' i = screen s i) /\
    (id < numTextTerms -> screen s (Z.to_nat id) = Some (vmem s')).
Proof.
  intros Hok Hid. destruct (showClient_spec s id Hok Hid) as (s' & E & Hok' & Hc & Hl & HJ).
  assert (Hscr : forall i, screen s' i = screen s i).
  { intros i. unfold screen. destruct (textTerms s' !! i) as [tm'|] eqn:Ei.
    - destruct (HJ _ _ Ei) as (tm & -> & Ev). exact (f_equal Some Ev).
    - apply lookup_ge_None in Ei. rewrite (lookup_ge_None_2 (textTerms s)) by lia. done. }
  exists s'. split_and!; try done. intros Hlt. rewrite <- Hscr. unfold screen, numTextTerms in *.
  destruct (lookup_lt_is_Some_2 (textTerms s') (Z.to_nat id)) as [tm' Ei]; [rewrite (ok_terms _ Hok'); lia|].
  rewrite Ei. apply (f_equal Some), videoMem_shown. rewrite (ok_shown _ Hok' _ _ Ei). apply bool_decide_true. lia.
Qed.
End keyboard.
#[global] Arguments t L : clear implicits.

(** A listener that does nothing. *)
#[local] Instance quiet : IEvent unit := {|
  ev_key _ _ l := l; ev_keyDown _ _ l := l; ev_keyUp _ _ l := l; ev_show l := l; ev_hide l := l |}.
(** Terminal 2 is shown, and process 3 waits there for 10 bytes. *)
Definition reading : t unit :=
  mk false 0 false 2 (<[2%nat := term_show (Terminal.read Terminal.init 3 (Some 100) 10).1]> (replicate 6 Terminal.init))
    (replicate 4000 0) (Some ()).

Lemma keyboard_safe_witness :
  exists s0 s ws, init (Some ()) = Some s0 /\ kb_handlers s0 [56; 60; 30; 0xE0; 0x18; 0xFF] = Some (s, ws).
Proof.
  destruct (keyboard_safe () [56; 60; 30; 0xE0; 0x18; 0xFF]) as (s0 & s & ws & E0 & E & _); [repeat constructor; lia|].
  by exists s0, s, ws.
Defined.

Lemma reading_terms i tm : textTerms reading !! i = Some tm ->
  Terminal.inv tm /\ Terminal.loaded tm = bool_decide (Z.of_nat i = 2).
Proof.
  intros E. pose proof (lookup_lt_Some _ _ _ E) as Hi. change (length (textTerms reading)) with 6%nat in Hi.
  unfold reading in E. cbn [textTerms] in E. destruct (decide (i = 2%nat)) as [->|Hne].
  - rewrite list_lookup_insert_eq in E by (rewrite length_replicate; lia). apply (inj Some) in E as <-.
    split; [|by rewrite term_show_loaded]. apply term_show_inv, Terminal.term_read_spec; [apply Terminal.term_init_inv|done|lia].
  - rewrite list_lookup_insert_ne in E by done. apply lookup_replicate in E as [-> _].
    split; [apply Terminal.term_init_inv|]. by rewrite bool_decide_false by lia.
Qed.

Lemma switch_keeps_screens_witness :
  exists s', switchTo reading 4 = Some s' /\ screen s' 2 = Some (replicate 4000 0).
Proof.
  destruct (switch_keeps_screens reading 4) as (s' & E & _ & _ & Hs & _); [|done|].
  - split; try reflexivity; [done|intros i tm Hi; by destruct (reading_terms i tm Hi)..|by exists ()].
  - exists s'. split; [exact E|]. rewrite Hs. reflexivity.
Defined.

Lemma typed_line_reaches_reader_witness :
  exists s', kb_handlers reading
      (mjoin (strokes <$> [Terminal.Char 97 true; Terminal.Char 49 false; Terminal.Back; Terminal.Tab; Terminal.Char 49 true])
        ++ enter) = Some (s', [(3, Some 100, 4, [65; 9; 33; 10])]).
Proof.
  destruct (typed_line_reaches_reader reading 2
    (with_vga (replicate 4000 0) (term_show (Terminal.read Terminal.init 3 (Some 100) 10).1))
    [Terminal.Char 97 true; Terminal.Char 49 false; Terminal.Back; Terminal.Tab; Terminal.Char 49 true])
    as (s' & tm' & E & _).
  - by split; [|lia|..].
  - apply with_vga_inv; [by apply (reading_terms 2)|reflexivity].
  - reflexivity.
  - reflexivity.
  - reflexivity.
  - repeat constructor; try lia; vm_compute; by eexists.
  - exists s'. exact E.
Defined.
End Keyboard.
