(* ===== verification/FileDesc.v ===== *)
(** * File descriptors (proc/tasks.cpp, inc/proc/tasks.h: [FileDescArr])

    A table of 128 descriptors; 0 and 1 are fixed, the others go through a stack of
    free numbers, with a bit set that says which are free. *)
From stdpp Require Import prelude list numbers.
From Stdlib Require Import ZArith Lia.
From S2P Require Import Prelude BitSet Stack.

Module FileDescArr.

Definition FD_ARRAY_LENGTH : Z := 128.
Definition FD_FIXED_PART : Z := 2.

Section table.
(** [File], held by pointer. *)
Context {F : Type}.

Record t := mk { content : list (option F); freeFDs : Stack.t Z; isFDfree : BitSet.t }.

Definition init : t :=
  let bits := for_range 0 FD_FIXED_PART (fun i b => BitSet.clear FD_ARRAY_LENGTH b i) (BitSet.init FD_ARRAY_LENGTH) in
  let '(bits, free) := for_range FD_FIXED_PART FD_ARRAY_LENGTH
    (fun i '(b, st) => (BitSet.set FD_ARRAY_LENGTH b i, Stack.push FD_ARRAY_LENGTH st i))
    (bits, Stack.init FD_ARRAY_LENGTH 0) in
  mk (replicate (Z.to_nat FD_ARRAY_LENGTH) None) free bits.

(** [operator[]]: the slot, read and written. *)
Definition slot (a : t) (i : Z) : option F := aget (content a) i.
Definition set_slot (a : t) (i : Z) (f : option F) : t := mk (aset (content a) i f) (freeFDs a) (isFDfree a).

Definition alloc (a : t) : option Z * t :=
  if Stack.empty (freeFDs a) then (None, a)
  else
    let '(ans, st) := Stack.pop 0 (freeFDs a) in
    (Some ans, mk (content a) st (BitSet.clear FD_ARRAY_LENGTH (isFDfree a) ans)).

(** [isValid]; the argument is converted to [size_t]. *)
Definition isValid (a : t) (i : Z) : bool :=
  let i := u32 i in
  if FD_ARRAY_LENGTH <=? i then false
  else if BitSet.test FD_ARRAY_LENGTH (isFDfree a) i then false
  else match slot a i with None => false | Some _ => true end.

Definition recycle (a : t) (i : Z) : t :=
  if BitSet.test FD_ARRAY_LENGTH (isFDfree a) i then a
  else mk (content a) (Stack.push FD_ARRAY_LENGTH (freeFDs a) i) (BitSet.set FD_ARRAY_LENGTH (isFDfree a) i).

(** ** Laws *)

Definition free (a : t) : list Z := Stack.contents (freeFDs a).
(** How many descriptors are left. *)
Definition nfree (a : t) : Z := alen (free a).

Record inv (a : t) : Prop := {
  inv_content : alen (content a) = FD_ARRAY_LENGTH;
  inv_stack : Stack.wf FD_ARRAY_LENGTH (freeFDs a);
  inv_bits : BitSet.wf FD_ARRAY_LENGTH (isFDfree a);
  inv_nodup : NoDup (free a);
  inv_range i : i ∈ free a -> FD_FIXED_PART <= i < FD_ARRAY_LENGTH;
  inv_agree i : 0 <= i < FD_ARRAY_LENGTH -> BitSet.test FD_ARRAY_LENGTH (isFDfree a) i = true <-> i ∈ free a }.

Lemma fd_init_inv : inv init /\ nfree init = 126 /\ forall i, 0 <= i < 128 -> slot init i = None.
Proof.
  split; [|split; [vm_compute; reflexivity|]].
  - split; try (vm_compute; reflexivity).
    + vm_compute. split; [reflexivity|split; congruence].
    + assert (E : free init = seqZ 2 126) by (vm_compute; reflexivity). rewrite E. apply NoDup_seqZ.
    + assert (E : free init = seqZ 2 126) by (vm_compute; reflexivity). rewrite E. intros i Hi%elem_of_seqZ.
      unfold FD_FIXED_PART, FD_ARRAY_LENGTH. lia.
    + assert (E : free init = seqZ 2 126) by (vm_compute; reflexivity). rewrite E. intros i Hi.
      assert (Hall : forallb (fun i => Bool.eqb (BitSet.test FD_ARRAY_LENGTH (isFDfree init) i) (2 <=? i)) (seqZ 0 128) = true)
        by (vm_compute; reflexivity).
      rewrite forallb_forall in Hall. specialize (Hall i).
      rewrite eqb_true_iff in Hall. rewrite Hall by (apply list_elem_of_In, elem_of_seqZ; unfold FD_ARRAY_LENGTH in Hi; lia).
      rewrite elem_of_seqZ, Z.leb_le. unfold FD_ARRAY_LENGTH in Hi. lia.
  - intros i Hi. unfold slot, aget, init. cbn [content].
    destruct (for_range _ _ _ _) as [b st]. cbn [content]. rewrite lookup_total_replicate_2; [done|].
    unfold FD_ARRAY_LENGTH. lia.
Qed.

Lemma set_slot_inv a i f : inv a -> inv (set_slot a i f).
Proof.
  intros []. split; try done. cbn. unfold aset, alen in *. by rewrite length_insert.
Qed.

Lemma slot_set a i j f : inv a -> 0 <= i < 128 -> 0 <= j < 128 ->
  slot (set_slot a i f) j = if decide (i = j) then f else slot a j.
Proof.
  intros [Hc _ _ _ _ _] Hi Hj. unfold slot, set_slot, aget, aset, alen, FD_ARRAY_LENGTH in *. cbn.
  case_decide as E; [subst|].
  - apply list_lookup_total_insert_eq. lia.
  - apply list_lookup_total_insert_ne. lia.
Qed.

Lemma alloc_spec a : inv a -> 0 < nfree a ->
  exists i a', alloc a = (Some i, a') /\ inv a' /\ 2 <= i < 128 /\ i ∈ free a /\
    nfree a' = nfree a - 1 /\ (forall j, j ∈ free a' <-> j ∈ free a /\ j <> i) /\
    (forall j, slot a' j = slot a j).
Proof.
  intros [Hc Hs Hb Hn Hr Ha] Hf. unfold alloc.
  rewrite (Stack.empty_spec FD_ARRAY_LENGTH) by done. unfold nfree, free in *.
  destruct (Stack.contents (freeFDs a)) as [|x xs _] eqn:E using rev_ind; [unfold alen in Hf; simpl in Hf; lia|].
  rewrite bool_decide_eq_false_2 by (intros ?%app_nil; naive_solver).
  destruct (Stack.pop_contents FD_ARRAY_LENGTH 0 (freeFDs a) xs x Hs E) as (Ex & Exs & Hw).
  destruct (Stack.pop 0 (freeFDs a)) as [y st]. cbn [fst snd] in Ex, Exs, Hw. subst y.
  apply list.NoDup_app in Hn as (Hn & Hd & _).
  assert (Hx : x ∉ xs) by (intros Hin; apply (Hd x Hin); by left).
  assert (Hmem : forall j, j ∈ xs <-> j ∈ xs ++ [x] /\ j <> x).
  { intros j. rewrite elem_of_app, list_elem_of_singleton. split.
    - intros Hj. split; [by left|]. by intros ->.
    - intros [[?|?] ?]; done. }
  assert (Hxr : 2 <= x < 128) by (apply Hr, elem_of_app; right; by left).
  eexists x, _. split; [reflexivity|]. split; [|split; [done|split; [apply elem_of_app; right; by left|]]].
  - split; unfold free; cbn; rewrite ?Exs; try done.
    + by apply BitSet.bs_wf_clear.
    + intros i Hi. apply Hr, elem_of_app. by left.
    + intros i Hi. rewrite Hmem. destruct (decide (i = x)) as [->|Hne].
      * rewrite BitSet.test_clear_same by (done || unfold FD_ARRAY_LENGTH in *; lia). naive_solver.
      * rewrite BitSet.test_clear_ne by (done || lia). rewrite Ha by done. naive_solver.
  - unfold free. cbn. rewrite Exs. split; [unfold alen; rewrite length_app; simpl; lia|done].
Qed.

Lemma alloc_full a : inv a -> nfree a = 0 -> alloc a = (None, a).
Proof.
  intros [Hc Hs Hb Hn Hr Ha] Hf. unfold alloc. rewrite (Stack.empty_spec FD_ARRAY_LENGTH) by done.
  unfold nfree, free, alen in Hf. destruct (Stack.contents _); [done|simpl in Hf; lia].
Qed.

Lemma recycle_spec a i : inv a -> 2 <= i < 128 -> i ∉ free a ->
  let a' := recycle a i in
  inv a' /\ nfree a' = nfree a + 1 /\ (forall j, j ∈ free a' <-> j ∈ free a \/ j = i) /\
  (forall j, slot a' j = slot a j).
Proof.
  intros [Hc Hs Hb Hn Hr Ha] Hi Hf. unfold recycle. cbv zeta.
  assert (Ht : BitSet.test FD_ARRAY_LENGTH (isFDfree a) i = false).
  { destruct (BitSet.test _ _ _) eqn:E; [|done]. apply Ha in E; [done|unfold FD_ARRAY_LENGTH; lia]. }
  rewrite Ht. unfold nfree, free in *. cbn.
  assert (Hlen : Stack.idx (freeFDs a) < 128).
  { rewrite <- (Stack.length_contents 128) by done.
    assert (Hsub : Stack.contents (freeFDs a) ⊆+ seqZ 2 126).
    { apply NoDup_submseteq; [done|]. intros x Hx. apply elem_of_seqZ.
      specialize (Hr x Hx). unfold FD_FIXED_PART, FD_ARRAY_LENGTH in Hr. lia. }
    apply submseteq_length in Hsub. rewrite length_seqZ in Hsub. lia. }
  assert (E : Stack.contents (Stack.push FD_ARRAY_LENGTH (freeFDs a) i) = Stack.contents (freeFDs a) ++ [i]).
  { rewrite Stack.contents_push by done. rewrite decide_True by (unfold FD_ARRAY_LENGTH; lia). done. }
  rewrite E. split; [|split; [unfold alen; rewrite length_app; simpl; lia|split; [|done]]].
  - split; unfold free; cbn; rewrite ?E; try done.
    + by apply Stack.stack_wf_push.
    + by apply BitSet.bs_wf_set.
    + apply list.NoDup_app. split; [done|]. split; [|apply NoDup_singleton].
      intros x Hx ->%list_elem_of_singleton. done.
    + intros j [Hj| ->%list_elem_of_singleton]%elem_of_app; [by apply Hr|]. unfold FD_FIXED_PART, FD_ARRAY_LENGTH. lia.
    + intros j Hj. rewrite elem_of_app, list_elem_of_singleton. destruct (decide (i = j)) as [->|Hne].
      * rewrite BitSet.test_set_same by (done || unfold FD_ARRAY_LENGTH; lia). naive_solver.
      * rewrite BitSet.test_set_ne by (done || unfold FD_ARRAY_LENGTH in *; lia). rewrite Ha by done. naive_solver.
  - intros j. rewrite elem_of_app, list_elem_of_singleton. done.
Qed.

(** A descriptor that was handed out and filled is valid. *)
Lemma isValid_spec a i f : inv a -> 0 <= i < 128 -> i ∉ free a -> slot a i = Some f -> isValid a i = true.
Proof.
  intros [Hc Hs Hb Hn Hr Ha] Hi Hf Hsl. unfold isValid. cbv zeta. rewrite u32_small by lia.
  unfold FD_ARRAY_LENGTH at 1. rewrite (proj2 (Z.leb_gt _ _)) by lia.
  destruct (BitSet.test _ _ _) eqn:E; [apply Ha in E; [done|unfold FD_ARRAY_LENGTH; lia]|]. by rewrite Hsl.
Qed.
End table.
#[global] Arguments t F : clear implicits.
End FileDescArr.
