(* ===== verification/Sys.v ===== *)
(** * User programs and the system-call interface (syscalls/ece391syscall.h)

    A user program is a function of the state [S] of the system it runs on. It
    ends with a value, by halting, by a processor exception, or not at all (the
    fuel of a loop is out, or the C code has no defined behaviour). The calls of
    [ece391syscall.h] are the methods of [Sys]; programs are verified against the
    contract [FileSys], which the kernel's calls are shown to keep. *)
From stdpp Require Import prelude list numbers strings.
From Stdlib Require Import ZArith Lia.
From S2P Require Import Prelude UserLib.

Inductive res (S A : Type) : Type :=
  | Done (a : A) (s : S)
  | Halted (status : Z) (s : S)
  | Trap (s : S)
  | Stuck.
#[global] Arguments Done {S A} _ _.
#[global] Arguments Halted {S A} _ _.
#[global] Arguments Trap {S A} _.
#[global] Arguments Stuck {S A}.

Definition prog (S A : Type) : Type := S -> res S A.

#[global] Instance prog_ret S : MRet (prog S) := fun A a s => Done a s.
#[global] Instance prog_bind S : MBind (prog S) := fun A B f m s =>
  match m s with
  | Done a s => f a s
  | Halted st s => Halted st s
  | Trap s => Trap s
  | Stuck => Stuck
  end.

(** A memory access of the program. *)
Definition lift {S A} (o : option A) : prog S A :=
  fun s => match o with Some a => Done a s | None => Stuck end.
Definition stuck {S A} : prog S A := fun _ => Stuck.
(** A processor exception. *)
Definition trap {S A} : prog S A := fun s => Trap s.

(** The system calls on files. A file name is the list of its bytes; a call that
    fills a buffer gives the bytes it stores from the buffer's start. *)
Class Sys (S : Type) := {
  sys_read : Z -> Z -> prog S (Z * list Z);
  sys_write : Z -> list Z -> Z -> prog S Z;
  sys_open : list Z -> prog S Z;
  sys_close : Z -> prog S Z;
  sys_getargs : Z -> prog S (Z * list Z) }.

(** Those on processes: [sys_other] is [int $0x80] with any number. *)
Class ProcSys (S : Type) := {
  sys_halt : Z -> prog S Z;
  sys_execute : list Z -> prog S Z;
  sys_vidmap : Z -> prog S Z;
  sys_set_handler : Z -> prog S Z;
  sys_other : Z -> prog S Z }.

(** The bytes of a literal, and the object the compiler makes of it. *)
Definition bytes_of (x : string) : list Z :=
  (fun a => Z.of_N (Ascii.N_of_ascii a)) <$> String.list_ascii_of_string x.
Definition lit (x : string) : list Z := bytes_of x ++ [0].

(** [char] is signed. *)
Definition schar (c : Z) : Z := if c <? 128 then c else c - 256.

(** Several bytes stored from [p] on; the [n] bytes from [p]. *)
Definition store_bytes (buf : list Z) (p : Z) (bs : list Z) : option (list Z) :=
  if (0 <=? p) && (p + alen bs <=? alen buf)
  then Some (take (Z.to_nat p) buf ++ bs ++ drop (Z.to_nat (p + alen bs)) buf) else None.
Definition load_bytes (buf : list Z) (p n : Z) : option (list Z) :=
  if (0 <=? p) && (p + Z.max 0 n <=? alen buf)
  then Some (take (Z.to_nat n) (drop (Z.to_nat p) buf)) else None.

(** The NUL-terminated string at [p]. *)
Definition string_at (mem : list Z) (p : Z) : option (list Z) :=
  n ← UserLib.strlen mem p; load_bytes mem p n.

Section calls.
Context {S : Type} `{Sys S}.

Definition ece391_read (fd : Z) (buf : list Z) (p nbytes : Z) : prog S (Z * list Z) :=
  '(r, bs) ← sys_read fd nbytes;
  buf ← lift (store_bytes buf p bs);
  mret (r, buf).
Definition ece391_write (fd : Z) (buf : list Z) (p nbytes : Z) : prog S Z :=
  bs ← lift (load_bytes buf p nbytes);
  sys_write fd bs nbytes.
Definition ece391_open (mem : list Z) (p : Z) : prog S Z :=
  name ← lift (string_at mem p);
  sys_open name.
Definition ece391_getargs (buf : list Z) (nbytes : Z) : prog S (Z * list Z) :=
  '(r, bs) ← sys_getargs nbytes;
  buf ← lift (store_bytes buf 0 bs);
  mret (r, buf).

(** [ece391_fdputs] (ece391support.c). *)
Definition fdputs (fd : Z) (mem : list Z) (p : Z) : prog S unit :=
  n ← lift (UserLib.strlen mem p);
  _ ← ece391_write fd mem p (s32 n);
  mret tt.
Definition puts (x : list Z) : prog S unit := fdputs 1 x 0.
End calls.

Definition ece391_execute {S} `{ProcSys S} (mem : list Z) (p : Z) : prog S Z :=
  cmd ← lift (string_at mem p);
  sys_execute cmd.

(** ** The contract of the file calls *)

(** What a program may know of the system's state. [is_open s fd c off]: [fd] is
    open on a file with the bytes [c], at [off]. [dir_open s fd ns]: [fd] is open on
    the directory, with the names [ns] still to come. [args]: the argument string.
    [named s nm c]: the file [nm] holds [c]. [directory s ns]: the names in the
    directory. [terminal s out]: descriptor 1 is the terminal, which has shown [out].
    [room s n]: [n] more files can be opened. *)
Class FileView (S : Type) := {
  is_open : S -> Z -> list Z -> Z -> Prop;
  dir_open : S -> Z -> list (list Z) -> Prop;
  args : S -> list Z -> Prop;
  named : S -> list Z -> list Z -> Prop;
  directory : S -> list (list Z) -> Prop;
  terminal : S -> list Z -> Prop;
  room : S -> Z -> Prop }.

(** Nothing but [fd], the terminal's contents and the room differs. *)
Record frame {S} `{FileView S} (fd : Z) (s s' : S) : Prop := {
  frame_open fd' c off : fd' <> fd -> is_open s fd' c off -> is_open s' fd' c off;
  frame_dir fd' ns : fd' <> fd -> dir_open s fd' ns -> dir_open s' fd' ns;
  frame_named nm c : named s nm c -> named s' nm c }.

Definition same_room {S} `{FileView S} (s s' : S) : Prop := forall n, room s n -> room s' n.

(** [fd] is not open. *)
Definition fresh {S} `{FileView S} (fd : Z) (s : S) : Prop :=
  (forall c off, ~ is_open s fd c off) /\ (forall ns, ~ dir_open s fd ns).

(** The laws. A read gives the right bytes when it stays in one 4096-byte block or
    starts at one. *)
Class FileSys (S : Type) `{Sys S, FileView S} : Prop := {
  fs_room s n m : room s n -> m <= n -> room s m;
  fs_read s fd c off n out : is_open s fd c off -> terminal s out ->
    0 <= off <= alen c -> 0 < n < 2 ^ 31 ->
    off mod 4096 = 0 \/ off mod 4096 + Z.min n (alen c - off) <= 4096 ->
    exists s', sys_read fd n s =
        Done (Z.min n (alen c - off),
              take (Z.to_nat (Z.min n (alen c - off))) (drop (Z.to_nat off) c)) s' /\
      is_open s' fd c (off + Z.min n (alen c - off)) /\ terminal s' out /\ frame fd s s' /\ same_room s s';
  fs_write s bs out : terminal s out -> alen bs < 2 ^ 31 -> Forall (fun c => c <> 0) bs ->
    exists s', sys_write 1 bs (alen bs) s = Done (alen bs) s' /\ terminal s' (out ++ bs) /\
      frame 1 s s' /\ same_room s s';
  fs_open s nm c out : named s nm c -> terminal s out -> room s 1 ->
    exists fd s', sys_open nm s = Done fd s' /\ 1 < fd < 2 ^ 31 /\ fresh fd s /\
      is_open s' fd c 0 /\ terminal s' out /\ frame fd s s' /\ (forall n, room s n -> room s' (n - 1));
  fs_close s fd c off out : is_open s fd c off -> 1 < fd -> terminal s out ->
    exists s', sys_close fd s = Done 0 s' /\ terminal s' out /\ frame fd s s' /\
      (forall n, room s n -> room s' (n + 1));
  fs_getargs s a n out : args s a -> alen a < n -> n < 2 ^ 31 -> terminal s out ->
    exists s', sys_getargs n s = Done (0, a ++ [0]) s' /\ terminal s' out /\ frame 1 s s' /\
      same_room s s' /\ (forall ns, directory s ns -> directory s' ns);
  fs_opendir s ns out : directory s ns -> terminal s out -> room s 1 ->
    exists fd s', sys_open [46] s = Done fd s' /\ 1 < fd < 2 ^ 31 /\ fresh fd s /\
      dir_open s' fd ns /\ terminal s' out /\ frame fd s s' /\ (forall n, room s n -> room s' (n - 1));
  fs_readdir s fd nm ns n out : dir_open s fd (nm :: ns) -> terminal s out ->
    alen nm < n -> n < 2 ^ 31 ->
    exists s', sys_read fd n s =
        Done (alen nm, nm ++ replicate (Z.to_nat (n - alen nm)) 0) s' /\
      dir_open s' fd ns /\ terminal s' out /\ frame fd s s' /\ same_room s s';
  fs_readdir_end s fd n out : dir_open s fd [] -> terminal s out ->
    exists s', sys_read fd n s = Done (0, []) s' /\ dir_open s' fd [] /\ terminal s' out /\
      frame fd s s' /\ same_room s s' }.

(** ** Laws *)

Lemma prog_bind_done {S A B} (m : prog S A) (f : A -> prog S B) s a s' :
  m s = Done a s' -> (m ≫= f) s = f a s'.
Proof. unfold mbind, prog_bind. by intros ->. Qed.

Lemma lift_bind {S A B} (o : option A) (f : A -> prog S B) s a :
  o = Some a -> (lift o ≫= f) s = f a s.
Proof. by intros ->. Qed.

Lemma store_bytes_spec pre mid post bs :
  length bs = length mid -> store_bytes (pre ++ mid ++ post) (alen pre) bs = Some (pre ++ bs ++ post).
Proof.
  intros E. unfold store_bytes, alen. rewrite !length_app.
  destruct (Z.leb_spec 0 (Z.of_nat (length pre))); [|lia].
  destruct (Z.leb_spec (Z.of_nat (length pre) + Z.of_nat (length bs))
    (Z.of_nat (length pre + (length mid + length post)))); [|lia]. cbn [andb].
  rewrite !Nat2Z.id, take_app_length. f_equal. do 2 f_equal.
  rewrite app_assoc, drop_app_length'; [done|]. rewrite length_app. lia.
Qed.

Lemma store_bytes_0 buf bs :
  alen bs <= alen buf -> store_bytes buf 0 bs = Some (bs ++ drop (length bs) buf).
Proof.
  unfold alen. intros Hle. rewrite <- (take_drop (length bs) buf) at 1.
  apply (store_bytes_spec [] _ (drop (length bs) buf) bs). rewrite length_take. lia.
Qed.

Lemma load_bytes_0 bs rest : load_bytes (bs ++ rest) 0 (alen bs) = Some bs.
Proof.
  unfold load_bytes, alen. rewrite length_app, Z.max_r by lia.
  destruct (Z.leb_spec (0 + Z.of_nat (length bs)) (Z.of_nat (length bs + length rest))); [|lia].
  cbn [Z.leb Z.compare andb]. rewrite Nat2Z.id, drop_0. by rewrite take_app_length.
Qed.

Lemma load_bytes_spec pre bs post : load_bytes (pre ++ bs ++ post) (alen pre) (alen bs) = Some bs.
Proof.
  unfold load_bytes, alen. rewrite !length_app, Z.max_r by lia.
  destruct (Z.leb_spec 0 (Z.of_nat (length pre))); [|lia].
  destruct (Z.leb_spec (Z.of_nat (length pre) + Z.of_nat (length bs))
    (Z.of_nat (length pre + (length bs + length post)))); [|lia].
  cbn [andb]. rewrite !Nat2Z.id, drop_app_length. by rewrite take_app_length.
Qed.

Lemma cstr_split pre w post : Forall (fun c => c <> 0) w -> UserLib.cstr (pre ++ w ++ 0 :: post) (alen pre) w.
Proof.
  intros Hw. split; [unfold alen; lia|]. split; [done|]. unfold alen.
  rewrite Nat2Z.id, drop_app_length.
  replace (w ++ 0 :: post) with ((w ++ [0]) ++ post) by by rewrite <- app_assoc.
  rewrite take_app_length'; [done|]. rewrite length_app. simpl. lia.
Qed.

Lemma strlen_split pre w post :
  Forall (fun c => c <> 0) w -> alen w < 2 ^ 32 ->
  UserLib.strlen (pre ++ w ++ 0 :: post) (alen pre) = Some (alen w).
Proof. intros Hw Hl. apply UserLib.strlen_spec; [by apply cstr_split|done]. Qed.

Lemma string_at_spec pre w post :
  Forall (fun c => c <> 0) w -> alen w < 2 ^ 32 ->
  string_at (pre ++ w ++ 0 :: post) (alen pre) = Some w.
Proof.
  intros Hw Hl. unfold string_at. rewrite strlen_split by done. cbn [mbind option_bind].
  apply load_bytes_spec.
Qed.

Section file_laws.
Context {S : Type} `{Sys S, !FileView S, !FileSys S}.

Lemma frame_refl fd (s : S) : frame fd s s.
Proof. by split. Qed.
Lemma frame_trans fd (s1 s2 s3 : S) : frame fd s1 s2 -> frame fd s2 s3 -> frame fd s1 s3.
Proof.
  intros F1 F2. split; intros.
  - apply F2; [done|]. by apply F1.
  - apply F2; [done|]. by apply F1.
  - by apply F2, F1.
Qed.

(** Only the terminal was written to. *)
Definition calm (s s' : S) : Prop := frame 1 s s' /\ same_room s s'.
Lemma calm_refl s : calm s s.
Proof. split; [apply frame_refl|by intros n]. Qed.
Lemma calm_trans s1 s2 s3 : calm s1 s2 -> calm s2 s3 -> calm s1 s3.
Proof. intros [F1 R1] [F2 R2]. split; [by eapply frame_trans|]. intros n Hn. by apply R2, R1. Qed.

(** [fdputs] of a string on the terminal. *)
Lemma fdputs_spec s pre w post out :
  Forall (fun c => c <> 0) w -> alen w < 2 ^ 31 -> terminal s out ->
  exists s', fdputs 1 (pre ++ w ++ 0 :: post) (alen pre) s = Done tt s' /\
    terminal s' (out ++ w) /\ calm s s'.
Proof.
  intros Hw Hl Ht. destruct (fs_write s w out Ht Hl Hw) as (s' & Hs & Ht' & F).
  exists s'. split; [|done]. unfold fdputs. rewrite (lift_bind _ _ _ (alen w)) by (apply strlen_split; [done|lia]).
  rewrite s32_small by (unfold alen in *; lia).
  erewrite prog_bind_done; [reflexivity|]. unfold ece391_write.
  by rewrite (lift_bind _ _ _ w) by apply load_bytes_spec.
Qed.

Lemma puts_lit_spec s x w out :
  x = w ++ [0] -> Forall (fun c => c <> 0) w -> alen w < 2 ^ 31 -> terminal s out ->
  exists s', puts x s = Done tt s' /\ terminal s' (out ++ w) /\ calm s s'.
Proof. intros -> Hw Hl Ht. by apply (fdputs_spec s [] w []). Qed.

Lemma open_spec s pre nm post c out :
  Forall (fun c => c <> 0) nm -> alen nm < 2 ^ 32 -> named s nm c -> terminal s out -> room s 1 ->
  exists fd s', ece391_open (pre ++ nm ++ 0 :: post) (alen pre) s = Done fd s' /\ 1 < fd < 2 ^ 31 /\
    fresh fd s /\ is_open s' fd c 0 /\ terminal s' out /\ frame fd s s' /\
    (forall n, room s n -> room s' (n - 1)).
Proof.
  intros Hn Hl Hc Ht Hr. destruct (fs_open s nm c out Hc Ht Hr) as (fd & s' & Hs & Hrest).
  exists fd, s'. split; [|done]. unfold ece391_open.
  by rewrite (lift_bind _ _ _ nm) by by apply string_at_spec.
Qed.

(** A read into the start of a buffer. *)
Lemma read_spec s fd c off n buf out :
  is_open s fd c off -> terminal s out -> 0 <= off <= alen c -> 0 < n < 2 ^ 31 -> n <= alen buf ->
  off mod 4096 = 0 \/ off mod 4096 + Z.min n (alen c - off) <= 4096 ->
  exists s', let got := take (Z.to_nat (Z.min n (alen c - off))) (drop (Z.to_nat off) c) in
    ece391_read fd buf 0 n s = Done (alen got, got ++ drop (length got) buf) s' /\
    alen got = Z.min n (alen c - off) /\
    is_open s' fd c (off + alen got) /\ terminal s' out /\ frame fd s s' /\ same_room s s'.
Proof.
  intros Ho Ht Hoff Hn Hb Hc. destruct (fs_read s fd c off n out Ho Ht Hoff Hn Hc) as (s' & Hs & Hrest).
  exists s'. cbv zeta. set (got := take _ _) in *.
  assert (Hg : alen got = Z.min n (alen c - off)).
  { unfold got, alen in *. rewrite length_take, length_drop. lia. }
  rewrite Hg in *. split; [|done]. unfold ece391_read. rewrite (prog_bind_done _ _ _ _ _ Hs).
  cbn beta iota. rewrite (lift_bind _ _ _ (got ++ drop (length got) buf)); [done|].
  apply store_bytes_0. lia.
Qed.
End file_laws.
