(* ===== verification/Kernel.v ===== *)
(** * The kernel's file calls (fs/filesystem.cpp, fs/devfs.cpp,
      syscalls/filesystem_wrapper.cpp, syscalls/getargs.cpp, drivers/fops_kbterm.cpp)

    The dispatcher finds the file system of a path in the mount table; a process
    reaches its files through its descriptors. [None] is a fault of the kernel or a
    call that never returns. The check of user pointers is in SysCall.v. *)
From stdpp Require Import prelude list numbers strings.
From Stdlib Require Import ZArith Lia.
From S2P Require Import Prelude LPHash KissFS PrefixTree Terminal FileDesc Sys.

(** ** Devices (inc/fs/fops.h) *)

(** [IFOps] on a world [W], instances in [D]; a [FOpsGetter] is a number. *)
Class IFOps (W D : Type) := {
  getNewInstance : Z -> W -> option D * W;
  dev_read : D -> Z -> W -> option (Z * list Z * W);
  dev_write : D -> list Z -> Z -> W -> option (Z * W);
  dev_canSeek : D -> bool;
  dev_seekCallback : D -> Z -> W -> W;
  dev_delete : D -> W -> W }.

Module Console.

(** The process's terminal, and the keys that will be pressed while it waits. *)
Record t := mk { currTerm : option Terminal.t; pid : Z; typed : list (Z * bool) }.
Inductive fops := TermFOps | KeyBFOps.

(** A blocked read: keys come in until one wakes the process. *)
Fixpoint wait (tm : Terminal.t) (ks : list (Z * bool)) : option (Z * list Z * Terminal.t * list (Z * bool)) :=
  match ks with
  | [] => None
  | (kkc, caps) :: ks =>
      '(tm, w) ← Terminal.key tm kkc caps;
      match w with
      | Some (_, _, n, bs) => Some (n, bs, tm, ks)
      | None => wait tm ks
      end
  end.

Definition new (g : Z) (w : t) : option fops * t :=
  match currTerm w with
  | None => (None, w)
  | Some _ => (Some (if g =? 0 then TermFOps else KeyBFOps), w)
  end.

(** [Term::FOps] and [KeyB::FOps]; the user buffer's address is left open. *)
Definition read (d : fops) (n : Z) (w : t) : option (Z * list Z * t) :=
  match d with
  | TermFOps => Some (-1, [], w)
  | KeyBFOps =>
      match currTerm w with
      | None => Some (-1, [], w)
      | Some tm =>
          match Terminal.read tm (pid w) (Some 0) n with
          | (tm, Terminal.Returns r bs) => Some (r, bs, mk (Some tm) (pid w) (typed w))
          | (tm, Terminal.Blocks) =>
              '(r, bs, tm, ks) ← wait tm (typed w);
              Some (r, bs, mk (Some tm) (pid w) ks)
          end
      end
  end.

Definition write (d : fops) (buf : list Z) (n : Z) (w : t) : option (Z * t) :=
  match d with
  | KeyBFOps => Some (-1, w)
  | TermFOps =>
      match currTerm w with
      | None => Some (-1, w)
      | Some tm => '(tm, r) ← Terminal.write tm buf n; Some (r, mk (Some tm) (pid w) (typed w))
      end
  end.

(** [~FOps]. *)
Definition delete (d : fops) (w : t) : t :=
  match d, currTerm w with
  | KeyBFOps, Some tm => mk (Some (Terminal.setOwner tm (-1))) (pid w) (typed w)
  | _, _ => w
  end.

#[global] Instance console_fops : IFOps t fops := {|
  getNewInstance := new;
  dev_read := read;
  dev_write := write;
  dev_canSeek _ := false;
  dev_seekCallback _ _ w := w;
  dev_delete := delete |}.
End Console.

Module Kernel.

Section kernel.
Context {W D : Type} `{IFOps W D}.

(** [AbstractFS *]: the two file systems. *)
Inductive fsid := Kiss | Dev.

(** [File], with the data its file system keeps for it. *)
Inductive fs_data := KissData (d : KissFS.fd_data) | DevData (d : D).
Record file := mk_file { offset : Z; data : fs_data }.

(** The process's part and the kernel's. *)
Record t := mk {
  fileDescs : FileDescArr.t file;
  fdInitialized : bool;
  arg : option (list Z);
  lookup : PrefixTree.t (T := option fsid);
  kiss : KissFS.t;
  deviceOfFilename : LPHash.t (K := list Z) (V := Z);
  world : W }.

Definition set_fds (k : t) (a : FileDescArr.t file) : t :=
  mk a (fdInitialized k) (arg k) (lookup k) (kiss k) (deviceOfFilename k) (world k).
Definition set_world (k : t) (w : W) : t :=
  mk (fileDescs k) (fdInitialized k) (arg k) (lookup k) (kiss k) (deviceOfFilename k) w.
Definition set_init (k : t) : t :=
  mk (fileDescs k) true (arg k) (lookup k) (kiss k) (deviceOfFilename k) (world k).

(** ** [DevFS] *)

Definition DevTableSize : Z := 37.

Definition registerDevice (tab : LPHash.t (K := list Z) (V := Z)) (path : list Z) (getterFn : Z) :=
  LPHash.put DevTableSize tab path getterFn.

(** [DevFS::open]: [Some None] is [false]. *)
Definition dev_open (k : t) (name : list Z) : option (option D * W) :=
  '(g, found) ← LPHash.get DevTableSize 0 (deviceOfFilename k) name;
  if negb found then Some (None, world k) else Some (getNewInstance g (world k)).

(** ** [Dispatcher] *)

(** [mountAll] *)
Definition mountAll : option (PrefixTree.t (T := option fsid)) :=
  tr ← PrefixTree.init None;
  tr ← PrefixTree.insert None tr [47] (Some Kiss);
  PrefixTree.insert None tr [47; 100; 101; 118; 47] (Some Dev).

Definition rtc : list Z := [114; 116; 99].
Definition dev_rtc : list Z := [47; 100; 101; 118; 47; 114; 116; 99].

(** The path [Dispatcher::open] looks up; a name of 69 characters and more leaves
    [goodName] without a terminator. *)
Definition good_name (filename : list Z) : option (list Z) :=
  let fn := if Filename.strncmp filename rtc 0 4 =? 0 then dev_rtc else filename in
  if Filename.char_at fn 0 =? 47 then Some fn
  else if 69 <=? alen fn then None else Some (47 :: fn).

Definition dispatch_open (k : t) (filename : list Z) : option (option file * t) :=
  fn ← good_name filename;
  '(val, len) ← PrefixTree.search None (lookup k) fn;
  let name := drop (Z.to_nat len) fn in
  match val with
  | None => Some (None, k)
  | Some Kiss =>
      r ← KissFS.open (kiss k) name;
      Some (match r with Some d => Some (mk_file 0 (KissData d)) | None => None end, k)
  | Some Dev =>
      '(r, w) ← dev_open k name;
      Some (match r with Some d => Some (mk_file 0 (DevData d)) | None => None end, set_world k w)
  end.

(** [Dispatcher::read]: the result, the bytes stored, the file. *)
Definition dispatch_read (k : t) (f : file) (nbytes : Z) : option (Z * list Z * file * t) :=
  '(result, bs, d, k) ←
    match data f with
    | KissData d => '(r, bs, d) ← KissFS.read (kiss k) d (offset f) (u32 nbytes); Some (r, bs, KissData d, k)
    | DevData d => '(r, bs, w) ← dev_read d (s32 nbytes) (world k); Some (r, bs, DevData d, set_world k w)
    end;
  if result =? -1 then Some (-1, bs, mk_file (offset f) d, k)
  else Some (result, bs, mk_file (u32 (offset f + result)) d, k).

Definition dispatch_write (k : t) (f : file) (buf : list Z) (nbytes : Z) : option (Z * file * t) :=
  '(result, k) ←
    match data f with
    | KissData d => Some (KissFS.write (kiss k) d (offset f) buf, k)
    | DevData d => '(r, w) ← dev_write d buf (s32 nbytes) (world k); Some (r, set_world k w)
    end;
  if result =? -1 then Some (-1, f, k)
  else Some (result, mk_file (u32 (offset f + result)) (data f), k).

Definition dispatch_close (k : t) (f : file) : bool * t :=
  match data f with
  | KissData d => (KissFS.close (kiss k) d, k)
  | DevData d => (true, set_world k (dev_delete d (world k)))
  end.

(** The mode, and the size when it is written. *)
Definition dispatch_fstat (k : t) (f : file) : option (Z * option Z) :=
  match data f with
  | KissData d => KissFS.fstat (kiss k) d
  | DevData _ => Some (KissFS.S_IFCHR, None)
  end.

Definition canSeek (f : file) : bool :=
  match data f with KissData d => KissFS.canSeek d | DevData d => dev_canSeek d end.

(** [Dispatcher::lseek] *)
Definition dispatch_lseek (k : t) (f : file) (off whence : Z) : option (Z * file * t) :=
  if negb (canSeek f) then Some (-1, f, k)
  else
    fileSize ← match data f with KissData d => KissFS.getFileSize (kiss k) d | DevData _ => Some None end;
    let go o :=
      let k := match data f with KissData _ => k | DevData d => set_world k (dev_seekCallback d o (world k)) end in
      Some (s32 o, mk_file o (data f), k) in
    if whence =? 0 then go (u32 off)
    else if whence =? 1 then go (u32 (offset f + off))
    else if whence =? 2 then
      match fileSize with None => Some (-1, f, k) | Some sz => go (u32 (sz + off)) end
    else Some (-1, f, k).

(** ** The system calls *)

Definition path_keyb : list Z := [47; 100; 101; 118; 47; 107; 101; 121; 98].
Definition path_term : list Z := [47; 100; 101; 118; 47; 116; 101; 114; 109].

Definition ensureFdInitialized (k : t) : option (bool * t) :=
  if fdInitialized k then Some (true, k)
  else
    '(f, k) ← dispatch_open k path_keyb;
    match f with
    | None => Some (false, k)
    | Some f =>
        let k := set_fds k (FileDescArr.set_slot (fileDescs k) 0 (Some f)) in
        '(f, k) ← dispatch_open k path_term;
        match f with
        | None => Some (false, k)
        | Some f => Some (true, set_init (set_fds k (FileDescArr.set_slot (fileDescs k) 1 (Some f))))
        end
    end.

(** The file behind a descriptor, as [read], [write], [fstat] and [lseek] find it. *)
Definition with_file {A} (k : t) (fd : Z) (fail : A) (body : t -> file -> option (A * t)) : option (A * t) :=
  '(ok, k) ← ensureFdInitialized k;
  if negb ok then Some (fail, k)
  else if negb (FileDescArr.isValid (fileDescs k) fd) then Some (fail, k)
  else
    match FileDescArr.slot (fileDescs k) (u32 fd) with
    | None => None
    | Some f => body k f
    end.

Definition put_file (k : t) (fd : Z) (f : file) : t :=
  set_fds k (FileDescArr.set_slot (fileDescs k) (u32 fd) (Some f)).

Definition read (fd nbytes : Z) (k : t) : option (Z * list Z * t) :=
  with_file k fd (-1, []) (fun k f =>
    '(r, bs, f, k) ← dispatch_read k f nbytes; Some (r, bs, put_file k fd f)).

Definition write (fd : Z) (buf : list Z) (nbytes : Z) (k : t) : option (Z * t) :=
  with_file k fd (-1) (fun k f =>
    '(r, f, k) ← dispatch_write k f buf nbytes; Some (r, put_file k fd f)).

Definition open (filename : list Z) (k : t) : option (Z * t) :=
  '(ok, k) ← ensureFdInitialized k;
  if negb ok then Some (-1, k)
  else
    let '(fdSlotMaybe, a) := FileDescArr.alloc (fileDescs k) in
    let k := set_fds k a in
    match fdSlotMaybe with
    | None => Some (-1, k)
    | Some fd =>
        '(f, k) ← dispatch_open k filename;
        match f with
        | None => Some (-1, k)
        | Some f => Some (fd, set_fds k (FileDescArr.set_slot (fileDescs k) fd (Some f)))
        end
    end.

Definition close (fd : Z) (k : t) : option (Z * t) :=
  if (fd =? 0) || (fd =? 1) then Some (-1, k)
  else
    with_file k fd (-1) (fun k f =>
      let '(res, k) := dispatch_close k f in
      if negb res then Some (-1, k)
      else
        let a := FileDescArr.set_slot (fileDescs k) (u32 fd) None in
        Some (0, set_fds k (FileDescArr.recycle a (u32 fd)))).

Definition fstat (fd : Z) (k : t) : option (Z * (Z * option Z) * t) :=
  with_file k fd (-1, (0, None)) (fun k f => st ← dispatch_fstat k f; Some (0, st, k)).

Definition lseek (fd off whence : Z) (k : t) : option (Z * t) :=
  with_file k fd (-1) (fun k f =>
    '(r, f, k) ← dispatch_lseek k f off whence; Some (r, put_file k fd f)).

(** [getargs] *)
Definition getargs (nbytes : Z) (k : t) : option (Z * list Z * t) :=
  match arg k with
  | None => Some (0, [0], k)
  | Some a => if nbytes <? s32 (alen a) + 1 then Some (-1, [], k) else Some (0, a ++ [0], k)
  end.

Definition to_res {A} (r : option (A * t)) : res t A :=
  match r with Some (a, k) => Done a k | None => Stuck end.

#[global] Instance kernel_sys : Sys t := {|
  sys_read fd n := fun k => to_res (read fd n k);
  sys_write fd bs n := fun k => to_res (write fd bs n k);
  sys_open nm := fun k => to_res (open nm k);
  sys_close fd := fun k => to_res (close fd k);
  sys_getargs n := fun k => to_res (getargs n k) |}.
End kernel.
#[global] Arguments t W D : clear implicits.
#[global] Arguments file D : clear implicits.
#[global] Arguments fs_data D : clear implicits.

(** ** The mount table *)

Lemma mountAll_spec : exists tr, mountAll = Some tr /\ PrefixTree.inv None tr /\
  forall key, PrefixTree.get None tr key =
    if decide (key = [47; 100; 101; 118; 47]) then Some (Some Dev)
    else if decide (key = [47]) then Some (Some Kiss) else None.
Proof.
  unfold mountAll. destruct (PrefixTree.init_spec (T := option fsid) None) as (t0 & -> & I0 & G0 & U0).
  cbn [mbind option_bind].
  destruct (PrefixTree.insert_spec None t0 [47] (Some Kiss) I0) as (t1 & -> & I1 & G1 & U1);
    [repeat constructor; lia|rewrite U0; unfold alen; simpl; lia|]. cbn [mbind option_bind].
  rewrite U0 in U1. unfold alen in U1. simpl in U1.
  destruct (PrefixTree.insert_spec None t1 [47; 100; 101; 118; 47] (Some Dev) I1) as (t2 & -> & I2 & G2 & _);
    [repeat constructor; lia|unfold alen; simpl; lia|].
  exists t2. split; [done|]. split; [done|]. intros key. rewrite G2, G1, G0. done.
Qed.

(** Everything not under [/dev/] is the image's. *)
Lemma search_mounted tr path :
  PrefixTree.inv None tr ->
  (forall key, PrefixTree.get None tr key =
    if decide (key = [47; 100; 101; 118; 47]) then Some (Some Dev)
    else if decide (key = [47]) then Some (Some Kiss) else None) ->
  Forall (fun c => 0 <= c < 128) path -> head path = Some 47 ->
  PrefixTree.search None tr path =
    if decide ([47; 100; 101; 118; 47] `prefix_of` path) then Some (Some Dev, 5) else Some (Some Kiss, 1).
Proof.
  intros I G Hp Hh. destruct (PrefixTree.search_spec None tr path I Hp) as (v & l & -> & Hb).
  destruct path as [|c path]; [done|]. injection Hh as ->.
  assert (H1 : [47] `prefix_of` 47 :: path) by by exists path.
  destruct Hb as [(k & Hk & Hpre & Hg & -> & Hlong)|(_ & _ & Hnone)]; cycle 1.
  { specialize (Hnone [47] ltac:(done) H1). rewrite G in Hnone. done. }
  rewrite G in Hg. case_decide as E1; [subst k|].
  - rewrite decide_True by done. injection Hg as <-. done.
  - case_decide as E2; [subst k|done]. injection Hg as <-. rewrite decide_False; [done|].
    intros Hd. specialize (Hlong _ Hd ltac:(simpl; lia)). rewrite G in Hlong. by rewrite decide_True in Hlong.
Qed.

(** ** The contract *)

(** The file of node [ino] holds [c], and reads of it give [c]'s bytes. *)
Definition serves (fs : KissFS.t) (ino : Z) (c : list Z) : Prop :=
  alen c < 2 ^ 32 /\ forall off len, 0 <= off <= alen c -> 0 <= len ->
    off mod 4096 = 0 \/ off mod 4096 + Z.min len (alen c - off) <= 4096 ->
    KissFS.readData fs ino off len =
      Some (Z.min len (alen c - off), take (Z.to_nat (Z.min len (alen c - off))) (drop (Z.to_nat off) c)).

(** Names that reach the image. *)
Definition plain_name (nm : list Z) : Prop :=
  Forall (fun c => 0 < c < 128) nm /\ head nm <> Some 47 /\ alen nm < 69 /\
  Filename.strncmp nm rtc 0 4 <> 0 /\ ~ [100; 101; 118; 47] `prefix_of` nm.

Lemma char_at_plain nm c : Forall (fun c => 0 < c < 128) nm -> Filename.char_at nm 0 = c -> c <> 0 -> head nm = Some c.
Proof.
  intros Hn Hc H0. destruct nm as [|d nm]; [done|]. apply list.Forall_cons in Hn as [Hd _].
  unfold Filename.char_at in Hc. cbn in Hc. rewrite u8_small in Hc by lia. by rewrite Hc.
Qed.

Lemma dispatch_plain {W D} `{IFOps W D} (k : t W D) nm :
  plain_name nm -> PrefixTree.inv None (lookup k) ->
  (forall key, PrefixTree.get None (lookup k) key =
    if decide (key = [47; 100; 101; 118; 47]) then Some (Some Dev)
    else if decide (key = [47]) then Some (Some Kiss) else None) ->
  dispatch_open k nm =
    (r ← KissFS.open (kiss k) nm;
     Some (match r with Some d => Some (mk_file 0 (KissData d)) | None => None end, k)).
Proof.
  intros (Hn & Hh & Hl & Hr & Hd) I G. unfold dispatch_open, good_name. cbv zeta.
  rewrite (proj2 (Z.eqb_neq _ 0)) by done.
  destruct (Z.eqb_spec (Filename.char_at nm 0) 47) as [E|_]; [exfalso; apply Hh; by eapply char_at_plain|].
  rewrite (proj2 (Z.leb_gt _ _)) by lia. cbn [mbind option_bind].
  rewrite search_mounted; [|done..| |done].
  - rewrite decide_False; [done|]. intros [r E]. apply Hd. injection E as E. by exists r.
  - constructor; [lia|]. eapply List.Forall_impl; [|exact Hn]. simpl. lia.
Qed.

(** ** The kernel with a console keeps the contract *)

Notation K := (t Console.t Console.fops).

Definition mounted (k : K) : Prop :=
  PrefixTree.inv None (lookup k) /\
  forall key, PrefixTree.get None (lookup k) key =
    if decide (key = [47; 100; 101; 118; 47]) then Some (Some Dev)
    else if decide (key = [47]) then Some (Some Kiss) else None.

Record kinv (k : K) : Prop := {
  kinv_fds : FileDescArr.inv (fileDescs k);
  kinv_free i : i ∈ FileDescArr.free (fileDescs k) -> FileDescArr.slot (fileDescs k) i = None;
  kinv_init : fdInitialized k = true;
  kinv_out : exists o, FileDescArr.slot (fileDescs k) 1 = Some (mk_file o (DevData Console.TermFOps));
  kinv_mounts : mounted k }.

(** The terminal was blank, and shows the layout of [out]. *)
Definition shows_text (w : Console.t) (out : list Z) : Prop :=
  exists tm, Console.currTerm w = Some tm /\ Terminal.inv tm /\
    Terminal.shows tm (Terminal.layout (Terminal.mk_doc [] Terminal.blank_row 0) out).

(** [fd] is a descriptor in use with [d] at [off]. *)
Definition holds (k : K) (fd off : Z) (d : KissFS.fd_data) : Prop :=
  1 < fd < 128 /\ fd ∉ FileDescArr.free (fileDescs k) /\
  FileDescArr.slot (fileDescs k) fd = Some (mk_file off (KissData d)).

(** The name of a directory entry. *)
Definition dname (d : KissFS.dentry_t) : list Z := Filename.key (KissFS.filename d).
Definition dname_ok (nm : list Z) : Prop := 0 < alen nm < 32.

#[global] Instance kernel_view : FileView K := {|
  is_open k fd c off := exists ino, holds k fd off (KissFS.FdFile KissFS.NORMAL_FILE ino) /\
    serves (kiss k) ino c /\ 0 <= off <= alen c;
  dir_open k fd ns := exists off idx max, holds k fd off (KissFS.FdDir KissFS.DIRECTORY idx max) /\
    0 <= idx /\ max = alen (KissFS.dentries (kiss k)) /\ max < 2 ^ 31 /\
    ns = drop (Z.to_nat idx) (dname <$> KissFS.dentries (kiss k)) /\ Forall dname_ok ns;
  args k a := Forall (fun c => c <> 0) a /\ alen a < 2 ^ 31 - 1 /\ (arg k = Some a \/ (arg k = None /\ a = []));
  named k nm c := plain_name nm /\ exists ino,
    KissFS.open (kiss k) nm = Some (Some (KissFS.FdFile KissFS.NORMAL_FILE ino)) /\ serves (kiss k) ino c;
  directory k ns := KissFS.open (kiss k) [46] =
      Some (Some (KissFS.FdDir KissFS.DIRECTORY 0 (alen (KissFS.dentries (kiss k))))) /\
    alen (KissFS.dentries (kiss k)) < 2 ^ 31 /\ ns = dname <$> KissFS.dentries (kiss k) /\ Forall dname_ok ns;
  terminal k out := kinv k /\ shows_text (world k) out;
  room k n := n <= FileDescArr.nfree (fileDescs k) |}.

(** What a call that changes one descriptor leaves alone. *)
Lemma frame_intro fd (k k' : K) :
  kiss k' = kiss k ->
  (forall j, j <> fd -> 1 < j < 128 -> FileDescArr.slot (fileDescs k') j = FileDescArr.slot (fileDescs k) j) ->
  (forall j, j ∈ FileDescArr.free (fileDescs k') -> j ∈ FileDescArr.free (fileDescs k) \/ j = fd) ->
  frame fd k k'.
Proof.
  intros Hk Hs Hf.
  assert (Hh : forall j off d, j <> fd -> holds k j off d -> holds k' j off d).
  { intros j off d Hj (Hr & Hn & He). split; [done|]. split; [|by rewrite Hs].
    intros [?|?]%Hf; done. }
  split; cbn.
  - intros j c off Hj (ino & Ho & Hsv). exists ino. rewrite Hk. auto.
  - intros j ns Hj (off & idx & max & Ho & Hrest). exists off, idx, max. rewrite Hk. auto.
  - intros nm c (Hp & ino & Hrest). split; [done|]. exists ino. by rewrite Hk.
Qed.

(** Only descriptor [fd] and the world differ. *)
Record others (fd : Z) (k k' : K) : Prop := {
  oth_kiss : kiss k' = kiss k;
  oth_slot j : 0 <= j < 128 -> j <> fd -> FileDescArr.slot (fileDescs k') j = FileDescArr.slot (fileDescs k) j;
  oth_free j : j <> fd -> j ∈ FileDescArr.free (fileDescs k') <-> j ∈ FileDescArr.free (fileDescs k) }.
Lemma others_frame fd k k' : others fd k k' -> frame fd k k'.
Proof.
  intros [Hk Hs Hf]. apply frame_intro; [done|intros j Hj Hr; apply Hs; [lia|done]|].
  intros j Hj. destruct (decide (j = fd)); [by right|left]. by apply Hf.
Qed.

(** Writing a file back into its slot. *)
Lemma put_file_kinv (k : K) fd f : kinv k -> 0 <= fd < 128 -> fd ∉ FileDescArr.free (fileDescs k) ->
  (fd = 1 -> exists o, f = mk_file o (DevData Console.TermFOps)) -> kinv (put_file k fd f).
Proof.
  intros [I F N O M] Hr Hn H1. unfold put_file. rewrite u32_small by lia.
  split; cbn; try done.
  - by apply FileDescArr.set_slot_inv.
  - intros i Hi. change (FileDescArr.free _) with (FileDescArr.free (fileDescs k)) in Hi.
    pose proof (FileDescArr.inv_range _ I i Hi). unfold FileDescArr.FD_FIXED_PART, FileDescArr.FD_ARRAY_LENGTH in *.
    rewrite FileDescArr.slot_set by (done || lia). rewrite decide_False by congruence. auto.
  - rewrite FileDescArr.slot_set by (done || lia). case_decide as E; [|done].
    destruct (H1 E) as [o ->]. by exists o.
Qed.

Lemma put_file_slot (k : K) fd f j : kinv k -> 0 <= fd < 128 -> 0 <= j < 128 ->
  FileDescArr.slot (fileDescs (put_file k fd f)) j = if decide (fd = j) then Some f else FileDescArr.slot (fileDescs k) j.
Proof. intros I Hf Hj. unfold put_file. rewrite u32_small by lia. cbn. apply FileDescArr.slot_set; [apply I|done..]. Qed.

(** A call on an open descriptor reaches its file. *)
Lemma with_file_spec {A} (k : K) fd (fail : A) body f :
  kinv k -> 0 <= fd < 128 -> fd ∉ FileDescArr.free (fileDescs k) ->
  FileDescArr.slot (fileDescs k) fd = Some f -> with_file k fd fail body = body k f.
Proof.
  intros I Hf Hn Hs. unfold with_file, ensureFdInitialized. rewrite (kinv_init _ I). cbn [mbind option_bind negb].
  rewrite (FileDescArr.isValid_spec _ _ f) by (done || apply I). cbn [negb].
  rewrite u32_small by lia. by rewrite Hs.
Qed.

Lemma free_two (k : K) i : kinv k -> 0 <= i < 2 -> i ∉ FileDescArr.free (fileDescs k).
Proof. intros I Hi Hin. apply (FileDescArr.inv_range _ (kinv_fds _ I)) in Hin. unfold FileDescArr.FD_FIXED_PART in Hin. lia. Qed.

Lemma kernel_read_file (k : K) fd c off n out :
  is_open k fd c off -> terminal k out -> 0 <= off <= alen c -> 0 < n < 2 ^ 31 ->
  off mod 4096 = 0 \/ off mod 4096 + Z.min n (alen c - off) <= 4096 ->
  exists k', sys_read fd n k =
      Done (Z.min n (alen c - off),
            take (Z.to_nat (Z.min n (alen c - off))) (drop (Z.to_nat off) c)) k' /\
    is_open k' fd c (off + Z.min n (alen c - off)) /\ terminal k' out /\ frame fd k k' /\ same_room k k'.
Proof.
  intros (ino & (Hfd & Hfree & Hslot) & [Hc Hs] & _) [I T] Ho Hn Ha. cbn [sys_read kernel_sys].
  set (m := Z.min n (alen c - off)) in *.
  eexists. split; [|split; [|split; [|split]]].
  - unfold read. rewrite (with_file_spec k fd _ _ _ I ltac:(lia) Hfree Hslot). unfold dispatch_read. cbn [data offset].
    unfold KissFS.read. cbn [KissFS.fd_filetype]. change (KissFS.NORMAL_FILE =? KissFS.DIRECTORY) with false. cbn iota.
    rewrite (u32_small n) by lia. rewrite Hs by (done || lia). fold m. cbn [mbind option_bind].
    rewrite (proj2 (Z.eqb_neq m (-1))) by lia. rewrite u32_small by lia. cbn [to_res]. reflexivity.
  - exists ino. split; [|split; [done|unfold m; lia]]. split; [done|]. split; [done|].
    rewrite put_file_slot by (done || lia). by rewrite decide_True.
  - split; [|done]. apply put_file_kinv; [done|lia|done|lia].
  - apply frame_intro; [done| |by left].
    intros j Hj Hjr. rewrite put_file_slot by (done || lia). by rewrite decide_False by congruence.
  - by intros x.
Qed.

Lemma kernel_write (k : K) bs out :
  terminal k out -> alen bs < 2 ^ 31 -> Forall (fun c => c <> 0) bs ->
  exists k', sys_write 1 bs (alen bs) k = Done (alen bs) k' /\ terminal k' (out ++ bs) /\
    others 1 k k' /\ same_room k k'.
Proof.
  intros [I (tm & Ht & Hti & Htd)] Hl Hb. cbn [sys_write kernel_sys].
  destruct (kinv_out _ I) as [o Ho].
  assert (Hw : exists tm', Terminal.write tm bs (alen bs) = Some (tm', alen bs) /\ Terminal.inv tm' /\
    Terminal.shows tm' (Terminal.layout (Terminal.layout (Terminal.mk_doc [] Terminal.blank_row 0) out) bs)).
  { destruct (Terminal.write_loop_spec bs tm 0 (alen bs) [] Hti Hb (or_introl eq_refl)) as (tm' & E & I' & _ & _ & D).
    exists tm'. rewrite app_nil_r in E. split; [exact E|]. auto. }
  destruct Hw as (tm' & E & I' & D').
  assert (Hal : 0 <= alen bs) by (unfold alen; lia).
  set (w' := Console.mk (Some tm') (Console.pid (world k)) (Console.typed (world k))).
  exists (put_file (set_world k w') 1 (mk_file (u32 (o + alen bs)) (DevData Console.TermFOps))).
  assert (Ik : kinv (set_world k w')) by by destruct I.
  split; [|split; [|split]].
  - unfold write. rewrite (with_file_spec k 1 _ _ _ I ltac:(lia) (free_two k 1 I ltac:(lia)) Ho).
    unfold dispatch_write. cbn [data offset dev_write Console.console_fops]. unfold Console.write. rewrite Ht.
    rewrite s32_small by lia. rewrite E. cbn [mbind option_bind].
    rewrite (proj2 (Z.eqb_neq (alen bs) (-1))) by lia. done.
  - split.
    + apply put_file_kinv; [done|lia|by apply (free_two _ 1 I); lia|]. intros _. by eexists.
    + exists tm'. split; [done|]. split; [done|]. unfold Terminal.layout in *. by rewrite foldl_app.
  - split; [done| |done].
    intros j Hjr Hj. rewrite put_file_slot by (done || lia). by rewrite decide_False by congruence.
  - by intros x.
Qed.

(** [open] of a name the image knows takes a free descriptor. *)
Lemma kernel_open (k : K) nm d out :
  plain_name nm -> KissFS.open (kiss k) nm = Some (Some d) -> terminal k out -> room k 1 ->
  exists fd k', sys_open nm k = Done fd k' /\ 1 < fd < 2 ^ 31 /\ fresh fd k /\ holds k' fd 0 d /\
    kiss k' = kiss k /\ terminal k' out /\ others fd k k' /\ (forall n, room k n -> room k' (n - 1)).
Proof.
  intros Hp Hop [I T] Hroom. cbn in Hroom.
  destruct (FileDescArr.alloc_spec (fileDescs k) (kinv_fds _ I) ltac:(lia))
    as (fd & a & Ea & Ia & Hfd & Hin & Hn & Hmem & Hsl).
  set (k1 := set_fds k a).
  assert (Ik1 : kinv k1).
  { destruct I as [I F N O M]. split; cbn; try done.
    - intros i [Hi _]%Hmem. rewrite Hsl. auto.
    - by rewrite Hsl. }
  assert (Hdisp : dispatch_open k1 nm = Some (Some (mk_file 0 (KissData d)), k1)).
  { rewrite dispatch_plain by (done || apply I). change (kiss k1) with (kiss k). by rewrite Hop. }
  assert (Hnf : fd ∉ FileDescArr.free a) by (intros [_ ?]%Hmem; done).
  exists fd, (put_file k1 fd (mk_file 0 (KissData d))).
  assert (Hslot : forall j, 0 <= j < 128 -> FileDescArr.slot (fileDescs (put_file k1 fd (mk_file 0 (KissData d)))) j
    = if decide (fd = j) then Some (mk_file 0 (KissData d)) else FileDescArr.slot (fileDescs k) j).
  { intros j Hj. rewrite put_file_slot by (done || lia). case_decide; [done|]. apply Hsl. }
  split; [|split; [lia|split; [|split; [|split; [done|split; [|split]]]]]].
  - cbn [sys_open kernel_sys]. unfold open, ensureFdInitialized. rewrite (kinv_init _ I). cbn [mbind option_bind negb].
    rewrite Ea. fold k1. cbv zeta. cbn iota. rewrite Hdisp. cbn [mbind option_bind to_res].
    unfold put_file. by rewrite u32_small by lia.
  - split; [intros c off (ino & (_ & Hnf' & _) & _)|intros ns (o & i & m & (_ & Hnf' & _) & _)]; done.
  - split; [lia|]. split; [done|]. rewrite Hslot by lia. by rewrite decide_True.
  - split; [|done]. apply put_file_kinv; [done|lia|done|lia].
  - split; [done| |].
    + intros j Hjr Hj. rewrite Hslot by lia. by rewrite decide_False by congruence.
    + intros j Hj. change (FileDescArr.free _) with (FileDescArr.free a) at 1. rewrite Hmem. naive_solver.
  - intros n Hr. cbn in Hr |- *. change (FileDescArr.nfree _) with (FileDescArr.nfree a). lia.
Qed.

Lemma kernel_close (k : K) fd off d out : holds k fd off d -> terminal k out ->
  exists k', sys_close fd k = Done 0 k' /\ terminal k' out /\ others fd k k' /\
    (forall n, room k n -> room k' (n + 1)) /\ FileDescArr.slot (fileDescs k') fd = None.
Proof.
  intros (Hfd & Hfree & Hslot) [I T].
  set (a := FileDescArr.set_slot (fileDescs k) fd None).
  assert (Ia : FileDescArr.inv a) by (apply FileDescArr.set_slot_inv, I).
  destruct (FileDescArr.recycle_spec a fd Ia ltac:(lia) Hfree) as (Ir & Hn & Hmem & Hsl).
  assert (Hslot' : forall j, 0 <= j < 128 -> FileDescArr.slot (FileDescArr.recycle a fd) j
    = if decide (fd = j) then None else FileDescArr.slot (fileDescs k) j).
  { intros j Hj. rewrite Hsl. apply FileDescArr.slot_set; [apply I|lia|done]. }
  exists (set_fds k (FileDescArr.recycle a fd)). split; [|split; [|split; [|split]]].
  - cbn [sys_close kernel_sys]. unfold close.
    rewrite (proj2 (Z.eqb_neq fd 0)), (proj2 (Z.eqb_neq fd 1)) by lia. cbn [orb].
    rewrite (with_file_spec k fd _ _ _ I ltac:(lia) Hfree Hslot). cbn. by rewrite u32_small by lia.
  - split; [|done]. destruct I as [I F N O M]. split; cbn; try done.
    + intros i Hi. pose proof (FileDescArr.inv_range _ Ir i Hi) as Hr.
      unfold FileDescArr.FD_FIXED_PART, FileDescArr.FD_ARRAY_LENGTH in Hr. rewrite Hslot' by lia.
      case_decide; [done|]. apply Hmem in Hi as [Hi| ->]; [|done]. by apply F.
    + rewrite Hslot' by lia. by rewrite decide_False by lia.
  - split; [done| |].
    + intros j Hjr Hj. cbn. rewrite Hslot' by lia. by rewrite decide_False by congruence.
    + intros j Hj. cbn. rewrite Hmem. change (FileDescArr.free a) with (FileDescArr.free (fileDescs k)). naive_solver.
  - intros n Hr. cbn in Hr |- *. rewrite Hn. change (FileDescArr.nfree a) with (FileDescArr.nfree (fileDescs k)). lia.
  - cbn. rewrite Hslot' by lia. by rewrite decide_True.
Qed.

(** ** Directories *)

Lemma cut_same s m : forall i n, (length (Filename.cut s i m) < m)%nat -> (length (Filename.cut s i m) < n)%nat ->
  Filename.cut s i n = Filename.cut s i m.
Proof.
  induction m as [|m IH]; intros i [|n] Hm Hn; simpl in *; try lia.
  destruct (_ =? 0); [done|]. simpl in *. f_equal. apply IH; lia.
Qed.

Lemma strncpy_cut s n : forall i,
  KissFS.strncpy s i n = Filename.cut s i n ++ replicate (n - length (Filename.cut s i n)) 0.
Proof.
  induction n as [|n IH]; intros i; [done|]. cbn [KissFS.strncpy Filename.cut].
  destruct (_ =? 0); [done|]. by rewrite IH.
Qed.

Lemma cut_nonzero s n : forall i, Forall (fun c => c <> 0) (Filename.cut s i n).
Proof.
  induction n as [|n IH]; intros i; [done|]. cbn [Filename.cut].
  destruct (Z.eqb_spec (Filename.char_at s i) 0); by constructor.
Qed.

Lemma strlen_nul w r : Forall (fun c => c <> 0) w -> KissFS.strlen (w ++ 0 :: r) = Some (alen w).
Proof.
  induction w as [|c w IH]; intros Hw; [done|]. apply list.Forall_cons in Hw as [Hc Hw].
  cbn [app KissFS.strlen]. rewrite (proj2 (Z.eqb_neq c 0)) by done. rewrite IH by done. cbn [mbind option_bind].
  f_equal. unfold alen. simpl. lia.
Qed.

(** One directory entry, copied to a user's buffer of [n] bytes. *)
Lemma readDir_spec fs ft idx max d n :
  0 <= idx < max -> anth (KissFS.dentries fs) idx = Some d -> 0 < alen (dname d) < 32 -> alen (dname d) < n ->
  KissFS.readDir fs ft idx max n =
    Some (alen (dname d), dname d ++ replicate (Z.to_nat (n - alen (dname d))) 0, KissFS.FdDir ft (u32 (idx + 1)) max).
Proof.
  intros Hi Hd Hl Hn. unfold KissFS.readDir. rewrite (proj2 (Z.leb_gt _ _)) by lia. rewrite Hd.
  cbn [mbind option_bind]. cbv zeta. rewrite strncpy_cut.
  assert (E : Filename.cut (KissFS.filename d) 0 (Z.to_nat n) = dname d).
  { unfold dname, Filename.key in *. apply cut_same; unfold alen, Filename.MaxFilenameLength in *; lia. }
  rewrite E. replace (Z.to_nat n - length (dname d))%nat with (S (Z.to_nat (n - alen (dname d)) - 1))
    by (unfold alen in *; lia).
  cbn [replicate]. rewrite strlen_nul by apply cut_nonzero. cbn [mbind option_bind].
  replace (Z.to_nat (n - alen (dname d))) with (S (Z.to_nat (n - alen (dname d)) - 1)) at 2 by (unfold alen in *; lia).
  done.
Qed.

(** A read of a directory leaves the offset at its length, the index one further. *)
Lemma kernel_readdir (k : K) fd nm ns n out :
  dir_open k fd (nm :: ns) -> terminal k out -> alen nm < n -> n < 2 ^ 31 ->
  exists k', sys_read fd n k = Done (alen nm, nm ++ replicate (Z.to_nat (n - alen nm)) 0) k' /\
    dir_open k' fd ns /\ terminal k' out /\ frame fd k k' /\ same_room k k'.
Proof.
  intros (off & idx & max & (Hfd & Hfree & Hslot) & Hi & Hmax & Hmaxr & Hns & Hok) [I T] Hn Hn2.
  pose proof Hok as [Hnm Hok']%list.Forall_cons.
  assert (Hlt : idx < max /\ exists d, anth (KissFS.dentries (kiss k)) idx = Some d /\ nm = dname d /\
    ns = drop (Z.to_nat (idx + 1)) (dname <$> KissFS.dentries (kiss k))).
  { assert (El : (dname <$> KissFS.dentries (kiss k)) !! Z.to_nat idx = Some nm).
    { rewrite <- (Nat.add_0_r (Z.to_nat idx)), <- lookup_drop, <- Hns. done. }
    pose proof (lookup_lt_Some _ _ _ El) as Hl. rewrite length_fmap in Hl.
    rewrite list_lookup_fmap in El. destruct (KissFS.dentries (kiss k) !! Z.to_nat idx) as [d|] eqn:Ed; [|done].
    injection El as <-. split; [unfold alen in Hmax; lia|]. exists d. unfold anth.
    rewrite (proj2 (Z.leb_le 0 idx)) by lia. split; [done|]. split; [done|].
    replace (Z.to_nat (idx + 1)) with (Z.to_nat idx + 1)%nat by lia. by rewrite <- drop_drop, <- Hns. }
  destruct Hlt as (Hlt & d & Hd & -> & Hns'). unfold dname_ok in Hnm.
  set (f' := mk_file (u32 (off + alen (dname d))) (KissData (D := Console.fops) (KissFS.FdDir KissFS.DIRECTORY (idx + 1) max))).
  exists (put_file k fd f'). split; [|split; [|split; [|split]]].
  - cbn [sys_read kernel_sys]. unfold read. rewrite (with_file_spec k fd _ _ _ I ltac:(lia) Hfree Hslot).
    unfold dispatch_read. cbn [data offset]. unfold KissFS.read. cbn [KissFS.fd_filetype Z.eqb KissFS.DIRECTORY Pos.eqb].
    rewrite (u32_small n) by (unfold alen in *; lia).
    rewrite (readDir_spec _ _ _ _ d) by (done || lia). cbn [mbind option_bind].
    rewrite (proj2 (Z.eqb_neq (alen (dname d)) (-1))) by lia. rewrite (u32_small (idx + 1)) by lia. done.
  - exists (u32 (off + alen (dname d))), (idx + 1), max. split; [|split_and!; try done; lia].
    split; [done|]. split; [done|]. rewrite put_file_slot by (done || lia). by rewrite decide_True.
  - split; [|done]. apply put_file_kinv; [done|lia|done|lia].
  - apply frame_intro; [done| |by left].
    intros j Hj Hjr. rewrite put_file_slot by (done || lia). by rewrite decide_False by congruence.
  - by intros x.
Qed.

Lemma kernel_readdir_end (k : K) fd n out : dir_open k fd [] -> terminal k out ->
  exists k', sys_read fd n k = Done (0, []) k' /\ dir_open k' fd [] /\ terminal k' out /\ frame fd k k' /\ same_room k k'.
Proof.
  intros (off & idx & max & (Hfd & Hfree & Hslot) & Hi & Hmax & Hmaxr & Hns & Hok) [I T].
  assert (Hge : max <= idx).
  { apply (f_equal length) in Hns. rewrite length_drop, length_fmap in Hns. simpl in Hns. unfold alen in Hmax. lia. }
  set (f' := mk_file (u32 (off + 0)) (KissData (D := Console.fops) (KissFS.FdDir KissFS.DIRECTORY idx max))).
  exists (put_file k fd f'). split; [|split; [|split; [|split]]].
  - cbn [sys_read kernel_sys]. unfold read. rewrite (with_file_spec k fd _ _ _ I ltac:(lia) Hfree Hslot).
    unfold dispatch_read. cbn [data offset]. unfold KissFS.read. cbn [KissFS.fd_filetype Z.eqb KissFS.DIRECTORY Pos.eqb].
    unfold KissFS.readDir. by rewrite (proj2 (Z.leb_le _ _)) by lia.
  - exists (u32 (off + 0)), idx, max. split; [|split_and!; done].
    split; [done|]. split; [done|]. rewrite put_file_slot by (done || lia). by rewrite decide_True.
  - split; [|done]. apply put_file_kinv; [done|lia|done|lia].
  - apply frame_intro; [done| |by left].
    intros j Hj Hjr. rewrite put_file_slot by (done || lia). by rewrite decide_False by congruence.
  - by intros x.
Qed.

Lemma dot_plain : plain_name [46].
Proof. split_and!; [repeat constructor; lia|done|done|by vm_compute|by intros [r [=]]]. Qed.

(** The kernel's calls keep the contract that the programs are verified against. *)
#[global] Instance kernel_filesys : FileSys K.
Proof.
  split.
  - intros k n m Hn Hm. cbn in *. lia.
  - intros k fd c off n out. apply kernel_read_file.
  - intros k bs out Ht Hl Hb. destruct (kernel_write k bs out Ht Hl Hb) as (k' & E & Ht' & Ho & Hr).
    exists k'. eauto using others_frame.
  - intros k nm c out (Hp & ino & Ho & Hsv) Ht Hr.
    destruct (kernel_open k nm _ out Hp Ho Ht Hr) as (fd & k' & E & Hfd & Hfr & Hh & Hk & Ht' & Hoth & Hr').
    exists fd, k'. split; [done|]. split; [done|]. split; [done|]. split; [|by eauto using others_frame].
    exists ino. rewrite Hk. split; [done|]. split; [done|]. unfold alen. lia.
  - intros k fd c off out (ino & Hh & _) _ Ht. destruct (kernel_close k fd _ _ out Hh Ht) as (k' & E & Ht' & Ho & Hr & _).
    exists k'. eauto using others_frame.
  - intros k a n out (Ha & Hal & Harg) Hn Hn2 Ht. exists k. split; [|split; [done|split; [apply frame_refl|split; [by intros x|done]]]].
    cbn [sys_getargs kernel_sys]. unfold getargs. destruct Harg as [->|[-> ->]]; [|done].
    rewrite s32_small by (unfold alen in *; lia). rewrite (proj2 (Z.ltb_ge _ _)) by lia. done.
  - intros k ns out (Ho & Hm & -> & Hok) Ht Hr.
    destruct (kernel_open k [46] _ out dot_plain Ho Ht Hr) as (fd & k' & E & Hfd & Hfr & Hh & Hk & Ht' & Hoth & Hr').
    exists fd, k'. split; [done|]. split; [done|]. split; [done|]. split; [|by eauto using others_frame].
    exists 0, 0, (alen (KissFS.dentries (kiss k))). rewrite Hk. by split_and!.
  - intros k fd nm ns n out. apply kernel_readdir.
  - intros k fd n out. apply kernel_readdir_end.
Qed.

(** ** A process's first state *)

(** The drivers register their devices, and the process's descriptors 0 and 1 are
    opened by its first call. *)
Definition name_term : list Z := [116; 101; 114; 109].
Definition name_keyb : list Z := [107; 101; 121; 98].

Definition boot (fs : KissFS.t) (a : option (list Z)) (typed : list (Z * bool)) : option K :=
  tr ← mountAll;
  tab ← registerDevice (LPHash.init DevTableSize) name_term 0;
  tab ← registerDevice tab name_keyb 1;
  '(ok, k) ← ensureFdInitialized
    (mk FileDescArr.init false a tr fs tab (Console.mk (Some Terminal.init) 1 typed));
  if (ok : bool) then Some k else None.

Definition dev_table : LPHash.t (K := list Z) (V := Z) :=
  default [] (tab ← registerDevice (LPHash.init DevTableSize) name_term 0; registerDevice tab name_keyb 1).

Lemma dispatch_dev (k : K) nm : mounted k -> deviceOfFilename k = dev_table ->
  LPHash.get DevTableSize 0 dev_table nm = Some (if decide (nm = name_term) then 0 else 1, true) ->
  Forall (fun c => 0 < c < 128) nm -> Console.currTerm (world k) <> None ->
  dispatch_open k ([47; 100; 101; 118; 47] ++ nm) =
    Some (Some (mk_file 0 (DevData (if decide (nm = name_term) then Console.TermFOps else Console.KeyBFOps))), k).
Proof.
  intros [I G] Ht Hg Hn Hw. unfold dispatch_open, good_name. cbv zeta.
  assert (Er : Filename.strncmp ([47; 100; 101; 118; 47] ++ nm) rtc 0 4 =? 0 = false) by done. rewrite Er.
  assert (Eh : Filename.char_at ([47; 100; 101; 118; 47] ++ nm) 0 =? 47 = true) by done. rewrite Eh.
  cbn [mbind option_bind]. rewrite search_mounted; [|done..| |done].
  - rewrite decide_True by by eexists. cbn [mbind option_bind].
    change (drop (Z.to_nat 5) ([47; 100; 101; 118; 47] ++ nm)) with nm.
    unfold dev_open. rewrite Ht, Hg. cbn [mbind option_bind negb getNewInstance Console.console_fops].
    unfold Console.new. destruct (Console.currTerm (world k)); [|done]. cbn [mbind option_bind].
    case_decide; cbn; by destruct k.
  - apply list.Forall_app. split; [repeat constructor; lia|].
    eapply List.Forall_impl; [|exact Hn]. simpl. lia.
Qed.

Lemma dev_table_keyb : LPHash.get DevTableSize 0 dev_table name_keyb = Some (1, true).
Proof. vm_compute. reflexivity. Qed.
Lemma dev_table_term : LPHash.get DevTableSize 0 dev_table name_term = Some (0, true).
Proof. vm_compute. reflexivity. Qed.

Lemma boot_spec fs a typed : exists k, boot fs a typed = Some k /\ terminal k [] /\ kiss k = fs /\ arg k = a /\ room k 126.
Proof.
  destruct mountAll_spec as (tr & Etr & M). unfold boot. rewrite Etr. cbn [mbind option_bind].
  assert (Etab : (tab ← registerDevice (LPHash.init DevTableSize) name_term 0; registerDevice tab name_keyb 1) = Some dev_table)
    by (vm_compute; reflexivity).
  destruct (registerDevice (LPHash.init DevTableSize) name_term 0) as [tab|]; [|done].
  cbn [mbind option_bind] in *. rewrite Etab. cbn [mbind option_bind].
  destruct (FileDescArr.fd_init_inv (F := file Console.fops)) as (Ii & Hn & Hs).
  revert Ii Hn Hs. generalize (FileDescArr.init (F := file Console.fops)). intros a0 Ii Hn Hs.
  set (k0 := mk a0 false a tr fs dev_table (Console.mk (Some Terminal.init) 1 typed)).
  unfold ensureFdInitialized. cbn [fdInitialized k0].
  change path_keyb with ([47; 100; 101; 118; 47] ++ name_keyb).
  assert (E0 : dispatch_open k0 ([47; 100; 101; 118; 47] ++ name_keyb)
    = Some (Some (mk_file 0 (DevData Console.KeyBFOps)), k0)).
  { apply (dispatch_dev k0 name_keyb M eq_refl dev_table_keyb); [repeat constructor; lia|done]. }
  rewrite E0. cbn [mbind option_bind].
  set (k1 := set_fds k0 _).
  change path_term with ([47; 100; 101; 118; 47] ++ name_term).
  assert (E1 : dispatch_open k1 ([47; 100; 101; 118; 47] ++ name_term)
    = Some (Some (mk_file 0 (DevData Console.TermFOps)), k1)).
  { apply (dispatch_dev k1 name_term M eq_refl dev_table_term); [repeat constructor; lia|done]. }
  rewrite E1. cbn [mbind option_bind].
  eexists. split; [reflexivity|].
  assert (I1 : FileDescArr.inv (fileDescs k1)) by by apply FileDescArr.set_slot_inv.
  split; [|split; [reflexivity|split; [reflexivity|cbn; rewrite <- Hn; apply Z.le_refl]]]. split.
  - split; [by apply FileDescArr.set_slot_inv| |reflexivity| |exact M].
    + intros i Hi. pose proof (FileDescArr.inv_range _ Ii i Hi) as Hr.
      unfold FileDescArr.FD_FIXED_PART, FileDescArr.FD_ARRAY_LENGTH in Hr.
      cbn. rewrite FileDescArr.slot_set by (done || lia). rewrite decide_False by lia.
      rewrite FileDescArr.slot_set by (done || lia). rewrite decide_False by lia. apply Hs. lia.
    + exists 0. cbn. rewrite FileDescArr.slot_set by (done || lia). done.
  - exists Terminal.init. split; [done|]. split; [apply Terminal.term_init_inv|apply Terminal.init_shows].
Qed.

(** A valid node serves its content. *)
Lemma serves_valid fs ino nd : KissFS.valid fs nd -> anth (KissFS.inodes fs) ino = Some nd ->
  ino <= KissFS.numInodes fs -> serves fs ino (KissFS.content fs nd).
Proof.
  intros V Hn Hi. pose proof (KissFS.valid_size _ _ V) as Hs.
  assert (Hl : alen (KissFS.content fs nd) = KissFS.size nd).
  { unfold KissFS.content, KissFS.slice. apply alen_fmap_seqZ. lia. }
  split; [lia|]. rewrite Hl. intros off len Ho Hlen Ha.
  rewrite (KissFS.readData_spec fs ino nd) by done. by rewrite KissFS.slice_content by lia.
Qed.

(** *** A small image: the directory and one file *)

Definition demo_text : list Z := [104; 105; 10; 104; 111; 10].
Definition demo_name : list Z := [97; 98].
Definition pad32 (w : list Z) : list Z := w ++ replicate (32 - length w) 0.
Definition demo_dentries : list KissFS.dentry_t :=
  [KissFS.mk_dentry (pad32 [46]) 1 0; KissFS.mk_dentry (pad32 demo_name) 2 0].
Definition demo_fs : KissFS.t :=
  KissFS.mk (default [] (LPHash.puts KissFS.TableSize (LPHash.init KissFS.TableSize)
      [(pad32 [46], 0); (pad32 demo_name, 1)]))
    demo_dentries [KissFS.mk_inode 6 [0] 1] 2 1 1
    (fun p => default 0 (demo_text !! Z.to_nat (p - 8192))) 3.

Lemma demo_serves : serves demo_fs 0 demo_text.
Proof.
  assert (E : demo_text = KissFS.content demo_fs (KissFS.mk_inode 6 [0] 1)) by (vm_compute; reflexivity).
  rewrite E. apply serves_valid; [|done|done]. split; try done. repeat constructor; done.
Qed.

Lemma demo_named (k : K) : kiss k = demo_fs -> named k demo_name demo_text.
Proof.
  intros E. split; [split_and!; [repeat constructor; lia|done|done|by vm_compute|by intros [r [=]]]|].
  exists 0. rewrite E. split; [vm_compute; reflexivity|apply demo_serves].
Qed.

Lemma demo_directory (k : K) : kiss k = demo_fs -> directory k [[46]; demo_name].
Proof. intros E. cbn. rewrite E. split; [vm_compute; reflexivity|]. split; [done|]. split; [vm_compute; reflexivity|]. by repeat constructor. Qed.

(** ** A name that does not exist *)

(** A failing [open] keeps the descriptor it took: it is neither returned nor given
    back. *)
Lemma open_missing (k : K) (nm : list Z) :
  kinv k -> plain_name nm -> KissFS.open (kiss k) nm = Some None -> 0 < FileDescArr.nfree (fileDescs k) ->
  exists k', open nm k = Some (-1, k') /\ FileDescArr.nfree (fileDescs k') = FileDescArr.nfree (fileDescs k) - 1 /\
    kinv k' /\ kiss k' = kiss k /\ world k' = world k /\
    (forall j, FileDescArr.slot (fileDescs k') j = FileDescArr.slot (fileDescs k) j) /\
    (forall j, j ∈ FileDescArr.free (fileDescs k') -> j ∈ FileDescArr.free (fileDescs k)).
Proof.
  intros I Hp Ho Hroom. destruct (FileDescArr.alloc_spec (fileDescs k) (kinv_fds _ I) Hroom)
    as (fd & a & Ea & Ia & Hfd & Hin & Hn & Hmem & Hsl).
  set (k1 := set_fds k a).
  assert (Ik1 : kinv k1).
  { destruct I as [I F N O M]. split; cbn; try done.
    - intros i [Hi _]%Hmem. rewrite Hsl. auto.
    - by rewrite Hsl. }
  exists k1. split; [|split_and!; try done; by intros j [? _]%Hmem]. unfold open, ensureFdInitialized. rewrite (kinv_init _ I). cbn [mbind option_bind negb].
  rewrite Ea. fold k1. cbv zeta. cbn iota. rewrite dispatch_plain by (done || apply Ik1).
  change (kiss k1) with (kiss k). by rewrite Ho.
Qed.

Fixpoint opens (n : nat) (nm : list Z) (k : K) : option K :=
  match n with O => Some k | S n => '(_, k) ← open nm k; opens n nm k end.

(** After as many failing opens as there were descriptors, nothing can be opened,
    though no file is open. *)
Theorem failed_opens_exhaust_descriptors (k : K) (nm good : list Z) :
  kinv k -> plain_name nm -> KissFS.open (kiss k) nm = Some None ->
  exists k', opens (Z.to_nat (FileDescArr.nfree (fileDescs k))) nm k = Some k' /\ open good k' = Some (-1, k') .
Proof.
  intros I Hp Ho. assert (Hk : 0 <= FileDescArr.nfree (fileDescs k)) by (unfold FileDescArr.nfree, alen; lia).
  revert k I Ho Hk. assert (Hgen : forall n k, kinv k -> KissFS.open (kiss k) nm = Some None ->
    FileDescArr.nfree (fileDescs k) = Z.of_nat n -> exists k', opens n nm k = Some k' /\ kinv k' /\
      FileDescArr.nfree (fileDescs k') = 0).
  { induction n as [|n IH]; intros k I Ho Hn; [by exists k|].
    destruct (open_missing k nm I Hp Ho ltac:(lia)) as (k1 & E & Hn1 & I1 & Hk1 & _).
    cbn [opens]. rewrite E. cbn [mbind option_bind]. apply IH; [done|by rewrite Hk1|lia]. }
  intros k I Ho Hk. destruct (Hgen (Z.to_nat (FileDescArr.nfree (fileDescs k))) k I Ho ltac:(lia)) as (k' & E & I' & Hn').
  exists k'. split; [done|]. unfold open, ensureFdInitialized. rewrite (kinv_init _ I'). cbn [mbind option_bind negb].
  rewrite FileDescArr.alloc_full by (done || apply I'). cbv zeta. cbn iota. by destruct k'.
Qed.

Lemma failed_opens_exhaust_descriptors_witness :
  exists k k', boot demo_fs None [] = Some k /\ opens 126 [120] k = Some k' /\ open demo_name k' = Some (-1, k').
Proof.
  destruct (boot_spec demo_fs None []) as (k & E & [I _] & Hk & _ & Hr).
  assert (Hn : FileDescArr.nfree (fileDescs k) = 126).
  { assert (Eb : (fun k => FileDescArr.nfree (fileDescs k)) <$> boot demo_fs None [] = Some 126)
      by (vm_compute; reflexivity). rewrite E in Eb. by injection Eb. }
  destruct (failed_opens_exhaust_descriptors k [120] demo_name I) as (k' & E' & E2).
  - split_and!; [repeat constructor; lia|done|done|by vm_compute|by intros [r [=]]].
  - rewrite Hk. vm_compute. reflexivity.
  - rewrite Hn in E'. change (Z.to_nat 126) with 126%nat in E'.
    exists k, k'. split; [exact E|]. split; [exact E'|exact E2].
Defined.
End Kernel.
