(* ===== verification/SysCall.v ===== *)
(** * The system call gate (syscalls/syscalls.cpp, syscall_helpers.h, filesystem_wrapper.cpp)

    [int $0x80]: a number and four registers reach [systemCallDispatcher], which converts
    them and runs the call. Here the pointers of the file calls are addresses of the user's
    memory and are checked; behind the checks are the calls of Kernel.v and the directory
    and the window of Vidmap.v. Calls on processes and on the user interface are a
    parameter, like the memory behind the addresses. *)
From stdpp Require Import prelude list numbers.
From Stdlib Require Import ZArith Lia.
From S2P Require Import Prelude BitSet Stack MemMap LPHash KissFS Terminal FileDesc Sys Kernel Vidmap.

Module SysCall.

(** The process, its memory, and the system as its calls see it. *)
Record t := mk {
  files : Kernel.K; win : Vidmap.t; currTerm : option Vidmap.painter; pcb : Z; isKernel : bool;
  vmem : Z -> Z; num_nest_int_val : Z }.

Definition set_files (s : t) (k : Kernel.K) : t :=
  mk k (win s) (currTerm s) (pcb s) (isKernel s) (vmem s) (num_nest_int_val s).
Definition set_window (s : t) (w : Vidmap.t) (p : option Vidmap.painter) : t :=
  mk (files s) w p (pcb s) (isKernel s) (vmem s) (num_nest_int_val s).
Definition set_nest (s : t) (n : Z) : t :=
  mk (files s) (win s) (currTerm s) (pcb s) (isKernel s) (vmem s) n.

(** The bytes [bs] stored at an address. *)
Definition poke (s : t) (a : Z) (bs : list Z) : t :=
  mk (files s) (win s) (currTerm s) (pcb s) (isKernel s)
    (fun x => let i := u32 (x - a) in if i <? alen bs then aget bs i else vmem s x) (num_nest_int_val s).
(** [n] bytes at an address, and a string there: [None] if there is no NUL in a page. *)
Definition peek (s : t) (a n : Z) : list Z := (fun i => vmem s (u32 (a + i))) <$> seqZ 0 n.
Fixpoint string_from (s : t) (a : Z) (fuel : nat) : option (list Z) :=
  match fuel with
  | O => None
  | S fuel => if vmem s (u32 a) =? 0 then Some [] else l ← string_from s (a + 1) fuel; Some (vmem s (u32 a) :: l)
  end.
Definition MAX_STRING : nat := Z.to_nat 4096.
Definition word_bytes (v : Z) : list Z := [u8 v; u8 (v / 2 ^ 8); u8 (v / 2 ^ 16); u8 (v / 2 ^ 24)].

Section gate.
(** As in Vidmap.v. *)
Variable table_addr : Z.
Variable other_table : Z -> Z -> Z.

Definition valid (s : t) (p : Z) : bool := Vidmap.validUserPointer table_addr other_table (win s) (isKernel s) p.

(** ** The calls, from their converted arguments; [None] is a fault *)

Definition call : Type := t -> option (Z * t).

(** The result of a call of Kernel.v put back. *)
Definition on_files {A} (s : t) (r : option (A * Kernel.K)) : option (A * t) :=
  '(a, k) ← r; Some (a, set_files s k).

Definition fops_read (fd buf nbytes : Z) : call := fun s =>
  if negb (valid s buf) then Some (-1, s)
  else '(r, bs, s) ← on_files s (Kernel.read fd nbytes (files s)); Some (r, poke s buf bs).
Definition fops_write (fd buf nbytes : Z) : call := fun s =>
  if negb (valid s buf) then Some (-1, s)
  else on_files s (Kernel.write fd (peek s buf nbytes) nbytes (files s)).
Definition fops_open (filename : Z) : call := fun s =>
  if negb (valid s filename) then Some (-1, s)
  else nm ← string_from s filename MAX_STRING; on_files s (Kernel.open nm (files s)).
Definition fops_close (fd : Z) : call := fun s => on_files s (Kernel.close fd (files s)).
(** [st] is not checked. [st_mode] is at 4, [st_size] at 16. *)
Definition fops_fstat (fd st : Z) : call := fun s =>
  '(r, (mode, size), s) ← on_files s (Kernel.fstat fd (files s));
  if r =? -1 then Some (r, s)
  else
    let s := poke s (u32 (st + 4)) (word_bytes mode) in
    Some (r, match size with None => s | Some n => poke s (u32 (st + 16)) (word_bytes n) end).
Definition fops_lseek (fd offset whence : Z) : call := fun s =>
  on_files s (Kernel.lseek fd offset whence (files s)).
Definition exec_getargs (buf nbytes : Z) : call := fun s =>
  if negb (valid s buf) then Some (-1, s)
  else '(r, bs, s) ← on_files s (Kernel.getargs nbytes (files s)); Some (r, poke s buf bs).
(** [clearScreenNolock] of the process's terminal, in [enableVidmap]. *)
Definition clear_screen (k : Kernel.K) : Kernel.K :=
  let w := Kernel.world k in
  match Console.currTerm w with
  | None => k
  | Some tm =>
      Kernel.set_world k
        (Console.mk (Some (Terminal.set_scr tm (Terminal.clearScreen (Terminal.scr tm)))) (Console.pid w) (Console.typed w))
  end.
Definition vidmap (ans : Z) : call := fun s =>
  '(r, st, p, w) ← Vidmap.vidmap table_addr other_table (win s) (isKernel s) (currTerm s) (pcb s) ans;
  let s := set_window s w p in
  Some (r, match st with None => s | Some a => poke (set_files s (clear_screen (files s))) ans (word_bytes a) end).

(** ** The dispatcher *)

(** The calls on processes and on the user interface, from their converted arguments. *)
Record others := {
  syshalt : Z -> call; sysexec : Z -> call; syssbrk : Z -> call; dotask : Z -> call; fork : call;
  createWindow : Z -> Z -> call; setText : Z -> Z -> call; getText : Z -> Z -> call;
  showElement : Z -> call; hideElement : Z -> call; createButton : Z -> Z -> Z -> Z -> call;
  getMessage : Z -> call; attacheMessageHandler : Z -> Z -> call;
  createImage : Z -> Z -> Z -> Z -> call; setImageData : Z -> Z -> call }.

Variable h : others.

(** The type of a parameter: [int32_t], or a word or pointer. *)
Inductive arg := I32 | U32.
Definition super_cast (a : arg) (input : Z) : Z := match a with I32 => s32 input | U32 => input end.

(** A function of up to four parameters with their types. *)
Inductive fn :=
  | F0 (f : call) | F1 (a : arg) (f : Z -> call) | F2 (a b : arg) (f : Z -> Z -> call)
  | F3 (a b c : arg) (f : Z -> Z -> Z -> call) | F4 (a b c d : arg) (f : Z -> Z -> Z -> Z -> call).

(** The fourth parameter is converted to the type of the third. *)
Definition systemCallRunner (f : fn) (p1 p2 p3 p4 : Z) : call := fun s =>
  '(r, s) ← match f with
            | F0 f => f
            | F1 a f => f (super_cast a p1)
            | F2 a b f => f (super_cast a p1) (super_cast b p2)
            | F3 a b c f => f (super_cast a p1) (super_cast b p2) (super_cast c p3)
            | F4 a b c _ f => f (super_cast a p1) (super_cast b p2) (super_cast c p3) (super_cast c p4)
            end s;
  Some (s32 r, s).

(** The [switch]; [None] is its default. *)
Definition table (idx : Z) : option fn :=
  match idx with
  | 1 => Some (F1 U32 (syshalt h))
  | 2 => Some (F1 U32 (sysexec h))
  | 3 => Some (F3 I32 U32 I32 fops_read)
  | 4 => Some (F3 I32 U32 I32 fops_write)
  | 5 => Some (F1 U32 fops_open)
  | 6 => Some (F1 I32 fops_close)
  | 7 => Some (F2 U32 I32 exec_getargs)
  | 8 => Some (F1 U32 vidmap)
  | 9 => Some (F1 U32 (syshalt h))
  | 10 => Some (F1 U32 (syshalt h))
  | 11 => Some (F1 I32 (syssbrk h))
  | 12 => Some (F2 I32 U32 fops_fstat)
  | 13 => Some (F3 I32 I32 I32 fops_lseek)
  | 14 => Some (F1 I32 (dotask h))
  | 15 => Some (F0 (fork h))
  | 0x100 => Some (F2 I32 I32 (createWindow h))
  | 0x101 => Some (F2 U32 U32 (setText h))
  | 0x102 => Some (F2 U32 U32 (getText h))
  | 0x103 => Some (F1 U32 (showElement h))
  | 0x104 => Some (F1 U32 (hideElement h))
  | 0x105 => Some (F4 I32 I32 I32 I32 (createButton h))
  | 0x106 => Some (F1 U32 (getMessage h))
  | 0x107 => Some (F2 U32 U32 (attacheMessageHandler h))
  | 0x108 => Some (F4 I32 I32 I32 I32 (createImage h))
  | 0x109 => Some (F2 U32 U32 (setImageData h))
  | _ => None
  end.

Definition systemCallDispatcher (idx p1 p2 p3 p4 : Z) : call := fun s =>
  let s := set_nest s (s32 (num_nest_int_val s + 1)) in
  '(retval, s) ← match table idx with
                 | Some f => systemCallRunner f p1 p2 p3 p4 s
                 | None => Some (-1, s)
                 end;
  Some (retval, set_nest s (s32 (num_nest_int_val s - 1))).

(** ** Laws *)

(** The counter of nested interrupts does not wrap. *)
Definition nested (s : t) : Prop := 0 <= num_nest_int_val s < 2 ^ 31 - 1.

(** The dispatcher around a call that restores the counter. *)
Lemma dispatch_known idx f p1 p2 p3 p4 s r s' : nested s -> table idx = Some f ->
  systemCallRunner f p1 p2 p3 p4 (set_nest s (num_nest_int_val s + 1)) = Some (r, set_nest s' (num_nest_int_val s + 1)) ->
  num_nest_int_val s' = num_nest_int_val s -> systemCallDispatcher idx p1 p2 p3 p4 s = Some (r, s').
Proof.
  intros Hn Hf Hr Hs. unfold systemCallDispatcher. unfold nested in Hn. rewrite s32_small, Hf by lia. rewrite Hr.
  cbn [mbind option_bind num_nest_int_val set_nest]. rewrite s32_small, Z.add_simpl_r, <- Hs by lia. by destruct s'.
Qed.

(** *** Refused calls *)

(** The pointer a call takes. *)
Definition pointer_of (idx p1 p2 : Z) : option Z :=
  match idx with 3 | 4 => Some p2 | 5 | 7 | 8 => Some p1 | _ => None end.

Lemma bad_pointer_refused idx ptr p1 p2 p3 p4 s : nested s ->
  pointer_of idx p1 p2 = Some ptr -> valid s ptr = false ->
  systemCallDispatcher idx p1 p2 p3 p4 s = Some (-1, s).
Proof.
  intros Hn Hp Hv.
  assert (Hv' : forall n, valid (set_nest s n) ptr = false) by done.
  assert (Hi : idx = 3 \/ idx = 4 \/ idx = 5 \/ idx = 7 \/ idx = 8).
  { destruct idx as [|p|p]; try done. do 4 (destruct p as [p|p|]; try done; try lia). }
  destruct Hi as [->|[->|[->|[->| ->]]]]; injection Hp as <-; (eapply dispatch_known; [done|reflexivity| |done]);
    unfold systemCallRunner; cbn [super_cast].
  - unfold fops_read. by rewrite Hv'.
  - unfold fops_write. by rewrite Hv'.
  - unfold fops_open. by rewrite Hv'.
  - unfold exec_getargs. by rewrite Hv'.
  - unfold vidmap, Vidmap.vidmap. fold (valid (set_nest s (num_nest_int_val s + 1)) p1). by rewrite Hv'.
Qed.

Lemma unknown_refused idx p1 p2 p3 p4 s : nested s ->
  idx < 1 \/ 15 < idx < 0x100 \/ 0x109 < idx -> systemCallDispatcher idx p1 p2 p3 p4 s = Some (-1, s).
Proof.
  intros Hn Hi. assert (Ht : table idx = None).
  { destruct idx as [|p|p]; try done. do 9 (destruct p as [p|p|]; try done; try (exfalso; lia)). }
  unfold systemCallDispatcher. unfold nested in Hn. rewrite Ht. cbn [mbind option_bind].
  rewrite (s32_small (_ + 1)) by lia. cbn [num_nest_int_val set_nest]. rewrite s32_small by lia.
  rewrite Z.add_simpl_r. by destruct s.
Qed.

(** *** Calls through the user's memory *)

(** A file call leaves the process, its window and the counter alone. *)
Record kept (s s' : t) : Prop := {
  kept_win : win s' = win s;
  kept_mode : isKernel s' = isKernel s;
  kept_nest : num_nest_int_val s' = num_nest_int_val s }.
Lemma kept_trans s1 s2 s3 : kept s1 s2 -> kept s2 s3 -> kept s1 s3.
Proof. intros [] []. split; congruence. Qed.
Lemma kept_valid s s' p : kept s s' -> valid s' p = valid s p.
Proof. intros [Hw Hm _]. unfold valid. by rewrite Hw, Hm. Qed.
Lemma kept_nested s s' : kept s s' -> nested s -> nested s'.
Proof. intros [_ _ Hn]. unfold nested. by rewrite Hn. Qed.

Lemma alen_peek s a n : 0 <= n -> alen (peek s a n) = n.
Proof. apply alen_fmap_seqZ. Qed.

(** What a read stored can be fetched. *)
Lemma peek_poked s a bs : alen bs < 2 ^ 32 -> peek (poke s a bs) a (alen bs) = bs.
Proof.
  intros Hl. unfold peek. apply list_eq. intros i.
  destruct (decide (i < length bs)%nat) as [Hi|Hi].
  - rewrite list_lookup_fmap, lookup_seqZ_lt by (unfold alen; lia). cbn [fmap option_fmap option_map vmem poke].
    unfold alen in *. assert (E : u32 (u32 (a + (0 + Z.of_nat i)) - a) = Z.of_nat i).
    { unfold u32. rewrite Zminus_mod_idemp_l. replace (a + (0 + Z.of_nat i) - a) with (Z.of_nat i) by lia.
      apply Z.mod_small. lia. }
    rewrite E, (proj2 (Z.ltb_lt _ _)) by lia. unfold aget. rewrite Nat2Z.id. symmetry. apply list_lookup_lookup_total_lt. done.
  - rewrite !lookup_ge_None_2; [done|lia|]. rewrite length_fmap, length_seqZ. unfold alen. lia.
Qed.

Lemma to_res_done {A} (r : option (A * Kernel.K)) a k : Kernel.to_res r = Done a k -> r = Some (a, k).
Proof. destruct r as [[? ?]|]; [by intros [= -> ->]|done]. Qed.

Lemma string_from_nest s n m : forall a, string_from (set_nest s n) a m = string_from s a m.
Proof. induction m as [|m IH]; intros a; [done|]. cbn [string_from]. cbn [vmem set_nest]. by rewrite IH. Qed.

Lemma syscall_open s a nm c out : nested s -> valid s a = true -> string_from s a MAX_STRING = Some nm ->
  named (files s) nm c -> terminal (files s) out -> room (files s) 1 ->
  exists fd s', systemCallDispatcher 5 a 0 0 0 s = Some (fd, s') /\ kept s s' /\ vmem s' = vmem s /\
    1 < fd < 2 ^ 31 /\ fresh fd (files s) /\ is_open (files s') fd c 0 /\ terminal (files s') out /\
    frame fd (files s) (files s').
Proof.
  intros Hn Hv Hs Hnm Ht Hr. destruct (fs_open _ nm c out Hnm Ht Hr) as (fd & k & E & Hfd & Hf & Ho & Ht' & Hfr & _).
  apply to_res_done in E. exists fd, (set_files s k). split; [|split_and!; try done; try lia; by split].
  eapply dispatch_known; [done|reflexivity| |done].
  unfold systemCallRunner. cbn [super_cast]. unfold fops_open.
  change (valid (set_nest s (num_nest_int_val s + 1)) a) with (valid s a). rewrite Hv. cbn [negb].
  rewrite string_from_nest, Hs. cbn [mbind option_bind]. unfold on_files. cbn [files set_nest].
  cbn [sys_open Kernel.kernel_sys] in E. rewrite E. cbn [mbind option_bind]. by rewrite s32_small by lia.
Qed.

Lemma syscall_read s fd buf n c off out : nested s -> valid s buf = true ->
  is_open (files s) fd c off -> terminal (files s) out -> 0 < n < 2 ^ 31 ->
  off mod 4096 = 0 \/ off mod 4096 + Z.min n (alen c - off) <= 4096 ->
  exists s', systemCallDispatcher 3 fd buf n 0 s = Some (Z.min n (alen c - off), s') /\ kept s s' /\
    vmem s' = vmem (poke s buf (take (Z.to_nat (Z.min n (alen c - off))) (drop (Z.to_nat off) c))) /\
    is_open (files s') fd c (off + Z.min n (alen c - off)) /\ terminal (files s') out /\
    frame fd (files s) (files s') /\ same_room (files s) (files s').
Proof.
  intros Hn Hv Ho Ht Hr Ha. assert (Hb : 0 <= off <= alen c /\ 1 < fd < 128) by by destruct Ho as (? & [? _] & _ & ?).
  destruct (fs_read _ fd c off n out Ho Ht (proj1 Hb) Hr Ha) as (k & E & Ho' & Ht' & Hf & Hrm). apply to_res_done in E.
  set (bs := take _ _) in *. set (m := Z.min _ _) in *.
  exists (poke (set_files s k) buf bs). split; [|split_and!; try done; try lia; by split].
  eapply dispatch_known; [done|reflexivity| |done].
  unfold systemCallRunner. cbn [super_cast]. unfold fops_read.
  change (valid (set_nest s (num_nest_int_val s + 1)) buf) with (valid s buf). rewrite Hv. cbn [negb].
  unfold on_files. cbn [files set_nest]. rewrite !s32_small by lia. cbn [sys_read Kernel.kernel_sys] in E. rewrite E.
  cbn [mbind option_bind]. by rewrite s32_small by lia.
Qed.

Lemma syscall_write s buf n out : nested s -> valid s buf = true -> terminal (files s) out -> 0 <= n < 2 ^ 31 ->
  Forall (fun c => c <> 0) (peek s buf n) ->
  exists s', systemCallDispatcher 4 1 buf n 0 s = Some (n, s') /\ kept s s' /\ vmem s' = vmem s /\
    terminal (files s') (out ++ peek s buf n) /\ frame 1 (files s) (files s') /\ same_room (files s) (files s').
Proof.
  intros Hn Hv Ht Hr Hz. pose proof (alen_peek s buf n (proj1 Hr)) as Hl.
  destruct (fs_write _ (peek s buf n) out Ht ltac:(lia) Hz) as (k & E & Ht' & Hf & Hrm). apply to_res_done in E.
  exists (set_files s k). split; [|split_and!; try done; try lia; by split].
  eapply dispatch_known; [done|reflexivity| |done].
  unfold systemCallRunner. cbn [super_cast]. unfold fops_write.
  change (valid (set_nest s (num_nest_int_val s + 1)) buf) with (valid s buf). rewrite Hv. cbn [negb].
  unfold on_files. cbn [files set_nest]. change (peek (set_nest s (num_nest_int_val s + 1))) with (peek s).
  rewrite !s32_small by lia. rewrite Hl in E. rewrite E. cbn [mbind option_bind]. by rewrite s32_small by lia.
Qed.

Lemma syscall_close s fd c off out : nested s -> is_open (files s) fd c off -> terminal (files s) out ->
  exists s', systemCallDispatcher 6 fd 0 0 0 s = Some (0, s') /\ kept s s' /\ vmem s' = vmem s /\
    terminal (files s') out /\ frame fd (files s) (files s').
Proof.
  intros Hn Ho Ht. assert (Hb : 1 < fd < 128) by by destruct Ho as (? & [? _] & _ & _).
  destruct (fs_close _ fd c off out Ho (proj1 Hb) Ht) as (k & E & Ht' & Hf & _). apply to_res_done in E.
  exists (set_files s k). split; [|split_and!; try done; try lia; by split].
  eapply dispatch_known; [done|reflexivity| |done].
  unfold systemCallRunner. cbn [super_cast]. unfold fops_close, on_files. cbn [files set_nest].
  rewrite !s32_small by lia. by rewrite E.
Qed.

End gate.

(** C7: Once a process is loaded, a read, write, open, getargs or vidmap call (numbers 3, 4,
    5, 7 and 8, [pointer_of]) of a user thread whose pointer is neither in a page of the
    process's map nor in its window on the text memory returns -1 and changes nothing: not
    the files, not the terminal, not the memory. The fstat call (12) checks no pointer and
    is not covered, nor are execute and the window calls. *)
Theorem foreign_pointers_are_refused table_addr other_table h up w map currTerm pcb :
  0 <= table_addr < 2 ^ 32 /\ table_addr mod 2 ^ 12 = 0 ->
  Vidmap.loads (Vidmap.maps w) map -> Vidmap.only_window w ->
  (forall p, currTerm = Some p -> 0 <= Vidmap.backupBuffer p < 2 ^ 32) ->
  exists w', Vidmap.loadProcessMap table_addr up map currTerm pcb w = (true, w') /\
    forall s idx p1 p2 p3 p4 ptr, win s = w' -> isKernel s = false -> nested s ->
      pointer_of idx p1 p2 = Some ptr -> 0 <= ptr < 2 ^ 32 ->
      (forall x, x ∈ Stack.contents (TinyMemMap.pdStack map) -> vidx_of (TinyMemMap.virt x) <> ptr / 2 ^ 22) ->
      (ptr / 2 ^ 12 = 0xb8 -> forall p, ~ Vidmap.has_window up currTerm pcb p) ->
      systemCallDispatcher table_addr other_table h idx p1 p2 p3 p4 s = Some (-1, s).
Proof.
  intros Hta Hl Hw Hb.
  destruct (Vidmap.user_pointers_are_own table_addr other_table up w map currTerm pcb Hta Hl Hw Hb) as (w' & E & Hown).
  exists w'. split; [done|]. intros s idx p1 p2 p3 p4 ptr <- Hu Hn Hp Hr Hmap Hwin.
  apply (bad_pointer_refused _ _ _ idx ptr); [done|done|]. unfold valid. rewrite Hu.
  destruct (Vidmap.validUserPointer _ _ _ _ _) eqn:Ev; [|done].
  destruct (Hown ptr Hr Ev) as [(x & Hx & Ex & _)|(p & Hp' & Ep & _)]; [by destruct (Hmap x Hx)|by destruct (Hwin Ep p)].
Qed.

(** C8: A process that opens a file by a name in its memory, reads it into a buffer, writes
    the buffer to its terminal and closes the file shows the beginning of the file, as far
    as the buffer reaches; of its memory only those bytes of the buffer differ. *)
Theorem file_shown_through_memory table_addr other_table h s a b n nm c out :
  nested s -> valid table_addr other_table s a = true -> valid table_addr other_table s b = true ->
  string_from s a MAX_STRING = Some nm -> named (files s) nm c -> Forall (fun x => x <> 0) c ->
  terminal (files s) out -> room (files s) 1 -> 0 < n < 2 ^ 31 ->
  let m := Z.min n (alen c) in
  let int80 := systemCallDispatcher table_addr other_table h in
  exists fd s1 s2 s3 s4,
    int80 5 a 0 0 0 s = Some (fd, s1) /\ int80 3 fd b n 0 s1 = Some (m, s2) /\
    int80 4 1 b m 0 s2 = Some (m, s3) /\ int80 6 fd 0 0 0 s3 = Some (0, s4) /\
    terminal (files s4) (out ++ take (Z.to_nat m) c) /\ num_nest_int_val s4 = num_nest_int_val s /\
    forall x, vmem s4 x = if u32 (x - b) <? m then aget c (u32 (x - b)) else vmem s x.
Proof.
  intros Hn Ha Hb Hs Hnm Hz Ht Hr Hm m int80. unfold int80.
  destruct (syscall_open table_addr other_table h s a nm c out Hn Ha Hs Hnm Ht Hr)
    as (fd & s1 & E1 & K1 & V1 & Hfd & _ & O1 & T1 & _).
  assert (Hc : 0 <= alen c) by (unfold alen; lia).
  destruct (syscall_read table_addr other_table h s1 fd b n c 0 out) as (s2 & E2 & K2 & V2 & O2 & T2 & _);
    [by eapply kept_nested|by rewrite (kept_valid _ _ s s1)|done|done|done|by left|].
  rewrite Z.sub_0_r in *. fold m in E2, V2, O2. change (drop (Z.to_nat 0) c) with c in V2.
  set (bs := take (Z.to_nat m) c) in *.
  assert (Hbs : alen bs = m) by (unfold bs, m, alen in *; rewrite length_take; lia).
  assert (Hp : peek s2 b m = bs).
  { transitivity (peek (poke s1 b bs) b (alen bs)); [unfold peek; by rewrite V2, Hbs|].
    apply peek_poked. unfold m in Hbs. lia. }
  pose proof (kept_trans _ _ _ K1 K2) as K12.
  destruct (syscall_write table_addr other_table h s2 b m out) as (s3 & E3 & K3 & V3 & T3 & F3 & _);
    [by eapply kept_nested|by rewrite (kept_valid _ _ s s2)|done|unfold m; lia|rewrite Hp; by apply Forall_take|].
  pose proof (kept_trans _ _ _ K12 K3) as K13. rewrite Hp in T3.
  destruct (syscall_close table_addr other_table h s3 fd c (0 + m) (out ++ bs)) as (s4 & E4 & K4 & V4 & T4 & _);
    [by eapply kept_nested|eapply frame_open; [exact F3|lia|exact O2]|done|].
  exists fd, s1, s2, s3, s4. split_and!; try done.
  - by apply (kept_trans _ _ _ K13 K4).
  - intros x. rewrite V4, V3, V2. cbn [vmem poke]. rewrite Hbs, V1. destruct (Z.ltb_spec (u32 (x - b)) m) as [Hx|]; [|done].
    unfold bs, aget. rewrite lookup_total_take_lt; [done|]. pose proof (u32_range (x - b)). lia.
Qed.

(** ** A small system *)

(** The other calls refuse. *)
Definition demo_others : others :=
  let no : call := fun s => Some (-1, s) in
  Build_others (fun _ => no) (fun _ => no) (fun _ => no) (fun _ => no) no (fun _ _ => no) (fun _ _ => no) (fun _ _ => no)
    (fun _ => no) (fun _ => no) (fun _ _ _ _ => no) (fun _ => no) (fun _ _ => no) (fun _ _ _ _ => no) (fun _ _ => no).
(** The process of [Vidmap.demo_map], with the name [ab] at the start of its page. *)
Definition demo_memory (x : Z) : Z := if x =? 0x8000000 then 97 else if x =? 0x8000001 then 98 else 0.
Definition demo_start (k : Kernel.K) (w : Vidmap.t) : t := mk k w (Some Vidmap.demo_painter) 7 false demo_memory 0.

Lemma foreign_pointers_are_refused_witness : exists w' k,
  Vidmap.loadProcessMap 0x500000 true Vidmap.demo_map (Some Vidmap.demo_painter) 7 Vidmap.demo_state = (true, w') /\
  systemCallDispatcher 0x500000 (fun _ _ => 0) demo_others 3 0 0x400000 31 0 (demo_start k w') =
    Some (-1, demo_start k w').
Proof.
  destruct (foreign_pointers_are_refused 0x500000 (fun _ _ => 0) demo_others true Vidmap.demo_state Vidmap.demo_map
    (Some Vidmap.demo_painter) 7) as (w' & E & Hall).
  - split; [lia|reflexivity].
  - apply Vidmap.demo_loads.
  - apply Vidmap.demo_window.
  - intros p [= <-]. cbn. lia.
  - destruct (Kernel.boot_spec Kernel.demo_fs None []) as (k & _ & _).
    exists w', k. split; [exact E|]. apply (Hall _ 3 0 0x400000 31 0 0x400000).
    + reflexivity.
    + reflexivity.
    + split; vm_compute; congruence.
    + reflexivity.
    + lia.
    + intros x. rewrite Vidmap.demo_map_contents. intros Hx%list_elem_of_singleton. subst x. vm_compute. congruence.
    + vm_compute. congruence.
Defined.

Lemma file_shown_through_memory_witness : exists k fd s1 s2 s3 s4,
  let w := (Vidmap.loadProcessMap 0x500000 true Vidmap.demo_map (Some Vidmap.demo_painter) 7 Vidmap.demo_state).2 in
  let int80 := systemCallDispatcher 0x500000 (fun _ _ => 0) demo_others in
  Kernel.boot Kernel.demo_fs None [] = Some k /\
  int80 5 0x8000000 0 0 0 (demo_start k w) = Some (fd, s1) /\ int80 3 fd 0x8000100 32 0 s1 = Some (6, s2) /\
  int80 4 1 0x8000100 6 0 s2 = Some (6, s3) /\ int80 6 fd 0 0 0 s3 = Some (0, s4) /\
  terminal (files s4) Kernel.demo_text.
Proof.
  destruct (Kernel.boot_spec Kernel.demo_fs None []) as (k & E & T & Hk & _ & Hr).
  set (w := (Vidmap.loadProcessMap 0x500000 true Vidmap.demo_map (Some Vidmap.demo_painter) 7 Vidmap.demo_state).2).
  destruct (file_shown_through_memory 0x500000 (fun _ _ => 0) demo_others (demo_start k w) 0x8000000 0x8000100 32
    Kernel.demo_name Kernel.demo_text []) as (fd & s1 & s2 & s3 & s4 & E1 & E2 & E3 & E4 & T4 & _).
  - split; vm_compute; congruence.
  - vm_compute. reflexivity.
  - vm_compute. reflexivity.
  - vm_compute. reflexivity.
  - apply Kernel.demo_named, Hk.
  - repeat constructor; lia.
  - exact T.
  - exact (Z.le_trans 1 126 _ ltac:(lia) Hr).
  - lia.
  - exists k, fd, s1, s2, s3, s4. cbv zeta. split_and!; [exact E|exact E1|exact E2|exact E3|exact E4|exact T4].
Defined.
End SysCall.
