(* ===== verification/Loader.v ===== *)
(** * Executing a file (syscalls/exec.cpp, exec_check.cpp, exec_loader.cpp)

    The part of [do_exec] that finds the file, splits the command from its arguments,
    makes the child's memory and stack and loads the image; the process itself is
    Sched.v's. Files are read through the dispatcher of Kernel.v, pages come from
    PhysPages.v and the child's map is MemMap.v's. *)
From stdpp Require Import prelude list numbers.
From Stdlib Require Import ZArith Lia.
From S2P Require Import Prelude BitSet Stack PhysPages MemMap LPHash KissFS PrefixTree FileDesc Sys Kernel.

Module Loader.

(** inc/syscalls/exec.h, inc/x86/desc.h *)
Definition code_page_vaddr_base : Z := 0x08000000.
Definition program_image_offset : Z := 0x00048000.
Definition program_image_addr : Z := code_page_vaddr_base + program_image_offset.
Definition USER_CS_SEL : Z := 0x23.
Definition USER_DS_SEL : Z := 0x2B.
Definition S_ISREG (m : Z) : bool := Z.land m 0xf000 =? 0x8000.

(** ** The command line *)

Fixpoint skip_spaces (fuel : nat) (filename : list Z) (j : Z) : option Z :=
  match fuel with
  | O => None
  | S fuel => c ← anth filename j; if c =? 32 then skip_spaces fuel filename (j + 1) else Some j
  end.

Fixpoint get_arg_loop (todo : nat) (filename : list Z) (i : Z) : option (Z * list Z) :=
  match todo with
  | O => Some (-1, filename)
  | S todo =>
      c ← anth filename i;
      if c =? 32 then
        j ← skip_spaces (length filename) filename i;
        d ← anth filename j;
        Some (if negb (d =? 0) then j else -1, aset filename i 0)
      else get_arg_loop todo filename (i + 1)
  end.

(** The index of the arguments, or -1; the command is cut off at its end. *)
Definition get_arg_position (filename : list Z) (filename_len : Z) : option (Z * list Z) :=
  get_arg_loop (Z.to_nat filename_len) filename 0.

(** [store_arg]: the characters, without the terminator put behind them. *)
Definition store_arg (filename : list Z) (filename_len arg_index : Z) : list Z :=
  take (Z.to_nat (filename_len - arg_index)) (drop (Z.to_nat arg_index) filename).

(** A C string up to its terminator. *)
Fixpoint cstr (s : list Z) : list Z :=
  match s with [] => [] | c :: s => if c =? 0 then [] else c :: cstr s end.

(** ** The child's kernel stack *)

(** [Stacker<x86>]: the address of the top and the words from it upwards. *)
Definition stacker (esp : Z) : Z * list Z := (esp - 3, []).
Definition push (st : Z * list Z) (value : Z) : Z * list Z := (st.1 - 4, value :: st.2).

Definition THREAD_KSTACK_SIZE : Z := 8192.

(** The [iret] frame and, below it, [pushal_t]: edi, esi, ebp, esp, ebx, edx, ecx, eax. *)
Definition child_stack (kstack_addr eflags entry_point : Z) : Z * list Z :=
  let st := stacker (kstack_addr + THREAD_KSTACK_SIZE - 1) in
  let st := push st USER_DS_SEL in
  let st := push st (code_page_vaddr_base + Z.shiftl 1 22 - 8) in
  let st := push st (Z.lor (Z.land eflags (not32 0x24100)) 0x3200) in
  let st := push st USER_CS_SEL in
  let st := push st entry_point in
  let esp := st.1 in
  foldr (fun r st => push st r) st [0; 0; 0; esp; 0; 0; 0; u32 (-1)].

(** ** Loading *)

Section loader.
Context {W D : Type} `{IFOps W D}.
Notation K := (Kernel.t W D).

(** [buf] with the bytes read over it. *)
Definition overlay (bs buf : list Z) : list Z := bs ++ drop (length bs) buf.

Definition is_kiss_executable (k : K) (filename : list Z) : option (Z * K) :=
  '(f, k) ← Kernel.dispatch_open k filename;
  match f with
  | None => Some (0, k)
  | Some f =>
      '(st_mode, _) ← Kernel.dispatch_fstat k f;
      if negb (S_ISREG st_mode) then
        let '(_, k) := Kernel.dispatch_close k f in Some (0, k)
      else
        '(n, bs, f, k) ← Kernel.dispatch_read k f 4;
        let buf := overlay bs [0; 0; 0; 0] in
        let len := u32 n in
        let '(_, k) := Kernel.dispatch_close k f in
        if len <? 4 then Some (0, k)
        else Some (if bool_decide (take 4 buf = [0x7f; 0x45; 0x4c; 0x46]) then 1 else 0, k)
  end.

(** The child's page ends 4 MB above [code_page_vaddr_base]; [None] is the page fault
    of a longer image. *)
Definition image_room : Z := MB 4 - program_image_offset.
Definition store_image (mem : memory) (bs : list Z) : option memory :=
  if image_room <? alen bs then None
  else Some (fun x => if decide (program_image_addr <= x < program_image_addr + alen bs)
                      then default 0 (bs !! Z.to_nat (x - program_image_addr)) else mem x).

(** An image of four megabytes exactly must end there. *)
Definition too_long (k : K) (f : Kernel.file D) (first_len four_mb : Z) : option (bool * Kernel.file D * K) :=
  let fail := four_mb <? first_len in
  if first_len =? four_mb then
    '(n, _, f, k) ← Kernel.dispatch_read k f 1; Some (fail || (0 <? s32 n), f, k)
  else Some (fail, f, k).

(** The entry point (0 for failure), the child's memory and the kernel. *)
Definition kiss_loader (mem : memory) (k : K) (filename : list Z) : option (Z * memory * K) :=
  '(f, k) ← Kernel.dispatch_open k filename;
  match f with
  | None => Some (0, mem, k)
  | Some f =>
      let four_mb := 0x400000 in
      '(n, bs, f, k) ← Kernel.dispatch_read k f four_mb;
      mem ← store_image mem bs;
      '(fail, f, k) ← too_long k f (u32 n) four_mb;
      let '(_, k) := Kernel.dispatch_close k f in
      Some (if (fail : bool) then 0 else rd32 mem (program_image_addr + 24), mem, k)
  end.

(** What [do_exec] gives the child. *)
Record child := mk_child {
  arg : option (list Z);
  memmap : TinyMemMap.t;
  heapStartingPageIdx : Z;
  code_mem : memory;
  kstack : Z * list Z }.
Inductive exec_result := Refused (retval : Z) | Child (c : child).

(** [do_exec] on the new process whose kernel stack is at [kstack_addr]; [mem] is what
    its page holds before. *)
Definition do_exec (kstack_addr eflags : Z) (mem : memory) (ph : PhysPages.t) (k : K) (arg0 : list Z)
    : option (exec_result * PhysPages.t * K) :=
  let filename_len := alen arg0 in
  '(arg_index, file) ← get_arg_position (arg0 ++ [0]) filename_len;
  '(ok, k) ← is_kiss_executable k (cstr file);
  if ok =? 0 then Some (Refused (-1), ph, k)
  else
    let a := if arg_index =? -1 then None else Some (store_arg file filename_len arg_index) in
    let '(physIdx, ph) := PhysPages.allocPage PhysPages.physPages_n ph false in
    match physIdx with
    | None => Some (Refused 256, ph, k)
    | Some p =>
        let physAddr := PhysAddr.make p (Z.lor PG_WRITABLE PG_USER) in
        let '(added, mm) := TinyMemMap.add TinyMemMap.init code_page_vaddr_base physAddr in
        if negb added then Some (Refused 256, ph, k)
        else
          '(entry_point, mem, k) ← kiss_loader mem k (cstr file);
          Some (Child (mk_child a mm (Z.shiftr code_page_vaddr_base 22 + 2) mem
                         (child_stack kstack_addr eflags entry_point)), ph, k)
    end.
End loader.

(** ** The command and its arguments *)

Fixpoint command (s : list Z) : list Z :=
  match s with [] => [] | c :: s => if c =? 32 then [] else c :: command s end.
Fixpoint skip (s : list Z) : list Z :=
  match s with [] => [] | c :: s' => if c =? 32 then skip s' else s end.
Fixpoint after (s : list Z) : list Z :=
  match s with [] => [] | c :: s' => if c =? 32 then skip s' else after s' end.
(** What follows the first run of spaces, if anything does. *)
Definition args_of (s : list Z) : option (list Z) := match after s with [] => None | r => Some r end.

Lemma anth_mid (pre : list Z) c s : anth (pre ++ c :: s) (alen pre) = Some c.
Proof. unfold anth, alen. rewrite (proj2 (Z.leb_le _ _)) by lia. by rewrite Nat2Z.id, list_lookup_middle. Qed.

Lemma skip_split s : exists n, s = replicate n 32 ++ skip s.
Proof.
  induction s as [|c s [n IH]]; [by exists 0%nat|]. cbn [skip]. destruct (Z.eqb_spec c 32) as [->|]; [|by exists 0%nat].
  exists (S n). cbn [replicate app]. by rewrite <- IH.
Qed.
Lemma skip_elem s c : c ∈ skip s -> c ∈ s.
Proof. destruct (skip_split s) as [n E]. intros Hc. rewrite E, elem_of_app. by right. Qed.

Lemma skip_spaces_spec s : forall fuel pre, Forall (fun c => c <> 0) s -> (length s < fuel)%nat ->
  skip_spaces fuel (pre ++ s ++ [0]) (alen pre) = Some (alen pre + (alen s - alen (skip s))).
Proof.
  induction s as [|c s IH]; intros fuel pre Hs Hf; destruct fuel as [|fuel]; try (simpl in Hf; lia); cbn [skip_spaces app].
  - rewrite anth_mid. cbn [mbind option_bind Z.eqb]. f_equal. unfold alen. simpl. lia.
  - rewrite anth_mid. cbn [mbind option_bind skip]. apply list.Forall_cons in Hs as [Hc Hs]. destruct (Z.eqb_spec c 32) as [->|Hne].
    + specialize (IH fuel (pre ++ [32]) Hs ltac:(simpl in Hf; lia)). rewrite <- app_assoc in IH. cbn [app] in IH.
      rewrite alen_app in IH. change (alen [32]) with 1 in IH. rewrite IH. f_equal. unfold alen. simpl length. lia.
    + f_equal. lia.
Qed.

Lemma cstr_cut s r : Forall (fun c => c <> 0) s -> cstr (s ++ 0 :: r) = s.
Proof.
  induction s as [|c s IH]; intros Hs; [done|]. apply list.Forall_cons in Hs as [Hc Hs]. cbn [app cstr].
  rewrite (proj2 (Z.eqb_neq c 0)) by done. by rewrite IH.
Qed.

Lemma get_arg_loop_spec s : forall pre, Forall (fun c => c <> 0) (pre ++ s) -> exists idx file,
  get_arg_loop (length s) (pre ++ s ++ [0]) (alen pre) = Some (idx, file) /\
  cstr file = pre ++ command s /\
  (if idx =? -1 then None else Some (store_arg file (alen pre + alen s) idx)) = args_of s.
Proof.
  induction s as [|c s IH]; intros pre Hn; cbn [get_arg_loop length app].
  { exists (-1), (pre ++ [0]). rewrite app_nil_r in *. split; [done|]. split; [by apply cstr_cut|done]. }
  rewrite anth_mid. cbn [mbind option_bind command args_of after]. unfold args_of. cbn [after]. destruct (Z.eqb_spec c 32) as [->|Hne].
  - apply list.Forall_app in Hn as [Hp Hs]. apply list.Forall_cons in Hs as [_ Hs].
    change (32 :: s ++ [0]) with ((32 :: s) ++ [0]).
    rewrite (skip_spaces_spec (32 :: s) _ pre) by first [by constructor|rewrite !length_app; cbn [length]; lia].
    cbn [app].
    cbn [mbind option_bind skip]. rewrite Z.eqb_refl. set (r := skip s).
    destruct (skip_split s) as [n En]. fold r in En.
    assert (Hj : alen pre + (alen (32 :: s) - alen r) = alen (pre ++ replicate (S n) 32)).
    { rewrite En. unfold alen. rewrite length_app. cbn [length]. rewrite length_app, !length_replicate. lia. }
    rewrite Hj. assert (Efile : pre ++ 32 :: s ++ [0] = (pre ++ replicate (S n) 32) ++ r ++ [0]).
    { rewrite En at 1. rewrite <- !app_assoc. reflexivity. }
    rewrite Efile. assert (Hset : aset ((pre ++ replicate (S n) 32) ++ r ++ [0]) (alen pre) 0 = pre ++ 0 :: replicate n 32 ++ r ++ [0]).
    { unfold aset, alen. rewrite Nat2Z.id, <- app_assoc. rewrite insert_app_r_alt by lia. rewrite Nat.sub_diag. done. }
    rewrite app_nil_r. destruct r as [|d r'] eqn:Er.
    + cbn [app] in Hset |- *. rewrite anth_mid. cbn [mbind option_bind Z.eqb negb]. rewrite Hset. eexists _, _. split; [reflexivity|].
      split; [by apply cstr_cut|done].
    + cbn [app]. rewrite anth_mid. assert (Hd : d <> 0).
      { rewrite list.Forall_forall in Hs. apply Hs. apply skip_elem. fold r. rewrite Er. left. }
      cbn [mbind option_bind]. rewrite (proj2 (Z.eqb_neq d 0)) by done. cbn [negb]. cbn [app] in Hset. rewrite Hset.
      eexists _, _. split; [reflexivity|]. split; [by apply cstr_cut|].
      rewrite (proj2 (Z.eqb_neq _ (-1))) by (unfold alen; lia). f_equal. unfold store_arg, alen. rewrite length_app, length_replicate.
      rewrite Nat2Z.id. replace (length pre + S n)%nat with (length (pre ++ 0 :: replicate n 32)) by (rewrite length_app; simpl; rewrite length_replicate; lia).
      replace (pre ++ 0 :: replicate n 32 ++ d :: r' ++ [0]) with ((pre ++ 0 :: replicate n 32) ++ (d :: r') ++ [0])
        by (rewrite <- app_assoc; done).
      rewrite drop_app_length. rewrite take_app_le.
      * apply take_ge. rewrite En. cbn [length]. rewrite !length_app. cbn [length]. rewrite !length_replicate. simpl. lia.
      * rewrite En. rewrite !length_app. cbn [length]. rewrite !length_app, !length_replicate. simpl. lia.
  - destruct (IH (pre ++ [c])) as (idx & file & E & Hc & Ha); [by rewrite <- app_assoc|].
    rewrite <- app_assoc in E. cbn [app] in E. rewrite alen_app in E, Ha. change (alen [c]) with 1 in E, Ha.
    exists idx, file. split; [done|]. split; [by rewrite Hc, <- app_assoc|].
    unfold args_of in Ha. rewrite <- Ha. replace (alen pre + alen (c :: s)) with (alen pre + 1 + alen s) by (unfold alen; simpl; lia). done.
Qed.

Lemma get_arg_position_spec s : Forall (fun c => c <> 0) s -> exists idx file,
  get_arg_position (s ++ [0]) (alen s) = Some (idx, file) /\ cstr file = command s /\
  (if idx =? -1 then None else Some (store_arg file (alen s) idx)) = args_of s.
Proof.
  intros Hs. unfold get_arg_position. unfold alen at 1. rewrite Nat2Z.id.
  destruct (get_arg_loop_spec s []) as (idx & file & H); [done|]. by exists idx, file.
Qed.

(** ** Loading a file of the image *)

Notation K := (Kernel.t Console.t Console.fops).

(** The file a name opens, in a kernel with the usual mounts. *)
Lemma open_named (k : K) nm c : Kernel.mounted k -> named k nm c -> exists ino,
  Kernel.dispatch_open k nm = Some (Some (Kernel.mk_file 0 (Kernel.KissData (KissFS.FdFile KissFS.NORMAL_FILE ino))), k) /\
  Kernel.serves (Kernel.kiss k) ino c.
Proof.
  intros [I G] (Hp & ino & Ho & Hs). exists ino. split; [|done]. rewrite Kernel.dispatch_plain by done. by rewrite Ho.
Qed.

Lemma read_start (k : K) ino c n : Kernel.serves (Kernel.kiss k) ino c -> 0 <= n < 2 ^ 31 ->
  let m := Z.min n (alen c) in
  Kernel.dispatch_read k (Kernel.mk_file 0 (Kernel.KissData (KissFS.FdFile KissFS.NORMAL_FILE ino))) n =
  Some (m, take (Z.to_nat m) c, Kernel.mk_file m (Kernel.KissData (KissFS.FdFile KissFS.NORMAL_FILE ino)), k).
Proof.
  intros [Hc Hs] Hn m. unfold Kernel.dispatch_read. cbn [Kernel.data Kernel.offset]. pose proof (alen_nonneg c).
  unfold KissFS.read. cbn [KissFS.fd_filetype]. change (KissFS.NORMAL_FILE =? KissFS.DIRECTORY) with false. cbn iota.
  rewrite (u32_small n) by lia. rewrite Hs by (lia || (by left)). rewrite Z.sub_0_r. fold m. rewrite drop_0. cbn [mbind option_bind].
  rewrite (proj2 (Z.eqb_neq m (-1))) by (unfold m; lia). rewrite Z.add_0_l, u32_small by (unfold m; lia). done.
Qed.

Lemma serves_inode fs ino c : Kernel.serves fs ino c -> exists nd, anth (KissFS.inodes fs) ino = Some nd.
Proof.
  intros [_ Hs]. pose proof (alen_nonneg c). specialize (Hs 0 0 ltac:(lia) ltac:(lia) (or_introl eq_refl)). unfold KissFS.readData in Hs.
  destruct (_ <? _); [replace (Z.min 0 (alen c - 0)) with 0 in Hs by lia; discriminate Hs|].
  destruct (anth _ _) as [nd|]; [by exists nd|discriminate Hs].
Qed.

Definition magic : list Z := [0x7f; 0x45; 0x4c; 0x46].

Lemma is_kiss_executable_spec (k : K) nm c : Kernel.mounted k -> named k nm c ->
  is_kiss_executable k nm = Some (if decide (take 4 c = magic) then 1 else 0, k).
Proof.
  intros M Hn. destruct (open_named k nm c M Hn) as (ino & Eo & Hs). unfold is_kiss_executable. rewrite Eo. cbn [mbind option_bind].
  unfold Kernel.dispatch_fstat. cbn [Kernel.data]. unfold KissFS.fstat. cbn [KissFS.fd_filetype].
  change (KissFS.NORMAL_FILE =? KissFS.DIRECTORY) with false. change (KissFS.NORMAL_FILE =? KissFS.SPECIAL_DEVICE) with false.
  destruct (serves_inode _ _ _ Hs) as [nd ->]. cbn [mbind option_bind]. change (negb (S_ISREG KissFS.S_IFREG)) with false. cbn iota.
  rewrite (read_start k ino c 4 Hs) by lia. cbn [mbind option_bind Kernel.dispatch_close Kernel.data].
  pose proof (alen_nonneg c) as H0. rewrite u32_small by lia. destruct (Z.ltb_spec (Z.min 4 (alen c)) 4) as [Hlt|Hge].
  - rewrite decide_False; [done|]. intros E. apply (f_equal length) in E. rewrite length_take in E. unfold alen in *. change (length magic) with 4%nat in E. lia.
  - rewrite Z.min_l by lia. unfold overlay. rewrite take_app_le by (rewrite length_take; unfold alen in *; lia).
    rewrite take_take. change (4 `min` Z.to_nat 4)%nat with 4%nat. unfold magic.
    destruct (decide (take 4 c = [127; 69; 76; 70])) as [E|E]; [by rewrite bool_decide_true|by rewrite bool_decide_false].
Qed.

(** The image [c] in the child's memory. *)
Definition loaded (mem : memory) (c : list Z) : memory := fun x =>
  if decide (program_image_addr <= x < program_image_addr + alen c)
  then default 0 (c !! Z.to_nat (x - program_image_addr)) else mem x.

Lemma kiss_loader_spec (k : K) mem nm c : Kernel.mounted k -> named k nm c -> alen c <= image_room ->
  kiss_loader mem k nm = Some (rd32 (loaded mem c) (program_image_addr + 24), loaded mem c, k).
Proof.
  intros M Hn Hc. destruct (open_named k nm c M Hn) as (ino & Eo & Hs). unfold kiss_loader. rewrite Eo. cbn [mbind option_bind]. cbv zeta.
  rewrite (read_start k ino c 0x400000 Hs) by lia. cbn [mbind option_bind]. pose proof (alen_nonneg c) as H0.
  assert (Hr : image_room = 0x3b8000) by done. rewrite Z.min_r by lia. rewrite take_ge by (unfold alen; lia).
  unfold store_image. rewrite (proj2 (Z.ltb_ge _ _)) by lia. cbn [mbind option_bind].
  unfold too_long. rewrite u32_small by lia. cbv zeta. rewrite (proj2 (Z.eqb_neq (alen c) 0x400000)) by lia.
  rewrite (proj2 (Z.ltb_ge 0x400000 (alen c))) by lia. reflexivity.
Qed.

(** The map of a fresh process takes its code page. *)
Lemma fresh_map_add pde : exists mm, TinyMemMap.add TinyMemMap.init code_page_vaddr_base pde = (true, mm) /\
  Stack.contents (TinyMemMap.pdStack mm) = [TinyMemMap.mk_mapping pde code_page_vaddr_base].
Proof.
  unfold TinyMemMap.add, TinyMemMap.init. cbn [TinyMemMap.isVirtAddrUsed TinyMemMap.pdStack].
  rewrite BitSet.test_init by (vm_compute; congruence). eexists. split; [done|]. cbn [TinyMemMap.pdStack].
  rewrite Stack.contents_push by (apply Stack.stack_wf_init; vm_compute; congruence). by rewrite decide_True by done.
Qed.

(** ** Executing a command *)

(** Executing a command line whose command names an executable of the image that fits
    its page: the child gets what follows the command as its arguments, one page mapped
    at the code address, the file's bytes at the image address and nothing else changed,
    and a stack that starts it in user mode at the file's entry point with interrupts on;
    the parent's files are as before. *)
Lemma do_exec_loads_image (k : K) kstack_addr eflags mem ph ph' p arg0 c :
  Kernel.mounted k -> Forall (fun x => x <> 0) arg0 -> named k (command arg0) c -> take 4 c = magic ->
  alen c <= image_room -> PhysPages.allocPage PhysPages.physPages_n ph false = (Some p, ph') ->
  exists ch, do_exec kstack_addr eflags mem ph k arg0 = Some (Child ch, ph', k) /\
    arg ch = args_of arg0 /\
    Stack.contents (TinyMemMap.pdStack (memmap ch)) =
      [TinyMemMap.mk_mapping (PhysAddr.make p (Z.lor PG_WRITABLE PG_USER)) code_page_vaddr_base] /\
    (forall i b, c !! i = Some b -> code_mem ch (program_image_addr + Z.of_nat i) = b) /\
    (forall x, x < program_image_addr \/ program_image_addr + alen c <= x -> code_mem ch x = mem x) /\
    exists fl, drop 8 (kstack ch).2 =
        [rd32 (code_mem ch) (program_image_addr + 24); USER_CS_SEL; fl; code_page_vaddr_base + MB 4 - 8; USER_DS_SEL] /\
      Z.testbit fl 9 = true /\ Z.testbit fl 17 = false /\
      (kstack ch).1 = kstack_addr + THREAD_KSTACK_SIZE - 4 - 4 * alen (kstack ch).2.
Proof.
  intros M Ha Hn Hm Hc Hp. unfold do_exec. destruct (get_arg_position_spec arg0 Ha) as (idx & file & -> & Hcmd & Hargs).
  cbn [mbind option_bind]. rewrite Hcmd, (is_kiss_executable_spec k _ c) by done. cbn [mbind option_bind].
  rewrite decide_True by done. cbn [Z.eqb]. rewrite Hp. destruct (fresh_map_add (PhysAddr.make p (Z.lor PG_WRITABLE PG_USER))) as (mm & -> & Hmm).
  cbn [negb]. rewrite (kiss_loader_spec k mem _ c) by done. cbn [mbind option_bind].
  eexists. split; [reflexivity|]. cbn [arg memmap code_mem kstack]. split; [exact Hargs|]. split; [exact Hmm|].
  split; [|split].
  - intros i b Hb. unfold loaded. pose proof (lookup_lt_Some _ _ _ Hb). unfold alen. rewrite decide_True by lia.
    replace (Z.to_nat _) with i by lia. by rewrite Hb.
  - intros x Hx. unfold loaded. by rewrite decide_False by lia.
  - unfold child_stack, push, stacker. cbn [foldr fst snd drop]. eexists. split; [reflexivity|]. split; [|split].
    + rewrite Z.lor_spec. change (Z.testbit 12800 9) with true. apply orb_true_r.
    + rewrite Z.lor_spec, Z.land_spec, testbit_not32 by lia. change (Z.testbit 147712 17) with true. by rewrite andb_false_r.
    + unfold alen. simpl length. unfold THREAD_KSTACK_SIZE. lia.
Qed.

(** A command that names nothing, or a file that is no executable: -1, and nothing has
    changed. *)
Lemma do_exec_refuses (k : K) kstack_addr eflags mem ph arg0 :
  Kernel.mounted k -> Forall (fun x => x <> 0) arg0 ->
  (Kernel.plain_name (command arg0) /\ KissFS.open (Kernel.kiss k) (command arg0) = Some None) \/
  (exists c, named k (command arg0) c /\ take 4 c <> magic) ->
  do_exec kstack_addr eflags mem ph k arg0 = Some (Refused (-1), ph, k).
Proof.
  intros M Ha Hc. unfold do_exec. destruct (get_arg_position_spec arg0 Ha) as (idx & file & -> & Hcmd & _).
  cbn [mbind option_bind]. rewrite Hcmd. destruct Hc as [[Hp Ho]|(c & Hn & Hm)].
  - unfold is_kiss_executable. rewrite Kernel.dispatch_plain by (done || apply M). by rewrite Ho.
  - rewrite (is_kiss_executable_spec k _ c) by done. by rewrite decide_False.
Qed.

(** A file that leaves no room for itself behind the image address runs over the end of
    the page, though it is shorter than the four megabytes the loader asks for. *)
Lemma long_image_faults (k : K) mem nm c : Kernel.mounted k -> named k nm c ->
  image_room < alen c < 0x400000 -> kiss_loader mem k nm = None.
Proof.
  intros M Hn Hc. destruct (open_named k nm c M Hn) as (ino & Eo & Hs). unfold kiss_loader. rewrite Eo. cbn [mbind option_bind]. cbv zeta.
  rewrite (read_start k ino c 0x400000 Hs) by lia. cbn [mbind option_bind]. rewrite Z.min_r by lia.
  rewrite take_ge by (unfold alen; lia). unfold store_image. by rewrite (proj2 (Z.ltb_lt _ _)) by lia.
Qed.
End Loader.
