(* ===== verification/UserProgs.v ===== *)
(** * The user programs (syscalls/ece391*.c)

    Each program is its [main], with the initial contents of its uninitialised
    buffers as arguments and fuel for its unbounded loop. *)
From stdpp Require Import prelude list numbers strings.
From Stdlib Require Import ZArith Lia.
From S2P Require Import Prelude UserLib Sys Kernel.

Module UserProgs.

Definition NL : list Z := [10].
(** A literal that ends with a new line. *)
Definition litn (x : string) : list Z := bytes_of x ++ NL ++ [0].

Section programs.
Context {S : Type} `{Sys S}.

(** ** cat *)

Fixpoint cat_loop (fuel : nat) (fd : Z) (buf : list Z) : prog S Z :=
  match fuel with
  | O => stuck
  | Datatypes.S fuel =>
      '(cnt, buf) ← ece391_read fd buf 0 1024;
      if cnt =? 0 then mret 0
      else if cnt =? -1 then puts (litn "file read failed");; mret 3
      else
        r ← ece391_write 1 buf 0 cnt;
        if r =? -1 then mret 3 else cat_loop fuel fd buf
  end.

Definition cat (fuel : nat) (buf : list Z) : prog S Z :=
  '(r, buf) ← ece391_getargs buf 1024;
  if negb (r =? 0) then puts (litn "could not read arguments");; mret 3
  else
    fd ← ece391_open buf 0;
    if fd =? -1 then puts (litn "file not found");; mret 2
    else cat_loop fuel fd buf.

(** ** ls *)

Definition SBUFSIZE : Z := 33.

Fixpoint ls_loop (fuel : nat) (fd : Z) (buf : list Z) : prog S Z :=
  match fuel with
  | O => stuck
  | Datatypes.S fuel =>
      '(cnt, buf) ← ece391_read fd buf 0 (SBUFSIZE - 1);
      if cnt =? 0 then mret 0
      else if cnt =? -1 then puts (litn "directory entry read failed");; mret 3
      else
        buf ← lift (UserLib.store buf cnt 10);
        r ← ece391_write 1 buf 0 (cnt + 1);
        if r =? -1 then mret 3 else ls_loop fuel fd buf
  end.

Definition ls (fuel : nat) (buf : list Z) : prog S Z :=
  fd ← ece391_open (lit ".") 0;
  if fd =? -1 then puts (litn "directory open failed");; mret 2
  else ls_loop fuel fd buf.

(** ** grep *)

Definition BUFSIZE : Z := 1024.

(** [while (line_end < last && '\n' != data[line_end]) line_end++] *)
Fixpoint line_end_loop (fuel : nat) (data : list Z) (last line_end : Z) : option Z :=
  match fuel with
  | O => None
  | Datatypes.S fuel =>
      if line_end <? last then
        c ← UserLib.load data line_end;
        if negb (c =? 10) then line_end_loop fuel data last (line_end + 1) else Some line_end
      else Some line_end
  end.

(** The search of a line: the first place where the pattern occurs ends it; [s] is
    a [char*], [data] an array of [uint8_t]. *)
Fixpoint check_loop (fuel : nat) (sbuf data : list Z) (s_len line_end check : Z) : option bool :=
  match fuel with
  | O => None
  | Datatypes.S fuel =>
      if check <? line_end then
        a ← UserLib.load sbuf 0;
        c ← UserLib.load data check;
        if schar a =? c then
          r ← UserLib.strncmp data sbuf check 0 (u32 s_len);
          if r =? 0 then Some true else check_loop fuel sbuf data s_len line_end (check + 1)
        else check_loop fuel sbuf data s_len line_end (check + 1)
      else Some false
  end.

(** The lines of the buffer: what is left in it, and [last]. *)
Fixpoint lines_loop (fuel : nat) (sbuf fname : list Z) (s_len cnt last : Z)
    (data : list Z) (line_start : Z) : prog S (list Z * Z) :=
  match fuel with
  | O => stuck
  | Datatypes.S fuel =>
      line_end ← lift (line_end_loop (Datatypes.S (length data)) data last line_start);
      c ← lift (UserLib.load data line_end);
      if negb (c =? 10) && negb (cnt =? 0) && negb (line_start =? 0) then
        data ← lift (UserLib.store data line_end 0);
        data ← lift (UserLib.strcpy data 0 line_start);
        mret (data, last - line_start)
      else
        data ← lift (UserLib.store data line_end 0);
        hit ← lift (check_loop (Datatypes.S (length data)) sbuf data s_len line_end line_start);
        (if (hit : bool) then
           fdputs 1 fname 0;; puts (lit ":");; fdputs 1 data line_start;; puts (litn "")
         else mret tt);;
        let line_start := line_end + 1 in
        if last <=? line_start then mret (data, 0)
        else lines_loop fuel sbuf fname s_len cnt last data line_start
  end.

Fixpoint file_loop (fuel : nat) (sbuf fname : list Z) (s_len fd : Z)
    (data : list Z) (last : Z) : prog S Z :=
  match fuel with
  | O => stuck
  | Datatypes.S fuel =>
      '(cnt, data) ← ece391_read fd data last (BUFSIZE - last);
      if cnt =? -1 then puts (litn "file read failed");; mret (-1)
      else
        let last := last + cnt in
        '(data, last) ← lines_loop (Datatypes.S (length data)) sbuf fname s_len cnt last data 0;
        if cnt =? 0 then
          r ← sys_close fd;
          if r =? -1 then puts (litn "file close failed");; mret (-1) else mret 0
        else file_loop fuel sbuf fname s_len fd data last
  end.

(** [do_one_file]; [data] is its uninitialised buffer. *)
Definition do_one_file (fuel : nat) (data sbuf fname : list Z) : prog S Z :=
  s_len ← lift (UserLib.strlen sbuf 0);
  fd ← ece391_open fname 0;
  if fd =? -1 then puts (litn "file open failed");; mret (-1)
  else file_loop fuel sbuf fname (s32 s_len) fd data 0.

(** [main]'s loop over the directory; [datas i] is what the frame of [do_one_file]
    holds at its [i]-th call. *)
Fixpoint grep_loop (fuel : nat) (datas : nat -> list Z) (i : nat) (search : list Z) (fd : Z) (buf : list Z)
    : prog S Z :=
  match fuel with
  | O => stuck
  | Datatypes.S fuel' =>
      '(cnt, buf) ← ece391_read fd buf 0 (SBUFSIZE - 1);
      if cnt =? 0 then mret 0
      else if cnt =? -1 then puts (litn "directory entry read failed");; mret 3
      else
        c ← lift (UserLib.load buf 0);
        if c =? 46 then grep_loop fuel' datas i search fd buf
        else
          buf ← lift (UserLib.store buf cnt 0);
          r ← do_one_file fuel (datas i) search buf;
          if negb (r =? 0) then mret 3 else grep_loop fuel' datas (Datatypes.S i) search fd buf
  end.

Definition grep (fuel : nat) (datas : nat -> list Z) (search buf : list Z) : prog S Z :=
  '(r, search) ← ece391_getargs search BUFSIZE;
  if negb (r =? 0) then puts (litn "could not read argument");; mret 3
  else
    fd ← ece391_open (lit ".") 0;
    if fd =? -1 then puts (litn "directory open failed");; mret 2
    else grep_loop fuel datas 0 search fd buf.

(** ** hello, testprint *)

Definition hello (buf : list Z) : prog S Z :=
  puts (lit "Hi, what's your name? ");;
  '(cnt, buf) ← ece391_read 0 buf 0 (BUFSIZE - 1);
  if cnt =? -1 then puts (litn "Can't read name from keyboard.");; mret 3
  else
    buf ← lift (UserLib.store buf cnt 0);
    puts (lit "Hello, ");; puts buf;; mret 0.

Definition testprint : prog S Z :=
  puts (litn "Hello, if this ran, the program was correct. Yay!");; mret 0.

(** ** counter *)

Fixpoint counter_loop (fuel : nat) (i max : Z) (buf : list Z) : prog S Z :=
  match fuel with
  | O => stuck
  | Datatypes.S fuel =>
      if i <? max then
        buf ← lift (UserLib.itoa (u32 (i + 1)) buf 0 10);
        fdputs 1 buf 0;; puts (litn "");;
        counter_loop fuel (u32 (i + 1)) max buf
      else mret 0
  end.

(** The test both [counter] and [testfault] make of their input. *)
Definition wrong_choice (buf : list Z) : option bool :=
  n ← UserLib.strlen buf 0;
  if 2 <? n then Some true
  else if n =? 2 then
    b ← UserLib.load buf 0; Some ((b <? 48) || (50 <? b))
  else Some false.

Definition counter (fuel : nat) (buf : list Z) : prog S Z :=
  puts (litn "Enter the Test Number: (0): 100, (1): 10000, (2): 100000");;
  '(cnt, buf) ← ece391_read 0 buf 0 (BUFSIZE - 1);
  if cnt =? -1 then puts (litn "Can't read the number from keyboard.");; mret 3
  else
    buf ← lift (UserLib.store buf cnt 0);
    w ← lift (wrong_choice buf);
    if (w : bool) then puts (litn "Wrong Choice!");; mret 0
    else
      b ← lift (UserLib.load buf 0);
      counter_loop fuel 0 (if b =? 48 then 100 else if b =? 49 then 10000
                           else if b =? 50 then 100000 else 0) buf.

(** ** testfault, and testvidmap, which is the same text *)

Definition testfault (buf : list Z) : prog S Z :=
  puts (litn "Enter the Test Number: (0): Div by 0, (1): Deref NULL, (2): ???");;
  '(cnt, buf) ← ece391_read 0 buf 0 (1000 - 1);
  if cnt =? -1 then puts (litn "Can't read the number from keyboard.");; mret 3
  else
    buf ← lift (UserLib.store buf cnt 0);
    w ← lift (wrong_choice buf);
    if (w : bool) then puts (litn "Wrong Choice!");; mret 0
    else
      b ← lift (UserLib.load buf 0);
      (* '0' divides by zero, '1' writes to the null pointer *)
      if (b =? 48) || (b =? 49) then trap else mret 0.
Definition testvidmap : list Z -> prog S Z := testfault.

(** ** shell *)

Context `{ProcSys S}.

Fixpoint shell_loop (fuel : nat) (buf : list Z) : prog S Z :=
  match fuel with
  | O => stuck
  | Datatypes.S fuel =>
      puts (lit "391OS> ");;
      '(cnt, buf) ← ece391_read 0 buf 0 (BUFSIZE - 1);
      if cnt =? -1 then puts (litn "read from keyboard failed");; mret 3
      else
        nl ← lift (if 0 <? cnt then c ← UserLib.load buf (cnt - 1); Some (c =? 10) else Some false);
        let cnt := if (nl : bool) then cnt - 1 else cnt in
        buf ← lift (UserLib.store buf cnt 0);
        e ← lift (UserLib.strcmp buf (lit "exit") 0 0);
        if e =? 0 then mret 0
        else
          b ← lift (UserLib.load buf 0);
          if b =? 0 then shell_loop fuel buf
          else
            rval ← ece391_execute buf 0;
            (if rval =? -1 then puts (litn "no such command")
             else if rval =? 256 then puts (litn "program terminated by exception")
             else if negb (rval =? 0) then puts (litn "program terminated abnormally")
             else mret tt);;
            shell_loop fuel buf
  end.
Definition shell (fuel : nat) (buf : list Z) : prog S Z :=
  puts (litn "Starting 391 Shell");; shell_loop fuel buf.

End programs.

(** With enough fuel, [p] ends with [a] in [s']. *)
Definition ends {S A} (p : nat -> prog S A) (s : S) (a : A) (s' : S) : Prop :=
  exists n, forall fuel, (n <= fuel)%nat -> p fuel s = Done a s'.

Section proofs.
Context {S : Type} `{Sys S, !FileView S, !FileSys S}.
Implicit Types (s : S) (c out buf nm : list Z).

Lemma cat_loop_spec c fd : 1 < fd -> alen c < 2 ^ 32 -> forall k s buf off out,
  (alen c - off <= Z.of_nat k * 1024) -> 0 <= off <= alen c ->
  off mod 1024 = 0 \/ off = alen c -> alen buf = 1024 -> Forall (fun x => x <> 0) c ->
  is_open s fd c off -> terminal s out ->
  exists s', terminal s' (out ++ drop (Z.to_nat off) c) /\
    forall fuel, (k < fuel)%nat -> cat_loop fuel fd buf s = Done 0 s'.
Proof.
  intros Hfd Hc. induction k as [|k IH]; intros s buf off out Hk Hoff Hal Hb Hct Ho Ht.
  all: destruct (read_spec s fd c off 1024 buf out Ho Ht Hoff ltac:(lia) ltac:(lia)) as (s1 & Hs);
    [destruct Hal; [right; zdiv|right; subst; rewrite Z.sub_diag, Z.min_r by lia; zdiv]|].
  all: cbv zeta in Hs; set (got := take _ _) in Hs; destruct Hs as (Hr & Hg & Ho1 & Ht1 & F1 & _).
  - exists s1. assert (off = alen c) by lia. subst off.
    rewrite drop_ge, app_nil_r by (unfold alen; lia). split; [done|].
    intros [|fuel]; [lia|]. intros _. cbn [cat_loop]. rewrite (prog_bind_done _ _ _ _ _ Hr).
    rewrite Hg, Z.sub_diag, Z.min_r by lia. done.
  - destruct (decide (off = alen c)) as [->|Hlt].
    { exists s1. rewrite drop_ge, app_nil_r by (unfold alen; lia). split; [done|].
      intros [|fuel]; [lia|]. intros _. cbn [cat_loop]. rewrite (prog_bind_done _ _ _ _ _ Hr).
      rewrite Hg, Z.sub_diag, Z.min_r by lia. done. }
    destruct (fs_write s1 got out Ht1 ltac:(lia)) as (s2 & Hw & Ht2 & F2 & _);
      [by apply Forall_take, Forall_drop|].
    assert (Hrest : got ++ drop (Z.to_nat (off + alen got)) c = drop (Z.to_nat off) c).
    { rewrite <- (take_drop (Z.to_nat (Z.min 1024 (alen c - off))) (drop (Z.to_nat off) c)).
      f_equal. rewrite drop_drop. f_equal. lia. }
    destruct (IH s2 (got ++ drop (length got) buf) (off + alen got) (out ++ got)) as (s' & Ht' & Hf).
    + lia.
    + lia.
    + rewrite Hg. destruct (Z.min_spec 1024 (alen c - off)) as [[? ->]|[? ->]]; [left; zdiv|right; lia].
    + unfold alen in *. rewrite length_app, length_drop. lia.
    + done.
    + apply F2; [lia|done].
    + done.
    + exists s'. rewrite <- app_assoc, Hrest in Ht'. split; [done|].
      intros [|fuel]; [lia|]. intros Hfu. cbn [cat_loop]. rewrite (prog_bind_done _ _ _ _ _ Hr).
      cbn beta iota. rewrite (proj2 (Z.eqb_neq (alen got) 0)) by lia.
      rewrite (proj2 (Z.eqb_neq (alen got) (-1))) by lia.
      erewrite prog_bind_done; cycle 1.
      { unfold ece391_write. rewrite (lift_bind _ _ _ got) by apply load_bytes_0. exact Hw. }
      rewrite (proj2 (Z.eqb_neq (alen got) (-1))) by lia. apply Hf. lia.
Qed.

(** [getargs] and [open] of the argument. *)
Lemma getargs_spec s a n buf out :
  args s a -> alen a < n -> n < 2 ^ 31 -> n <= alen buf -> terminal s out ->
  exists s', ece391_getargs buf n s = Done (0, a ++ 0 :: drop (Datatypes.S (length a)) buf) s' /\
    terminal s' out /\ frame 1 s s' /\ same_room s s' /\ (forall ns, directory s ns -> directory s' ns).
Proof.
  intros Ha Hn Hn2 Hb Ht. destruct (fs_getargs s a n out Ha Hn Hn2 Ht) as (s' & Hs & Hrest).
  exists s'. split; [|done]. unfold ece391_getargs. rewrite (prog_bind_done _ _ _ _ _ Hs).
  cbn beta iota. erewrite lift_bind; [reflexivity|].
  rewrite store_bytes_0 by (unfold alen in *; rewrite length_app; simpl; lia).
  rewrite <- app_assoc. do 3 f_equal. rewrite length_app. simpl. by rewrite Nat.add_comm.
Qed.

(** [cat] of an existing file writes exactly its bytes and exits with 0. *)
Theorem cat_correct s buf nm c out :
  args s nm -> named s nm c -> terminal s out -> room s 1 -> Forall (fun x => x <> 0) nm ->
  alen nm < 1024 -> alen buf = 1024 -> alen c < 2 ^ 32 -> Forall (fun x => x <> 0) c ->
  exists s', ends (fun fuel => cat fuel buf) s 0 s' /\ terminal s' (out ++ c).
Proof.
  intros Ha Hnm Ht Hroom Hz Hl Hb Hc Hct.
  destruct (getargs_spec s nm 1024 buf out Ha Hl ltac:(lia) ltac:(lia) Ht) as (s1 & E1 & Ht1 & F1 & R1 & _).
  destruct (open_spec s1 [] nm (drop (Datatypes.S (length nm)) buf) c out) as
    (fd & s2 & E2 & Hfd & _ & Ho & Ht2 & _); [done|lia|by apply F1|done|by apply R1|].
  destruct (cat_loop_spec c fd ltac:(lia) Hc (Z.to_nat (alen c)) s2
    (nm ++ 0 :: drop (Datatypes.S (length nm)) buf) 0 out) as (s' & Ht' & Hf).
  - unfold alen. lia.
  - unfold alen. lia.
  - by left.
  - unfold alen in *. rewrite length_app. simpl. rewrite length_drop. lia.
  - done.
  - done.
  - done.
  - exists s'. split; [|done]. exists (Datatypes.S (Z.to_nat (alen c))). intros fuel Hfu.
    unfold cat. rewrite (prog_bind_done _ _ _ _ _ E1). cbn beta iota. cbn [negb Z.eqb].
    rewrite (prog_bind_done _ _ _ _ _ E2). rewrite (proj2 (Z.eqb_neq fd (-1))) by lia.
    apply Hf. lia.
Qed.

(** A directory entry read into a buffer of 33 bytes. *)
Lemma readdir_spec s fd nm ns buf out :
  dir_open s fd (nm :: ns) -> terminal s out -> alen nm < 32 -> alen buf = 33 ->
  exists s' tl, ece391_read fd buf 0 32 s = Done (alen nm, nm ++ 0 :: tl) s' /\
    alen tl = 32 - alen nm /\ dir_open s' fd ns /\ terminal s' out /\ frame fd s s' /\ same_room s s'.
Proof.
  intros Hd Ht Hn Hb. destruct (fs_readdir s fd nm ns 32 out Hd Ht Hn ltac:(lia)) as (s' & Hs & Hrest).
  exists s', (replicate (Z.to_nat (31 - alen nm)) 0 ++ drop 32 buf). split.
  - unfold ece391_read. rewrite (prog_bind_done _ _ _ _ _ Hs). cbn beta iota.
    assert (E : length (nm ++ replicate (Z.to_nat (32 - alen nm)) 0) = 32%nat)
      by (rewrite length_app, length_replicate; unfold alen in *; lia).
    erewrite lift_bind; [reflexivity|].
    rewrite store_bytes_0, E by (unfold alen in *; rewrite E; lia).
    rewrite <- app_assoc.
    by replace (Z.to_nat (32 - alen nm)) with (Datatypes.S (Z.to_nat (31 - alen nm))) by (unfold alen in *; lia).
  - split; [|done]. unfold alen in *. rewrite length_app, length_replicate, length_drop. lia.
Qed.

Lemma ls_loop_spec fd : 1 < fd -> forall ns s buf out,
  Forall (fun nm => 0 < alen nm < 32 /\ Forall (fun x => x <> 0) nm) ns -> alen buf = 33 -> dir_open s fd ns -> terminal s out ->
  exists s', terminal s' (out ++ mjoin ((fun nm => nm ++ NL) <$> ns)) /\
    forall fuel, (length ns < fuel)%nat -> ls_loop fuel fd buf s = Done 0 s'.
Proof.
  intros Hfd. induction ns as [|nm ns IH]; intros s buf out Hn Hb Hd Ht.
  - destruct (fs_readdir_end s fd 32 out Hd Ht) as (s' & Hs & _ & Ht' & _ & _). exists s'.
    rewrite app_nil_r. split; [done|]. intros [|fuel]; simpl; [lia|]. intros _.
    unfold ece391_read. erewrite prog_bind_done; [|rewrite (prog_bind_done _ _ _ _ _ Hs); cbn beta iota;
      erewrite lift_bind; [reflexivity|apply store_bytes_0; unfold alen; simpl; lia]]. done.
  - apply Forall_cons in Hn as [[Hn1 Hnz] Hn].
    destruct (readdir_spec s fd nm ns buf out Hd Ht ltac:(lia) Hb) as (s1 & tl & Hs & Htl & Hd1 & Ht1 & F1 & _).
    destruct (fs_write s1 (nm ++ NL) out Ht1) as (s2 & Hw & Ht2 & F2 & _).
    { unfold alen, NL in *. rewrite length_app. simpl. lia. }
    { apply Forall_app. split; [done|]. by repeat constructor. }
    destruct (IH s2 (nm ++ 10 :: tl) (out ++ nm ++ NL) Hn) as (s' & Ht' & Hf).
    + unfold alen in *. rewrite length_app. simpl. lia.
    + apply F2; [lia|done].
    + done.
    + exists s'. cbn [fmap list_fmap mjoin list_join]. rewrite app_assoc. split; [done|].
      intros [|fuel]; [simpl; lia|]. intros Hfu. cbn [ls_loop].
      change (SBUFSIZE - 1) with 32. rewrite (prog_bind_done _ _ _ _ _ Hs). cbn beta iota.
      rewrite (proj2 (Z.eqb_neq (alen nm) 0)), (proj2 (Z.eqb_neq (alen nm) (-1))) by lia.
      rewrite (lift_bind _ _ _ (nm ++ 10 :: tl)) by apply UserLib.store_middle.
      erewrite prog_bind_done; cycle 1.
      { unfold ece391_write. rewrite (lift_bind _ _ _ (nm ++ NL)).
        - replace (alen nm + 1) with (alen (nm ++ NL)); [exact Hw|].
          unfold alen, NL. rewrite length_app. simpl. lia.
        - replace (alen nm + 1) with (alen (nm ++ NL)) by (unfold alen, NL; rewrite length_app; simpl; lia).
          replace (nm ++ 10 :: tl) with ((nm ++ NL) ++ tl) by by rewrite <- app_assoc.
          apply load_bytes_0. }
      rewrite (proj2 (Z.eqb_neq _ (-1))) by (unfold alen; lia). apply Hf. simpl in Hfu. lia.
Qed.

(** [ls] prints every name of the directory, one a line, and exits with 0. *)
Theorem ls_correct s buf ns out :
  directory s ns -> terminal s out -> room s 1 ->
  Forall (fun nm => 0 < alen nm < 32 /\ Forall (fun x => x <> 0) nm) ns -> alen buf = 33 ->
  exists s', ends (fun fuel => ls fuel buf) s 0 s' /\
    terminal s' (out ++ mjoin ((fun nm => nm ++ NL) <$> ns)).
Proof.
  intros Hd Ht Hr Hn Hb. destruct (fs_opendir s ns out Hd Ht Hr) as (fd & s1 & E1 & Hfd & _ & Ho & Ht1 & _).
  destruct (ls_loop_spec fd ltac:(lia) ns s1 buf out Hn Hb Ho Ht1) as (s' & Ht' & Hf).
  exists s'. split; [|done]. exists (Datatypes.S (length ns)). intros fuel Hfu. unfold ls.
  erewrite prog_bind_done; [|exact E1].
  rewrite (proj2 (Z.eqb_neq fd (-1))) by lia. apply Hf. lia.
Qed.
End proofs.

(** On the kernel, with the two-entry image. *)
Lemma cat_correct_witness :
  exists k k', Kernel.boot Kernel.demo_fs (Some Kernel.demo_name) [] = Some k /\
    ends (fun fuel => cat fuel (replicate 1024 0)) k 0 k' /\ terminal k' Kernel.demo_text.
Proof.
  destruct (Kernel.boot_spec Kernel.demo_fs (Some Kernel.demo_name) []) as (k & E & Ht & Hk & Ha & Hr).
  destruct (cat_correct k (replicate 1024 0) Kernel.demo_name Kernel.demo_text []) as (k' & Hc & Ht').
  - split; [by repeat constructor|]. split; [reflexivity|]. left. exact Ha.
  - by apply Kernel.demo_named.
  - exact Ht.
  - eapply fs_room; [exact Hr|lia].
  - by repeat constructor.
  - reflexivity.
  - reflexivity.
  - reflexivity.
  - by repeat constructor.
  - exists k, k'. split; [exact E|]. split; [exact Hc|exact Ht'].
Defined.

Lemma ls_correct_witness :
  exists k k', Kernel.boot Kernel.demo_fs None [] = Some k /\
    ends (fun fuel => ls fuel (replicate 33 0)) k 0 k' /\ terminal k' [46; 10; 97; 98; 10].
Proof.
  destruct (Kernel.boot_spec Kernel.demo_fs None []) as (k & E & Ht & Hk & Ha & Hr).
  destruct (ls_correct k (replicate 33 0) [[46]; Kernel.demo_name] []) as (k' & Hc & Ht').
  - by apply Kernel.demo_directory.
  - exact Ht.
  - eapply fs_room; [exact Hr|lia].
  - repeat constructor; done.
  - reflexivity.
  - exists k, k'. split; [exact E|]. split; [exact Hc|exact Ht'].
Defined.
End UserProgs.
