(* ===== verification/SysErr.v ===== *)
(** * The tests of the system calls' errors (syscalls/ece391syserr.c)

    The program passes arguments that the calls must refuse, counts what they answer and
    prints a verdict for each test. It is run here on the system of SysCall.v. *)
From stdpp Require Import prelude list numbers strings.
From Stdlib Require Import ZArith Lia.
From S2P Require Import Prelude BitSet LPHash KissFS PrefixTree Terminal FileDesc UserLib Sys UserProgs Kernel Vidmap SysCall.

Module SysErr.
Import UserProgs.

Definition NEG_FD : Z := -1073741823.
Definition BIG_FD : Z := 1073741823.
Definition BIG_NUM : Z := 1073741823.
Definition NEG_NUM : Z := -1073741823.

Section program.
Context {S : Type} `{Sys S}.
(** [ece391_vidmap], and [int $0x80] with a number and whatever is in the registers. *)
Variable ece391_vidmap : Z -> prog S Z.
Variable call_sys : Z -> prog S Z.
(** The uninitialised buffer of a test, 32 bytes. *)
Variable uninit : list Z.

(** [if (-1 != r) { fail = 2; ece391_fdputs(1, msg); }] *)
Definition expect (r : Z) (msg : list Z) (fail : Z) : prog S Z :=
  if negb (r =? -1) then puts msg;; mret 2 else mret fail.
(** [if (fail) ... FAIL ... else ... PASS ...; return fail;] *)
Definition verdict (fail : Z) (no yes : list Z) : prog S Z :=
  (if negb (fail =? 0) then puts no else puts yes);; mret fail.
(** [for (i = lo; i < lo + n; i++)] over a loop variable. *)
Fixpoint each {A} (n : nat) (i : Z) (f : Z -> A -> prog S A) (acc : A) : prog S A :=
  match n with
  | O => mret acc
  | Datatypes.S n => acc ← f i acc; each n (i + 1) f acc
  end.

Definition err_neg_fd : prog S Z :=
  '(r, buf) ← ece391_read NEG_FD uninit 0 31;
  fail ← expect r (litn "read fail") 0;
  r ← ece391_write NEG_FD buf 0 31;
  fail ← expect r (litn "write fail") fail;
  r ← sys_close NEG_FD;
  fail ← expect r (litn "close fail") fail;
  verdict fail (litn "err_neg_fd: FAIL") (litn "err_neg_fd: PASS").

Definition err_big_fd : prog S Z :=
  '(r, buf) ← ece391_read BIG_FD uninit 0 31;
  fail ← expect r (litn "read fail") 0;
  r ← ece391_write BIG_FD buf 0 31;
  fail ← expect r (litn "write fail") fail;
  r ← sys_close BIG_FD;
  fail ← expect r (litn "close fail") fail;
  verdict fail (litn "err_big_fd: FAIL") (litn "err_big_fd: PASS").

Definition err_open_lots : prog S Z :=
  cnt ← each 7 0 (fun _ cnt =>
    r ← ece391_open (lit ".") 0;
    mret (if -1 =? r then cnt + 1 else cnt)) 0;
  each 6 2 (fun i acc => sys_close i;; mret acc) 0;;
  if cnt =? 1 then puts (litn "err_open_lots: PASS");; mret 0
  else puts (litn "err_open_lots: FAIL");; mret 2.

Definition err_open : prog S Z :=
  r ← ece391_open (lit "helloo") 0;
  fail ← expect r (litn "'helloo' fail") 0;
  r ← ece391_open (lit "shel") 0;
  fail ← expect r (litn "'shel' fail") fail;
  r ← ece391_open (lit "") 0;
  fail ← expect r (litn "empty string fail") fail;
  verdict fail (litn "err_open: FAIL") (litn "err_open: PASS").

Definition err_unopened : prog S Z :=
  fail ← each 8 0 (fun i fail => r ← sys_close i; expect r (litn "close unopened or invalid fd fail") fail) 0;
  '(fail, buf) ← each 6 2 (fun i '(fail, buf) =>
    '(r, buf) ← ece391_read i buf 0 31; fail ← expect r (litn "read from unopened fd fail") fail; mret (fail, buf)) (fail, uninit);
  fail ← each 6 2 (fun i fail => r ← ece391_write i buf 0 31; expect r (litn "write to unopened fd fail") fail) fail;
  verdict fail (litn "err_unopened: FAIL") (litn "err_unopened: PASS").

Definition err_vidmap : prog S Z :=
  r ← ece391_vidmap 0;
  fail ← expect r (litn "Null pointer fail") 0;
  r ← ece391_vidmap 0x400000;
  fail ← expect r (litn "Kernel pointer fail fail") fail;
  verdict fail (litn "err_vidmap: FAIL") (litn "err_vidmap: PASS").

Definition err_stdin_out : prog S Z :=
  r ← ece391_write 0 uninit 0 31;
  fail ← expect r (litn "write to stdin fail") 0;
  '(r, _) ← ece391_read 1 uninit 0 31;
  fail ← expect r (litn "read from stdout fail") fail;
  verdict fail (litn "err_stdin_out: FAIL") (litn "err_stdin_out: PASS").

Definition err_syscall_num : prog S Z :=
  r ← call_sys BIG_NUM;
  fail ← expect r (litn "syscall 0 fail") 0;
  r ← call_sys NEG_NUM;
  fail ← expect r (litn "big num syscall fail") fail;
  r ← call_sys 0;
  fail ← expect r (litn "neg num syscall fail") fail;
  verdict fail (litn "err_syscall_num: FAIL") (litn "err_syscall_num: PASS").

(** The [switch] of [main]. *)
Definition tests (select : Z) : prog S Z :=
  match select with
  | 0 =>
      r1 ← err_neg_fd; r2 ← err_big_fd; r3 ← err_open_lots; r4 ← err_open; r5 ← err_unopened;
      r6 ← err_vidmap; r7 ← err_stdin_out; r8 ← err_syscall_num;
      let fail := r1 + r2 + r3 + r4 + r5 + r6 + r7 + r8 in
      (if negb (fail =? 0) then puts (NL ++ litn "Overall Tests: FAIL") else puts (NL ++ litn "Overall Tests: PASS"));;
      mret fail
  | 1 => err_neg_fd
  | 2 => err_big_fd
  | 3 => err_open_lots
  | 4 => err_open
  | 5 => err_unopened
  | 6 => err_vidmap
  | 7 => err_stdin_out
  | 8 => err_syscall_num
  | _ => puts (lit "Invalid test number. Choose from tests 1-8 or 0");; mret 0
  end.

(** [buf] is the uninitialised buffer of 128 bytes. *)
Definition main (buf : list Z) : prog S Z :=
  puts (lit "Choose from tests 1-8. 0 to run all: ");;
  '(cnt, buf) ← ece391_read 0 buf 0 127;
  if cnt =? -1 then puts (litn "Can't read test #");; mret 2
  else c ← lift (anth buf 0); tests (c - 48).
End program.

(** ** On the system *)

Section run.
Variable table_addr : Z.
Variable other_table : Z -> Z -> Z.
Variable h : SysCall.others.
(** The registers at a call that does not use them. *)
Variables r1 r2 r3 r4 : Z.

Definition as_prog {A} (r : option (A * SysCall.t)) : res SysCall.t A :=
  match r with Some (a, s) => Done a s | None => Stuck end.
Definition int80 := SysCall.systemCallDispatcher table_addr other_table h.

(** The buffers and names of the program are its own, so the file calls are those of the
    kernel; the others go through the gate. *)
#[local] Instance gate_sys : Sys SysCall.t := {|
  sys_read fd n := fun s => as_prog (SysCall.on_files s (Kernel.read fd n (SysCall.files s)));
  sys_write fd bs n := fun s => as_prog (SysCall.on_files s (Kernel.write fd bs n (SysCall.files s)));
  sys_open nm := fun s => as_prog (SysCall.on_files s (Kernel.open nm (SysCall.files s)));
  sys_close fd := fun s => as_prog (SysCall.on_files s (Kernel.close fd (SysCall.files s)));
  sys_getargs n := fun s => as_prog (SysCall.on_files s (Kernel.getargs n (SysCall.files s))) |}.
Definition gate_vidmap (a : Z) : prog SysCall.t Z := fun s => as_prog (int80 8 a r2 r3 r4 s).
Definition gate_call (num : Z) : prog SysCall.t Z := fun s => as_prog (int80 (u32 num) r1 r2 r3 r4 s).

Notation fds s := (Kernel.fileDescs (SysCall.files s)).

(** Names no file has. *)
Definition wrong_names : list (list Z) := [bytes_of "helloo"; bytes_of "shel"; []].

(** The terminal shows [out], [n] descriptors are left, those below [lo] are closed and
    the rest of the first eight is closed or open on the image. *)
Record quiet (lo : Z) (out : list Z) (n : Z) (s : SysCall.t) : Prop := {
  quiet_nested : SysCall.nested s;
  quiet_kernel : SysCall.valid table_addr other_table s 0x400000 = false;
  quiet_term : terminal (SysCall.files s) out;
  quiet_room : room (SysCall.files s) n;
  quiet_in : exists o, FileDescArr.slot (fds s) 0 = Some (Kernel.mk_file o (Kernel.DevData Console.KeyBFOps));
  quiet_closed j : 2 <= j < lo -> FileDescArr.slot (fds s) j = None;
  quiet_rest j : lo <= j < 8 -> FileDescArr.slot (fds s) j = None \/ exists o d, Kernel.holds (SysCall.files s) j o d;
  quiet_wrong nm : nm ∈ wrong_names -> KissFS.open (Kernel.kiss (SysCall.files s)) nm = Some None;
  quiet_dir : exists ns, directory (SysCall.files s) ns }.

(** ** A call that changes at most one descriptor *)

Lemma quiet_others lo lo' out out' n n' s fd k : quiet lo out n s -> Kernel.others fd (SysCall.files s) k -> fd <> 0 ->
  terminal k out' -> room k n' ->
  (forall j, 2 <= j < lo' -> FileDescArr.slot (Kernel.fileDescs k) j = None) ->
  (forall j, lo' <= j < 8 -> FileDescArr.slot (Kernel.fileDescs k) j = None \/ exists o d, Kernel.holds k j o d) ->
  quiet lo' out' n' (SysCall.set_files s k).
Proof.
  intros [Hn Hv _ _ Hi _ _ Hw Hd] [Hk Hs Hf] H0 Ht Hr Hc Hc'. split; try done.
  - cbn. rewrite Hs by lia. exact Hi.
  - cbn. by rewrite Hk.
  - cbn in *. rewrite Hk. exact Hd.
Qed.

(** Of the first eight only [fd] may have changed. *)
Lemma others_rest fd k k' j : Kernel.others fd k k' -> 0 <= j < 128 -> j <> fd ->
  FileDescArr.slot (Kernel.fileDescs k) j = None \/ (exists o d, Kernel.holds k j o d) ->
  FileDescArr.slot (Kernel.fileDescs k') j = None \/ exists o d, Kernel.holds k' j o d.
Proof.
  intros [Hk Hs Hf] Hj Hne [Hc|(o & d & Hr & Hn & He)]; [left; by rewrite Hs|right].
  exists o, d. split; [done|]. split; [by rewrite Hf|by rewrite Hs].
Qed.

Lemma puts_quiet x w out n s : x = w ++ [0] -> Forall (fun c => c <> 0) w -> alen w < 2 ^ 31 -> quiet 8 out n s ->
  exists s', puts x s = Done tt s' /\ quiet 8 (out ++ w) n s'.
Proof.
  intros -> Hw Hl Q. destruct (Kernel.kernel_write _ w out (quiet_term _ _ _ _ Q) Hl Hw) as (k & E & T & O & R).
  exists (SysCall.set_files s k). split.
  - unfold puts, fdputs. rewrite (lift_bind _ _ _ (alen w)) by (apply (strlen_split [] w []); [done|lia]).
    rewrite s32_small by (unfold alen in *; lia). erewrite prog_bind_done; [reflexivity|]. unfold ece391_write.
    rewrite (lift_bind _ _ _ w) by apply (load_bytes_spec [] w [0]).
    cbn [sys_write gate_sys]. apply SysCall.to_res_done in E. rewrite E. reflexivity.
  - eapply quiet_others; [exact Q|exact O|lia|exact T|apply R, Q| |intros j Hj; lia].
    intros j Hj. rewrite (Kernel.oth_slot _ _ _ O) by lia. by apply (quiet_closed _ _ _ _ Q).
Qed.

(** ** Refused calls *)

Definition bad_fd (s : SysCall.t) (fd : Z) : Prop := FileDescArr.isValid (fds s) fd = false.

Lemma bad_far s fd : 128 <= u32 fd -> bad_fd s fd.
Proof. intros Hf. unfold bad_fd, FileDescArr.isValid, FileDescArr.FD_ARRAY_LENGTH. by rewrite (proj2 (Z.leb_le _ _)) by lia. Qed.
Lemma bad_closed s fd : 0 <= fd < 128 -> FileDescArr.slot (fds s) fd = None -> bad_fd s fd.
Proof.
  intros Hf Hs. unfold bad_fd, FileDescArr.isValid. rewrite u32_small by lia. rewrite Hs. destruct (_ <=? fd); [done|]. by destruct (BitSet.test _ _ fd).
Qed.

Lemma with_file_bad {A} lo out n s fd (fail : A) body : quiet lo out n s -> bad_fd s fd ->
  Kernel.with_file (SysCall.files s) fd fail body = Some (fail, SysCall.files s).
Proof.
  intros Q Hb. unfold Kernel.with_file, Kernel.ensureFdInitialized.
  rewrite (Kernel.kinv_init _ (proj1 (quiet_term _ _ _ _ Q))). cbn [mbind option_bind negb]. unfold bad_fd in Hb. by rewrite Hb.
Qed.

Lemma on_files_same {A} s (a : A) : SysCall.on_files s (Some (a, SysCall.files s)) = Some (a, s).
Proof. by destruct s. Qed.

Lemma read_bad lo out n s fd buf : quiet lo out n s -> bad_fd s fd -> ece391_read fd buf 0 31 s = Done (-1, buf) s.
Proof.
  intros Q Hb. unfold ece391_read. rewrite (prog_bind_done _ _ s (-1, []) s).
  - rewrite (lift_bind _ _ _ buf); [reflexivity|]. by rewrite store_bytes_0 by (unfold alen; simpl; lia).
  - cbn [sys_read gate_sys]. unfold Kernel.read. by rewrite (with_file_bad _ _ _ _ _ _ _ Q Hb), on_files_same.
Qed.

Lemma load_31 buf : alen buf = 32 -> exists bs, load_bytes buf 0 31 = Some bs.
Proof. intros Hb. unfold load_bytes. rewrite Hb. by eexists. Qed.

Lemma write_bad lo out n s fd buf : quiet lo out n s -> alen buf = 32 -> bad_fd s fd -> ece391_write fd buf 0 31 s = Done (-1) s.
Proof.
  intros Q Hl Hb. unfold ece391_write. destruct (load_31 buf Hl) as [bs Hbs]. rewrite (lift_bind _ _ _ _ Hbs).
  cbn [sys_write gate_sys]. unfold Kernel.write. by rewrite (with_file_bad _ _ _ _ _ _ _ Q Hb), on_files_same.
Qed.

Lemma close_bad lo out n s fd : quiet lo out n s -> fd = 0 \/ fd = 1 \/ bad_fd s fd -> sys_close fd s = Done (-1) s.
Proof.
  intros Q Hb. cbn [sys_close gate_sys]. unfold Kernel.close. destruct ((fd =? 0) || (fd =? 1)) eqn:E.
  - by rewrite on_files_same.
  - apply orb_false_iff in E as [?%Z.eqb_neq ?%Z.eqb_neq]. destruct Hb as [?|[?|Hb]]; [done|done|].
    by rewrite (with_file_bad _ _ _ _ _ _ _ Q Hb), on_files_same.
Qed.

(** The devices of the first two descriptors refuse the wrong direction. *)
Lemma put_file_same (k : Kernel.K) fd f : FileDescArr.inv (Kernel.fileDescs k) -> 0 <= fd < 128 ->
  FileDescArr.slot (Kernel.fileDescs k) fd = Some f -> Kernel.put_file k fd f = k.
Proof.
  intros I Hfd Hs. unfold Kernel.put_file, Kernel.set_fds, FileDescArr.set_slot. rewrite u32_small by lia.
  unfold FileDescArr.slot, aget, aset in *. rewrite list_insert_id.
  - by destruct k as [[] ? ? ? ? ? ?].
  - rewrite <- Hs. apply list_lookup_lookup_total_lt. pose proof (FileDescArr.inv_content _ I) as Hc.
    unfold alen, FileDescArr.FD_ARRAY_LENGTH in Hc. lia.
Qed.

Lemma set_world_same (k : Kernel.K) : Kernel.set_world k (Kernel.world k) = k.
Proof. by destruct k. Qed.

Lemma write_stdin lo out n s buf : quiet lo out n s -> alen buf = 32 -> ece391_write 0 buf 0 31 s = Done (-1) s.
Proof.
  intros Q Hl. unfold ece391_write. destruct (load_31 buf Hl) as [bs Hbs]. rewrite (lift_bind _ _ _ _ Hbs).
  destruct (quiet_in _ _ _ _ Q) as [o Ho]. destruct (quiet_term _ _ _ _ Q) as [I _].
  assert (E : Kernel.write 0 bs 31 (SysCall.files s) = Some (-1, SysCall.files s)).
  { unfold Kernel.write. rewrite (Kernel.with_file_spec _ 0 _ _ _ I ltac:(lia) (Kernel.free_two _ 0 I ltac:(lia)) Ho).
    unfold Kernel.dispatch_write. cbn [Kernel.data dev_write Console.console_fops Console.write mbind option_bind].
    change (-1 =? -1) with true. cbn iota. rewrite set_world_same. cbn [mbind option_bind]. rewrite put_file_same by (apply I || done || lia). done. }
  cbn [sys_write gate_sys]. by rewrite E, on_files_same.
Qed.

Lemma read_stdout lo out n s buf : quiet lo out n s -> ece391_read 1 buf 0 31 s = Done (-1, buf) s.
Proof.
  intros Q. unfold ece391_read. destruct (quiet_term _ _ _ _ Q) as [I _]. destruct (Kernel.kinv_out _ I) as [o Ho].
  rewrite (prog_bind_done _ _ s (-1, []) s).
  { rewrite (lift_bind _ _ _ buf); [reflexivity|]. by rewrite store_bytes_0 by (unfold alen; simpl; lia). }
  assert (E : Kernel.read 1 31 (SysCall.files s) = Some (-1, [], SysCall.files s)).
  { unfold Kernel.read. rewrite (Kernel.with_file_spec _ 1 _ _ _ I ltac:(lia) (Kernel.free_two _ 1 I ltac:(lia)) Ho).
    unfold Kernel.dispatch_read. cbn [Kernel.data dev_read Console.console_fops Console.read mbind option_bind].
    change (-1 =? -1) with true. cbn iota. cbn [Kernel.offset]. rewrite set_world_same. cbn [mbind option_bind]. rewrite put_file_same by (apply I || done || lia). done. }
  cbn [sys_read gate_sys]. by rewrite E, on_files_same.
Qed.

(** ** Opening and closing *)

Lemma open_wrong x nm out n s : x = nm ++ [0] -> nm ∈ wrong_names -> Kernel.plain_name nm -> alen nm < 2 ^ 32 -> 0 < n ->
  quiet 8 out n s ->
  exists s', ece391_open x 0 s = Done (-1) s' /\ quiet 8 out (n - 1) s'.
Proof.
  intros -> Hin Hp Hl Hpos Q. destruct (quiet_term _ _ _ _ Q) as [I T]. pose proof (quiet_room _ _ _ _ Q) as Hr. cbn in Hr.
  destruct (Kernel.open_missing _ nm I Hp (quiet_wrong _ _ _ _ Q nm Hin) ltac:(lia)) as (k & E & Hn & I' & Hk & Hw & Hs & _).
  exists (SysCall.set_files s k). split.
  - unfold ece391_open. rewrite (lift_bind _ _ _ nm).
    + cbn [sys_open gate_sys]. rewrite E. reflexivity.
    + apply (string_at_spec [] nm []); [|done]. destruct Hp as [Hp _]. eapply List.Forall_impl; [|exact Hp]. simpl. lia.
  - destruct Q as [Qn Qv _ Qr Qi Qc Qx Qw Qd]. split; try done.
    + split; [done|]. cbn. by rewrite Hw.
    + cbn. rewrite Hn. cbn in Qr. lia.
    + cbn. rewrite Hs. exact Qi.
    + intros j Hj. cbn. rewrite Hs. by apply Qc.
    + intros j Hj. lia.
    + cbn. by rewrite Hk.
    + cbn in *. rewrite Hk. exact Qd.
Qed.

Lemma open_dot lo out n s : 2 <= lo <= 8 -> 0 < n -> quiet lo out n s -> 
  exists fd s', ece391_open (lit ".") 0 s = Done fd s' /\ fd <> -1 /\ quiet 2 out (n - 1) s'.
Proof.
  intros Hlo Hpos Q. pose proof Q as [Qn Qv Qt Qr Qi Qc Qx Qw [ns (Hd & _)]].
  destruct (Kernel.kernel_open _ [46] _ out Kernel.dot_plain Hd Qt) as (fd & k & E & Hfd & _ & Hh & Hk & T & O & R);
    [cbn in *; lia|].
  apply SysCall.to_res_done in E. exists fd, (SysCall.set_files s k). split; [|split; [lia|]].
  - unfold ece391_open. rewrite (lift_bind _ _ _ [46]) by by apply (string_at_spec [] [46] []); [repeat constructor; lia|].
    cbn [sys_open gate_sys]. rewrite E. reflexivity.
  - eapply quiet_others; [exact Q|exact O|lia|exact T|by apply R|intros j Hj; lia|].
    intros j Hj. destruct (decide (j = fd)) as [->|Hne]; [right; by eauto|].
    eapply others_rest; [exact O|lia|done|]. destruct (decide (j < lo)); [left; apply Qc; lia|apply Qx; lia].
Qed.

Lemma close_any i out n s : 2 <= i < 8 -> quiet i out n s ->
  exists r s', sys_close i s = Done r s' /\ quiet (i + 1) out n s'.
Proof.
  intros Hi Q. destruct (quiet_rest _ _ _ _ Q i ltac:(lia)) as [Hc|(o & d & Hh)].
  - exists (-1), s. split; [apply (close_bad _ _ _ _ _ Q); right; right; by apply bad_closed; [lia|]|].
    destruct Q as [Qn Qv Qt Qr Qi Qc Qx Qw Qd]. split; try done.
    + intros j Hj. destruct (decide (j = i)) as [->|]; [done|apply Qc; lia].
    + intros j Hj. apply Qx. lia.
  - destruct (Kernel.kernel_close _ _ _ _ out Hh (quiet_term _ _ _ _ Q)) as (k & E & T & O & R & Hsl).
    apply SysCall.to_res_done in E. exists 0, (SysCall.set_files s k). split; [cbn [sys_close gate_sys]; by rewrite E|].
    eapply quiet_others; [exact Q|exact O|lia|exact T| | |].
    + pose proof (R n (quiet_room _ _ _ _ Q)) as Hn. cbn in *. lia.
    + intros j Hj. destruct (decide (j = i)) as [->|]; [done|].
      rewrite (Kernel.oth_slot _ _ _ O) by lia. apply (quiet_closed _ _ _ _ Q). lia.
    + intros j Hj. eapply others_rest; [exact O|lia|lia|]. apply (quiet_rest _ _ _ _ Q). lia.
Qed.

(** ** The tests *)

(** The lines a test prints. *)
Definition line (x : string) : list Z := bytes_of x ++ NL.
Variable uninit : list Z.
Hypothesis uninit_len : alen uninit = 32.

Lemma expect_refused msg fail s : expect (-1) msg fail s = Done fail s.
Proof. reflexivity. Qed.
Lemma verdict_pass no yes w out n s : yes = w ++ [0] -> Forall (fun c => c <> 0) w -> alen w < 2 ^ 31 -> quiet 8 out n s ->
  exists s', verdict 0 no yes s = Done 0 s' /\ quiet 8 (out ++ w) n s'.
Proof.
  intros E Hw Hl Q. destruct (puts_quiet yes w out n s E Hw Hl Q) as (s' & Ep & Q').
  exists s'. split; [|done]. unfold verdict. cbn [Z.eqb negb]. by rewrite (prog_bind_done _ _ _ _ _ Ep).
Qed.

Local Ltac text := apply (bool_decide_unpack _); vm_compute; exact I.
(** One call with its known result; one check that passes. *)
Local Ltac call H := rewrite (prog_bind_done _ _ _ _ _ H); cbn beta iota.
Local Ltac pass := rewrite (prog_bind_done _ _ _ _ _ (expect_refused _ _ _)).

Lemma neg_fd_passes out n s : quiet 8 out n s ->
  exists s', err_neg_fd uninit s = Done 0 s' /\ quiet 8 (out ++ line "err_neg_fd: PASS") n s'.
Proof using uninit_len.
  intros Q. unfold err_neg_fd. assert (Hb : bad_fd s NEG_FD) by (apply bad_far; vm_compute; congruence).
  call (read_bad _ _ _ _ _ uninit Q Hb). pass. call (write_bad _ _ _ _ _ uninit Q uninit_len Hb). pass.
  call (close_bad _ _ _ _ _ Q (or_intror (or_intror Hb))). pass.
  apply verdict_pass; [reflexivity|text|reflexivity|done].
Qed.

Lemma big_fd_passes out n s : quiet 8 out n s ->
  exists s', err_big_fd uninit s = Done 0 s' /\ quiet 8 (out ++ line "err_big_fd: PASS") n s'.
Proof using uninit_len.
  intros Q. unfold err_big_fd. assert (Hb : bad_fd s BIG_FD) by (apply bad_far; vm_compute; congruence).
  call (read_bad _ _ _ _ _ uninit Q Hb). pass. call (write_bad _ _ _ _ _ uninit Q uninit_len Hb). pass.
  call (close_bad _ _ _ _ _ Q (or_intror (or_intror Hb))). pass.
  apply verdict_pass; [reflexivity|text|reflexivity|done].
Qed.

(** A loop by its invariant. *)
Lemma each_inv {A} (R : Z -> A -> SysCall.t -> Prop) f n : forall i a s,
  R i a s -> (forall j a s, i <= j < i + Z.of_nat n -> R j a s -> exists a' s', f j a s = Done a' s' /\ R (j + 1) a' s') ->
  exists a' s', each n i f a s = Done a' s' /\ R (i + Z.of_nat n) a' s'.
Proof.
  induction n as [|n IH]; intros i a s H Hs; [exists a, s; split; [done|by rewrite Z.add_0_r]|].
  destruct (Hs i a s ltac:(lia) H) as (a1 & s1 & E1 & H1). cbn [each]. rewrite (prog_bind_done _ _ _ _ _ E1).
  destruct (IH (i + 1) a1 s1 H1) as (a2 & s2 & E2 & H2); [intros j a0 s0 Hj; apply Hs; lia|].
  exists a2, s2. split; [done|]. by replace (i + Z.of_nat (Datatypes.S n)) with (i + 1 + Z.of_nat n) by lia.
Qed.

(** The kernel has more than the eight descriptors the test expects. *)
Lemma open_lots_fails out n s : 7 <= n -> quiet 8 out n s ->
  exists s', err_open_lots s = Done 2 s' /\ quiet 8 (out ++ line "err_open_lots: FAIL") (n - 7) s'.
Proof.
  intros Hn Q. unfold err_open_lots.
  destruct (each_inv (fun i cnt s => cnt = 0 /\ exists lo, 2 <= lo <= 8 /\ quiet lo out (n - i) s)
    (fun _ cnt => r ← ece391_open (lit ".") 0; mret (if -1 =? r then cnt + 1 else cnt)) 7 0 0 s)
    as (cnt & s1 & E1 & -> & lo & Hlo & Q1).
  { split; [done|]. exists 8. split; [lia|]. by rewrite Z.sub_0_r. }
  { intros j a s0 Hj (-> & lo & Hlo & Q0). destruct (open_dot lo out (n - j) s0 Hlo ltac:(lia) Q0) as (fd & s' & E & Hfd & Q').
    exists 0, s'. rewrite (prog_bind_done _ _ _ _ _ E). rewrite (proj2 (Z.eqb_neq (-1) fd)) by lia.
    split; [done|]. split; [done|]. exists 2. split; [lia|]. by replace (n - (j + 1)) with (n - j - 1) by lia. }
  call E1.
  assert (Q2 : quiet 2 out (n - 7) s1).
  { destruct Q1 as [Qn Qv Qt Qr Qi Qc Qx Qw Qd]. split; try done; [intros j Hj; lia|].
    intros j Hj. destruct (decide (j < lo)); [left; apply Qc; lia|apply Qx; lia]. }
  destruct (each_inv (fun i _ s => quiet i out (n - 7) s) (fun i acc => sys_close i;; mret acc) 6 2 0 s1 Q2)
    as (a & s2 & E2 & Q3).
  { intros j a s0 Hj Q0. destruct (close_any j out (n - 7) s0 ltac:(lia) Q0) as (r & s' & E & Q').
    exists a, s'. by rewrite (prog_bind_done _ _ _ _ _ E). }
  call E2. cbn [Z.eqb].
  destruct (puts_quiet (litn "err_open_lots: FAIL") (line "err_open_lots: FAIL") out (n - 7) s2) as (s3 & E3 & Q4);
    [reflexivity|text|reflexivity|exact Q3|].
  exists s3. split; [by call E3|done].
Qed.

Lemma open_passes out n s : 3 <= n -> quiet 8 out n s ->
  exists s', err_open s = Done 0 s' /\ quiet 8 (out ++ line "err_open: PASS") (n - 3) s'.
Proof.
  intros Hn Q. unfold err_open.
  destruct (open_wrong (lit "helloo") (bytes_of "helloo") out n s) as (s1 & E1 & Q1);
    [done|by left|split_and!; [by repeat constructor|done|done|done|by intros [? [=]]]|done|lia|done|].
  call E1. pass.
  destruct (open_wrong (lit "shel") (bytes_of "shel") out (n - 1) s1) as (s2 & E2 & Q2);
    [done|right; by left|split_and!; [by repeat constructor|done|done|done|by intros [? [=]]]|done|lia|done|].
  call E2. pass.
  destruct (open_wrong (lit "") [] out (n - 1 - 1) s2) as (s3 & E3 & Q3);
    [done|right; right; by left|split_and!; [by constructor|done|done|done|by intros [? [=]]]|done|lia|done|].
  call E3. pass. replace (n - 1 - 1 - 1) with (n - 3) in Q3 by lia.
  apply verdict_pass; [reflexivity|text|reflexivity|done].
Qed.

Lemma unopened_passes out n s : quiet 8 out n s ->
  exists s', err_unopened uninit s = Done 0 s' /\ quiet 8 (out ++ line "err_unopened: PASS") n s'.
Proof using uninit_len.
  intros Q. unfold err_unopened.
  assert (Hb : forall j, 2 <= j < 8 -> bad_fd s j).
  { intros j Hj. apply bad_closed; [lia|]. by apply (quiet_closed _ _ _ _ Q). }
  destruct (each_inv (fun _ fail s' => fail = 0 /\ s' = s)
    (fun i fail => r ← sys_close i; expect r (litn "close unopened or invalid fd fail") fail) 8 0 0 s)
    as (? & ? & E1 & -> & ->); [done| |].
  { intros j ? ? Hj [-> ->]. exists 0, s. assert (H : j = 0 \/ j = 1 \/ bad_fd s j).
    { destruct (decide (j = 0)); [by left|]. destruct (decide (j = 1)); [right; by left|]. right. right. apply Hb. lia. }
    by call (close_bad _ _ _ _ _ Q H). }
  call E1.
  destruct (each_inv (fun _ acc s' => acc = (0, uninit) /\ s' = s)
    (fun i '(fail, buf) => '(r, buf) ← ece391_read i buf 0 31; fail ← expect r (litn "read from unopened fd fail") fail;
       mret (fail, buf)) 6 2 (0, uninit) s)
    as (? & ? & E2 & -> & ->); [done| |].
  { intros j ? ? Hj [-> ->]. exists (0, uninit), s. call (read_bad _ _ _ _ j uninit Q (Hb j ltac:(lia))). by pass. }
  call E2.
  destruct (each_inv (fun _ fail s' => fail = 0 /\ s' = s)
    (fun i fail => r ← ece391_write i uninit 0 31; expect r (litn "write to unopened fd fail") fail) 6 2 0 s)
    as (? & ? & E3 & -> & ->); [done| |].
  { intros j ? ? Hj [-> ->]. exists 0, s. by call (write_bad _ _ _ _ j uninit Q uninit_len (Hb j ltac:(lia))). }
  call E3. apply verdict_pass; [reflexivity|text|reflexivity|done].
Qed.

Lemma vidmap_passes out n s : quiet 8 out n s ->
  exists s', err_vidmap gate_vidmap s = Done 0 s' /\ quiet 8 (out ++ line "err_vidmap: PASS") n s'.
Proof.
  intros Q. unfold err_vidmap.
  assert (E : forall a, SysCall.valid table_addr other_table s a = false -> gate_vidmap a s = Done (-1) s).
  { intros a Ha. unfold gate_vidmap, int80.
    by rewrite (SysCall.bad_pointer_refused _ _ _ 8 a) by (done || apply Q). }
  call (E 0 eq_refl). pass. call (E 0x400000 (quiet_kernel _ _ _ _ Q)). pass.
  apply verdict_pass; [reflexivity|text|reflexivity|done].
Qed.

Lemma stdin_out_passes out n s : quiet 8 out n s ->
  exists s', err_stdin_out uninit s = Done 0 s' /\ quiet 8 (out ++ line "err_stdin_out: PASS") n s'.
Proof using uninit_len.
  intros Q. unfold err_stdin_out. call (write_stdin _ _ _ _ uninit Q uninit_len). pass.
  call (read_stdout _ _ _ _ uninit Q). pass. apply verdict_pass; [reflexivity|text|reflexivity|done].
Qed.

Lemma syscall_num_passes out n s : quiet 8 out n s ->
  exists s', err_syscall_num gate_call s = Done 0 s' /\ quiet 8 (out ++ line "err_syscall_num: PASS") n s'.
Proof.
  intros Q. unfold err_syscall_num.
  assert (E : forall num, u32 num < 1 \/ 15 < u32 num < 0x100 \/ 0x109 < u32 num -> gate_call num s = Done (-1) s).
  { intros num Hnum. unfold gate_call, int80. by rewrite SysCall.unknown_refused by (done || apply Q). }
  call (E BIG_NUM ltac:(vm_compute; tauto)). pass. call (E NEG_NUM ltac:(vm_compute; tauto)). pass.
  call (E 0 ltac:(vm_compute; tauto)). pass. apply verdict_pass; [reflexivity|text|reflexivity|done].
Qed.

(** What all the tests print. *)
Definition report : list Z :=
  line "err_neg_fd: PASS" ++ line "err_big_fd: PASS" ++ line "err_open_lots: FAIL" ++ line "err_open: PASS" ++
  line "err_unopened: PASS" ++ line "err_vidmap: PASS" ++ line "err_stdin_out: PASS" ++ line "err_syscall_num: PASS" ++
  NL ++ line "Overall Tests: FAIL".

(** C23: The test program on the kernel, once the user has asked for all tests: the calls
    refuse everything the tests expect them to refuse, but the tests fail with status 2,
    because [err_open_lots] expects the eighth open file to be one too many and the kernel
    has 128 descriptors. *)
Theorem syserr_all_tests out n s : 10 <= n -> quiet 8 out n s ->
  exists s', tests gate_vidmap gate_call uninit 0 s = Done 2 s' /\ terminal (SysCall.files s') (out ++ report).
Proof using uninit_len.
  intros Hn Q. unfold tests.
  destruct (neg_fd_passes out n s Q) as (s1 & E1 & Q1). call E1.
  destruct (big_fd_passes _ n s1 Q1) as (s2 & E2 & Q2). call E2.
  destruct (open_lots_fails _ n s2 ltac:(lia) Q2) as (s3 & E3 & Q3). call E3.
  destruct (open_passes _ (n - 7) s3 ltac:(lia) Q3) as (s4 & E4 & Q4). call E4.
  destruct (unopened_passes _ _ s4 Q4) as (s5 & E5 & Q5). call E5.
  destruct (vidmap_passes _ _ s5 Q5) as (s6 & E6 & Q6). call E6.
  destruct (stdin_out_passes _ _ s6 Q6) as (s7 & E7 & Q7). call E7.
  destruct (syscall_num_passes _ _ s7 Q7) as (s8 & E8 & Q8). call E8.
  cbn [Z.add Pos.add Z.eqb negb].
  destruct (puts_quiet (NL ++ litn "Overall Tests: FAIL") (NL ++ line "Overall Tests: FAIL") _ _ s8
    eq_refl ltac:(text) eq_refl Q8) as (s9 & E9 & Q9).
  exists s9. split; [by call E9|]. pose proof (quiet_term _ _ _ _ Q9) as T. unfold report. by rewrite <- !app_assoc in T.
Qed.
End run.

Lemma demo_quiet k : Kernel.boot Kernel.demo_fs None [] = Some k ->
  quiet 0x500000 (fun _ _ => 0) 8 [] 126 (SysCall.demo_start k
    (Vidmap.loadProcessMap 0x500000 true Vidmap.demo_map (Some Vidmap.demo_painter) 7 Vidmap.demo_state).2).
Proof.
  intros E. destruct (Kernel.boot_spec Kernel.demo_fs None []) as (k' & E' & T & Hk & _ & Hr).
  assert (k' = k) as -> by congruence.
  assert (Hs : (fun k => (FileDescArr.slot (Kernel.fileDescs k)) <$> seqZ 0 8) <$> Kernel.boot Kernel.demo_fs None [] =
    Some [Some (Kernel.mk_file 0 (Kernel.DevData Console.KeyBFOps)); Some (Kernel.mk_file 0 (Kernel.DevData Console.TermFOps));
          None; None; None; None; None; None]) by (vm_compute; reflexivity).
  rewrite E in Hs. injection Hs as S0 _ S2 S3 S4 S5 S6 S7.
  assert (Hc : forall j, 2 <= j < 8 -> FileDescArr.slot (Kernel.fileDescs k) j = None).
  { intros j Hj. assert (j = 2 \/ j = 3 \/ j = 4 \/ j = 5 \/ j = 6 \/ j = 7) as [->|[->|[->|[->|[->| ->]]]]] by lia; assumption. }
  split.
  - split; vm_compute; congruence.
  - vm_compute. reflexivity.
  - exact T.
  - exact Hr.
  - exists 0. exact S0.
  - exact Hc.
  - intros j Hj. left. apply Hc. lia.
  - intros nm Hnm. cbn. rewrite Hk. repeat (apply elem_of_cons in Hnm as [->|Hnm]; [vm_compute; reflexivity|]).
    exact (False_ind _ (not_elem_of_nil _ Hnm)).
  - exists [[46]; Kernel.demo_name]. apply Kernel.demo_directory, Hk.
Qed.

Lemma syserr_all_tests_witness : exists k s',
  Kernel.boot Kernel.demo_fs None [] = Some k /\
  @tests _ gate_sys (gate_vidmap 0x500000 (fun _ _ => 0) SysCall.demo_others 0 0 0)
    (gate_call 0x500000 (fun _ _ => 0) SysCall.demo_others 0 0 0 0) (replicate 32 0) 0
    (SysCall.demo_start k
      (Vidmap.loadProcessMap 0x500000 true Vidmap.demo_map (Some Vidmap.demo_painter) 7 Vidmap.demo_state).2) = Done 2 s' /\
  terminal (SysCall.files s') report.
Proof.
  destruct (Kernel.boot_spec Kernel.demo_fs None []) as (k & E & _).
  destruct (syserr_all_tests 0x500000 (fun _ _ => 0) SysCall.demo_others 0 0 0 0 (replicate 32 0) eq_refl [] 126 _
    ltac:(lia) (demo_quiet k E)) as (s' & Es & T).
  exists k, s'. split; [exact E|]. split; [exact Es|exact T].
Defined.

(** [main] with [0] and Enter typed: its status, and the first rows of the screen. *)
Example main_asked_for_all :
  (k ← Kernel.boot Kernel.demo_fs None [(48, false); (Terminal.KKC_ENTER, false)];
   match @main _ gate_sys (gate_vidmap 0x500000 (fun _ _ => 0) SysCall.demo_others 0 0 0)
       (gate_call 0x500000 (fun _ _ => 0) SysCall.demo_others 0 0 0 0) (replicate 32 0) (replicate 128 0)
       (SysCall.demo_start k
         (Vidmap.loadProcessMap 0x500000 true Vidmap.demo_map (Some Vidmap.demo_painter) 7 Vidmap.demo_state).2) with
   | Done r s =>
       tm ← Console.currTerm (Kernel.world (SysCall.files s));
       Some (r, (fun i => (fun j => aget (Terminal.videoMem (Terminal.scr tm)) (160 * i + 2 * j)) <$> seqZ 0 38) <$> seqZ 0 4)
   | _ => None
   end) =
  Some (2, [bytes_of "Choose from tests 1-8. 0 to run all: 0"; bytes_of "err_neg_fd: PASS                      ";
            bytes_of "err_big_fd: PASS                      "; bytes_of "err_open_lots: FAIL                   "]).
Proof. vm_compute. reflexivity. Qed.
End SysErr.
