(* ===== verification/Grep.v ===== *)
(** * What grep prints (syscalls/ece391grep.c)

    The lines of a text, and the proof that [do_one_file] prints those that hold
    the pattern, with the refills of its 1024-byte buffer. *)
From stdpp Require Import prelude list numbers strings.
From Stdlib Require Import ZArith Lia.
From S2P Require Import Prelude UserLib Sys Kernel UserProgs.

Module Grep.
Import UserProgs.

(** ** Lines *)

(** The complete lines of a text, and what follows the last new line. *)
Fixpoint scan (text : list Z) : list (list Z) * list Z :=
  match text with
  | [] => ([], [])
  | c :: text =>
      let '(ls, tl) := scan text in
      if c =? 10 then ([] :: ls, tl)
      else match ls with
           | [] => ([], c :: tl)
           | l :: ls => ((c :: l) :: ls, tl)
           end
  end.
Definition all_lines (text : list Z) : list (list Z) := (scan text).1 ++ [(scan text).2].

(** [w] occurs in [line]. *)
Fixpoint occurs (w line : list Z) : bool :=
  bool_decide (take (length w) line = w) ||
  match line with [] => false | _ :: line => occurs w line end.

(** What is printed for one line, and for some. *)
Definition report (fname w line : list Z) : list Z :=
  if occurs w line then fname ++ [58] ++ line ++ [10] else [].
Definition reports (fname w : list Z) (ls : list (list Z)) : list Z :=
  mjoin (report fname w <$> ls).

Lemma occurs_iff w line : occurs w line = true <-> exists a b, line = a ++ w ++ b.
Proof.
  induction line as [|c line IH]; simpl; rewrite orb_true_iff, bool_decide_eq_true.
  - rewrite take_nil. split.
    + intros [<-|]; [by exists [], []|done].
    + intros (a & b & E). symmetry in E. apply app_eq_nil in E as [-> E].
      by apply app_eq_nil in E as [-> _]; left.
  - rewrite IH. split.
    + intros [E|(a & b & ->)]; [|by exists (c :: a), b].
      exists [], (drop (length w) (c :: line)). cbn [app]. rewrite <- E at 1. by rewrite take_drop.
    + intros ([|d a] & b & E); cbn [app] in E.
      * left. rewrite E. by rewrite take_app_length.
      * right. injection E as -> ->. by exists a, b.
Qed.

Lemma occurs_nil w : w <> [] -> occurs w [] = false.
Proof. intros Hw. simpl. rewrite take_nil. rewrite bool_decide_eq_false_2; [done|congruence]. Qed.

Lemma scan_plain l : 10 ∉ l -> scan l = ([], l).
Proof.
  induction l as [|c l IH]; intros Hl; [done|]. apply not_elem_of_cons in Hl as [Hc Hl].
  simpl. rewrite IH by done. by rewrite (proj2 (Z.eqb_neq c 10)) by lia.
Qed.

Lemma scan_app a b :
  scan (a ++ b) = ((scan a).1 ++ (scan ((scan a).2 ++ b)).1, (scan ((scan a).2 ++ b)).2).
Proof.
  induction a as [|c a IH]; [simpl; by destruct (scan b)|]. simpl. rewrite IH.
  destruct (scan a) as [l1 t1]. simpl. destruct (Z.eqb_spec c 10) as [->|Hc]; [done|].
  destruct l1 as [|l l1]; simpl; [|done].
  destruct (scan (t1 ++ b)) as [l2 t2]. simpl.
  rewrite (proj2 (Z.eqb_neq c 10)) by lia. by destruct l2.
Qed.

Lemma scan_line l rest : 10 ∉ l -> scan (l ++ 10 :: rest) = (l :: (scan rest).1, (scan rest).2).
Proof.
  intros Hl. rewrite scan_app, scan_plain by done. cbn [fst snd app].
  induction l as [|c l IH]; simpl; [by destruct (scan rest)|].
  apply not_elem_of_cons in Hl as [Hc Hl]. specialize (IH Hl). injection IH as E1 E2.
  destruct (scan (l ++ 10 :: rest)) as [ls tl]. simpl in *. subst.
  by rewrite (proj2 (Z.eqb_neq c 10)) by lia.
Qed.

Lemma scan_tail a : 10 ∉ (scan a).2.
Proof.
  induction a as [|c a IH]; simpl; [by apply not_elem_of_nil|].
  destruct (scan a) as [ls tl]. simpl in *. destruct (Z.eqb_spec c 10); [done|].
  destruct ls; simpl; [|done]. apply not_elem_of_cons. split; [congruence|done].
Qed.

Lemma all_lines_app a b :
  all_lines (a ++ b) = (scan a).1 ++ all_lines ((scan a).2 ++ b).
Proof. unfold all_lines. rewrite scan_app. cbn [fst snd]. by rewrite app_assoc. Qed.

(** The length of a text, by its lines. *)
Lemma scan_length a :
  (length (scan a).2 <= length a)%nat /\
  ((scan a).1 <> [] -> (length (scan a).2 < length a)%nat) /\
  ((scan a).1 = [] -> (scan a).2 = a).
Proof.
  induction a as [|c a (IH1 & IH2 & IH3)]; simpl; [split_and!; [lia|done|done]|].
  destruct (scan a) as [ls tl]. simpl in *. destruct (Z.eqb_spec c 10); simpl.
  - split_and!; [lia|lia|done].
  - destruct ls; simpl; split_and!; try lia; try done.
    + intros _. by rewrite IH3.
Qed.

(** A text that is not all one line splits at its first new line. *)
Lemma first_line a : 10 ∉ a \/ exists l rest, a = l ++ 10 :: rest /\ 10 ∉ l.
Proof.
  induction a as [|c a IH]; [left; apply not_elem_of_nil|].
  destruct (decide (c = 10)) as [->|Hc].
  - right. exists [], a. split; [done|apply not_elem_of_nil].
  - destruct IH as [Ha|(l & rest & -> & Hl)].
    + left. apply not_elem_of_cons. by split.
    + right. exists (c :: l), rest. split; [done|]. apply not_elem_of_cons. by split.
Qed.

(** ** The loops over the buffer *)

Lemma load_at pre c post i : i = alen pre -> UserLib.load (pre ++ c :: post) i = Some c.
Proof. intros ->. apply UserLib.load_middle. Qed.

(** The end of the line at [pre], in a buffer that holds [last] bytes. *)
Lemma line_end_spec l : forall fuel pre x post last,
  10 ∉ l -> (length l < fuel)%nat ->
  (x = 10 /\ alen pre + alen l < last) \/ last = alen pre + alen l ->
  line_end_loop fuel (pre ++ l ++ x :: post) last (alen pre) = Some (alen pre + alen l).
Proof.
  induction l as [|c l IH]; intros [|fuel] pre x post last Hl Hf Hx; simpl in Hf; try lia; cbn [line_end_loop].
  - change (alen (@nil Z)) with 0 in *. rewrite Z.add_0_r in *. cbn [app].
    destruct Hx as [[-> Hx]| ->]; [|by rewrite Z.ltb_irrefl].
    rewrite (proj2 (Z.ltb_lt _ _)) by lia. rewrite UserLib.load_middle. done.
  - apply not_elem_of_cons in Hl as [Hc Hl].
    assert (E : alen (c :: l) = alen l + 1) by (unfold alen; simpl; lia). rewrite E in *.
    rewrite (proj2 (Z.ltb_lt _ _)) by (unfold alen in *; lia).
    cbn [app]. rewrite UserLib.load_middle. cbn [mbind option_bind].
    rewrite (proj2 (Z.eqb_neq c 10)) by lia. cbn [negb].
    assert (Ep : alen pre + 1 = alen (pre ++ [c])) by (unfold alen; rewrite length_app; simpl; lia).
    replace (pre ++ c :: l ++ x :: post) with ((pre ++ [c]) ++ l ++ x :: post) by by rewrite <- app_assoc.
    rewrite Ep, IH; [f_equal; lia|done|lia|]. rewrite <- Ep. destruct Hx as [[? ?]|?]; [left; split; [done|lia]|right; lia].
Qed.

(** The search of the line at [pre] finds the pattern exactly when it occurs. *)
Lemma check_spec w0 w l : forall fuel sbuf st pre post,
  sbuf = (w0 :: w) ++ 0 :: st -> Forall (fun c => c <> 0) (w0 :: w) -> 0 < w0 < 128 ->
  alen (w0 :: w) < 2 ^ 31 -> Forall (fun c => 0 < c < 256) l -> (length l < fuel)%nat ->
  check_loop fuel sbuf (pre ++ l ++ 0 :: post) (alen (w0 :: w)) (alen pre + alen l) (alen pre)
    = Some (occurs (w0 :: w) l).
Proof.
  induction l as [|c l IH]; intros [|fuel] sbuf st pre post Hs Hw Hw0 Hwl Hl Hf; simpl in Hf; try lia;
    cbn [check_loop].
  - change (alen (@nil Z)) with 0. rewrite Z.add_0_r, Z.ltb_irrefl. by rewrite occurs_nil.
  - apply Forall_cons in Hl as [Hc Hl].
    assert (E : alen (c :: l) = alen l + 1) by (unfold alen; simpl; lia).
    assert (Hnext : check_loop fuel sbuf (pre ++ (c :: l) ++ 0 :: post) (alen (w0 :: w))
      (alen pre + alen (c :: l)) (alen pre + 1) = Some (occurs (w0 :: w) l)).
    { assert (Ep : alen pre + 1 = alen (pre ++ [c])) by (unfold alen; rewrite length_app; simpl; lia).
      replace (pre ++ (c :: l) ++ 0 :: post) with ((pre ++ [c]) ++ l ++ 0 :: post) by by rewrite <- app_assoc.
      rewrite E, Ep. replace (alen pre + (alen l + 1)) with (alen (pre ++ [c]) + alen l) by lia.
      apply (IH fuel sbuf st); [done..|lia]. }
    rewrite (proj2 (Z.ltb_lt _ _)) by (unfold alen in *; lia).
    assert (Hs0 : UserLib.load sbuf 0 = Some w0) by by rewrite Hs.
    rewrite Hs0. cbn [mbind option_bind app].
    assert (Hcs : UserLib.cstr (pre ++ (c :: l) ++ 0 :: post) (alen pre) (c :: l)).
    { apply cstr_split. constructor; [lia|]. eapply List.Forall_impl; [|exact Hl]. simpl. lia. }
    cbn [app] in Hcs, Hnext. rewrite (load_at pre c (l ++ 0 :: post)) by done. cbn [mbind option_bind].
    unfold schar. rewrite (proj2 (Z.ltb_lt w0 128)) by lia.
    cbn [occurs]. destruct (Z.eqb_spec w0 c) as [Ec|Ec].
    + assert (Hss : UserLib.cstr sbuf 0 (w0 :: w)) by (rewrite Hs; by apply (cstr_split [])).
      rewrite u32_small by (unfold alen in *; lia).
      destruct (UserLib.strncmp_eq_iff _ _ _ _ _ _ (alen (w0 :: w)) Hcs Hss) as (d & Hd & Hiff);
        [unfold alen in *; lia|].
      rewrite Hd. cbn [mbind option_bind]. unfold alen in Hiff. rewrite Nat2Z.id in Hiff.
      rewrite (take_ge (w0 :: w)) in Hiff by done.
      destruct (Z.eqb_spec d 0) as [->|Hd0].
      * rewrite bool_decide_eq_true_2 by by apply Hiff. done.
      * rewrite bool_decide_eq_false_2 by (intros Hx; by apply Hd0, Hiff). exact Hnext.
    + rewrite bool_decide_eq_false_2; [exact Hnext|]. cbn [length take]. congruence.
Qed.

Lemma all_lines_line l rest : 10 ∉ l -> all_lines (l ++ 10 :: rest) = l :: all_lines rest.
Proof. intros Hl. unfold all_lines. by rewrite scan_line. Qed.
Lemma all_lines_plain l : 10 ∉ l -> all_lines l = [l].
Proof. intros Hl. unfold all_lines. by rewrite scan_plain. Qed.

Lemma reports_cons nm w l ls : reports nm w (l :: ls) = report nm w l ++ reports nm w ls.
Proof. done. Qed.
Lemma reports_app nm w ls1 ls2 : reports nm w (ls1 ++ ls2) = reports nm w ls1 ++ reports nm w ls2.
Proof. unfold reports. rewrite fmap_app. apply join_app. Qed.

(** Bytes of a file: no NUL. *)
Notation text_ok := (Forall (fun c => 0 < c < 256)).

Lemma text_nonzero l : text_ok l -> Forall (fun c => c <> 0) l.
Proof. apply List.Forall_impl. lia. Qed.

Section grep.
Context {S : Type} `{Sys S, !FileView S, !FileSys S}.
(** The pattern, the file's name, and the objects that hold them. *)
Variables (w0 : Z) (w st nm ft : list Z).
Hypotheses (Hw : Forall (fun c => c <> 0) (w0 :: w)) (Hw0 : 0 < w0 < 128)
  (Hwl : alen (w0 :: w) < 2 ^ 31) (Hnm : Forall (fun c => c <> 0) nm) (Hnl : alen nm < 2 ^ 31).
Let W := w0 :: w.
Let sbuf := W ++ 0 :: st.
Let fname := nm ++ 0 :: ft.

(** The output for one line. *)
Lemma print_spec s out pre l post :
  terminal s out -> text_ok l -> alen l < 2 ^ 31 ->
  exists s', (if occurs W l
     then fdputs 1 fname 0;; puts (lit ":");; fdputs 1 (pre ++ l ++ 0 :: post) (alen pre);; puts (litn "")
     else mret tt) s = Done tt s' /\ terminal s' (out ++ report nm W l) /\ calm s s'.
Proof using Hnm Hnl FileSys0.
  intros Ht Hl Hll. unfold report. destruct (occurs W l).
  - destruct (fdputs_spec s [] nm ft out Hnm Hnl Ht) as (s1 & E1 & T1 & F1).
    destruct (puts_lit_spec s1 (lit ":") [58] _ eq_refl ltac:(repeat constructor; lia) ltac:(done) T1)
      as (s2 & E2 & T2 & F2).
    destruct (fdputs_spec s2 pre l post _ (text_nonzero _ Hl) Hll T2) as (s3 & E3 & T3 & F3).
    destruct (puts_lit_spec s3 (litn "") [10] _ eq_refl ltac:(repeat constructor; lia) ltac:(done) T3)
      as (s4 & E4 & T4 & F4).
    exists s4. split.
    + erewrite prog_bind_done by exact E1. erewrite prog_bind_done by exact E2.
      erewrite prog_bind_done by exact E3. exact E4.
    + split; [by rewrite <- !app_assoc in T4|].
      eapply calm_trans; [exact F1|]. eapply calm_trans; [exact F2|]. by eapply calm_trans.
  - exists s. rewrite app_nil_r. split; [done|]. split; [done|apply calm_refl].
Qed.

(** [data'] is [data] up to zeros from [k] on. *)
Definition keeps (k : nat) (data data' : list Z) : Prop :=
  length data' = length data /\
  forall i, (k <= i < length data)%nat -> data' !! i = data !! i \/ data' !! i = Some 0.

Lemma keeps_zero pre x post : keeps (length pre) (pre ++ x :: post) (pre ++ 0 :: post).
Proof.
  split; [by rewrite !length_app|]. intros i Hi. rewrite !lookup_app_r by lia.
  destruct (i - length pre)%nat; [by right|by left].
Qed.
Lemma keeps_trans k1 k2 d1 d2 d3 : keeps k1 d1 d2 -> keeps k2 d2 d3 -> (k1 <= k2)%nat -> keeps k2 d1 d3.
Proof.
  intros [L1 K1] [L2 K2] Hk. split; [congruence|]. intros i Hi.
  destruct (K2 i ltac:(lia)) as [->|]; [|by right]. apply K1. lia.
Qed.

(** What [lines_loop] leaves of the [text] that the buffer [data] holds from [pre] on: all
    its lines are searched, or the last one, which is not complete, is moved to the front. *)
Definition searched (cnt : Z) (pre text : list Z) (x : Z) (data data' : list Z) (last' : Z) (out : list Z) (s s' : S) : Prop :=
  keeps (length pre + length text) data data' /\ calm s s' /\
  ((last' = 0 /\ terminal s' (out ++ reports nm W (all_lines text)) /\
    ((scan text).2 = [] \/ cnt = 0 \/ x = 10 \/ (pre = [] /\ (scan text).1 = []))) \/
   (cnt <> 0 /\ last' = alen (scan text).2 /\ (exists rest, data' = (scan text).2 ++ 0 :: rest) /\
    terminal s' (out ++ reports nm W (scan text).1) /\ (pre <> [] \/ (scan text).1 <> []))).

(** The start of a turn: the end of the line is found, and what is there. *)
Lemma line_found {A} (f : Z -> Z -> prog S A) pre l x post last s :
  10 ∉ l -> (x = 10 /\ alen pre + alen l < last) \/ last = alen pre + alen l ->
  (line_end ← lift (line_end_loop (Datatypes.S (length (pre ++ l ++ x :: post))) (pre ++ l ++ x :: post) last (alen pre));
   c ← lift (UserLib.load (pre ++ l ++ x :: post) line_end); f line_end c) s = f (alen (pre ++ l)) x s.
Proof using.
  intros Hno Hl. rewrite (lift_bind _ _ _ (alen (pre ++ l))).
  - rewrite (lift_bind _ _ _ x) by (rewrite app_assoc; apply UserLib.load_middle). done.
  - rewrite alen_app. apply line_end_spec; [done|rewrite !length_app; lia|done].
Qed.

Lemma end_line pre l x post : UserLib.store (pre ++ l ++ x :: post) (alen (pre ++ l)) 0 = Some (pre ++ l ++ 0 :: post).
Proof using. rewrite !app_assoc. apply UserLib.store_middle. Qed.

Lemma end_keeps pre l x post : keeps (length pre + length l) (pre ++ l ++ x :: post) (pre ++ l ++ 0 :: post).
Proof using. rewrite <- length_app, !app_assoc. apply keeps_zero. Qed.

(** The search of the line, and what is printed. *)
Lemma line_searched {A} (f : prog S A) pre l post s out : text_ok l -> alen l < 2 ^ 31 -> 10 ∉ l -> terminal s out ->
  exists s', (hit ← lift (check_loop (Datatypes.S (length (pre ++ l ++ 0 :: post))) sbuf (pre ++ l ++ 0 :: post)
        (alen W) (alen (pre ++ l)) (alen pre));
      (if (hit : bool) then
         fdputs 1 fname 0;; puts (lit ":");; fdputs 1 (pre ++ l ++ 0 :: post) (alen pre);; puts (litn "")
       else mret tt);; f) s = f s' /\ terminal s' (out ++ report nm W l) /\ calm s s'.
Proof using Hw Hw0 Hwl Hnm Hnl FileSys0.
  intros Hok Hl Hno Ht.
  assert (Hck : check_loop (Datatypes.S (length (pre ++ l ++ 0 :: post))) sbuf (pre ++ l ++ 0 :: post)
    (alen W) (alen (pre ++ l)) (alen pre) = Some (occurs W l)).
  { rewrite alen_app. eapply (check_spec w0 w l); [done..|]. rewrite !length_app. lia. }
  rewrite (lift_bind _ _ _ _ Hck). destruct (print_spec s out pre l post Ht Hok Hl) as (s1 & E1 & T1 & F1).
  exists s1. split; [|done]. by erewrite prog_bind_done by exact E1.
Qed.

(** The last line is copied to the front of the buffer. *)
Lemma line_moved pre text post x : pre <> [] -> text_ok text ->
  exists rest, UserLib.strcpy (pre ++ text ++ 0 :: post) 0 (alen pre) = Some (text ++ 0 :: rest) /\
    keeps (length pre + length text) (pre ++ text ++ x :: post) (text ++ 0 :: rest).
Proof using.
  intros Hp Htxt. assert (length pre <> 0)%nat by (destruct pre; simpl; congruence).
  exists (drop (Z.to_nat (0 + alen text + 1)) (pre ++ text ++ 0 :: post)). split.
  - rewrite (UserLib.strcpy_spec _ _ _ text); [done|by apply cstr_split, text_nonzero|lia| |].
    + unfold alen. rewrite !length_app. simpl. lia.
    + left. unfold alen. lia.
  - eapply (keeps_trans _ (length pre + length text)); [apply end_keeps| |lia]. split.
    + rewrite !length_app. simpl. rewrite length_drop, !length_app. simpl. unfold alen. lia.
    + intros i Hi. left. rewrite (lookup_app_r text) by lia.
      replace (i - length text)%nat with (Datatypes.S (i - length text - 1)) by lia.
      rewrite lookup_cons, lookup_drop. f_equal. unfold alen. lia.
Qed.

(** The turn of the last line. *)
Lemma last_line_turn fuel text pre x post s out cnt last :
  last = alen pre + alen text -> 10 ∉ text -> text_ok text -> alen text < 2 ^ 31 -> terminal s out ->
  exists data' last' s', lines_loop (Datatypes.S fuel) sbuf fname (alen W) cnt last (pre ++ text ++ x :: post) (alen pre) s
      = Done (data', last') s' /\
    searched cnt pre text x (pre ++ text ++ x :: post) data' last' out s s'.
Proof using Hw Hw0 Hwl Hnm Hnl FileSys0.
  intros Hlast Hno Htxt Hlen Ht. cbn [lines_loop]. rewrite line_found by (done || by right).
  unfold searched. rewrite all_lines_plain, scan_plain by done. cbn [fst snd].
  destruct (negb (x =? 10) && negb (cnt =? 0) && negb (alen pre =? 0)) eqn:Eg.
  - apply andb_true_iff in Eg as [[Ex Ec]%andb_true_iff Ep]. apply negb_true_iff, Z.eqb_neq in Ex, Ec, Ep.
    assert (Hp : pre <> []) by (intros ->; done). destruct (line_moved pre text post x Hp Htxt) as (rest & Em & K).
    rewrite (lift_bind _ _ _ _ (end_line _ _ _ _)), (lift_bind _ _ _ _ Em).
    eexists _, _, s. split; [reflexivity|]. split; [exact K|]. split; [apply calm_refl|].
    right. split; [done|]. split; [lia|]. split; [by eexists|]. rewrite app_nil_r. split; [done|by left].
  - rewrite (lift_bind _ _ _ _ (end_line _ _ _ _)).
    destruct (line_searched (let line_start := alen (pre ++ text) + 1 in
        if last <=? line_start then mret (pre ++ text ++ 0 :: post, 0)
        else lines_loop fuel sbuf fname (alen W) cnt last (pre ++ text ++ 0 :: post) line_start)
      pre text post s out) as (s1 & E & T1 & F1); [done..|].
    eexists _, _, s1. split; [refine (eq_trans E _); cbv zeta; rewrite alen_app, (proj2 (Z.leb_le _ _)) by lia; reflexivity|]. split; [apply end_keeps|]. split; [done|]. left.
    unfold reports. cbn [fmap list_fmap mjoin list_join]. rewrite app_nil_r. split; [done|]. split; [done|]. right.
    destruct (Z.eqb_spec cnt 0); [by left|]. destruct (Z.eqb_spec x 10); [by right; left|].
    destruct (Z.eqb_spec (alen pre) 0); [|done]. right. right. split; [|done].
    destruct pre; [done|]. unfold alen in *. simpl in *. lia.
Qed.

(** The turn of a complete line. *)
Lemma whole_line_turn fuel l tail pre s out cnt last :
  alen pre + alen l < last -> 10 ∉ l -> text_ok l -> alen l < 2 ^ 31 -> terminal s out ->
  exists s', lines_loop (Datatypes.S fuel) sbuf fname (alen W) cnt last (pre ++ l ++ 10 :: tail) (alen pre) s
      = (if last <=? alen (pre ++ l) + 1 then mret (pre ++ l ++ 0 :: tail, 0)
         else lines_loop fuel sbuf fname (alen W) cnt last (pre ++ l ++ 0 :: tail) (alen (pre ++ l) + 1)) s' /\
    terminal s' (out ++ report nm W l) /\ calm s s'.
Proof using Hw Hw0 Hwl Hnm Hnl FileSys0.
  intros Hlast Hno Hok Hlen Ht. cbn [lines_loop]. rewrite line_found by (done || by left).
  cbn [Z.eqb Pos.eqb negb andb]. rewrite (lift_bind _ _ _ _ (end_line _ _ _ _)).
  destruct (line_searched (let line_start := alen (pre ++ l) + 1 in
      if last <=? line_start then mret (pre ++ l ++ 0 :: tail, 0)
      else lines_loop fuel sbuf fname (alen W) cnt last (pre ++ l ++ 0 :: tail) line_start)
    pre l tail s out) as (s1 & E & T1 & F1); [done..|].
  exists s1. split; [exact E|done].
Qed.

Lemma lines_loop_spec : forall fuel text pre x post s out cnt last,
  last = alen pre + alen text -> (length text < fuel)%nat -> text_ok text -> alen text < 2 ^ 31 ->
  terminal s out ->
  exists data' last' s',
    lines_loop fuel sbuf fname (alen W) cnt last (pre ++ text ++ x :: post) (alen pre) s = Done (data', last') s' /\
    searched cnt pre text x (pre ++ text ++ x :: post) data' last' out s s'.
Proof using Hw Hw0 Hwl Hnm Hnl FileSys0.
  induction fuel as [|fuel IH]; intros text pre x post s out cnt last Hlast Hf Htxt Hlen Ht; [lia|].
  destruct (first_line text) as [Hno|(l & rest & -> & Hno)]; [by apply last_line_turn|].
  assert (El : alen (l ++ 10 :: rest) = alen l + 1 + alen rest) by (unfold alen; rewrite length_app; simpl; lia).
  rewrite El in *. apply Forall_app in Htxt as [Hl [_ Hrest]%Forall_cons]. rewrite length_app in Hf. simpl in Hf.
  assert (H0 : 0 <= alen pre /\ 0 <= alen l /\ 0 <= alen rest) by (unfold alen; lia).
  replace (pre ++ (l ++ 10 :: rest) ++ x :: post) with (pre ++ l ++ 10 :: rest ++ x :: post) by by rewrite <- app_assoc.
  destruct (whole_line_turn fuel l (rest ++ x :: post) pre s out cnt last) as (s1 & -> & T1 & F1); [lia|done|done|lia|done|].
  assert (K : keeps (length pre + (length l + Datatypes.S (length rest)))
    (pre ++ l ++ 10 :: rest ++ x :: post) (pre ++ l ++ 0 :: rest ++ x :: post)).
  { split; [by rewrite !length_app|]. intros i Hi. left. rewrite !(lookup_app_r pre), !(lookup_app_r l) by lia.
    by destruct (i - length pre - length l)%nat eqn:Ei; [lia|]. }
  unfold searched. rewrite all_lines_line, scan_line by done. cbn [fst snd]. rewrite length_app. cbn [length].
  destruct (Z.leb_spec last (alen (pre ++ l) + 1)) as [Hle|Hgt]; rewrite alen_app in *.
  - assert (rest = []) as -> by (destruct rest; [done|unfold alen in *; simpl in *; lia]).
    eexists _, _, s1. split; [reflexivity|]. split; [done|]. split; [done|]. left. split; [done|]. split; [|by left].
    unfold all_lines. cbn. unfold report in T1 |- *. rewrite occurs_nil by done. by rewrite app_nil_r.
  - replace (pre ++ l ++ 0 :: rest ++ x :: post) with ((pre ++ l ++ [0]) ++ rest ++ x :: post) in * by by rewrite <- !app_assoc.
    assert (Ep : alen pre + alen l + 1 = alen (pre ++ l ++ [0])) by (rewrite !alen_app; unfold alen at 5; simpl; lia).
    rewrite Ep. destruct (IH rest (pre ++ l ++ [0]) x post s1 (out ++ report nm W l) cnt last)
      as (data' & last' & s' & E' & K' & F' & Hcase); [lia|lia|done|lia|done|].
    exists data', last', s'. split; [exact E'|]. rewrite !length_app in K'. cbn [length] in K'.
    split; [eapply keeps_trans; [exact K| |lia]; by replace (length pre + (length l + Datatypes.S (length rest)))%nat
      with (length pre + (length l + 1) + length rest)%nat by lia|].
    split; [by eapply calm_trans|]. rewrite <- !app_assoc in Hcase. rewrite !reports_cons.
    assert (Hne : pre ++ l ++ [0] <> []) by (destruct pre; [destruct l|]; done).
    destruct Hcase as [(? & ? & Hc)|(? & ? & ? & ? & _)].
    + left. split; [done|]. split; [done|]. destruct Hc as [?|[?|[?|[? ?]]]]; [by left|by right; left|by right; right; left|done].
    + right. repeat (split; [done|]). by right.
Qed.

(** Descriptors but [fd] and the terminal are as before, and the names. *)
Definition undisturbed (fd : Z) (s s' : S) : Prop :=
  (forall fd' ns, fd' <> fd -> fd' <> 1 -> dir_open s fd' ns -> dir_open s' fd' ns) /\
  (forall nm c, named s nm c -> named s' nm c).

Lemma undisturbed_frame fd fd0 s s' : fd0 = fd \/ fd0 = 1 -> frame fd0 s s' -> undisturbed fd s s'.
Proof. intros Hf F. split; intros; apply F; try done. destruct Hf; congruence. Qed.
Lemma undisturbed_trans fd s1 s2 s3 : undisturbed fd s1 s2 -> undisturbed fd s2 s3 -> undisturbed fd s1 s3.
Proof. intros [A1 B1] [A2 B2]. split; eauto. Qed.

(** A buffer of [do_one_file]: a byte that is never read from a file ends it. *)
Definition buffer_ok (data : list Z) : Prop := length data = 1025%nat /\ data !! 1024%nat <> Some 10.

Lemma keeps_buffer_ok k data data' : buffer_ok data -> keeps k data data' -> (k <= 1024)%nat -> buffer_ok data'.
Proof.
  intros [L N] [L' K] Hk. split; [congruence|]. destruct (K 1024%nat ltac:(lia)) as [->| ->]; [done|].
  congruence.
Qed.

(** A read into the buffer behind the part [part] of a line. *)
Lemma refill_spec s fd c off part junk out :
  is_open s fd c off -> terminal s out -> 0 <= off <= alen c -> alen c <= 4096 ->
  alen part < 1024 -> buffer_ok (part ++ junk) ->
  let got := take (Z.to_nat (Z.min (1024 - alen part) (alen c - off))) (drop (Z.to_nat off) c) in
  exists s' x post,
    ece391_read fd (part ++ junk) (alen part) (BUFSIZE - alen part) s
      = Done (alen got, part ++ got ++ x :: post) s' /\
    buffer_ok (part ++ got ++ x :: post) /\
    alen got = Z.min (1024 - alen part) (alen c - off) /\
    is_open s' fd c (off + alen got) /\ terminal s' out /\ frame fd s s' /\ same_room s s'.
Proof.
  intros Ho Ht Hoff Hc Hp [HL HN] got. unfold BUFSIZE.
  destruct (fs_read s fd c off (1024 - alen part) out Ho Ht Hoff) as (s' & Hs & Ho' & Ht' & F).
  { unfold alen in *. lia. }
  { destruct (decide (off = 4096)) as [->|]; [by left|]. right. rewrite Z.mod_small by lia. lia. }
  fold got in Hs. assert (Hg : alen got = Z.min (1024 - alen part) (alen c - off)).
  { unfold got, alen in *. rewrite length_take, length_drop. lia. }
  rewrite <- Hg in *. rewrite length_app in HL.
  destruct (drop (length got) junk) as [|x post] eqn:Ej.
  { apply (f_equal length) in Ej. rewrite length_drop in Ej. unfold alen in *. simpl in Ej. lia. }
  exists s', x, post.
  assert (El : length (take (length got) junk) = length got) by (rewrite length_take; unfold alen in *; lia).
  assert (Ejunk : junk = take (length got) junk ++ x :: post) by by rewrite <- Ej, take_drop.
  split; [|split; [|done]].
  - unfold ece391_read. rewrite (prog_bind_done _ _ _ _ _ Hs). cbn beta iota.
    rewrite (lift_bind _ _ _ (part ++ got ++ x :: post)); [done|].
    rewrite Ejunk at 1. by apply store_bytes_spec.
  - assert (length junk = length (got ++ x :: post)) as Eq.
    { rewrite Ejunk at 1. rewrite !length_app, El. done. }
    split; [rewrite length_app; lia|].
    intros E. apply HN. rewrite <- E, Ejunk. unfold alen in *.
    rewrite !lookup_app_r by lia. by rewrite El.
Qed.

Definition short (l : list Z) : Prop := alen l < 1024.

Lemma short_tail text more :
  Forall short (all_lines (text ++ more)) -> (scan text).1 <> [] \/ more = [] -> alen text <= 1024 ->
  short (scan text).2.
Proof.
  intros Hs Hc Hl. unfold short. destruct (scan_length text) as (_ & L2 & _). destruct Hc as [Hc| ->].
  - specialize (L2 Hc). unfold alen in *. lia.
  - rewrite app_nil_r in Hs. unfold all_lines in Hs. apply Forall_app in Hs as [_ [Hs _]%Forall_cons]. done.
Qed.

(** A text of one line and more is shorter than a line may be. *)
Lemma first_short text more : 10 ∉ text -> Forall short (all_lines (text ++ more)) -> short text.
Proof.
  intros Hno Hs. destruct (first_line more) as [Hm|(l & rest & -> & Hl)].
  - rewrite all_lines_plain in Hs by (rewrite elem_of_app; tauto).
    apply Forall_cons in Hs as [Hs _]. unfold short, alen in *. rewrite length_app in Hs. lia.
  - rewrite app_assoc, all_lines_line in Hs by (rewrite elem_of_app; tauto).
    apply Forall_cons in Hs as [Hs _]. unfold short, alen in *. rewrite length_app in Hs. lia.
Qed.

Lemma scan_tail_Forall (P : Z -> Prop) text : Forall P text -> Forall P (scan text).2.
Proof.
  induction text as [|c text IH]; simpl; [done|]. intros [Hc Ht]%Forall_cons. specialize (IH Ht).
  destruct (scan text) as [ls tl]. destruct (c =? 10); simpl in *; [done|].
  destruct ls; simpl; [by constructor|done].
Qed.

(** When a line that is not complete was searched, the file was at its end. *)
Lemma searched_end text more x cnt post :
  (scan text).2 = [] \/ cnt = 0 \/ x = 10 \/ (@nil Z = [] /\ (scan text).1 = []) ->
  (scan text).2 <> [] -> cnt <> 0 -> alen text <= 1024 ->
  (alen text < 1024 -> more = []) -> buffer_ok (text ++ x :: post) ->
  Forall short (all_lines (text ++ more)) -> more = [].
Proof.
  intros Hc Ht Hcnt Hl Hm [_ Hb] Hs. apply Hm. destruct Hc as [?|[?|[->|[_ Hc]]]]; [done|done| |].
  - destruct (Z.lt_ge_cases (alen text) 1024); [done|]. exfalso. apply Hb. unfold alen in *.
    rewrite lookup_app_r by lia. by replace (1024 - length text)%nat with 0%nat by lia.
  - apply (first_short text more); [|exact Hs].
    rewrite <- (proj2 (proj2 (scan_length text)) Hc). apply scan_tail.
Qed.

(** One turn on the buffer: a read behind [part], and the search of the lines. *)
Lemma file_turn c fd s part junk off out : 1 < fd -> alen c <= 4096 -> text_ok c -> 0 <= off <= alen c ->
  short part -> text_ok part -> buffer_ok (part ++ junk) -> is_open s fd c off -> terminal s out ->
  exists got more x post data' last' s1 s2, let text := part ++ got in
    (forall fuel, file_loop (Datatypes.S fuel) sbuf fname (alen W) fd (part ++ junk) (alen part) s =
      (if alen got =? 0 then r ← sys_close fd; if r =? -1 then puts (litn "file close failed");; mret (-1) else mret 0
       else file_loop fuel sbuf fname (alen W) fd data' last') s2) /\
    searched (alen got) [] text x (text ++ x :: post) data' last' out s1 s2 /\
    drop (Z.to_nat off) c = got ++ more /\ more = drop (Z.to_nat (off + alen got)) c /\ alen got <= alen c - off /\
    alen text <= 1024 /\ (alen text < 1024 -> more = []) /\ text_ok text /\ buffer_ok (text ++ x :: post) /\ buffer_ok data' /\
    is_open s2 fd c (off + alen got) /\ undisturbed fd s s2 /\ same_room s s2.
Proof using Hw Hw0 Hwl Hnm Hnl FileSys0.
  intros Hfd Hc Hct Hoff Hp Hpt Hb Ho Ht.
  destruct (refill_spec s fd c off part junk out Ho Ht Hoff Hc Hp Hb)
    as (s1 & x & post & E1 & Hb1 & Hg & Ho1 & Ht1 & F1 & R1).
  set (got := take _ _) in *. set (more := drop (Z.to_nat (off + alen got)) c).
  assert (Hrest : drop (Z.to_nat off) c = got ++ more).
  { unfold more. rewrite <- (take_drop (length got) (drop (Z.to_nat off) c)). f_equal.
    - unfold got. rewrite length_take, length_drop. f_equal. unfold alen in *. lia.
    - rewrite drop_drop. f_equal. unfold alen in *. lia. }
  set (text := part ++ got). rewrite app_assoc in Hb1. fold text in Hb1.
  assert (Hl1 : alen text = alen part + alen got) by apply alen_app. unfold short in Hp.
  assert (Htext : text_ok text) by (apply Forall_app; split; [done|by apply Forall_take, Forall_drop]).
  pose proof (alen_nonneg part). pose proof (alen_nonneg got).
  destruct (lines_loop_spec (Datatypes.S (length (text ++ x :: post))) text [] x post s1 out (alen got)
    (alen text)) as (data' & last' & s2 & E2 & Hs); [done|rewrite length_app; lia|done|lia|done|].
  pose proof Hs as (K & [F2 R2] & _). cbn [app length Nat.add] in E2, K.
  exists got, more, x, post, data', last', s1, s2. cbv zeta. fold text. split.
  { intros fuel. cbn [file_loop]. rewrite (prog_bind_done _ _ _ _ _ E1). cbn beta iota.
    rewrite (proj2 (Z.eqb_neq (alen got) (-1))) by lia. cbv zeta. rewrite app_assoc. fold text. rewrite <- Hl1.
    erewrite prog_bind_done by exact E2. cbn beta iota. by destruct (alen got =? 0). }
  split_and!; try done; [lia|lia| | | | |].
  - intros. unfold more. apply drop_ge. unfold alen in *. lia.
  - eapply keeps_buffer_ok; [exact Hb1|exact K|unfold alen in *; lia].
  - by apply F2; [lia|].
  - by eapply undisturbed_trans; [apply (undisturbed_frame fd fd); [left|]|apply (undisturbed_frame fd 1); [right|]].
  - intros n Hn. by apply R2, R1.
Qed.

(** What is left in the buffer for the next turn. *)
Lemma turn_leaves cnt text more x post data' last' out s1 s2 :
  searched cnt [] text x (text ++ x :: post) data' last' out s1 s2 -> cnt <> 0 -> alen text <= 1024 ->
  (alen text < 1024 -> more = []) -> text_ok text -> buffer_ok (text ++ x :: post) ->
  Forall short (all_lines (text ++ more)) ->
  exists part junk o1, data' = part ++ junk /\ last' = alen part /\ short part /\ 10 ∉ part /\ text_ok part /\
    terminal s2 (out ++ o1) /\ Forall short (all_lines (part ++ more)) /\
    o1 ++ reports nm W (all_lines (part ++ more)) = reports nm W (all_lines (text ++ more)).
Proof using Hw0 Hw.
  intros (K & _ & Hcase) Hcnt Hl Hmore Htext Hb Hs.
  assert (Hnil : reports nm W [[]] = []) by (unfold reports; cbn; unfold report; by rewrite occurs_nil).
  destruct Hcase as [(-> & Ht2 & Hc2)|(_ & -> & [rest ->] & Ht2 & Hpre)].
  - (* every line was searched *)
    assert (Hend : (scan text).2 <> [] -> more = []) by (intros Htl; by eapply (searched_end text more x cnt post)).
    exists [], data', (reports nm W (all_lines text)).
    split; [done|]. split; [done|]. split; [done|]. split; [apply not_elem_of_nil|]. split; [done|]. split; [exact Ht2|].
    destruct (decide ((scan text).2 = [])) as [Et|Et].
    + rewrite all_lines_app, Et in Hs. split; [by apply Forall_app in Hs as [_ Hs]|].
      rewrite (all_lines_app text), Et, reports_app. unfold all_lines at 1. by rewrite Et, reports_app, Hnil, app_nil_r.
    + rewrite Hend by done. split; [by repeat constructor|]. rewrite (app_nil_r text).
      change (all_lines ([] ++ [])) with [@nil Z]. by rewrite Hnil, app_nil_r.
  - (* the last line was moved to the front *)
    rewrite all_lines_app in Hs. pose proof Hs as [_ Hs2]%Forall_app.
    exists (scan text).2, (0 :: rest), (reports nm W (scan text).1).
    split; [done|]. split; [done|]. split; [|split; [apply scan_tail|split; [by apply scan_tail_Forall|split; [done|split; [done|]]]]].
    + apply (short_tail text more); [by rewrite all_lines_app| |lia]. destruct Hpre; [done|by left].
    + by rewrite (all_lines_app text), reports_app.
Qed.

Lemma file_loop_spec c fd : 1 < fd -> alen c <= 4096 -> text_ok c -> forall k s part junk off out,
  alen c - off <= Z.of_nat k -> 0 <= off <= alen c -> short part -> 10 ∉ part -> text_ok part ->
  buffer_ok (part ++ junk) -> Forall short (all_lines (part ++ drop (Z.to_nat off) c)) ->
  is_open s fd c off -> terminal s out ->
  exists s', terminal s' (out ++ reports nm W (all_lines (part ++ drop (Z.to_nat off) c))) /\
    undisturbed fd s s' /\ (forall n, room s n -> room s' (n + 1)) /\
    forall fuel, (k < fuel)%nat ->
      file_loop fuel sbuf fname (alen W) fd (part ++ junk) (alen part) s = Done 0 s'.
Proof using Hw Hw0 Hwl Hnm Hnl FileSys0.
  intros Hfd Hc Hct. induction k as [k IH] using lt_wf_ind.
  intros s part junk off out Hk Hoff Hp Hno Hpt Hb Hs Ho Ht.
  destruct (file_turn c fd s part junk off out Hfd Hc Hct Hoff Hp Hpt Hb Ho Ht)
    as (got & more & x & post & data' & last' & s1 & s2 & E & Hse & Hrest & Hmore & Hg & Hl & Hend & Htext & Hb1 & Hb2 & Ho2 & U2 & R2).
  rewrite Hrest, app_assoc in Hs |- *. set (text := part ++ got) in *. pose proof (alen_nonneg got) as Hg0.
  destruct (decide (alen got = 0)) as [E0|E0].
  - (* the end of the file *)
    assert (got = []) as Eg by (apply nil_length_inv; unfold alen in *; lia).
    assert (Em : more = []) by (apply Hend; unfold text; rewrite alen_app; unfold short in Hp; lia).
    destruct Hse as (_ & _ & [(-> & Ht2 & _)|(Hx & _)]); [|done].
    destruct (fs_close s2 fd c _ _ Ho2 Hfd Ht2) as (s3 & E3 & Ht3 & F3 & R3).
    exists s3. rewrite Em, app_nil_r. split; [done|]. split.
    { eapply undisturbed_trans; [exact U2|]. by apply (undisturbed_frame fd fd); [left|]. }
    split; [intros n Hn; by apply R3, R2|].
    intros [|fuel] Hfu; [lia|]. rewrite E, E0. cbn [Z.eqb]. by erewrite prog_bind_done by exact E3.
  - destruct (turn_leaves _ _ _ _ _ _ _ _ _ _ Hse E0 Hl Hend Htext Hb1 Hs)
      as (part' & junk' & o1 & -> & -> & Hsh' & Hno' & Hok' & Ht2 & Hs' & Heq).
    destruct (IH (Z.to_nat (alen c - (off + alen got))) ltac:(lia) s2 part' junk' (off + alen got) (out ++ o1))
      as (s' & Ht' & U' & R' & Hf'); [lia|lia|done|done|done|done|by rewrite <- Hmore|done|done|].
    rewrite <- Hmore, <- app_assoc, Heq in Ht'. exists s'. split; [done|]. split; [by eapply undisturbed_trans|].
    split; [intros n Hn; by apply R', R2|].
    intros [|fuel] Hfu; [lia|]. rewrite E, (proj2 (Z.eqb_neq (alen got) 0)) by done. apply Hf'. lia.
Qed.

Lemma do_one_file_spec s data c out :
  named s nm c -> terminal s out -> room s 1 -> alen c <= 4096 -> text_ok c ->
  Forall short (all_lines c) -> buffer_ok data ->
  exists s' fd, terminal s' (out ++ reports nm W (all_lines c)) /\ fresh fd s /\ 1 < fd /\
    undisturbed fd s s' /\ same_room s s' /\
    forall fuel, (Z.to_nat (alen c) < fuel)%nat -> do_one_file fuel data sbuf fname s = Done 0 s'.
Proof using Hw Hw0 Hwl Hnm Hnl FileSys0.
  intros Hc Ht Hr Hlen Htxt Hs Hb.
  destruct (open_spec s [] nm ft c out Hnm ltac:(lia) Hc Ht Hr) as (fd & s1 & E1 & Hfd & Hfr & Ho & Ht1 & F1 & R1).
  destruct (file_loop_spec c fd ltac:(lia) Hlen Htxt (Z.to_nat (alen c)) s1 [] data 0 out) as (s' & Ht' & U & R' & Hf);
    try done; try (unfold alen; lia).
  { by apply not_elem_of_nil. }
  exists s', fd. split; [done|]. split; [done|]. split; [lia|]. split.
  { eapply undisturbed_trans; [by apply (undisturbed_frame fd fd); [left|]|done]. }
  split; [intros n Hn; specialize (R1 n Hn); specialize (R' _ R1); by replace (n - 1 + 1) with n in R' by lia|].
  intros fuel Hfu. unfold do_one_file.
  rewrite (lift_bind _ _ _ (alen W)) by (apply (strlen_split []); [done|unfold W; lia]).
  erewrite prog_bind_done by exact E1. rewrite (proj2 (Z.eqb_neq fd (-1))) by lia.
  rewrite s32_small by (unfold W, alen in *; lia). by apply Hf.
Qed.
End grep.

(** A file grep can print from: text of at most a block, in lines the buffer holds. *)
Definition good_file (c : list Z) : Prop :=
  alen c <= 4096 /\ Forall (fun x => 0 < x < 256) c /\ Forall short (all_lines c).

(** What grep prints for a directory: the names that do not start with a dot. *)
Definition grep_out (w : list Z) (files : list (list Z * list Z)) : list Z :=
  mjoin ((fun f => if decide (head f.1 = Some 46) then [] else reports f.1 w (all_lines f.2)) <$> files).

Section grep_main.
Context {S : Type} `{Sys S, !FileView S, !FileSys S}.
Variables (w0 : Z) (w : list Z).
Hypotheses (Hw : Forall (fun c => c <> 0) (w0 :: w)) (Hw0 : 0 < w0 < 128) (Hwl : alen (w0 :: w) < 2 ^ 31).
Let W := w0 :: w.

Definition entry_ok (s : S) (f : list Z * list Z) : Prop :=
  0 < alen f.1 < 32 /\ Forall (fun c => c <> 0) f.1 /\
  (head f.1 = Some 46 \/ (named s f.1 f.2 /\ good_file f.2)).

Lemma grep_loop_spec st datas fd : 1 < fd -> (forall i, buffer_ok (datas i)) ->
  forall files i s buf out, Forall (entry_ok s) files -> alen buf = 33 -> dir_open s fd (fst <$> files) ->
  terminal s out -> room s 1 ->
  exists s', terminal s' (out ++ grep_out W files) /\
    forall fuel, 4096 + alen files < Z.of_nat fuel ->
      grep_loop fuel datas i (W ++ 0 :: st) fd buf s = Done 0 s'.
Proof using Hw Hw0 Hwl FileSys0.
  intros Hfd Hdata. induction files as [|[nm c] files IH]; intros i s buf out Hf Hb Hd Ht Hr.
  - destruct (fs_readdir_end s fd 32 out Hd Ht) as (s' & Hs & _ & Ht' & _). exists s'.
    unfold grep_out. cbn. rewrite app_nil_r. split; [done|]. intros [|fuel] Hfu; [unfold alen in Hfu; simpl in Hfu; lia|]. clear Hfu. cbn [grep_loop].
    unfold ece391_read. erewrite prog_bind_done; [|rewrite (prog_bind_done _ _ _ _ _ Hs); cbn beta iota;
      erewrite lift_bind; [reflexivity|apply store_bytes_0; unfold alen; simpl; lia]]. done.
  - apply Forall_cons in Hf as [(Hn & Hnz & Hcase) Hf]. cbn [fst snd fmap list_fmap] in *.
    destruct (readdir_spec s fd nm _ buf out Hd Ht ltac:(lia) Hb) as (s1 & tl & Hs & Htl & Hd1 & Ht1 & F1 & R1).
    assert (Hmono : forall s', (forall n d, named s n d -> named s' n d) -> Forall (entry_ok s') files).
    { intros s' Hn'. eapply List.Forall_impl; [|exact Hf]. intros f (? & ? & [?|[? ?]]); (split; [done|]; split; [done|]); [by left|right; split; [by apply Hn'|done]]. }
    destruct nm as [|n0 nm]; [unfold alen in Hn; simpl in Hn; lia|].
    unfold grep_out. cbn [fmap list_fmap mjoin list_join fst snd head].
    change (mjoin ?x) with (grep_out W files).
    case_decide as Hdot.
    + injection Hdot as ->. destruct (IH i s1 ((46 :: nm) ++ 0 :: tl) out) as (s' & Ht' & Hrun); try done.
      { apply Hmono. intros. by apply F1. }
      { unfold alen in *. rewrite length_app. simpl in *. lia. }
      { by apply R1. }
      exists s'. split; [done|]. intros [|fuel] Hfu; [unfold alen in Hfu; lia|]. cbn [grep_loop].
      change (SBUFSIZE - 1) with 32. rewrite (prog_bind_done _ _ _ _ _ Hs). cbn beta iota.
      rewrite (proj2 (Z.eqb_neq (alen (46 :: nm)) 0)), (proj2 (Z.eqb_neq (alen (46 :: nm)) (-1))) by lia.
      rewrite (lift_bind _ _ _ 46) by done. cbn [Z.eqb Pos.eqb]. apply Hrun. unfold alen in *. simpl length in Hfu. lia.
    + destruct Hcase as [?|[Hc (Hg1 & Hg2 & Hg3)]]; [done|].
      destruct (do_one_file_spec w0 w st (n0 :: nm) tl Hw Hw0 Hwl Hnz ltac:(lia) s1 (datas i) c out)
        as (s2 & fd1 & Ht2 & Hfr & Hfd1 & [U1 U2] & R2 & Hrun1); try done.
      { by apply F1. } { by apply R1. }
      assert (Hne : fd1 <> fd) by (intros ->; by apply (proj2 Hfr) in Hd1).
      destruct (IH (Datatypes.S i) s2 ((n0 :: nm) ++ 0 :: tl) (out ++ reports (n0 :: nm) W (all_lines c)))
        as (s' & Ht' & Hrun); try done.
      { apply Hmono. intros. by apply U2, F1. }
      { unfold alen in *. rewrite length_app. simpl in *. lia. }
      { apply U1; [congruence|lia|done]. }
      { by apply R2, R1. }
      exists s'. rewrite <- app_assoc in Ht'. split; [done|]. intros [|fuel] Hfu; [unfold alen in Hfu; lia|]. cbn [grep_loop].
      change (SBUFSIZE - 1) with 32. rewrite (prog_bind_done _ _ _ _ _ Hs). cbn beta iota.
      rewrite (proj2 (Z.eqb_neq (alen (n0 :: nm)) 0)), (proj2 (Z.eqb_neq (alen (n0 :: nm)) (-1))) by lia.
      rewrite (lift_bind _ _ _ n0) by done.
      rewrite (proj2 (Z.eqb_neq n0 46)) by congruence.
      rewrite (lift_bind _ _ _ ((n0 :: nm) ++ 0 :: tl)) by apply UserLib.store_middle.
      erewrite prog_bind_done; [|apply Hrun1; unfold alen in *; lia]. cbn [Z.eqb negb]. apply Hrun.
      unfold alen in *. simpl length in Hfu. lia.
Qed.

(** C24: [grep] prints, file by file, every line that holds the pattern, after the name of
    its file, and nothing else, and exits with 0. Names that begin with a dot are skipped.
    The other files have at most 4096 bytes (longer ones the kernel misreads), no NUL and
    lines shorter than 1024 ([good_file]); the pattern is not empty, shorter than 1024, has
    no NUL and begins with a character below 128; and the byte behind the 1024 of the
    buffer, which is read although nothing wrote it, is no new line ([buffer_ok]). *)
Theorem grep_correct s datas search buf files out :
  args s W -> directory s (fst <$> files) -> terminal s out -> room s 2 ->
  Forall (entry_ok s) files -> alen W < 1024 -> alen search = 1024 -> alen buf = 33 ->
  (forall i, buffer_ok (datas i)) ->
  exists s', ends (fun fuel => grep fuel datas search buf) s 0 s' /\ terminal s' (out ++ grep_out W files).
Proof using Hw Hw0 Hwl FileSys0.
  intros Ha Hd Ht Hr Hf HW Hsl Hbl Hdatas.
  destruct (getargs_spec s W 1024 search out Ha HW ltac:(lia) ltac:(lia) Ht) as (s1 & E1 & Ht1 & F1 & R1 & D1).
  destruct (fs_opendir s1 _ out (D1 _ Hd) Ht1) as (fd & s2 & E2 & Hfd & _ & Ho & Ht2 & F2 & R2);
    [eapply fs_room; [by apply R1|lia]|].
  destruct (grep_loop_spec (drop (Datatypes.S (length W)) search) datas fd ltac:(lia) Hdatas files 0%nat s2 buf out)
    as (s' & Ht' & Hrun); try done.
  { eapply List.Forall_impl; [|exact Hf]. intros f (? & ? & [?|[? ?]]);
      (split; [done|]; split; [done|]); [by left|right; split; [by apply F2, F1|done]]. }
  { by apply (R2 2), R1. }
  exists s'. split; [|done]. exists (Z.to_nat (4097 + alen files)). intros fuel Hfu. unfold grep.
  erewrite prog_bind_done by exact E1. cbn [Z.eqb negb].
  erewrite prog_bind_done by exact E2. rewrite (proj2 (Z.eqb_neq fd (-1))) by lia.
  apply Hrun. lia.
Qed.
End grep_main.

(** [grep "ho"] on the two-entry image: the directory itself is skipped. *)
Lemma grep_correct_witness :
  exists k k', Kernel.boot Kernel.demo_fs (Some [104; 111]) [] = Some k /\
    ends (fun fuel => grep fuel (fun _ => replicate 1025 0) (replicate 1024 0) (replicate 33 0)) k 0 k' /\
    terminal k' [97; 98; 58; 104; 111; 10].
Proof.
  destruct (Kernel.boot_spec Kernel.demo_fs (Some [104; 111]) []) as (k & E & Ht & Hk & Ha & Hr).
  destruct (grep_correct 104 [111] ltac:(by repeat constructor) ltac:(lia) ltac:(done) k (fun _ => replicate 1025 0)
    (replicate 1024 0) (replicate 33 0) [([46], Kernel.demo_text); (Kernel.demo_name, Kernel.demo_text)] [])
    as (k' & Hc & Ht').
  - split; [by repeat constructor|]. split; [reflexivity|]. left. exact Ha.
  - exact (Kernel.demo_directory _ Hk).
  - exact Ht.
  - eapply fs_room; [exact Hr|lia].
  - constructor; [|constructor; [|constructor]].
    + split; [cbn; unfold alen; cbn; lia|]. split; [repeat constructor; lia|]. left. reflexivity.
    + split; [cbn; unfold alen; cbn; lia|]. split; [repeat constructor; lia|]. right.
      split; [exact (Kernel.demo_named _ Hk)|].
      split; [cbn; unfold alen; cbn; lia|]. split; [repeat constructor; lia|]. repeat constructor; cbn; lia.
  - reflexivity.
  - vm_compute. reflexivity.
  - vm_compute. reflexivity.
  - intros _. vm_compute. split; [reflexivity|discriminate].
  - exists k, k'. split; [exact E|]. split; [exact Hc|exact Ht'].
Defined.
End Grep.
