(* ===== verification/EndToEnd.v ===== *)
(** * From the host's files to the terminal

    The image builder, the kernel and a user program composed: what the builder packs
    into an image is what the programs of the booted kernel find. *)
From stdpp Require Import prelude list numbers.
From Stdlib Require Import ZArith Lia.
From S2P Require Import Prelude Stack PhysPages MemMap KissFS Createfs Terminal Sys Kernel Loader ElfConvert UserProgs.

Module EndToEnd.

Import Createfs.

(** The kernel booted on the image [img], wherever it is loaded, with the argument [a]
    runs the program to its end with answer 0, and the terminal shows [text]. *)
Definition boots_and_prints (img : file) (a : option (list Z))
    (p : nat -> prog (Kernel.t Console.t Console.fops) Z) (text : list Z) : Prop :=
  forall mem start endd, (forall x, 0 <= x < flen img -> mem x = fbyte img x) -> endd - start = flen img ->
    exists fs k k', KissFS.initFromMemoryAddress mem start endd = Some fs /\
      Kernel.boot fs a [] = Some k /\ UserProgs.ends p k 0 k' /\
      Kernel.shows_text (Kernel.world k') text.

(** ** The converter's output is an image for the loader *)

(** A segment that holds the file's header at the image address, as linkers make it. *)
Definition has_header_segment (input : list Z) : Prop :=
  exists d, d ∈ ElfConvert.segments input /\ ElfConvert.dword d 4 = 0 /\
    ElfConvert.dword d 8 = ElfConvert.base /\ 28 <= ElfConvert.dword d 16.

(** The child's memory is what the program headers of [input] say, and it starts at the
    entry point. *)
Definition runs_as_elf (input : list Z) (ch : Loader.child) : Prop :=
  (forall d j, d ∈ ElfConvert.segments input -> 0 <= j < ElfConvert.dword d 20 ->
    Loader.code_mem ch (ElfConvert.dword d 8 + j) =
      if j <? ElfConvert.dword d 16 then ElfConvert.byte input (ElfConvert.dword d 4 + j) else 0) /\
  (Loader.kstack ch).2 !! 8%nat = Some (ElfConvert.dword input 24).

Section elf.
Variables (input : list Z) (off_max : Z) (fresh : Z -> list Z) (argv1 : list Z).
Hypotheses (Hok : ElfConvert.elf_ok input) (Hargv : alen argv1 < 70) (Hoff : 2 ^ 31 - 1 <= off_max).
Hypothesis Hhead : has_header_segment input.

Definition converted : list Z := ElfConvert.bytes (ElfConvert.place input (ElfConvert.mk_file [] 0) (ElfConvert.segments input)).

Lemma converted_lookup x : 0 <= x -> (exists d, d ∈ ElfConvert.segments input /\ ElfConvert.covers d x) ->
  converted !! Z.to_nat x = Some (ElfConvert.byte converted x).
Proof using Hok.
  intros Hx (d & Hd & Hc). destruct (ElfConvert.place_grows input (ElfConvert.segments input) (ElfConvert.mk_file [] 0)) as [_ Hg];
    [apply Hok|]. specialize (Hg d x Hd Hc). fold converted in Hg. rewrite ElfConvert.byte_lookup by done.
  destruct (lookup_lt_is_Some_2 converted (Z.to_nat x)) as [b ->]; [unfold alen in Hg; lia|done].
Qed.

Lemma converted_head x : 0 <= x < 28 -> converted !! Z.to_nat x = Some (ElfConvert.byte input x).
Proof using Hok Hhead.
  intros Hx. destruct Hhead as (d & Hd & H4 & H8 & H16).
  assert (Hs : ElfConvert.seg_ok input d) by (pose proof (ElfConvert.eo_segments _ Hok) as H; rewrite list.Forall_forall in H; by apply H).
  destruct Hs as [_ Hsz _]. rewrite converted_lookup; [|lia|exists d; split; [done|unfold ElfConvert.covers; lia]].
  pose proof (ElfConvert.place_segment input d x Hok Hd ltac:(lia)) as E. fold converted in E.
  rewrite H4, H8, Z.sub_diag, Z.add_0_l in E. rewrite E. by rewrite (proj2 (Z.ltb_lt _ _)) by lia.
Qed.

Lemma converted_magic : take 4 converted = Loader.magic.
Proof using Hok Hhead.
  assert (Hm : forall i, (i < 4)%nat -> converted !! i = Loader.magic !! i).
  { intros i Hi. pose proof (converted_head (Z.of_nat i) ltac:(lia)) as E. rewrite Nat2Z.id in E. rewrite E.
    pose proof (ElfConvert.eo_magic _ Hok) as Em. rewrite ElfConvert.byte_lookup, Nat2Z.id by lia.
    apply (f_equal (fun l => l !! i)) in Em. rewrite lookup_take_lt in Em by lia. rewrite Em.
    do 4 (destruct i as [|i]; [done|]). lia. }
  apply list_eq. intros i. destruct (decide (i < 4)%nat) as [Hi|Hi]; [rewrite lookup_take_lt by lia; by apply Hm|].
  rewrite lookup_take_ge by lia. symmetry. apply lookup_ge_None. simpl. lia.
Qed.
End elf.

Section built.
Variables (rand : nat -> Z) (dir : list host_file).
Hypotheses (Hfair : fair rand) (Hdir : Forall (fun h => file_ok h \/ skipped h) dir)
  (Hn : alen (files dir) <= 32) (Hdata : Exists (fun h => contents h <> []) (files dir))
  (Hnames : NoDup (d_name <$> files dir)).

(** The files of the host under their names. *)
Lemma built_named (k : Kernel.t Console.t Console.fops) h :
  mounts (files dir) (Kernel.kiss k) -> h ∈ files dir -> Kernel.plain_name (d_name h) ->
  named k (d_name h) (contents h).
Proof.
  intros M Hin Hp. destruct (mt_file _ _ M h Hin) as (ino & nd & Ho & Hi & Hle & V & <-).
  split; [done|]. exists ino. split; [done|]. by apply Kernel.serves_valid.
Qed.

Lemma built_directory (k : Kernel.t Console.t Console.fops) :
  mounts (files dir) (Kernel.kiss k) -> directory k ([46] :: (d_name <$> files dir)).
Proof.
  intros M. pose proof (mt_names _ _ M) as Hd. pose proof (alen_nonneg (files dir)).
  assert (Hl : alen (KissFS.dentries (Kernel.kiss k)) = 1 + alen (files dir)).
  { apply (f_equal length) in Hd. rewrite length_cons, !length_fmap in Hd. unfold alen. lia. }
  split; [rewrite Hl; apply (mt_dot _ _ M)|]. split; [lia|]. split; [symmetry; exact Hd|].
  constructor; [done|]. apply Forall_fmap. eapply List.Forall_impl; [|apply files_ok, Hdir].
  intros h Hh. unfold compose, Kernel.dname_ok. destruct Hh as (_ & _ & _ & _ & _ & Hh & _). lia.
Qed.

(** C1: The builder ends on the host directory; a kernel booted on its image, with a file's
    name as the argument, runs [cat] to its end, and what the terminal shows is the
    layout of that file's bytes on the host. The file has no NUL byte (the terminal stops
    at one), and its name is plain: ASCII, shorter than 69 characters, without a leading
    slash and not one of the names of the devices (see [Kernel.plain_name]). *)
Theorem cat_prints_host_file buf h :
  h ∈ files dir -> Kernel.plain_name (d_name h) -> Forall (fun c => c <> 0) (contents h) -> alen buf = 1024 ->
  exists img, ev (fun fuel => main rand fuel dir) img /\
    boots_and_prints img (Some (d_name h)) (fun fuel => UserProgs.cat fuel buf) (contents h).
Proof using All.
  intros Hin Hp Hc Hb. destruct (built_mounts rand dir Hfair Hdir Hn Hdata Hnames) as (img & Hev & Hi).
  exists img. split; [done|]. intros mem start endd Hmem Hsize.
  destruct (Hi mem start endd Hmem Hsize) as (fs & Hfs & M).
  destruct (Kernel.boot_spec fs (Some (d_name h)) []) as (k & E & Ht & Hk & Ha & Hr).
  pose proof (files_ok dir Hdir) as Hok. rewrite list.Forall_forall in Hok. specialize (Hok h Hin).
  destruct Hok as (_ & _ & Hsz & _ & Hnm & Hlen & _).
  assert (Hnz : Forall (fun c => c <> 0) (d_name h)) by (eapply List.Forall_impl; [|exact Hnm]; simpl; lia).
  assert (Hsz32 : alen (contents h) < 2 ^ 32) by lia.
  destruct (UserProgs.cat_correct k buf (d_name h) (contents h) []) as (k' & Hends & Ht').
  - split; [exact Hnz|]. split; [lia|]. by left.
  - apply built_named; [by rewrite Hk|exact Hin|exact Hp].
  - exact Ht.
  - eapply fs_room; [exact Hr|lia].
  - exact Hnz.
  - lia.
  - exact Hb.
  - exact Hsz32.
  - exact Hc.
  - exists fs, k, k'. split; [exact Hfs|]. split; [exact E|]. split; [exact Hends|apply Ht'].
Qed.

(** C31: [ls] on the booted image lists the directory itself and then every regular file of
    the host directory, in its order. *)
Theorem ls_lists_host_files a buf :
  alen buf = 33 ->
  exists img, ev (fun fuel => main rand fuel dir) img /\
    boots_and_prints img a (fun fuel => UserProgs.ls fuel buf)
      (mjoin ((fun nm => nm ++ [10]) <$> ([46] :: (d_name <$> files dir)))).
Proof using All.
  intros Hb. destruct (built_mounts rand dir Hfair Hdir Hn Hdata Hnames) as (img & Hev & Hi).
  exists img. split; [done|]. intros mem start endd Hmem Hsize.
  destruct (Hi mem start endd Hmem Hsize) as (fs & Hfs & M).
  destruct (Kernel.boot_spec fs a []) as (k & E & Ht & Hk & Ha & Hr).
  destruct (UserProgs.ls_correct k buf ([46] :: (d_name <$> files dir)) []) as (k' & Hends & Ht').
  - apply built_directory. by rewrite Hk.
  - exact Ht.
  - eapply fs_room; [exact Hr|lia].
  - clear -Hdir. constructor; [split; [vm_compute; split; reflexivity|repeat constructor; lia]|]. apply Forall_fmap.
    eapply List.Forall_impl; [|apply files_ok, Hdir]. intros h (_ & _ & _ & _ & Hnm & Hlen & _).
    unfold compose. split; [lia|]. eapply List.Forall_impl; [|exact Hnm]. simpl. lia.
  - exact Hb.
  - exists fs, k, k'. split; [exact Hfs|]. split; [exact E|]. split; [exact Hends|apply Ht'].
Qed.

(** C2: An ELF executable that went through the converter and the builder is executed as
    its headers say: the booted kernel finds the command, and in the child's memory every
    byte of every loadable segment is the file's, or zero behind the file's part; the
    child starts at the entry point of the ELF header. *)
Theorem exec_runs_converted_elf a h input off_max fresh argv1 kstack_addr eflags pm ph ph' p arg0 :
  ElfConvert.elf_ok input -> alen argv1 < 70 -> 2 ^ 31 - 1 <= off_max ->
  has_header_segment input ->
  Forall (fun d => ElfConvert.dword d 8 - ElfConvert.base + ElfConvert.dword d 20 <= Loader.image_room) (ElfConvert.segments input) ->
  (forall f, ElfConvert.main off_max fresh argv1 input = ElfConvert.Done f -> contents h = ElfConvert.bytes f) ->
  h ∈ files dir -> Kernel.plain_name (d_name h) ->
  Forall (fun x => x <> 0) arg0 -> Loader.command arg0 = d_name h ->
  PhysPages.allocPage PhysPages.physPages_n ph false = (Some p, ph') ->
  exists img, ev (fun fuel => main rand fuel dir) img /\
    forall mem start endd, (forall x, 0 <= x < flen img -> mem x = fbyte img x) -> endd - start = flen img ->
      exists fs k ch, KissFS.initFromMemoryAddress mem start endd = Some fs /\ Kernel.boot fs a [] = Some k /\
        Loader.do_exec kstack_addr eflags pm ph k arg0 = Some (Loader.Child ch, ph', k) /\
        Loader.arg ch = Loader.args_of arg0 /\
        runs_as_elf input ch.
Proof using All.
  intros Hok Hargv Hoff Hhead Hroom Hconv Hin Hp Harg Hcmd Hpage.
  destruct (built_mounts rand dir Hfair Hdir Hn Hdata Hnames) as (img & Hev & Hi).
  exists img. split; [done|]. intros mem start endd Hmem Hsize.
  destruct (Hi mem start endd Hmem Hsize) as (fs & Hfs & M).
  destruct (Kernel.boot_spec fs a []) as (k & E & [Hkinv _] & Hk & _ & _).
  specialize (Hconv _ (ElfConvert.elf_main_spec off_max fresh argv1 input Hok Hargv Hoff)).
  change (ElfConvert.bytes _) with (converted input) in Hconv.
  assert (Hnamed : named k (Loader.command arg0) (converted input)).
  { rewrite Hcmd, <- Hconv. apply built_named; [by rewrite Hk|done|done]. }
  assert (Hlen : alen (converted input) <= Loader.image_room).
  { apply ElfConvert.place_length; [apply Hok|done|vm_compute; congruence]. }
  destruct (Loader.do_exec_loads_image k kstack_addr eflags pm ph ph' p arg0 (converted input))
    as (ch & Ech & Ha & _ & Hbytes & _ & fl & Hst & _); [apply Hkinv|done|done|by apply converted_magic|done|done|].
  assert (Hcode : forall x, 0 <= x -> (exists d, d ∈ ElfConvert.segments input /\ ElfConvert.covers d x) ->
    Loader.code_mem ch (ElfConvert.base + x) = ElfConvert.byte (converted input) x).
  { intros x Hx Hc. pose proof (Hbytes _ _ (converted_lookup input Hok x Hx Hc)) as Eb. rewrite Z2Nat.id in Eb by lia. exact Eb. }
  exists fs, k, ch. split; [done|]. split; [done|]. split; [done|]. split; [done|]. split.
  - intros d j Hd Hj. rewrite <- (ElfConvert.place_segment input d j Hok Hd Hj). fold (converted input).
    assert (Hs : ElfConvert.seg_ok input d) by (pose proof (ElfConvert.eo_segments _ Hok) as H; rewrite list.Forall_forall in H; by apply H).
    destruct Hs as [_ _ [Hb _]]. rewrite <- Hcode; [f_equal; lia|lia|]. exists d. split; [done|]. unfold ElfConvert.covers. lia.
  - assert (Hh : forall x, 0 <= x < 28 -> Loader.code_mem ch (Loader.program_image_addr + x) = ElfConvert.byte input x).
    { intros x Hx. pose proof (Hbytes _ _ (converted_head input Hok Hhead x Hx)) as Eb. rewrite Z2Nat.id in Eb by lia. exact Eb. }
    apply (f_equal (fun l => l !! 0%nat)) in Hst. rewrite lookup_drop in Hst. change (8 + 0)%nat with 8%nat in Hst. rewrite Hst. cbn [lookup list_lookup]. f_equal.
    unfold rd32. rewrite <- !Z.add_assoc. rewrite !Hh by lia. unfold ElfConvert.dword. cbn [Z.add Pos.add]. lia.
Qed.
End built.

(** The demonstration directory. *)
Lemma demo_ok : Forall (fun h => file_ok h \/ skipped h) demo_dir.
Proof.
  unfold demo_dir. constructor; [right; by split|].
  constructor; [left|constructor; [left|constructor]]; split_and!;
    first [vm_compute; congruence|vm_compute; reflexivity|repeat constructor; lia].
Qed.
Lemma demo_data : Exists (fun h => contents h <> []) (files demo_dir).
Proof. apply List.Exists_exists. eexists. split; [left; reflexivity|]. done. Qed.
Lemma demo_names : NoDup (d_name <$> files demo_dir).
Proof. vm_compute. repeat constructor; set_solver. Qed.

Lemma cat_prints_host_file_witness :
  exists img fs k k', ev (fun fuel => main (fun k => (sweep k).1) fuel demo_dir) img /\
    KissFS.initFromMemoryAddress (fbyte img) 0 (flen img) = Some fs /\
    Kernel.boot fs (Some [98; 98]) [] = Some k /\
    UserProgs.ends (fun fuel => UserProgs.cat fuel (replicate 1024 0)) k 0 k' /\
    Kernel.shows_text (Kernel.world k') (replicate 5000 9).
Proof.
  destruct (cat_prints_host_file (fun k => (sweep k).1) demo_dir sweep_fair demo_ok
    ltac:(vm_compute; congruence) demo_data demo_names (replicate 1024 0)
    (mk_host [98; 98] 0x8000 5000 (replicate 5000 9) None (fun _ : Z => 7))) as (img & Hev & Hi).
  - right. left.
  - split_and!; [repeat constructor; lia|done|done|by vm_compute|by intros [r [=]]].
  - apply Forall_replicate. done.
  - vm_compute. reflexivity.
  - destruct (Hi (fbyte img) 0 (flen img)) as (fs & k & k' & Hfs & Hb & He & Hs); [done|lia|].
    exists img, fs, k, k'. split; [exact Hev|]. split; [exact Hfs|]. split; [exact Hb|]. split; [exact He|exact Hs].
Defined.

Lemma ls_lists_host_files_witness :
  exists img fs k k', ev (fun fuel => main (fun k => (sweep k).1) fuel demo_dir) img /\
    KissFS.initFromMemoryAddress (fbyte img) 0 (flen img) = Some fs /\
    Kernel.boot fs None [] = Some k /\
    UserProgs.ends (fun fuel => UserProgs.ls fuel (replicate 33 0)) k 0 k' /\
    Kernel.shows_text (Kernel.world k') [46; 10; 97; 10; 98; 98; 10].
Proof.
  destruct (ls_lists_host_files (fun k => (sweep k).1) demo_dir sweep_fair demo_ok
    ltac:(vm_compute; congruence) demo_data demo_names None (replicate 33 0)) as (img & Hev & Hi).
  - vm_compute. reflexivity.
  - destruct (Hi (fbyte img) 0 (flen img)) as (fs & k & k' & Hfs & Hb & He & Hs); [done|lia|].
    exists img, fs, k, k'. split; [exact Hev|]. split; [exact Hfs|]. split; [exact Hb|]. split; [exact He|exact Hs].
Defined.

(** A directory with one executable, [x], and the pages of a small machine. *)
Definition elf_host : host_file :=
  mk_host [120] 0x8000 (alen (converted ElfConvert.demo_elf)) (converted ElfConvert.demo_elf) None (fun _ => 7).
Definition small_phys : PhysPages.t :=
  foldr (fun p st => PhysPages.add_page PhysPages.physPages_n p st) (PhysPages.init PhysPages.physPages_n) [4; 5; 6; 7].

Lemma elf_host_ok : file_ok elf_host.
Proof.
  assert (Hl : alen (converted ElfConvert.demo_elf) = 4112) by (vm_compute; reflexivity).
  split_and!; [vm_compute; reflexivity|reflexivity|cbn [contents elf_host]; lia|reflexivity|repeat constructor; lia|
    vm_compute; congruence|vm_compute; congruence|discriminate].
Qed.

Lemma elf_files : files [elf_host] = [elf_host].
Proof. unfold files. rewrite filter_cons_True by (vm_compute; reflexivity). reflexivity. Qed.
Lemma elf_dir_ok : Forall (fun h => file_ok h \/ skipped h) [elf_host].
Proof. constructor; [left; exact elf_host_ok|constructor]. Qed.
Lemma elf_few : alen (files [elf_host]) <= 32.
Proof. rewrite elf_files. unfold alen. simpl. lia. Qed.
Lemma elf_data : Exists (fun h => contents h <> []) (files [elf_host]).
Proof.
  rewrite elf_files. constructor. cbn [contents elf_host]. intros E.
  assert (Hl : alen (converted ElfConvert.demo_elf) = 4112) by (vm_compute; reflexivity). rewrite E in Hl. discriminate Hl.
Qed.
Lemma elf_names : NoDup (d_name <$> files [elf_host]).
Proof. rewrite elf_files. apply list.NoDup_singleton. Qed.
Lemma elf_in : elf_host ∈ files [elf_host].
Proof. rewrite elf_files. left. Qed.

Lemma exec_runs_converted_elf_witness : exists img fs k ch ph',
  KissFS.initFromMemoryAddress (fbyte img) 0 (flen img) = Some fs /\ Kernel.boot fs None [] = Some k /\
  Loader.do_exec 0x800000 0x202 (fun _ => 170) small_phys k [120; 32; 32; 97] = Some (Loader.Child ch, ph', k) /\
  Loader.arg ch = Some [97] /\ Loader.code_mem ch 0x8049002 = 3 /\ Loader.code_mem ch 0x8049009 = 0 /\
  (Loader.kstack ch).2 !! 8%nat = Some 0x8049000.
Proof.
  destruct (PhysPages.allocPage PhysPages.physPages_n small_phys false) as [r ph'] eqn:Ep.
  assert (Er : r = Some 4) by (apply (f_equal fst) in Ep; vm_compute in Ep; symmetry; exact Ep). subst r.
  destruct (exec_runs_converted_elf (fun k => (sweep k).1) [elf_host] sweep_fair elf_dir_ok elf_few elf_data elf_names
    None elf_host ElfConvert.demo_elf (2 ^ 31 - 1) (fun _ => [170]) [97] 0x800000 0x202 (fun _ => 170) small_phys ph' 4 [120; 32; 32; 97])
    as (img & _ & Hi); [exact ElfConvert.demo_elf_ok|vm_compute; reflexivity|vm_compute; congruence| | | |exact elf_in| | | |exact Ep|].
  - unfold has_header_segment. rewrite ElfConvert.demo_elf_segments. eexists. split; [left|]. split_and!; vm_compute; congruence.
  - rewrite ElfConvert.demo_elf_segments. repeat constructor; vm_compute; congruence.
  - intros f Ef. rewrite (ElfConvert.elf_main_spec _ _ _ _ ElfConvert.demo_elf_ok) in Ef; [|vm_compute; reflexivity|vm_compute; congruence].
    exact (f_equal (fun r => match r with ElfConvert.Done g => ElfConvert.bytes g | _ => [] end) Ef).
  - split_and!; [repeat constructor; lia|discriminate|vm_compute; reflexivity|vm_compute; congruence|intros [x Hx]; discriminate Hx].
  - repeat constructor; discriminate.
  - reflexivity.
  - destruct (Hi (fbyte img) 0 (flen img)) as (fs & k & ch & Hfs & Hb & Ex & Ha & [Hc Hst]); [done|lia|].
    rewrite ElfConvert.demo_elf_segments in Hc.
    specialize (Hc _ 2 (list_elem_of_further _ _ _ (list_elem_of_here _ _)) ltac:(vm_compute; intuition congruence)) as H2.
    specialize (Hc _ 9 (list_elem_of_further _ _ _ (list_elem_of_here _ _)) ltac:(vm_compute; intuition congruence)) as H9.
    exists img, fs, k, ch, ph'. split; [exact Hfs|]. split; [exact Hb|]. split; [exact Ex|]. split; [exact Ha|].
    split; [exact H2|]. split; [exact H9|exact Hst].
Defined.
End EndToEnd.
