(* ===== verification/Sched.v ===== *)
(** * Processes and the round-robin scheduler (student-distrib/proc/tasks.cpp, sched.cpp)

    The process table, the run queue and the handlers that change them. A thread is
    named by the pid of its process (a process has one thread, made by its
    constructor); a freed process object keeps its contents, as the kernel allocator
    leaves them. The run queue is the [Deque] of Deque.v. [None] is a fault, a kernel
    panic or a loop that does not end. *)
From stdpp Require Import prelude list gmap numbers.
From Stdlib Require Import ZArith Lia.
From S2P Require Import Prelude Deque.

Module Sched.

Definition MAX_NUM_PROCESS : Z := 256.
Inductive ProcessType := KERNEL_PROCESS | USER_PROCESS.
Inductive ThreadState := New | Running | Waiting | Terminated.
#[global] Instance ThreadState_eq : EqDecision ThreadState.
Proof. solve_decision. Defined.

(** [ProcessDesc] with its thread's [thread_pcb]; [eax] is the saved register at
    [esp0], which [getRegs] reaches. *)
Record proc := mk_proc {
  type : ProcessType; runState : ThreadState; execParent : option Z; execChild : option Z;
  currTerm : option Z; esp0 : Z; eax : Z }.

Definition set_runState (p : proc) (r : ThreadState) : proc :=
  mk_proc (type p) r (execParent p) (execChild p) (currTerm p) (esp0 p) (eax p).
Definition set_execChild (p : proc) (c : Z) : proc :=
  mk_proc (type p) (runState p) (execParent p) (Some c) (currTerm p) (esp0 p) (eax p).
Definition set_currTerm (p : proc) (t : option Z) : proc :=
  mk_proc (type p) (runState p) (execParent p) (execChild p) t (esp0 p) (eax p).
Definition set_esp0 (p : proc) (e : Z) : proc :=
  mk_proc (type p) (runState p) (execParent p) (execChild p) (currTerm p) e (eax p).
Definition set_eax (p : proc) (r : Z) : proc :=
  mk_proc (type p) (runState p) (execParent p) (execChild p) (currTerm p) (esp0 p) r.

(** [objs] are the process objects, freed ones included; [all_processes] the table of
    pointers; [owner] is [OwnedByPid] of the terminals; [current] is the thread whose
    kernel stack is in use and [loadedMap] the process whose memory map was loaded. *)
Record t := mk {
  objs : gmap Z proc;
  all_processes : list (option Z);
  nextNewProcess : Z;
  rrQueue : Deque.t Z;
  wantToSwitchTo : Z;
  currentlyRunning : Z;
  num_nest_int : Z;
  isFallbackTerm : bool;
  owner : gmap Z Z;
  current : Z;
  loadedMap : Z;
  tss_esp0 : Z }.

Definition set_objs (s : t) (o : gmap Z proc) : t :=
  mk o (all_processes s) (nextNewProcess s) (rrQueue s) (wantToSwitchTo s) (currentlyRunning s)
     (num_nest_int s) (isFallbackTerm s) (owner s) (current s) (loadedMap s) (tss_esp0 s).
Definition set_table (s : t) (o : gmap Z proc) (a : list (option Z)) (n : Z) : t :=
  mk o a n (rrQueue s) (wantToSwitchTo s) (currentlyRunning s)
     (num_nest_int s) (isFallbackTerm s) (owner s) (current s) (loadedMap s) (tss_esp0 s).
Definition set_queue (s : t) (q : Deque.t Z) : t :=
  mk (objs s) (all_processes s) (nextNewProcess s) q (wantToSwitchTo s) (currentlyRunning s)
     (num_nest_int s) (isFallbackTerm s) (owner s) (current s) (loadedMap s) (tss_esp0 s).
Definition set_want (s : t) (w : Z) : t :=
  mk (objs s) (all_processes s) (nextNewProcess s) (rrQueue s) w (currentlyRunning s)
     (num_nest_int s) (isFallbackTerm s) (owner s) (current s) (loadedMap s) (tss_esp0 s).
Definition set_nest (s : t) (n : Z) : t :=
  mk (objs s) (all_processes s) (nextNewProcess s) (rrQueue s) (wantToSwitchTo s) (currentlyRunning s)
     n (isFallbackTerm s) (owner s) (current s) (loadedMap s) (tss_esp0 s).
Definition set_owner (s : t) (term pid : Z) : t :=
  mk (objs s) (all_processes s) (nextNewProcess s) (rrQueue s) (wantToSwitchTo s) (currentlyRunning s)
     (num_nest_int s) (isFallbackTerm s) (<[term := pid]> (owner s)) (current s) (loadedMap s) (tss_esp0 s).
Definition set_tss (s : t) (e : Z) : t :=
  mk (objs s) (all_processes s) (nextNewProcess s) (rrQueue s) (wantToSwitchTo s) (currentlyRunning s)
     (num_nest_int s) (isFallbackTerm s) (owner s) (current s) (loadedMap s) e.

(** [f] on the object [p]. *)
Definition upd (s : t) (p : Z) (f : proc -> proc) : option t :=
  o ← objs s !! p; Some (set_objs s (<[p := f o]> (objs s))).

(** ** tasks.cpp *)

(** [ProcessDesc::get]: the pointer in the table, which must not be null. *)
Definition get (s : t) (pid : Z) : option Z := mjoin (anth (all_processes s) pid).

(** [ProcessDesc::has]. *)
Definition has (s : t) (pid : Z) : option bool :=
  e ← anth (all_processes s) pid; Some (bool_decide (e <> None)).

(** [ProcessDesc::newProcess]; the constructor leaves [currTerm] unset. *)
Definition newProcess (s : t) (parentPID : Z) (ty : ProcessType) : option (Z * t) :=
  let pid := nextNewProcess s in
  parentInfo ← (if 0 <=? parentPID then p ← get s parentPID; Some (Some p) else Some None);
  let o := <[pid := mk_proc ty New parentInfo None None 0 0]> (objs s) in
  o ← match parentInfo with
      | Some p => pp ← o !! p; Some (<[p := set_execChild pp pid]> o)
      | None => Some o
      end;
  e ← anth (all_processes s) pid;
  let a := match e with None => <[Z.to_nat pid := Some pid]> (all_processes s) | Some _ => all_processes s end in
  Some (pid, set_table s o a (nextNewProcess s + 1)).

(** [ProcessDesc::remove]; the destructor's work on memory and files is elsewhere. *)
Definition remove (s : t) (pid : Z) : option t :=
  e ← anth (all_processes s) pid;
  match e with
  | Some _ => Some (set_table s (objs s) (<[Z.to_nat pid := None]> (all_processes s)) (nextNewProcess s))
  | None => Some s
  end.

(** ** sched.cpp *)

Section sched.
(** The address [&storage + THREAD_KSTACK_SIZE - 4] of a thread, and the stack
    pointer of a fresh thread, below the frame that starts it. *)
Variables (stack_top new_frame : Z -> Z).

Definition init : t :=
  mk ∅ (replicate (Z.to_nat MAX_NUM_PROCESS) None) 1 Deque.init (-1) (-1) 0 true ∅ 0 0 0.

Definition attachThread (s : t) (p : Z) (newState : ThreadState) : option t :=
  s ← upd s p (fun o => set_runState o newState);
  q ← Deque.push_back (rrQueue s) p;
  Some (set_queue s q).

(** [*(rrQueue->front())]. *)
Definition queue_front (s : t) : option Z := mjoin (Deque.front (rrQueue s)).
Definition rotate (s : t) (next : Z) : option t :=
  q ← Deque.pop_front (rrQueue s);
  q ← Deque.push_back q next;
  Some (set_queue s q).

Fixpoint decision_loop (fuel : nat) (s : t) (next : Z) : option (Z * t) :=
  match fuel with
  | O => None
  | S fuel =>
      o ← objs s !! next;
      if decide (runState o = Running) then Some (next, s)
      else
        s ← rotate s next;
        next ← queue_front s;
        decision_loop fuel s next
  end.

(** Enough for one round of the queue. *)
Definition fuel_of (s : t) : nat := S (Z.to_nat (Deque.size (rrQueue s))).

Definition makeDecisionNoLock (fuel : nat) (s : t) : option t :=
  if Deque.empty (rrQueue s) then Some s
  else
    next ← queue_front s;
    '(next, s) ← decision_loop fuel s next;
    let s := set_want s next in
    rotate s next.
Definition makeDecision (s : t) : option t := makeDecisionNoLock (fuel_of s) s.

Definition newDetachedProcess (s : t) (parentPID : Z) (ty : ProcessType) : option (Z * t) :=
  '(pid, s) ← newProcess s parentPID ty;
  term ← (if isFallbackTerm s then Some (Some 0)
          else p ← get s parentPID; o ← objs s !! p; Some (currTerm o));
  s ← upd s pid (fun o => set_currTerm o term);
  Some (pid, s).

Definition prepareSwitchTo (s : t) (pid : Z) : t := set_want s pid.

(** [makeKThread], with the start frame on the new stack. *)
Definition makeKThread (s : t) : option (Z * t) :=
  '(pid, s) ← newDetachedProcess s (-1) KERNEL_PROCESS;
  s ← upd s pid (fun o => set_esp0 o (new_frame pid));
  Some (pid, s).

Definition forceStartThread (s : t) (p : Z) : option t :=
  o ← objs s !! p;
  s ← upd (set_tss s (esp0 o)) p (fun o => set_runState o Running);
  q ← Deque.push_back (rrQueue s) p;
  let s := set_queue s q in
  Some (mk (objs s) (all_processes s) (nextNewProcess s) (rrQueue s) (wantToSwitchTo s) (currentlyRunning s)
          (num_nest_int s) (isFallbackTerm s) (owner s) p p (tss_esp0 s)).

(** [schedDispatchExecution]: the stack to switch to, or [None] for the null pointer. *)
Definition schedDispatchExecution (s : t) : option (option Z * t) :=
  if 0 <? num_nest_int s then Some (None, s)
  else if wantToSwitchTo s <? 0 then
    s ← upd s (current s) (fun o => set_esp0 o (stack_top (current s)));
    o ← objs s !! current s;
    Some (None, match type o with KERNEL_PROCESS => s | USER_PROCESS => set_tss s (esp0 o) end)
  else if currentlyRunning s =? wantToSwitchTo s then Some (None, s)
  else
    p ← get s (wantToSwitchTo s);
    o ← objs s !! p;
    let ans := esp0 o in
    let o' := match type o with KERNEL_PROCESS => o | USER_PROCESS => set_esp0 o (stack_top p) end in
    Some (Some ans,
      mk (<[p := o']> (objs s)) (all_processes s) (nextNewProcess s) (rrQueue s) (-1) (wantToSwitchTo s)
         (num_nest_int s) (isFallbackTerm s) (owner s) p p (esp0 o')).

Definition schedBackupState (s : t) (currentESP : Z) : option t :=
  if 0 <? num_nest_int s then Some s
  else upd s (current s) (fun o => set_esp0 o currentESP).

Definition block (s : t) (p : Z) : option t :=
  s ← upd s p (fun o => set_runState o Waiting); makeDecision s.
Definition unblock (s : t) (p : Z) : option t := upd s p (fun o => set_runState o Running).

(** [getRegs(thread)->eax = v]: the current thread has no saved registers. *)
Definition set_regs_eax (s : t) (thread : option Z) (v : Z) : option t :=
  p ← thread;
  if p =? current s then None else upd s p (fun o => set_eax o v).

Fixpoint unqueue_loop (fuel : nat) (s : t) (pid : Z) : option t :=
  match fuel with
  | O => None
  | S fuel =>
      f ← queue_front s;
      if f =? pid then q ← Deque.pop_front (rrQueue s); Some (set_queue s q)
      else s ← rotate s f; unqueue_loop fuel s pid
  end.

(** [halt] of process [pid]. *)
Definition halt (s : t) (pid : Z) (retval : Z) : option t :=
  o ← objs s !! pid;
  let prevInfo := execParent o in
  s ← set_regs_eax s prevInfo retval;
  let s := match currTerm o with Some term => set_owner s term (-1) | None => s end in
  s ← remove s pid;
  s ← unqueue_loop (fuel_of s) s pid;
  prev ← prevInfo;
  s ← upd s prev (fun o => set_runState o Running);
  makeDecision s.

(** ** The system calls and interrupts that use them *)

(** [syshalt], the answer first. *)
Definition syshalt (s : t) (retval : Z) : option (Z * t) :=
  o ← objs s !! current s;
  match execParent o with
  | None => Some (-1, s)
  | Some _ => s ← halt s (current s) retval; Some (retval, s)
  end.

(** [do_exec] of an executable that loads: the new process. *)
Definition child_process (s : t) : option (Z * t) :=
  newDetachedProcess s (current s) USER_PROCESS.
(** The registers on its kernel stack. *)
Definition child_stack (s : t) (child : Z) : option t :=
  upd s child (fun o => set_esp0 o (new_frame child)).
(** The terminal goes to the child if the caller may give it away. *)
Definition give_terminal (s : t) (child : Z) : option t :=
  o ← objs s !! current s;
  let term := currTerm o in
  s ← upd s child (fun o => set_currTerm o term);
  Some (match term with
        | Some tm => if decide (owner s !! tm = Some (-1) \/ owner s !! tm = Some (current s))
                     then set_owner s tm child else s
        | None => s
        end).

Definition sysexec (s : t) : option (Z * t) :=
  '(child, s) ← child_process s;
  s ← child_stack s child;
  s ← give_terminal s child;
  s ← attachThread s child Running;
  s ← block s (current s);
  Some (0, s).

(** [dotask]: the thread of an existing process is put at the end of the run queue. *)
Definition dotask (s : t) (pid : Z) : option (Z * t) :=
  h ← has s pid;
  if (h : bool) then
    p ← get s pid;
    s ← attachThread s p Running;
    s ← makeDecision s;
    Some (0, s)
  else Some (-1, s).

(** [thread_kinfo::copy]: the whole stack is copied, the saved stack pointer relocated. *)
Definition copy_thread (this other : Z) (o oo : proc) : proc :=
  mk_proc (type oo) (runState oo) (execParent oo) (execChild oo) (currTerm o)
    (esp0 oo - stack_top other + stack_top this) (eax oo).

(** [fork]; the memory map it copies is elsewhere. *)
Definition fork (s : t) : option (Z * t) :=
  me ← objs s !! current s;
  '(child, s) ← newDetachedProcess s (-1) (type me);
  me ← objs s !! current s;
  s ← upd s child (fun o => copy_thread child (current s) o me);
  s ← set_regs_eax s (Some child) 0;
  s ← attachThread s child Running;
  Some (1, s).

(** What happens while a thread runs: it executes a program, halts (also by the calls
    SYS_SET_HANDLER and SYS_SIGRETURN, which lead to [syshalt]), waits for input, calls
    [dotask] or [fork], or makes one of the other calls, which leave the scheduler alone
    and answer [r]; a key wakes a waiting reader with the length of its line; the timer
    ticks. *)
Inductive event := Exec | Halt (retval : Z) | WaitKey | Dotask (pid : Z) | Fork | Other (r : Z)
  | Wake (p : Z) (n : Z) | Tick.

(** The handler, with the value a system call leaves in the caller's [eax]. *)
Definition handler (e : event) (s : t) : option (option Z * t) :=
  match e with
  | Exec => '(r, s) ← sysexec s; Some (Some r, s)
  | Halt v => '(r, s) ← syshalt s v; Some (Some r, s)
  | WaitKey => s ← block s (current s); Some (Some 0, s)
  | Dotask pid => '(r, s) ← dotask s pid; Some (Some r, s)
  | Fork => '(r, s) ← fork s; Some (Some r, s)
  | Other r => Some (Some r, s)
  | Wake p n => s ← set_regs_eax s (Some p) n; s ← unblock s p; Some (None, s)
  | Tick => s ← makeDecision s; Some (None, s)
  end.

(** An outermost interrupt: [schedBackupState], the handler one level deeper, the
    answer into the saved [eax], [schedDispatchExecution]. *)
Definition interrupt (esp : Z) (e : event) (s : t) : option t :=
  s ← schedBackupState s esp;
  let caller := current s in
  '(r, s) ← handler e (set_nest s (num_nest_int s + 1));
  let s := set_nest s (num_nest_int s - 1) in
  s ← match r with Some v => upd s caller (fun o => set_eax o v) | None => Some s end;
  '(_, s) ← schedDispatchExecution s;
  Some s.

(** [init_main]: a launcher thread for a terminal (or none), and the end of the boot. *)
Definition launch (term : option Z) (s : t) : option t :=
  '(p, s) ← makeKThread s;
  s ← upd s p (fun o => set_currTerm o term);
  let s := match term with Some tm => set_owner s tm p | None => s end in
  attachThread s p Running.
Definition booted (s : t) : t :=
  mk (objs s) (all_processes s) (nextNewProcess s) (rrQueue s) (wantToSwitchTo s) (currentlyRunning s)
     (num_nest_int s) false (owner s) (current s) (loadedMap s) (tss_esp0 s).

(** The idle process is made and started ([entry] in kernel.cpp). *)
Definition start : option t := '(p, s) ← makeKThread init; forceStartThread s p.

(** ** The queue *)

Lemma set_queue_same s : set_queue s (rrQueue s) = s.
Proof. by destruct s. Qed.

Lemma rotate_spec s x q : Deque.rep (rrQueue s) (x :: q) ->
  exists d, rotate s x = Some (set_queue s d) /\ Deque.rep d (q ++ [x]).
Proof.
  intros R. pose proof (Deque.rep_small _ _ (proj1 R)) as Hm.
  destruct (Deque.pop_front_spec _ _ _ R) as (d1 & E1 & R1). unfold rotate. rewrite E1. cbn [mbind option_bind].
  destruct (Deque.push_back_spec d1 q x R1) as (d2 & E2 & R2); [unfold alen in *; simpl in Hm; lia|].
  rewrite E2. cbn [mbind option_bind]. by exists d2.
Qed.

Lemma queue_front_spec s q : Deque.rep (rrQueue s) q -> queue_front s = head q.
Proof. intros R. unfold queue_front. by rewrite (Deque.front_spec _ _ R). Qed.

(** [p] is a thread in state [r]. *)
Definition in_state (o : gmap Z proc) (r : ThreadState) (p : Z) : Prop :=
  exists x, o !! p = Some x /\ runState x = r.
Definition idle_state (o : gmap Z proc) (p : Z) : Prop := exists x, o !! p = Some x /\ runState x <> Running.

Lemma decision_loop_spec x : forall pre post s fuel,
  Deque.rep (rrQueue s) (pre ++ x :: post) -> Forall (idle_state (objs s)) pre -> in_state (objs s) Running x ->
  (length pre < fuel)%nat ->
  exists d, decision_loop fuel s (hd x pre) = Some (x, set_queue s d) /\ Deque.rep d (x :: post ++ pre).
Proof.
  induction pre as [|p pre IH]; intros post s fuel R Hp (ox & Hx & Hr) Hf; destruct fuel as [|fuel]; try (simpl in Hf; lia).
  - cbn [decision_loop hd]. rewrite Hx. cbn [mbind option_bind]. rewrite decide_True by done.
    exists (rrQueue s). rewrite set_queue_same, app_nil_r. by split.
  - apply list.Forall_cons in Hp as [(o & Ho & Hn) Hp]. cbn [decision_loop hd]. rewrite Ho. cbn [mbind option_bind].
    rewrite decide_False by done. destruct (rotate_spec s p _ R) as (d & Ed & Rd). rewrite Ed. cbn [mbind option_bind].
    rewrite <- app_assoc in Rd. cbn [app] in Rd. rewrite (queue_front_spec (set_queue s d) _ Rd).
    assert (Hh : head (pre ++ x :: post ++ [p]) = Some (hd x pre)) by (by destruct pre).
    rewrite Hh. cbn [mbind option_bind].
    destruct (IH (post ++ [p]) (set_queue s d) fuel Rd Hp) as (d' & E' & R'); [by exists ox|simpl in Hf; lia|].
    exists d'. split; [exact E'|]. by rewrite <- app_assoc in R'.
Qed.

(** Nobody to run: the loop goes round for ever, under the lock. *)
Lemma decision_loop_diverges fuel : forall s q x,
  Deque.rep (rrQueue s) (x :: q) -> Forall (idle_state (objs s)) (x :: q) -> decision_loop fuel s x = None.
Proof.
  induction fuel as [|fuel IH]; intros s q x R Hq; [done|]. pose proof Hq as Hq'.
  apply list.Forall_cons in Hq' as [(o & Ho & Hn) Hq']. cbn [decision_loop]. rewrite Ho. cbn [mbind option_bind].
  rewrite decide_False by done. destruct (rotate_spec s x _ R) as (d & -> & Rd). cbn [mbind option_bind].
  rewrite (queue_front_spec (set_queue s d) _ Rd). destruct q as [|y q]; cbn [app head mbind option_bind].
  - by apply (IH (set_queue s d) []).
  - apply (IH (set_queue s d) (q ++ [x])); [done|]. apply list.Forall_cons. apply list.Forall_cons in Hq' as [Hy Hq'].
    split; [done|]. apply list.Forall_app. split; [done|]. apply list.Forall_cons in Hq as [Hx _]. by constructor.
Qed.

Lemma makeDecision_spec s pre x post :
  Deque.rep (rrQueue s) (pre ++ x :: post) -> Forall (idle_state (objs s)) pre -> in_state (objs s) Running x ->
  exists d, makeDecision s = Some (set_want (set_queue s d) x) /\ Deque.rep d (post ++ pre ++ [x]).
Proof.
  intros R Hp Hx. unfold makeDecision, makeDecisionNoLock, fuel_of, Deque.empty, Deque.size.
  rewrite (Deque.rep_size _ _ (proj1 R)). rewrite (proj2 (Z.eqb_neq _ 0)) by (unfold alen; rewrite length_app; simpl; lia).
  rewrite (queue_front_spec s _ R). assert (Hh : head (pre ++ x :: post) = Some (hd x pre)) by (by destruct pre).
  rewrite Hh. cbn [mbind option_bind].
  destruct (decision_loop_spec x pre post s (S (Z.to_nat (alen (pre ++ x :: post)))) R Hp Hx) as (d & -> & Rd);
    [unfold alen; rewrite length_app; simpl; lia|]. cbn [mbind option_bind]. cbv zeta.
  destruct (rotate_spec (set_want (set_queue s d) x) x (post ++ pre) Rd) as (d' & -> & Rd').
  exists d'. split; [done|]. by rewrite <- app_assoc in Rd'.
Qed.

(** Some thread of the queue can run: the first of them is chosen. *)
Lemma first_running o q : Exists (in_state o Running) q -> Forall (fun p => is_Some (o !! p)) q ->
  exists pre x post, q = pre ++ x :: post /\ Forall (idle_state o) pre /\ in_state o Running x.
Proof.
  induction q as [|p q IH]; intros He Ho; [by inversion He|].
  apply list.Forall_cons in Ho as [[op Hop] Ho]. destruct (decide (runState op = Running)) as [E|E].
  - exists [], p, q. split; [done|]. split; [constructor|]. by exists op.
  - inversion_clear He as [? ? (y & Hy & Er)|? ? He']; [congruence|].
    destruct (IH He' Ho) as (pre & x & post & -> & Hp & Hx). exists (p :: pre), x, post.
    split; [done|]. split; [|done]. constructor; [|done]. by exists op.
Qed.

Lemma unqueue_spec x : forall pre post s fuel,
  Deque.rep (rrQueue s) (pre ++ x :: post) -> x ∉ pre -> (length pre < fuel)%nat ->
  exists d, unqueue_loop fuel s x = Some (set_queue s d) /\ Deque.rep d (post ++ pre).
Proof.
  induction pre as [|p pre IH]; intros post s fuel R Hx Hf; destruct fuel as [|fuel]; try (simpl in Hf; lia);
    cbn [unqueue_loop]; rewrite (queue_front_spec s _ R); cbn [app head mbind option_bind].
  - rewrite Z.eqb_refl. destruct (Deque.pop_front_spec _ _ _ R) as (d & -> & Rd). cbn [mbind option_bind].
    exists d. split; [done|]. by rewrite app_nil_r.
  - apply not_elem_of_cons in Hx as [Hne Hx]. rewrite (proj2 (Z.eqb_neq p x)) by done.
    destruct (rotate_spec s p _ R) as (d & -> & Rd). cbn [mbind option_bind]. rewrite <- app_assoc in Rd.
    destruct (IH (post ++ [p]) (set_queue s d) fuel Rd Hx ltac:(simpl in Hf; lia)) as (d' & -> & R').
    exists d'. split; [done|]. by rewrite <- app_assoc in R'.
Qed.

(** ** The invariant *)

(** The table, the objects and the queue [q]: the queue holds exactly the processes of
    the table, each once; who waits for a program it executes is waiting, and for one
    only; the idle process can always run. *)
Record tinv (o : gmap Z proc) (a : list (option Z)) (n : Z) (d : Deque.t Z) (q : list Z) : Prop := {
  ti_queue : Deque.rep d q;
  ti_nodup : NoDup q;
  ti_len : alen a = MAX_NUM_PROCESS;
  ti_next : 1 < n <= MAX_NUM_PROCESS;
  ti_table p : 0 <= p < MAX_NUM_PROCESS -> a !! Z.to_nat p = Some (if decide (p ∈ q) then Some p else None);
  ti_range p : p ∈ q -> 0 < p < n;
  ti_obj p : p ∈ q -> is_Some (o !! p);
  ti_parent p x r : p ∈ q -> o !! p = Some x -> execParent x = Some r -> r ∈ q /\ r <> p /\ in_state o Waiting r;
  ti_unique p1 p2 x1 x2 r : p1 ∈ q -> p2 ∈ q -> o !! p1 = Some x1 -> o !! p2 = Some x2 ->
    execParent x1 = Some r -> execParent x2 = Some r -> p1 = p2;
  ti_idle : 1 ∈ q /\ in_state o Running 1 }.

Notation tables s q := (tinv (objs s) (all_processes s) (nextNewProcess s) (rrQueue s) q).

(** Between interrupts, and between a handler and the dispatch. *)
Record core (s : t) (q : list Z) : Prop := {
  co_tables : tables s q;
  co_running : currentlyRunning s = -1 \/ currentlyRunning s = current s;
  co_map : loadedMap s = current s;
  co_obj : is_Some (objs s !! current s) }.
Definition chosen (s : t) (q : list Z) (p : Z) : Prop := p ∈ q /\ in_state (objs s) Running p.
Record inv (s : t) (q : list Z) : Prop := {
  iv_core : core s q;
  iv_current : chosen s q (current s);
  iv_want : wantToSwitchTo s < 0 \/ wantToSwitchTo s = currentlyRunning s }.
Definition selected (s : t) (q : list Z) : Prop :=
  chosen s q (wantToSwitchTo s) \/ (wantToSwitchTo s < 0 /\ chosen s q (current s)).

(** The same states and parents. *)
Definition similar (o o' : gmap Z proc) : Prop :=
  forall p x, o !! p = Some x -> exists x', o' !! p = Some x' /\ runState x' = runState x /\ execParent x' = execParent x.

Lemma similar_insert o p x x' : o !! p = Some x -> runState x' = runState x -> execParent x' = execParent x ->
  similar o (<[p := x']> o).
Proof.
  intros Hp Hr He p2 y Hy. destruct (decide (p2 = p)) as [->|Hne].
  - exists x'. rewrite lookup_insert_eq. assert (y = x) as -> by congruence. done.
  - exists y. by rewrite lookup_insert_ne.
Qed.

Lemma similar_state o o' r p : similar o o' -> in_state o r p -> in_state o' r p.
Proof. intros H (x & Hx & Hr). destruct (H p x Hx) as (x' & Hx' & E & _). exists x'. split; [done|congruence]. Qed.

Lemma similar_back o o' p x' : similar o o' -> is_Some (o !! p) -> o' !! p = Some x' ->
  exists x, o !! p = Some x /\ runState x' = runState x /\ execParent x' = execParent x.
Proof. intros H [x Hx] Hx'. destruct (H p x Hx) as (x2 & Hx2 & E). assert (x2 = x') as -> by congruence. by exists x. Qed.

Lemma tinv_similar o o' a n d q : tinv o a n d q -> similar o o' -> tinv o' a n d q.
Proof.
  intros T H. pose proof T as [Q N L B Tb R O P U I]. split; try done.
  - intros p Hp. destruct (O p Hp) as [x Hx]. destruct (H p x Hx) as (x' & Hx' & _). by exists x'.
  - intros p x' r Hp Hx' Hr. destruct (similar_back _ _ p x' H (O p Hp) Hx') as (x & Hx & _ & Ee).
    destruct (P p x r Hp Hx) as (Hrq & Hne & Hw); [congruence|]. split; [done|]. split; [done|]. by eapply similar_state.
  - intros p1 p2 y1 y2 r H1 H2 E1 E2 R1 R2.
    destruct (similar_back _ _ p1 y1 H (O p1 H1) E1) as (x1 & Hx1 & _ & Ee1).
    destruct (similar_back _ _ p2 y2 H (O p2 H2) E2) as (x2 & Hx2 & _ & Ee2).
    apply (U p1 p2 x1 x2 r); congruence.
  - split; [apply I|]. eapply similar_state; [done|apply I].
Qed.

Lemma tinv_perm o a n d d' q q' : tinv o a n d q -> Deque.rep d' q' -> q' ≡ₚ q -> tinv o a n d' q'.
Proof.
  intros [Q N L B Tb R O P U I] R' Hq. assert (Hin : forall p, p ∈ q' <-> p ∈ q) by (intros; by rewrite Hq).
  split; try done.
  - by rewrite Hq.
  - intros p Hp. rewrite (Tb p Hp). repeat case_decide; rewrite ?Hin in *; done.
  - intros p Hp%Hin. by apply R.
  - intros p Hp%Hin. by apply O.
  - intros p x r Hp%Hin Hx Hr. destruct (P p x r Hp Hx Hr) as (H1 & H2). by rewrite Hin.
  - intros p1 p2 x1 x2 r H1%Hin H2%Hin. by apply U.
  - by rewrite Hin.
Qed.

Lemma upd_spec s p f x : objs s !! p = Some x -> upd s p f = Some (set_objs s (<[p := f x]> (objs s))).
Proof. intros H. unfold upd. by rewrite H. Qed.

(** A change of a process that leaves its state and parent. *)
Lemma core_upd s q p f x : core s q -> objs s !! p = Some x -> runState (f x) = runState x ->
  execParent (f x) = execParent x -> core (set_objs s (<[p := f x]> (objs s))) q.
Proof.
  intros [T R M O] Hp Hr He. pose proof (similar_insert (objs s) p x (f x) Hp Hr He) as H. split; try done.
  - by eapply tinv_similar.
  - cbn. destruct O as [y Hy]. destruct (H _ y Hy) as (y' & Hy' & _). by exists y'.
Qed.

Lemma chosen_upd s q p f x p2 : objs s !! p = Some x -> runState (f x) = runState x ->
  execParent (f x) = execParent x -> chosen s q p2 -> chosen (set_objs s (<[p := f x]> (objs s))) q p2.
Proof.
  intros Hp Hr He [Hin Hs]. split; [done|]. eapply similar_state; [|exact Hs]. by eapply similar_insert.
Qed.

Lemma selected_upd s q p f x : objs s !! p = Some x -> runState (f x) = runState x ->
  execParent (f x) = execParent x -> selected s q -> selected (set_objs s (<[p := f x]> (objs s))) q.
Proof. intros Hp Hr He [H|[Hw H]]; [left|right; split; [done|]]; by eapply chosen_upd. Qed.

Lemma live_get s q p : tables s q -> p ∈ q -> get s p = Some p.
Proof.
  intros T Hp. pose proof (ti_range _ _ _ _ _ T p Hp). pose proof (ti_next _ _ _ _ _ T). unfold get, anth.
  rewrite (proj2 (Z.leb_le 0 p)) by lia. rewrite (ti_table _ _ _ _ _ T p) by lia. by rewrite decide_True.
Qed.

(** Any decision from good tables chooses a live thread that can run. *)
Lemma makeDecision_tables s q : tables s q ->
  exists d q' x, makeDecision s = Some (set_want (set_queue s d) x) /\ q' ≡ₚ q /\
    tinv (objs s) (all_processes s) (nextNewProcess s) d q' /\ x ∈ q' /\ in_state (objs s) Running x.
Proof.
  intros T. pose proof T as [Q N L B Tb R O P U [I1 I2]].
  destruct (first_running (objs s) q) as (pre & x & post & -> & Hp & Hx).
  - apply List.Exists_exists. exists 1. split; [by apply list_elem_of_In|done].
  - apply list.Forall_forall. done.
  - destruct (makeDecision_spec s pre x post Q Hp Hx) as (d & E & Rd).
    exists d, (post ++ pre ++ [x]), x. split; [done|].
    assert (Hperm : post ++ pre ++ [x] ≡ₚ pre ++ x :: post) by solve_Permutation.
    split; [done|]. split; [by eapply tinv_perm|]. split; [|done]. rewrite !elem_of_app, elem_of_cons. auto.
Qed.

(** ** The dispatch *)

(** Only saved stack pointers differ. *)
Definition same_but_esp (o o' : gmap Z proc) : Prop :=
  forall p x, o !! p = Some x -> exists e, o' !! p = Some (set_esp0 x e).

Lemma same_but_esp_insert o p x e : o !! p = Some x -> same_but_esp o (<[p := set_esp0 x e]> o).
Proof.
  intros Hp p2 y Hy. destruct (decide (p2 = p)) as [->|Hne].
  - exists e. rewrite lookup_insert_eq. by assert (y = x) as -> by congruence.
  - exists (esp0 y). rewrite lookup_insert_ne by done. rewrite Hy. by destruct y.
Qed.
Lemma same_but_esp_refl o : same_but_esp o o.
Proof. intros p x Hx. exists (esp0 x). rewrite Hx. by destruct x. Qed.
Lemma same_but_esp_similar o o' : same_but_esp o o' -> similar o o'.
Proof. intros H p x Hx. destruct (H p x Hx) as [e He]. eexists. by split. Qed.

(** The dispatch takes the choice. *)
Lemma dispatch_spec s q : core s q -> selected s q -> num_nest_int s = 0 ->
  exists a s', schedDispatchExecution s = Some (a, s') /\ inv s' q /\ num_nest_int s' = 0 /\
    current s' = (if wantToSwitchTo s <? 0 then current s else wantToSwitchTo s) /\
    same_but_esp (objs s) (objs s') /\ all_processes s' = all_processes s /\ nextNewProcess s' = nextNewProcess s.
Proof.
  intros C Hsel Hn. pose proof C as [T R M O]. unfold schedDispatchExecution. rewrite Hn. cbn [Z.ltb Z.compare].
  destruct (Z.ltb_spec (wantToSwitchTo s) 0) as [Hw|Hw].
  - destruct Hsel as [[Hin _]|[_ Hc]]; [pose proof (ti_range _ _ _ _ _ T _ Hin); lia|].
    destruct O as [x Hx]. rewrite (upd_spec s _ _ x Hx). cbn [mbind option_bind objs set_objs].
    rewrite lookup_insert_eq. cbn [mbind option_bind]. eexists _, _. split; [reflexivity|].
    assert (I : inv (set_objs s (<[current s := set_esp0 x (stack_top (current s))]> (objs s))) q).
    { split; [by apply (core_upd _ _ _ (fun o => set_esp0 o (stack_top (current s))))|
        by apply (chosen_upd _ _ _ (fun o => set_esp0 o (stack_top (current s))))|by left]. }
    assert (S : same_but_esp (objs s) (<[current s := set_esp0 x (stack_top (current s))]> (objs s)))
      by by apply same_but_esp_insert.
    destruct (type _); [by split_and!|]. destruct I as [[T' R' M' O'] I2 I3].
    split_and!; done.
  - destruct Hsel as [Hc|[Hw' _]]; [|lia]. destruct (Z.eqb_spec (currentlyRunning s) (wantToSwitchTo s)) as [E|E].
    + eexists _, _. split; [reflexivity|]. assert (Ec : current s = wantToSwitchTo s) by lia.
      split_and!; try done; [|apply same_but_esp_refl]. split; [done|by rewrite Ec|by right].
    + destruct Hc as [Hin Hr]. rewrite (live_get s q) by done. cbn [mbind option_bind].
      destruct Hr as (x & Hx & Er). rewrite Hx. cbn [mbind option_bind]. eexists _, _. split; [reflexivity|].
      set (x' := match type x with KERNEL_PROCESS => x | USER_PROCESS => set_esp0 x (stack_top (wantToSwitchTo s)) end).
      assert (Ex : exists e, x' = set_esp0 x e).
      { unfold x'. destruct (type x); [exists (esp0 x); by destruct x|by eexists]. }
      destruct Ex as [e Ex].
      assert (Hs : same_but_esp (objs s) (<[wantToSwitchTo s := x']> (objs s)))
        by (rewrite Ex; by apply same_but_esp_insert).
      pose proof (same_but_esp_similar _ _ Hs) as Hs'. split_and!; try done. split; cbn.
      * split; cbn; [by eapply tinv_similar|by right|done|rewrite lookup_insert_eq; by eexists].
      * split; [done|]. eapply similar_state; [exact Hs'|]. by exists x.
      * by left.
Qed.

(** ** The handlers *)

(** A decision made while the current thread is alive or has just gone. *)
Lemma decision_core s q : tables s q -> (currentlyRunning s = -1 \/ currentlyRunning s = current s) ->
  loadedMap s = current s -> is_Some (objs s !! current s) ->
  exists s' q', makeDecision s = Some s' /\ q' ≡ₚ q /\ core s' q' /\ selected s' q' /\ objs s' = objs s /\
    current s' = current s /\ num_nest_int s' = num_nest_int s /\ all_processes s' = all_processes s /\ nextNewProcess s' = nextNewProcess s.
Proof.
  intros T R M O. destruct (makeDecision_tables s q T) as (d & q' & x & E & Hp & T' & Hx).
  eexists _, q'. split; [exact E|]. split; [done|]. split; [by split|]. split; [by left|]. done.
Qed.

(** A thread changes its state: the idle one not, and one that waits for a program
    it executes not either. *)
Lemma tinv_state o a n d q c x st : tinv o a n d q -> c ∈ q -> o !! c = Some x ->
  (c = 1 -> st = Running) ->
  (st = Waiting \/ forall p y, p ∈ q -> o !! p = Some y -> execParent y <> Some c) ->
  tinv (<[c := set_runState x st]> o) a n d q.
Proof.
  intros T Hc Hx H1 Hch. pose proof T as [Q N L B Tb R O P U I].
  assert (Hold : forall p y r, <[c := set_runState x st]> o !! p = Some y -> execParent y = Some r ->
    exists y0, o !! p = Some y0 /\ execParent y0 = Some r).
  { intros p y r Hy Hr. destruct (decide (p = c)) as [->|Hne].
    - rewrite lookup_insert_eq in Hy. injection Hy as <-. by exists x.
    - rewrite lookup_insert_ne in Hy by done. by exists y. }
  split; try done.
  - intros p Hp. destruct (decide (p = c)) as [->|Hne]; [rewrite lookup_insert_eq; by eexists|].
    rewrite lookup_insert_ne by done. by apply O.
  - intros p y r Hp Hy Hr. destruct (Hold p y r Hy Hr) as (y0 & Hy0 & Hr0).
    destruct (P p y0 r Hp Hy0 Hr0) as (Hrq & Hne & w & Hw & Ew).
    split; [done|]. split; [done|]. destruct (decide (r = c)) as [->|Hrc].
    + destruct Hch as [->|Hch]; [|by destruct (Hch p y0 Hp Hy0)]. eexists. by rewrite lookup_insert_eq.
    + exists w. by rewrite lookup_insert_ne.
  - intros p1 p2 y1 y2 r Hp1 Hp2 E1 E2 R1 R2.
    destruct (Hold p1 y1 r E1 R1) as (z1 & Hz1 & Hr1), (Hold p2 y2 r E2 R2) as (z2 & Hz2 & Hr2). by apply (U p1 p2 z1 z2 r).
  - destruct I as [I1 (w & Hw & Ew)]. split; [done|]. destruct (decide (c = 1)) as [->|Hne].
    + rewrite H1 by done. eexists. by rewrite lookup_insert_eq.
    + exists w. by rewrite lookup_insert_ne by done.
Qed.

(** Who is running has no program to wait for. *)
Lemma running_no_child s q c p y : tables s q -> in_state (objs s) Running c -> p ∈ q -> objs s !! p = Some y ->
  execParent y <> Some c.
Proof.
  intros T (x & Hx & Ex) Hp Hy Hr. destruct (ti_parent _ _ _ _ _ T p y c Hp Hy Hr) as (_ & _ & w & Hw & Ew). congruence.
Qed.

(** A process leaves. *)
Lemma tinv_remove o a n d d' q q' c : tinv o a n d q -> q ≡ₚ c :: q' -> c <> 1 ->
  (forall p y, p ∈ q -> o !! p = Some y -> execParent y <> Some c) -> Deque.rep d' q' ->
  tinv o (<[Z.to_nat c := None]> a) n d' q'.
Proof.
  intros T Hq H1 Hch Q'. pose proof T as [Q N L B Tb R O P U [I1 I2]].
  assert (Hin : forall p, p ∈ q <-> p = c \/ p ∈ q') by (intros; by rewrite Hq, elem_of_cons).
  assert (N' : NoDup (c :: q')) by by rewrite <- Hq. apply list.NoDup_cons in N' as [Nc N'].
  assert (Hc : 0 < c < n) by (apply R, Hin; by left).
  split; try done.
  - unfold alen in *. by rewrite length_insert.
  - intros p Hp. destruct (decide (p = c)) as [->|Hne].
    + rewrite list_lookup_insert_eq by (unfold alen in L; lia). by rewrite decide_False.
    + rewrite list_lookup_insert_ne by lia. rewrite (Tb p Hp).
      destruct (decide (p ∈ q)) as [H|H], (decide (p ∈ q')) as [H'|H']; try done; rewrite Hin in H; tauto.
  - intros p Hp. apply R, Hin. by right.
  - intros p Hp. apply O, Hin. by right.
  - intros p x r Hp Hx Hr. destruct (P p x r) as (Hrq & Hne & Hw); [apply Hin; by right|done|done|].
    split; [|done]. apply Hin in Hrq as [->|Hrq]; [|done]. destruct (Hch p x); [apply Hin; by right|done|done].
  - intros p1 p2 x1 x2 r H1' H2'. apply U; apply Hin; by right.
  - split; [|done]. apply Hin in I1 as [?|?]; [lia|done].
Qed.

(** A process enters, executed by [c], who waits. *)
Lemma tinv_spawn o o' a n d d' q c xc xc' xn : tinv o a n d q -> c ∈ q -> c <> 1 ->
  o !! c = Some xc -> runState xc = Running -> n < MAX_NUM_PROCESS ->
  o' !! n = Some xn -> execParent xn = Some c ->
  o' !! c = Some xc' -> runState xc' = Waiting -> execParent xc' = execParent xc ->
  (forall p, p <> n -> p <> c -> o' !! p = o !! p) -> Deque.rep d' (q ++ [n]) ->
  tinv o' (<[Z.to_nat n := Some n]> a) (n + 1) d' (q ++ [n]).
Proof.
  intros T Hc H1 Hxc Erun Hn Hxn En Hxc' Ew Ee Hoth Q'. pose proof T as [Q N L B Tb R O P U [I1 (x1 & Hx1 & E1)]].
  assert (Hnq : n ∉ q) by (intros H%R; lia). assert (Hcn : c <> n) by (intros ->; done).
  assert (Hold : forall p, p ∈ q -> exists x x', o !! p = Some x /\ o' !! p = Some x' /\ execParent x' = execParent x /\
    (runState x = Waiting -> runState x' = Waiting)).
  { intros p Hp. destruct (O p Hp) as [x Hx]. destruct (decide (p = c)) as [->|Hpc].
    - exists xc, xc'. done.
    - exists x, x. rewrite Hoth by (intros ->; done). done. }
  assert (Hnochild : forall p x, p ∈ q -> o !! p = Some x -> execParent x <> Some c).
  { intros p x Hp Hx Hr. destruct (P p x c Hp Hx Hr) as (_ & _ & w & Hw & Hww). congruence. }
  assert (Hin : forall p, p ∈ q ++ [n] <-> p ∈ q \/ p = n) by (intros; by rewrite elem_of_app, list_elem_of_singleton).
  split; try done.
  - apply list.NoDup_app. split; [done|]. split; [|by apply list.NoDup_singleton].
    intros p Hp ->%list_elem_of_singleton. done.
  - unfold alen in *. by rewrite length_insert.
  - lia.
  - intros p Hp. destruct (decide (p = n)) as [->|Hne].
    + rewrite list_lookup_insert_eq by (unfold alen in L; lia). rewrite decide_True; [done|]. apply Hin. by right.
    + rewrite list_lookup_insert_ne by lia. rewrite (Tb p Hp).
      destruct (decide (p ∈ q)) as [H|H], (decide (p ∈ q ++ [n])) as [H'|H']; try done; rewrite Hin in H'; tauto.
  - intros p [Hp|Hp]%Hin; [specialize (R p Hp)|]; lia.
  - intros p [Hp|Hp]%Hin; [|subst p; by eexists]. destruct (Hold p Hp) as (x & x' & _ & Hx' & _). by exists x'.
  - intros p x' r [Hp|Hp]%Hin Hx' Hr.
    + destruct (Hold p Hp) as (y & y' & Hy & Hy' & Ey & _). assert (y' = x') as -> by congruence.
      destruct (P p y r Hp Hy) as (Hrq & Hne & w & Hw & Eww); [congruence|].
      split; [apply Hin; by left|]. split; [done|]. destruct (Hold r Hrq) as (z & z' & Hz & Hz' & _ & Ez).
      exists z'. split; [done|]. apply Ez. congruence.
    + subst p. assert (x' = xn) as -> by congruence. assert (r = c) as -> by congruence.
      split; [apply Hin; by left|]. split; [done|]. by exists xc'.
  - intros p1 p2 y1 y2 r [Hp1|Hp1]%Hin [Hp2|Hp2]%Hin F1 F2 R1 R2.
    + destruct (Hold p1 Hp1) as (z1 & z1' & Hz1 & Hz1' & Ez1 & _), (Hold p2 Hp2) as (z2 & z2' & Hz2 & Hz2' & Ez2 & _).
      apply (U p1 p2 z1 z2 r); congruence.
    + exfalso. subst p2. assert (r = c) as -> by congruence.
      destruct (Hold p1 Hp1) as (z1 & z1' & Hz1 & Hz1' & Ez1 & _). apply (Hnochild p1 z1); congruence.
    + exfalso. subst p1. assert (r = c) as -> by congruence.
      destruct (Hold p2 Hp2) as (z2 & z2' & Hz2 & Hz2' & Ez2 & _). apply (Hnochild p2 z2); congruence.
    + congruence.
  - split; [apply Hin; by left|]. exists x1. rewrite Hoth; [done| |done]. intros <-. lia.
Qed.

Lemma block_spec s q : core s q -> current s ∈ q -> current s <> 1 ->
  exists s' q', block s (current s) = Some s' /\ q' ≡ₚ q /\ core s' q' /\ selected s' q' /\
    current s' = current s /\ num_nest_int s' = num_nest_int s /\
    (forall p, p <> current s -> objs s' !! p = objs s !! p) /\ in_state (objs s') Waiting (current s).
Proof.
  intros [T R M [x Hx]] Hc H1. unfold block. rewrite (upd_spec s _ _ x Hx). cbn [mbind option_bind].
  destruct (decision_core (set_objs s (<[current s := set_runState x Waiting]> (objs s))) q) as
    (s' & q' & E & Hq & C & Sl & Ho & Hcur & Hn & _).
  - apply tinv_state; [done..|by left].
  - done.
  - done.
  - cbn. rewrite lookup_insert_eq. by eexists.
  - exists s', q'. split; [exact E|]. split; [done|]. split; [done|]. split; [done|]. split; [done|]. split; [done|].
    rewrite Ho. cbn. split.
    + intros p Hp. by rewrite lookup_insert_ne.
    + eexists. by rewrite lookup_insert_eq.
Qed.

Lemma inv_selected s q : inv s q -> selected s q.
Proof.
  intros [[T R M O] Hc Hw]. destruct (Z.ltb_spec (wantToSwitchTo s) 0) as [H|H]; [by right|].
  left. replace (wantToSwitchTo s) with (current s); [done|]. destruct R; lia.
Qed.

Lemma core_owner s q tm p : core s q -> core (set_owner s tm p) q.
Proof. intros [T R M O]. by split. Qed.

Lemma halt_spec s q x r v : inv s q -> current s <> 1 -> objs s !! current s = Some x -> execParent x = Some r ->
  exists s' q', halt s (current s) v = Some s' /\ q ≡ₚ current s :: q' /\ core s' q' /\ selected s' q' /\
    current s' = current s /\ num_nest_int s' = num_nest_int s /\
    exists y, objs s' !! r = Some y /\ eax y = v /\ runState y = Running /\ r ∈ q'.
Proof.
  intros [C [Hc Hrun] _] H1 Hx Hr. pose proof C as [T R M O]. set (c := current s) in *.
  destruct (ti_parent _ _ _ _ _ T c x r Hc Hx Hr) as (Hrq & Hne & w & Hw & Ew).
  unfold halt. rewrite Hx. cbn [mbind option_bind]. rewrite Hr. unfold set_regs_eax. cbn [mbind option_bind].
  fold c. rewrite (proj2 (Z.eqb_neq r c)) by done. rewrite (upd_spec s r _ w Hw). cbn [mbind option_bind].
  set (s1 := set_objs s (<[r := set_eax w v]> (objs s))).
  assert (C1 : core s1 q) by (by apply (core_upd s q r (fun o => set_eax o v))).
  set (s2 := match currTerm x with Some tm => set_owner s1 tm (-1) | None => s1 end).
  assert (C2 : core s2 q) by (unfold s2; destruct (currTerm x); [by apply core_owner|done]).
  assert (E2 : objs s2 = objs s1 /\ current s2 = c /\ num_nest_int s2 = num_nest_int s /\
    currentlyRunning s2 = currentlyRunning s /\ loadedMap s2 = loadedMap s)
    by (unfold s2; destruct (currTerm x); done).
  destruct E2 as (Eo & Ecur & Enest & Erun & Emap). pose proof C2 as [T2 _ _ _].
  unfold remove. pose proof (ti_range _ _ _ _ _ T2 c Hc) as Hcr. pose proof (ti_next _ _ _ _ _ T2) as Hnx.
  unfold anth. rewrite (proj2 (Z.leb_le 0 c)) by lia. rewrite (ti_table _ _ _ _ _ T2 c), decide_True by (done || lia).
  cbn [mbind option_bind].
  set (s3 := set_table s2 (objs s2) (<[Z.to_nat c := None]> (all_processes s2)) (nextNewProcess s2)).
  destruct (list_elem_of_split_l q c Hc) as (pre & post & Eq & Hpre).
  pose proof (ti_queue _ _ _ _ _ T2) as Q. rewrite Eq in Q.
  destruct (unqueue_spec c pre post s3 (fuel_of s3) Q Hpre) as (d & Ed & Rd).
  { unfold fuel_of, Deque.size. cbn [rrQueue s3 set_table]. rewrite (Deque.rep_size _ _ (proj1 Q)).
    unfold alen. rewrite length_app. simpl. lia. }
  rewrite Ed. cbn [mbind option_bind].
  assert (Hperm : q ≡ₚ c :: post ++ pre) by (rewrite Eq; solve_Permutation).
  assert (Hnochild : forall p y, p ∈ q -> objs s2 !! p = Some y -> execParent y <> Some c).
  { intros p y Hp Hy. apply (running_no_child s2 q c p y T2); [|done|done]. rewrite Eo.
    eapply similar_state; [|exact Hrun]. by eapply similar_insert. }
  assert (T3 : tinv (objs s2) (<[Z.to_nat c := None]> (all_processes s2)) (nextNewProcess s2) d (post ++ pre))
    by (by apply (tinv_remove _ _ _ (rrQueue s2) _ q)).
  assert (Hr' : r ∈ post ++ pre) by (rewrite Hperm in Hrq; by apply elem_of_cons in Hrq as [?|?]).
  assert (Hwr : objs s2 !! r = Some (set_eax w v)) by (rewrite Eo; apply lookup_insert_eq).
  rewrite (upd_spec (set_queue s3 d) r _ (set_eax w v)) by done. cbn [mbind option_bind].
  set (s4 := set_objs _ _).
  assert (T4 : tables s4 (post ++ pre)).
  { apply tinv_state; [exact T3|done|done|done|]. right. intros p y Hp Hy Hpr.
    assert (Hpq : p ∈ q) by (rewrite Hperm; by apply elem_of_cons; right).
    assert (p = c) as ->.
    { apply (ti_unique _ _ _ _ _ T2 p c y (if decide (c = r) then set_eax w v else x) r); try done.
      - rewrite decide_False by done. rewrite Eo. cbn. by rewrite lookup_insert_ne.
      - by rewrite decide_False. }
    pose proof (ti_nodup _ _ _ _ _ T2) as Nd. rewrite Hperm in Nd. by apply list.NoDup_cons in Nd as [? _]. }
  destruct (decision_core s4 (post ++ pre) T4) as (s' & q' & E & Hq' & C' & Sl & Ho & Hcu & Hn & _).
  { cbn. rewrite Erun, Ecur. by destruct C as [_ ? _ _]. }
  { cbn. by rewrite Emap, Ecur. }
  { cbn. rewrite Ecur, lookup_insert_ne, Eo by done. cbn. rewrite lookup_insert_ne by done. by exists x. }
  exists s', q'. split; [exact E|]. split; [by rewrite Hperm, Hq'|]. split; [done|]. split; [done|].
  split; [by rewrite Hcu|]. split; [by rewrite Hn|]. eexists. rewrite Ho. cbn. rewrite lookup_insert_eq.
  split; [reflexivity|]. split; [done|]. split; [done|]. by rewrite Hq'.
Qed.

Lemma queue_short o a n d q : tinv o a n d q -> alen q <= MAX_NUM_PROCESS.
Proof.
  intros T. assert (Hsub : (Z.to_nat <$> q) ⊆+ seq 0 256).
  { apply NoDup_submseteq.
    - apply NoDup_fmap_2_strong; [|apply (ti_nodup _ _ _ _ _ T)].
      intros p1 p2 Hp1 Hp2 E. pose proof (ti_range _ _ _ _ _ T p1 Hp1). pose proof (ti_range _ _ _ _ _ T p2 Hp2). lia.
    - intros k (p & -> & Hp)%list_elem_of_fmap. pose proof (ti_range _ _ _ _ _ T p Hp).
      pose proof (ti_next _ _ _ _ _ T). apply elem_of_seq. unfold MAX_NUM_PROCESS in *. lia. }
  apply submseteq_length in Hsub. rewrite length_seq, length_fmap in Hsub. unfold alen, MAX_NUM_PROCESS. lia.
Qed.

(** [sysexec] up to the decision: the objects of the child and of the caller. *)
Lemma sysexec_spec s q : inv s q -> current s <> 1 -> nextNewProcess s < MAX_NUM_PROCESS ->
  exists s' q', sysexec s = Some (0, s') /\ q' ≡ₚ q ++ [nextNewProcess s] /\ core s' q' /\ selected s' q' /\
    current s' = current s /\ num_nest_int s' = num_nest_int s /\ nextNewProcess s' = nextNewProcess s + 1 /\
    exists x y, objs s' !! nextNewProcess s = Some x /\ execParent x = Some (current s) /\ runState x = Running /\
      objs s' !! current s = Some y /\ runState y = Waiting.
Proof.
  intros [C [Hc Hrun] _] H1 Hnext. pose proof C as [T R M O]. set (c := current s) in *. set (n := nextNewProcess s) in *.
  pose proof (ti_range _ _ _ _ _ T c Hc) as Hcr. pose proof (ti_next _ _ _ _ _ T) as Hnx. fold n in Hcr, Hnx.
  assert (Hnq : n ∉ q) by (intros H; pose proof (ti_range _ _ _ _ _ T n H); unfold n in *; lia).
  assert (Hcn : c <> n) by lia. assert (Hnc : n <> c) by lia. destruct Hrun as (xc & Hxc & Erun).
  unfold sysexec, child_process, child_stack, give_terminal, newDetachedProcess, newProcess. fold c n. rewrite (proj2 (Z.leb_le 0 c)) by lia.
  rewrite (live_get s q) by done. cbn [mbind option_bind].
  rewrite lookup_insert_ne by done. rewrite Hxc. cbn [mbind option_bind].
  unfold anth. rewrite (proj2 (Z.leb_le 0 n)) by lia. rewrite (ti_table _ _ _ _ _ T n), decide_False by (done || lia).
  cbn [mbind option_bind]. set (o1 := <[c := set_execChild xc n]> _). set (a' := <[Z.to_nat n := Some n]> (all_processes s)).
  set (s1 := set_table s o1 a' (n + 1)).
  assert (Hget : get s1 c = Some c).
  { unfold get, anth, s1, a'. cbn [all_processes set_table]. rewrite (proj2 (Z.leb_le 0 c)) by lia.
    rewrite list_lookup_insert_ne by lia. rewrite (ti_table _ _ _ _ _ T c) by lia. by rewrite decide_True. }
  assert (Hterm : exists term, (if isFallbackTerm s1 then Some (Some 0)
      else p ← get s1 c; o ← objs s1 !! p; Some (currTerm o)) = Some term).
  { destruct (isFallbackTerm s1); [by eexists|]. rewrite Hget. cbn [mbind option_bind]. unfold s1, o1. cbn.
    rewrite lookup_insert_eq. cbn. by eexists. }
  destruct Hterm as [term ->]. cbn [mbind option_bind].
  assert (Ho1 : o1 !! n = Some (mk_proc USER_PROCESS New (Some c) None None 0 0))
    by (unfold o1; rewrite lookup_insert_ne by done; apply lookup_insert_eq).
  rewrite (upd_spec s1 n _ _ Ho1). cbn [mbind option_bind]. cbn beta iota.
  erewrite upd_spec by apply lookup_insert_eq. cbn [mbind option_bind objs set_objs].
  rewrite !lookup_insert_ne by done. unfold s1, o1. cbn [objs set_table]. rewrite lookup_insert_eq. cbn [mbind option_bind]. cbv zeta.
  erewrite upd_spec by apply lookup_insert_eq. cbn [mbind option_bind objs set_objs].
  set (s2 := set_objs _ _).
  set (s3 := match currTerm _ with Some tm => if decide _ then set_owner s2 tm n else s2 | None => s2 end).
  assert (E3 : objs s3 = objs s2 /\ all_processes s3 = a' /\ nextNewProcess s3 = n + 1 /\ rrQueue s3 = rrQueue s /\
    current s3 = c /\ num_nest_int s3 = num_nest_int s /\ currentlyRunning s3 = currentlyRunning s /\ loadedMap s3 = loadedMap s).
  { unfold s3. destruct (currTerm _); [|done]. by case_decide. }
  destruct E3 as (Eo & Ea & En & Eq & Ecur & Ens & Ecr & Elm).
  assert (Hxn : exists xn, objs s3 !! n = Some xn /\ execParent xn = Some c).
  { rewrite Eo. unfold s2. cbn [objs set_objs]. rewrite lookup_insert_eq. by eexists. }
  destruct Hxn as (xn & Hxn & Epn). unfold attachThread. rewrite (upd_spec s3 n _ xn Hxn). cbn [mbind option_bind].
  cbn [rrQueue set_objs]. rewrite Eq.
  pose proof (queue_short _ _ _ _ _ T) as Hsh.
  destruct (Deque.push_back_spec (rrQueue s) q n (ti_queue _ _ _ _ _ T)) as (d & Ed & Rd); [unfold MAX_NUM_PROCESS in *; lia|].
  rewrite Ed. cbn [mbind option_bind]. unfold block.
  assert (Hc3 : objs s3 !! c = Some (set_execChild xc n)).
  { rewrite Eo. unfold s2. cbn [objs set_objs]. by rewrite !lookup_insert_ne, lookup_insert_eq by done. }
  match goal with |- context [upd ?x (current ?y) _] => change (current y) with (current s3) end. rewrite Ecur.
  rewrite (upd_spec _ c _ (set_execChild xc n)) by (cbn [objs set_queue set_objs]; rewrite lookup_insert_ne by exact Hnc; exact Hc3).
  cbn [mbind option_bind].
  set (s4 := set_objs _ _).
  assert (T4 : tables s4 (q ++ [n])).
  { unfold s4. cbn [objs all_processes nextNewProcess rrQueue set_objs set_queue]. rewrite Ea, En.
    apply (tinv_spawn (objs s) _ _ _ (rrQueue s) _ q c xc (set_runState (set_execChild xc n) Waiting) (set_runState xn Running));
      try done.
    - rewrite lookup_insert_ne by done. apply lookup_insert_eq.
    - apply lookup_insert_eq.
    - intros p Hp Hpc. rewrite !lookup_insert_ne by done. rewrite Eo. unfold s2. cbn [objs set_objs].
      by rewrite !lookup_insert_ne by done. }
  destruct (decision_core s4 (q ++ [n]) T4) as (s' & q' & E & Hq' & C' & Sl & Ho & Hcu & Hn & _ & Hnx').
  { cbn. rewrite Ecr, Ecur. done. }
  { cbn. by rewrite Elm, Ecur. }
  { cbn. rewrite Ecur, lookup_insert_eq. by eexists. }
  rewrite E. cbn [mbind option_bind]. exists s', q'. split; [done|]. split; [done|]. split; [done|]. split; [done|].
  split; [by rewrite Hcu; cbn|]. split; [by rewrite Hn; cbn|]. split.
  { by rewrite Hnx'. }
  eexists _, _. rewrite Ho. unfold s4. cbn [objs set_objs set_queue].
  split; [rewrite lookup_insert_ne by done; apply lookup_insert_eq|]. split; [done|]. split; [done|].
  split; [apply lookup_insert_eq|done].
Qed.

(** ** Interrupts *)

Definition alive (s : t) (p : Z) : Prop := get s p = Some p.

(** Who can do what: the idle process only halts the processor, a reader that is woken
    waits for no program, and pids are left. [dotask] is only asked for a pid of the
    table with no process, and nobody forks: [dotask_of_live_process_faults] and
    [fork_after_boot_faults] show what the other calls do. *)
Definition event_ok (s : t) (e : event) : Prop :=
  match e with
  | Exec => current s <> 1 /\ nextNewProcess s < MAX_NUM_PROCESS
  | Halt _ | WaitKey => current s <> 1
  | Dotask p => 0 <= p < MAX_NUM_PROCESS /\ ~ alive s p
  | Fork => False
  | Other _ => True
  | Wake p _ => alive s p /\ p <> current s /\
      forall c y, alive s c -> objs s !! c = Some y -> execParent y <> Some p
  | Tick => True
  end.

Lemma alive_iff s q p : tables s q -> alive s p <-> p ∈ q.
Proof.
  intros T. split; [|by apply live_get]. unfold alive, get, anth. destruct (Z.leb_spec 0 p); [|done].
  intros Hg. destruct (decide (p < MAX_NUM_PROCESS)) as [Hp|Hp].
  - rewrite (ti_table _ _ _ _ _ T p) in Hg by lia. by case_decide.
  - rewrite lookup_ge_None_2 in Hg; [done|]. pose proof (ti_len _ _ _ _ _ T) as Hl. unfold alen in Hl. lia.
Qed.

(** After a handler: good tables and a live choice. *)
Record handled (s s' : t) (q' : list Z) : Prop := {
  hd_core : core s' q';
  hd_selected : selected s' q';
  hd_current : current s' = current s;
  hd_nest : num_nest_int s' = num_nest_int s }.

Lemma wake_spec s q p n : inv s q -> event_ok s (Wake p n) -> exists s', handler (Wake p n) s = Some (None, s') /\ handled s s' q.
Proof.
  intros I (Hp & Hpc & Hch). pose proof I as [C _ _]. pose proof C as [T R M O]. apply (alive_iff s q) in Hp; [|done].
  cbn [handler]. unfold set_regs_eax. cbn [mbind option_bind]. rewrite (proj2 (Z.eqb_neq p _)) by done.
  destruct (ti_obj _ _ _ _ _ T p Hp) as [w Hw]. rewrite (upd_spec s p _ w Hw). cbn [mbind option_bind].
  set (s1 := set_objs s _). assert (C1 : core s1 q) by (by apply (core_upd s q p (fun o => set_eax o n))).
  assert (Sl1 : selected s1 q) by (apply (selected_upd s q p (fun o => set_eax o n) w); [done..|by apply inv_selected]).
  assert (Hw1 : objs s1 !! p = Some (set_eax w n)) by apply lookup_insert_eq.
  unfold unblock. rewrite (upd_spec s1 p _ _ Hw1). cbn [mbind option_bind].
  eexists. split; [reflexivity|]. pose proof C1 as [T1 R1 M1 O1].
  assert (Hkeep : forall p2, in_state (objs s1) Running p2 ->
    in_state (<[p:=set_runState (set_eax w n) Running]> (objs s1)) Running p2).
  { intros p2 (y & Hy & Ey). destruct (decide (p2 = p)) as [->|Hne];
      [eexists; by rewrite lookup_insert_eq|exists y; by rewrite lookup_insert_ne]. }
  split; [split; try done| |done|done].
  - cbn. apply tinv_state; try done. right. intros c y Hcq Hy. apply (alive_iff s q) in Hcq; [|done].
    unfold s1 in Hy. cbn in Hy. destruct (decide (c = p)) as [->|Hne].
    + rewrite lookup_insert_eq in Hy. injection Hy as <-. cbn. by apply (Hch p).
    + rewrite lookup_insert_ne in Hy by done. by apply (Hch c).
  - cbn. rewrite lookup_insert_ne by done. exact O1.
  - destruct Sl1 as [[H1 H2]|[H0 [H1 H2]]]; [left|right; split; [done|]]; (split; [done|]); by apply Hkeep.
Qed.

(** There is no such process. *)
Lemma dotask_dead s q p : tables s q -> 0 <= p < MAX_NUM_PROCESS -> ~ alive s p -> dotask s p = Some (-1, s).
Proof.
  intros T Hp Ha. rewrite (alive_iff s q) in Ha by done. unfold dotask, has, anth.
  rewrite (proj2 (Z.leb_le 0 p)) by lia. rewrite (ti_table _ _ _ _ _ T p Hp), decide_False by done. done.
Qed.

Lemma handler_spec s q e : inv s q -> event_ok s e ->
  exists r s' q', handler e s = Some (r, s') /\ handled s s' q'.
Proof.
  intros I He. pose proof I as [C [Hc Hrun] _]. pose proof C as [T R M O]. destruct e as [|v| |p| |r|p n|]; cbn [handler].
  - destruct He as [H1 Hn]. destruct (sysexec_spec s q I H1 Hn) as (s' & q' & -> & _ & C' & Sl & Hcu & Hne & _).
    eexists _, _, q'. split; [reflexivity|]. by split.
  - unfold syshalt. destruct O as [x Hx]. rewrite Hx. cbn [mbind option_bind].
    destruct (execParent x) as [r|] eqn:Er.
    + destruct (halt_spec s q x r v I He Hx Er) as (s' & q' & -> & _ & C' & Sl & Hcu & Hne & _).
      eexists _, _, q'. split; [reflexivity|]. by split.
    + eexists _, _, q. split; [reflexivity|]. split; [done|by apply inv_selected|done|done].
  - destruct (block_spec s q C Hc He) as (s' & q' & -> & _ & C' & Sl & Hcu & Hne & _).
    eexists _, _, q'. split; [reflexivity|]. by split.
  - destruct He as [Hp Ha]. rewrite (dotask_dead s q p T Hp Ha). eexists _, _, q. split; [reflexivity|].
    split; [done|by apply inv_selected|done|done].
  - destruct He.
  - eexists _, _, q. split; [reflexivity|]. split; [done|by apply inv_selected|done|done].
  - destruct (wake_spec s q p n I He) as (s' & E & H). cbn [handler] in E. rewrite E. eexists _, _, q. by split.
  - destruct (decision_core s q T R M O) as (s' & q' & -> & _ & C' & Sl & _ & Hcu & Hne & _).
    eexists _, _, q'. split; [reflexivity|]. by split.
Qed.

(** The state the handler starts in. *)
Definition entered (s : t) (x : proc) (esp : Z) : t :=
  set_nest (set_objs s (<[current s := set_esp0 x esp]> (objs s))) 1.

Lemma entered_inv s q x esp : inv s q -> objs s !! current s = Some x -> inv (entered s x esp) q.
Proof.
  intros [C Hc Hw] Hx. pose proof (core_upd s q _ (fun o => set_esp0 o esp) x C Hx eq_refl eq_refl) as [T R M O].
  pose proof (chosen_upd s q _ (fun o => set_esp0 o esp) x _ Hx eq_refl eq_refl Hc) as [H1 H2].
  by split; [split| |].
Qed.

Lemma entered_ok s q x esp e : inv s q -> objs s !! current s = Some x -> event_ok s e -> event_ok (entered s x esp) e.
Proof.
  intros [[T _ _ _] Hc _] Hx He. destruct e as [|v| |p| |r|p n|]; try exact He. destruct He as (Hp & Hne & Hch).
  split; [done|]. split; [done|]. intros c y Hcl Hy. cbn in Hy. destruct (decide (c = current s)) as [->|Hn].
  - rewrite lookup_insert_eq in Hy. injection Hy as <-. exact (Hch (current s) x Hcl Hx).
  - rewrite lookup_insert_ne in Hy by done. exact (Hch c y Hcl Hy).
Qed.

(** From the end of the handler to the end of the interrupt. *)
Lemma sched_finish_spec s x esp e r s2 q' : num_nest_int s = 0 -> objs s !! current s = Some x ->
  handler e (entered s x esp) = Some (r, s2) -> handled (entered s x esp) s2 q' ->
  exists s', interrupt esp e s = Some s' /\ inv s' q' /\ num_nest_int s' = 0 /\
    current s' = (if wantToSwitchTo s2 <? 0 then current s else wantToSwitchTo s2) /\
    all_processes s' = all_processes s2 /\ nextNewProcess s' = nextNewProcess s2 /\
    similar (objs s2) (objs s') /\
    forall p y, p <> current s -> objs s2 !! p = Some y -> exists e, objs s' !! p = Some (set_esp0 y e).
Proof.
  intros Hn Hx Hh [C Sl Hcu Hne]. unfold interrupt, schedBackupState. rewrite Hn. cbn [Z.ltb Z.compare].
  rewrite (upd_spec s _ _ x Hx). cbn [mbind option_bind]. cbn [num_nest_int set_objs]. rewrite Hn.
  change (0 + 1) with 1. fold (entered s x esp). rewrite Hh. cbn [mbind option_bind]. rewrite Hne.
  change (num_nest_int (entered s x esp) - 1) with 0.
  change (current (set_objs s (<[current s:=set_esp0 x esp]> (objs s)))) with (current s).
  set (s3 := set_nest s2 0). destruct C as [T R M O].
  assert (C3 : core s3 q') by by split.
  assert (Hs4 : exists s4, match r with Some v => upd s3 (current s) (fun o => set_eax o v) | None => Some s3 end = Some s4 /\
    core s4 q' /\ selected s4 q' /\ num_nest_int s4 = 0 /\ wantToSwitchTo s4 = wantToSwitchTo s2 /\
    current s4 = current s /\ all_processes s4 = all_processes s2 /\ nextNewProcess s4 = nextNewProcess s2 /\
    similar (objs s2) (objs s4) /\ forall p, p <> current s -> objs s4 !! p = objs s2 !! p).
  { destruct r as [v|].
    - change (current s) with (current (entered s x esp)). rewrite <- Hcu. destruct O as [y Hy].
      rewrite (upd_spec s3 _ _ y) by exact Hy. eexists. split; [reflexivity|].
      split; [by apply (core_upd s3 q' (current s2) (fun o => set_eax o v))|].
      split; [by apply (selected_upd s3 q' (current s2) (fun o => set_eax o v) y)|].
      split_and!; try done; [by apply (similar_insert _ _ y)|]. intros p Hp. cbn. by rewrite lookup_insert_ne.
    - exists s3. split_and!; try done. intros p y Hy. by exists y. }
  destruct Hs4 as (s4 & -> & C4 & Sl4 & N4 & W4 & Cu4 & A4 & X4 & Sm4 & K4). cbn [mbind option_bind].
  destruct (dispatch_spec s4 q' C4 Sl4 N4) as (a & s' & -> & I' & N' & Cu' & Sb & A' & X'). cbn [mbind option_bind].
  exists s'. split; [done|]. split; [done|]. split; [done|]. split; [by rewrite Cu', W4, Cu4|].
  split; [by rewrite A', A4|]. split; [by rewrite X', X4|]. split.
  - intros p y Hy. destruct (Sm4 p y Hy) as (y4 & Hy4 & E1 & E2).
    destruct (same_but_esp_similar _ _ Sb p y4 Hy4) as (y' & Hy' & E3 & E4). exists y'. split; [done|]. split; congruence.
  - intros p y Hp Hy. apply Sb. by rewrite K4.
Qed.

Lemma interrupt_spec s q esp e : inv s q -> num_nest_int s = 0 -> event_ok s e ->
  exists s' q', interrupt esp e s = Some s' /\ inv s' q' /\ num_nest_int s' = 0.
Proof.
  intros I Hn He. pose proof I as [[_ _ _ [x Hx]] _ _].
  destruct (handler_spec (entered s x esp) q e) as (r & s2 & q' & Hh & H); [by apply entered_inv|exact (entered_ok s q x esp e I Hx He)|].
  destruct (sched_finish_spec s x esp e r s2 q' Hn Hx Hh H) as (s' & E & I' & N' & _). by exists s', q'.
Qed.

(** ** Reachable states *)

Inductive reach : t -> Prop :=
| reach_start s : start = Some s -> reach s
| reach_launch s term s' : reach s -> current s = 1 -> isFallbackTerm s = true ->
    nextNewProcess s < MAX_NUM_PROCESS -> launch term s = Some s' -> reach s'
| reach_booted s : reach s -> current s = 1 -> reach (booted s)
| reach_interrupt s esp e s' : reach s -> event_ok s e -> interrupt esp e s = Some s' -> reach s'.

Definition first_proc : proc := mk_proc KERNEL_PROCESS Running None None (Some 0) (new_frame 1) 0.

Lemma start_spec : exists s, start = Some s /\ inv s [1] /\ num_nest_int s = 0.
Proof.
  destruct (Deque.push_back_spec Deque.init [] 1 Deque.init_rep) as (d & Ed & Rd); [done|].
  exists (mk {[1 := first_proc]} (<[1%nat := Some 1]> (replicate 256 None)) 2 d (-1) (-1) 0 true ∅ 1 1 (new_frame 1)).
  split; [|split; [|done]].
  - assert (E : start = (q ← Deque.push_back Deque.init 1;
      Some (mk {[1 := first_proc]} (<[1%nat := Some 1]> (replicate 256 None)) 2 q (-1) (-1) 0 true ∅ 1 1 (new_frame 1))))
      by (vm_compute; reflexivity).
    by rewrite E, Ed.
  - assert (Hin : forall p, p ∈ [1] -> p = 1) by (by intros p ->%list_elem_of_singleton).
    assert (Hr : in_state {[1 := first_proc]} Running 1) by (exists first_proc; by rewrite lookup_singleton_eq).
    split; [split|split|].
    + split; cbn [objs all_processes nextNewProcess rrQueue]; try done.
      * by apply list.NoDup_singleton.
      * intros p Hp. destruct (decide (p = 1)) as [->|Hne]; [done|].
        rewrite list_lookup_insert_ne by lia. rewrite lookup_replicate_2 by (unfold MAX_NUM_PROCESS in *; lia).
        rewrite decide_False; [done|]. by intros ?%Hin.
      * intros p ->%Hin. lia.
      * intros p ->%Hin. by eexists.
      * intros p x r ->%Hin Hx. rewrite lookup_singleton_eq in Hx. injection Hx as <-. done.
      * by intros p1 p2 x1 x2 r ->%Hin ->%Hin.
      * split; [by left|done].
    + by left.
    + done.
    + cbn. by eexists.
    + by left.
    + done.
    + by left.
Qed.

(** A parentless process enters. *)
Lemma tinv_launch o o' a n d d' q xn : tinv o a n d q -> n < MAX_NUM_PROCESS ->
  o' !! n = Some xn -> execParent xn = None -> (forall p, p <> n -> o' !! p = o !! p) ->
  Deque.rep d' (q ++ [n]) -> tinv o' (<[Z.to_nat n := Some n]> a) (n + 1) d' (q ++ [n]).
Proof.
  intros T Hn Hxn En Hoth Q'. pose proof T as [Q N L B Tb R O P U [I1 (x1 & Hx1 & E1)]].
  assert (Hnq : n ∉ q) by (intros H%R; lia).
  assert (Hin : forall p, p ∈ q ++ [n] <-> p ∈ q \/ p = n) by (intros; by rewrite elem_of_app, list_elem_of_singleton).
  assert (Hold : forall p, p ∈ q -> o' !! p = o !! p) by (intros p Hp; apply Hoth; by intros ->).
  split; try done.
  - apply list.NoDup_app. split; [done|]. split; [|by apply list.NoDup_singleton].
    intros p Hp ->%list_elem_of_singleton. done.
  - unfold alen in *. by rewrite length_insert.
  - lia.
  - intros p Hp. destruct (decide (p = n)) as [->|Hne].
    + rewrite list_lookup_insert_eq by (unfold alen in L; lia). rewrite decide_True; [done|]. apply Hin. by right.
    + rewrite list_lookup_insert_ne by lia. rewrite (Tb p Hp).
      destruct (decide (p ∈ q)) as [H|H], (decide (p ∈ q ++ [n])) as [H'|H']; try done; rewrite Hin in H'; tauto.
  - intros p [Hp|Hp]%Hin; [specialize (R p Hp)|]; lia.
  - intros p [Hp|Hp]%Hin; [|subst p; by eexists]. rewrite Hold by done. by apply O.
  - intros p x r [Hp|Hp]%Hin Hx Hr; [|congruence]. rewrite Hold in Hx by done.
    destruct (P p x r Hp Hx Hr) as (Hrq & Hne & w & Hw & Ew). split; [apply Hin; by left|]. split; [done|].
    exists w. by rewrite Hold.
  - intros p1 p2 x1' x2 r [H1|H1]%Hin [H2|H2]%Hin F1 F2 R1 R2; try congruence.
    rewrite Hold in F1, F2 by done. by apply (U p1 p2 x1' x2 r).
  - split; [apply Hin; by left|]. exists x1. by rewrite Hold.
Qed.

Lemma launch_spec s q term s' : inv s q -> num_nest_int s = 0 -> isFallbackTerm s = true ->
  nextNewProcess s < MAX_NUM_PROCESS -> launch term s = Some s' ->
  inv s' (q ++ [nextNewProcess s]) /\ num_nest_int s' = 0.
Proof.
  intros [[T R M O] [Hc Hrun] Hw] Hn Hf Hnext. set (n := nextNewProcess s) in *.
  assert (Hnq : n ∉ q) by (intros H; pose proof (ti_range _ _ _ _ _ T n H); unfold n in *; lia).
  pose proof (ti_next _ _ _ _ _ T) as Hnx. fold n in Hnx.
  unfold launch, makeKThread, newDetachedProcess, newProcess. fold n. cbn [Z.leb Z.compare mbind option_bind].
  unfold anth. rewrite (proj2 (Z.leb_le 0 n)) by lia. rewrite (ti_table _ _ _ _ _ T n), decide_False by (done || lia).
  cbn [mbind option_bind isFallbackTerm set_table]. rewrite Hf. cbn [mbind option_bind].
  erewrite upd_spec by apply lookup_insert_eq. cbn [mbind option_bind].
  erewrite upd_spec by apply lookup_insert_eq. cbn [mbind option_bind].
  erewrite upd_spec by apply lookup_insert_eq. cbn [mbind option_bind].
  set (s1 := set_objs _ _). set (s2 := match term with Some tm => set_owner s1 tm n | None => s1 end).
  assert (E2 : objs s2 = objs s1 /\ all_processes s2 = <[Z.to_nat n := Some n]> (all_processes s) /\
    nextNewProcess s2 = n + 1 /\ rrQueue s2 = rrQueue s /\ current s2 = current s /\ num_nest_int s2 = num_nest_int s /\
    currentlyRunning s2 = currentlyRunning s /\ loadedMap s2 = loadedMap s /\ wantToSwitchTo s2 = wantToSwitchTo s)
    by (unfold s2; by destruct term).
  destruct E2 as (Eo & Ea & En & Eq & Ecur & Ens & Ecr & Elm & Ewt).
  assert (Hn1 : exists x, objs s2 !! n = Some x /\ execParent x = None)
    by (rewrite Eo; unfold s1; cbn [objs set_objs]; rewrite lookup_insert_eq; by eexists).
  destruct Hn1 as (xn & Hxn & Epn). unfold attachThread. rewrite (upd_spec s2 n _ xn Hxn). cbn [mbind option_bind rrQueue set_objs].
  rewrite Eq. pose proof (queue_short _ _ _ _ _ T) as Hsh.
  destruct (Deque.push_back_spec (rrQueue s) q n (ti_queue _ _ _ _ _ T)) as (d & -> & Rd); [unfold MAX_NUM_PROCESS in *; lia|].
  cbn [mbind option_bind]. intros [= <-].
  assert (Hoth : forall p, p <> n -> <[n := set_runState xn Running]> (objs s2) !! p = objs s !! p).
  { intros p Hp. rewrite lookup_insert_ne by done. rewrite Eo. unfold s1. cbn [objs set_objs set_table].
    by rewrite !lookup_insert_ne by done. }
  assert (Hcn : current s <> n) by (intros E; apply Hnq; by rewrite <- E).
  split; [|by cbn; rewrite Ens]. split; [split| |]; cbn; rewrite ?Ecur, ?Ecr, ?Elm, ?Ewt; try done.
  - rewrite Ea, En. apply (tinv_launch (objs s) _ _ _ (rrQueue s) _ q (set_runState xn Running)); try done.
    apply lookup_insert_eq.
  - by rewrite Hoth.
  - split; [apply elem_of_app; by left|]. cbn. destruct Hrun as (x & Hx & Ex). exists x. by rewrite Hoth.
Qed.

Lemma reach_inv s : reach s -> exists q, inv s q /\ num_nest_int s = 0.
Proof.
  induction 1 as [s Hs|s term s' _ (q & I & Hn) H1 Hf Hx Hl|s _ (q & I & Hn) H1|s esp e s' _ (q & I & Hn) He Hi].
  - destruct start_spec as (s' & Es & I & Hn). rewrite Hs in Es. injection Es as <-. by exists [1].
  - exists (q ++ [nextNewProcess s]). by eapply launch_spec.
  - exists q. destruct I as [[T R M O] [H2 H3] Hw]. split; [|done]. by split; [split| |].
  - destruct (interrupt_spec s q esp e I Hn He) as (s2 & q2 & E & I2 & N2). assert (s2 = s') as -> by congruence. by exists q2.
Qed.

(** ** Properties *)

(** C4: From the start through the boot and any number of outermost interrupts that satisfy
    [event_ok] - an execute that loads while pids are left, a halt, a read that waits for
    input (these three not by the idle process), a [dotask] of a pid in 0..255 that has
    no process, any system call that leaves the scheduler alone, a key that wakes a live
    reader with no executed program, a timer tick - the thread that runs is a live process
    in state [Running] with its own memory map loaded, every live process that was executed
    has a live parent that waits for it, and each such interrupt is handled without a
    fault, an endless search or a switch to a dead process. A [dotask] of a live process
    and a [fork] are not among these interrupts: they break the scheduler
    ([dotask_of_live_process_faults], [fork_after_boot_faults]). *)
Theorem scheduler_safe s : reach s ->
  alive s (current s) /\ in_state (objs s) Running (current s) /\ loadedMap s = current s /\
  (forall p x r, alive s p -> objs s !! p = Some x -> execParent x = Some r ->
    alive s r /\ in_state (objs s) Waiting r) /\
  forall esp e, event_ok s e -> exists s', interrupt esp e s = Some s'.
Proof.
  intros Hs. destruct (reach_inv s Hs) as (q & I & Hn). pose proof I as [[T _ M _] [Hc Hr] _].
  split; [by eapply live_get|]. split; [done|]. split; [done|]. split.
  - intros p x r Hp Hx Hpr. apply (alive_iff s q) in Hp; [|done].
    destruct (ti_parent _ _ _ _ _ T p x r Hp Hx Hpr) as (Hrq & _ & Hw). split; [by eapply live_get|done].
  - intros esp e He. destruct (interrupt_spec s q esp e I Hn He) as (s' & q' & E & _). by exists s'.
Qed.

(** C6: A program that halts leaves the process table, and the run queue loses its entry and
    no other; its parent gets the exit code as the result of its execute call and can run
    again, and somebody else runs. The states are those of [reach]. *)
Theorem exit_code_reaches_parent s esp x r v : reach s -> current s <> 1 ->
  objs s !! current s = Some x -> execParent x = Some r ->
  exists s', interrupt esp (Halt v) s = Some s' /\ ~ alive s' (current s) /\
    (exists q q', Deque.rep (rrQueue s) q /\ Deque.rep (rrQueue s') q' /\ q ≡ₚ current s :: q' /\ current s ∉ q') /\
    current s' <> current s /\ alive s' r /\ exists y, objs s' !! r = Some y /\ eax y = v /\ runState y = Running.
Proof.
  intros Hs H1 Hx Hr. destruct (reach_inv s Hs) as (q & I & Hn).
  pose proof (entered_inv s q x esp I Hx) as I1.
  destruct (halt_spec (entered s x esp) q (set_esp0 x esp) r v I1 H1 (lookup_insert_eq _ _ _) Hr)
    as (s2 & q' & E & Hq & C & Sl & Hcu & Hne & y & Hy & Ey & Eyr & Hrq).
  assert (Hh : handler (Halt v) (entered s x esp) = Some (Some v, s2)).
  { cbn [handler]. unfold syshalt. assert (Ho : objs (entered s x esp) !! current (entered s x esp) = Some (set_esp0 x esp))
      by apply lookup_insert_eq. rewrite Ho. cbn [mbind option_bind execParent set_esp0]. rewrite Hr, E. done. }
  destruct (sched_finish_spec s x esp (Halt v) (Some v) s2 q' Hn Hx Hh) as (s' & E' & I' & _ & Hcur & Ea & En & Sm & K).
  { by split. }
  assert (Hgone : current s ∉ q').
  { pose proof (ti_nodup _ _ _ _ _ (co_tables _ _ (iv_core _ _ I))) as Nd. rewrite Hq in Nd.
    by apply list.NoDup_cons in Nd as [? _]. }
  assert (Hrne : r <> current s) by (intros ->; done).
  exists s'. split; [exact E'|]. pose proof I' as [[T' _ _ _] [Hc' _] _]. split; [by rewrite (alive_iff s' q')|].
  split; [exists q, q'; split_and!; [apply I|apply T'|done|done]|].
  split; [by intros Eq; rewrite Eq in Hc'|]. split; [by apply (alive_iff s' q')|].
  destruct (K r y Hrne Hy) as [e He]. exists (set_esp0 y e). done.
Qed.

(** The timer alone. *)
Fixpoint ticks (esps : nat -> Z) (k : nat) (s : t) : option t :=
  match k with O => Some s | S k => s ← interrupt (esps O) Tick s; ticks (fun i => esps (S i)) k s end.

Lemma tick_spec s pre x post esp : inv s (pre ++ x :: post) -> num_nest_int s = 0 ->
  Forall (idle_state (objs s)) pre -> in_state (objs s) Running x ->
  exists s', interrupt esp Tick s = Some s' /\ inv s' (post ++ pre ++ [x]) /\ num_nest_int s' = 0 /\
    current s' = x /\ similar (objs s) (objs s').
Proof.
  intros I Hn Hp Hx. pose proof I as [[_ _ _ [y Hy]] _ _]. pose proof (entered_inv s _ y esp I Hy) as I1.
  set (s1 := entered s y esp) in *. pose proof I1 as [[T R M O] _ _].
  assert (Sm1 : similar (objs s) (objs s1)) by by apply (similar_insert _ _ y).
  destruct (makeDecision_spec s1 pre x post (ti_queue _ _ _ _ _ T)) as (d & E & Rd).
  - eapply List.Forall_impl; [|exact Hp]. intros p (z & Hz & Hne). destruct (Sm1 p z Hz) as (z' & Hz' & E1 & _).
    exists z'. split; [done|congruence].
  - by eapply similar_state.
  - set (s2 := set_want (set_queue s1 d) x) in *.
    assert (Hperm : post ++ pre ++ [x] ≡ₚ pre ++ x :: post) by solve_Permutation.
    assert (Hxin : x ∈ post ++ pre ++ [x]) by (rewrite !elem_of_app, list_elem_of_singleton; auto).
    destruct (sched_finish_spec s y esp Tick None s2 (post ++ pre ++ [x]) Hn Hy) as (s' & E' & I' & N' & Hcur & _ & _ & Sm & _).
    + cbn [handler]. fold s1. by rewrite E.
    + split; [split; try done|left; split; [done|]|done|done].
      * by apply (tinv_perm _ _ _ (rrQueue s1) _ (pre ++ x :: post)).
      * by eapply similar_state.
    + exists s'. split; [done|]. split; [done|]. split; [done|]. split.
      * rewrite Hcur. change (wantToSwitchTo s2) with x.
        assert (Hxq : x ∈ pre ++ x :: post) by (rewrite elem_of_app, elem_of_cons; auto).
        pose proof (ti_range _ _ _ _ _ T x Hxq).
        by rewrite (proj2 (Z.ltb_ge x 0)) by lia.
      * intros p z Hz. destruct (Sm1 p z Hz) as (z1 & Hz1 & A1 & A2). destruct (Sm p z1 Hz1) as (z2 & Hz2 & B1 & B2).
        exists z2. split; [done|]. split; congruence.
Qed.

(** C5: Round robin starves nobody: while only the timer ticks, every live process that
    can run gets the processor within as many ticks as there are places for processes. *)
Theorem runnable_process_gets_cpu s p (esps : nat -> Z) : reach s -> alive s p -> in_state (objs s) Running p ->
  exists k s', (0 < k <= 256)%nat /\ ticks esps k s = Some s' /\ current s' = p.
Proof.
  intros Hs Hp Hr. destruct (reach_inv s Hs) as (q & I & Hn). pose proof I as [[T _ _ _] _ _].
  apply (alive_iff s q) in Hp; [|done]. apply list_elem_of_split_l in Hp as (pre & post & -> & Hpre).
  pose proof (queue_short _ _ _ _ _ T) as Hsh.
  assert (Hlen : (S (length pre) <= 256)%nat) by (unfold alen in Hsh; rewrite length_app in Hsh; simpl in Hsh; unfold MAX_NUM_PROCESS in *; lia).
  assert (Hgen : forall m pre post s esps, length pre = m -> inv s (pre ++ p :: post) -> num_nest_int s = 0 ->
    in_state (objs s) Running p -> exists k s', (0 < k <= S m)%nat /\ ticks esps k s = Some s' /\ current s' = p).
  { clear. induction m as [m IH] using lt_wf_ind. intros pre post s esps Hm I Hn Hr. pose proof I as [[T _ _ _] _ _].
    assert (Ho : Forall (fun x => is_Some (objs s !! x)) (pre ++ [p])).
    { apply list.Forall_forall. intros x Hx. apply (ti_obj _ _ _ _ _ T). set_solver. }
    destruct (first_running (objs s) (pre ++ [p])) as (pre1 & x & pre2 & Eq & Hp1 & Hx); [|done|].
    { apply List.Exists_exists. exists p. split; [apply list_elem_of_In; set_solver|done]. }
    destruct (decide (pre2 = [])) as [->|Hne].
    - apply app_inj_tail in Eq as [<- <-]. destruct (tick_spec s pre p post (esps O) I Hn Hp1 Hr) as (s' & E & _ & _ & Hc & _).
      exists 1%nat, s'. split; [lia|]. cbn [ticks]. by rewrite E.
    - destruct (exists_last Hne) as (pre3 & p' & ->). rewrite app_comm_cons, app_assoc in Eq.
      apply app_inj_tail in Eq as [-> <-]. rewrite <- app_assoc in I. cbn [app] in I.
      destruct (tick_spec s pre1 x (pre3 ++ p :: post) (esps O) I Hn Hp1 Hx) as (s1 & E & I1 & N1 & _ & Sm).
      rewrite <- app_assoc in I1. cbn [app] in I1. rewrite length_app in Hm. simpl in Hm.
      destruct (IH (length pre3) ltac:(lia) pre3 (post ++ pre1 ++ [x]) s1 (fun i => esps (S i)) eq_refl I1 N1)
        as (k & s' & Hk & Ek & Hc); [by eapply similar_state|].
      exists (S k), s'. split; [lia|]. cbn [ticks]. rewrite E. done. }
  destruct (Hgen _ pre post s esps eq_refl I Hn Hr) as (k & s' & Hk & E & Hc). exists k, s'. split; [lia|]. done.
Qed.

(** After the boot no parentless process can be made: [fork] reads [all_processes[-1]]. *)
Lemma parentless_after_boot_faults s ty : isFallbackTerm s = false -> newDetachedProcess s (-1) ty = None.
Proof.
  intros Hf. unfold newDetachedProcess, newProcess. cbn [Z.leb Z.compare mbind option_bind].
  destruct (anth (all_processes s) (nextNewProcess s)); [|done]. cbn [mbind option_bind].
  cbn [isFallbackTerm set_table]. by rewrite Hf.
Qed.
Lemma fork_after_boot_faults s : isFallbackTerm s = false -> handler Fork s = None.
Proof.
  intros Hf. cbn [handler]. unfold fork. destruct (objs s !! current s) as [me|]; [|done]. cbn [mbind option_bind].
  by rewrite parentless_after_boot_faults.
Qed.

(** ** A run of the system *)

Inductive act := Launch (term : option Z) | Boot | Event (esp : Z) (e : event).

Definition act_ok (s : t) (a : act) : bool :=
  match a with
  | Launch _ => bool_decide (current s = 1) && isFallbackTerm s && (nextNewProcess s <? MAX_NUM_PROCESS)
  | Boot => bool_decide (current s = 1)
  | Event _ Exec => negb (bool_decide (current s = 1)) && (nextNewProcess s <? MAX_NUM_PROCESS)
  | Event _ (Halt _) | Event _ WaitKey => negb (bool_decide (current s = 1))
  | Event _ (Dotask p) => (0 <=? p) && (p <? MAX_NUM_PROCESS) && bool_decide (get s p <> Some p)
  | Event _ Fork | Event _ (Wake _ _) => false
  | Event _ (Other _) => true
  | Event _ Tick => true
  end.
Definition act_step (s : t) (a : act) : option t :=
  if act_ok s a then
    match a with Launch term => launch term s | Boot => Some (booted s) | Event esp e => interrupt esp e s end
  else None.
Definition run (acts : list act) : option t :=
  s ← start; foldl (fun s a => s ← s; act_step s a) (Some s) acts.

Lemma run_reach acts s : run acts = Some s -> reach s.
Proof.
  unfold run. destruct start as [s0|] eqn:E0; [|done]. cbn [mbind option_bind].
  assert (R0 : reach s0) by by apply reach_start. clear E0. revert s0 R0.
  induction acts as [|a acts IH]; intros s0 R0; cbn [foldl]; [by intros [= <-]|]. cbn [mbind option_bind].
  destruct (act_step s0 a) as [s1|] eqn:E1; [|by clear; induction acts].
  apply IH. unfold act_step in E1. destruct (act_ok s0 a) eqn:Ea; [|done]. destruct a as [term| |esp e]; cbn [act_ok] in Ea.
  - rewrite !andb_true_iff, bool_decide_eq_true, Z.ltb_lt in Ea. destruct Ea as [[? ?] ?]. by eapply reach_launch.
  - rewrite bool_decide_eq_true in Ea. injection E1 as <-. by apply reach_booted.
  - apply (reach_interrupt s0 esp e); [done| |done].
    destruct e; cbn [event_ok]; try done; try (by apply negb_true_iff, bool_decide_eq_false in Ea).
    2: { rewrite !andb_true_iff, bool_decide_eq_true, Z.leb_le, Z.ltb_lt in Ea. by destruct Ea. }
    rewrite andb_true_iff, negb_true_iff, bool_decide_eq_false, Z.ltb_lt in Ea. done.
Qed.
End sched.

(** The idle process, a launcher that executes the shell, and the shell on the
    processor. *)
Definition demo_top (p : Z) : Z := p * 8192 + 8188.
Definition demo_frame (p : Z) : Z := p * 8192 + 8140.
Definition demo_acts : list act := [Launch (Some 0); Boot; Event 5 Tick; Event 6 Tick; Event 7 Exec; Event 8 Tick].

Lemma demo_run : exists s, run demo_top demo_frame demo_acts = Some s /\ current s = 3 /\
  (exists x, objs s !! 3 = Some x /\ execParent x = Some 2) /\ alive s 1 /\ in_state (objs s) Running 1.
Proof.
  assert (E2 : (fun s => (current s, execParent <$> objs s !! 3, get s 1, runState <$> objs s !! 1)) <$>
    run demo_top demo_frame demo_acts = Some (3, Some (Some 2), Some 1, Some Running)) by (vm_compute; reflexivity).
  revert E2. generalize (run demo_top demo_frame demo_acts). intros [s|] E2; [|discriminate E2].
  cbn [fmap option_fmap option_map] in E2. injection E2 as H1 H2 H3 H4.
  exists s. split; [reflexivity|]. split; [exact H1|].
  destruct (objs s !! 3) as [x|] eqn:Ex; [|discriminate H2]. injection H2 as H2.
  destruct (objs s !! 1) as [y|] eqn:Ey; [|discriminate H4]. injection H4 as H4.
  split; [exists x; split; [reflexivity|exact H2]|]. split; [exact H3|]. exists y. split; [exact Ey|exact H4].
Qed.

(** The shell calls [dotask] on itself, which puts it in the run queue twice; when it has
    halted, one entry stays, and two ticks later the scheduler hands the processor to the
    process that is gone: [ProcessDesc::get] of a null pointer. *)
Definition events (es : list event) (s : t) : option t :=
  foldl (fun s e => s ← s; interrupt demo_top demo_frame 9 e s) (Some s) es.
Lemma dotask_of_live_process_faults :
  exists s s1, run demo_top demo_frame demo_acts = Some s /\ alive s 3 /\
    events [Dotask 3; Tick; Halt 4] s = Some s1 /\ get s1 3 = None /\
    rrQueue s1 = Deque.mk 4 3 0 2 [Some 2; Some 3; Some 1; None] /\ events [Tick; Tick] s1 = None.
Proof.
  assert (E : (fun s => (get s 3, (fun s1 => (get s1 3, rrQueue s1, events [Tick; Tick] s1)) <$>
      events [Dotask 3; Tick; Halt 4] s)) <$> run demo_top demo_frame demo_acts =
    Some (Some 3, Some (None, Deque.mk 4 3 0 2 [Some 2; Some 3; Some 1; None], None))) by (vm_compute; reflexivity).
  revert E. generalize (run demo_top demo_frame demo_acts). intros [s|] E; [|discriminate E].
  cbn [fmap option_fmap option_map] in E. injection E as H1 H2. exists s. revert H2.
  generalize (events [Dotask 3; Tick; Halt 4] s). intros [s1|] H2; [|discriminate H2].
  cbn [fmap option_fmap option_map] in H2. injection H2 as H2 H3 H4. exists s1.
  split; [reflexivity|]. split; [exact H1|]. split; [reflexivity|]. split; [exact H2|]. split; [exact H3|exact H4].
Qed.

Lemma scheduler_safe_witness :
  exists s s', run demo_top demo_frame demo_acts = Some s /\ current s = 3 /\ loadedMap s = 3 /\
    interrupt demo_top demo_frame 9 (Halt 4) s = Some s'.
Proof.
  destruct demo_run as (s & E & Hc & _). destruct (scheduler_safe demo_top demo_frame s (run_reach _ _ _ _ E))
    as (_ & _ & Hm & _ & Hp). destruct (Hp 9 (Halt 4)) as [s' E']; [change (current s <> 1); rewrite Hc; discriminate|].
  exists s, s'. split; [exact E|]. split; [exact Hc|]. split; [by rewrite Hm|exact E'].
Defined.

Lemma exit_code_reaches_parent_witness :
  exists s s' y, run demo_top demo_frame demo_acts = Some s /\ interrupt demo_top demo_frame 9 (Halt 4) s = Some s' /\
    ~ alive s' 3 /\ (exists q, Deque.rep (rrQueue s') q /\ 3 ∉ q) /\ objs s' !! 2 = Some y /\ eax y = 4 /\ runState y = Running.
Proof.
  destruct demo_run as (s & E & Hc & (x & Hx & Hp) & _).
  destruct (exit_code_reaches_parent demo_top demo_frame s 9 x 2 4 (run_reach _ _ _ _ E)) as (s' & E' & Ha & (q & q' & _ & Hq & _ & Hnq) & _ & _ & y & Hy).
  - rewrite Hc. discriminate.
  - rewrite Hc. exact Hx.
  - exact Hp.
  - rewrite Hc in Ha, Hnq. exists s, s', y. split; [exact E|]. split; [exact E'|]. split; [exact Ha|].
    split; [exists q'; split; [exact Hq|exact Hnq]|exact Hy].
Defined.

Lemma runnable_process_gets_cpu_witness :
  exists s k s', run demo_top demo_frame demo_acts = Some s /\
    ticks demo_top demo_frame (fun _ => 9) k s = Some s' /\ current s' = 1.
Proof.
  destruct demo_run as (s & E & _ & _ & Ha & Hr).
  destruct (runnable_process_gets_cpu demo_top demo_frame s 1 (fun _ => 9) (run_reach _ _ _ _ E) Ha Hr)
    as (k & s' & _ & Ek & Hc).
  exists s, k, s'. split; [exact E|]. split; [exact Ek|exact Hc].
Defined.
End Sched.
