(* ===== verification/Rtc.v ===== *)
(** * The real-time clock (student-distrib/drivers/rtc.cpp)

    Every open file of the device is a virtual clock with a frequency of its own. The
    chip ticks at the highest of them, and each clock counts the ticks down to its own
    rate, wakes its reader up or keeps the tick for the next read. *)
From stdpp Require Import prelude gmap list numbers.
From Stdlib Require Import ZArith Lia.
From S2P Require Import Prelude Deque.

Module Rtc.

Definition HIGH_BIT_MASK : Z := 0xF0.
Definition RTC_STATUS_B_EN : Z := 0x40.

(** [VirtualRTC] *)
Record dev := mk_dev {
  counter : Z;
  numCountToTriggerRTC : Z;
  thread : Z;
  waiting : bool;
  ourFreq : Z;
  backlog : Z }.

(** The clocks by address, the deque of their addresses, and the registers A and B of
    the chip. *)
Record t := mk {
  devs : gmap Z dev;
  virtualRTCs : Deque.t Z;
  hardwareRTCFrequency : Z;
  statusA : Z;
  statusB : Z }.

Definition set_devs (s : t) (m : gmap Z dev) : t := mk m (virtualRTCs s) (hardwareRTCFrequency s) (statusA s) (statusB s).
Definition set_list (s : t) (q : Deque.t Z) : t := mk (devs s) q (hardwareRTCFrequency s) (statusA s) (statusB s).
Definition set_hw (s : t) (f : Z) : t := mk (devs s) (virtualRTCs s) f (statusA s) (statusB s).

Definition frequency_converter (freq : Z) : Z :=
  if freq =? 1024 then 0x06 else if freq =? 512 then 0x07 else if freq =? 256 then 0x08
  else if freq =? 128 then 0x09 else if freq =? 64 then 0x0A else if freq =? 32 then 0x0B
  else if freq =? 16 then 0x0C else if freq =? 8 then 0x0D else if freq =? 4 then 0x0E
  else if freq =? 2 then 0x0F else 0.

Definition rtc_change_frequency_nolock (s : t) (rate : Z) : t :=
  if rate =? 0 then s
  else mk (devs s) (virtualRTCs s) (hardwareRTCFrequency s) (Z.lor (Z.land (statusA s) HIGH_BIT_MASK) rate) (statusB s).

(** A tick: the clock and the thread it wakes up. [None] is an overflow of [backlog]. *)
Definition triggerIfPossible (d : dev) : option (dev * option Z) :=
  if numCountToTriggerRTC d <=? counter d then
    if waiting d then Some (mk_dev 1 (numCountToTriggerRTC d) (thread d) false (ourFreq d) (backlog d), Some (thread d))
    else if backlog d + 1 <? 2 ^ 31
    then Some (mk_dev 1 (numCountToTriggerRTC d) (thread d) false (ourFreq d) (backlog d + 1), None) else None
  else Some (mk_dev (u32 (counter d + 1)) (numCountToTriggerRTC d) (thread d) (waiting d) (ourFreq d) (backlog d), None).

Definition newHardwareRTCFrequencyNoLock (freq : Z) (d : dev) : dev :=
  let set c n := mk_dev c n (thread d) (waiting d) (ourFreq d) (backlog d) in
  if ourFreq d <? freq then
    if ourFreq d =? 0 then d
    else
      let factor := Z.quot freq (ourFreq d) in
      let old := numCountToTriggerRTC d in
      let num := u32 factor in
      if old <=? num then
        set (if negb (num =? 0) && negb (old =? 0) then u32 (counter d * (num / old)) else counter d) num
      else set (if negb (num =? 0) && negb (old =? 0) then counter d / (old / num) else counter d) num
  else set (counter d) 1.

(** The clock at index [i] of the deque; a wrong index panics. *)
Definition clock_at (s : t) (i : Z) : option (Z * dev) :=
  id ← mjoin (Deque.at_ (virtualRTCs s) i); d ← devs s !! id; Some (id, d).

Fixpoint max_loop (n : nat) (s : t) (i max : Z) : option Z :=
  match n with
  | O => Some max
  | S n => '(_, d) ← clock_at s i; max_loop n s (i + 1) (if max <? ourFreq d then ourFreq d else max)
  end.
Fixpoint freq_loop (n : nat) (s : t) (i freq : Z) : option t :=
  match n with
  | O => Some s
  | S n =>
      '(id, d) ← clock_at s i;
      freq_loop n (set_devs s (<[id := newHardwareRTCFrequencyNoLock freq d]> (devs s))) (i + 1) freq
  end.
Definition size (s : t) : nat := Z.to_nat (Deque.size (virtualRTCs s)).

Definition ensureHardwareFrequencyHigherThanVirtualFrequencies (s : t) (requester : option Z) : option t :=
  max ← max_loop (size s) s 0 0;
  if negb (max =? hardwareRTCFrequency s) then
    let s := rtc_change_frequency_nolock (set_hw s max) (frequency_converter max) in
    freq_loop (size s) s 0 max
  else
    match requester with
    | Some id =>
        d ← devs s !! id;
        Some (set_devs s (<[id := newHardwareRTCFrequencyNoLock (hardwareRTCFrequency s) d]> (devs s)))
    | None => Some s
    end.

Definition addToVirtualRTCs (s : t) (id : Z) : option t :=
  q ← Deque.push_back (virtualRTCs s) id;
  ensureHardwareFrequencyHigherThanVirtualFrequencies (set_list s q) (Some id).

(** The rotation until [id] is in front; the fuel is the size of the deque. *)
Fixpoint remove_loop (fuel : nat) (q : Deque.t Z) (id : Z) : option (Deque.t Z) :=
  match fuel with
  | O => None
  | S fuel =>
      tmp ← mjoin (Deque.front q);
      if tmp =? id then Some q
      else q ← Deque.pop_front q; q ← Deque.push_back q tmp; remove_loop fuel q id
  end.
Definition removeFromVirtualRTCs (s : t) (id : Z) : option t :=
  q ← remove_loop (S (size s)) (virtualRTCs s) id;
  q ← Deque.pop_front q;
  ensureHardwareFrequencyHigherThanVirtualFrequencies (set_list s q) None.

(** [write]: the result and the state; [freq] is the [int] at the buffer. *)
Definition write (s : t) (id freq : Z) : option (t * Z) :=
  if frequency_converter freq =? 0 then Some (s, -1)
  else
    d ← devs s !! id;
    s ← ensureHardwareFrequencyHigherThanVirtualFrequencies
          (set_devs s (<[id := mk_dev (counter d) (numCountToTriggerRTC d) (thread d) (waiting d) freq (backlog d)]> (devs s)))
          (Some id);
    Some (s, 0).

(** [read] by [th]: whether it returns at once. *)
Definition read (s : t) (id th : Z) : option (t * bool) :=
  d ← devs s !! id;
  if 0 <? backlog d
  then Some (set_devs s (<[id := mk_dev (counter d) (numCountToTriggerRTC d) (thread d) (waiting d) (ourFreq d) (backlog d - 1)]> (devs s)), true)
  else Some (set_devs s (<[id := mk_dev (counter d) (numCountToTriggerRTC d) th true (ourFreq d) (backlog d)]> (devs s)), false).

(** [new VirtualRTC()] at [id]: [ourFreq] is what the heap held, [heap], and [thread] is
    not read before it is set; the byte the
    constructor passes to [write] is read as an [int], with the [stack] above it. *)
Definition getNewInstance (s : t) (id heap stack : Z) : option t :=
  let s := set_devs s (<[id := mk_dev 0 2 0 false heap 0]> (devs s)) in
  s ← addToVirtualRTCs s id;
  '(s, _) ← write s id (s32 (frequency_converter 2 + 256 * stack));
  Some s.
(** [~VirtualRTC()] *)
Definition close (s : t) (id : Z) : option t :=
  s ← removeFromVirtualRTCs s id;
  Some (set_devs s (delete id (devs s))).

(** The interrupt: the clocks that woke a thread up, and the thread. *)
Fixpoint handler_loop (n : nat) (s : t) (i : Z) : option (t * list (Z * Z)) :=
  match n with
  | O => Some (s, [])
  | S n =>
      '(id, d) ← clock_at s i;
      '(d, w) ← triggerIfPossible d;
      '(s, ws) ← handler_loop n (set_devs s (<[id := d]> (devs s))) (i + 1);
      Some (s, match w with Some th => (id, th) :: ws | None => ws end)
  end.
Definition handler (s : t) : option (t * list (Z * Z)) := handler_loop (size s) s 0.

Definition init (prevA prevB : Z) : t := mk ∅ Deque.init 0 prevA (Z.lor prevB RTC_STATUS_B_EN).

(** Two clocks at 2 and 4 Hz: three ticks of the chip. *)
Example two_clocks :
  (s ← getNewInstance (init 0x26 0) 100 0 7; s ← getNewInstance s 200 0 9;
   '(s, _) ← write s 100 2; '(s, _) ← write s 200 4;
   '(s, b) ← read s 100 1; '(s, _) ← handler s; '(s, _) ← handler s; '(s, _) ← handler s; '(s, w) ← handler s;
   Some (hardwareRTCFrequency s, statusA s, b, w, backlog <$> devs s !! 200)) = Some (4, 0x2E, false, [], Some 3).
Proof. vm_compute. reflexivity. Qed.

(** ** The loops over the clocks *)

Definition freq (m : gmap Z dev) (id : Z) : Z := from_option ourFreq 0 (m !! id).
Definition top (m : gmap Z dev) (q : list Z) : Z := foldl (fun x id => Z.max x (freq m id)) 0 q.

(** The deque holds the addresses [q] of the clocks that are open. *)
Record clocks (s : t) (q : list Z) : Prop := {
  ck_rep : Deque.rep (virtualRTCs s) q;
  ck_nodup : NoDup q;
  ck_dom id : id ∈ q -> is_Some (devs s !! id) }.

Lemma clocks_size s q : clocks s q -> size s = length q.
Proof. intros [[R _] _ _]. unfold size, Deque.size. rewrite (Deque.rep_size _ _ R). unfold alen. lia. Qed.

Lemma clock_at_spec s q i id : clocks s q -> q !! i = Some id ->
  exists d, devs s !! id = Some d /\ clock_at s (Z.of_nat i) = Some (id, d).
Proof.
  intros C Hi. destruct (ck_dom _ _ C id) as [d Hd]; [by eapply list_elem_of_lookup_2|].
  exists d. split; [done|]. unfold clock_at. rewrite (Deque.at_spec _ _ _ (ck_rep _ _ C)) by lia.
  rewrite Nat2Z.id, Hi. cbn [mjoin option_join mbind option_bind]. by rewrite Hd.
Qed.

Lemma drop_cons {A} (l : list A) i n : n = length (drop i l) ->
  match n with O => drop i l = [] | S n => exists x, l !! i = Some x /\ drop i l = x :: drop (S i) l /\ n = length (drop (S i) l) end.
Proof.
  intros Hn. destruct n as [|n]; [by destruct (drop i l)|]. rewrite length_drop in Hn.
  destruct (lookup_lt_is_Some_2 l i) as [x Hx]; [lia|]. exists x. split; [done|].
  split; [by apply drop_S|]. rewrite length_drop. lia.
Qed.

Lemma max_loop_spec s q : clocks s q -> forall n i x, n = length (drop i q) ->
  max_loop n s (Z.of_nat i) x = Some (foldl (fun x id => Z.max x (freq (devs s) id)) x (drop i q)).
Proof.
  intros C. induction n as [|n IH]; intros i x Hn; pose proof (drop_cons q i _ Hn) as Hd; cbn [max_loop].
  - by rewrite Hd.
  - destruct Hd as (id & Hi & -> & Hn'). destruct (clock_at_spec s q i id C Hi) as (d & Hd & ->).
    cbn [mbind option_bind foldl]. replace (Z.of_nat i + 1) with (Z.of_nat (S i)) by lia. rewrite IH by done.
    unfold freq at 3. rewrite Hd. cbn. do 2 f_equal. destruct (Z.ltb_spec x (ourFreq d)); lia.
Qed.

(** The deque does not change, and the same addresses are clocks. *)
Lemma clocks_devs s q m : clocks s q -> (forall id, is_Some (m !! id) <-> is_Some (devs s !! id)) -> clocks (set_devs s m) q.
Proof. intros [R N D] Hm. split; [done|done|]. intros id Hid. cbn. by apply Hm, D. Qed.
Lemma is_Some_insert (m : gmap Z dev) id d d' j : m !! id = Some d' -> is_Some (<[id := d]> m !! j) <-> is_Some (m !! j).
Proof.
  intros Hm. destruct (decide (id = j)) as [->|Hne]; [rewrite lookup_insert_eq, Hm; split; by eexists|by rewrite lookup_insert_ne].
Qed.

Lemma freq_loop_spec q x : forall n i s, clocks s q -> n = length (drop i q) ->
  exists m, freq_loop n s (Z.of_nat i) x = Some (set_devs s m) /\
    forall id, m !! id = if decide (id ∈ drop i q) then newHardwareRTCFrequencyNoLock x <$> devs s !! id else devs s !! id.
Proof.
  induction n as [|n IH]; intros i s C Hn; pose proof (drop_cons q i _ Hn) as Hd; cbn [freq_loop].
  - exists (devs s). split; [by destruct s|]. intros id. rewrite Hd. by rewrite decide_False by apply not_elem_of_nil.
  - destruct Hd as (id & Hi & Ed & Hn'). destruct (clock_at_spec s q i id C Hi) as (d & Hd & ->).
    cbn [mbind option_bind]. replace (Z.of_nat i + 1) with (Z.of_nat (S i)) by lia.
    set (s1 := set_devs s _). destruct (IH (S i) s1) as (m & E & Hm); [|done|].
    { apply clocks_devs; [done|]. intros j. by eapply is_Some_insert. }
    exists m. split; [done|]. intros j. rewrite Hm, Ed. cbn.
    assert (Hnd : NoDup (id :: drop (S i) q)).
    { rewrite <- Ed. eapply sublist_NoDup; [apply C|]. apply sublist_drop. }
    apply list.NoDup_cons in Hnd as [Hnot _].
    destruct (decide (j = id)) as [->|Hne].
    + rewrite decide_False by done. rewrite decide_True by by left. by rewrite lookup_insert_eq, Hd.
    + rewrite lookup_insert_ne by done. destruct (decide (j ∈ drop (S i) q)) as [Hin|Hin].
      * by rewrite decide_True by by right.
      * rewrite decide_False; [done|]. intros [?|?]%elem_of_cons; done.
Qed.

(** ** The rate of a clock *)

(** A clock counts the ticks of a chip at [hw]; the two frequencies are not compared
    when its own is 0, which is never written. *)
Definition rate_ok (hw : Z) (d : dev) : Prop :=
  0 <= counter d /\
  (ourFreq d <> 0 -> numCountToTriggerRTC d = if ourFreq d <? hw then u32 (Z.quot hw (ourFreq d)) else 1).

(** What a change of the chip's frequency keeps of a clock. *)
Definition same_clock (d d' : dev) : Prop :=
  ourFreq d' = ourFreq d /\ waiting d' = waiting d /\ thread d' = thread d /\ backlog d' = backlog d.

Lemma newHardware_ok hw d : 0 <= counter d -> 0 <= numCountToTriggerRTC d ->
  rate_ok hw (newHardwareRTCFrequencyNoLock hw d) /\ same_clock d (newHardwareRTCFrequencyNoLock hw d) /\
  0 <= numCountToTriggerRTC (newHardwareRTCFrequencyNoLock hw d).
Proof.
  intros Hc Hn. unfold newHardwareRTCFrequencyNoLock. destruct (ourFreq d <? hw) eqn:E.
  - destruct (Z.eqb_spec (ourFreq d) 0) as [E0|E0]; [done|]. cbv zeta.
    set (num := u32 _). assert (Hnum : 0 <= num) by apply u32_range. destruct (Z.leb_spec (numCountToTriggerRTC d) num).
    + split; [split; [|cbn; intros _; by rewrite E]|done]. cbn. destruct (_ && _); [apply u32_range|done].
    + split; [split; [|cbn; intros _; by rewrite E]|done]. cbn. destruct (_ && _) eqn:Eb; [|done].
      rewrite andb_true_iff, !negb_true_iff, !Z.eqb_neq in Eb. apply Z.div_pos; [done|].
      apply Z.div_str_pos. lia.
  - split; [split; [done|cbn; intros _; by rewrite E]|]. by split.
Qed.

(** The invariant: the chip's frequency is the highest one asked for, its register
    holds it, and the clocks count accordingly. *)
Record inv (s : t) (q : list Z) : Prop := {
  inv_clocks : clocks s q;
  inv_top : hardwareRTCFrequency s = top (devs s) q;
  inv_rate id d : id ∈ q -> devs s !! id = Some d -> rate_ok (hardwareRTCFrequency s) d;
  inv_num id d : id ∈ q -> devs s !! id = Some d -> 0 <= numCountToTriggerRTC d;
  inv_backlog id d : id ∈ q -> devs s !! id = Some d -> 0 <= backlog d;
  inv_chip : frequency_converter (hardwareRTCFrequency s) <> 0 ->
    Z.land (statusA s) 0x0F = frequency_converter (hardwareRTCFrequency s) }.

Lemma converter_range f : 0 <= frequency_converter f <= 15.
Proof. unfold frequency_converter. repeat case_match; lia. Qed.

Lemma change_frequency_chip s r : 0 <= r <= 15 -> r <> 0 -> Z.land (statusA (rtc_change_frequency_nolock s r)) 0x0F = r.
Proof.
  intros Hr Hn. unfold rtc_change_frequency_nolock. rewrite (proj2 (Z.eqb_neq r 0)) by done. cbn.
  rewrite Z.land_lor_distr_l, <- Z.land_assoc. change (Z.land HIGH_BIT_MASK 15) with 0. rewrite Z.land_0_r, Z.lor_0_l.
  change 15 with (Z.ones 4). rewrite Z.land_ones by lia. apply Z.mod_small. lia.
Qed.
Lemma change_frequency_rest s r : let s' := rtc_change_frequency_nolock s r in
  devs s' = devs s /\ virtualRTCs s' = virtualRTCs s /\ hardwareRTCFrequency s' = hardwareRTCFrequency s.
Proof. unfold rtc_change_frequency_nolock. by destruct (r =? 0). Qed.

Lemma top_ext m m' q : (forall id, id ∈ q -> freq m' id = freq m id) -> top m' q = top m q.
Proof.
  unfold top. generalize 0. induction q as [|id q IH]; intros x Hf; [done|]. cbn. rewrite Hf by by left.
  apply IH. intros j Hj. apply Hf. by right.
Qed.

(** What holds before the frequency is brought up to date: the clocks but the
    requester's count at the old one. *)
Record stale (s : t) (q : list Z) (req : option Z) : Prop := {
  st_clocks : clocks s q;
  st_req id : req = Some id -> id ∈ q;
  st_pos id d : id ∈ q -> devs s !! id = Some d -> 0 <= counter d /\ 0 <= numCountToTriggerRTC d /\ 0 <= backlog d;
  st_rate id d : id ∈ q -> devs s !! id = Some d -> req <> Some id -> rate_ok (hardwareRTCFrequency s) d;
  st_chip : frequency_converter (hardwareRTCFrequency s) <> 0 ->
    Z.land (statusA s) 0x0F = frequency_converter (hardwareRTCFrequency s) }.

(** [s'] is [s] with the clocks in [upd] set to the frequency [M]. *)
Lemma update_inv s s' q req (upd : Z -> Prop) `{forall id, Decision (upd id)} :
  let M := top (devs s) q in
  stale s q req -> virtualRTCs s' = virtualRTCs s -> hardwareRTCFrequency s' = M ->
  (forall id, devs s' !! id = if decide (upd id) then newHardwareRTCFrequencyNoLock M <$> devs s !! id else devs s !! id) ->
  (forall id d, id ∈ q -> devs s !! id = Some d -> ~ upd id -> rate_ok M d) ->
  (frequency_converter M <> 0 -> Z.land (statusA s') 0x0F = frequency_converter M) ->
  inv s' q /\ forall id d, id ∈ q -> devs s !! id = Some d -> exists d', devs s' !! id = Some d' /\ same_clock d d'.
Proof.
  intros M [C _ Hpos _ _] Eq Eh Hm Hold Hc.
  assert (Hd : forall id d', id ∈ q -> devs s' !! id = Some d' -> exists d, devs s !! id = Some d /\ same_clock d d' /\
    rate_ok M d' /\ 0 <= numCountToTriggerRTC d').
  { intros id d' Hq Hd'. rewrite Hm in Hd'. destruct (decide (upd id)) as [Hu|Hu].
    - destruct (devs s !! id) as [d|] eqn:E; [|done]. injection Hd' as <-. exists d. split; [done|].
      destruct (Hpos _ _ Hq E) as (H1 & H2 & _). destruct (newHardware_ok M d H1 H2) as (? & ? & ?). by split_and!.
    - exists d'. split; [done|]. split; [done|]. split; [by eapply Hold|]. by apply (Hpos id). }
  split; [split|].
  - split; [rewrite Eq; apply C|apply C|]. intros id Hq. rewrite Hm. pose proof (ck_dom _ _ C id Hq).
    destruct (decide (upd id)); [by rewrite fmap_is_Some|done].
  - rewrite Eh. apply eq_sym, top_ext. intros id Hq. unfold freq. rewrite Hm. destruct (decide (upd id)); [|done].
    destruct (devs s !! id) as [d|] eqn:E; [|done]. cbn. destruct (Hpos _ _ Hq E) as (H1 & H2 & _).
    by destruct (newHardware_ok M d H1 H2) as (_ & [? _] & _).
  - intros id d' Hq Hd'. rewrite Eh. by destruct (Hd _ _ Hq Hd') as (_ & _ & _ & ? & _).
  - intros id d' Hq Hd'. by destruct (Hd _ _ Hq Hd') as (_ & _ & _ & _ & ?).
  - intros id d' Hq Hd'. destruct (Hd _ _ Hq Hd') as (d & E & (_ & _ & _ & ->) & _). by apply (Hpos id).
  - by rewrite Eh.
  - intros id d Hq E. rewrite Hm, E. destruct (decide (upd id)); [|by exists d].
    destruct (Hpos _ _ Hq E) as (H1 & H2 & _). destruct (newHardware_ok M d H1 H2) as (? & ? & ?). by eexists.
Qed.

Lemma ensure_spec s q req : stale s q req ->
  exists s', ensureHardwareFrequencyHigherThanVirtualFrequencies s req = Some s' /\ inv s' q /\
    (forall id d, id ∈ q -> devs s !! id = Some d -> exists d', devs s' !! id = Some d' /\ same_clock d d').
Proof.
  intros St. pose proof St as [C Hreq Hpos Hrate Hchip].
  unfold ensureHardwareFrequencyHigherThanVirtualFrequencies. rewrite (clocks_size _ _ C).
  pose proof (max_loop_spec s q C (length q) 0 0 eq_refl) as Em. change (Z.of_nat 0) with 0 in Em. rewrite drop_0 in Em.
  change (foldl _ 0 q) with (top (devs s) q) in Em. rewrite Em. cbn [mbind option_bind].
  destruct (Z.eqb_spec (top (devs s) q) (hardwareRTCFrequency s)) as [EM|EM]; cbn [negb].
  - destruct req as [id|].
    + destruct (ck_dom _ _ C id (Hreq id eq_refl)) as [d Hd]. rewrite Hd. cbn [mbind option_bind].
      eexists. split; [reflexivity|]. apply (update_inv s _ q (Some id) (fun j => j = id)); try done.
      * intros j. cbn. rewrite EM. destruct (decide (j = id)) as [->|]; [by rewrite lookup_insert_eq, Hd|by rewrite lookup_insert_ne].
      * intros j d' Hq Hd' Hj. rewrite EM. apply (Hrate j); [done..|]. congruence.
      * cbn. by rewrite EM.
    + exists s. split; [done|]. apply (update_inv s s q None (fun _ => False)); try done.
      * intros j d' Hq Hd' _. rewrite EM. by apply (Hrate j).
      * by rewrite EM.
  - set (M := top (devs s) q) in *. set (s1 := rtc_change_frequency_nolock (set_hw s M) (frequency_converter M)).
    destruct (change_frequency_rest (set_hw s M) (frequency_converter M)) as (D1 & Q1 & H1). fold s1 in D1, Q1, H1. cbn in D1, Q1, H1.
    assert (C1 : clocks s1 q) by (destruct C; split; [by rewrite Q1|done|intros id Hid; rewrite D1; auto]).
    rewrite (clocks_size _ _ C1). destruct (freq_loop_spec q M (length q) 0 s1 C1 eq_refl) as (m & E & Hm).
    change (Z.of_nat 0) with 0 in E. rewrite E. eexists. split; [reflexivity|].
    apply (update_inv s _ q req (fun j => j ∈ q)); try done.
    + intros j. change (devs (set_devs s1 m)) with m. by rewrite Hm, drop_0, D1.
    + intros Hv. change (statusA (set_devs s1 m)) with (statusA s1). apply change_frequency_chip; [apply converter_range|done].
Qed.

(** ** The operations keep the invariant *)

Lemma inv_stale s q req : inv s q -> (forall id, req = Some id -> id ∈ q) -> stale s q req.
Proof.
  intros [C T R N B K] Hq. split; try done; [|intros id d Hq' Hd _; by apply (R id)].
  intros id d Hq' Hd. split_and!; [by apply (R id)|by apply (N id)|by apply (B id)].
Qed.

(** One clock replaced by another of the same count and frequency. *)
Lemma inv_alter s q id d d' : inv s q -> id ∈ q -> devs s !! id = Some d ->
  ourFreq d' = ourFreq d -> numCountToTriggerRTC d' = numCountToTriggerRTC d -> 0 <= counter d' -> 0 <= backlog d' ->
  inv (set_devs s (<[id := d']> (devs s))) q.
Proof.
  intros I Hid Hd Ef En Hc Hb. pose proof I as [C T R N B K].
  assert (Hlk : forall j e, <[id := d']> (devs s) !! j = Some e -> (j = id /\ e = d') \/ devs s !! j = Some e).
  { intros j e. destruct (decide (id = j)) as [->|Hne]; [rewrite lookup_insert_eq; intros [= <-]; by left|].
    rewrite lookup_insert_ne by done. by right. }
  split; cbn.
  - apply clocks_devs; [done|]. intros j. by eapply is_Some_insert.
  - rewrite T. apply eq_sym, top_ext. intros j _. unfold freq. destruct (decide (id = j)) as [->|Hne].
    + by rewrite lookup_insert_eq, Hd.
    + by rewrite lookup_insert_ne.
  - intros j e Hq He. destruct (Hlk _ _ He) as [[-> ->]|He']; [|by apply (R j)].
    destruct (R _ _ Hid Hd) as [_ Hr]. split; [done|]. by rewrite Ef, En.
  - intros j e Hq He. destruct (Hlk _ _ He) as [[-> ->]|He']; [rewrite En; by apply (N id)|by apply (N j)].
  - intros j e Hq He. destruct (Hlk _ _ He) as [[-> ->]|He']; [done|by apply (B j)].
  - done.
Qed.

Lemma write_spec s q id f : inv s q -> id ∈ q ->
  exists s' r, write s id f = Some (s', r) /\ inv s' q /\
    r = (if frequency_converter f =? 0 then -1 else 0) /\
    (forall d', devs s' !! id = Some d' -> r = 0 -> ourFreq d' = f).
Proof.
  intros I Hid. unfold write. destruct (Z.eqb_spec (frequency_converter f) 0) as [Hf|Hf]; [exists s, (-1); by split_and!|].
  destruct (ck_dom _ _ (inv_clocks _ _ I) id Hid) as [d Hd]. rewrite Hd. cbn [mbind option_bind].
  set (d1 := mk_dev _ _ _ _ f _). set (s1 := set_devs s _).
  assert (St : stale s1 q (Some id)).
  { destruct (inv_stale s q (Some id) I ltac:(by intros j [= <-])) as [C _ P R K].
    assert (Hlk : forall j e, devs s1 !! j = Some e -> (j = id /\ e = d1) \/ (j <> id /\ devs s !! j = Some e)).
    { intros j e. cbn. destruct (decide (id = j)) as [->|Hne]; [rewrite lookup_insert_eq; intros [= <-]; by left|].
      rewrite lookup_insert_ne by done. right. split; congruence. }
    split.
    - apply clocks_devs; [done|]. intros j. by eapply is_Some_insert.
    - by intros j [= <-].
    - intros j e Hq He. destruct (Hlk _ _ He) as [[-> ->]|[_ He']]; [apply (P id d Hid Hd)|by apply (P j)].
    - intros j e Hq He Hj. destruct (Hlk _ _ He) as [[-> ->]|[_ He']]; [done|by apply (R j)].
    - done. }
  destruct (ensure_spec s1 q (Some id) St) as (s2 & -> & I2 & Hsame). exists s2, 0. split_and!; try done.
  intros d' Hd' _. destruct (Hsame id d1) as (d2 & E2 & (E & _)); [done|by apply lookup_insert_eq|].
  rewrite E2 in Hd'. injection Hd' as <-. exact E.
Qed.

Lemma read_inv s q id th : inv s q -> id ∈ q -> exists s' b, read s id th = Some (s', b) /\ inv s' q.
Proof.
  intros I Hid. destruct (ck_dom _ _ (inv_clocks _ _ I) id Hid) as [d Hd]. unfold read. rewrite Hd. cbn [mbind option_bind].
  pose proof (inv_backlog _ _ I _ _ Hid Hd). destruct (inv_rate _ _ I _ _ Hid Hd) as [Hc _].
  destruct (Z.ltb_spec 0 (backlog d)); (eexists _, _; split; [reflexivity|]; apply (inv_alter s q id d); try done; cbn; lia).
Qed.

Lemma trigger_spec d : 0 <= counter d -> 0 <= backlog d < 2 ^ 31 - 1 ->
  exists d' w, triggerIfPossible d = Some (d', w) /\ ourFreq d' = ourFreq d /\
    numCountToTriggerRTC d' = numCountToTriggerRTC d /\ 0 <= counter d' /\ 0 <= backlog d'.
Proof.
  intros Hc Hb. unfold triggerIfPossible. destruct (_ <=? _); [|eexists _, _; split_and!; try done; cbn; [apply u32_range|lia]].
  destruct (waiting d); [eexists _, _; split_and!; try done; cbn; lia|]. rewrite (proj2 (Z.ltb_lt _ _)) by lia.
  eexists _, _. split; [reflexivity|]. cbn. lia.
Qed.

(** The interrupt reaches every clock once. *)
Definition room (s : t) (q : list Z) : Prop := forall id d, id ∈ q -> devs s !! id = Some d -> backlog d < 2 ^ 31 - 1.
Definition ticked (s s' : t) (ws : list (Z * Z)) (id : Z) : Prop :=
  forall d, devs s !! id = Some d -> exists d' w, triggerIfPossible d = Some (d', w) /\ devs s' !! id = Some d' /\
    filter (fun p => p.1 = id) ws = from_option (fun th => [(id, th)]) [] w.

Lemma handler_loop_spec q : forall n i s, inv s q -> n = length (drop i q) -> (forall id d, id ∈ drop i q -> devs s !! id = Some d -> backlog d < 2 ^ 31 - 1) ->
  exists s' ws, handler_loop n s (Z.of_nat i) = Some (s', ws) /\ inv s' q /\
    (forall id, if decide (id ∈ drop i q) then ticked s s' ws id
       else devs s' !! id = devs s !! id /\ filter (fun p => p.1 = id) ws = []).
Proof.
  induction n as [|n IH]; intros i s I Hn Hr; pose proof (drop_cons q i _ Hn) as Hd; cbn [handler_loop].
  - exists s, []. split; [done|]. split; [done|]. intros id. rewrite Hd. by rewrite decide_False by apply not_elem_of_nil.
  - destruct Hd as (id & Hi & Ed & Hn'). destruct (clock_at_spec s q i id (inv_clocks _ _ I) Hi) as (d & Hd & ->).
    assert (Hid : id ∈ q) by by eapply list_elem_of_lookup_2.
    destruct (inv_rate _ _ I _ _ Hid Hd) as [Hc _]. pose proof (inv_backlog _ _ I _ _ Hid Hd) as Hb.
    assert (Hb' : backlog d < 2 ^ 31 - 1) by (apply (Hr id); [rewrite Ed; by left|done]).
    destruct (trigger_spec d Hc (conj Hb Hb')) as (d1 & w & Et & Ef & En & Hc1 & Hb1).
    cbn [mbind option_bind]. rewrite Et. cbn [mbind option_bind].
    replace (Z.of_nat i + 1) with (Z.of_nat (S i)) by lia. set (s1 := set_devs s _).
    assert (Hnd : id ∉ drop (S i) q).
    { assert (Hnd : NoDup (id :: drop (S i) q)).
      { rewrite <- Ed. eapply sublist_NoDup; [apply (inv_clocks _ _ I)|]. apply sublist_drop. }
      by apply list.NoDup_cons in Hnd as [? _]. }
    destruct (IH (S i) s1) as (s2 & ws & E2 & I2 & H2); [by apply (inv_alter s q id d)|done| |].
    { intros j e Hj He. cbn in He. rewrite lookup_insert_ne in He by (by intros <-). apply (Hr j); [rewrite Ed; by right|done]. }
    rewrite E2. cbn [mbind option_bind]. eexists _, _. split; [reflexivity|]. split; [done|].
    intros j. specialize (H2 j). rewrite Ed. destruct (decide (j = id)) as [->|Hne].
    + rewrite decide_True by by left. rewrite decide_False in H2 by done. destruct H2 as [H2 Hw].
      intros d' Hd'. rewrite Hd in Hd'. injection Hd' as <-. exists d1, w. split; [done|].
      split; [rewrite H2; apply lookup_insert_eq|]. destruct w; [|exact Hw].
      rewrite filter_cons, decide_True by done. by rewrite Hw.
    + assert (Hf : filter (fun p : Z * Z => p.1 = j) (match w with Some th => (id, th) :: ws | None => ws end) = filter (fun p => p.1 = j) ws).
      { destruct w; [|done]. rewrite filter_cons, decide_False by (cbn; congruence). done. }
      destruct (decide (j ∈ drop (S i) q)) as [Hin|Hin].
      * rewrite decide_True by by right. intros d' Hd'. unfold ticked in H2. cbn in H2.
        rewrite lookup_insert_ne in H2 by done. destruct (H2 d' Hd') as (d2 & w2 & ? & ? & Hf2). exists d2, w2. by rewrite Hf.
      * rewrite decide_False by (intros [?|?]%elem_of_cons; done). rewrite Hf. cbn in H2.
        by rewrite lookup_insert_ne in H2.
Qed.

Lemma rtc_handler_spec s q : inv s q -> room s q -> exists s' ws, handler s = Some (s', ws) /\ inv s' q /\ forall id, id ∈ q -> ticked s s' ws id.
Proof.
  intros I Hr. unfold handler. rewrite (clocks_size _ _ (inv_clocks _ _ I)).
  destruct (handler_loop_spec q (length q) 0 s I eq_refl) as (s' & ws & E & I' & H); [intros id d; by rewrite drop_0; apply Hr|].
  exists s', ws. split; [exact E|]. split; [done|].
  intros id Hid. specialize (H id). rewrite drop_0, decide_True in H by done. done.
Qed.

Lemma rtc_add_spec s q id d : inv s q -> id ∉ q -> alen q + 1 < 2 ^ 30 -> 0 <= counter d -> 0 <= numCountToTriggerRTC d -> 0 <= backlog d ->
  exists s', addToVirtualRTCs (set_devs s (<[id := d]> (devs s))) id = Some s' /\ inv s' (q ++ [id]).
Proof.
  intros I Hid Hq Hc Hn Hb. destruct (inv_stale s q None I ltac:(done)) as [C _ P R K]. unfold addToVirtualRTCs. cbn [virtualRTCs set_devs].
  destruct (Deque.push_back_spec (virtualRTCs s) q id (ck_rep _ _ C) Hq) as (dq & -> & Rq). cbn [mbind option_bind].
  set (s1 := set_list _ dq).
  assert (Hlk : forall j, j ∈ q ++ [id] -> (j = id /\ devs s1 !! j = Some d) \/ (j ∈ q /\ j <> id /\ devs s1 !! j = devs s !! j)).
  { intros j [Hj| ->%list_elem_of_singleton]%elem_of_app; [right|left; split; [done|apply lookup_insert_eq]].
    assert (j <> id) by (by intros ->). split_and!; try done. by apply lookup_insert_ne. }
  destruct (ensure_spec s1 (q ++ [id]) (Some id)) as (s2 & E & I2 & _); [|by exists s2].
  split.
  - split; [done| |].
    + apply list.NoDup_app. split; [apply C|]. split; [|apply list.NoDup_singleton].
      by intros x Hx ->%list_elem_of_singleton.
    + intros j Hj. destruct (Hlk _ Hj) as [[_ ->]|(Hj' & _ & ->)]; [by eexists|by apply C].
  - intros j [= <-]. apply elem_of_app. right. by apply list_elem_of_singleton.
  - intros j e Hj He. destruct (Hlk _ Hj) as [[_ Ee]|(Hj' & _ & Ee)]; rewrite Ee in He; [by injection He as <-|by apply (P j)].
  - intros j e Hj He Hne. destruct (Hlk _ Hj) as [[-> _]|(Hj' & _ & Ee)]; [done|]. rewrite Ee in He. by apply (R j).
  - done.
Qed.

(** What the constructor writes is never a frequency. *)
Lemma constructor_freq stack : frequency_converter (s32 (frequency_converter 2 + 256 * stack)) = 0.
Proof.
  change (frequency_converter 2) with 15.
  assert (Ho : s32 (15 + 256 * stack) mod 2 = 1).
  { unfold s32. destruct (_ <? _); zdiv. }
  unfold frequency_converter. repeat case_match; try done; rewrite Z.eqb_eq in *;
    match goal with H : s32 _ = _ |- _ => rewrite H in Ho; discriminate Ho end.
Qed.

Lemma getNewInstance_spec s q id heap stack : inv s q -> id ∉ q -> alen q + 1 < 2 ^ 30 ->
  exists s', getNewInstance s id heap stack = Some s' /\ inv s' (q ++ [id]).
Proof.
  intros I Hid Hq. unfold getNewInstance. cbv zeta.
  destruct (rtc_add_spec s q id (mk_dev 0 2 0 false heap 0) I Hid Hq) as (s1 & -> & I1); [done..|]. cbn [mbind option_bind].
  unfold write. rewrite constructor_freq. by exists s1.
Qed.

Lemma remove_loop_spec id post : forall pre d fuel, Deque.rep d (pre ++ id :: post) -> id ∉ pre -> (length pre < fuel)%nat ->
  exists d', remove_loop fuel d id = Some d' /\ Deque.rep d' (id :: post ++ pre).
Proof.
  intros pre. revert post. induction pre as [|x pre IH]; intros post d fuel R Hn Hf; (destruct fuel as [|fuel]; [cbn in Hf; lia|]); cbn [remove_loop];
    rewrite (Deque.front_spec _ _ R); cbn [head app mjoin option_join mbind option_bind].
  - rewrite Z.eqb_refl. exists d. by rewrite app_nil_r.
  - apply not_elem_of_cons in Hn as [Hx Hn]. rewrite (proj2 (Z.eqb_neq x id)) by done.
    pose proof (Deque.rep_small _ _ (proj1 R)) as Hm. change ((x :: pre) ++ id :: post) with (x :: pre ++ id :: post) in *.
    destruct (Deque.pop_front_spec _ _ _ R) as (d1 & -> & R1). cbn [mbind option_bind].
    destruct (Deque.push_back_spec d1 _ x R1) as (d2 & -> & R2); [unfold alen in *; cbn [length] in Hm; lia|]. cbn [mbind option_bind].
    rewrite <- app_assoc in R2. destruct (IH (post ++ [x]) d2 fuel R2 Hn ltac:(cbn [length] in Hf; lia)) as (d' & E & R').
    exists d'. split; [done|]. by rewrite <- app_assoc in R'.
Qed.

Lemma close_spec s q id : inv s q -> id ∈ q -> exists s' q', close s id = Some s' /\ inv s' q' /\ q' ⊆ q /\ id ∉ q'.
Proof.
  intros I Hid. destruct (list_elem_of_split_l q id Hid) as (pre & post & Eq & Hpre).
  destruct (inv_stale s q None I ltac:(done)) as [[Rq N D] _ P R K].
  unfold close, removeFromVirtualRTCs. rewrite (clocks_size _ _ (inv_clocks _ _ I)).
  rewrite Eq in Rq. destruct (remove_loop_spec id post pre (virtualRTCs s) (S (length q)) Rq Hpre) as (d1 & -> & R1);
    [rewrite Eq, length_app; lia|]. cbn [mbind option_bind].
  destruct (Deque.pop_front_spec _ _ _ R1) as (d2 & -> & R2). cbn [mbind option_bind].
  assert (Hsub : forall j, j ∈ post ++ pre -> j ∈ q).
  { intros j Hj. rewrite Eq. apply elem_of_app. apply elem_of_app in Hj as [?|?]; [right; by right|by left]. }
  assert (Hperm : q ≡ₚ id :: post ++ pre) by (rewrite Eq, <- Permutation_middle; by rewrite (Permutation_app_comm pre post)).
  assert (Hnd : NoDup (id :: post ++ pre)) by by rewrite <- Hperm. apply list.NoDup_cons in Hnd as [Hnot Hnd].
  destruct (ensure_spec (set_list s d2) (post ++ pre) None) as (s2 & -> & I2 & _).
  { split; [split; [done|done|]|done|..]; try done.
    - intros j Hj. apply D. by apply Hsub.
    - intros j e Hj. apply P. by apply Hsub.
    - intros j e Hj. apply R. by apply Hsub. }
  cbn [mbind option_bind]. eexists _, (post ++ pre). split; [reflexivity|]. split; [|by split].
  destruct I2 as [[R2' N2 D2] T2 A2 B2 C2 K2].
  assert (Hlk : forall j, j ∈ post ++ pre -> delete id (devs s2) !! j = devs s2 !! j).
  { intros j Hj. apply lookup_delete_ne. by intros <-. }
  split; try done.
  - split; [done|done|]. intros j Hj. cbn. rewrite Hlk by done. by apply D2.
  - cbn. rewrite T2. apply eq_sym, top_ext. intros j Hj. unfold freq. by rewrite Hlk.
  - intros j e Hj He. cbn in He. rewrite Hlk in He by done. by apply (A2 j).
  - intros j e Hj He. cbn in He. rewrite Hlk in He by done. by apply (B2 j).
  - intros j e Hj He. cbn in He. rewrite Hlk in He by done. by apply (C2 j).
Qed.

Lemma rtc_init_inv prevA prevB : inv (init prevA prevB) [].
Proof. split; try done. split; [apply Deque.init_rep|apply NoDup_nil_2|intros id; by intros ?%not_elem_of_nil]. Qed.

(** ** Histories *)

Inductive op := Open (id heap stack : Z) | Write (id freq : Z) | Close (id : Z) | Read (id th : Z) | Tick.

(** The state after an operation, and the clocks whose reader goes on. *)
Definition step (s : t) (o : op) : option (t * list Z) :=
  match o with
  | Open id heap stack => s ← getNewInstance s id heap stack; Some (s, [])
  | Write id f => '(s, _) ← write s id f; Some (s, [])
  | Close id => s ← close s id; Some (s, [])
  | Read id th => '(s, b) ← read s id th; Some (s, if (b : bool) then [id] else [])
  | Tick => '(s, ws) ← handler s; Some (s, ws.*1)
  end.
Fixpoint run (s : t) (os : list op) : option (t * list Z) :=
  match os with
  | [] => Some (s, [])
  | o :: os => '(s, l) ← step s o; '(s, l') ← run s os; Some (s, l ++ l')
  end.

(** The clock is in the deque. *)
Definition listed (s : t) (id : Z) : Prop :=
  exists i, 0 <= i < Deque.size (virtualRTCs s) /\ Deque.at_ (virtualRTCs s) i = Some (Some id).

(** A new object is at an address of its own; the other operations are on open files;
    [backlog] is an [int]. *)
Definition op_ok (s : t) (o : op) : Prop :=
  match o with
  | Open id _ _ => ~ listed s id /\ Deque.size (virtualRTCs s) + 1 < 2 ^ 30
  | Write id _ | Close id | Read id _ => listed s id
  | Tick => forall id d, listed s id -> devs s !! id = Some d -> backlog d < 2 ^ 31 - 1
  end.

Inductive reachable (A B : Z) : t -> Prop :=
  | reach_init : reachable A B (init A B)
  | reach_step s o s' l : reachable A B s -> op_ok s o -> step s o = Some (s', l) -> reachable A B s'.

Lemma listed_iff s q id : clocks s q -> listed s id <-> id ∈ q.
Proof.
  intros C. pose proof (ck_rep _ _ C) as R. unfold listed, Deque.size. rewrite (Deque.rep_size _ _ (proj1 R)). split.
  - intros (i & Hi & E). rewrite (Deque.at_spec _ _ _ R) in E by lia. injection E as E. by eapply list_elem_of_lookup_2.
  - intros [i Hi]%list_elem_of_lookup. exists (Z.of_nat i). pose proof (lookup_lt_Some _ _ _ Hi). unfold alen.
    split; [lia|]. rewrite (Deque.at_spec _ _ _ R) by lia. by rewrite Nat2Z.id, Hi.
Qed.

Lemma step_inv s q o : inv s q -> op_ok s o -> exists s' l q', step s o = Some (s', l) /\ inv s' q'.
Proof.
  intros I Ho. pose proof (inv_clocks _ _ I) as C. pose proof (fun id => listed_iff s q id C) as HL.
  destruct o as [id heap stack|id f|id|id th|]; cbn [step op_ok] in *.
  - destruct Ho as [Hn Hs]. rewrite HL in Hn. unfold Deque.size in Hs. rewrite (Deque.rep_size _ _ (proj1 (ck_rep _ _ C))) in Hs.
    destruct (getNewInstance_spec s q id heap stack I Hn Hs) as (s' & -> & I'). by eexists _, _, _.
  - rewrite HL in Ho. destruct (write_spec s q id f I Ho) as (s' & r & -> & I' & _). by eexists _, _, _.
  - rewrite HL in Ho. destruct (close_spec s q id I Ho) as (s' & q' & -> & I' & _). by eexists _, _, _.
  - rewrite HL in Ho. destruct (read_inv s q id th I Ho) as (s' & b & -> & I'). by eexists _, _, _.
  - destruct (rtc_handler_spec s q I) as (s' & ws & -> & I' & _); [|by eexists _, _, _].
    intros id d Hid. apply Ho. by apply HL.
Qed.

Lemma reachable_inv A B s : reachable A B s -> exists q, inv s q.
Proof.
  induction 1 as [|s o s' l _ [q I] Ho E]; [eexists; apply rtc_init_inv|].
  destruct (step_inv s q o I Ho) as (s1 & l1 & q' & E1 & I1). rewrite E in E1. injection E1 as <- _. by exists q'.
Qed.

(** ** The frequencies *)

Definition frequencies : list Z := [1024; 512; 256; 128; 64; 32; 16; 8; 4; 2].
Lemma valid_freq f : frequency_converter f <> 0 -> f ∈ frequencies.
Proof.
  unfold frequency_converter. repeat case_match; rewrite ?Z.eqb_eq in *; subst; try done; intros _;
    apply list_elem_of_In; cbn; tauto.
Qed.
Definition divides_check (h f : Z) : bool :=
  if f <=? h then
    let n := if f <? h then u32 (Z.quot h f) else 1 in (n * f =? h) && (1 <=? n) && (n <? 2 ^ 31)
  else true.
Lemma divides_checks : forallb (fun h => forallb (divides_check h) frequencies) frequencies = true.
Proof. vm_compute. reflexivity. Qed.
Lemma divides h f : frequency_converter h <> 0 -> frequency_converter f <> 0 -> f <= h ->
  let n := if f <? h then u32 (Z.quot h f) else 1 in n * f = h /\ 1 <= n < 2 ^ 31.
Proof.
  intros Hh%valid_freq Hf%valid_freq Hle. pose proof divides_checks as H. rewrite forallb_forall in H.
  specialize (H h ltac:(by apply list_elem_of_In)). rewrite forallb_forall in H.
  specialize (H f ltac:(by apply list_elem_of_In)). unfold divides_check in H. rewrite (proj2 (Z.leb_le f h) Hle) in H.
  cbv zeta in *. rewrite !andb_true_iff in H. lia.
Qed.

Lemma top_ge m q : forall x, x <= foldl (fun x id => Z.max x (freq m id)) x q /\
  (forall id, id ∈ q -> freq m id <= foldl (fun x id => Z.max x (freq m id)) x q).
Proof.
  induction q as [|j q IH]; intros x; cbn; [split; [lia|by intros id ?%not_elem_of_nil]|].
  destruct (IH (Z.max x (freq m j))) as [H1 H2]. split; [lia|]. intros id [->|Hid]%elem_of_cons; [lia|by apply H2].
Qed.
Lemma top_in m q : forall x, foldl (fun x id => Z.max x (freq m id)) x q = x \/
  exists id, id ∈ q /\ foldl (fun x id => Z.max x (freq m id)) x q = freq m id.
Proof.
  induction q as [|j q IH]; intros x; cbn; [by left|].
  destruct (IH (Z.max x (freq m j))) as [->|(id & Hid & ->)].
  - destruct (Z.max_spec x (freq m j)) as [[_ ->]|[_ ->]]; [right; exists j; split; [by left|done]|by left].
  - right. exists id. split; [by right|done].
Qed.

(** When every clock has a frequency, the chip runs at one of them, and each divides it. *)
Lemma rate_divides s q id d : inv s q -> (forall j e, j ∈ q -> devs s !! j = Some e -> frequency_converter (ourFreq e) <> 0) ->
  id ∈ q -> devs s !! id = Some d ->
  frequency_converter (hardwareRTCFrequency s) <> 0 /\
  numCountToTriggerRTC d * ourFreq d = hardwareRTCFrequency s /\ 1 <= numCountToTriggerRTC d < 2 ^ 31.
Proof.
  intros I Hv Hid Hd. pose proof (Hv _ _ Hid Hd) as Hf.
  assert (Hpos : 0 < ourFreq d).
  { apply valid_freq, list_elem_of_In in Hf. cbn in Hf. lia. }
  destruct (top_ge (devs s) q 0) as [H0 Hge]. specialize (Hge id Hid). unfold freq in Hge at 1. rewrite Hd in Hge. cbn in Hge.
  assert (Htop : frequency_converter (hardwareRTCFrequency s) <> 0).
  { rewrite (inv_top _ _ I). unfold top. destruct (top_in (devs s) q 0) as [E|(j & Hj & ->)]; [lia|].
    destruct (ck_dom _ _ (inv_clocks _ _ I) j Hj) as [e He]. unfold freq. rewrite He. by apply (Hv j). }
  split; [done|]. destruct (inv_rate _ _ I _ _ Hid Hd) as [_ ->]; [|lia]. apply divides; [done|done|].
  by rewrite (inv_top _ _ I).
Qed.

(** The chip's rate: a register [r] stands for [32768 >> (r - 1)] ticks a second. *)
Lemma converter_rate f : frequency_converter f <> 0 -> 32768 / 2 ^ (frequency_converter f - 1) = f.
Proof.
  intros Hf%valid_freq%list_elem_of_In. cbn in Hf.
  repeat (destruct Hf as [<-|Hf]; [reflexivity|]). done.
Qed.

(** The highest frequency asked for is the chip's. *)
Lemma rate_highest s q : inv s q -> (forall j e, j ∈ q -> devs s !! j = Some e -> frequency_converter (ourFreq e) <> 0) ->
  forall id, id ∈ q ->
  (forall j e, j ∈ q -> devs s !! j = Some e -> ourFreq e <= hardwareRTCFrequency s) /\
  exists j e, j ∈ q /\ devs s !! j = Some e /\ ourFreq e = hardwareRTCFrequency s.
Proof.
  intros I Hv id Hq. rewrite (inv_top _ _ I). unfold top. destruct (top_ge (devs s) q 0) as [H0 Hge].
  assert (Hle : forall j e, j ∈ q -> devs s !! j = Some e -> ourFreq e <= foldl (fun x id => Z.max x (freq (devs s) id)) 0 q).
  { intros j e Hj He. specialize (Hge j Hj). unfold freq in Hge at 1. by rewrite He in Hge. }
  split; [done|]. destruct (top_in (devs s) q 0) as [E|(j & Hj & E)].
  - exfalso. destruct (ck_dom _ _ (inv_clocks _ _ I) id Hq) as [e He]. specialize (Hle id e Hq He). specialize (Hv id e Hq He).
    apply valid_freq, list_elem_of_In in Hv. cbn in Hv. lia.
  - destruct (ck_dom _ _ (inv_clocks _ _ I) j Hj) as [e He]. exists j, e. split_and!; [done|done|].
    rewrite E. unfold freq. by rewrite He.
Qed.

(** ** Pacing *)

(** How many ticks the operations hold, and how often the clock let a reader go on. *)
Definition is_tick (o : op) : bool := match o with Tick => true | _ => false end.
Definition ticks (os : list op) : Z := alen (filter is_tick os).
Definition times (id : Z) (l : list Z) : Z := alen (filter (fun x => x = id) l).

Lemma ticks_cons o os : ticks (o :: os) = (if is_tick o then 1 else 0) + ticks os.
Proof.
  unfold ticks. rewrite filter_cons. destruct (is_tick o).
  - rewrite decide_True by done. unfold alen. cbn [length]. lia.
  - rewrite decide_False by (intros []). done.
Qed.
Lemma times_app id l1 l2 : times id (l1 ++ l2) = times id l1 + times id l2.
Proof. unfold times. rewrite list.filter_app. unfold alen. rewrite length_app. lia. Qed.
Lemma times_fst id (ws : list (Z * Z)) : times id ws.*1 = alen (filter (fun p => p.1 = id) ws).
Proof.
  unfold times, alen. induction ws as [|[x th] ws IH]; [done|]. change ((x, th) :: ws).*1 with (x :: ws.*1).
  rewrite !filter_cons. destruct (decide (x = id)); cbn [fst] in *.
  - rewrite !decide_True by done. cbn [length]. lia.
  - rewrite !decide_False by done. done.
Qed.

(** [done] completions and [b] kept ticks after [k] ticks of the chip: the clock [d'] is
    where the clock [d] has to be. *)
Record paced (d d' : dev) (k done : Z) : Prop := {
  pc_freq : ourFreq d' = ourFreq d;
  pc_num : numCountToTriggerRTC d' = numCountToTriggerRTC d;
  pc_count : (done + backlog d' - backlog d) * numCountToTriggerRTC d + Z.min (counter d') (numCountToTriggerRTC d)
    = Z.min (counter d) (numCountToTriggerRTC d) + k;
  pc_ticked : 0 < k -> 1 <= counter d';
  pc_backlog : backlog d' <= backlog d + k;
  pc_done : 0 <= done }.

Lemma paced_refl d : paced d d 0 0.
Proof. split; try done; lia. Qed.
Lemma paced_trans d1 d2 d3 k1 k2 n1 n2 : paced d1 d2 k1 n1 -> paced d2 d3 k2 n2 -> 0 <= k1 -> 0 <= k2 -> 0 <= counter d2 -> 
  (k2 = 0 -> counter d3 = counter d2) -> paced d1 d3 (k1 + k2) (n1 + n2).
Proof.
  intros [F1 N1 C1 T1 B1 D1] [F2 N2 C2 T2 B2 D2] Hk1 Hk2 Hc H0. rewrite N1 in *.
  split; try congruence; try lia; nia.
Qed.

Lemma trigger_paced d d' w : 0 <= counter d -> 1 <= numCountToTriggerRTC d < 2 ^ 31 ->
  triggerIfPossible d = Some (d', w) ->
  paced d d' 1 (alen (from_option (fun th => [(0, th)]) [] w)).
Proof.
  intros Hc Hn. unfold triggerIfPossible. destruct (Z.leb_spec (numCountToTriggerRTC d) (counter d)) as [Hle|Hlt].
  - destruct (waiting d); [intros [= <- <-]|destruct (_ <? _); [|done]; intros [= <- <-]]; split; cbn; unfold alen; cbn; lia.
  - intros [= <- <-]. assert (Hu : u32 (counter d + 1) = counter d + 1) by (apply u32_small; lia).
    split; cbn [ourFreq numCountToTriggerRTC backlog counter from_option]; rewrite ?Hu; unfold alen; cbn [length]; lia.
Qed.

Lemma read_paced s q id th s' b : inv s q -> read s id th = Some (s', b) -> forall j d, j ∈ q -> devs s !! j = Some d ->
  exists d', devs s' !! j = Some d' /\ paced d d' 0 (times j (if b then [id] else [])) /\ counter d' = counter d.
Proof.
  intros I E j d Hj Hd. pose proof (inv_backlog _ _ I _ _ Hj Hd). unfold read in E.
  destruct (devs s !! id) as [e|] eqn:He; [|done]. cbn [mbind option_bind] in E.
  destruct (decide (j = id)) as [->|Hne].
  - rewrite Hd in He. injection He as <-.
    destruct (Z.ltb_spec 0 (backlog d)); injection E as <- <-; cbn [devs set_devs]; rewrite lookup_insert_eq;
      eexists; split; try reflexivity; split; try reflexivity; unfold times.
    + rewrite filter_cons, decide_True by done. split; cbn; unfold alen; cbn; lia.
    + split; cbn; unfold alen; cbn; lia.
  - assert (Ht : times j (if b then [id] else []) = 0).
    { destruct b; [|done]. unfold times. by rewrite filter_cons, decide_False by done. }
    rewrite Ht. exists d. split; [|split; [apply paced_refl|done]].
    destruct (0 <? backlog e); injection E as <- <-; cbn [devs set_devs]; by rewrite lookup_insert_ne.
Qed.

(** Ticks and reads alone. *)
Definition calm (q : list Z) (o : op) : Prop := match o with Tick => True | Read id _ => id ∈ q | _ => False end.

Lemma run_paced q os : forall s, inv s q -> Forall (calm q) os ->
  (forall id d, id ∈ q -> devs s !! id = Some d -> 1 <= numCountToTriggerRTC d < 2 ^ 31 /\ backlog d + ticks os < 2 ^ 31 - 1) ->
  exists s' l, run s os = Some (s', l) /\ inv s' q /\
    forall id d, id ∈ q -> devs s !! id = Some d -> exists d', devs s' !! id = Some d' /\ paced d d' (ticks os) (times id l) /\
      (ticks os = 0 -> counter d' = counter d).
Proof.
  induction os as [|o os IH]; intros s I Hos Hb.
  { exists s, []. split; [done|]. split; [done|]. intros id d _ Hd. exists d. split; [done|]. split; [apply paced_refl|done]. }
  apply list.Forall_cons in Hos as [Ho Hos]. pose proof (alen_nonneg (filter is_tick os)) as Ht0. fold (ticks os) in Ht0.
  assert (Hone : exists s1 l1, step s o = Some (s1, l1) /\ inv s1 q /\
    forall id d, id ∈ q -> devs s !! id = Some d -> exists d1, devs s1 !! id = Some d1 /\
      paced d d1 (if is_tick o then 1 else 0) (times id l1) /\ (is_tick o = false -> counter d1 = counter d)).
  { destruct o as [| | |id th|]; try done; cbn [step is_tick].
    - destruct (read_inv s q id th I Ho) as (s1 & b & E & I1). rewrite E. eexists _, _. split; [reflexivity|]. split; [done|].
      intros j d Hj Hd. destruct (read_paced s q id th s1 b I E j d Hj Hd) as (d1 & ? & ? & ?). by exists d1.
    - destruct (rtc_handler_spec s q I) as (s1 & ws & -> & I1 & H1).
      { intros id d Hid Hd. destruct (Hb id d Hid Hd) as [_ H]. rewrite ticks_cons in H. cbn in H. lia. }
      eexists _, _. split; [reflexivity|]. split; [done|]. intros j d Hj Hd.
      destruct (H1 j Hj d Hd) as (d1 & w & Et & Hd1 & Hf). exists d1. split; [done|]. split; [|done].
      rewrite times_fst, Hf. destruct (inv_rate _ _ I _ _ Hj Hd) as [Hc _].
      pose proof (trigger_paced d d1 w Hc (proj1 (Hb _ _ Hj Hd)) Et) as P. destruct w; exact P. }
  destruct Hone as (s1 & l1 & E1 & I1 & H1). set (k1 := if is_tick o then 1 else 0) in *.
  destruct (IH s1 I1 Hos) as (s2 & l2 & E2 & I2 & H2).
  { intros id d1 Hid Hd1. destruct (ck_dom _ _ (inv_clocks _ _ I) id Hid) as [d Hd].
    destruct (H1 id d Hid Hd) as (d1' & Hd1' & P & _). rewrite Hd1 in Hd1'. injection Hd1' as <-.
    destruct (Hb id d Hid Hd) as [Hn Hbk]. rewrite ticks_cons in Hbk. fold k1 in Hbk. rewrite (pc_num _ _ _ _ P).
    split; [done|]. pose proof (pc_backlog _ _ _ _ P). lia. }
  cbn [run]. rewrite E1. cbn [mbind option_bind]. rewrite E2. cbn [mbind option_bind].
  eexists _, _. split; [reflexivity|]. split; [done|]. intros id d Hid Hd. rewrite ticks_cons, times_app. fold k1.
  destruct (H1 id d Hid Hd) as (d1 & Hd1 & P1 & C1). destruct (H2 id d1 Hid Hd1) as (d2 & Hd2 & P2 & C2).
  destruct (inv_rate _ _ I1 _ _ Hid Hd1) as [Hc1 _]. exists d2. split; [done|]. split.
  - apply (paced_trans d d1 d2); try done. subst k1. destruct (is_tick o); lia.
  - intros Hz. assert (is_tick o = false) by (subst k1; destruct (is_tick o); [lia|done]).
    rewrite C2 by (subst k1; destruct (is_tick o); lia). by apply C1.
Qed.

(** C13: However clocks were opened, set, read and closed before: when each open one has
    had its frequency written, the hardware frequency is the highest of them - no clock
    asked for more, and one asked for it - and the rate in register A stands for it
    ([32768 >> (rate - 1)]); and [k] ticks let the clock's readers go on, or keep for
    later reads, exactly one completion every [n] ticks, where [n] divides the frequency
    of the chip down to the clock's. *)
Theorem rtc_paces_reads (A B : Z) (s : t) (os : list op) :
  reachable A B s ->
  (forall id d, listed s id -> devs s !! id = Some d ->
     frequency_converter (ourFreq d) <> 0 /\ backlog d + ticks os < 2 ^ 31 - 1) ->
  Forall (fun o => o = Tick \/ exists id th, o = Read id th /\ listed s id) os -> 0 < ticks os ->
  exists s' l, run s os = Some (s', l) /\
    forall id d, listed s id -> devs s !! id = Some d -> exists d' n, devs s' !! id = Some d' /\
      (forall j e, listed s j -> devs s !! j = Some e -> ourFreq e <= hardwareRTCFrequency s) /\
      (exists j e, listed s j /\ devs s !! j = Some e /\ ourFreq e = hardwareRTCFrequency s) /\
      Z.land (statusA s) 0x0F = frequency_converter (hardwareRTCFrequency s) /\
      32768 / 2 ^ (Z.land (statusA s) 0x0F - 1) = hardwareRTCFrequency s /\
      n * ourFreq d = hardwareRTCFrequency s /\
      times id l + backlog d' = backlog d + (Z.min (counter d) n + ticks os - 1) / n.
Proof.
  intros Hre Hv Hos Hk. destruct (reachable_inv A B s Hre) as [q I].
  pose proof (fun id => listed_iff s q id (inv_clocks _ _ I)) as HL.
  assert (Hvalid : forall j e, j ∈ q -> devs s !! j = Some e -> frequency_converter (ourFreq e) <> 0).
  { intros j e Hj He. by apply (Hv j e); [apply HL|]. }
  destruct (run_paced q os s I) as (s' & l & E & I' & H).
  - eapply List.Forall_impl; [|exact Hos]. intros o [->|(id & th & -> & Hid)]; [done|by apply HL].
  - intros id d Hid Hd. destruct (rate_divides s q id d I Hvalid Hid Hd) as (_ & _ & ?). split; [done|].
    by apply (Hv id d); [apply HL|].
  - exists s', l. split; [done|]. intros id d Hid%HL Hd. destruct (H id d Hid Hd) as (d' & Hd' & P & _).
    destruct (rate_divides s q id d I Hvalid Hid Hd) as (Hh & Hn & Hn1).
    destruct (rate_highest s q I Hvalid id Hid) as [Hmax (j & e & Hj & He & Ee)].
    exists d', (numCountToTriggerRTC d). split; [done|]. split; [intros j' e' Hj'%HL; by apply Hmax|].
    split; [exists j, e; by rewrite HL|].
    split; [by apply (inv_chip _ _ I)|]. split; [rewrite (inv_chip _ _ I Hh); by apply converter_rate|]. split; [done|].
    destruct P as [_ _ Hc Ht _ _]. specialize (Ht Hk). set (n := numCountToTriggerRTC d) in *.
    assert (Hq : (Z.min (counter d) n + ticks os - 1) / n = times id l + backlog d' - backlog d); [|lia].
    symmetry. apply (Z.div_unique _ _ _ (Z.min (counter d') n - 1)); lia.
Qed.

(** Two clocks at 2 and 8 Hz. *)
Definition after (s : t) (o : op) : t := from_option fst s (step s o).
Definition demo1 : t := after (init 0x26 0) (Open 100 0 7).
Definition demo2 : t := after demo1 (Write 100 2).
Definition demo3 : t := after demo2 (Open 200 0 9).
Definition demo : t := after demo3 (Write 200 8).

Lemma demo_list : Deque.size (virtualRTCs demo2) = 1 /\ Deque.at_ (virtualRTCs demo2) 0 = Some (Some 100).
Proof. split; vm_compute; reflexivity. Qed.
Lemma demo_lists : Deque.size (virtualRTCs demo) = 2 /\
  Deque.at_ (virtualRTCs demo) 0 = Some (Some 100) /\ Deque.at_ (virtualRTCs demo) 1 = Some (Some 200).
Proof. split_and!; vm_compute; reflexivity. Qed.

Lemma demo_reachable : reachable 0x26 0 demo.
Proof.
  assert (H1 : reachable 0x26 0 demo1).
  { apply (reach_step 0x26 0 (init 0x26 0) (Open 100 0 7) _ []); [constructor| |vm_compute; reflexivity]. split; [|done].
    intros (i & Hi & _). change (Deque.size _) with 0 in Hi. lia. }
  assert (H2 : reachable 0x26 0 demo2).
  { apply (reach_step 0x26 0 demo1 (Write 100 2) _ []); [done| |vm_compute; reflexivity]. exists 0.
    split; [split; [done|]|]; vm_compute; reflexivity. }
  destruct demo_list as [Hs Ha].
  assert (H3 : reachable 0x26 0 demo3).
  { apply (reach_step 0x26 0 demo2 (Open 200 0 9) _ []); [done| |vm_compute; reflexivity]. split; [|by rewrite Hs].
    intros (i & Hi & E). rewrite Hs in Hi. assert (i = 0) as -> by lia. rewrite Ha in E. discriminate E. }
  apply (reach_step 0x26 0 demo3 (Write 200 8) _ []); [done| |vm_compute; reflexivity]. exists 1.
  split; [split; [done|]|]; vm_compute; reflexivity.
Qed.

Lemma demo_clocks id : listed demo id -> id = 100 \/ id = 200.
Proof.
  destruct demo_lists as (Hs & H0 & H1). intros (i & Hi & E). rewrite Hs in Hi.
  assert (i = 0 \/ i = 1) as [-> | ->] by lia.
  - left. rewrite H0 in E. by injection E as <-.
  - right. rewrite H1 in E. by injection E as <-.
Qed.
Lemma demo_listed : listed demo 100.
Proof. destruct demo_lists as (Hs & H0 & H1). exists 0. split; [rewrite Hs; lia|exact H0]. Qed.

(** The clocks' frequencies and kept ticks. *)
Lemma demo_devs : exists d1 d2, devs demo !! 100 = Some d1 /\ devs demo !! 200 = Some d2 /\
  (ourFreq d1, backlog d1, counter d1) = (2, 0, 0) /\ (ourFreq d2, backlog d2) = (8, 0) /\ hardwareRTCFrequency demo = 8.
Proof. eexists _, _. split_and!; vm_compute; reflexivity. Qed.

Lemma rtc_paces_reads_witness :
  exists s' l d', run demo [Read 100 1; Tick; Tick; Tick; Tick; Tick; Tick; Tick; Tick; Tick] = Some (s', l) /\
    devs s' !! 100 = Some d' /\ times 100 l + backlog d' = 2.
Proof.
  destruct demo_devs as (d1 & d2 & E1 & E2 & [= F1 B1 C1] & [= F2 B2] & Hh).
  destruct (rtc_paces_reads 0x26 0 demo [Read 100 1; Tick; Tick; Tick; Tick; Tick; Tick; Tick; Tick; Tick])
    as (s' & l & E & H).
  - apply demo_reachable.
  - intros id d [-> | ->]%demo_clocks Hd; [rewrite E1 in Hd|rewrite E2 in Hd]; injection Hd as <-; rewrite ?F1, ?B1, ?F2, ?B2; by split.
  - apply list.Forall_cons. split; [right; exists 100, 1; split; [done|apply demo_listed]|repeat constructor].
  - reflexivity.
  - destruct (H 100 d1 demo_listed E1) as (d' & n & Hd & _ & _ & _ & _ & Hn & Hc).
    exists s', l, d'. split; [exact E|]. split; [exact Hd|]. rewrite Hc, B1. rewrite F1, Hh in Hn.
    assert (n = 4) as -> by lia. change (ticks _) with 9.
    rewrite C1. reflexivity.
Defined.
End Rtc.
