(* ===== verification/Spinlock.v ===== *)
(** * Spin locks (student-distrib/klibs/spinlock.cpp, inc/klibs/spinlock.h, AutoSpinLock.h)

    The lock word and its atomic exchanges, between processors that interleave freely,
    and the scoped lock on one processor whose interrupts nest. *)
From stdpp Require Import prelude list numbers.
From Stdlib Require Import ZArith Lia.
From S2P Require Import Prelude.

Module Spinlock.

Definition SPINLOCK_LOCKED : Z := 1.
Definition SPINLOCK_UNLOCKED : Z := 0.

(** [lock xchgl]: the old word and the new one. *)
Definition xchg (word new : Z) : Z * Z := (word, new).

Definition spin_lock_init (_ : Z) : Z := SPINLOCK_UNLOCKED.
(** One turn of the loop of [spin_lock]: the word after it, and whether the loop ends. *)
Definition spin_lock (word : Z) : Z * bool :=
  let '(eax, word) := xchg word SPINLOCK_LOCKED in (word, negb (eax =? SPINLOCK_LOCKED)).
Definition spin_unlock (_ : Z) : Z := SPINLOCK_UNLOCKED.
Definition spin_trylock (word : Z) : Z * Z :=
  let '(temp, word) := xchg word SPINLOCK_LOCKED in (word, if temp =? SPINLOCK_LOCKED then 0 else 1).
Definition spin_is_locked (word : Z) : bool := word =? SPINLOCK_LOCKED.

(** ** Processors that share the word *)

Inductive pc := Out | Spinning | Holding.
#[global] Instance pc_eq_dec : EqDecision pc.
Proof. solve_decision. Defined.

Record smp := mk_smp { word : Z; pcs : list pc }.

Inductive smp_step : smp -> smp -> Prop :=
  | smp_call w p i : p !! i = Some Out -> smp_step (mk_smp w p) (mk_smp w (<[i := Spinning]> p))
  | smp_turn w p i : p !! i = Some Spinning ->
      smp_step (mk_smp w p) (mk_smp (spin_lock w).1 (if (spin_lock w).2 then <[i := Holding]> p else p))
  | smp_try w p i : p !! i = Some Out ->
      smp_step (mk_smp w p) (mk_smp (spin_trylock w).1 (if (spin_trylock w).2 =? 1 then <[i := Holding]> p else p))
  | smp_unlock w p i : p !! i = Some Holding -> smp_step (mk_smp w p) (mk_smp (spin_unlock w) (<[i := Out]> p)).

Inductive smp_reachable (n : nat) (w : Z) : smp -> Prop :=
  | smp_start : smp_reachable n w (mk_smp (spin_lock_init w) (replicate n Out))
  | smp_next s s' : smp_reachable n w s -> smp_step s s' -> smp_reachable n w s'.

(** ** One processor whose interrupts nest *)

(** Where a piece of code is with its scoped lock, and the flag it saved. *)
Inductive place := Free | Saved (flag : bool) | In (flag : bool) | Done (flag : bool).

(** The word, the interrupt flag, and the code that runs over the code it interrupted. *)
Record cpu := mk_cpu { lock : Z; IF : bool; top : place; below : list place }.

Inductive action :=
  | Interrupt | Iret | Sti | Cli
  | IrqSave | KeepSave | Turn | Unlock | Restore.

(** [spin_lock_irqsave] is [IrqSave] and [Turn]s, [spin_unlock_irqrestore] is [Unlock]
    and [Restore]; [AutoSpinLockKeepIF] takes the lock with [KeepSave] instead. An
    action that is not the next one of the code is [None]. *)
Definition act (s : cpu) (a : action) : option cpu :=
  match a, top s with
  | Interrupt, p => if IF s then Some (mk_cpu (lock s) false Free (p :: below s)) else None
  | Iret, Free => match below s with p :: b => Some (mk_cpu (lock s) true p b) | [] => None end
  | Sti, Free => Some (mk_cpu (lock s) true Free (below s))
  | Cli, Free => Some (mk_cpu (lock s) false Free (below s))
  | IrqSave, Free => Some (mk_cpu (lock s) false (Saved (IF s)) (below s))
  | KeepSave, Free => Some (mk_cpu (lock s) (IF s) (Saved (IF s)) (below s))
  | Turn, Saved f => Some (mk_cpu (spin_lock (lock s)).1 (IF s) (if (spin_lock (lock s)).2 then In f else Saved f) (below s))
  | Unlock, In f => Some (mk_cpu (spin_unlock (lock s)) (IF s) (Done f) (below s))
  | Restore, Done f => Some (mk_cpu (lock s) f Free (below s))
  | _, _ => None
  end.
Fixpoint acts (s : cpu) (l : list action) : option cpu :=
  match l with [] => Some s | a :: l => s ← act s a; acts s l end.

Definition cpu_init : cpu := mk_cpu SPINLOCK_UNLOCKED true Free [].

(** [AutoSpinLock l(lock); body], and [waitUntil] with a condition that fails [n] times. *)
Definition auto_lock : list action := [IrqSave; Turn; Unlock; Restore].
Definition waitUntil (n : nat) : list action := [Unlock; Restore] ++ mjoin (replicate n auto_lock) ++ [IrqSave; Turn].

(** ** Mutual exclusion *)

Definition holders (p : list pc) : nat := length (filter (fun x => x = Holding) p).
#[local] Arguments holders : simpl never.
Definition smp_inv (s : smp) : Prop :=
  word s = (if decide (holders (pcs s) = 0%nat) then SPINLOCK_UNLOCKED else SPINLOCK_LOCKED) /\ (holders (pcs s) <= 1)%nat.

Lemma holders_insert p i x y : p !! i = Some x ->
  (holders (<[i := y]> p) + (if decide (x = Holding) then 1 else 0) = holders p + (if decide (y = Holding) then 1 else 0))%nat.
Proof.
  intros Hi. rewrite insert_take_drop by by eapply lookup_lt_Some. rewrite <- (take_drop_middle p i x Hi) at 3.
  unfold holders. rewrite !list.filter_app, !length_app, !filter_cons. destruct (decide (y = Holding)), (decide (x = Holding)); cbn [length]; lia.
Qed.

Lemma holders_replicate n : holders (replicate n Out) = 0%nat.
Proof. unfold holders. induction n as [|n IH]; [done|]. cbn [replicate]. by rewrite filter_cons, decide_False. Qed.

Lemma holder_pos p i : p !! i = Some Holding -> (1 <= holders p)%nat.
Proof. intros Hi. pose proof (holders_insert p i Holding Out Hi) as H. rewrite decide_True, decide_False in H by done. lia. Qed.

Lemma smp_step_inv s s' : smp_step s s' -> smp_inv s -> smp_inv s'.
Proof.
  intros Hs [Hw Hh]. destruct Hs as [w p i Hi|w p i Hi|w p i Hi|w p i Hi]; unfold smp_inv in *; cbn [word pcs] in *.
  - pose proof (holders_insert p i Out Spinning Hi) as H. rewrite !decide_False in H by done.
    replace (holders (<[i:=Spinning]> p)) with (holders p) by lia. done.
  - pose proof (holders_insert p i Spinning Holding Hi) as H. rewrite decide_False, decide_True in H by done.
    rewrite Hw. destruct (decide (holders p = 0%nat)) as [E|E]; cbn; [|by rewrite decide_False].
    rewrite decide_False by lia. split; [done|lia].
  - pose proof (holders_insert p i Out Holding Hi) as H. rewrite decide_False, decide_True in H by done.
    rewrite Hw. destruct (decide (holders p = 0%nat)) as [E|E]; cbn; [|by rewrite decide_False].
    rewrite decide_False by lia. split; [done|lia].
  - pose proof (holders_insert p i Holding Out Hi) as H. rewrite decide_True, decide_False in H by done.
    rewrite decide_True by lia. split; [done|lia].
Qed.

Lemma smp_reachable_inv n w s : smp_reachable n w s -> smp_inv s.
Proof.
  induction 1 as [|s s' _ IH Hs]; [|by eapply smp_step_inv].
  split; cbn; [by rewrite holders_replicate|rewrite holders_replicate; lia].
Qed.

(** C37: Whatever the word held before [spin_lock_init] and however the processors
    interleave, two never hold the lock at once, the word tells whether one does, and
    when none does the next turn of any processor that waits takes the lock. *)
Theorem spin_lock_excludes (n : nat) (w : Z) (s : smp) :
  smp_reachable n w s ->
  (forall i j, pcs s !! i = Some Holding -> pcs s !! j = Some Holding -> i = j) /\
  (spin_is_locked (word s) = true <-> exists i, pcs s !! i = Some Holding) /\
  (forall i, pcs s !! i = Some Spinning -> spin_is_locked (word s) = false ->
     smp_step s (mk_smp SPINLOCK_LOCKED (<[i := Holding]> (pcs s)))).
Proof.
  intros Hr. destruct (smp_reachable_inv n w s Hr) as [Hw Hh]. split_and!.
  - intros i j Hi Hj. destruct (decide (i = j)) as [|Hne]; [done|].
    pose proof (holders_insert _ i Holding Out Hi) as H. rewrite decide_True, decide_False in H by done.
    assert (Hj' : <[i:=Out]> (pcs s) !! j = Some Holding) by by rewrite list_lookup_insert_ne.
    apply holder_pos in Hj'. lia.
  - rewrite Hw. split.
    + destruct (decide (holders (pcs s) = 0%nat)) as [|E]; [done|]. intros _.
      destruct (filter (fun x => x = Holding) (pcs s)) as [|x l] eqn:Ef; [unfold holders in E; by rewrite Ef in E|].
      assert (Hx : x ∈ filter (fun x => x = Holding) (pcs s)) by (rewrite Ef; by left).
      apply list_elem_of_filter in Hx as [-> Hx]. by apply list_elem_of_lookup in Hx.
    + intros [i Hi%holder_pos]. by rewrite decide_False by lia.
  - intros i Hi Hl. destruct s as [w' p]. cbn in *. pose proof (smp_turn w' p i Hi) as Hs. unfold spin_lock, xchg in Hs.
    unfold spin_is_locked in Hl. rewrite Hl in Hs. exact Hs.
Qed.

Lemma spin_lock_excludes_witness :
  smp_reachable 2 7 (mk_smp 1 [Holding; Spinning]) /\
  (forall i j, [Holding; Spinning] !! i = Some Holding -> [Holding; Spinning] !! j = Some Holding -> i = j).
Proof.
  assert (H : smp_reachable 2 7 (mk_smp 1 [Holding; Spinning])).
  { eapply smp_next; [eapply smp_next; [eapply smp_next; [apply smp_start|]|]|].
    - exact (smp_call 0 [Out; Out] 0 eq_refl).
    - exact (smp_turn 0 [Spinning; Out] 0 eq_refl).
    - exact (smp_call 1 [Holding; Out] 1 eq_refl). }
  split; [exact H|]. apply (spin_lock_excludes 2 7 _ H).
Defined.

(** ** The scoped lock and interrupts *)

(** Only code that is outside the lock is interrupted, and the word is that of the
    code that runs. *)
Definition cpu_inv (s : cpu) : Prop :=
  (IF s = true -> top s = Free) /\ Forall (fun p => p = Free) (below s) /\
  lock s = match top s with In _ => SPINLOCK_LOCKED | _ => SPINLOCK_UNLOCKED end.

(** The actions of code that takes the lock with [AutoSpinLock]. *)
Definition scoped (a : action) : bool := match a with KeepSave => false | _ => true end.

Lemma act_inv s a s' : cpu_inv s -> scoped a = true -> act s a = Some s' -> cpu_inv s'.
Proof.
  intros (Hi & Hb & Hl) Ha E. destruct s as [l f p b]. cbn in *. unfold cpu_inv.
  destruct a, p; try discriminate; cbn [act top lock IF below] in *; try (destruct f; [specialize (Hi eq_refl); discriminate|]).
  all: try discriminate E.
  all: try (destruct f; [|discriminate E]).
  all: try (destruct b as [|q b]; [discriminate E|]; apply list.Forall_cons in Hb as [-> Hb]).
  all: injection E as <-; cbn; rewrite ?Hl; split_and!; try done.
  by apply list.Forall_cons.
Qed.

Lemma acts_inv l : forall s s', cpu_inv s -> forallb scoped l = true -> acts s l = Some s' -> cpu_inv s'.
Proof.
  induction l as [|a l IH]; intros s s' Hs Hl E; [by injection E as <-|].
  cbn [acts] in E. destruct (act s a) as [s1|] eqn:E1; [|done]. cbn in Hl. apply andb_true_iff in Hl as [Ha Hl].
  eapply (IH s1); [by eapply act_inv|done|done].
Qed.

Lemma acts_app l1 : forall s l2, acts s (l1 ++ l2) = s1 ← acts s l1; acts s1 l2.
Proof. induction l1 as [|a l1 IH]; intros s l2; [done|]. cbn. destruct (act s a) as [s1|]; [|done]. apply IH. Qed.

Lemma auto_lock_spec s : cpu_inv s -> top s = Free -> acts s auto_lock = Some s.
Proof. intros (_ & _ & Hl) Ht. destruct s as [l f p b]. cbn in *. subst p l. reflexivity. Qed.

(** C14: On one processor, however interrupts nest, code that takes the lock with
    [AutoSpinLock] never waits for the code it interrupted: the first turn takes the
    lock, for the scoped lock and for [waitUntil]; afterwards the interrupt flag is
    the one saved, and no interrupt comes while the lock is held. *)
Theorem irqsave_never_spins (l : list action) (s : cpu) :
  forallb scoped l = true -> acts cpu_init l = Some s ->
  (forall f, top s = Saved f -> exists s', act s Turn = Some s' /\ top s' = In f) /\
  (top s = Free -> acts s auto_lock = Some s) /\
  (forall f n, top s = In f -> IF s = false /\ acts s (waitUntil n) = Some s).
Proof.
  intros Hl E. assert (Hs : cpu_inv s) by (eapply acts_inv; [|done|done]; by repeat constructor).
  split_and!; [|by apply auto_lock_spec|].
  - intros f Ht. destruct Hs as (_ & _ & Hk). destruct s as [k i p b]. cbn in *. subst p k. by eexists.
  - intros f n Ht. assert (Hi : IF s = false).
    { destruct Hs as (Hi & _ & _). destruct (IF s); [|done]. rewrite Hi in Ht by done. discriminate. }
    split; [done|]. destruct s as [k i p b]. cbn in Ht, Hi. subst p i. destruct Hs as (_ & Hb & Hk). cbn in Hk, Hb. subst k.
    unfold waitUntil. set (out := mk_cpu SPINLOCK_UNLOCKED f Free b).
    change (acts out (mjoin (replicate n auto_lock) ++ [IrqSave; Turn]) = Some (mk_cpu SPINLOCK_LOCKED false (In f) b)).
    induction n as [|n IH]; [reflexivity|].
    change (mjoin (replicate (S n) auto_lock)) with (auto_lock ++ mjoin (replicate n auto_lock)).
    rewrite <- app_assoc, acts_app. rewrite auto_lock_spec; [exact IH|by split_and!|done].
Qed.

Lemma irqsave_never_spins_witness :
  acts cpu_init [Interrupt; Sti; Interrupt; IrqSave; Turn] = Some (mk_cpu 1 false (In false) [Free; Free]) /\
  acts (mk_cpu 1 false (In false) [Free; Free]) (waitUntil 2) = Some (mk_cpu 1 false (In false) [Free; Free]).
Proof.
  assert (E : acts cpu_init [Interrupt; Sti; Interrupt; IrqSave; Turn] = Some (mk_cpu 1 false (In false) [Free; Free])) by reflexivity.
  split; [exact E|].
  destruct (irqsave_never_spins [Interrupt; Sti; Interrupt; IrqSave; Turn] _ eq_refl E) as (_ & _ & H).
  by destruct (H false 2%nat eq_refl) as [_ H2].
Defined.

(** With [AutoSpinLockKeepIF] an interrupt can come while the lock is held; a handler
    that wants the same lock then turns for ever. *)
Lemma keepif_deadlocks :
  exists s, acts cpu_init [KeepSave; Turn; Interrupt; KeepSave] = Some s /\
    forall l s', acts s l = Some s' -> s' = s.
Proof.
  eexists. split; [reflexivity|]. set (s := mk_cpu _ _ _ _). induction l as [|a l IH]; intros s' E; [by injection E as <-|].
  destruct a; try discriminate E. apply IH. exact E.
Qed.
End Spinlock.
