(* ===== verification/Pic.v ===== *)
(** * The interrupt controller (student-distrib/pic/list.cpp, pic/i8259.cpp, inc/i8259.h)

    Drivers bind handlers to the 16 interrupt lines; an interrupt acknowledges the line
    and calls the handlers of its list. A list is an array whose cells are chained by
    pointers to cells: here indices. The ports, what the handlers do and the state they
    do it to are parameters. *)
From stdpp Require Import prelude list numbers.
From Stdlib Require Import ZArith Lia.
From S2P Require Import Prelude.

Module Pic.

Definition ACTION_LIST_SIZE : Z := 256.
Definition NR_IRQS : Z := 16.
Definition MAX_DEPTH : Z := 8.
Definition MASTER_8259_PORT : Z := 0x20.
Definition SLAVE_8259_PORT : Z := 0xA0.
Definition ICW1 : Z := 0x11.
Definition ICW2_MASTER : Z := 0x20.
Definition ICW2_SLAVE : Z := 0x28.
Definition ICW3_MASTER : Z := 0x04.
Definition ICW3_SLAVE : Z := 0x02.
Definition ICW4 : Z := 0x01.
Definition PIC_SPEC_EOI : Z := 0x20.
Definition SLAVE_PIN : Z := 0x02.
Definition EINVAL : Z := 22.
Definition ENOMEM : Z := 12.

Section pic.
(** Handlers are code addresses; [call h irq dev] runs one. *)
Context {H Env : Type} `{!EqDecision H}.
Context (call : H -> Z -> Z -> Env -> Env) (outb : Z -> Z -> Env -> Env) (inb : Z -> Env -> Z).

(** ** pic/list.cpp *)

Record irqaction := mk_action {
  handler : option H; policy_flags : Z; mask : Z; dev_id : Z; next : option Z; prev : option Z }.
#[global] Instance irqaction_inhabited : Inhabited irqaction := populate (mk_action None 0 0 0 None None).

Record irqaction_list := mk_list { size : Z; data : list irqaction; head : option Z; tail : option Z }.

Definition set_next (a : irqaction) (p : option Z) : irqaction :=
  mk_action (handler a) (policy_flags a) (mask a) (dev_id a) p (prev a).
Definition set_prev (a : irqaction) (p : option Z) : irqaction :=
  mk_action (handler a) (policy_flags a) (mask a) (dev_id a) (next a) p.
(** [p->next = v] and [p->prev = v], where [p] may be null. *)
Definition link_next (d : list irqaction) (p v : option Z) : list irqaction :=
  match p with Some i => aset d i (set_next (aget d i) v) | None => d end.
Definition link_prev (d : list irqaction) (p v : option Z) : list irqaction :=
  match p with Some i => aset d i (set_prev (aget d i) v) | None => d end.

Definition init_list (l : irqaction_list) : irqaction_list := mk_list 0 (data l) None None.

Definition add_action (l : irqaction_list) (h : option H) (flags m dev : Z) : irqaction_list * Z :=
  if size l =? ACTION_LIST_SIZE then (l, -1)
  else
    let added := size l in
    let cell p := mk_action h flags m dev None p in
    match tail l with
    | Some oldtail =>
        let d := aset (data l) added (cell (prev (aget (data l) added))) in
        let d := link_next d (Some oldtail) (Some added) in
        let d := link_prev d (Some added) (Some oldtail) in
        (mk_list (size l + 1) d (head l) (Some added), 0)
    | None => (mk_list (size l + 1) (aset (data l) added (cell None)) (Some added) (Some added), 0)
    end.

Definition first_action (l : irqaction_list) : option Z := head l.

(** [deviceId_to_find] is unsigned: it is never below 0. *)
Fixpoint find_loop (n : nat) (l : irqaction_list) (i dev : Z) (h : option H) : option Z :=
  match n with
  | O => None
  | S n =>
      if ((dev <? 0) || (dev_id (aget (data l) i) =? dev)) && (bool_decide (h = None) || bool_decide (handler (aget (data l) i) = h))
      then Some i else find_loop n l (i + 1) dev h
  end.
Definition find_action (l : irqaction_list) (deviceId_to_find : Z) (h : option H) : option Z :=
  find_loop (Z.to_nat (size l)) l 0 (u32 deviceId_to_find) h.

(** The cells after the removed one move down; [n] is the number of them. *)
Fixpoint clobber_loop (n : nat) (d : list irqaction) (clobber : Z) : list irqaction :=
  match n with
  | O => d
  | S n =>
      let src := clobber + 1 in
      let d := aset d clobber (aget d src) in
      let srcPrev := prev (aget d src) in
      let srcNext := next (aget d src) in
      let d := link_next d srcPrev (Some clobber) in
      let d := link_prev d srcNext (Some clobber) in
      clobber_loop n d (clobber + 1)
  end.
Definition remove_action (l : irqaction_list) (item : Z) : irqaction_list :=
  if (size l =? 0) || (size l <=? item) then l
  else if size l =? 1 then mk_list 0 (data l) None None
  else
    let nxt p := match p with Some i => next (aget (data l) i) | None => None end in
    let prv p := match p with Some i => prev (aget (data l) i) | None => None end in
    let newHead := if bool_decide (head l = Some item) then nxt (head l) else head l in
    let newTail := if bool_decide (tail l = Some item) then prv (tail l) else tail l in
    let origPrev := prev (aget (data l) item) in
    let origNext := next (aget (data l) item) in
    let d := link_next (data l) origPrev origNext in
    let d := link_prev d origNext origPrev in
    let d := aset d item (set_next (set_prev (aget d item) None) None) in
    let d := clobber_loop (Z.to_nat (default 0 (tail l) - item)) d item in
    mk_list (size l - 1) d newHead newTail.

(** ** pic/i8259.cpp *)

Record irq_desc := mk_desc { depth : Z; actions : irqaction_list }.
#[global] Instance irq_desc_inhabited : Inhabited irq_desc := populate (mk_desc 0 (mk_list 0 [] None None)).
Record t := mk { irq_descs : list irq_desc; num_nest_int_val : Z; env : Env }.

Definition set_desc (s : t) (irq : Z) (d : irq_desc) : t := mk (aset (irq_descs s) irq d) (num_nest_int_val s) (env s).
Definition set_env (s : t) (e : Env) : t := mk (irq_descs s) (num_nest_int_val s) e.

Definition enable_irq_nolock (irq_num : Z) (e : Env) : Env :=
  if (irq_num <? 0) || (15 <? irq_num) then e
  else if irq_num <? 8
  then outb (u8 (Z.land (inb (MASTER_8259_PORT + 1) e) (not32 (Z.shiftl 1 irq_num)))) (MASTER_8259_PORT + 1) e
  else outb (u8 (Z.land (inb (SLAVE_8259_PORT + 1) e) (not32 (Z.shiftl 1 (irq_num - 8))))) (SLAVE_8259_PORT + 1) e.
Definition disable_irq_nolock (irq_num : Z) (e : Env) : Env :=
  if (irq_num <? 0) || (15 <? irq_num) then e
  else if irq_num <? 8
  then outb (u8 (Z.lor (inb (MASTER_8259_PORT + 1) e) (Z.shiftl 1 irq_num))) (MASTER_8259_PORT + 1) e
  else outb (u8 (Z.lor (inb (SLAVE_8259_PORT + 1) e) (Z.shiftl 1 (irq_num - 8)))) (SLAVE_8259_PORT + 1) e.
Definition send_eoi_nolock (irq_num : Z) (e : Env) : Env :=
  if irq_num <? 8 then outb (Z.lor PIC_SPEC_EOI irq_num) MASTER_8259_PORT e
  else outb (Z.lor PIC_SPEC_EOI SLAVE_PIN) MASTER_8259_PORT
         (outb (Z.lor PIC_SPEC_EOI (irq_num - 8)) SLAVE_8259_PORT e).

(** The waits between the writes are left out. [garbage] are the cells before. *)
Definition i8259_init (garbage : list irqaction) (e : Env) : t :=
  let e := outb ICW1 SLAVE_8259_PORT (outb ICW1 MASTER_8259_PORT e) in
  let e := outb ICW2_SLAVE (SLAVE_8259_PORT + 1) (outb ICW2_MASTER (MASTER_8259_PORT + 1) e) in
  let e := outb ICW3_SLAVE (SLAVE_8259_PORT + 1) (outb ICW3_MASTER (MASTER_8259_PORT + 1) e) in
  let e := outb ICW4 (SLAVE_8259_PORT + 1) (outb ICW4 (MASTER_8259_PORT + 1) e) in
  let e := outb 0xff (SLAVE_8259_PORT + 1) (outb 0xfb (MASTER_8259_PORT + 1) e) in
  mk (replicate (Z.to_nat NR_IRQS) (mk_desc 0 (init_list (mk_list 0 garbage None None)))) 0 e.

Definition setup_irq (s : t) (irq device_id : Z) (h : option H) (flags : Z) : t * Z :=
  let d := aget (irq_descs s) irq in
  let s := match first_action (actions d) with None => set_env s (enable_irq_nolock irq (env s)) | Some _ => s end in
  let '(l, r) := add_action (actions d) h flags 0 device_id in
  (set_desc s irq (mk_desc (depth d) l), if r =? 0 then 0 else - ENOMEM).
Definition bind_irq (s : t) (irq device_id : Z) (h : option H) (flags : Z) : t * Z :=
  if NR_IRQS <=? irq then (s, - EINVAL)
  else if irq <? 0 then (s, - EINVAL)
  else match h with None => (s, - EINVAL) | Some _ => setup_irq s irq device_id h flags end.

(** Every removal shortens the list: its size is fuel enough. *)
Fixpoint unbind_loop (fuel : nat) (l : irqaction_list) (device_id : Z) : option irqaction_list :=
  match find_action l device_id None with
  | None => Some l
  | Some i => match fuel with O => None | S fuel => unbind_loop fuel (remove_action l i) device_id end
  end.
Definition unbind_irq (s : t) (irq device_id : Z) : option t :=
  let d := aget (irq_descs s) irq in
  l ← unbind_loop (Z.to_nat (size (actions d))) (actions d) device_id;
  let s := set_desc s irq (mk_desc (depth d) l) in
  Some (match find_action l (-1) None with
        | None => set_env s (disable_irq_nolock irq (env s))
        | Some _ => s
        end).

(** [action->handler(irq, action->dev_id)] down the chain; a null handler and a chain
    longer than [fuel] are [None]. *)
Fixpoint actions_loop (fuel : nat) (d : list irqaction) (action : option Z) (irq : Z) (e : Env) : option Env :=
  match action with
  | None => Some e
  | Some i =>
      match fuel with
      | O => None
      | S fuel => h ← handler (aget d i); actions_loop fuel d (next (aget d i)) irq (call h irq (dev_id (aget d i)) e)
      end
  end.
Definition handle_level_irq (s : t) (irq : Z) : option t :=
  let d := aget (irq_descs s) irq in
  if MAX_DEPTH <=? depth d + 1 then Some (set_env s (send_eoi_nolock irq (env s)))
  else
    let s := set_desc s irq (mk_desc (depth d + 1) (actions d)) in
    let s := set_env s (send_eoi_nolock irq (env s)) in
    e ← actions_loop (Z.to_nat (size (actions d))) (data (actions d)) (first_action (actions d)) irq (env s);
    let s := set_env s e in
    let d := aget (irq_descs s) irq in
    Some (set_desc s irq (mk_desc (depth d - 1) (actions d))).
Definition irq_int_entry (s : t) (irq : Z) : option (t * Z) :=
  if NR_IRQS <=? irq then Some (s, - EINVAL)
  else if irq <? 0 then Some (s, - EINVAL)
  else
    let s := mk (irq_descs s) (num_nest_int_val s + 1) (env s) in
    s ← handle_level_irq s irq;
    Some (mk (irq_descs s) (num_nest_int_val s - 1) (env s), 1).

(** ** The list, as long as nothing is removed from its middle *)

Notation binding := (H * Z)%type (only parsing).

(** Cell [i] of a list of bindings: the handler, its device and its neighbours. *)
Definition chained (d : list irqaction) (bs : list binding) : Prop :=
  forall i b, bs !! i = Some b -> let a := aget d (Z.of_nat i) in
    handler a = Some b.1 /\ dev_id a = b.2 /\
    next a = (if decide (S i < length bs)%nat then Some (Z.of_nat i + 1) else None) /\
    prev a = (if decide (i = 0%nat) then None else Some (Z.of_nat i - 1)).
Record rep (l : irqaction_list) (bs : list binding) : Prop := {
  rep_data : alen (data l) = ACTION_LIST_SIZE;
  rep_size : size l = alen bs;
  rep_room : alen bs <= ACTION_LIST_SIZE;
  rep_head : head l = if decide (bs = []) then None else Some 0;
  rep_tail : tail l = if decide (bs = []) then None else Some (alen bs - 1);
  rep_cells : chained (data l) bs }.

Lemma pic_init_rep d : alen d = ACTION_LIST_SIZE -> rep (init_list (mk_list 0 d None None)) [].
Proof. by intros Hd. Qed.

Lemma add_action_spec l bs h flags m dev : rep l bs -> alen bs < ACTION_LIST_SIZE ->
  exists l', add_action l (Some h) flags m dev = (l', 0) /\ rep l' (bs ++ [(h, dev)]).
Proof.
  intros [Hd Hs Hr Hh Ht Hc] Hlt. pose proof (alen_nonneg bs). unfold ACTION_LIST_SIZE in *.
  assert (El : alen (bs ++ [(h, dev)]) = alen bs + 1) by (unfold alen; rewrite length_app; cbn; lia).
  unfold add_action, ACTION_LIST_SIZE. rewrite Hs, (proj2 (Z.eqb_neq _ _)) by lia. rewrite Ht.
  destruct (decide (bs = [])) as [->|Hne].
  - eexists. split; [reflexivity|]. split; try done; cbn; [by rewrite alen_aset|].
    intros i b Hi. destruct i as [|i]; [|discriminate Hi]. injection Hi as <-.
    cbn. rewrite aget_aset_eq by (change (alen (@nil binding)) with 0; lia). by split_and!.
  - assert (Hpos : 0 < alen bs) by (destruct bs; [done|unfold alen; cbn; lia]).
    eexists. split; [reflexivity|]. cbn [link_next link_prev]. set (n := alen bs) in *.
    set (c := mk_action (Some h) flags m dev None (prev (aget (data l) n))).
    assert (Ha : forall j, 0 <= j -> let a := aget (aset (aset (aset (data l) n c) (n - 1) (set_next (aget (aset (data l) n c) (n - 1)) (Some n))) n
        (set_prev (aget (aset (aset (data l) n c) (n - 1) (set_next (aget (aset (data l) n c) (n - 1)) (Some n))) n) (Some (n - 1)))) j in
      a = if decide (j = n) then set_prev c (Some (n - 1)) else if decide (j = n - 1) then set_next (aget (data l) j) (Some n) else aget (data l) j).
    { intros j Hj. cbv zeta. repeat rewrite aget_aset by (rewrite ?alen_aset; lia).
      repeat case_decide; subst; try lia; try done. }
    split; cbn [data size head tail]; try done; rewrite ?El; unfold ACTION_LIST_SIZE; try lia.
    + by rewrite !alen_aset.
    + rewrite decide_False by (by destruct bs). exact Hh.
    + rewrite decide_False by (by destruct bs). f_equal. lia.
    + intros i b Hi. cbv zeta. rewrite Ha by lia.
      assert (Hlen : length (bs ++ [(h, dev)]) = S (length bs)) by (rewrite length_app; cbn; lia). rewrite Hlen.
      destruct (decide (i = length bs)) as [->|Hi'].
      * rewrite decide_True by done. rewrite list_lookup_middle in Hi by done. injection Hi as <-. cbn.
        rewrite (decide_False (P := (S (length bs) < S (length bs))%nat)) by lia.
        rewrite decide_False by (unfold n, alen in *; lia). by split_and!.
      * assert (Hlt' : (i < length bs)%nat).
        { apply lookup_lt_Some in Hi. rewrite Hlen in Hi. lia. }
        rewrite lookup_app_l in Hi by done. destruct (Hc i b Hi) as (C1 & C2 & C3 & C4).
        rewrite decide_False by (unfold n, alen; lia). rewrite (decide_True (P := (S i < S (length bs))%nat)) by lia.
        destruct (decide (Z.of_nat i = n - 1)) as [E|E].
        -- cbn. split_and!; try done. f_equal. lia.
        -- rewrite decide_True in C3 by (unfold n, alen in *; lia). by split_and!.
Qed.

Lemma add_full l bs h flags m dev : rep l bs -> alen bs = ACTION_LIST_SIZE -> add_action l (Some h) flags m dev = (l, -1).
Proof. intros R E. unfold add_action. by rewrite (rep_size _ _ R), E. Qed.

(** The walk down the chain. *)
Lemma walk_spec d bs irq : chained d bs -> forall n i e, n = length (drop i bs) ->
  actions_loop n d (if decide (i < length bs)%nat then Some (Z.of_nat i) else None) irq e
    = Some (foldl (fun e b => call b.1 irq b.2 e) e (drop i bs)).
Proof.
  intros Hc. induction n as [|n IH]; intros i e Hn.
  - rewrite length_drop in Hn. rewrite decide_False by lia. rewrite drop_ge by lia. reflexivity.
  - rewrite length_drop in Hn. rewrite decide_True by lia. destruct (lookup_lt_is_Some_2 bs i) as [b Hb]; [lia|].
    destruct (Hc i b Hb) as (C1 & C2 & C3 & _). cbn [actions_loop]. rewrite C1. cbn [mbind option_bind]. rewrite C2, C3.
    replace (Z.of_nat i + 1) with (Z.of_nat (S i)) by lia. rewrite IH by (rewrite length_drop; lia).
    by rewrite (drop_S _ _ _ Hb).
Qed.

(** ** The sixteen lines *)

(** Every line is at rest and its list holds the bindings [bss] of the line. *)
Record bound (s : t) (bss : Z -> list binding) : Prop := {
  bd_len : alen (irq_descs s) = NR_IRQS;
  bd_depth irq : 0 <= irq < NR_IRQS -> depth (aget (irq_descs s) irq) = 0;
  bd_rep irq : 0 <= irq < NR_IRQS -> rep (actions (aget (irq_descs s) irq)) (bss irq) }.

Lemma init_bound garbage e : alen garbage = ACTION_LIST_SIZE -> bound (i8259_init garbage e) (fun _ => []).
Proof.
  intros Hg. split; [done|..]; intros irq Hi; unfold i8259_init; cbn [irq_descs];
    rewrite aget_replicate by (unfold NR_IRQS in *; lia); [done|by apply pic_init_rep].
Qed.

Lemma bind_spec s bss irq dev h flags : bound s bss -> 0 <= irq < NR_IRQS -> alen (bss irq) < ACTION_LIST_SIZE ->
  exists s', bind_irq s irq dev (Some h) flags = (s', 0) /\
    bound s' (fun j => if decide (j = irq) then bss j ++ [(h, dev)] else bss j).
Proof.
  intros [Hl Hd Hr] Hi Hroom. unfold bind_irq. rewrite (proj2 (Z.leb_gt NR_IRQS irq)), (proj2 (Z.ltb_ge irq 0)) by lia.
  unfold setup_irq. cbv zeta. destruct (add_action_spec _ (bss irq) h flags 0 dev (Hr irq Hi) Hroom) as (l' & -> & R').
  set (s1 := match first_action _ with Some _ => s | None => _ end).
  assert (E1 : irq_descs s1 = irq_descs s) by (unfold s1; by destruct (first_action _)). clearbody s1.
  eexists. split; [reflexivity|].
  assert (Ha : forall j, 0 <= j < NR_IRQS -> aget (irq_descs (set_desc s1 irq (mk_desc (depth (aget (irq_descs s) irq)) l'))) j =
    if decide (irq = j) then mk_desc (depth (aget (irq_descs s) irq)) l' else aget (irq_descs s) j).
  { intros j Hj. cbn. rewrite E1. apply aget_aset; lia. }
  split; [cbn; by rewrite alen_aset, E1|..]; intros j Hj; rewrite Ha by done.
  - destruct (decide (irq = j)) as [->|]; by apply Hd.
  - destruct (decide (irq = j)) as [->|Hne]; [by rewrite decide_True|rewrite decide_False by congruence; by apply Hr].
Qed.

(** Bindings made one after the other; [None] when one is refused. *)
Definition request : Type := Z * Z * H * Z.
Fixpoint binds (s : t) (l : list request) : option t :=
  match l with
  | [] => Some s
  | (irq, dev, h, flags) :: l => let '(s, r) := bind_irq s irq dev (Some h) flags in if r =? 0 then binds s l else None
  end.
(** Those of one line, in order. *)
Definition of_line (irq : Z) (l : list request) : list binding :=
  (fun r : request => let '(_, dev, h, _) := r in (h, dev)) <$> filter (fun r : request => r.1.1.1 = irq) l.

Lemma binds_spec l : forall s bss, bound s bss -> Forall (fun r : request => 0 <= r.1.1.1 < NR_IRQS) l ->
  (forall irq, alen (bss irq ++ of_line irq l) <= ACTION_LIST_SIZE) ->
  exists s', binds s l = Some s' /\ bound s' (fun irq => bss irq ++ of_line irq l).
Proof.
  induction l as [|[[[irq dev] h] flags] l IH]; intros s bss B Hl Hroom.
  - exists s. split; [done|]. destruct B as [? ? Hr]. split; try done. intros irq Hi. unfold of_line. cbn. rewrite app_nil_r. by apply Hr.
  - apply list.Forall_cons in Hl as [Hi Hl]. cbn in Hi.
    assert (Hof : forall j, bss j ++ of_line j ((irq, dev, h, flags) :: l) =
      (if decide (j = irq) then bss j ++ [(h, dev)] else bss j) ++ of_line j l).
    { intros j. unfold of_line. rewrite filter_cons. cbn [fst]. destruct (decide (j = irq)) as [->|Hne].
      - rewrite decide_True by done. cbn. by rewrite <- app_assoc.
      - by rewrite decide_False by congruence. }
    destruct (bind_spec s bss irq dev h flags B Hi) as (s1 & E & B1).
    { pose proof (Hroom irq) as Hj. rewrite Hof, decide_True in Hj by done. unfold alen in *. rewrite !length_app in Hj. cbn in Hj. lia. }
    cbn [binds]. rewrite E. cbn. destruct (IH s1 _ B1 Hl) as (s2 & -> & B2).
    { intros j. rewrite <- Hof. apply Hroom. }
    exists s2. split; [done|]. destruct B2 as [? ? Hr]. split; try done. intros j Hj. rewrite Hof. by apply Hr.
Qed.

Lemma aset_twice {A} `{Inhabited A} (d : list A) i v : 0 <= i < alen d -> aset (aset d i v) i (aget d i) = d.
Proof.
  intros Hi. unfold aset, aget, alen in *. rewrite list_insert_insert_eq. apply list_insert_id.
  apply list_lookup_lookup_total_lt. lia.
Qed.

(** The end of an interrupt, as the ports see it. *)
Lemma eoi_writes irq e : 0 <= irq < NR_IRQS -> send_eoi_nolock irq e =
  if irq <? 8 then outb (0x20 + irq) 0x20 e else outb 0x22 0x20 (outb (0x20 + (irq - 8)) 0xA0 e).
Proof.
  intros Hi. assert (Hlor : forall j, 0 <= j < 8 -> Z.lor PIC_SPEC_EOI j = 0x20 + j).
  { intros j Hj. assert (Hc : j = 0 \/ j = 1 \/ j = 2 \/ j = 3 \/ j = 4 \/ j = 5 \/ j = 6 \/ j = 7) by lia.
    by repeat (destruct Hc as [->|Hc]; [done|]); subst j. }
  unfold send_eoi_nolock. unfold NR_IRQS in Hi. destruct (Z.ltb_spec irq 8); [by rewrite Hlor by lia|].
  by rewrite (Hlor (irq - 8)) by lia.
Qed.

(** C15: Once drivers have bound their handlers, at most 256 to a line, an interrupt on any
    line is acknowledged first - for lines 0 to 7 by 0x20 + the line to port 0x20, for
    lines 8 to 15 by 0x20 + the line - 8 to port 0xA0 and then by 0x22, the line of the
    cascade, to port 0x20 - then every handler of that line is called once, in the
    order they were bound, with its own device; the lines are left as they were. *)
Theorem interrupt_calls_bound_handlers (garbage : list irqaction) (e : Env) (l : list request) (irq : Z) :
  alen garbage = ACTION_LIST_SIZE -> Forall (fun r : request => 0 <= r.1.1.1 < NR_IRQS) l ->
  (forall irq, alen (of_line irq l) <= ACTION_LIST_SIZE) -> 0 <= irq < NR_IRQS ->
  exists s s', binds (i8259_init garbage e) l = Some s /\ irq_int_entry s irq = Some (s', 1) /\
    env s' = foldl (fun e b => call b.1 irq b.2 e)
      (if irq <? 8 then outb (0x20 + irq) 0x20 (env s) else outb 0x22 0x20 (outb (0x20 + (irq - 8)) 0xA0 (env s)))
      (of_line irq l) /\
    irq_descs s' = irq_descs s /\ num_nest_int_val s' = num_nest_int_val s.
Proof.
  intros Hg Hl Hroom Hi. destruct (binds_spec l _ _ (init_bound garbage e Hg) Hl Hroom) as (s & E & [Bl Bd Br]).
  exists s. specialize (Bd irq Hi). specialize (Br irq Hi). cbn in Br. rewrite <- eoi_writes by exact Hi.
  unfold irq_int_entry. rewrite (proj2 (Z.leb_gt NR_IRQS irq)), (proj2 (Z.ltb_ge irq 0)) by lia.
  unfold handle_level_irq. cbn [irq_descs]. rewrite Bd. change (MAX_DEPTH <=? 0 + 1) with false. cbv iota zeta.
  assert (Hw : forall e, actions_loop (Z.to_nat (size (actions (aget (irq_descs s) irq)))) (data (actions (aget (irq_descs s) irq)))
    (first_action (actions (aget (irq_descs s) irq))) irq e = Some (foldl (fun e b => call b.1 irq b.2 e) e (of_line irq l))).
  { intros e1. destruct Br as [_ Hs _ Hh _ Hc]. rewrite Hs. unfold first_action. rewrite Hh.
    pose proof (walk_spec _ (of_line irq l) irq Hc (length (of_line irq l)) 0 e1 eq_refl) as Hwalk.
    unfold alen. rewrite Nat2Z.id. rewrite drop_0 in Hwalk. rewrite <- Hwalk. f_equal.
    destruct (of_line irq l) as [|b bs]; [done|]. rewrite decide_False by done. rewrite decide_True by (cbn; lia). done. }
  rewrite Hw. cbn [mbind option_bind]. eexists. split; [done|]. split; [reflexivity|].
  cbn [env set_env set_desc irq_descs num_nest_int_val]. split; [done|]. split; [|lia].
  rewrite aget_aset_eq by lia. cbn [depth actions].
  assert (Ea : mk_desc (0 + 1 - 1) (actions (aget (irq_descs s) irq)) = aget (irq_descs s) irq).
  { destruct (aget (irq_descs s) irq) as [dp ac]. cbn in *. by rewrite Bd. }
  rewrite Ea. apply aset_twice. lia.
Qed.
End pic.
#[global] Arguments irqaction : clear implicits.
#[global] Arguments irqaction_list : clear implicits.
#[global] Arguments irq_desc : clear implicits.
#[global] Arguments t : clear implicits.

(** Handlers that note their code, line and device; ports that hold what was written. *)
Definition log_call (h irq dev : Z) (e : list (Z * Z * Z)) : list (Z * Z * Z) := e ++ [(h, irq, dev)].
Definition log_out (v p : Z) (e : list (Z * Z * Z)) : list (Z * Z * Z) := e.

(** What is written to a port is noted as well. *)
Definition port_out (v p : Z) (e : list (Z * Z * Z)) : list (Z * Z * Z) := e ++ [(-1, p, v)].
Definition demo_binds : option (t Z (list (Z * Z * Z))) :=
  binds port_out (fun _ _ => 0) (i8259_init port_out (replicate 256 (mk_action None 0 0 0 None None)) [])
    [(1, 1, 100, 0); (8, 8, 200, 0); (1, 2, 300, 0)].

Lemma interrupt_calls_bound_handlers_witness : exists s s1 s8, demo_binds = Some s /\
  irq_int_entry log_call port_out s 1 = Some (s1, 1) /\
  env s1 = env s ++ [(-1, 0x20, 0x21); (100, 1, 1); (300, 1, 2)] /\
  irq_int_entry log_call port_out s 8 = Some (s8, 1) /\
  env s8 = env s ++ [(-1, 0xA0, 0x20); (-1, 0x20, 0x22); (200, 8, 8)].
Proof.
  assert (Hall : forall irq, 0 <= irq < NR_IRQS -> exists s s', demo_binds = Some s /\
    irq_int_entry log_call port_out s irq = Some (s', 1) /\
    env s' = foldl (fun e b => log_call b.1 irq b.2 e)
      (if irq <? 8 then port_out (0x20 + irq) 0x20 (env s) else port_out 0x22 0x20 (port_out (0x20 + (irq - 8)) 0xA0 (env s)))
      (of_line irq [(1, 1, 100, 0); (8, 8, 200, 0); (1, 2, 300, 0)])).
  { intros irq Hi.
    destruct (interrupt_calls_bound_handlers log_call port_out (fun _ _ => 0) (replicate 256 (mk_action None 0 0 0 None None)) []
      [(1, 1, 100, 0); (8, 8, 200, 0); (1, 2, 300, 0)] irq) as (s & s' & E1 & E2 & E3 & _).
    - reflexivity.
    - repeat constructor; cbn; unfold NR_IRQS; lia.
    - intros irq'. unfold of_line, alen. rewrite length_fmap. etrans; [apply inj_le, length_filter|]. cbn. done.
    - exact Hi.
    - exists s, s'. split; [exact E1|]. split; [exact E2|exact E3]. }
  destruct (Hall 1 ltac:(done)) as (s & s1 & E & E1 & V1). destruct (Hall 8 ltac:(done)) as (s' & s8 & E' & E8 & V8).
  rewrite E in E'. injection E' as <-. exists s, s1, s8. split; [exact E|]. split; [exact E1|]. split; [|split; [exact E8|]].
  - rewrite V1. unfold port_out, log_call. set (o := of_line _ _). vm_compute in o. subst o. cbn [foldl fst snd]. change (1 <? 8) with true. change (8 <? 8) with false. cbv iota. rewrite <- !app_assoc. reflexivity.
  - rewrite V8. unfold port_out, log_call. set (o := of_line _ _). vm_compute in o. subst o. cbn [foldl fst snd]. change (1 <? 8) with true. change (8 <? 8) with false. cbv iota. rewrite <- !app_assoc. reflexivity.
Defined.

(** After the first of three devices on a line is unbound only the third is called, and
    one bound after that is not called either: the head and tail of the list still
    name the old cells. *)
Definition after_unbind : option (t Z (list (Z * Z * Z))) :=
  s ← binds log_out (fun _ _ => 0) (i8259_init log_out (replicate 256 (mk_action None 0 0 0 None None)) [])
        [(5, 1, 100, 0); (5, 2, 200, 0); (5, 3, 300, 0)];
  s ← unbind_irq log_out (fun _ _ => 0) s 5 1;
  s ← binds log_out (fun _ _ => 0) s [(5, 4, 400, 0)];
  '(s, _) ← irq_int_entry log_call log_out s 5; Some s.
Lemma unbind_first_loses_handlers : env <$> after_unbind = Some [(300, 5, 3)].
Proof. vm_compute. reflexivity. Qed.

(** [find_action(list, -1, NULL)] finds no device but 0xFFFFFFFF. *)
Lemma find_any_finds_none {H} `{!EqDecision H} (l : irqaction_list H) :
  (forall i, dev_id (aget (data l) i) <> 2 ^ 32 - 1) -> find_action l (-1) None = None.
Proof.
  intros Hd. unfold find_action. change (u32 (-1)) with (2 ^ 32 - 1). generalize 0. induction (Z.to_nat (size l)) as [|n IH]; intros i; [done|].
  cbn [find_loop]. rewrite (proj2 (Z.eqb_neq _ _) (Hd i)). apply IH.
Qed.
End Pic.
