(* ===== verification/RingBuf.v ===== *)
(** * The ring buffer (student-distrib/klibs/ringbuf.cpp, inc/klibs/ringbuf.h)

    A buffer of a fixed number of items of a fixed number of bytes; when it is full the
    oldest item makes room. *)
From stdpp Require Import prelude list numbers.
From Stdlib Require Import ZArith Lia.
From S2P Require Import Prelude.

Module RingBuf.

(** [data] is the array of bytes at the end of the structure. *)
Record t := mk {
  size : Z; type_size : Z; head : Z; tail : Z; len : Z; data : list Z }.

(** [RINGBUF_INIT]; [d] is what the memory held. *)
Definition init (size type_size : Z) (d : list Z) : t := mk size type_size (-1) 0 0 d.

(** [memcpy] of [n] bytes at an index of the data, and to it. *)
Definition peek (d : list Z) (a n : Z) : option (list Z) :=
  if (0 <=? a) && (a + n <=? alen d) then Some (take (Z.to_nat n) (drop (Z.to_nat a) d)) else None.
Definition poke (d : list Z) (a : Z) (bs : list Z) : option (list Z) :=
  if (0 <=? a) && (a + alen bs <=? alen d)
  then Some (take (Z.to_nat a) d ++ bs ++ drop (Z.to_nat (a + alen bs)) d) else None.

Definition length (b : t) : Z := len b.
Definition is_empty (b : t) : bool := head b =? -1.

(** [item] holds the bytes of the item. *)
Definition push (b : t) (item : list Z) : option t :=
  let b :=
    if head b =? -1 then mk (size b) (type_size b) (tail b) (tail b) (len b) (data b)
    else if tail b =? head b
    then mk (size b) (type_size b) (Z.rem (head b + 1) (size b)) (tail b) (len b - 1) (data b)
    else b in
  d ← poke (data b) (tail b * type_size b) item;
  Some (mk (size b) (type_size b) (head b) (Z.rem (tail b + 1) (size b)) (len b + 1) d).

(** [front]: the bytes stored, [Some None] for -1. *)
Definition front (b : t) : option (option (list Z)) :=
  if head b =? -1 then Some None else r ← peek (data b) (head b * type_size b) (type_size b); Some (Some r).
(** The index of the item in the data, [None] for null. *)
Definition front_nocp (b : t) : option Z := if head b =? -1 then None else Some (head b * type_size b).

Definition pop_front (b : t) : t :=
  if head b =? -1 then b
  else
    let h := Z.rem (head b + 1) (size b) in
    let n := len b - 1 in
    mk (size b) (type_size b) (if n =? 0 then -1 else h) (tail b) n (data b).

Definition last_pos (b : t) : Z := Z.rem (tail b + size b - 1) (size b).
Definition back (b : t) : option (option (list Z)) :=
  if head b =? -1 then Some None else r ← peek (data b) (last_pos b * type_size b) (type_size b); Some (Some r).
Definition back_nocp (b : t) : option Z := if head b =? -1 then None else Some (last_pos b * type_size b).
Definition pop_back (b : t) : t :=
  if head b =? -1 then b
  else
    let n := len b - 1 in
    mk (size b) (type_size b) (if n =? 0 then -1 else head b) (last_pos b) n (data b).

(** ** Items in the data *)

Section items.
Context (sz ts : Z) (Hsz : 1 < sz) (Hts : 0 < ts).

Definition item_at (d : list Z) (k : Z) : list Z := take (Z.to_nat ts) (drop (Z.to_nat (k * ts)) d).

Lemma item_bounds k : 0 <= k < sz -> 0 <= k * ts /\ k * ts + ts <= sz * ts.
Proof. intros Hk. split; nia. Qed.
Lemma item_below j k : 0 <= j < k -> j * ts + ts <= k * ts.
Proof. intros Hk. nia. Qed.

Lemma poke_item d k bs : alen d = sz * ts -> 0 <= k < sz -> alen bs = ts ->
  exists d', poke d (k * ts) bs = Some d' /\ alen d' = sz * ts /\
    forall j, 0 <= j < sz -> item_at d' j = if decide (j = k) then bs else item_at d j.
Proof.
  intros Hd Hk Hb. destruct (item_bounds k Hk) as [K0 K1]. unfold poke. rewrite Hb.
  rewrite (proj2 (Z.leb_le 0 _)), (proj2 (Z.leb_le _ (alen d))) by lia.
  eexists. split; [reflexivity|]. set (a := Z.to_nat (k * ts)). set (n := Z.to_nat ts).
  assert (Ea : Z.to_nat (k * ts + ts) = (a + n)%nat) by (unfold a, n; lia). rewrite Ea.
  assert (La : (a + n <= List.length d)%nat) by (unfold a, n, alen in *; lia).
  assert (Lb : List.length bs = n) by (unfold n, alen in *; lia).
  split; [unfold alen in *; rewrite !length_app, length_take, length_drop; lia|].
  intros j Hj. destruct (item_bounds j Hj) as [J0 J1]. unfold item_at. fold n. set (aj := Z.to_nat (j * ts)).
  destruct (decide (j = k)) as [->|Hne].
  - rewrite drop_app_length' by (rewrite length_take; unfold aj, a; lia). by rewrite take_app_length' by lia.
  - destruct (decide (j < k)) as [Hlt|Hge].
    + assert (Hle : (aj + n <= a)%nat) by (pose proof (item_below j k); unfold aj, a, n; lia).
      rewrite drop_app_le by (rewrite length_take; lia). rewrite take_app_le by (rewrite length_drop, length_take; lia).
      rewrite skipn_firstn_comm, take_take. f_equal. lia.
    + assert (Hle : (a + n <= aj)%nat) by (pose proof (item_below k j); unfold aj, a, n; lia).
      rewrite drop_app_ge by (rewrite length_take; lia). rewrite drop_app_ge by (rewrite length_take; lia).
      rewrite length_take, drop_drop, Lb. do 2 f_equal. lia.
Qed.

Lemma peek_item d k : alen d = sz * ts -> 0 <= k < sz -> peek d (k * ts) ts = Some (item_at d k).
Proof.
  intros Hd Hk. destruct (item_bounds k Hk). unfold peek.
  by rewrite (proj2 (Z.leb_le 0 _)), (proj2 (Z.leb_le _ (alen d))) by lia.
Qed.

(** The items from the oldest to the newest. *)
Record rep (b : t) (l : list (list Z)) : Prop := {
  rep_sz : size b = sz; rep_ts : type_size b = ts;
  rep_data : alen (data b) = sz * ts;
  rep_len : len b = alen l; rep_cap : alen l <= sz;
  rep_tail : 0 <= tail b < sz;
  rep_head : head b = if decide (l = []) then -1 else (tail b - alen l) mod sz;
  rep_items i x : l !! i = Some x -> item_at (data b) ((tail b - alen l + Z.of_nat i) mod sz) = x }.

Lemma ringbuf_init_rep d : alen d = sz * ts -> rep (init sz ts d) [].
Proof. intros Hd. split; try done; unfold alen; cbn; lia. Qed.

Lemma rem_mod a : 0 <= a -> Z.rem a sz = a mod sz.
Proof. intros Ha. apply Z.rem_mod_nonneg; lia. Qed.

Lemma wrap_l a b : (a mod sz + b) mod sz = (a + b) mod sz.
Proof. apply Z.add_mod_idemp_l. lia. Qed.

(** Positions of different items are different. *)
Lemma mod_apart a k : 0 <= a < sz -> 0 < k < sz -> (a - k) mod sz <> a.
Proof.
  intros Ha Hk E. destruct (Z.le_gt_cases k a); [rewrite Z.mod_small in E; lia|].
  replace (a - k) with (a - k + sz + (-1) * sz) in E by lia. rewrite Z.mod_add, Z.mod_small in E; lia.
Qed.

Lemma head_none b l : rep b l -> (head b =? -1) = bool_decide (l = []).
Proof.
  intros R. rewrite (rep_head _ _ R). destruct (decide (l = [])) as [->|Hne]; [done|].
  rewrite bool_decide_false by done. apply Z.eqb_neq. pose proof (Z.mod_pos_bound (tail b - alen l) sz). lia.
Qed.
Lemma nonempty_pos {A} (l : list A) : l <> [] -> 0 < alen l.
Proof. destruct l; [done|]. unfold alen. cbn. lia. Qed.

(** What [push] stores, once there is room for it. *)
Lemma push_room b l item d : rep b l -> alen l < sz -> alen item = ts ->
  poke (data b) (tail b * ts) item = Some d -> alen d = sz * ts -> 
  (forall j, 0 <= j < sz -> item_at d j = if decide (j = tail b) then item else item_at (data b) j) ->
  rep (mk sz ts (if decide (l = []) then tail b else head b) (Z.rem (tail b + 1) sz) (len b + 1) d) (l ++ [item]).
Proof.
  intros R Hlt Hi E Hd Hitems. pose proof (rep_tail _ _ R) as Ht. pose proof (alen_nonneg l).
  assert (El : alen (l ++ [item]) = alen l + 1) by (unfold alen; rewrite length_app; cbn; lia).
  split; cbn [size type_size data len tail head]; try done; rewrite ?El, ?(rem_mod (tail b + 1)) by lia.
  - by rewrite (rep_len _ _ R).
  - lia.
  - apply Z.mod_pos_bound. lia.
  - rewrite (decide_False (P := l ++ [item] = [])) by (by destruct l).
    replace ((tail b + 1) mod sz - (alen l + 1)) with ((tail b + 1) mod sz + - (alen l + 1)) by lia. rewrite wrap_l.
    replace (tail b + 1 + - (alen l + 1)) with (tail b - alen l) by lia.
    destruct (decide (l = [])) as [->|Hne]; [cbn; rewrite Z.sub_0_r, Z.mod_small; lia|].
    rewrite (rep_head _ _ R). by rewrite decide_False.
  - intros i x Hx. replace ((tail b + 1) mod sz - (alen l + 1) + Z.of_nat i) with ((tail b + 1) mod sz + (Z.of_nat i - alen l - 1)) by lia.
    rewrite wrap_l. replace (tail b + 1 + (Z.of_nat i - alen l - 1)) with (tail b - alen l + Z.of_nat i) by lia.
    rewrite Hitems by (apply Z.mod_pos_bound; lia). destruct (decide (i = List.length l)) as [->|Hi'].
    + rewrite list_lookup_middle in Hx by done. injection Hx as <-. rewrite decide_True; [done|].
      unfold alen. rewrite Z.sub_add. apply Z.mod_small. lia.
    + assert (Hl : (i < List.length l)%nat) by (apply lookup_lt_Some in Hx; rewrite length_app in Hx; cbn in Hx; lia).
      rewrite lookup_app_l in Hx by done. rewrite decide_False; [by apply (rep_items _ _ R)|].
      replace (tail b - alen l + Z.of_nat i) with (tail b - (alen l - Z.of_nat i)) by lia.
      apply mod_apart; [done|unfold alen in *; lia].
Qed.

(** Dropping the oldest item. *)
Lemma drop_oldest b x l : rep b (x :: l) ->
  rep (mk sz ts (if decide (l = []) then -1 else Z.rem (head b + 1) sz) (tail b) (len b - 1) (data b)) l.
Proof.
  intros R. pose proof (rep_cap _ _ R) as Hc. pose proof (alen_nonneg l).
  assert (El : alen (x :: l) = alen l + 1) by (unfold alen; cbn; lia). rewrite El in Hc.
  pose proof (rep_head _ _ R) as Hh. rewrite decide_False, El in Hh by done.
  split; cbn [size type_size data len tail head]; try apply R; try lia.
  - rewrite (rep_len _ _ R), El. lia.
  - destruct (decide (l = [])); [done|]. pose proof (Z.mod_pos_bound (tail b - (alen l + 1)) sz ltac:(lia)).
    rewrite Hh, rem_mod, wrap_l by lia. f_equal. lia.
  - intros i y Hy. replace (tail b - alen l + Z.of_nat i) with (tail b - alen (x :: l) + Z.of_nat (S i)) by (rewrite El; lia).
    by apply (rep_items _ _ R).
Qed.

Definition kept (l : list (list Z)) (item : list Z) : list (list Z) := (if alen l =? sz then List.tl l else l) ++ [item].

Lemma ringbuf_push_spec b l item : rep b l -> alen item = ts -> exists b', push b item = Some b' /\ rep b' (kept l item).
Proof.
  intros R Hi. pose proof (rep_tail _ _ R) as Ht. unfold push, kept. rewrite (head_none b l R), (rep_sz _ _ R), (rep_ts _ _ R).
  destruct (poke_item (data b) (tail b) item (rep_data _ _ R) Ht Hi) as (d & E & Hd & Hitems).
  destruct (decide (l = [])) as [->|Hne].
  - rewrite bool_decide_true by done. cbn [data tail type_size size]. rewrite E. cbn [mbind option_bind].
    eexists. split; [reflexivity|]. rewrite (proj2 (Z.eqb_neq _ sz)) by (unfold alen; cbn; lia).
    exact (push_room b [] item d R ltac:(unfold alen; cbn; lia) Hi E Hd Hitems).
  - rewrite bool_decide_false by done. pose proof (rep_head _ _ R) as Hh. rewrite decide_False in Hh by done.
    pose proof (nonempty_pos l Hne). pose proof (rep_cap _ _ R).
    destruct (Z.eqb_spec (alen l) sz) as [Ef|Ef].
    + assert (Eh : head b = tail b).
      { rewrite Hh, Ef. replace (tail b - sz) with (tail b + (-1) * sz) by lia. rewrite Z.mod_add, Z.mod_small; lia. }
      rewrite Eh, Z.eqb_refl. cbn [data tail type_size size]. rewrite E. cbn [mbind option_bind].
      eexists. split; [reflexivity|]. destruct l as [|x l]; [done|].
      assert (El : alen (x :: l) = alen l + 1) by (unfold alen; cbn; lia).
      pose proof (drop_oldest b x l R) as R1. assert (Hl : l <> []) by (intros ->; unfold alen in Ef; cbn in Ef; lia).
      rewrite decide_False, Eh in R1 by done.
      pose proof (push_room _ l item d R1 ltac:(lia) Hi E Hd Hitems) as R2. cbn [head tail len] in R2.
      rewrite decide_False in R2 by done. exact R2.
    + rewrite (proj2 (Z.eqb_neq (tail b) (head b))).
      * rewrite (rep_ts _ _ R), (rep_sz _ _ R), E. cbn [mbind option_bind]. eexists. split; [reflexivity|].
        pose proof (push_room b l item d R ltac:(lia) Hi E Hd Hitems) as R2. by rewrite decide_False in R2.
      * rewrite Hh. intros Eq. apply (mod_apart (tail b) (alen l)); [done|lia|done].
Qed.

Lemma pop_front_spec_ring b l : rep b l -> rep (pop_front b) (List.tl l).
Proof.
  intros R. unfold pop_front. rewrite (head_none b l R), (rep_sz _ _ R), (rep_ts _ _ R).
  destruct l as [|x l]; [by rewrite bool_decide_true|]. rewrite bool_decide_false by done. cbv zeta.
  pose proof (drop_oldest b x l R) as R1. cbn [List.tl].
  assert (En : (len b - 1 =? 0) = bool_decide (l = [])).
  { rewrite (rep_len _ _ R). unfold alen. destruct l; [done|]. cbn [List.length]. rewrite bool_decide_false by done. apply Z.eqb_neq. lia. }
  rewrite En. by destruct (decide (l = [])); [rewrite bool_decide_true|rewrite bool_decide_false].
Qed.

Lemma last_pos_spec b l : rep b l -> last_pos b = (tail b - 1) mod sz.
Proof.
  intros R. pose proof (rep_tail _ _ R). unfold last_pos. rewrite (rep_sz _ _ R), rem_mod by lia.
  replace (tail b + sz - 1) with (tail b - 1 + 1 * sz) by lia. by rewrite Z.mod_add by lia.
Qed.

Lemma pop_back_spec_ring b l : rep b l -> rep (pop_back b) (take (List.length l - 1) l).
Proof.
  intros R. unfold pop_back. rewrite (head_none b l R), (rep_sz _ _ R), (rep_ts _ _ R), (last_pos_spec b l R).
  destruct (decide (l = [])) as [->|Hne]; [by rewrite bool_decide_true|]. rewrite bool_decide_false by done. cbv zeta.
  pose proof (nonempty_pos l Hne) as Hp. pose proof (rep_cap _ _ R) as Hc.
  set (l' := take _ l). assert (El : alen l' = alen l - 1) by (unfold l', alen in *; rewrite length_take; lia).
  assert (En : (len b - 1 =? 0) = bool_decide (l' = [])).
  { rewrite (rep_len _ _ R), <- El. destruct l'; [done|]. rewrite bool_decide_false by done. apply Z.eqb_neq. unfold alen. cbn. lia. }
  rewrite En. pose proof (rep_head _ _ R) as Hh. rewrite decide_False in Hh by done.
  split; cbn [size type_size data len tail head]; try apply R; rewrite ?El; try done.
  - by rewrite (rep_len _ _ R).
  - lia.
  - apply Z.mod_pos_bound. lia.
  - destruct (decide (l' = [])); [by rewrite bool_decide_true|]. rewrite bool_decide_false, Hh by done.
    replace ((tail b - 1) mod sz - (alen l - 1)) with ((tail b - 1) mod sz + (1 - alen l)) by lia. rewrite wrap_l. f_equal. lia.
  - intros i x Hx. replace ((tail b - 1) mod sz - (alen l - 1) + Z.of_nat i) with ((tail b - 1) mod sz + (1 - alen l + Z.of_nat i)) by lia.
    rewrite wrap_l. replace (tail b - 1 + (1 - alen l + Z.of_nat i)) with (tail b - alen l + Z.of_nat i) by lia.
    apply (rep_items _ _ R). unfold l' in Hx. by apply lookup_take_Some in Hx as [? _].
Qed.

Lemma front_spec_ring b l : rep b l -> front b = Some (list.head l).
Proof.
  intros R. unfold front. rewrite (head_none b l R). destruct l as [|x l]; [by rewrite bool_decide_true|].
  rewrite bool_decide_false by done. pose proof (rep_head _ _ R) as Hh. rewrite decide_False in Hh by done.
  rewrite (rep_ts _ _ R), Hh, peek_item by (try apply R; apply Z.mod_pos_bound; lia). cbn [mbind option_bind].
  pose proof (rep_items _ _ R 0 x eq_refl) as Hx. rewrite Z.add_0_r in Hx. by rewrite Hx.
Qed.
Lemma back_spec_ring b l : rep b l -> back b = Some (list.last l).
Proof.
  intros R. unfold back. rewrite (head_none b l R), (last_pos_spec b l R). destruct (decide (l = [])) as [->|Hne]; [by rewrite bool_decide_true|].
  rewrite bool_decide_false by done. rewrite (rep_ts _ _ R), peek_item by (try apply R; apply Z.mod_pos_bound; lia).
  cbn [mbind option_bind]. pose proof (nonempty_pos l Hne) as Hp.
  destruct (list.last l) as [x|] eqn:Ex; [|by apply last_None in Ex]. rewrite last_lookup in Ex.
  pose proof (rep_items _ _ R _ x Ex) as Hx. rewrite <- Hx. do 4 f_equal. unfold alen in *. lia.
Qed.
End items.

(** ** Any use of the buffer *)

Inductive op := Push (item : list Z) | PopFront | PopBack.
Definition step (b : t) (o : op) : option t :=
  match o with Push x => push b x | PopFront => Some (pop_front b) | PopBack => Some (pop_back b) end.
Fixpoint steps (b : t) (os : list op) : option t := match os with [] => Some b | o :: os => b ← step b o; steps b os end.
(** The queue that forgets its oldest item. *)
Definition queue_step (sz : Z) (l : list (list Z)) (o : op) : list (list Z) :=
  match o with Push x => kept sz l x | PopFront => List.tl l | PopBack => take (List.length l - 1) l end.

(** A ring buffer of any size and item size, whatever its memory held, is the queue of
    the last items pushed: both ends, the length and emptiness agree with it after any
    operations, and a push to a full buffer loses the oldest item only. *)
Theorem ringbuf_refines_queue (sz ts : Z) (garbage : list Z) (os : list op) :
  1 < sz -> 0 < ts -> alen garbage = sz * ts -> Forall (fun o => match o with Push x => alen x = ts | _ => True end) os ->
  let l := foldl (queue_step sz) [] os in
  exists b, steps (init sz ts garbage) os = Some b /\ length b = alen l /\ is_empty b = bool_decide (l = []) /\
    front b = Some (list.head l) /\ back b = Some (list.last l) /\ alen l <= sz.
Proof.
  intros Hsz Hts Hg Hos l.
  assert (Hgen : forall os b l, rep sz ts b l -> Forall (fun o => match o with Push x => alen x = ts | _ => True end) os ->
    exists b', steps b os = Some b' /\ rep sz ts b' (foldl (queue_step sz) l os)).
  { clear -Hsz Hts. intros os. induction os as [|o os IH]; intros b l R Hos; [by exists b|].
    apply list.Forall_cons in Hos as [Ho Hos].
    assert (H1 : exists b1, step b o = Some b1 /\ rep sz ts b1 (queue_step sz l o)).
    { destruct o as [x| |]; cbn [step queue_step].
      - by apply ringbuf_push_spec.
      - eexists. split; [done|]. by apply pop_front_spec_ring.
      - eexists. split; [done|]. by apply pop_back_spec_ring. }
    destruct H1 as (b1 & E & R1). cbn [steps foldl]. rewrite E. by apply IH. }
  destruct (Hgen os (init sz ts garbage) [] (ringbuf_init_rep sz ts Hsz garbage Hg) Hos) as (b & E & R). fold l in R.
  exists b. split; [done|]. split; [apply R|]. split; [by apply (head_none sz ts)|].
  split; [by apply (front_spec_ring sz ts)|]. split; [by apply (back_spec_ring sz ts)|]. apply R.
Qed.

Lemma ringbuf_refines_queue_witness :
  exists b, steps (init 3 2 [9; 9; 9; 9; 9; 9]) [Push [1; 2]; Push [3; 4]; Push [5; 6]; Push [7; 8]; PopBack] = Some b /\
    length b = 2 /\ front b = Some (Some [3; 4]) /\ back b = Some (Some [5; 6]).
Proof.
  destruct (ringbuf_refines_queue 3 2 [9; 9; 9; 9; 9; 9] [Push [1; 2]; Push [3; 4]; Push [5; 6]; Push [7; 8]; PopBack])
    as (b & E & El & _ & Ef & Eb & _); [lia|lia|reflexivity|by repeat constructor|].
  exists b. split; [exact E|]. split; [exact El|]. split; [exact Ef|exact Eb].
Defined.
End RingBuf.
