(* ===== verification/Container.v ===== *)
(** * Rectangles and the tree of elements
    (student-distrib/ui/rectangle.cpp, inc/ui/container.h, inc/ui/drawable.h and the
    classes over them)

    The elements of the screen are objects that point to their parent and, in a deque,
    to their children. [Container.t] is the object, with the class of it that decides
    its virtual methods; the objects live in a store. [tree] is the shape that the
    pointers have, which the methods keep. *)
From stdpp Require Import prelude gmap list numbers.
From Stdlib Require Import ZArith Lia.
From S2P Require Import Prelude Deque.

Module Rectangle.

Definition ScreenWidth : Z := 1024.
Definition ScreenHeight : Z := 768.

Record t := mk { x1 : Z; y1 : Z; x2 : Z; y2 : Z }.

Definition EmptyRectangle : t := mk (-1000) (-1000) (-2000) (-2000).

Definition BoundX (input : Z) : Z :=
  if input <? 0 then 0 else if ScreenWidth <? input then ScreenWidth else input.
Definition BoundY (input : Z) : Z :=
  if input <? 0 then 0 else if ScreenHeight <? input then ScreenHeight else input.

Definition bound (r : t) : t := mk (BoundX (x1 r)) (BoundY (y1 r)) (BoundX (x2 r)) (BoundY (y2 r)).

Definition hasPoint (r : t) (x y : Z) : bool :=
  (x1 r <=? x) && (x <=? x2 r) && (y1 r <=? y) && (y <=? y2 r).

Definition overlapsWith (r r2 : t) : bool :=
  if (x2 r2 <? x1 r) || (x2 r <? x1 r2) then false
  else if (y2 r2 <? y1 r) || (y2 r <? y1 r2) then false
  else true.

(** A pixel of the screen; a point of the half-open rectangle. *)
Definition on_screen (x y : Z) : Prop := 0 <= x < ScreenWidth /\ 0 <= y < ScreenHeight.
Definition inside (r : t) (x y : Z) : Prop := x1 r <= x < x2 r /\ y1 r <= y < y2 r.
#[export] Instance on_screen_dec x y : Decision (on_screen x y).
Proof. unfold on_screen. apply _. Defined.
#[export] Instance inside_dec r x y : Decision (inside r x y).
Proof. unfold inside. apply _. Defined.

Lemma bound_range r :
  0 <= x1 (bound r) <= ScreenWidth /\ 0 <= x2 (bound r) <= ScreenWidth /\
  0 <= y1 (bound r) <= ScreenHeight /\ 0 <= y2 (bound r) <= ScreenHeight.
Proof. unfold bound, BoundX, BoundY, ScreenWidth, ScreenHeight; cbn. case_cmp; lia. Qed.

(** Clipping keeps exactly the pixels of the screen. *)
Lemma bound_inside r x y : inside (bound r) x y <-> inside r x y /\ on_screen x y.
Proof.
  unfold inside, on_screen, bound, BoundX, BoundY, ScreenWidth, ScreenHeight; cbn. case_cmp; lia.
Qed.

Lemma hasPoint_iff r x y : hasPoint r x y = true <-> (x1 r <= x <= x2 r /\ y1 r <= y <= y2 r).
Proof. unfold hasPoint. rewrite !andb_true_iff, !Z.leb_le. lia. Qed.

Lemma hasPoint_Empty x y : hasPoint EmptyRectangle x y = false.
Proof. apply not_true_iff_false. rewrite hasPoint_iff. cbn. lia. Qed.

(** Rectangles with a pixel in common overlap. *)
Lemma inside_overlaps r r2 x y : inside r x y -> inside r2 x y -> overlapsWith r r2 = true.
Proof. unfold inside, overlapsWith. intros. case_cmp; cbn; lia || done. Qed.

End Rectangle.

Module Container.
Import Rectangle.

Notation ptr := Z (only parsing).

(** The class of an object: what its virtual methods do. A window knows its title bar and
    its body. *)
Inductive cls :=
  | Plain
  | Drawable
  | Window (bar body : ptr)
  | WindowBody
  | TitleBar
  | Desktop
  | Mouse.

Record t := mk {
  width : Z; height : Z;
  absX : Z; absY : Z;
  relX : Z; relY : Z;
  visible : bool;
  children : Deque.t ptr;
  parent : option ptr;
  class : cls;
  pixelBuffer : Z -> option Z }.

(** The store of objects. *)
Notation store := (gmap ptr t).

(** [Container::Container]; [parent] is not set. *)
Definition make (k : cls) (pixels : Z -> option Z) (_width _height _x _y : Z) : t :=
  mk _width _height _x _y _x _y false Deque.init None k pixels.

Definition set_visible (c : t) (b : bool) : t :=
  mk (width c) (height c) (absX c) (absY c) (relX c) (relY c) b (children c) (parent c) (class c) (pixelBuffer c).
Definition set_abs (c : t) (x y : Z) : t :=
  mk (width c) (height c) x y (relX c) (relY c) (visible c) (children c) (parent c) (class c) (pixelBuffer c).
Definition set_rel (c : t) (x y : Z) : t :=
  mk (width c) (height c) (absX c) (absY c) x y (visible c) (children c) (parent c) (class c) (pixelBuffer c).
Definition set_children (c : t) (q : Deque.t ptr) : t :=
  mk (width c) (height c) (absX c) (absY c) (relX c) (relY c) (visible c) q (parent c) (class c) (pixelBuffer c).
Definition set_parent (c : t) (p : option ptr) : t :=
  mk (width c) (height c) (absX c) (absY c) (relX c) (relY c) (visible c) (children c) p (class c) (pixelBuffer c).

Definition isDrawable (c : t) : bool :=
  match class c with Plain | Window _ _ => false | _ => true end.
Definition isMovable (c : t) : bool :=
  match class c with Window _ _ | TitleBar | Mouse => true | _ => false end.

Definition getBoundingRectangle (c : t) : Rectangle.t :=
  Rectangle.mk (absX c) (absY c) (s32 (absX c + width c)) (s32 (absY c + height c)).

Definition isPixelInRange (c : t) (tx ty : Z) : bool :=
  if tx <? absX c then false
  else if s32 (absX c + width c) <=? tx then false
  else if ty <? absY c then false
  else if s32 (absY c + height c) <=? ty then false
  else true.

(** [Drawable::getRed] and its siblings; [None] outside of the pixel buffer. *)
Definition getRed (c : t) (tx ty : Z) : option Z := pixelBuffer c (s32 ((ty * width c + tx) * 4 + 0)).
Definition getGreen (c : t) (tx ty : Z) : option Z := pixelBuffer c (s32 ((ty * width c + tx) * 4 + 1)).
Definition getBlue (c : t) (tx ty : Z) : option Z := pixelBuffer c (s32 ((ty * width c + tx) * 4 + 2)).
Definition getAlpha (c : t) (tx ty : Z) : option Z := pixelBuffer c (s32 ((ty * width c + tx) * 4 + 3)).

(** [children[i]]: an index out of bound is a kernel panic. *)
Definition child (c : t) (i : Z) : option ptr := mjoin (Deque.at_ (children c) i).
Definition size (c : t) : nat := Z.to_nat (Deque.size (children c)).

(** [setParent]: the object [d] of the store gets the parent [p]. *)
Definition setParent (h : store) (d p : ptr) : option store :=
  c ← h !! d; pc ← h !! p;
  Some (<[d := set_abs (set_parent c (Some p)) (s32 (absX pc + relX c)) (s32 (absY pc + relY c))]> h).

(** The recursion goes down the tree: [fuel] is a bound of its depth. *)
Fixpoint updateLocationFollowingParent (fuel : nat) (h : store) (p : ptr) (parentAbsX parentAbsY : Z)
    : option store :=
  match fuel with
  | O => None
  | S fuel =>
      c ← h !! p;
      let c := set_abs c (s32 (parentAbsX + relX c)) (s32 (parentAbsY + relY c)) in
      for_opt (size c) 0 (fun i h => d ← child c i;
        updateLocationFollowingParent fuel h d (absX c) (absY c)) (<[p := c]> h)
  end.

(** [updateLocation] up to the redraw. *)
Definition relocate (fuel : nat) (h : store) (p : ptr) (newX newY : Z) : option store :=
  c ← h !! p;
  let c' := set_rel (set_abs c newX newY)
              (s32 (relX c + (newX - absX c))) (s32 (relY c + (newY - absY c))) in
  for_opt (size c') 0 (fun i h => d ← child c' i;
    updateLocationFollowingParent fuel h d (absX c') (absY c')) (<[p := c']> h).

(** ** The shape of the pointers *)

Unset Elimination Schemes.
Inductive tree := Node (p : ptr) (ts : list tree).
Set Elimination Schemes.

(** Induction with a hypothesis for every subtree. *)
Lemma tree_ind (P : tree -> Prop) : (forall p ts, Forall P ts -> P (Node p ts)) -> forall t, P t.
Proof.
  intros HP. fix IH 1. intros [p ts]. apply HP.
  induction ts as [|t ts IHts]; constructor; [apply IH | apply IHts].
Qed.

Definition top (t : tree) : ptr := match t with Node p _ => p end.
Definition subtrees (t : tree) : list tree := match t with Node _ ts => ts end.
Fixpoint ptrs (t : tree) : list ptr := match t with Node p ts => p :: flat_map ptrs ts end.

(** The children deques of the store hold the tree. *)
Inductive reps (h : store) : tree -> Prop :=
  | reps_node p ts c : h !! p = Some c -> Deque.rep (children c) (top <$> ts) -> Forall (reps h) ts -> reps h (Node p ts).

(** Every element is where its parent and its relative position put it. *)
Inductive placed (h : store) (px py : Z) : tree -> Prop :=
  | placed_node p ts c : h !! p = Some c -> absX c = s32 (px + relX c) -> absY c = s32 (py + relY c) ->
      Forall (placed h (absX c) (absY c)) ts -> placed h px py (Node p ts).

Lemma ptrs_sub p ts t : t ∈ ts -> forall q, q ∈ ptrs t -> q ∈ ptrs (Node p ts).
Proof.
  intros Ht q Hq. cbn [ptrs]. right. apply list_elem_of_In, in_flat_map. exists t.
  by rewrite <- !list_elem_of_In.
Qed.

Lemma elem_of_forest (ts : list tree) q : q ∈ flat_map ptrs ts <-> exists t, t ∈ ts /\ q ∈ ptrs t.
Proof.
  rewrite list_elem_of_In, in_flat_map. split; intros (t & H1 & H2); exists t.
  - by rewrite !list_elem_of_In.
  - by rewrite <- !list_elem_of_In.
Qed.

Lemma top_ptr t : top t ∈ ptrs t.
Proof. destruct t. cbn. left. Qed.

Lemma forest_nodup (ts : list tree) : NoDup (flat_map ptrs ts) ->
  forall i t, ts !! i = Some t -> NoDup (ptrs t) /\
    forall j u, ts !! j = Some u -> j <> i -> forall q, q ∈ ptrs t -> q ∉ ptrs u.
Proof.
  induction ts as [|t0 ts IH]; intros Hn i t Hi; [done|]. cbn [flat_map] in Hn.
  apply list.NoDup_app in Hn as (N1 & N2 & N3). destruct i as [|i]; cbn in Hi.
  - injection Hi as <-. split; [done|]. intros [|j] u Hu Hj q Hq; [done|]. cbn in Hu.
    intros Hq'. apply (N2 q Hq), elem_of_forest. exists u. split; [by eapply list_elem_of_lookup_2|done].
  - destruct (IH N3 i t Hi) as [A B]. split; [done|]. intros [|j] u Hu Hj q Hq; cbn in Hu.
    + injection Hu as <-. intros Hq'. apply (N2 q Hq'), elem_of_forest. exists t.
      split; [by eapply list_elem_of_lookup_2|done].
    + eapply B; eauto.
Qed.

(** Stores that differ in other fields have the same shape. *)
Lemma reps_ext h h' t : reps h t ->
  (forall q c, q ∈ ptrs t -> h !! q = Some c -> exists c', h' !! q = Some c' /\ children c' = children c) ->
  reps h' t.
Proof.
  induction t as [p ts IH] using tree_ind. intros R E. inversion R as [? ? c Hc Hd Hs]; subst.
  destruct (E p c (top_ptr (Node p ts)) Hc) as (c' & Hc' & Ec). apply (reps_node _ _ _ c'); [done|by rewrite Ec|].
  rewrite list.Forall_forall in Hs, IH |- *. intros t Ht. apply (IH t Ht); [by apply Hs|].
  intros q d Hq. apply E. by eapply ptrs_sub.
Qed.

Lemma placed_ext h h' t : forall px py, placed h px py t ->
  (forall q, q ∈ ptrs t -> h' !! q = h !! q) -> placed h' px py t.
Proof.
  induction t as [p ts IH] using tree_ind. intros px py P E. inversion P as [? ? c Hc HX HY Hs]; subst.
  apply (placed_node _ _ _ _ _ c); [by rewrite E by apply (top_ptr (Node p ts))|done..|].
  rewrite list.Forall_forall in Hs, IH |- *. intros t Ht. apply (IH t Ht); [by apply Hs|].
  intros q Hq. apply E. by eapply ptrs_sub.
Qed.

(** [children.size()] and [children[i]] of an element. *)
Lemma size_spec c (ts : list tree) : Deque.rep (children c) (top <$> ts) -> size c = length ts.
Proof.
  intros [R _]. unfold size, Deque.size. rewrite (Deque.rep_size _ _ R). unfold alen.
  rewrite length_fmap. lia.
Qed.
Lemma child_spec c (ts : list tree) i t : Deque.rep (children c) (top <$> ts) -> ts !! i = Some t ->
  child c (Z.of_nat i) = Some (top t).
Proof.
  intros R Hi. unfold child. rewrite (Deque.at_spec _ _ _ R) by lia. rewrite Nat2Z.id, list_lookup_fmap.
  by rewrite Hi.
Qed.

(** ** Moving a subtree *)

(** [h'] differs from [h] only in absolute positions, and those only inside [ps]. *)
Definition moved (ps : list ptr) (h h' : store) : Prop :=
  (forall q, q ∉ ps -> h' !! q = h !! q) /\
  (forall q c, h !! q = Some c -> exists x y, h' !! q = Some (set_abs c x y)).

Lemma set_abs_eta c : set_abs c (absX c) (absY c) = c.
Proof. by destruct c. Qed.
Lemma moved_refl h : moved [] h h.
Proof. split; [done|]. intros q c Hc. exists (absX c), (absY c). by rewrite set_abs_eta. Qed.
Lemma moved_mono ps ps' h h' : moved ps h h' -> ps ⊆ ps' -> moved ps' h h'.
Proof. intros [A B] Hs. split; [|done]. intros q Hq. apply A. set_solver. Qed.
Lemma moved_trans ps ps' h1 h2 h3 : moved ps h1 h2 -> moved ps' h2 h3 -> moved (ps ++ ps') h1 h3.
Proof.
  intros [A B] [A' B']. split.
  - intros q Hq. rewrite not_elem_of_app in Hq. rewrite A', A; tauto.
  - intros q c Hc. destruct (B q c Hc) as (x & y & H2). destruct (B' q _ H2) as (x' & y' & H3).
    exists x', y'. by rewrite H3.
Qed.
Lemma moved_reps ps h h' t : moved ps h h' -> reps h t -> reps h' t.
Proof.
  intros [_ B] R. apply (reps_ext _ _ _ R). intros q c _ Hc. destruct (B q c Hc) as (x & y & E). eauto.
Qed.

Fixpoint depth (t : tree) : nat := match t with Node _ ts => S (list_max (depth <$> ts)) end.

Lemma depth_sub p ts t fuel : t ∈ ts -> (depth (Node p ts) <= S fuel)%nat -> (depth t <= fuel)%nat.
Proof.
  intros Ht. cbn [depth]. intros Hd. assert (Hm : (list_max (depth <$> ts) <= fuel)%nat) by lia.
  rewrite list_max_le, Forall_fmap, list.Forall_forall in Hm. by apply Hm.
Qed.

(** The loop over the children that [updateLocation] and
    [updateLocationFollowingParent] share. *)
Lemma follow_children fuel c ts h :
  Deque.rep (children c) (top <$> ts) -> Forall (reps h) ts -> NoDup (flat_map ptrs ts) ->
  (forall t h0, t ∈ ts -> reps h0 t -> exists h1,
     updateLocationFollowingParent fuel h0 (top t) (absX c) (absY c) = Some h1 /\
     placed h1 (absX c) (absY c) t /\ moved (ptrs t) h0 h1) ->
  exists h', for_opt (size c) 0 (fun i h => d ← child c i;
               updateLocationFollowingParent fuel h d (absX c) (absY c)) h = Some h' /\
    Forall (placed h' (absX c) (absY c)) ts /\ moved (flat_map ptrs ts) h h'.
Proof.
  intros R Hs Hn IH. rewrite (size_spec _ _ R).
  destruct (for_opt_ind (fun j h' => Forall (placed h' (absX c) (absY c)) (take (Z.to_nat j) ts) /\
      moved (flat_map ptrs (take (Z.to_nat j) ts)) h h') (length ts) 0
      (fun i h => d ← child c i; updateLocationFollowingParent fuel h d (absX c) (absY c)) h) as (h' & E & P).
  - split; [constructor|apply moved_refl].
  - intros j h1 Hj [P1 M1]. destruct (lookup_lt_is_Some_2 ts (Z.to_nat j)) as [t Ht]; [lia|].
    pose proof (child_spec _ _ _ _ R Ht) as Hch. rewrite Z2Nat.id in Hch by lia. rewrite Hch. cbn [mbind option_bind].
    assert (Hin : t ∈ ts) by by eapply list_elem_of_lookup_2.
    rewrite list.Forall_forall in Hs.
    destruct (IH t h1 Hin (moved_reps _ _ _ _ M1 (Hs t Hin))) as (h2 & -> & P2 & M2).
    exists h2. split; [done|]. replace (Z.to_nat (j + 1)) with (S (Z.to_nat j)) by lia.
    rewrite (take_S_r _ _ _ Ht). rewrite flat_map_app. cbn [flat_map]. rewrite app_nil_r.
    split; [|by eapply moved_trans]. apply list.Forall_app. split; [|by constructor].
    rewrite list.Forall_forall in P1 |- *. intros u Hu. apply (placed_ext h1); [by apply P1|].
    intros q Hq. apply M2. intros Hq'. apply list_elem_of_lookup in Hu as [i Hi].
    apply lookup_take_Some in Hi as [Hi Hlt].
    destruct (forest_nodup ts Hn _ _ Ht) as [_ D]. exact (D i u Hi ltac:(lia) q Hq' Hq).
  - exists h'. split; [done|]. by rewrite Z.add_0_l, Nat2Z.id, firstn_all in P.
Qed.

Lemma follow_spec t : forall fuel h px py, reps h t -> NoDup (ptrs t) -> (depth t <= fuel)%nat ->
  exists h', updateLocationFollowingParent fuel h (top t) px py = Some h' /\
    placed h' px py t /\ moved (ptrs t) h h'.
Proof.
  induction t as [p ts IH] using tree_ind. intros fuel h px py R Hn Hd.
  destruct fuel as [|fuel]; [cbn in Hd; lia|]. inversion R as [? ? c Hc Hdq Hs]; subst.
  cbn [ptrs] in Hn. apply list.NoDup_cons in Hn as [Hp Hn].
  cbn [updateLocationFollowingParent top]. rewrite Hc. cbn [mbind option_bind].
  set (c1 := set_abs c _ _). set (h1 := <[p := c1]> h).
  assert (M1 : moved [p] h h1).
  { split.
    - intros q Hq. apply lookup_insert_ne. set_solver.
    - intros q d Hq. unfold h1. destruct (decide (p = q)) as [<-|Hne].
      + rewrite lookup_insert_eq. assert (d = c) as -> by congruence. by eexists _, _.
      + rewrite lookup_insert_ne by done. exists (absX d), (absY d). by rewrite set_abs_eta. }
  destruct (follow_children fuel c1 ts h1) as (h' & E & P & M).
  - exact Hdq.
  - eapply List.Forall_impl; [|exact Hs]. intros t. by apply (moved_reps [p]).
  - done.
  - intros t h0 Ht Rt. rewrite list.Forall_forall in IH. apply (IH t Ht fuel h0 _ _ Rt).
    + apply list_elem_of_lookup in Ht as [i Hi]. by destruct (forest_nodup ts Hn _ _ Hi).
    + by eapply depth_sub.
  - exists h'. split; [exact E|]. split; [|exact (moved_trans [p] _ _ _ _ M1 M)].
    destruct M as [M _]. specialize (M p Hp). unfold h1 in M. rewrite lookup_insert_eq in M.
    by apply (placed_node _ _ _ _ _ c1).
Qed.

(** ** Moving an element of a larger tree *)

Inductive subtree (t : tree) : tree -> Prop :=
  | sub_refl : subtree t t
  | sub_child p ts u : u ∈ ts -> subtree t u -> subtree t (Node p ts).

Lemma subtree_ptrs t T : subtree t T -> ptrs t ⊆ ptrs T.
Proof.
  induction 1 as [|p ts u Hu _ IH]; [done|]. intros q Hq. eapply ptrs_sub; [done|]. by apply IH.
Qed.
Lemma subtree_reps h t T : subtree t T -> reps h T -> reps h t.
Proof.
  induction 1 as [|p ts u Hu _ IH]; [done|]. intros R. inversion R as [? ? c Hc Hd Hs]; subst.
  apply IH. rewrite list.Forall_forall in Hs. by apply Hs.
Qed.
Lemma subtree_nodup t T : subtree t T -> NoDup (ptrs T) -> NoDup (ptrs t).
Proof.
  induction 1 as [|p ts u Hu _ IH]; [done|]. cbn [ptrs]. intros [_ Hn]%list.NoDup_cons. apply IH.
  apply list_elem_of_lookup in Hu as [i Hi]. by destruct (forest_nodup ts Hn _ _ Hi).
Qed.
Lemma subtree_depth t T : subtree t T -> (depth t <= depth T)%nat.
Proof.
  induction 1 as [|p ts u Hu _ IH]; [done|]. etrans; [exact IH|].
  apply Nat.lt_le_incl. pose proof (depth_sub p ts u (pred (depth (Node p ts))) Hu) as Hd. cbn [depth] in *. lia.
Qed.

(** Replacing the contents of a subtree, wherever its parent is. *)
Lemma placed_sub h h' t T : subtree t T -> NoDup (ptrs T) ->
  (forall q, q ∉ ptrs t -> h' !! q = h !! q) ->
  (forall px py, placed h px py t -> placed h' px py t) ->
  forall px py, placed h px py T -> placed h' px py T.
Proof.
  intros Hst. induction Hst as [|p ts u Hu Hst IH]; [auto|]. intros Hn Hout Hin px py P.
  inversion P as [? ? c Hc HX HY Hs]; subst. cbn [ptrs] in Hn. apply list.NoDup_cons in Hn as [Hp Hn].
  apply (placed_node _ _ _ _ _ c); [|done|done|].
  - rewrite Hout; [done|]. intros Hq. apply Hp, elem_of_forest. exists u. split; [done|]. by apply (subtree_ptrs t u).
  - rewrite list.Forall_forall in Hs |- *. intros v Hv. apply list_elem_of_lookup in Hv as [j Hj].
    apply list_elem_of_lookup in Hu as [i Hi]. destruct (forest_nodup ts Hn _ _ Hi) as [Nu D].
    destruct (decide (j = i)) as [->|Hji].
    + assert (v = u) as -> by congruence. apply IH; [done..|]. apply Hs. by eapply list_elem_of_lookup_2.
    + apply (placed_ext h); [apply Hs; by eapply list_elem_of_lookup_2|]. intros q Hq. apply Hout.
      intros Hq'. exact (D j v Hj Hji q (subtree_ptrs t u Hst q Hq') Hq).
Qed.

Lemma subtree_placed h t T : subtree t T -> forall px py, placed h px py T -> exists qx qy, placed h qx qy t.
Proof.
  induction 1 as [|p ts u Hu _ IH]; intros px py P; [eauto|]. inversion P as [? ? c Hc HX HY Hs]; subst.
  rewrite list.Forall_forall in Hs. eapply IH. by apply Hs.
Qed.

(** A relative position that is corrected by a move of [a + r] to [n] puts the element at [n]. *)
Lemma rel_follows a r n : - 2 ^ 31 <= n < 2 ^ 31 -> n = s32 (a + s32 (r + (n - s32 (a + r)))).
Proof.
  intros Hn. rewrite s32_add_s32. rewrite <- (s32_id n) at 1 by done. apply s32_cong.
  replace (a + (r + (n - s32 (a + r)))) with (a + r + n - s32 (a + r)) by lia.
  rewrite u32_sub_s32. f_equal. lia.
Qed.

(** The result of [relocate]: the element is at the new position, its descendants follow
    it, everything else is untouched. *)
Definition relocated (h h' : store) (t : tree) (c : Container.t) (newX newY : Z) : Prop :=
  h' !! top t = Some (set_rel (set_abs c newX newY)
    (s32 (relX c + (newX - absX c))) (s32 (relY c + (newY - absY c)))) /\
  (forall q, q ∉ ptrs t -> h' !! q = h !! q) /\
  (forall q d, q <> top t -> h !! q = Some d -> exists x y, h' !! q = Some (set_abs d x y)).

Lemma relocate_spec fuel h T t c newX newY px py :
  reps h T -> NoDup (ptrs T) -> subtree t T -> placed h px py T -> (depth T <= fuel)%nat ->
  h !! top t = Some c -> - 2 ^ 31 <= newX < 2 ^ 31 -> - 2 ^ 31 <= newY < 2 ^ 31 ->
  exists h', relocate fuel h (top t) newX newY = Some h' /\ reps h' T /\ placed h' px py T /\
    relocated h h' t c newX newY.
Proof.
  intros R Hn Hst P Hd Hc HX HY. pose proof (subtree_reps _ _ _ Hst R) as Rt.
  pose proof (subtree_nodup _ _ Hst Hn) as Nt. pose proof (subtree_depth _ _ Hst) as Dt.
  destruct t as [p ts]. inversion Rt as [? ? c0 Hc0 Hdq Hs]; subst. cbn [top] in *.
  assert (c0 = c) as -> by congruence. cbn [ptrs] in Nt. apply list.NoDup_cons in Nt as [Hp Nt].
  unfold relocate. rewrite Hc. cbn [mbind option_bind].
  set (c' := set_rel _ _ _). set (h1 := <[p := c']> h).
  assert (R1 : forall u, reps h u -> reps h1 u).
  { intros u Ru. apply (reps_ext h); [done|]. intros q d _ Hq. unfold h1. destruct (decide (p = q)) as [<-|].
    - rewrite lookup_insert_eq. exists c'. split; [done|]. assert (d = c) as -> by congruence. done.
    - rewrite lookup_insert_ne by done. eauto. }
  destruct (follow_children fuel c' ts h1) as (h' & E & Pt & [M1 M2]).
  - exact Hdq.
  - eapply List.Forall_impl; [|exact Hs]. apply R1.
  - done.
  - intros t h0 Ht Rt'. apply follow_spec; [done| |].
    + apply list_elem_of_lookup in Ht as [i Hi]. by destruct (forest_nodup ts Nt _ _ Hi).
    + apply (depth_sub p ts); [exact Ht|]. lia.
  - assert (Hp' : h' !! p = Some c') by (rewrite M1 by done; apply lookup_insert_eq).
    assert (Hout : forall q, q ∉ ptrs (Node p ts) -> h' !! q = h !! q).
    { intros q Hq. cbn [ptrs] in Hq. rewrite not_elem_of_cons in Hq. rewrite M1 by tauto.
      apply lookup_insert_ne. intros <-. tauto. }
    exists h'. split; [exact E|]. split; [|split; [|split; [|split]]].
    + apply (reps_ext h1); [by apply R1|]. intros q d _ Hq. destruct (M2 q d Hq) as (x & y & E'). eauto.
    + eapply (placed_sub h); [done..| |done]. intros qx qy Pq. inversion Pq as [? ? c2 Hc2 EX EY _]; subst.
      assert (c2 = c) as -> by congruence. apply (placed_node _ _ _ _ _ c'); [done| | |done]; cbn.
      * rewrite EX. by apply rel_follows.
      * rewrite EY. by apply rel_follows.
    + exact Hp'.
    + exact Hout.
    + intros q d Hq Hd'. apply M2. unfold h1. by rewrite lookup_insert_ne.
Qed.

(** Two placements of a tree whose parents are [(dx, dy)] apart. *)
Lemma placed_shift h h' dx dy t : forall px py px' py',
  placed h px py t -> placed h' px' py' t ->
  u32 px' = u32 (px + dx) -> u32 py' = u32 (py + dy) ->
  (forall q d d', q ∈ ptrs t -> h !! q = Some d -> h' !! q = Some d' -> relX d' = relX d /\ relY d' = relY d) ->
  forall q d d', q ∈ ptrs t -> h !! q = Some d -> h' !! q = Some d' ->
    absX d' = s32 (absX d + dx) /\ absY d' = s32 (absY d + dy).
Proof.
  assert (Hshift : forall p p' r d, u32 p' = u32 (p + d) -> s32 (p' + r) = s32 (s32 (p + r) + d)).
  { intros p p' r d E. rewrite (Z.add_comm (s32 _)), s32_add_s32. apply s32_cong.
    rewrite (u32_add_cong p' r (p + d) r E eq_refl). f_equal. lia. }
  assert (Hnext : forall a b d, b = s32 (a + d) -> u32 b = u32 (a + d)) by (intros a b d ->; apply u32_s32).
  induction t as [p ts IH] using tree_ind. intros px py px' py' P P' EX EY Er q d d' Hq Hd Hd'.
  inversion P as [? ? c Hc HX HY Hts]; inversion P' as [? ? c' Hc' HX' HY' Hts']; subst.
  destruct (Er p c c' (top_ptr (Node p ts)) Hc Hc') as [RX RY].
  assert (MX : absX c' = s32 (absX c + dx)) by (rewrite HX', HX, RX; by apply Hshift).
  assert (MY : absY c' = s32 (absY c + dy)) by (rewrite HY', HY, RY; by apply Hshift).
  cbn [ptrs] in Hq. rewrite elem_of_cons in Hq. destruct Hq as [->|Hq].
  - assert (d = c) as -> by congruence. by assert (d' = c') as -> by congruence.
  - apply elem_of_forest in Hq as (u & Hu & Hq). rewrite list.Forall_forall in IH, Hts, Hts'.
    apply (IH u Hu (absX c) (absY c) (absX c') (absY c') (Hts u Hu) (Hts' u Hu)) with (q := q); auto.
    intros z e e' Hz. apply Er. by eapply ptrs_sub.
Qed.

(** ** Moving keeps the tree

    Moving an element of a tree succeeds and puts it at the position asked for. The shape
    of the pointers stays, every element is still at its parent's position plus its own
    relative one, the descendants of the element move by the same vector, and no other
    element changes. *)
Theorem move_keeps_tree fuel h T t c newX newY :
  reps h T -> NoDup (ptrs T) -> placed h 0 0 T -> subtree t T -> (depth T <= fuel)%nat ->
  h !! top t = Some c -> - 2 ^ 31 <= newX < 2 ^ 31 -> - 2 ^ 31 <= newY < 2 ^ 31 ->
  exists h', relocate fuel h (top t) newX newY = Some h' /\ reps h' T /\ placed h' 0 0 T /\
    (exists c', h' !! top t = Some c' /\ absX c' = newX /\ absY c' = newY) /\
    (forall q d, q ∈ ptrs t -> q <> top t -> h !! q = Some d -> h' !! q =
       Some (set_abs d (s32 (absX d + (newX - absX c))) (s32 (absY d + (newY - absY c))))) /\
    (forall q, q ∉ ptrs t -> h' !! q = h !! q).
Proof.
  intros R Hn P Hst Hd Hc HX HY.
  destruct (relocate_spec fuel h T t c newX newY 0 0 R Hn Hst P Hd Hc HX HY) as (h' & E & R' & P' & Htop & Hout & Habs).
  exists h'. split; [done|]. split; [done|]. split; [done|]. split; [by eexists|]. split; [|done].
  intros q d Hq Hqt Hdq. destruct (Habs q d Hqt Hdq) as (x & y & Eq). rewrite Eq.
  destruct (subtree_placed _ _ _ Hst _ _ P) as (px & py & Pt). destruct (subtree_placed _ _ _ Hst _ _ P') as (px' & py' & Pt').
  destruct t as [p ts]. cbn [top ptrs] in *. rewrite elem_of_cons in Hq. destruct Hq as [->|Hq]; [done|].
  apply elem_of_forest in Hq as (u & Hu & Hq).
  inversion Pt as [? ? c0 Hc0 _ _ Hts]; inversion Pt' as [? ? c1 Hc1 _ _ Hts']; subst.
  assert (c0 = c) as -> by congruence. rewrite Htop in Hc1. injection Hc1 as <-. cbn [absX absY set_rel set_abs] in Hts'.
  rewrite list.Forall_forall in Hts, Hts'.
  assert (Hpu : p ∉ ptrs u).
  { pose proof (subtree_nodup _ _ Hst Hn) as Nt. cbn [ptrs] in Nt. apply list.NoDup_cons in Nt as [Hp _].
    intros Hpu. apply Hp, elem_of_forest. by exists u. }
  destruct (placed_shift h h' (newX - absX c) (newY - absY c) u _ _ _ _ (Hts u Hu) (Hts' u Hu)) with
    (q := q) (d := d) (d' := set_abs d x y) as [EX EY]; [f_equal; lia|f_equal; lia| |done|done|done|].
  - intros z e e' Hz He He'. assert (z <> p) by (intros ->; done). destruct (Habs z e ltac:(done) He) as (x' & y' & Ez).
    rewrite Ez in He'. injection He' as <-. done.
  - cbn [absX absY set_abs] in EX, EY. by rewrite EX, EY.
Qed.

Lemma move_keeps_tree_witness :
  let q := match Deque.push_back Deque.init 2 with Some q => q | None => Deque.init end in
  let a := mk 100 100 10 20 10 20 true q None Plain (fun _ => None) in
  let b := mk 5 5 13 24 3 4 true Deque.init (Some 1) Plain (fun _ => None) in
  let h : store := {[ 1 := a; 2 := b ]} in let T := Node 1 [Node 2 []] in
  exists h', relocate 2 h 1 (-7) 0 = Some h' /\ reps h' T /\ placed h' 0 0 T /\
    (exists c', h' !! 1 = Some c' /\ absX c' = -7 /\ absY c' = 0) /\
    (forall q d, q ∈ ptrs T -> q <> 1 -> h !! q = Some d -> h' !! q =
       Some (set_abs d (s32 (absX d + (-7 - 10))) (s32 (absY d + (0 - 20))))) /\
    (forall q, q ∉ ptrs T -> h' !! q = h !! q).
Proof.
  intros q a b h T. apply (move_keeps_tree 2 h T T a (-7) 0); try lia.
  - apply (reps_node _ _ _ a); [reflexivity| |].
    + cbn [children a top fmap list_fmap]. unfold q. destruct (Deque.push_back_spec Deque.init [] 2 Deque.init_rep) as (q' & -> & R);
        [unfold alen; cbn [length]; lia|exact R].
    + constructor; [|constructor]. apply (reps_node _ _ _ b); [reflexivity|exact Deque.init_rep|constructor].
  - apply list.NoDup_cons. split; [|apply list.NoDup_singleton]. intros E%list_elem_of_singleton. lia.
  - apply (placed_node _ _ _ _ _ a); [reflexivity..|]. constructor; [|constructor].
    apply (placed_node _ _ _ _ _ b); [reflexivity..|constructor].
  - constructor.
  - vm_compute. lia.
  - reflexivity.
Defined.

End Container.
