(* ===== verification/Compositor.v ===== *)
(** * The compositor and the mouse pointer
    (student-distrib/ui/compositor.cpp, ui/vbe.cpp, ui/mouse.cpp, ui/window.cpp,
    ui/desktop.cpp and the drawing half of inc/ui/container.h)

    The compositor draws the tree of elements into a build buffer, three bytes for a
    pixel, and copies what it drew to the memory of the screen. It walks the tree with a
    stack of twenty elements. Both memories are functions of the address. *)
From stdpp Require Import prelude gmap list numbers.
From Stdlib Require Import ZArith Lia SpecFloat.
From S2P Require Import Prelude Stack Deque Container.

(** ** Blending

    [float] expressions on this processor are evaluated in single or in extended
    precision, as the compiler likes: the format is an argument. *)
Module Blend.

Inductive format := Single | Extended.
Definition prec (F : format) : Z := match F with Single => 24 | Extended => 64 end.
Definition emax (F : format) : Z := match F with Single => 128 | Extended => 16384 end.

Definition of_Z (F : format) (z : Z) : spec_float := binary_normalize (prec F) (emax F) z 0 false.

(** Conversion to [uint8_t]: towards zero. *)
Definition to_u8 (f : spec_float) : Z :=
  match f with
  | S754_finite s m e =>
      let v := if 0 <=? e then Z.shiftl (Zpos m) e else Z.shiftr (Zpos m) (- e) in
      u8 (if s then - v else v)
  | _ => 0
  end.

Definition alphaBlending (F : format) (p1 p2 alpha : spec_float) : spec_float :=
  SFadd (prec F) (emax F)
    (SFmul (prec F) (emax F) p1 (SFsub (prec F) (emax F) (of_Z F 1) alpha))
    (SFmul (prec F) (emax F) p2 alpha).

(** A colour of the buffer under one of the element. *)
Definition blend (F : format) (alpha p1 p2 : Z) : Z :=
  to_u8 (alphaBlending F (of_Z F p1) (of_Z F p2) (SFdiv (prec F) (emax F) (of_Z F alpha) (of_Z F 255))).

Lemma blend_range F alpha p1 p2 : 0 <= blend F alpha p1 p2 < 256.
Proof.
  unfold blend, to_u8. destruct (alphaBlending _ _ _ _); try lia. apply u8_range.
Qed.

Definition bytes : list Z := seqZ 0 256.

Lemma byte_in x : 0 <= x < 256 -> In x bytes.
Proof. intros Hx. apply list_elem_of_In, elem_of_seqZ. lia. Qed.

(** What is under an opaque pixel adds a zero, whose sum is the colour of the pixel. *)
Lemma opaque_zero F p1 : 0 <= p1 < 256 ->
  SFmul (prec F) (emax F) (of_Z F p1)
    (SFsub (prec F) (emax F) (of_Z F 1) (SFdiv (prec F) (emax F) (of_Z F 255) (of_Z F 255))) = S754_zero false.
Proof.
  intros Hp. pose (f := fun p => match SFmul (prec F) (emax F) (of_Z F p)
    (SFsub (prec F) (emax F) (of_Z F 1) (SFdiv (prec F) (emax F) (of_Z F 255) (of_Z F 255))) with
    S754_zero false => true | _ => false end).
  assert (Hf : forallb f bytes = true) by (unfold f; destruct F; vm_compute; reflexivity).
  rewrite forallb_forall in Hf. specialize (Hf p1 (byte_in _ Hp)). unfold f in Hf.
  destruct (SFmul _ _ _ _) as [[]| | |]; done.
Qed.

Lemma blend_opaque F p1 p2 : 0 <= p1 < 256 -> 0 <= p2 < 256 -> blend F 255 p1 p2 = p2.
Proof.
  intros H1 H2. unfold blend, alphaBlending. rewrite opaque_zero by done.
  pose (f := fun p => to_u8 (SFadd (prec F) (emax F) (S754_zero false) (SFmul (prec F) (emax F) (of_Z F p)
    (SFdiv (prec F) (emax F) (of_Z F 255) (of_Z F 255)))) =? p).
  assert (Hf : forallb f bytes = true) by (unfold f; destruct F; vm_compute; reflexivity).
  rewrite forallb_forall in Hf. specialize (Hf p2 (byte_in _ H2)). by apply Z.eqb_eq.
Qed.

End Blend.

Module Compositor.
Import Rectangle Container.

Inductive DisplayMode := Video | Text.
#[export] Instance DisplayMode_eq : EqDecision DisplayMode.
Proof. solve_decision. Defined.

(** The two encodings of a pixel of the video memory. *)
Inductive VBEMemHelp := HelpRGBO | HelpBGR.

Notation mem := (Z -> Z).
Definition upd (m : mem) (a v : Z) : mem := fun b => if b =? a then v else m b.

(** The compositor, its elements, and the state of the one [Mouse]: the element it drags
    ([Maybe<Container *>]) and where on it. *)
Record t := mk {
  objs : gmap Z Container.t;
  rootContainer : option Z;
  theMouse : option Z;
  buildBuffer : mem;
  videoMemory : mem;
  displayMode : DisplayMode;
  drawHelper : VBEMemHelp;
  isDragging : option (option Z);
  dragOffsetX : Z;
  dragOffsetY : Z }.

Definition set_objs (s : t) (h : gmap Z Container.t) : t :=
  mk h (rootContainer s) (theMouse s) (buildBuffer s) (videoMemory s) (displayMode s) (drawHelper s)
     (isDragging s) (dragOffsetX s) (dragOffsetY s).
Definition set_screen (s : t) (b v : mem) (d : DisplayMode) : t :=
  mk (objs s) (rootContainer s) (theMouse s) b v d (drawHelper s) (isDragging s) (dragOffsetX s) (dragOffsetY s).
Definition set_drag (s : t) (e : option (option Z)) (x y : Z) : t :=
  mk (objs s) (rootContainer s) (theMouse s) (buildBuffer s) (videoMemory s) (displayMode s) (drawHelper s) e x y.

(** ** The video memory (ui/vbe.cpp) *)

Definition BGR_cls (vmem : mem) (val : Z) : mem :=
  fun a => if (0 <=? a) && (a <? ScreenWidth * ScreenHeight * 3) then u8 val else vmem a.
Definition RGBO_cls (vmem : mem) (val : Z) : mem :=
  fun a => if (0 <=? a) && (a <? ScreenWidth * ScreenHeight * 4) then u8 val else vmem a.

Definition BGR_copyRegion (vmem buildBuffer : mem) (xfrom xto yfrom yto : Z) : mem :=
  for_range yfrom yto (fun y vmem =>
    let p := 3 * (xfrom + y * ScreenWidth) in
    (for_range xfrom xto (fun _ '(vmem, writer, reader) =>
       let vmem := upd vmem (writer + 2) (buildBuffer (reader + 0)) in
       let vmem := upd vmem (writer + 1) (buildBuffer (reader + 1)) in
       let vmem := upd vmem (writer + 0) (buildBuffer (reader + 2)) in
       (vmem, writer + 3, reader + 3)) (vmem, p, p)).1.1) vmem.

Definition RGBO_copyRegion (vmem buildBuffer : mem) (xfrom xto yfrom yto : Z) : mem :=
  for_range yfrom yto (fun y vmem =>
    let writer := 4 * (xfrom + y * ScreenWidth) in
    let reader := 3 * (xfrom + y * ScreenWidth) in
    for_range 0 (xto - xfrom) (fun x vmem => upd vmem (writer + x) (buildBuffer (reader + x))) vmem) vmem.

Definition cls (d : VBEMemHelp) : mem -> Z -> mem :=
  match d with HelpRGBO => RGBO_cls | HelpBGR => BGR_cls end.
Definition copyRegion (d : VBEMemHelp) : mem -> mem -> Z -> Z -> Z -> Z -> mem :=
  match d with HelpRGBO => RGBO_copyRegion | HelpBGR => BGR_copyRegion end.

(** ** The iterator *)

Definition MaxDepth : Z := 20.

Definition TreeIterator (root : option Z) : Stack.t Z :=
  match root with
  | Some r => Stack.push MaxDepth (Stack.init MaxDepth 0) r
  | None => Stack.init MaxDepth 0
  end.

Definition iterate (itr : Stack.t Z) : option (Z * Stack.t Z) :=
  if Stack.empty itr then None else Some (Stack.pop 0 itr).

Definition descend (itr : Stack.t Z) (c : Container.t) : option (Stack.t Z) :=
  for_opt (size c) 0 (fun k itr =>
    d ← child c (Z.of_nat (size c) - 1 - k); Some (Stack.push MaxDepth itr d)) itr.

(** [while (auto resMaybe = itr.iterate()) body]: the body says whether it calls
    [itr.descend], and of which object. *)
Fixpoint while_iterate {A} (fuel : nat) (body : Z -> A -> option (option Container.t * A))
    (itr : Stack.t Z) (a : A) : option A :=
  match fuel with
  | O => None
  | S fuel =>
      match iterate itr with
      | None => Some a
      | Some (c, itr) =>
          r ← body c a;
          match r with
          | (Some o, a) => itr ← descend itr o; while_iterate fuel body itr a
          | (None, a) => while_iterate fuel body itr a
          end
      end
  end.

(** ** The element at a position *)

Definition hit_body (s : t) (x y : Z) (c : Z) (candidate : option Z) : option (option Container.t * option Z) :=
  if bool_decide (theMouse s = Some c) then Some (None, candidate)
  else
    o ← objs s !! c;
    if negb (visible o) then Some (None, candidate)
    else if isPixelInRange o x y then Some (Some o, Some c)
    else Some (None, candidate).

Definition getElementAtPosition (fuel : nat) (s : t) (x y : Z) : option (option Z) :=
  while_iterate fuel (hit_body s x y) (TreeIterator (rootContainer s)) None.

(** ** Drawing *)

Section drawing.
Context (F : Blend.format).

(** The address of a pixel in the build buffer. *)
Definition pix (x y : Z) : Z := 3 * (y * ScreenWidth + x).

Definition draw_pixel (c : Container.t) (x y : Z) (m : mem) : option mem :=
  let r := m (pix x y + 0) in
  let g := m (pix x y + 1) in
  let b := m (pix x y + 2) in
  v ← (if isPixelInRange c x y then
         let relX := s32 (x - absX c) in
         let relY := s32 (y - absY c) in
         alpha ← getAlpha c relX relY;
         cr ← getRed c relX relY; cg ← getGreen c relX relY; cb ← getBlue c relX relY;
         Some (Blend.blend F alpha r cr, Blend.blend F alpha g cg, Blend.blend F alpha b cb)
       else Some (r, g, b));
  let '(r, g, b) := v in
  Some (upd (upd (upd m (pix x y + 0) r) (pix x y + 1) g) (pix x y + 2) b).

Definition draw_element (c : Container.t) (rect diff : Rectangle.t) (m : mem) : option mem :=
  for_opt (Z.to_nat (y2 rect - y1 rect)) (y1 rect) (fun y m =>
    for_opt (Z.to_nat (x2 rect - x1 rect)) (x1 rect) (fun x m =>
      if hasPoint diff x y then Some m else draw_pixel c x y m) m) m.

Definition draw_body (h : gmap Z Container.t) (rect diff : Rectangle.t) (c : Z) (m : mem)
    : option (option Container.t * mem) :=
  o ← h !! c;
  if negb (visible o) then Some (None, m)
  else if negb (overlapsWith (getBoundingRectangle o) rect) then Some (None, m)
  else
    m ← (if isDrawable o then draw_element o rect diff m else Some m);
    Some (Some o, m).

Definition drawSingle (fuel : nat) (s : t) (d : Z) (_rect _diff : Rectangle.t) : option t :=
  let rect := bound _rect in
  m ← while_iterate fuel (draw_body (objs s) rect _diff) (TreeIterator (Some d)) (buildBuffer s);
  Some (set_screen s m
    (if bool_decide (displayMode s = Video)
     then copyRegion (drawHelper s) (videoMemory s) m (x1 rect) (x2 rect) (y1 rect) (y2 rect)
     else videoMemory s) (displayMode s)).

Definition redraw (fuel : nat) (s : t) (_rect : Rectangle.t) : option t :=
  match rootContainer s with
  | Some r => drawSingle fuel s r _rect EmptyRectangle
  | None => Some s
  end.

Definition enterVideoMode (s : t) : t :=
  match displayMode s with
  | Video => s
  | Text =>
      let v := cls (drawHelper s) (videoMemory s) 0 in
      set_screen s (buildBuffer s)
        (copyRegion (drawHelper s) v (buildBuffer s) 0 ScreenWidth 0 ScreenHeight) Video
  end.
Definition enterTextMode (s : t) : t := set_screen s (buildBuffer s) (videoMemory s) Text.

(** ** The methods of the elements that draw *)

Definition show (fuel : nat) (s : t) (p : Z) : option t :=
  c ← objs s !! p;
  redraw fuel (set_objs s (<[p := set_visible c true]> (objs s))) (getBoundingRectangle c).
Definition hide (fuel : nat) (s : t) (p : Z) : option t :=
  c ← objs s !! p;
  redraw fuel (set_objs s (<[p := set_visible c false]> (objs s))) (getBoundingRectangle c).

(** [Container::addChild] *)
Definition addChild_container (fuel : nat) (s : t) (p d : Z) : option t :=
  c ← objs s !! p;
  q ← Deque.push_back (children c) d;
  h ← setParent (<[p := set_children c q]> (objs s)) d p;
  o ← h !! d;
  drawSingle fuel (set_objs s h) d (getBoundingRectangle o) EmptyRectangle.

(** [Desktop::addChild] *)
Definition addChild_desktop (s : t) (p d : Z) : option t :=
  c ← objs s !! p;
  q ← (if 0 <? Deque.size (children c)
       then Deque.insert (children c) d (Deque.size (children c) - 1)
       else Deque.push_back (children c) d);
  h ← setParent (<[p := set_children c q]> (objs s)) d p;
  Some (set_objs s h).

Definition addChild (fuel : nat) (s : t) (p d : Z) : option t :=
  c ← objs s !! p;
  match class c with
  | Desktop => addChild_desktop s p d
  | Window _ body => addChild_container fuel s body d
  | _ => addChild_container fuel s p d
  end.

(** [Container::updateLocation] *)
Definition updateLocation_container (fuel : nat) (s : t) (p newX newY : Z) : option t :=
  c ← objs s !! p;
  let oldRectangle := getBoundingRectangle c in
  h ← relocate fuel (objs s) p newX newY;
  s ← redraw fuel (set_objs s h) oldRectangle;
  c ← objs s !! p;
  drawSingle fuel s p (getBoundingRectangle c) oldRectangle.

(** The virtual method: a title bar moves its parent. *)
Fixpoint updateLocation (hops fuel : nat) (s : t) (p newX newY : Z) : option t :=
  c ← objs s !! p;
  match class c, hops with
  | TitleBar, S hops => w ← parent c; updateLocation hops fuel s w newX newY
  | TitleBar, O => None
  | _, _ => updateLocation_container fuel s p newX newY
  end.

(** ** The pointer (ui/mouse.cpp) *)

Definition MouseWidth : Z := 30.
Definition MouseHeight : Z := 44.
Definition ClickPointOffsetX : Z := 6.
Definition ClickPointOffsetY : Z := 8.

Definition moveMouse (fuel : nat) (s : t) (dx dy : Z) : option t :=
  m ← theMouse s;
  c ← objs s !! m;
  let newX := s32 (absX c + dx) in
  let newY := s32 (absY c - dy) in
  let newX := if newX <? - ClickPointOffsetX then - ClickPointOffsetX else newX in
  let newX := if ScreenWidth - ClickPointOffsetX <? newX then ScreenWidth - ClickPointOffsetX else newX in
  let newY := if newY <? - ClickPointOffsetY then - ClickPointOffsetY else newY in
  let newY := if ScreenHeight - ClickPointOffsetY <? newY then ScreenHeight - ClickPointOffsetY else newY in
  updateLocation 1 fuel s m newX newY.

Definition leftClick (fuel : nat) (s : t) : option t :=
  m ← theMouse s;
  c ← objs s !! m;
  match isDragging s with
  | Some _ => Some s
  | None =>
      elem ← getElementAtPosition fuel s (absX c) (absY c);
      match elem with
      | None => Some (set_drag s (Some None) (dragOffsetX s) (dragOffsetY s))
      | Some e =>
          o ← objs s !! e;
          Some (set_drag s (Some (Some e)) (s32 (absX c - absX o)) (s32 (absY c - absY o)))
      end
  end.

Definition leftRelease (s : t) : t := set_drag s None (dragOffsetX s) (dragOffsetY s).

Definition drag (fuel : nat) (s : t) : option t :=
  m ← theMouse s;
  c ← objs s !! m;
  e ← (match isDragging s with
       | Some e => Some e
       | None => getElementAtPosition fuel s (absX c) (absY c)
       end);
  let s := set_drag s (Some e) (dragOffsetX s) (dragOffsetY s) in
  match e with
  | None => Some s
  | Some p =>
      o ← objs s !! p;
      if isMovable o
      then updateLocation 1 fuel s p (s32 (absX c - dragOffsetX s)) (s32 (absY c - dragOffsetY s))
      else Some s
  end.
End drawing.

(** ** Windows (ui/window.cpp, ui/title_bar.h) *)

Definition DecoratorHeight : Z := 31.

(** The body is white and opaque: [memset(pixelBuffer, 0xff, size)]. *)
Definition white (width height : Z) (a : Z) : option Z :=
  if (0 <=? a) && (a <? u32 (width * height * 4)) then Some 0xff else None.

(** [Window::Window]; [barPixels] is what the title bar reads from its file, the three
    addresses come from [new]. *)
Definition newWindow (F : Blend.format) (fuel : nat) (s : t) (wind bar body : Z) (barPixels : Z -> option Z)
    (width height x y : Z) : option t :=
  let bodyWidth := s32 (width - 4) in
  let bodyHeight := s32 (height - DecoratorHeight - 4) in
  let h := <[body := Container.make WindowBody (white bodyWidth bodyHeight)
                       bodyWidth bodyHeight 2 (DecoratorHeight - 4)]>
          (<[bar := Container.make TitleBar barPixels width DecoratorHeight 0 0]>
          (<[wind := Container.make (Window bar body) (fun _ => None) width height x y]> (objs s))) in
  s ← addChild_container F fuel (set_objs s h) wind body;
  s ← addChild_container F fuel s wind bar;
  s ← show F fuel s body;
  show F fuel s bar.

(** [ui::createWindow] without the record of the window in the process. *)
Definition createWindow (F : Blend.format) (fuel : nat) (s : t) (wind bar body : Z) (barPixels : Z -> option Z)
    (width height : Z) : option t :=
  s ← newWindow F fuel s wind bar body barPixels width height 150 150;
  r ← rootContainer s;
  addChild F fuel s r wind.

(** ** The calls of the programs *)

Definition showElement (F : Blend.format) (fuel : nat) (s : t) (elem : Z) : option (t * Z) :=
  s ← show F fuel s elem; Some (s, 0).
Definition hideElement (F : Blend.format) (fuel : nat) (s : t) (elem : Z) : option (t * Z) :=
  s ← hide F fuel s elem; Some (s, 0).

(** [Button::Button], [Image::Image]: the size is not passed on; the pixel buffer is not
    set, [None] stands for it. *)
Definition Button (width height x y : Z) : Container.t := Container.make Drawable (fun _ => None) 0 0 x y.
Definition Image (width height x y : Z) : Container.t := Container.make Drawable (fun _ => None) 0 0 x y.

(** [wind] is the main window of the process, [btn] and [img] come from [new]. *)
Definition createButton (F : Blend.format) (fuel : nat) (s : t) (wind btn width height pos_x pos_y : Z) : option t :=
  addChild F fuel (set_objs s (<[btn := Button width height pos_x pos_y]> (objs s))) wind btn.
Definition createImage (F : Blend.format) (fuel : nat) (s : t) (wind img width height pos_x pos_y : Z) : option t :=
  addChild F fuel (set_objs s (<[img := Image width height pos_x pos_y]> (objs s))) wind img.

(** ** Pixels of a memory *)

Record rgb := RGB { red : Z; green : Z; blue : Z }.

Definition pixel (m : mem) (x y : Z) : rgb := RGB (m (pix x y + 0)) (m (pix x y + 1)) (m (pix x y + 2)).

(** The bytes of the screen in the build buffer. *)
Definition ScreenBytes : Z := 3 * (ScreenWidth * ScreenHeight).

Definition byte_rgb (v : rgb) : Prop := 0 <= red v < 256 /\ 0 <= green v < 256 /\ 0 <= blue v < 256.

Lemma pix_range x y k : on_screen x y -> 0 <= k < 3 -> 0 <= pix x y + k < ScreenBytes.
Proof. unfold on_screen, pix, ScreenBytes, ScreenWidth, ScreenHeight. lia. Qed.

Lemma pix_inj x y x' y' k k' : on_screen x y -> on_screen x' y' -> 0 <= k < 3 -> 0 <= k' < 3 ->
  pix x y + k = pix x' y' + k' -> x = x' /\ y = y' /\ k = k'.
Proof. unfold on_screen, pix, ScreenWidth, ScreenHeight. intros. assert (k = k') by lia. assert (y = y') by lia. lia. Qed.

(** What an operation does to the pixels of a rectangle of the screen: [g] to each of
    them, and nothing else. *)
Definition maps_pixels (r : Rectangle.t) (g : Z -> Z -> rgb -> rgb) (m m' : mem) : Prop :=
  (forall x y, on_screen x y ->
    pixel m' x y = if decide (inside r x y) then g x y (pixel m x y) else pixel m x y) /\
  (forall a, ~ (0 <= a < ScreenBytes) -> m' a = m a).

Lemma maps_ext r g g' m m' : maps_pixels r g m m' ->
  (forall x y v, on_screen x y -> inside r x y -> g x y v = g' x y v) -> maps_pixels r g' m m'.
Proof.
  intros [A B] E. split; [|done]. intros x y Hs. rewrite (A x y Hs). case_decide; [by apply E|done].
Qed.

Lemma maps_id r m : maps_pixels r (fun _ _ v => v) m m.
Proof. split; [|done]. intros x y _. by case_decide. Qed.

Lemma maps_comp r g g' m m' m2 : maps_pixels r g m m' -> maps_pixels r g' m' m2 ->
  maps_pixels r (fun x y v => g' x y (g x y v)) m m2.
Proof.
  intros [A B] [A' B']. split.
  - intros x y Hs. rewrite (A' x y Hs), (A x y Hs). by case_decide.
  - intros a Ha. by rewrite B', B.
Qed.

(** A loop over the pixels of a rectangle. *)
Lemma for_pixels r (g : Z -> Z -> rgb -> rgb) (f : Z -> Z -> mem -> option mem) m :
  (forall x y, inside r x y -> on_screen x y) ->
  (forall x y m, inside r x y -> exists m', f x y m = Some m' /\
     pixel m' x y = g x y (pixel m x y) /\ (forall a, ~ (pix x y <= a < pix x y + 3) -> m' a = m a)) ->
  exists m', for_opt (Z.to_nat (y2 r - y1 r)) (y1 r) (fun y m =>
      for_opt (Z.to_nat (x2 r - x1 r)) (x1 r) (fun x m => f x y m) m) m = Some m' /\ maps_pixels r g m m'.
Proof.
  intros Hr Hf.
  destruct (decide (x1 r < x2 r)) as [Hx|Hx]; [|].
  2:{ exists m. split.
      - replace (Z.to_nat (x2 r - x1 r)) with O by lia. cbn [for_opt].
        destruct (for_opt_ind (fun _ m' => m' = m) (Z.to_nat (y2 r - y1 r)) (y1 r) (fun _ m => Some m) m)
          as (m' & -> & ->); [done| |done]. intros j s' _ ->. eauto.
      - split; [|done]. intros x y _. rewrite decide_False; [done|]. unfold inside. lia. }
  pose (row y := Rectangle.mk (x1 r) y (x2 r) (y + 1)).
  assert (Hrow : forall y m0, y1 r <= y < y2 r -> exists m',
    for_opt (Z.to_nat (x2 r - x1 r)) (x1 r) (fun x m => f x y m) m0 = Some m' /\ maps_pixels (row y) g m0 m').
  { intros y m0 Hy. destruct (for_opt_ind (fun j m' => maps_pixels (Rectangle.mk (x1 r) y j (y + 1)) g m0 m')
      (Z.to_nat (x2 r - x1 r)) (x1 r) (fun x m => f x y m) m0) as (m' & E & P).
    - split; [|done]. intros x b _. rewrite decide_False; [done|]. unfold inside; cbn. lia.
    - intros j m1 Hj [P1 P2]. assert (Hin : inside r j y) by (split; lia).
      destruct (Hf j y m1 Hin) as (m2 & E & Ep & Ef). exists m2. split; [done|]. split.
      + intros a b Hs. destruct (decide (a = j /\ b = y)) as [[-> ->]|Hne].
        * rewrite decide_True by (split; cbn; lia). rewrite Ep, (P1 j y Hs).
          rewrite decide_False; [done|]. unfold inside; cbn. lia.
        * assert (Ek : forall k, 0 <= k < 3 -> m2 (pix a b + k) = m1 (pix a b + k)).
          { intros k Hk. apply Ef. intros Hc. apply Hne.
            destruct (pix_inj a b j y k (pix a b + k - pix j y) Hs (Hr _ _ Hin) Hk) as (-> & -> & _); lia. }
          assert (pixel m2 a b = pixel m1 a b) as -> by (unfold pixel; by rewrite !Ek by lia).
          rewrite (P1 a b Hs). unfold inside; cbn. repeat case_decide; try done; exfalso; lia.
      + intros a Ha. rewrite Ef; [by apply P2|]. intros Hc. apply Ha.
        pose proof (pix_range j y (a - pix j y) (Hr _ _ Hin)). replace a with (pix j y + (a - pix j y)) by lia. lia.
    - exists m'. split; [done|]. by replace (x1 r + Z.of_nat (Z.to_nat (x2 r - x1 r))) with (x2 r) in P by lia. }
  destruct (decide (y1 r < y2 r)) as [Hy|Hy].
  2:{ exists m. replace (Z.to_nat (y2 r - y1 r)) with O by lia. split; [done|].
      split; [|done]. intros x y _. rewrite decide_False; [done|]. unfold inside. lia. }
  destruct (for_opt_ind (fun j m' => maps_pixels (Rectangle.mk (x1 r) (y1 r) (x2 r) j) g m m')
    (Z.to_nat (y2 r - y1 r)) (y1 r) (fun y m => for_opt (Z.to_nat (x2 r - x1 r)) (x1 r) (fun x m => f x y m) m) m)
    as (m' & E & P).
  - split; [|done]. intros a b _. rewrite decide_False; [done|]. unfold inside; cbn. lia.
  - intros j m1 Hj [P1 P2]. destruct (Hrow j m1 ltac:(lia)) as (m2 & E & R1 & R2). exists m2. split; [done|]. split.
    + intros a b Hs. rewrite (R1 a b Hs), (P1 a b Hs). unfold inside, row; cbn. repeat case_decide; try done; exfalso; lia.
    + intros a Ha. by rewrite R2, P2.
  - exists m'. split; [done|]. replace (y1 r + Z.of_nat (Z.to_nat (y2 r - y1 r))) with (y2 r) in P by lia.
    by destruct r.
Qed.

(** ** One element *)

Definition covers (c : Container.t) (x y : Z) : Prop := inside (getBoundingRectangle c) x y.
#[export] Instance covers_dec c x y : Decision (covers c x y).
Proof. unfold covers. apply _. Defined.

Lemma isPixelInRange_spec c x y : isPixelInRange c x y = bool_decide (covers c x y).
Proof.
  unfold isPixelInRange, covers, inside, getBoundingRectangle; cbn. case_cmp;
    (rewrite bool_decide_true by lia) || (rewrite bool_decide_false by lia); done.
Qed.

(** The pixel of an element at a point of the screen: red, green, blue, alpha. *)
Definition texel (c : Container.t) (x y : Z) : option (rgb * Z) :=
  let relX := s32 (x - absX c) in
  let relY := s32 (y - absY c) in
  alpha ← getAlpha c relX relY;
  cr ← getRed c relX relY; cg ← getGreen c relX relY; cb ← getBlue c relX relY;
  Some (RGB cr cg cb, alpha).

(** Every pixel of the element that is on the screen has its four bytes. *)
Definition painted (c : Container.t) : Prop :=
  isDrawable c = true -> forall x y, on_screen x y -> covers c x y -> exists v a, texel c x y = Some (v, a) /\ byte_rgb v.

(** Drawn with alpha 255 wherever it is on the screen. *)
Definition opaque_at (c : Container.t) (x y : Z) : Prop :=
  isDrawable c = true /\ covers c x y /\ exists v, texel c x y = Some (v, 255).

Section scene.
Context (F : Blend.format).

Definition blend_rgb (alpha : Z) (under over : rgb) : rgb :=
  RGB (Blend.blend F alpha (red under) (red over)) (Blend.blend F alpha (green under) (green over))
      (Blend.blend F alpha (blue under) (blue over)).

(** The element over a colour. *)
Definition shade (c : Container.t) (x y : Z) (v : rgb) : rgb :=
  if isDrawable c && bool_decide (covers c x y) then
    match texel c x y with Some (w, alpha) => blend_rgb alpha v w | None => v end
  else v.

Lemma shade_byte c x y v : byte_rgb v -> byte_rgb (shade c x y v).
Proof.
  intros Hv. unfold shade. destruct (_ && _); [|done]. destruct (texel c x y) as [[w al]|]; [|done].
  unfold byte_rgb, blend_rgb; cbn. auto using Blend.blend_range.
Qed.

Lemma shade_opaque c x y v w : isDrawable c = true -> covers c x y -> texel c x y = Some (w, 255) ->
  byte_rgb v -> byte_rgb w -> shade c x y v = w.
Proof.
  intros Hd Hc Ht (V1 & V2 & V3) (W1 & W2 & W3). unfold shade. rewrite Hd, (bool_decide_true _ Hc), Ht. cbn [andb].
  unfold blend_rgb. rewrite !Blend.blend_opaque by done. by destruct w.
Qed.

Lemma shade_uncovered c x y v : ~ covers c x y -> shade c x y v = v.
Proof. intros Hc. unfold shade. by rewrite (bool_decide_false _ Hc), andb_false_r. Qed.

Lemma shade_plain c x y v : isDrawable c = false -> shade c x y v = v.
Proof. intros Hd. unfold shade. by rewrite Hd. Qed.

Lemma upd3 m a r g b : let m' := upd (upd (upd m (a + 0) r) (a + 1) g) (a + 2) b in
  m' (a + 0) = r /\ m' (a + 1) = g /\ m' (a + 2) = b /\ (forall z, ~ (a <= z < a + 3) -> m' z = m z).
Proof.
  cbv zeta. unfold upd. repeat split; intros; case_cmp; try lia; done.
Qed.

Lemma draw_pixel_spec c x y m : isDrawable c = true -> painted c -> on_screen x y ->
  exists m', draw_pixel F c x y m = Some m' /\ pixel m' x y = shade c x y (pixel m x y) /\
    (forall a, ~ (pix x y <= a < pix x y + 3) -> m' a = m a).
Proof.
  intros Hd Hp Hs. unfold draw_pixel. rewrite isPixelInRange_spec. unfold shade, pixel. rewrite Hd. cbn [andb].
  case_bool_decide as Hc.
  - destruct (Hp Hd x y Hs Hc) as ([tr tg tb] & al & Ht & _). rewrite Ht. unfold texel in Ht.
    destruct (getAlpha c _ _) as [al'|]; [|done]. cbn [mbind option_bind] in *.
    destruct (getRed c _ _) as [r'|]; [|done]. cbn [mbind option_bind] in *.
    destruct (getGreen c _ _) as [g'|]; [|done]. cbn [mbind option_bind] in *.
    destruct (getBlue c _ _) as [b'|]; [|done]. cbn [mbind option_bind] in *.
    injection Ht as -> -> -> ->. eexists. split; [done|].
    match goal with |- context [upd (upd (upd m _ ?r) _ ?g) _ ?b] =>
      destruct (upd3 m (pix x y) r g b) as (-> & -> & -> & HF) end.
    split; [done|exact HF].
  - cbn [mbind option_bind]. eexists. split; [done|].
    match goal with |- context [upd (upd (upd m _ ?r) _ ?g) _ ?b] =>
      destruct (upd3 m (pix x y) r g b) as (-> & -> & -> & HF) end.
    split; [done|exact HF].
Qed.

(** Painting with the pixels of [diff] left out. *)
Definition except (diff : Rectangle.t) (g : Z -> Z -> rgb -> rgb) (x y : Z) (v : rgb) : rgb :=
  if hasPoint diff x y then v else g x y v.

Lemma draw_element_spec c r diff m : isDrawable c = true -> painted c ->
  exists m', draw_element F c (bound r) diff m = Some m' /\ maps_pixels (bound r) (except diff (shade c)) m m'.
Proof.
  intros Hd Hp. unfold draw_element.
  apply (for_pixels (bound r) (except diff (shade c))
    (fun x y m => if hasPoint diff x y then Some m else draw_pixel F c x y m)).
  - intros x y H. by apply bound_inside in H as [_ H].
  - intros x y m0 H. apply bound_inside in H as [_ H]. unfold except. destruct (hasPoint diff x y); [by exists m0|].
    by apply draw_pixel_spec.
Qed.

(** ** The scene: the visible elements, in the order of drawing *)

Fixpoint layers (h : gmap Z Container.t) (t : tree) : list Z :=
  match t with
  | Node p ts =>
      match h !! p with
      | Some c => if visible c then p :: flat_map (layers h) ts else []
      | None => []
      end
  end.

Definition paint (h : gmap Z Container.t) (x y : Z) (v : rgb) (p : Z) : rgb :=
  match h !! p with Some c => shade c x y v | None => v end.

(** The colour of a point when the elements [ps] are painted over [v]. *)
Definition over (h : gmap Z Container.t) (ps : list Z) (x y : Z) (v : rgb) : rgb := foldl (paint h x y) v ps.

Definition scene (h : gmap Z Container.t) (t : tree) (x y : Z) (v : rgb) : rgb := over h (layers h t) x y v.

Lemma over_app h ps qs x y v : over h (ps ++ qs) x y v = over h qs x y (over h ps x y v).
Proof. unfold over. by rewrite foldl_app. Qed.
Lemma over_byte h ps x y v : byte_rgb v -> byte_rgb (over h ps x y v).
Proof.
  revert v. induction ps as [|p ps IH]; intros v Hv; [done|]. apply IH. unfold paint.
  destruct (h !! p); [by apply shade_byte|done].
Qed.

(** Points that an element covers, through the store. *)
Definition covers_at (h : gmap Z Container.t) (p x y : Z) : Prop := exists c, h !! p = Some c /\ covers c x y.

Lemma over_uncovered h ps x y v : (forall p, p ∈ ps -> ~ covers_at h p x y) -> over h ps x y v = v.
Proof.
  revert v. induction ps as [|p ps IH]; intros v Hc; [done|]. unfold over. cbn [foldl]. fold (over h ps x y).
  unfold paint at 2. destruct (h !! p) as [c|] eqn:E.
  - rewrite shade_uncovered; [|intros Hcv; apply (Hc p); [left|by exists c]]. apply IH. intros q Hq. apply Hc. by right.
  - apply IH. intros q Hq. apply Hc. by right.
Qed.

Lemma layers_ptrs h t : layers h t ⊆ ptrs t.
Proof.
  induction t as [p ts IH] using tree_ind. cbn [layers]. destruct (h !! p) as [c|]; [|set_solver].
  destruct (visible c); [|set_solver]. cbn [ptrs]. apply list_subseteq_skip.
  intros q Hq. rewrite list_elem_of_In, in_flat_map in Hq. destruct Hq as (u & Hu & Hq).
  apply list_elem_of_In in Hu, Hq. apply elem_of_forest. exists u. split; [done|].
  rewrite list.Forall_forall in IH. by apply (IH u).
Qed.

(** Every child lies, as far as it is on the screen, within its parent. *)
Inductive nested (h : gmap Z Container.t) : tree -> Prop :=
  | nested_node p ts : Forall (nested h) ts ->
      (forall u x y, u ∈ ts -> on_screen x y -> covers_at h (top u) x y -> covers_at h p x y) ->
      nested h (Node p ts).

Lemma nested_covers h t : nested h t -> forall q x y, q ∈ ptrs t -> on_screen x y ->
  covers_at h q x y -> covers_at h (top t) x y.
Proof.
  induction t as [p ts IH] using tree_ind. intros Hn q x y Hq Hs Hc. inversion Hn as [? ? Hts Hp]; subst.
  cbn [ptrs top] in *. rewrite elem_of_cons in Hq. destruct Hq as [->|Hq]; [done|].
  apply elem_of_forest in Hq as (u & Hu & Hq). rewrite list.Forall_forall in IH, Hts.
  apply (Hp u); [done..|]. by apply (IH u Hu (Hts u Hu) q).
Qed.

End scene.

(** ** The walk of the iterator *)

Section walk.
Context {A : Type} (h : gmap Z Container.t) (body : Z -> A -> option (option Container.t * A)).

(** What the loop does to a tree, by recursion on it. *)
Fixpoint walk (t : tree) (a : A) : option A :=
  match t with
  | Node p ts =>
      r ← body p a;
      match r with
      | (Some _, a) => (fix walks ts a := match ts with [] => Some a | t :: ts => a ← walk t a; walks ts a end) ts a
      | (None, a) => Some a
      end
  end.
Fixpoint walks (ts : list tree) (a : A) : option A :=
  match ts with [] => Some a | t :: ts => a ← walk t a; walks ts a end.

Lemma walk_node p ts a : walk (Node p ts) a =
  (r ← body p a; match r with (Some _, a) => walks ts a | (None, a) => Some a end).
Proof. reflexivity. Qed.

(** The slots of the stack a tree needs. *)
Fixpoint need (t : tree) : nat :=
  match t with
  | Node _ ts => Nat.max 1 ((fix needs ts :=
      match ts with [] => O | t :: ts => Nat.max (need t + length ts) (needs ts) end) ts)
  end.
Fixpoint needs (ts : list tree) : nat :=
  match ts with [] => O | t :: ts => Nat.max (need t + length ts) (needs ts) end.
Lemma need_node p ts : need (Node p ts) = Nat.max 1 (needs ts).
Proof. reflexivity. Qed.
Lemma need_pos t : (1 <= need t)%nat.
Proof. destruct t. rewrite need_node. lia. Qed.
Lemma needs_length ts : (length ts <= needs ts)%nat.
Proof. destruct ts as [|t ts]; cbn; [lia|]. pose proof (need_pos t). lia. Qed.

Definition nodes (t : tree) : nat := length (ptrs t).
Lemma nodes_node p ts : nodes (Node p ts) = S (length (flat_map ptrs ts)).
Proof. done. Qed.

(** The iterator holds the addresses [ps], the last one on top. *)
Definition holds (itr : Stack.t Z) (ps : list Z) : Prop := Stack.wf MaxDepth itr /\ Stack.contents itr = ps.

Lemma holds_push itr ps p : holds itr ps -> (length ps < 20)%nat -> holds (Stack.push MaxDepth itr p) (ps ++ [p]).
Proof.
  intros [W C] Hl. split; [by apply Stack.stack_wf_push|]. rewrite Stack.contents_push by done.
  pose proof (Stack.length_contents _ _ W) as L. rewrite C in L. rewrite decide_True by (unfold MaxDepth; lia). by rewrite C.
Qed.

Lemma holds_iterate itr ps p : holds itr (ps ++ [p]) -> exists itr', iterate itr = Some (p, itr') /\ holds itr' ps.
Proof.
  intros [W C]. unfold iterate. rewrite (Stack.empty_spec _ _ W), C, bool_decide_false by by destruct ps.
  destruct (Stack.pop_contents MaxDepth 0 itr ps p W C) as (E1 & E2 & E3).
  exists (Stack.pop 0 itr).2. rewrite <- E1. split; [by destruct (Stack.pop 0 itr)|]. by split.
Qed.

Lemma holds_empty itr : holds itr [] -> iterate itr = None.
Proof. intros [W C]. unfold iterate. by rewrite (Stack.empty_spec _ _ W), C, bool_decide_true. Qed.

Lemma holds_new p : holds (TreeIterator (Some p)) [p].
Proof. apply (holds_push _ []); [|cbn; lia]. split; [apply Stack.stack_wf_init; unfold MaxDepth; lia|done]. Qed.

Lemma descend_spec itr ps c ts : holds itr ps -> Deque.rep (children c) (top <$> ts) ->
  (length ps + length ts <= 20)%nat ->
  exists itr', descend itr c = Some itr' /\ holds itr' (ps ++ reverse (top <$> ts)).
Proof.
  intros H R Hl. unfold descend. rewrite (size_spec _ _ R).
  destruct (for_opt_ind (fun k itr' => holds itr' (ps ++ take (Z.to_nat k) (reverse (top <$> ts)))) (length ts) 0
    (fun k itr => d ← child c (Z.of_nat (length ts) - 1 - k); Some (Stack.push MaxDepth itr d)) itr) as (itr' & E & P).
  - by rewrite take_0, app_nil_r.
  - intros k i1 Hk P. destruct (lookup_lt_is_Some_2 ts (length ts - 1 - Z.to_nat k)) as [u Hu]; [lia|].
    pose proof (child_spec _ _ _ _ R Hu) as Hc.
    replace (Z.of_nat (length ts - 1 - Z.to_nat k)) with (Z.of_nat (length ts) - 1 - k) in Hc by lia.
    rewrite Hc. cbn [mbind option_bind]. eexists. split; [done|].
    replace (Z.to_nat (k + 1)) with (S (Z.to_nat k)) by lia.
    rewrite (take_S_r _ _ (top u)); [rewrite app_assoc; apply holds_push; [done|]|].
    + rewrite length_app, length_take, length_reverse, length_fmap. lia.
    + rewrite reverse_lookup_Some, list_lookup_fmap, length_fmap. split; [|lia].
      replace (length ts - S (Z.to_nat k))%nat with (length ts - 1 - Z.to_nat k)%nat by lia. by rewrite Hu.
  - exists itr'. split; [done|]. rewrite Z.add_0_l, Nat2Z.id in P.
    by rewrite take_ge in P by (rewrite length_reverse, length_fmap; lia).
Qed.

(** The body asks for the children of the object it is at. *)
Hypothesis body_self : forall p a o a', body p a = Some (Some o, a') -> h !! p = Some o.

(** [run itr ps a]: after some number of rounds, at most [n], the loop is at [itr']. *)
Definition reaches (n : nat) (itr : Stack.t Z) (a : A) (itr' : Stack.t Z) (a' : A) : Prop :=
  exists k, (k <= n)%nat /\ forall fuel, while_iterate (k + fuel) body itr a = while_iterate fuel body itr' a'.

Lemma reaches_forest ts :
  Forall (fun t => reps h t -> forall itr rest a a', holds itr (rest ++ [top t]) -> (length rest + need t <= 20)%nat ->
    walk t a = Some a' -> exists itr', reaches (nodes t) itr a itr' a' /\ holds itr' rest) ts ->
  Forall (reps h) ts ->
  forall itr rest a a', holds itr (rest ++ reverse (top <$> ts)) -> (length rest + needs ts <= 20)%nat ->
    walks ts a = Some a' -> exists itr', reaches (length (flat_map ptrs ts)) itr a itr' a' /\ holds itr' rest.
Proof.
  induction ts as [|t ts IH]; intros Hts Hr itr rest a a' H Hn Hw.
  - cbn in *. rewrite app_nil_r in H. injection Hw as <-. exists itr. split; [|done]. by exists O.
  - rewrite list.Forall_cons in Hts, Hr. destruct Hts as [Ht Hts], Hr as [Rt Rts].
    cbn [walks] in Hw. destruct (walk t a) as [a1|] eqn:E; [|done]. cbn [mbind option_bind] in Hw.
    cbn [needs] in Hn. rewrite fmap_cons, reverse_cons, app_assoc in H.
    destruct (Ht Rt itr _ a a1 H) as (i1 & (k1 & K1 & E1) & H1); [|done|].
    { rewrite length_app, length_reverse, length_fmap. lia. }
    destruct (IH Hts Rts i1 rest a1 a' H1 ltac:(lia) Hw) as (i2 & (k2 & K2 & E2) & H2).
    exists i2. split; [|done]. exists (k1 + k2)%nat. split.
    + cbn [flat_map]. rewrite length_app. unfold nodes in K1. lia.
    + intros fuel. by rewrite <- Nat.add_assoc, E1, E2.
Qed.

Lemma reaches_tree t : reps h t -> forall itr rest a a', holds itr (rest ++ [top t]) ->
  (length rest + need t <= 20)%nat -> walk t a = Some a' ->
  exists itr', reaches (nodes t) itr a itr' a' /\ holds itr' rest.
Proof.
  induction t as [p ts IH] using tree_ind. intros R itr rest a a' H Hn Hw.
  inversion R as [? ? c Hc Hd Hs]; subst. rewrite walk_node in Hw. rewrite need_node in Hn. cbn [top] in H.
  destruct (holds_iterate _ _ _ H) as (i1 & E1 & H1).
  destruct (body p a) as [[[o|] a1]|] eqn:Eb; cbn [mbind option_bind] in Hw; [| |done].
  - pose proof (body_self _ _ _ _ Eb) as Ho. assert (o = c) as -> by congruence.
    destruct (descend_spec i1 rest c ts H1 Hd) as (i2 & E2 & H2); [pose proof (needs_length ts); lia|].
    destruct (reaches_forest ts IH Hs i2 rest a1 a' H2 ltac:(lia) Hw) as (i3 & (k & K & E3) & H3).
    exists i3. split; [|done]. exists (S k). rewrite nodes_node. split; [lia|].
    intros fuel. cbn [Nat.add while_iterate]. rewrite E1, Eb. cbn [mbind option_bind]. rewrite E2. cbn [mbind option_bind].
    apply E3.
  - injection Hw as <-. exists i1. split; [|done]. exists 1%nat. rewrite nodes_node. split; [lia|].
    intros fuel. cbn [Nat.add while_iterate]. by rewrite E1, Eb.
Qed.

(** A tree that fits the stack is walked in full, with fuel for its elements and one. *)
Lemma iterator_walks t a a' fuel : reps h t -> (need t <= 20)%nat -> (nodes t < fuel)%nat ->
  walk t a = Some a' -> while_iterate fuel body (TreeIterator (Some (top t))) a = Some a'.
Proof.
  intros R Hn Hf Hw. destruct (reaches_tree t R _ [] a a' (holds_new (top t)) Hn Hw) as (i & (k & K & E) & H).
  replace fuel with (k + S (fuel - k - 1))%nat by lia. rewrite E. cbn [while_iterate]. by rewrite holds_empty.
Qed.
End walk.

(** ** Drawing a tree *)

Section draw.
Context (F : Blend.format) (h : gmap Z Container.t) (r diff : Rectangle.t).

Lemma maps_except g g' m m1 m2 : maps_pixels (bound r) (except diff g) m m1 ->
  maps_pixels (bound r) (except diff g') m1 m2 ->
  maps_pixels (bound r) (except diff (fun x y v => g' x y (g x y v))) m m2.
Proof.
  intros H1 H2. eapply maps_ext; [exact (maps_comp _ _ _ _ _ _ H1 H2)|]. intros x y v _ _. unfold except.
  by destruct (hasPoint diff x y).
Qed.

Lemma maps_except_id m : maps_pixels (bound r) (except diff (fun _ _ v => v)) m m.
Proof. eapply maps_ext; [apply maps_id|]. intros. unfold except. by destruct (hasPoint diff x y). Qed.

Lemma draw_walks ts m :
  Forall (fun t => forall m, exists m', walk (draw_body F h (bound r) diff) t m = Some m' /\
    maps_pixels (bound r) (except diff (scene F h t)) m m') ts ->
  exists m', walks (draw_body F h (bound r) diff) ts m = Some m' /\
    maps_pixels (bound r) (except diff (over F h (flat_map (layers h) ts))) m m'.
Proof.
  intros Hts. revert m. induction Hts as [|t ts Ht Hts IH]; intros m; cbn [walks flat_map].
  - exists m. split; [done|apply maps_except_id].
  - destruct (Ht m) as (m1 & -> & M1). cbn [mbind option_bind]. destruct (IH m1) as (m2 & -> & M2).
    exists m2. split; [done|]. eapply maps_ext; [exact (maps_except _ _ _ _ _ M1 M2)|].
    intros x y v _ _. unfold except. destruct (hasPoint diff x y); [done|]. by rewrite over_app.
Qed.

Lemma draw_body_at p c m : h !! p = Some c -> draw_body F h (bound r) diff p m =
  if negb (visible c) then Some (None, m)
  else if negb (overlapsWith (getBoundingRectangle c) (bound r)) then Some (None, m)
  else m ← (if isDrawable c then draw_element F c (bound r) diff m else Some m); Some (Some c, m).
Proof. intros Hc. unfold draw_body. by rewrite Hc. Qed.

Lemma draw_walk t : reps h t -> nested h t -> (forall q c, q ∈ ptrs t -> h !! q = Some c -> painted c) ->
  forall m, exists m', walk (draw_body F h (bound r) diff) t m = Some m' /\
    maps_pixels (bound r) (except diff (scene F h t)) m m'.
Proof.
  induction t as [p ts IH] using tree_ind. intros R Hn Hp m. inversion R as [? ? c Hc Hd Hs]; subst.
  inversion Hn as [? ? Hnts Hcov]; subst. rewrite walk_node, (draw_body_at p c m Hc).
  unfold scene. cbn [layers]. rewrite Hc. destruct (visible c) eqn:Ev; cbn [negb mbind option_bind].
  2:{ exists m. split; [done|apply maps_except_id]. }
  destruct (overlapsWith (getBoundingRectangle c) (bound r)) eqn:Eo; cbn [negb mbind option_bind].
  - assert (Hel : exists m1, (if isDrawable c then draw_element F c (bound r) diff m else Some m) = Some m1 /\
      maps_pixels (bound r) (except diff (shade F c)) m m1).
    { destruct (isDrawable c) eqn:Ed.
      - apply draw_element_spec; [done|]. apply (Hp p c); [left|done].
      - exists m. split; [done|]. eapply maps_ext; [apply maps_except_id|]. intros x y v _ _. unfold except.
        by rewrite shade_plain. }
    destruct Hel as (m1 & -> & M1). cbn [mbind option_bind].
    destruct (draw_walks ts m1) as (m2 & -> & M2).
    { rewrite list.Forall_forall in IH, Hs, Hnts |- *. intros u Hu. apply IH; [done|by apply Hs|by apply Hnts|].
      intros q d Hq. apply Hp. by eapply ptrs_sub. }
    exists m2. split; [done|]. eapply maps_ext; [exact (maps_except _ _ _ _ _ M1 M2)|].
    intros x y v _ _. unfold except, over. destruct (hasPoint diff x y); [done|]. cbn [foldl].
    assert (paint F h x y v p = shade F c x y v) as -> by (unfold paint; by rewrite Hc). done.
  - exists m. split; [done|]. eapply maps_ext; [apply maps_except_id|]. intros x y v Hs' Hin. unfold except.
    destruct (hasPoint diff x y); [done|]. rewrite over_uncovered; [done|]. intros q Hq Hcq.
    assert (Hq' : q ∈ ptrs (Node p ts)).
    { apply (layers_ptrs h). cbn [layers]. by rewrite Hc, Ev. }
    destruct (nested_covers h _ Hn q x y Hq' Hs' Hcq) as (c' & Hc' & Hcc). assert (c' = c) as -> by (cbn in Hc'; congruence).
    rewrite (inside_overlaps _ _ x y Hcc Hin) in Eo. done.
Qed.

Lemma draw_body_self p m o m' : draw_body F h (bound r) diff p m = Some (Some o, m') -> h !! p = Some o.
Proof.
  unfold draw_body. destruct (h !! p) as [c|]; [|done]. cbn [mbind option_bind].
  destruct (negb (visible c)); [done|]. destruct (negb (overlapsWith _ _)); [done|].
  destruct (if isDrawable c then _ else _); cbn; congruence.
Qed.
End draw.

(** ** The copy to the screen *)

Definition swap (v : rgb) : rgb := RGB (blue v) (green v) (red v).

Lemma BGR_row v b y xfrom xto : xfrom <= xto ->
  (for_range xfrom xto (fun _ '(vmem, writer, reader) =>
     let vmem := upd vmem (writer + 2) (b (reader + 0)) in
     let vmem := upd vmem (writer + 1) (b (reader + 1)) in
     let vmem := upd vmem (writer + 0) (b (reader + 2)) in
     (vmem, writer + 3, reader + 3)) (v, 3 * (xfrom + y * ScreenWidth), 3 * (xfrom + y * ScreenWidth))) =
  (for_range xfrom xto (fun x v =>
     upd (upd (upd v (pix x y + 2) (b (pix x y + 0))) (pix x y + 1) (b (pix x y + 1))) (pix x y + 0) (b (pix x y + 2))) v,
   3 * (xto + y * ScreenWidth), 3 * (xto + y * ScreenWidth)).
Proof.
  intros Hle. set (f := fun (_ : Z) _ => _). set (g := fun (x : Z) (v : mem) => _).
  replace xto with (xfrom + (xto - xfrom)) by lia. assert (Hn : 0 <= xto - xfrom) by lia. revert Hn.
  generalize (xto - xfrom). intros n Hn. revert n Hn.
  apply (natlike_ind (fun n => for_range xfrom (xfrom + n) f _ = (for_range xfrom (xfrom + n) g v, _, _))).
  - by rewrite Z.add_0_r, !for_range_nil by lia.
  - intros n Hn IH. replace (xfrom + Z.succ n) with (xfrom + n + 1) by lia. rewrite !for_range_snoc by lia. rewrite IH.
    unfold f at 1. f_equal; [f_equal; [|lia]|lia]. unfold g at 2.
    by replace (pix (xfrom + n) y) with (3 * (xfrom + n + y * ScreenWidth)) by (unfold pix; lia).
Qed.

Lemma BGR_copyRegion_spec v b r :
  maps_pixels (bound r) (fun x y _ => swap (pixel b x y)) v
    (BGR_copyRegion v b (x1 (bound r)) (x2 (bound r)) (y1 (bound r)) (y2 (bound r))).
Proof.
  set (R := bound r). unfold BGR_copyRegion.
  pose (f x y (v : mem) := upd (upd (upd v (pix x y + 2) (b (pix x y + 0))) (pix x y + 1) (b (pix x y + 1)))
    (pix x y + 0) (b (pix x y + 2))).
  destruct (for_pixels R (fun x y _ => swap (pixel b x y)) (fun x y v => Some (f x y v)) v) as (v' & E & M).
  - intros x y H. by apply bound_inside in H as [_ H].
  - intros x y m _. eexists. split; [done|]. unfold f, upd, pixel, swap; cbn [red green blue].
    split; [f_equal; case_cmp; lia || done|]. intros a Ha. case_cmp; lia || done.
  - destruct (decide (y1 R <= y2 R)) as [Hy|Hy].
    2:{ rewrite for_range_nil by lia. replace (Z.to_nat (y2 R - y1 R)) with O in E by lia. cbn in E. by injection E as <-. }
    assert (E2 : for_opt (Z.to_nat (y2 R - y1 R)) (y1 R) (fun y m =>
      for_opt (Z.to_nat (x2 R - x1 R)) (x1 R) (fun x m => Some (f x y m)) m) v =
      Some (for_range (y1 R) (y2 R) (fun y v => for_range (x1 R) (x1 R + Z.of_nat (Z.to_nat (x2 R - x1 R))) (fun x => f x y) v) v)).
    { replace (y2 R) with (y1 R + Z.of_nat (Z.to_nat (y2 R - y1 R))) at 2 by lia. rewrite <- for_opt_for_range.
      apply for_opt_ext. intros y m. apply for_opt_for_range. }
    rewrite E in E2. apply (inj Some) in E2. rewrite E2 in M.
    erewrite for_range_ext; [exact M|]. intros y m Hyy. cbv beta zeta.
    destruct (decide (x1 R <= x2 R)) as [Hx|Hx].
    + rewrite BGR_row by done. cbn [fst]. replace (x1 R + Z.of_nat (Z.to_nat (x2 R - x1 R))) with (x2 R) by lia. reflexivity.
    + by rewrite !for_range_nil by lia.
Qed.

(** ** The state of the screen *)

Section state.
Context (F : Blend.format).

Definition black : rgb := RGB 0 0 0.

(** The elements that the compositor shows: a tree that fits its stack, with children
    inside their parents, the whole screen covered by an opaque root. *)
Record wf (s : t) (T : tree) : Prop := {
  wf_root : rootContainer s = Some (top T);
  wf_reps : reps (objs s) T;
  wf_nodup : NoDup (ptrs T);
  wf_fits : (need T <= 20)%nat;
  wf_nested : nested (objs s) T;
  wf_painted q c : q ∈ ptrs T -> objs s !! q = Some c -> painted c;
  wf_base : exists c, objs s !! top T = Some c /\ visible c = true /\ forall x y, on_screen x y -> opaque_at c x y;
  wf_bytes x y : on_screen x y -> byte_rgb (pixel (buildBuffer s) x y);
  wf_helper : drawHelper s = HelpBGR }.

(** In video mode the screen has what the build buffer has, in its own byte order. *)
Definition mirrors (s : t) : Prop :=
  displayMode s = Video -> forall x y, on_screen x y -> pixel (videoMemory s) x y = swap (pixel (buildBuffer s) x y).

(** Every pixel shows the visible elements in their order. *)
Definition current (s : t) (T : tree) : Prop :=
  (forall x y, on_screen x y -> pixel (buildBuffer s) x y = scene F (objs s) T x y black) /\ mirrors s.

(** [s'] is [s] with other contents of the build buffer and the video memory. *)
Definition screen_only (s s' : t) : Prop :=
  s' = set_screen s (buildBuffer s') (videoMemory s') (displayMode s).

Lemma screen_only_objs s s' : screen_only s s' -> objs s' = objs s.
Proof. by intros ->. Qed.

Lemma scene_root h T c x y v : h !! top T = Some c -> visible c = true ->
  scene F h T x y v = over F h (flat_map (layers h) (subtrees T)) x y (shade F c x y v).
Proof.
  destruct T as [p ts]. cbn [top subtrees]. intros Hc Hv. unfold scene. cbn [layers]. rewrite Hc, Hv.
  unfold over. cbn [foldl]. unfold paint at 2. by rewrite Hc.
Qed.

Lemma opaque_base s T x y v w : wf s T -> on_screen x y -> byte_rgb v -> byte_rgb w ->
  scene F (objs s) T x y v = scene F (objs s) T x y w.
Proof.
  intros W Hs Hv Hw. destruct (wf_base _ _ W) as (c & Hc & Hvis & Ho).
  rewrite !(scene_root _ _ c) by done. destruct (Ho x y Hs) as (Hd & Hcov & tx & Ht).
  destruct (wf_painted _ _ W (top T) c (top_ptr T) Hc Hd x y Hs Hcov) as (tx' & a & Ht' & Hb).
  assert (tx' = tx) as -> by congruence.
  by rewrite (shade_opaque F c x y v tx), (shade_opaque F c x y w tx).
Qed.

Lemma byte_black : byte_rgb black.
Proof. unfold byte_rgb, black; cbn. lia. Qed.

(** Drawing a tree whose elements are in the store. *)
Lemma drawSingle_spec fuel s t r diff :
  reps (objs s) t -> nested (objs s) t -> (forall q c, q ∈ ptrs t -> objs s !! q = Some c -> painted c) ->
  (need t <= 20)%nat -> (nodes t < fuel)%nat -> drawHelper s = HelpBGR -> mirrors s ->
  exists s', drawSingle F fuel s (top t) r diff = Some s' /\ screen_only s s' /\ mirrors s' /\
    maps_pixels (bound r) (except diff (scene F (objs s) t)) (buildBuffer s) (buildBuffer s').
Proof.
  intros R Hn Hp Hfit Hf Hh Hm. unfold drawSingle.
  destruct (draw_walk F (objs s) r diff t R Hn Hp (buildBuffer s)) as (m & E & M).
  rewrite (iterator_walks (objs s) _ (draw_body_self F (objs s) r diff) t _ m fuel R Hfit Hf E). cbn [mbind option_bind].
  eexists. split; [done|]. split; [done|]. split; [|exact M].
  intros Hv x y Hs. cbn [displayMode buildBuffer videoMemory set_screen] in Hv |- *. rewrite Hv, bool_decide_true by done. rewrite Hh. cbn [copyRegion].
  destruct (BGR_copyRegion_spec (videoMemory s) m r) as [C _]. rewrite (C x y Hs).
  case_decide as Hin; [done|]. rewrite (Hm Hv x y Hs). destruct M as [M _]. rewrite (M x y Hs).
  by rewrite decide_False.
Qed.

Lemma redraw_spec fuel s T r : wf s T -> mirrors s -> (nodes T < fuel)%nat ->
  exists s', redraw F fuel s r = Some s' /\ screen_only s s' /\ mirrors s' /\
    (forall x y, on_screen x y -> pixel (buildBuffer s') x y =
       if decide (inside r x y) then scene F (objs s) T x y black else pixel (buildBuffer s) x y).
Proof.
  intros W Hm Hf. unfold redraw. rewrite (wf_root _ _ W).
  destruct (drawSingle_spec fuel s T r EmptyRectangle (wf_reps _ _ W) (wf_nested _ _ W) (wf_painted _ _ W)
    (wf_fits _ _ W) Hf (wf_helper _ _ W) Hm) as (s' & E & S' & M' & P & _).
  exists s'. split; [exact E|]. split; [done|]. split; [done|]. intros x y Hs. rewrite (P x y Hs).
  unfold except. rewrite hasPoint_Empty. repeat case_decide; rewrite ?bound_inside in *; try tauto; [].
  apply (opaque_base s T); [done..|by apply (wf_bytes _ _ W)|apply byte_black].
Qed.

(** ** Showing and hiding *)

Lemma covers_visible h p c b : h !! p = Some c ->
  forall q x y, covers_at (<[p := set_visible c b]> h) q x y <-> covers_at h q x y.
Proof.
  intros Hc q x y. unfold covers_at. destruct (decide (p = q)) as [<-|Hne].
  - rewrite lookup_insert_eq, Hc. split; intros (c' & [= <-] & H'); by eexists.
  - by rewrite lookup_insert_ne.
Qed.

Lemma nested_ext h h' t : (forall q x y, covers_at h' q x y <-> covers_at h q x y) -> nested h t -> nested h' t.
Proof.
  intros E. induction t as [p ts IH] using tree_ind. intros Hn. inversion Hn as [? ? Hts Hc]; subst. constructor.
  - rewrite list.Forall_forall in IH, Hts |- *. intros u Hu. apply IH; [done|by apply Hts].
  - intros u x y Hu Hs. rewrite !E. by apply Hc.
Qed.

Lemma over_forest_ext h h' ts x y :
  Forall (fun t => forall v, over F h' (layers h' t) x y v = over F h (layers h t) x y v) ts ->
  forall v, over F h' (flat_map (layers h') ts) x y v = over F h (flat_map (layers h) ts) x y v.
Proof.
  induction 1 as [|t ts Ht Hts IH]; intros v; cbn [flat_map]; [done|]. by rewrite !over_app, Ht, IH.
Qed.

(** The visibility of an element matters at the points it covers only. *)
Lemma scene_visible h p c b T x y : h !! p = Some c -> nested h T -> on_screen x y -> ~ covers c x y ->
  forall v, scene F (<[p := set_visible c b]> h) T x y v = scene F h T x y v.
Proof.
  intros Hc. set (h' := <[p := set_visible c b]> h). pose proof (covers_visible h p c b Hc) as CV. fold h' in CV.
  intros Hn Hs Hnc. assert (Hp : ~ covers_at h p x y) by (intros (c' & Hc' & ?); congruence).
  revert Hn. induction T as [q ts IH] using tree_ind. intros Hn v. destruct (decide (q = p)) as [->|Hq].
  - unfold scene. rewrite !over_uncovered; [done|..]; intros r Hr%layers_ptrs; rewrite ?CV;
      intros Hcv; exact (Hp (nested_covers h (Node p ts) Hn r x y Hr Hs Hcv)).
  - unfold scene. cbn [layers]. assert (Eq : h' !! q = h !! q) by (by apply lookup_insert_ne). rewrite Eq.
    destruct (h !! q) as [d|] eqn:Ed; [|done]. destruct (visible d); [|done].
    unfold over. cbn [foldl].
    assert (paint F h' x y v q = paint F h x y v q) as -> by (unfold paint; by rewrite Eq, Ed).
    apply (over_forest_ext h h' ts x y). inversion Hn as [? ? Hts _]; subst.
    rewrite list.Forall_forall in IH, Hts |- *. intros u Hu. by apply IH, Hts.
Qed.

Lemma wf_set_visible s T p c b : wf s T -> objs s !! p = Some c -> (p = top T -> b = true) ->
  wf (set_objs s (<[p := set_visible c b]> (objs s))) T.
Proof.
  intros W Hc Hb. destruct W as [W1 W2 W3 W4 W5 W6 W7 W8 W9]. split; try done; cbn [objs set_objs].
  - apply (reps_ext (objs s)); [done|]. intros q d _ Hd. destruct (decide (p = q)) as [<-|Hne].
    + rewrite lookup_insert_eq. exists (set_visible c b). split; [done|]. assert (d = c) as -> by congruence. done.
    + rewrite lookup_insert_ne by done. eauto.
  - eapply nested_ext; [|done]. by apply covers_visible.
  - intros q d Hq. destruct (decide (p = q)) as [<-|Hne].
    + rewrite lookup_insert_eq. intros [= <-]. exact (W6 p c Hq Hc).
    + rewrite lookup_insert_ne by done. by apply W6.
  - destruct W7 as (d & Hd & Hv & Ho). destruct (decide (p = top T)) as [->|Hne].
    + rewrite lookup_insert_eq. exists (set_visible c b). split; [done|]. assert (d = c) as -> by congruence.
      split; [by apply Hb|]. exact Ho.
    + rewrite lookup_insert_ne by done. eauto.
Qed.

Lemma wf_screen s s' T : screen_only s s' -> wf s T ->
  (forall x y, on_screen x y -> byte_rgb (pixel (buildBuffer s') x y)) -> wf s' T.
Proof. intros -> [W1 W2 W3 W4 W5 W6 W7 W8 W9] Hb. by split. Qed.

(** What [show] and [hide] share: the visibility of an element changes, its rectangle is
    drawn again. *)
Lemma set_visible_current fuel s T p c b : wf s T -> current s T -> (nodes T < fuel)%nat ->
  objs s !! p = Some c -> (p = top T -> b = true) ->
  exists s', redraw F fuel (set_objs s (<[p := set_visible c b]> (objs s))) (getBoundingRectangle c) = Some s' /\
    wf s' T /\ current s' T /\ objs s' = <[p := set_visible c b]> (objs s).
Proof.
  intros W [Cu Mi] Hf Hc Hb. set (s1 := set_objs s _). pose proof (wf_set_visible s T p c b W Hc Hb) as W1. fold s1 in W1.
  destruct (redraw_spec fuel s1 T (getBoundingRectangle c) W1 Mi Hf) as (s' & E & S' & M' & P).
  exists s'. split; [exact E|].
  assert (Px : forall x y, on_screen x y -> pixel (buildBuffer s') x y = scene F (objs s1) T x y black).
  { intros x y Hs. rewrite (P x y Hs). case_decide as Hin; [done|].
    change (buildBuffer s1) with (buildBuffer s). rewrite (Cu x y Hs). symmetry.
    apply scene_visible; [done|by apply W|done|done]. }
  split; [|split; [split|]].
  - apply (wf_screen s1); [done..|]. intros x y Hs. rewrite (Px x y Hs). apply over_byte, byte_black.
  - intros x y Hs. rewrite (screen_only_objs _ _ S'). by apply Px.
  - done.
  - by rewrite (screen_only_objs _ _ S').
Qed.
End state.

(** ** Objects that look the same *)

(** Equal in all that drawing reads. *)
Definition looks (c c' : Container.t) : Prop :=
  absX c' = absX c /\ absY c' = absY c /\ width c' = width c /\ height c' = height c /\
  visible c' = visible c /\ class c' = class c /\ pixelBuffer c' = pixelBuffer c.

#[export] Instance looks_equiv : Equivalence looks.
Proof.
  split; unfold looks.
  - intros c. by repeat split.
  - intros c d. intuition.
  - intros c d e. intuition congruence.
Qed.

#[export] Instance bounding_proper : Proper (looks ==> eq) getBoundingRectangle.
Proof. intros c d (E1 & E2 & E3 & E4 & _). unfold getBoundingRectangle. by rewrite E1, E2, E3, E4. Qed.
#[export] Instance drawable_proper : Proper (looks ==> eq) isDrawable.
Proof. intros c d (_ & _ & _ & _ & _ & E & _). unfold isDrawable. by rewrite E. Qed.
#[export] Instance covers_proper : Proper (looks ==> eq ==> eq ==> iff) covers.
Proof. intros c d E x ? <- y ? <-. unfold covers. by rewrite (bounding_proper _ _ E). Qed.
#[export] Instance texel_proper : Proper (looks ==> eq ==> eq ==> eq) texel.
Proof.
  intros c d (E1 & E2 & E3 & _ & _ & _ & E) x ? <- y ? <-. unfold texel, getAlpha, getRed, getGreen, getBlue.
  by rewrite E1, E2, E3, E.
Qed.
#[export] Instance shade_proper F : Proper (looks ==> eq ==> eq ==> eq ==> eq) (shade F).
Proof.
  intros c d E x ? <- y ? <- v ? <-. unfold shade.
  rewrite (drawable_proper _ _ E), (texel_proper _ _ E x x eq_refl y y eq_refl).
  by rewrite (bool_decide_ext _ _ (covers_proper _ _ E x x eq_refl y y eq_refl)).
Qed.

Lemma looks_painted c d : looks c d -> painted c -> painted d.
Proof.
  intros E P Hd x y Hs Hc. rewrite <- E in Hd, Hc. destruct (P Hd x y Hs Hc) as (v & a & Ht & Hb).
  exists v, a. by rewrite <- E.
Qed.

Definition alike (h h' : gmap Z Container.t) : Prop := forall q, option_Forall2 looks (h !! q) (h' !! q).

Lemma alike_covers h h' : alike h h' -> forall q x y, covers_at h' q x y <-> covers_at h q x y.
Proof.
  intros A q x y. specialize (A q). unfold covers_at. inversion A as [c c' E E1 E2|E1 E2]; [|done].
  split; intros (d & [= <-] & Hd); eexists; (split; [done|]); by rewrite E in *.
Qed.
Lemma alike_layers h h' t : alike h h' -> layers h' t = layers h t.
Proof.
  intros A. induction t as [p ts IH] using tree_ind. cbn [layers]. pose proof (A p) as Ap.
  inversion Ap as [c c' E E1 E2|E1 E2]; [|done]. destruct E as (_ & _ & _ & _ & -> & _).
  destruct (visible c); [|done]. f_equal. induction IH as [|t ts Ht Hts IH]; [done|]. cbn. by rewrite Ht, IH.
Qed.
Lemma alike_over F h h' ps x y v : alike h h' -> over F h' ps x y v = over F h ps x y v.
Proof.
  intros A. revert v. induction ps as [|p ps IH]; intros v; [done|]. unfold over. cbn [foldl].
  change (over F h' ps x y (paint F h' x y v p) = over F h ps x y (paint F h x y v p)). rewrite IH. f_equal. unfold paint.
  pose proof (A p) as Ap. inversion Ap as [c c' E E1 E2|E1 E2]; [|done]. by rewrite E.
Qed.
Lemma alike_scene F h h' t x y v : alike h h' -> scene F h' t x y v = scene F h t x y v.
Proof. intros A. unfold scene. by rewrite (alike_layers h h'), (alike_over F h h'). Qed.

(** ** A window on the desktop *)

(** The children of the desktop with one more, below the last of them. *)
Definition below_last (ts : list tree) (u : tree) : list tree :=
  take (length ts - 1) ts ++ u :: drop (length ts - 1) ts.

(** A hidden element, complete with its children, whose position is already that which
    [setParent] gives it. *)
Record attachable (s : t) (T u : tree) : Prop := {
  at_desktop : exists c, objs s !! top T = Some c /\ class c = Desktop /\
    exists o, objs s !! top u = Some o /\ visible o = false /\
      absX o = s32 (absX c + relX o) /\ absY o = s32 (absY c + relY o);
  at_reps : reps (objs s) u;
  at_nodup : NoDup (ptrs T ++ ptrs u);
  at_nested : nested (objs s) u;
  at_painted q c : q ∈ ptrs u -> objs s !! q = Some c -> painted c;
  at_fits : (need (Node (top T) (below_last (subtrees T) u)) <= 20)%nat;
  at_small : Z.of_nat (length (subtrees T)) + 1 < 2 ^ 30 }.

Lemma below_last_fmap ts u : top <$> below_last ts u =
  take (length (top <$> ts) - 1) (top <$> ts) ++ top u :: drop (length (top <$> ts) - 1) (top <$> ts).
Proof. unfold below_last. by rewrite fmap_app, fmap_cons, fmap_take, fmap_drop, length_fmap. Qed.

Lemma below_last_elem ts u t : t ∈ below_last ts u <-> t = u \/ t ∈ ts.
Proof.
  assert (E : t ∈ ts <-> t ∈ take (length ts - 1) ts \/ t ∈ drop (length ts - 1) ts).
  { by rewrite <- elem_of_app, take_drop. }
  unfold below_last. rewrite elem_of_app, elem_of_cons. tauto.
Qed.

Lemma below_last_ptrs ts u : flat_map ptrs (below_last ts u) ≡ₚ ptrs u ++ flat_map ptrs ts.
Proof.
  transitivity (ptrs u ++ flat_map ptrs (take (length ts - 1) ts ++ drop (length ts - 1) ts)); [|by rewrite take_drop].
  unfold below_last. rewrite !flat_map_app. cbn [flat_map]. solve_Permutation.
Qed.

Lemma attach_children c ts u : Deque.rep (children c) (top <$> ts) -> Z.of_nat (length ts) + 1 < 2 ^ 30 ->
  exists q, (if 0 <? Deque.size (children c) then Deque.insert (children c) (top u) (Deque.size (children c) - 1)
             else Deque.push_back (children c) (top u)) = Some q /\ Deque.rep q (top <$> below_last ts u).
Proof.
  intros R Hn. assert (Hs : Deque.size (children c) = Z.of_nat (length ts)).
  { unfold Deque.size. rewrite (Deque.rep_size _ _ (proj1 R)). unfold alen. by rewrite length_fmap. }
  rewrite Hs, below_last_fmap, length_fmap. destruct (Z.ltb_spec 0 (Z.of_nat (length ts))).
  - replace (length ts - 1)%nat with (Z.to_nat (Z.of_nat (length ts) - 1)) by lia.
    apply Deque.deque_insert_spec; [done|..]; unfold alen; rewrite length_fmap; lia.
  - destruct ts; [|cbn in *; lia]. apply (Deque.push_back_spec _ [] _ R). unfold alen; cbn [length]; lia.
Qed.

Section attach.
Context (F : Blend.format).

Lemma addChild_spec fuel s T u : wf s T -> attachable s T u ->
  exists s', addChild F fuel s (top T) (top u) = Some s' /\
    (exists h, s' = set_objs s h /\ alike (objs s) h) /\ wf s' (Node (top T) (below_last (subtrees T) u)).
Proof.
  intros W A. destruct (at_desktop _ _ _ A) as (c & Hc & Hk & o & Ho & Hv & HX & HY).
  pose proof (at_nodup _ _ _ A) as Hn. apply list.NoDup_app in Hn as (NT & Ndis & Nu).
  assert (Hne : top T <> top u) by (intros E; apply (Ndis _ (top_ptr T)); rewrite E; apply top_ptr).
  pose proof (wf_reps _ _ W) as R. destruct T as [r ts]. cbn [top subtrees] in *.
  inversion R as [? ? c0 Hc0 Hd Hts]; subst. assert (c0 = c) as -> by congruence.
  destruct (attach_children c ts u Hd (at_small _ _ _ A)) as (q & Eq & Rq).
  unfold addChild. rewrite Hc. cbn [mbind option_bind]. rewrite Hk. unfold addChild_desktop. rewrite Hc. cbn [mbind option_bind].
  rewrite Eq. cbn [mbind option_bind]. unfold setParent. rewrite (lookup_insert_ne _ r (top u)) by done. rewrite Ho. cbn [mbind option_bind].
  rewrite lookup_insert_eq. cbn [mbind option_bind absX absY set_children]. rewrite <- HX, <- HY.
  set (o' := set_abs _ _ _). set (h := <[top u := o']> _). eexists. split; [done|].
  assert (Hh : forall z d, objs s !! z = Some d -> exists d', h !! z = Some d' /\ looks d d' /\
    (z <> r -> children d' = children d)).
  { intros z d Hz. unfold h. destruct (decide (z = top u)) as [->|Hzu].
    - rewrite lookup_insert_eq. exists o'. split; [done|]. assert (d = o) as -> by congruence. by repeat split.
    - rewrite lookup_insert_ne by done. destruct (decide (z = r)) as [->|Hzr].
      + rewrite lookup_insert_eq. eexists. split; [done|]. assert (d = c) as -> by congruence. by repeat split.
      + rewrite lookup_insert_ne by done. exists d. by repeat split. }
  assert (Al : alike (objs s) h).
  { intros z. destruct (objs s !! z) as [d|] eqn:Ez.
    - destruct (Hh z d Ez) as (d' & -> & L & _). by constructor.
    - unfold h. rewrite !lookup_insert_ne, Ez by congruence. constructor. }
  split; [by exists h|].
  assert (Hsub : forall w, w = u \/ w ∈ ts -> reps (objs s) w -> reps h w).
  { intros w Hw Rw. apply (reps_ext (objs s)); [done|]. intros z d Hz Hd'. destruct (Hh z d Hd') as (d' & E' & _ & Hch).
    exists d'. split; [done|]. apply Hch. intros ->. destruct Hw as [->|Hw].
    - apply (Ndis r); [left|done].
    - cbn [ptrs] in NT. apply list.NoDup_cons in NT as [Hr _]. apply Hr, elem_of_forest. by exists w. }
  destruct W as [W1 W2 W3 W4 W5 W6 W7 W8 W9]. split; try done; cbn [objs set_objs].
  - apply (reps_node _ _ _ (set_children c q)); [|exact Rq|].
    + unfold h. rewrite lookup_insert_ne by done. apply lookup_insert_eq.
    + rewrite list.Forall_forall in Hts |- *. intros w Hw%below_last_elem. apply Hsub; [done|].
      destruct Hw as [->|Hw]; [apply A|by apply Hts].
  - cbn [ptrs] in NT, Ndis |- *. apply list.NoDup_cons in NT as [Hr NT]. apply list.NoDup_cons. rewrite below_last_ptrs. split.
    + rewrite elem_of_app. intros [Hu|Hu]; [|done]. apply (Ndis r); [left|done].
    + apply list.NoDup_app. split; [done|]. split; [|done]. intros z Hz Hz'. apply (Ndis z); [by right|done].
  - apply A.
  - apply (nested_ext (objs s)); [by apply alike_covers|]. inversion W5 as [? ? Hn5 Hc5]; subst. constructor.
    + rewrite list.Forall_forall in Hn5 |- *. intros w [->|Hw]%below_last_elem; [apply A|by apply Hn5].
    + intros w x y Hw Hs Hcw. destruct W7 as (c7 & Hc7 & _ & Ho7). destruct (Ho7 x y Hs) as (_ & Hc7' & _). by exists c7.
  - intros z d Hz Hd'. assert (Hin : z ∈ ptrs (Node r ts) \/ z ∈ ptrs u).
    { cbn [ptrs] in Hz |- *. rewrite elem_of_cons, below_last_ptrs, elem_of_app in Hz. rewrite elem_of_cons. tauto. }
    pose proof (Al z) as Az. rewrite Hd' in Az. inversion Az as [d0 d' L E0 E1|]; subst. symmetry in E0.
    apply (looks_painted d0); [done|]. destruct Hin; [by apply (W6 z)|by apply (at_painted _ _ _ A z)].
  - destruct W7 as (c7 & Hc7 & Hv7 & Ho7). cbn [top] in *. assert (c7 = c) as -> by congruence.
    exists (set_children c q). unfold h. rewrite lookup_insert_ne by done. rewrite lookup_insert_eq. done.
Qed.

(** The new element is hidden: the scene stays. *)
Lemma attach_scene s T u : attachable s T u -> forall x y v,
  scene F (objs s) (Node (top T) (below_last (subtrees T) u)) x y v = scene F (objs s) T x y v.
Proof.
  intros A x y v. destruct (at_desktop _ _ _ A) as (_ & _ & _ & o & Ho & Hv & _). destruct T as [r ts]. cbn [top subtrees].
  unfold scene. cbn [layers]. destruct (objs s !! r) as [c|]; [|done]. destruct (visible c); [|done].
  f_equal. f_equal. unfold below_last. rewrite flat_map_app. cbn [flat_map].
  assert (layers (objs s) u = []) as -> by (destruct u; cbn [layers top] in *; by rewrite Ho, Hv).
  cbn [app]. by rewrite <- flat_map_app, take_drop.
Qed.
End attach.

(** ** Histories *)

Inductive op := Show (p : Z) | Hide (p : Z) | Attach (d : Z) | Redraw (r : Rectangle.t) | EnterVideo | EnterText.

Section history.
Context (F : Blend.format) (fuel : nat).

Definition step (s : t) (o : op) : option t :=
  match o with
  | Show p => show F fuel s p
  | Hide p => hide F fuel s p
  | Attach d => r ← rootContainer s; addChild F fuel s r d
  | Redraw r => redraw F fuel s r
  | EnterVideo => Some (enterVideoMode s)
  | EnterText => Some (enterTextMode s)
  end.

Fixpoint steps (s : t) (os : list op) : option t :=
  match os with [] => Some s | o :: os => s ← step s o; steps s os end.

(** The operations the user interface makes: on elements of the tree, which becomes [T']. *)
Inductive allowed (s : t) (T : tree) : op -> tree -> Prop :=
  | allow_show p : p ∈ ptrs T -> allowed s T (Show p) T
  | allow_hide p : p ∈ ptrs T -> p <> top T -> allowed s T (Hide p) T
  | allow_attach u : attachable s T u -> allowed s T (Attach (top u)) (Node (top T) (below_last (subtrees T) u))
  | allow_redraw r : allowed s T (Redraw r) T
  | allow_video : allowed s T EnterVideo T
  | allow_text : allowed s T EnterText T.

Inductive history : t -> tree -> list op -> tree -> Prop :=
  | history_nil s T : history s T [] T
  | history_cons s T o T1 os T2 : allowed s T o T1 -> (nodes T1 < fuel)%nat ->
      (forall s1, step s o = Some s1 -> history s1 T1 os T2) -> history s T (o :: os) T2.

Lemma reps_lookup h T p : reps h T -> p ∈ ptrs T -> exists c, h !! p = Some c.
Proof.
  induction T as [q ts IH] using tree_ind. intros R Hp. inversion R as [? ? c Hc _ Hts]; subst.
  cbn [ptrs] in Hp. rewrite elem_of_cons in Hp. destruct Hp as [->|Hp]; [by exists c|].
  apply elem_of_forest in Hp as (u & Hu & Hp). rewrite list.Forall_forall in IH, Hts. apply (IH u Hu (Hts u Hu) Hp).
Qed.

Lemma video_mirrors s : drawHelper s = HelpBGR -> mirrors s -> mirrors (enterVideoMode s).
Proof.
  intros Hh Hm. unfold enterVideoMode. destruct (displayMode s) eqn:Ed; [done|]. rewrite Hh. intros _ x y Hs.
  cbn [videoMemory buildBuffer set_screen copyRegion cls].
  destruct (BGR_copyRegion_spec (BGR_cls (videoMemory s) 0) (buildBuffer s)
    (Rectangle.mk 0 0 ScreenWidth ScreenHeight)) as [C _].
  specialize (C x y Hs). rewrite decide_True in C; [exact C|]. apply bound_inside. by split.
Qed.

Lemma step_current s T o T1 : wf s T -> current F s T -> allowed s T o T1 -> (nodes T1 < fuel)%nat ->
  exists s1, step s o = Some s1 /\ wf s1 T1 /\ current F s1 T1.
Proof.
  intros W C A Hf. destruct A as [p Hp|p Hp Hne|u Hu|r| |]; cbn [step].
  - destruct (reps_lookup _ _ _ (wf_reps _ _ W) Hp) as (c & Hc). unfold show. rewrite Hc. cbn [mbind option_bind].
    destruct (set_visible_current F fuel s T p c true W C Hf Hc) as (s' & E & W' & C' & _); [done|]. eauto.
  - destruct (reps_lookup _ _ _ (wf_reps _ _ W) Hp) as (c & Hc). unfold hide. rewrite Hc. cbn [mbind option_bind].
    destruct (set_visible_current F fuel s T p c false W C Hf Hc) as (s' & E & W' & C' & _); [done|]. eauto.
  - rewrite (wf_root _ _ W). cbn [mbind option_bind].
    destruct (addChild_spec F fuel s T u W Hu) as (s' & E & (h & -> & Al) & W'). eexists. split; [exact E|]. split; [done|].
    destruct C as [C M]. split; [|exact M]. intros x y Hs. cbn [objs set_objs buildBuffer].
    rewrite (alike_scene F (objs s) h) by done. by rewrite (attach_scene F s T u Hu), (C x y Hs).
  - destruct C as [C M]. destruct (redraw_spec F fuel s T r W M Hf) as (s' & E & S' & M' & P).
    assert (Px : forall x y, on_screen x y -> pixel (buildBuffer s') x y = scene F (objs s) T x y black).
    { intros x y Hs. rewrite (P x y Hs). case_decide; [done|by apply C]. }
    exists s'. split; [done|]. split; [apply (wf_screen s); [done..|]|split; [|done]]; intros x y Hs.
    + rewrite (Px x y Hs). apply over_byte, byte_black.
    + rewrite (screen_only_objs _ _ S'). by apply Px.
  - eexists. split; [done|]. destruct C as [C M]. pose proof (video_mirrors s (wf_helper _ _ W) M) as MV.
    assert (EV : enterVideoMode s = set_screen s (buildBuffer s) (videoMemory (enterVideoMode s)) Video).
    { unfold enterVideoMode. destruct s as [? ? ? ? ? [] ? ? ? ?]; done. }
    destruct W as [W1 W2 W3 W4 W5 W6 W7 W8 W9]. rewrite EV in *. split; [by split|]. by split.
  - eexists. split; [done|]. destruct C as [C M]. destruct W as [W1 W2 W3 W4 W5 W6 W7 W8 W9]. split; [by split|]. by split.
Qed.

(** C16: ** The screen is always up to date

    Whatever elements are shown, hidden or put on the desktop, and whenever the screen is
    redrawn or switched between text and video, the operation succeeds and afterwards
    every pixel of the build buffer is the visible elements painted in their order, and
    in video mode every pixel of the video memory is that of the build buffer. *)
Theorem screen_stays_current s T os T' :
  wf s T -> current F s T -> history s T os T' ->
  exists s', steps s os = Some s' /\ wf s' T' /\
    (forall x y, on_screen x y ->
       pixel (buildBuffer s') x y = scene F (objs s') T' x y black /\
       (displayMode s' = Video -> pixel (videoMemory s') x y = swap (scene F (objs s') T' x y black))).
Proof.
  intros W C H. revert W C. induction H as [s T|s T o T1 os T2 A Hf _ IH]; intros W C; cbn [steps].
  - exists s. split; [done|]. split; [done|]. destruct C as [C M]. intros x y Hs. split; [by apply C|].
    intros Hv. by rewrite (M Hv x y Hs), (C x y Hs).
  - destruct (step_current s T o T1 W C A Hf) as (s1 & E & W1 & C1). rewrite E. cbn [mbind option_bind]. by apply IH.
Qed.
End history.

(** ** Moving the pointer *)

(** A complete pixel buffer, and a position far from the ends of [int32_t]. *)
Record textured (c : Container.t) : Prop := {
  tex_size : 0 <= width c /\ 0 <= height c /\ width c * height c * 4 < 2 ^ 31;
  tex_bytes a : 0 <= a < width c * height c * 4 -> exists b, pixelBuffer c a = Some b /\ 0 <= b < 256 }.
Definition near (c : Container.t) : Prop := - 2 ^ 20 <= absX c <= 2 ^ 20 /\ - 2 ^ 20 <= absY c <= 2 ^ 20.

Lemma textured_painted c : textured c -> near c -> painted c.
Proof.
  intros [(Hw & Hh & Hwh) Hb] [NX NY] _ x y Hs Hc.
  assert (Hwp : 0 < height c -> width c <= 2 ^ 29) by nia. assert (Hhp : 0 < width c -> height c <= 2 ^ 29) by nia.
  unfold on_screen, ScreenWidth, ScreenHeight in Hs. unfold covers, inside, getBoundingRectangle in Hc; cbn in Hc.
  assert (Hpos : 0 < height c /\ 0 < width c).
  { split; apply Z.nle_gt; intros Hz.
    - assert (height c = 0) as E by lia. rewrite E, Z.add_0_r, (s32_id (absY c)) in Hc by lia. lia.
    - assert (width c = 0) as E by lia. rewrite E, Z.add_0_r, (s32_id (absX c)) in Hc by lia. lia. }
  specialize (Hwp ltac:(lia)). specialize (Hhp ltac:(lia)). rewrite !s32_id in Hc by lia.
  assert (Hi : forall k, 0 <= k < 4 -> exists b, pixelBuffer c (s32 ((s32 (y - absY c) * width c + s32 (x - absX c)) * 4 + k)) = Some b /\ 0 <= b < 256).
  { intros k Hk. rewrite (s32_id (y - absY c)), (s32_id (x - absX c)) by lia.
    assert (0 <= (y - absY c) * width c + (x - absX c) < width c * height c) by nia.
    rewrite s32_id by lia. apply Hb. lia. }
  destruct (Hi 3 ltac:(lia)) as (a & Ha & _). destruct (Hi 0 ltac:(lia)) as (r & Hr & Br).
  destruct (Hi 1 ltac:(lia)) as (g & Hg & Bg). destruct (Hi 2 ltac:(lia)) as (b & Hbl & Bb).
  exists (RGB r g b), a. split; [|unfold byte_rgb; cbn; auto]. unfold texel, getAlpha, getRed, getGreen, getBlue.
  by rewrite Ha, Hr, Hg, Hbl.
Qed.

Section pointer.
Context (F : Blend.format).

Lemma scene_frame h h' T x y v : (forall q, q ∈ ptrs T -> h' !! q = h !! q) -> scene F h' T x y v = scene F h T x y v.
Proof.
  intros E. assert (EL : layers h' T = layers h T).
  { induction T as [p ts IH] using tree_ind. cbn [layers]. rewrite (E p) by apply (top_ptr (Node p ts)).
    destruct (h !! p) as [c|]; [|done]. destruct (visible c); [|done]. f_equal.
    assert (Hsub : forall u, u ∈ ts -> layers h' u = layers h u).
    { intros u Hu. rewrite list.Forall_forall in IH. apply (IH u Hu). intros q Hq. apply E. by eapply ptrs_sub. }
    clear -Hsub. induction ts as [|u ts IH]; [done|]. cbn. rewrite (Hsub u) by left. f_equal. apply IH.
    intros w Hw. apply Hsub. by right. }
  unfold scene. rewrite EL. pose proof (layers_ptrs h T) as Sub. revert v Sub. generalize (layers h T). intros ps.
  induction ps as [|p ps IH]; intros v Sub; [done|].
  change (over F h' ps x y (paint F h' x y v p) = over F h ps x y (paint F h x y v p)).
  rewrite IH by set_solver. f_equal. unfold paint. by rewrite E by set_solver.
Qed.

Lemma nested_frame h h' T : nested h T -> (forall q, q ∈ ptrs T -> h' !! q = h !! q) -> nested h' T.
Proof.
  induction T as [p us IH] using tree_ind. intros Hn Hq. inversion Hn as [? ? Hus Hcv]; subst. constructor.
  - rewrite list.Forall_forall in IH, Hus |- *. intros w Hw. apply IH; [done|by apply Hus|].
    intros q Hq'. apply Hq. by eapply ptrs_sub.
  - intros w x y Hw Hs. unfold covers_at. rewrite (Hq p) by apply (top_ptr (Node p us)).
    rewrite (Hq (top w)) by (eapply ptrs_sub; [exact Hw|apply top_ptr]). by apply Hcv.
Qed.

Lemma scene_snoc h r ts u c x y v : h !! r = Some c -> visible c = true ->
  scene F h (Node r (ts ++ [u])) x y v = scene F h u x y (scene F h (Node r ts) x y v).
Proof.
  intros Hc Hv. unfold scene. rewrite <- over_app. f_equal. cbn [layers]. rewrite Hc, Hv, flat_map_app.
  cbn [flat_map]. by rewrite app_nil_r.
Qed.

Lemma scene_leaf h p c x y v : h !! p = Some c -> scene F h (Node p []) x y v = if visible c then shade F c x y v else v.
Proof.
  intros Hc. unfold scene. cbn [layers flat_map]. rewrite Hc. destruct (visible c); [|done].
  unfold over, paint; cbn. by rewrite Hc.
Qed.

Lemma relocate_leaf fuel h p c X Y : h !! p = Some c -> Deque.rep (children c) [] ->
  relocate fuel h p X Y = Some (<[p := set_rel (set_abs c X Y)
    (s32 (relX c + (X - absX c))) (s32 (relY c + (Y - absY c)))]> h).
Proof.
  intros Hc R. unfold relocate. rewrite Hc. cbn [mbind option_bind]. cbv zeta.
  set (c' := set_rel _ _ _). assert (E : size c' = O) by exact (size_spec c [] R). by rewrite E.
Qed.

(** The points of the old rectangle's closed right and bottom edges, which the redraw of
    the old place leaves out and the drawing at the new place skips. *)
Definition seam (old new : Rectangle.t) (x y : Z) : Prop :=
  hasPoint old x y = true /\ ~ inside old x y /\ inside new x y.
#[local] Instance seam_dec old new x y : Decision (seam old new x y).
Proof. unfold seam. apply _. Defined.

(** What a tree whose last child is the leaf [m] says of the store. *)
Lemma last_leaf h r ts m : reps h (Node r (ts ++ [Node m []])) -> NoDup (ptrs (Node r (ts ++ [Node m []]))) ->
  (exists c, h !! m = Some c /\ Deque.rep (children c) []) /\
  forall c' q, q ∈ ptrs (Node r ts) -> <[m := c']> h !! q = h !! q.
Proof.
  intros R Hn. inversion R as [? ? cr Hcr Hdr Hts]; subst. apply list.Forall_app in Hts as [Hts Hm].
  apply list.Forall_cons in Hm as [Hm _]. inversion Hm as [? ? cm Hcm Hdm _]; subst. split; [by exists cm|].
  intros c' q Hq. apply lookup_insert_ne. intros ->. cbn [ptrs] in Hn. rewrite flat_map_app in Hn.
  apply list.NoDup_cons in Hn as [Hr Hn]. apply list.NoDup_app in Hn as (_ & Hd & _). cbn [ptrs] in Hq.
  rewrite elem_of_cons in Hq. destruct Hq as [->|Hq].
  - apply Hr, elem_of_app. right. left.
  - apply (Hd q Hq). left.
Qed.

Lemma wf_move_top s r ts m c c' : let T := Node r (ts ++ [Node m []]) in
  wf s T -> objs s !! m = Some c -> children c' = children c -> painted c' ->
  wf (set_objs s (<[m := c']> (objs s))) T.
Proof.
  intros T W Hc Hch Hp. destruct (last_leaf _ _ _ _ (wf_reps _ _ W) (wf_nodup _ _ W)) as [_ Out]. specialize (Out c').
  destruct W as [W1 W2 W3 W4 W5 W6 (cr & Hcr & Hvr & Hor) W8 W9]. split; try done; cbn [objs set_objs].
  - apply (reps_ext (objs s)); [done|]. intros q d _ Hd. destruct (decide (m = q)) as [<-|Hne].
    + rewrite lookup_insert_eq. exists c'. split; [done|]. by assert (d = c) as -> by congruence.
    + rewrite lookup_insert_ne by done. eauto.
  - inversion W5 as [? ? Hn5 Hc5]; subst. apply list.Forall_app in Hn5 as [Hn5 _]. constructor.
    + apply list.Forall_app. split; [|constructor; [|constructor]].
      * rewrite list.Forall_forall in Hn5 |- *. intros u Hu. apply (nested_frame (objs s)); [by apply Hn5|].
        intros q Hq. apply Out. by eapply ptrs_sub.
      * constructor; [constructor|]. intros u x y Hu. by apply not_elem_of_nil in Hu.
    + intros u x y _ Hs _. exists cr. split; [exact (eq_trans (Out r (top_ptr (Node r ts))) Hcr)|]. by apply Hor.
  - intros q d Hq. destruct (decide (m = q)) as [<-|Hne].
    + rewrite lookup_insert_eq. by intros [= <-].
    + rewrite lookup_insert_ne by done. by apply W6.
  - exists cr. split; [exact (eq_trans (Out r (top_ptr (Node r ts))) Hcr)|done].
Qed.

(** The scene with the leaf on top. *)
Lemma scene_top s r ts m c x y v : let T := Node r (ts ++ [Node m []]) in
  wf s T -> objs s !! m = Some c ->
  scene F (objs s) T x y v =
    if visible c then shade F c x y (scene F (objs s) (Node r ts) x y v) else scene F (objs s) (Node r ts) x y v.
Proof.
  intros T W Hc. destruct (wf_base _ _ W) as (cr & Hcr & Hvr & _). unfold T.
  by rewrite (scene_snoc _ r ts (Node m []) cr), (scene_leaf _ m c).
Qed.

(** Redraw of the old rectangle, then the element itself at its new place. *)
Lemma draw_moved fuel s r ts m c c' old : let T := Node r (ts ++ [Node m []]) in
  wf s T -> mirrors s -> objs s !! m = Some c -> children c' = children c -> painted c' -> (nodes T < fuel)%nat ->
  let h := <[m := c']> (objs s) in
  exists s2 s3, redraw F fuel (set_objs s h) old = Some s2 /\ objs s2 = h /\
    drawSingle F fuel s2 m (getBoundingRectangle c') old = Some s3 /\
    objs s3 = h /\ wf s3 T /\ mirrors s3 /\
    forall x y, on_screen x y -> pixel (buildBuffer s3) x y =
      let v := if decide (inside old x y) then scene F h T x y black else pixel (buildBuffer s) x y in
      if decide (inside (getBoundingRectangle c') x y)
      then if hasPoint old x y then v else if visible c' then shade F c' x y v else v
      else v.
Proof.
  intros T W Mi Hc Hch Hp Hf h. pose proof (wf_move_top s r ts m c c' W Hc Hch Hp) as W'. set (s1 := set_objs s h) in *.
  destruct (redraw_spec F fuel s1 T old W' Mi Hf) as (s2 & E2 & S2 & M2 & P2).
  pose proof (screen_only_objs _ _ S2) as O2. cbn [objs s1 set_objs] in O2.
  assert (Hm : objs s2 !! m = Some c') by (rewrite O2; apply lookup_insert_eq).
  destruct (last_leaf _ _ _ _ (wf_reps _ _ W) (wf_nodup _ _ W)) as [(c0 & Hc0 & Hd0) _].
  assert (c0 = c) as -> by congruence.
  destruct (drawSingle_spec F fuel s2 (Node m []) (getBoundingRectangle c') old) as (s3 & E3 & S3 & M3 & P3 & _).
  - apply (reps_node _ _ _ c'); [done|by rewrite Hch|constructor].
  - constructor; [constructor|]. intros u x y Hu. by apply not_elem_of_nil in Hu.
  - intros q d Hq. apply list_elem_of_singleton in Hq as ->. rewrite Hm. by intros [= <-].
  - cbn. lia.
  - change (1 < fuel)%nat. change (nodes T) with (S (length (flat_map ptrs (ts ++ [Node m []])))) in Hf.
    rewrite flat_map_app, length_app in Hf. cbn [flat_map ptrs app length] in Hf. lia.
  - rewrite S2. apply (wf_helper _ _ W).
  - done.
  - pose proof (screen_only_objs _ _ S3) as O3. rewrite O2 in O3. exists s2, s3. split; [done|]. split; [done|].
    split; [exact E3|]. split; [done|].
    assert (Px : forall x y, on_screen x y -> pixel (buildBuffer s2) x y =
      if decide (inside old x y) then scene F h T x y black else pixel (buildBuffer s) x y) by done.
    assert (Px3 : forall x y, on_screen x y -> pixel (buildBuffer s3) x y =
      let v := if decide (inside old x y) then scene F h T x y black else pixel (buildBuffer s) x y in
      if decide (inside (getBoundingRectangle c') x y)
      then if hasPoint old x y then v else if visible c' then shade F c' x y v else v else v).
    { intros x y Hs. rewrite (P3 x y Hs), (Px x y Hs). unfold except. rewrite (scene_leaf _ m c') by done. cbv zeta.
      apply decide_ext. rewrite bound_inside. tauto. }
    split; [|split; [done|exact Px3]].
    apply (wf_screen s2); [done|apply (wf_screen s1); [done..|]|]; intros x y Hs.
    + rewrite (P2 x y Hs). case_decide; [apply over_byte, byte_black|by apply (wf_bytes _ _ W')].
    + rewrite (Px3 x y Hs). cbv zeta. pose proof (wf_bytes _ _ W x y Hs) as HB.
      assert (HV : byte_rgb (if decide (inside old x y) then scene F h T x y black else pixel (buildBuffer s) x y))
        by (case_decide; [apply over_byte, byte_black|done]).
      destruct (decide (inside (getBoundingRectangle c') x y)), (hasPoint old x y), (visible c'); auto using shade_byte.
Qed.

(** Moving the last child of the root. *)
Lemma move_top_spec fuel s r ts m c X Y : let T := Node r (ts ++ [Node m []]) in
  wf s T -> current F s T -> objs s !! m = Some c -> textured c -> (nodes T < fuel)%nat ->
  - 2 ^ 20 <= X <= 2 ^ 20 -> - 2 ^ 20 <= Y <= 2 ^ 20 ->
  let c' := set_rel (set_abs c X Y) (s32 (relX c + (X - absX c))) (s32 (relY c + (Y - absY c))) in
  exists s', updateLocation_container F fuel s m X Y = Some s' /\
    objs s' = <[m := c']> (objs s) /\ wf s' T /\ mirrors s' /\
    forall x y, on_screen x y -> pixel (buildBuffer s') x y =
      if decide (seam (getBoundingRectangle c) (getBoundingRectangle c') x y)
      then scene F (objs s') (Node r ts) x y black
      else scene F (objs s') T x y black.
Proof.
  intros T W [Cu Mi] Hc Tx Hf HX HY c'.
  assert (Pc' : painted c') by (apply textured_painted; [destruct Tx; by split|split; cbn; lia]).
  destruct (draw_moved fuel s r ts m c c' (getBoundingRectangle c) W Mi Hc eq_refl Pc' Hf)
    as (s2 & s3 & E2 & O2 & E3 & O3 & W3 & M3 & P3).
  destruct (last_leaf _ _ _ _ (wf_reps _ _ W) (wf_nodup _ _ W)) as [(c0 & Hc0 & Hd0) Out].
  assert (c0 = c) as -> by congruence.
  exists s3. unfold updateLocation_container. rewrite Hc. cbn [mbind option_bind].
  rewrite (relocate_leaf _ _ _ _ _ _ Hc Hd0). cbn [mbind option_bind]. fold c'. rewrite E2. cbn [mbind option_bind].
  rewrite O2, lookup_insert_eq. cbn [mbind option_bind]. split; [exact E3|]. split; [done|]. split; [done|]. split; [done|].
  set (h := <[m := c']> (objs s)) in *. intros x y Hs. rewrite (P3 x y Hs), O3. cbv zeta.
  assert (ES : scene F h T x y black = (if visible c' then shade F c' x y (scene F h (Node r ts) x y black)
    else scene F h (Node r ts) x y black)).
  { rewrite <- O3. apply scene_top; [done|]. rewrite O3. apply lookup_insert_eq. }
  assert (EO : ~ inside (getBoundingRectangle c) x y -> pixel (buildBuffer s) x y = scene F h (Node r ts) x y black).
  { intros Ho. rewrite (Cu x y Hs), (scene_top s r ts m c) by done.
    rewrite (scene_frame (objs s) h (Node r ts)) by apply Out. destruct (visible c); [|done]. by apply shade_uncovered. }
  destruct (decide (inside (getBoundingRectangle c) x y)) as [Ho|Ho].
  - assert (hasPoint (getBoundingRectangle c) x y = true) as -> by (apply hasPoint_iff; unfold inside in Ho; lia).
    rewrite (decide_False (P := seam _ _ _ _)) by (unfold seam; tauto). by case_decide.
  - rewrite (EO Ho), ES. destruct (decide (inside (getBoundingRectangle c') x y)) as [Hi|Hi].
    + destruct (hasPoint (getBoundingRectangle c) x y) eqn:Hp.
      * by rewrite (decide_True (P := seam _ _ _ _)) by done.
      * rewrite (decide_False (P := seam _ _ _ _)) by (intros [? _]; congruence). done.
    + rewrite (decide_False (P := seam _ _ _ _)) by (unfold seam; tauto). rewrite (shade_uncovered F c') by done.
      by destruct (visible c').
Qed.
Lemma clamp_spec lo hi v : lo <= hi ->
  (if hi <? (if v <? lo then lo else v) then hi else (if v <? lo then lo else v)) = Z.max lo (Z.min hi v).
Proof. intros. destruct (Z.ltb_spec v lo); case_cmp; lia. Qed.

(** ** The pointer on the screen

    The pointer, the last child of the desktop, moves by [(dx, - dy)] but keeps its click
    point on the screen. Afterwards every pixel of the screen shows the scene with the
    pointer at its new place, except on the seam: the column and the row just outside the
    old rectangle keep what is below the pointer where the new rectangle covers them. *)
Theorem pointer_move_repaints fuel s r ts m c dx dy :
  let T := Node r (ts ++ [Node m []]) in
  wf s T -> current F s T -> theMouse s = Some m -> objs s !! m = Some c -> class c = Mouse -> textured c -> near c ->
  - 2 ^ 20 <= dx <= 2 ^ 20 -> - 2 ^ 20 <= dy <= 2 ^ 20 -> (nodes T < fuel)%nat ->
  let X := Z.max (- ClickPointOffsetX) (Z.min (ScreenWidth - ClickPointOffsetX) (absX c + dx)) in
  let Y := Z.max (- ClickPointOffsetY) (Z.min (ScreenHeight - ClickPointOffsetY) (absY c - dy)) in
  exists s' c', moveMouse F fuel s dx dy = Some s' /\
    objs s' = <[m := c']> (objs s) /\ absX c' = X /\ absY c' = Y /\ wf s' T /\ mirrors s' /\
    forall x y, on_screen x y -> pixel (buildBuffer s') x y =
      if decide (seam (getBoundingRectangle c) (getBoundingRectangle c') x y)
      then scene F (objs s') (Node r ts) x y black
      else scene F (objs s') T x y black.
Proof.
  intros T W C Hm Hc Hk Tx [NX NY] Hdx Hdy Hf X Y.
  assert (HX : - 2 ^ 20 <= X <= 2 ^ 20 /\ - 2 ^ 20 <= Y <= 2 ^ 20).
  { unfold X, Y, ClickPointOffsetX, ClickPointOffsetY, ScreenWidth, ScreenHeight. lia. }
  destruct (move_top_spec fuel s r ts m c X Y W C Hc Tx Hf ltac:(lia) ltac:(lia)) as (s' & E & O & W' & M' & P).
  eexists s', _. split; [|split; [exact O|split; [done|split; [done|split; [done|split; [done|exact P]]]]]].
  rewrite <- E. unfold moveMouse. rewrite Hm. cbn [mbind option_bind]. rewrite Hc. cbn [mbind option_bind]. cbv zeta.
  rewrite !(s32_id (_ + dx)), !(s32_id (_ - dy)) by lia.
  unfold updateLocation. rewrite Hc. cbn [mbind option_bind]. rewrite Hk.
  by rewrite !clamp_spec by (unfold ClickPointOffsetX, ClickPointOffsetY, ScreenWidth, ScreenHeight; lia).
Qed.

(** On the seam an opaque pointer is not drawn: the screen differs from the scene wherever
    its colour differs from what is below. *)
Lemma pointer_leaves_seam fuel s r ts m c X Y v x y : let T := Node r (ts ++ [Node m []]) in
  wf s T -> current F s T -> objs s !! m = Some c -> textured c -> (nodes T < fuel)%nat -> visible c = true ->
  - 2 ^ 20 <= X <= 2 ^ 20 -> - 2 ^ 20 <= Y <= 2 ^ 20 ->
  let c' := set_rel (set_abs c X Y) (s32 (relX c + (X - absX c))) (s32 (relY c + (Y - absY c))) in
  on_screen x y -> seam (getBoundingRectangle c) (getBoundingRectangle c') x y ->
  isDrawable c = true -> texel c' x y = Some (v, 255) -> scene F (<[m := c']> (objs s)) (Node r ts) x y black <> v ->
  exists s', updateLocation_container F fuel s m X Y = Some s' /\
    pixel (buildBuffer s') x y <> scene F (objs s') T x y black.
Proof.
  intros T W C Hc Tx Hf Hv HX HY c' Hs Hseam Hd Ht Hne.
  destruct (move_top_spec fuel s r ts m c X Y W C Hc Tx Hf HX HY) as (s' & E & O & W' & M' & P). fold c' in O, P.
  exists s'. split; [done|]. rewrite (P x y Hs), decide_True by done.
  rewrite (scene_top s' r ts m c') by (done || (rewrite O; apply lookup_insert_eq)).
  change (visible c') with (visible c). rewrite Hv, O.
  assert (Hc' : covers c' x y) by apply Hseam.
  destruct (wf_painted _ _ W' m c') with (x := x) (y := y) as (v' & a' & Ht' & Hb); [| |done|done|done|].
  { unfold T. cbn [ptrs]. right. rewrite flat_map_app. apply elem_of_app. right. left. }
  { rewrite O. apply lookup_insert_eq. }
  assert (v' = v) as -> by congruence.
  rewrite (shade_opaque F c' x y _ v); [done|exact Hd|done|done|apply over_byte, byte_black|done].
Qed.
End pointer.

(** ** Clicking *)

Section hit.
Context (F : Blend.format).

(** The elements a click can find at a point, in the order of drawing. *)
Definition clickable (s : t) (x y : Z) (p : Z) : Prop := covers_at (objs s) p x y /\ theMouse s <> Some p.
#[local] Instance covers_at_dec h p x y : Decision (covers_at h p x y).
Proof.
  unfold covers_at. destruct (h !! p) as [c|].
  - destruct (decide (covers c x y)); [left; eauto|right]. intros (c' & [= <-] & H). done.
  - right. intros (c' & H & _). done.
Defined.
#[local] Instance clickable_dec s x y p : Decision (clickable s x y p).
Proof. unfold clickable. apply _. Defined.

Definition targets (s : t) (T : tree) (x y : Z) : list Z := filter (clickable s x y) (layers (objs s) T).

(** The last of a list, or what was there before. *)
Definition last_or (ps : list Z) (a : option Z) : option Z := match list.last ps with Some p => Some p | None => a end.
Lemma last_or_app ps qs a : last_or (ps ++ qs) a = last_or qs (last_or ps a).
Proof.
  unfold last_or. destruct (decide (qs = [])) as [->|Hq]; [by rewrite app_nil_r|].
  destruct (exists_last Hq) as (l & q & ->). by rewrite app_assoc, !last_snoc.
Qed.

Lemma filter_none {A} (P : A -> Prop) `{!forall a, Decision (P a)} l : (forall a, a ∈ l -> ~ P a) -> filter P l = [].
Proof.
  induction l as [|a l IH]; intros Hn; [done|]. rewrite filter_cons_False by (apply Hn; left). apply IH.
  intros b Hb. apply Hn. by right.
Qed.

Lemma hit_walk s x y T : reps (objs s) T -> nested (objs s) T -> on_screen x y ->
  (forall m c, theMouse s = Some m -> objs s !! m = Some c -> Deque.rep (children c) []) ->
  forall a, walk (hit_body s x y) T a = Some (last_or (targets s T x y) a).
Proof.
  intros R Hn Hs Hleaf. induction T as [p ts IH] using tree_ind. intros a. inversion R as [? ? c Hc Hd Hts]; subst.
  rewrite walk_node. unfold targets. cbn [layers]. rewrite Hc.
  assert (Hb : hit_body s x y p a = if bool_decide (theMouse s = Some p) then Some (None, a)
    else if negb (visible c) then Some (None, a) else if isPixelInRange c x y then Some (Some c, Some p) else Some (None, a)).
  { unfold hit_body. by rewrite Hc. }
  rewrite Hb. clear Hb. case_bool_decide as Em; cbn [mbind option_bind].
  - destruct (visible c); [|done]. pose proof (Hleaf p c Em Hc) as L.
    assert (ts = []) as -> by (pose proof (size_spec c [] L) as E1; rewrite (size_spec c ts Hd) in E1; by destruct ts).
    cbn [flat_map]. rewrite filter_cons_False; [done|]. intros [_ H]. done.
  - destruct (visible c) eqn:Ev; cbn [negb mbind option_bind]; [|done]. rewrite isPixelInRange_spec. case_bool_decide as Hcv.
    + cbn [mbind option_bind]. rewrite filter_cons_True by (split; [by exists c|done]).
      change (p :: filter _ ?l) with ([p] ++ filter (clickable s x y) l). rewrite last_or_app. cbn [last_or list.last].
      inversion Hn as [? ? Hnts _]; subst. change (last_or [p] a) with (Some p). generalize (Some p). clear -IH Hts Hnts.
      induction ts as [|u ts IHts]; intros a; [done|]. cbn [walks flat_map]. rewrite list.Forall_cons in IH, Hts, Hnts.
      destruct IH as [Hu IH], Hts as [Ru Hts], Hnts as [Nu Hnts]. rewrite (Hu Ru Nu a). cbn [mbind option_bind].
      rewrite list.filter_app, last_or_app. by apply IHts.
    + cbn [mbind option_bind]. f_equal. symmetry. unfold last_or. rewrite filter_none; [done|].
      intros q Hq [Hcq _]. assert (Hq' : q ∈ ptrs (Node p ts)).
      { apply (layers_ptrs (objs s)). cbn [layers]. by rewrite Hc, Ev. }
      destruct (nested_covers _ _ Hn q x y Hq' Hs Hcq) as (c2 & Hc2 & ?). cbn in Hc2. congruence.
Qed.

Lemma hit_body_self s x y p a o a' : hit_body s x y p a = Some (Some o, a') -> objs s !! p = Some o.
Proof.
  unfold hit_body. case_bool_decide; [done|]. destruct (objs s !! p) as [c|]; [|done]. cbn.
  destruct (negb (visible c)); [done|]. destruct (isPixelInRange c x y); congruence.
Qed.

(** ** A click hits what is seen *)

(** Only the elements that cover the point count. *)
Lemma over_only h (P : Z -> Prop) `{!forall q, Decision (P q)} ps x y v :
  (forall q, q ∈ ps -> covers_at h q x y -> P q) -> over F h ps x y v = over F h (filter P ps) x y v.
Proof.
  revert v. induction ps as [|q ps IH]; intros v Hc; [done|].
  assert (Hps : forall q, q ∈ ps -> covers_at h q x y -> P q) by (intros q' Hq'; apply Hc; by right).
  change (over F h (q :: ps) x y v) with (over F h ps x y (paint F h x y v q)). rewrite IH by done.
  rewrite filter_cons. case_decide as Hq; [done|]. f_equal. unfold paint. destruct (h !! q) as [c|] eqn:E; [|done].
  apply shade_uncovered. intros Hcv. apply Hq, Hc; [left|]. by exists c.
Qed.

(** What lies above the last clickable element is not clickable. *)
Lemma last_clickable s x y l ps p : filter (clickable s x y) l = ps ++ [p] ->
  exists l1 l2, l = l1 ++ p :: l2 /\ forall q, q ∈ l2 -> ~ clickable s x y q.
Proof.
  revert ps. induction l as [|q l IH]; intros ps El; [by destruct ps|].
  rewrite filter_cons in El. case_decide as Hq; [|].
  - destruct ps as [|q' ps]; injection El as -> El.
    + exists [], l. split; [done|]. intros q Hq' Hcl. by apply (filter_nil_not_elem_of _ _ q El).
    + destruct (IH ps El) as (l1 & l2 & -> & H2). by exists (q' :: l1), l2.
  - destruct (IH ps El) as (l1 & l2 & -> & H2). by exists (q :: l1), l2.
Qed.

(** C17: At every pixel of a screen that is up to date the compositor finds an element [p]: a
    visible one that covers the pixel, other than the pointer, and only the pointer can
    cover the pixel above it. A left click of a pointer that drags nothing and whose upper
    left corner is at the pixel takes hold of [p], where it is on [p]. If [p] is opaque
    there, its colour is what the screen shows with the pointer taken away - all the
    visible elements but the pointer, painted in their order - and the pixel of the build
    buffer is that colour with nothing but the pointer painted over it; in video mode the
    screen has that pixel. *)
Theorem click_hits_what_is_seen fuel s T x y :
  wf s T -> current F s T -> (nodes T < fuel)%nat -> on_screen x y -> theMouse s <> Some (top T) ->
  (forall m c, theMouse s = Some m -> objs s !! m = Some c -> Deque.rep (children c) []) ->
  exists p o l1 l2, getElementAtPosition fuel s x y = Some (Some p) /\
    objs s !! p = Some o /\ covers o x y /\ theMouse s <> Some p /\
    layers (objs s) T = l1 ++ p :: l2 /\
    (forall q, q ∈ l2 -> covers_at (objs s) q x y -> theMouse s = Some q) /\
    (forall m c, theMouse s = Some m -> objs s !! m = Some c -> absX c = x -> absY c = y -> isDragging s = None ->
       leftClick fuel s = Some (set_drag s (Some (Some p)) (s32 (x - absX o)) (s32 (y - absY o)))) /\
    (forall v, isDrawable o = true -> texel o x y = Some (v, 255) ->
       over F (objs s) (filter (fun q => theMouse s <> Some q) (layers (objs s) T)) x y black = v /\
       let seen := over F (objs s) (filter (fun q => theMouse s = Some q) l2) x y v in
       pixel (buildBuffer s) x y = seen /\ (displayMode s = Video -> pixel (videoMemory s) x y = swap seen)).
Proof.
  intros W [Cu Mi] Hf Hs Hmt Hleaf.
  assert (Hroot : top T ∈ targets s T x y).
  { apply list_elem_of_filter. destruct (wf_base _ _ W) as (c & Hc & Hv & Ho). split.
    - split; [|done]. exists c. split; [done|]. by apply Ho.
    - destruct T as [r ts]. cbn [top layers] in *. rewrite Hc, Hv. left. }
  destruct (exists_last (l := targets s T x y)) as (ps & p & El); [intros E; rewrite E in Hroot; by apply not_elem_of_nil in Hroot|].
  assert (Hp : p ∈ targets s T x y) by (rewrite El; apply elem_of_app; right; left).
  apply list_elem_of_filter in Hp as [[(o & Ho & Hcov) Hm] Hin].
  assert (Eg : getElementAtPosition fuel s x y = Some (Some p)).
  { unfold getElementAtPosition. rewrite (wf_root _ _ W).
    rewrite (iterator_walks (objs s) _ (hit_body_self s x y) T None _ fuel (wf_reps _ _ W) (wf_fits _ _ W) Hf
      (hit_walk s x y T (wf_reps _ _ W) (wf_nested _ _ W) Hs Hleaf None)).
    unfold last_or. by rewrite El, last_snoc. }
  destruct (last_clickable s x y _ ps p El) as (l1 & l2 & Hl & Hl2).
  assert (Hab : forall q, q ∈ l2 -> covers_at (objs s) q x y -> theMouse s = Some q).
  { intros q Hq Hcq. destruct (decide (theMouse s = Some q)) as [|Nq]; [done|]. by destruct (Hl2 q Hq). }
  exists p, o, l1, l2. do 6 (split; [done|]). split.
  - intros m c Em Hc <- <- Hd. unfold leftClick. rewrite Em. cbn [mbind option_bind]. rewrite Hc. cbn [mbind option_bind].
    rewrite Hd, Eg. cbn [mbind option_bind]. by rewrite Ho.
  - intros v Hd Ht.
    assert (Hb : byte_rgb v).
    { destruct (wf_painted _ _ W p o (layers_ptrs _ _ _ Hin) Ho Hd x y Hs Hcov) as (v' & a & Ht' & Hb). by assert (v' = v) as -> by congruence. }
    assert (Hpaint : forall l, paint F (objs s) x y (over F (objs s) l x y black) p = v).
    { intros l. unfold paint. rewrite Ho. apply (shade_opaque F o x y _ v); [done..|apply over_byte, byte_black|done]. }
    assert (Hpx : pixel (buildBuffer s) x y = over F (objs s) (filter (fun q => theMouse s = Some q) l2) x y v).
    { rewrite (Cu x y Hs). unfold scene. rewrite Hl, over_app.
      change (over F (objs s) (p :: l2) x y ?w) with (over F (objs s) l2 x y (paint F (objs s) x y w p)).
      rewrite Hpaint. by apply over_only. }
    split; [|cbv zeta; split; [done|intros Hv; by rewrite (Mi Hv x y Hs), Hpx]].
    rewrite Hl, list.filter_app, filter_cons_True, over_app by done.
    change (over F (objs s) (p :: ?l) x y ?w) with (over F (objs s) l x y (paint F (objs s) x y w p)). rewrite Hpaint.
    apply over_uncovered. intros q [Nq Hq]%list_elem_of_filter Hcq. by apply Nq, Hab.
Qed.
End hit.

(** ** What goes wrong *)

(** The helper of the 32-bit modes copies bytes where it should copy pixels: of a region of
    one pixel only the first byte arrives. *)
Lemma RGBO_copies_one_byte v b x y :
  RGBO_copyRegion v b x (x + 1) y (y + 1) = upd v (4 * (x + y * ScreenWidth)) (b (3 * (x + y * ScreenWidth))).
Proof.
  unfold RGBO_copyRegion. rewrite for_range_cons, for_range_nil by lia. replace (x + 1 - x) with 1 by lia.
  rewrite for_range_cons, for_range_nil by lia. by rewrite !Z.add_0_r.
Qed.

(** A button or an image has no pixel, whatever size it was made with. *)
Lemma button_covers_nothing w h x y px py : - 2 ^ 31 <= x < 2 ^ 31 ->
  ~ covers (Button w h x y) px py /\ ~ covers (Image w h x y) px py.
Proof.
  intros Hx. unfold covers, inside, Button, Image; cbn [getBoundingRectangle Container.make x1 x2 absX width].
  rewrite Z.add_0_r, s32_id by lia. lia.
Qed.

(** The stack of the iterator drops what does not fit: of more than twenty children the
    lowest are not visited, so not drawn. *)
Lemma descend_drops itr c ts : holds itr [] -> Deque.rep (children c) (top <$> ts) -> (20 < length ts)%nat ->
  exists itr', descend itr c = Some itr' /\ holds itr' (take 20 (reverse (top <$> ts))).
Proof.
  intros H R Hl. unfold descend. rewrite (size_spec _ _ R).
  destruct (for_opt_ind (fun k itr' => holds itr' (take (Nat.min 20 (Z.to_nat k)) (reverse (top <$> ts)))) (length ts) 0
    (fun k itr => d ← child c (Z.of_nat (length ts) - 1 - k); Some (Stack.push MaxDepth itr d)) itr) as (itr' & E & P).
  - by rewrite take_0.
  - intros k i1 Hk P. destruct (lookup_lt_is_Some_2 ts (length ts - 1 - Z.to_nat k)) as [u Hu]; [lia|].
    pose proof (child_spec _ _ _ _ R Hu) as Hc.
    replace (Z.of_nat (length ts - 1 - Z.to_nat k)) with (Z.of_nat (length ts) - 1 - k) in Hc by lia.
    rewrite Hc. cbn [mbind option_bind]. eexists. split; [done|].
    assert (Hu' : reverse (top <$> ts) !! Z.to_nat k = Some (top u)).
    { rewrite reverse_lookup_Some, list_lookup_fmap, length_fmap. split; [|lia].
      replace (length ts - S (Z.to_nat k))%nat with (length ts - 1 - Z.to_nat k)%nat by lia. by rewrite Hu. }
    destruct (decide (Z.to_nat k < 20)%nat) as [Hk20|Hk20].
    + replace (Nat.min 20 (Z.to_nat (k + 1))) with (S (Z.to_nat k)) by lia. rewrite Nat.min_r in P by lia.
      rewrite (take_S_r _ _ _ Hu'). apply holds_push; [done|].
      rewrite length_take, length_reverse, length_fmap. lia.
    + replace (Nat.min 20 (Z.to_nat (k + 1))) with 20%nat by lia. rewrite Nat.min_l in P by lia.
      destruct P as [W C]. split; [by apply Stack.stack_wf_push|]. rewrite Stack.contents_push by done.
      pose proof (Stack.length_contents _ _ W) as L.
      rewrite C, length_take, length_reverse, length_fmap in L. rewrite decide_False by (unfold MaxDepth; lia). done.
  - exists itr'. split; [done|]. by rewrite Z.add_0_l, Nat2Z.id, Nat.min_l in P by lia.
Qed.

(** ** Concrete screens *)

Module Demo.

(** A desktop of one colour and a white pointer on it. *)
Definition flat (n v : Z) (a : Z) : option Z :=
  if (0 <=? a) && (a <? n) then Some (if a mod 4 =? 3 then 255 else v) else None.
Definition children1 : Deque.t Z := match Deque.push_back Deque.init 2 with Some q => q | None => Deque.init end.
Definition desktop : Container.t := Container.mk ScreenWidth ScreenHeight 0 0 0 0 true children1 None Desktop (flat 3145728 7).
Definition pointer : Container.t := Container.mk MouseWidth MouseHeight 512 384 512 384 true Deque.init (Some 1) Mouse (flat 5280 255).
Definition tree0 : tree := Node 1 ([] ++ [Node 2 []]).

Definition build (a : Z) : Z :=
  let p := a / 3 in
  if decide (inside (getBoundingRectangle pointer) (p mod ScreenWidth) (p / ScreenWidth)) then 255 else 7.

Definition screen0 : t :=
  Compositor.mk {[ 1 := desktop; 2 := pointer ]} (Some 1) (Some 2) build (fun _ => 0) Text HelpBGR None 0 0.

Lemma objs_cases q c : objs screen0 !! q = Some c -> (q = 1 /\ c = desktop) \/ (q = 2 /\ c = pointer).
Proof.
  change (objs screen0) with (<[1 := desktop]> {[2 := pointer]} : gmap Z Container.t).
  rewrite lookup_insert_Some, lookup_singleton_Some. naive_solver.
Qed.

Lemma objs1 : objs screen0 !! 1 = Some desktop.
Proof. apply lookup_insert_eq. Qed.
Lemma objs2 : objs screen0 !! 2 = Some pointer.
Proof. change (<[1 := desktop]> ({[2 := pointer]} : gmap Z Container.t) !! 2 = Some pointer).
  rewrite lookup_insert_ne by lia. apply lookup_singleton_eq. Qed.

Lemma children1_rep : Deque.rep children1 [2].
Proof.
  unfold children1. destruct (Deque.push_back_spec Deque.init [] 2 Deque.init_rep) as (q & -> & R); [|exact R].
  unfold alen; cbn [length]; lia.
Qed.

Lemma flat_textured c n v : pixelBuffer c = flat n v -> 0 <= v < 256 -> n = width c * height c * 4 ->
  0 <= width c -> 0 <= height c -> n < 2 ^ 31 -> textured c.
Proof.
  intros E Hv Hn Hw Hh Hm. split; [lia|]. intros a Ha. rewrite E. unfold flat.
  rewrite (proj2 (Z.leb_le 0 a)), (proj2 (Z.ltb_lt a n)) by lia. cbn. eexists. split; [done|]. case_cmp; lia.
Qed.

Lemma textured0 : textured desktop /\ textured pointer.
Proof.
  split; [apply (flat_textured _ 3145728 7)|apply (flat_textured _ 5280 255)]; try done;
    cbn [width height desktop pointer]; unfold ScreenWidth, ScreenHeight, MouseWidth, MouseHeight; lia.
Qed.

Lemma flat_texel c n v x y : pixelBuffer c = flat n v -> n = width c * height c * 4 -> n < 2 ^ 31 ->
  0 <= x - absX c < width c -> 0 <= y - absY c < height c -> width c < 2 ^ 30 -> height c < 2 ^ 30 ->
  texel c x y = Some (RGB v v v, 255).
Proof.
  intros E Hn Hm Hx Hy Hw Hh.
  assert (Hi : forall k, 0 <= k < 4 -> pixelBuffer c (s32 ((s32 (y - absY c) * width c + s32 (x - absX c)) * 4 + k)) =
    Some (if k =? 3 then 255 else v)).
  { intros k Hk. rewrite (s32_id (y - absY c)), (s32_id (x - absX c)) by lia.
    assert (0 <= (y - absY c) * width c + (x - absX c) < width c * height c) by nia.
    rewrite s32_id by lia. rewrite E. unfold flat. rewrite (proj2 (Z.leb_le 0 _)), (proj2 (Z.ltb_lt _ n)) by lia. cbn [andb].
    rewrite Z.add_comm, Z.mod_add by lia. by rewrite (Z.mod_small k 4) by lia. }
  unfold texel, getAlpha, getRed, getGreen, getBlue. by rewrite !Hi by lia.
Qed.

Lemma desktop_opaque x y : on_screen x y -> covers desktop x y /\ texel desktop x y = Some (RGB 7 7 7, 255).
Proof.
  intros Hs. unfold on_screen, ScreenWidth, ScreenHeight in Hs. split.
  - split; vm_compute Rectangle.x1 || idtac; cbn; unfold ScreenWidth, ScreenHeight; rewrite s32_id by lia; lia.
  - apply (flat_texel _ 3145728 7); try done; cbn [width height absX absY desktop]; unfold ScreenWidth, ScreenHeight; lia.
Qed.

Lemma pointer_opaque x y : covers pointer x y -> texel pointer x y = Some (RGB 255 255 255, 255).
Proof.
  unfold covers, inside. intros Hc.
  assert (E : getBoundingRectangle pointer = Rectangle.mk 512 384 542 428) by by vm_compute. rewrite E in Hc. cbn in Hc.
  apply (flat_texel _ 5280 255); try done; cbn [width height absX absY pointer]; unfold MouseWidth, MouseHeight; lia.
Qed.

Lemma painted0 q c : objs screen0 !! q = Some c -> painted c.
Proof.
  intros [[-> ->]|[-> ->]]%objs_cases; apply textured_painted; try apply textured0; split; cbn; lia.
Qed.

Lemma build_pixel x y : on_screen x y ->
  pixel build x y = if decide (covers pointer x y) then RGB 255 255 255 else RGB 7 7 7.
Proof.
  intros Hs. unfold on_screen, ScreenWidth, ScreenHeight in Hs. unfold pixel, build. cbv zeta.
  assert (Hk : forall k, 0 <= k < 3 -> (pix x y + k) / 3 = y * 1024 + x).
  { intros k Hk. unfold pix, ScreenWidth. rewrite Z.add_comm, Z.mul_comm, Z.div_add by lia. rewrite Z.div_small by lia. lia. }
  rewrite !Hk by lia. unfold ScreenWidth.
  replace ((y * 1024 + x) mod 1024) with x by (rewrite Z.add_comm, Z.mod_add by lia; rewrite Z.mod_small by lia; done).
  replace ((y * 1024 + x) / 1024) with y by (rewrite Z.add_comm, Z.div_add by lia; rewrite Z.div_small by lia; lia).
  unfold covers. by case_decide.
Qed.

Lemma wf0 : wf screen0 tree0.
Proof.
  split; [reflexivity|..|reflexivity].
  - apply (reps_node _ _ _ desktop); [exact objs1|exact children1_rep|]. constructor; [|constructor].
    apply (reps_node _ _ _ pointer); [exact objs2|exact Deque.init_rep|constructor].
  - apply list.NoDup_cons. split; [|apply list.NoDup_singleton]. intros H%list_elem_of_singleton. lia.
  - vm_compute. lia.
  - constructor.
    + constructor; [|constructor]. constructor; [constructor|]. intros u x y Hu. by apply not_elem_of_nil in Hu.
    + intros u x y _ Hs _. exists desktop. split; [exact objs1|]. by apply desktop_opaque.
  - intros q c _ Hq. by apply (painted0 q).
  - exists desktop. split; [exact objs1|]. split; [reflexivity|]. intros x y Hs. destruct (desktop_opaque x y Hs) as [A B].
    split; [reflexivity|]. split; [done|]. by exists (RGB 7 7 7).
  - intros x y Hs. change (buildBuffer screen0) with build. rewrite build_pixel by done. case_decide; unfold byte_rgb; cbn; lia.
Qed.

Lemma current0 F : current F screen0 tree0.
Proof.
  split; [|intros H; discriminate H]. intros x y Hs. change (buildBuffer screen0) with build. rewrite build_pixel by done. unfold tree0.
  rewrite (scene_top F screen0 1 [] 2 pointer) by (apply wf0 || exact objs2). cbn [visible pointer].
  assert (scene F (objs screen0) (Node 1 []) x y black = RGB 7 7 7) as ->.
  { rewrite (scene_leaf F _ 1 desktop) by exact objs1. cbn [visible desktop].
    destruct (desktop_opaque x y Hs) as [A B]. apply shade_opaque; [reflexivity|exact A|exact B|..]; unfold byte_rgb; cbn; lia. }
  case_decide as Hc; [|by rewrite shade_uncovered]. symmetry.
  apply shade_opaque; [reflexivity|exact Hc|by apply pointer_opaque|..]; unfold byte_rgb; cbn; lia.
Qed.

End Demo.

Lemma screen_stays_current_witness :
  wf Demo.screen0 Demo.tree0 /\ current Blend.Single Demo.screen0 Demo.tree0 /\
  exists s', steps Blend.Single 10 Demo.screen0 [Hide 2; EnterVideo; Show 2] = Some s' /\ wf s' Demo.tree0 /\
    (forall x y, on_screen x y ->
       pixel (buildBuffer s') x y = scene Blend.Single (objs s') Demo.tree0 x y black /\
       (displayMode s' = Video -> pixel (videoMemory s') x y = swap (scene Blend.Single (objs s') Demo.tree0 x y black))).
Proof.
  split; [apply Demo.wf0|split; [apply Demo.current0|]].
  apply (screen_stays_current Blend.Single 10 Demo.screen0 Demo.tree0); [apply Demo.wf0|apply Demo.current0|].
  assert (H2 : 2 ∈ ptrs Demo.tree0) by (right; left).
  econstructor; [by apply allow_hide|vm_compute; lia|intros s1 _].
  econstructor; [apply allow_video|vm_compute; lia|intros s2 _].
  econstructor; [by apply allow_show|vm_compute; lia|intros s3 _]. constructor.
Defined.

Lemma pointer_move_repaints_witness :
  exists s' c', moveMouse Blend.Single 10 Demo.screen0 600 3 = Some s' /\
    objs s' = <[2 := c']> (objs Demo.screen0) /\ absX c' = 1018 /\ absY c' = 381 /\ wf s' Demo.tree0 /\ mirrors s' /\
    forall x y, on_screen x y -> pixel (buildBuffer s') x y =
      if decide (seam (getBoundingRectangle Demo.pointer) (getBoundingRectangle c') x y)
      then scene Blend.Single (objs s') (Node 1 []) x y black
      else scene Blend.Single (objs s') Demo.tree0 x y black.
Proof.
  apply (pointer_move_repaints Blend.Single 10 Demo.screen0 1 [] 2 Demo.pointer 600 3);
    [apply Demo.wf0|apply Demo.current0|reflexivity|exact Demo.objs2|reflexivity|apply Demo.textured0|split; cbn; lia|lia|lia|vm_compute; lia].
Defined.

(** The click point: under the pointer's own corner is the desktop, whose grey is what the
    screen would show without the white pointer. *)
Lemma click_hits_what_is_seen_witness :
  leftClick 10 Demo.screen0 = Some (set_drag Demo.screen0 (Some (Some 1)) 512 384) /\
  over Blend.Single (objs Demo.screen0) [1] 512 384 black = RGB 7 7 7 /\
  pixel (buildBuffer Demo.screen0) 512 384 = over Blend.Single (objs Demo.screen0) [2] 512 384 (RGB 7 7 7).
Proof.
  assert (Hs : on_screen 512 384) by (unfold on_screen, ScreenWidth, ScreenHeight; lia).
  destruct (click_hits_what_is_seen Blend.Single 10 Demo.screen0 Demo.tree0 512 384) as (p & o & l1 & l2 & E & Ho & _ & Hm & Hl & _ & Hk & Hv);
    [apply Demo.wf0|apply Demo.current0|vm_compute; lia|exact Hs|done| |].
  { intros m c [= <-] Hc. rewrite Demo.objs2 in Hc. injection Hc as <-. exact Deque.init_rep. }
  assert (Hp : p = 1 /\ o = Demo.desktop /\ l2 = [2]).
  { assert (E1 : layers (objs Demo.screen0) Demo.tree0 = [1; 2]) by reflexivity. rewrite E1 in Hl.
    destruct (Demo.objs_cases p o Ho) as [[-> ->]|[-> ->]]; [|by destruct Hm].
    split; [reflexivity|]. split; [reflexivity|]. destruct l1 as [|q [|q' [|q2 l1]]]; cbn [app] in Hl; [by injection Hl|discriminate Hl..]. }
  destruct Hp as (-> & -> & ->). destruct (Hv (RGB 7 7 7) eq_refl (proj2 (Demo.desktop_opaque 512 384 Hs))) as (H1 & H2 & _).
  split; [|split; [exact H1|exact H2]].
  exact (Hk 2 Demo.pointer eq_refl Demo.objs2 eq_refl eq_refl eq_refl).
Defined.

End Compositor.
