(* ===== verification/KLib.v ===== *)
(** * The library of the kernel (student-distrib/klibs/lib.cpp)

    [printf] with its conversions, and the memory routines in assembly. Strings and
    buffers are the byte objects of UserLib.v, whose [load] and [store] fail outside; the
    memory of the assembly routines is a function of the address. [putc] is the terminal:
    a call of [printf] is the list of bytes it puts. *)
From stdpp Require Import prelude list numbers.
From Stdlib Require Import ZArith Lia.
From S2P Require Import Prelude UserLib.

Module KLib.
Import UserLib.

(** ** Numbers and strings *)

Definition strlen (mem : list Z) (s : Z) : option Z := strlen_loop (S (length mem)) mem s 0.

(** [strrev]: two indices that meet. *)
Definition strrev (mem : list Z) (s : Z) : option (list Z) :=
  len ← strlen mem s;
  strrev_loop (S (length mem)) mem s 0 (s32 (len - 1)).

(** The digits, the lowest first; a zero radix traps. *)
Fixpoint digits_loop (fuel : nat) (buf : list Z) (newbuf newval radix : Z) : option (list Z * Z) :=
  match fuel with
  | O => None
  | S fuel =>
      if 0 <? newval then
        if u32 radix =? 0 then None
        else
          c ← load lookup (s32 (newval mod u32 radix));
          buf ← store buf newbuf c;
          digits_loop fuel buf (newbuf + 1) (newval / u32 radix) radix
      else Some (buf, newbuf)
  end.

Definition itoa (value : Z) (mem : list Z) (buf radix : Z) : option (list Z) :=
  if value =? 0 then
    mem ← store mem buf 48; store mem (buf + 1) 0
  else
    '(mem, newbuf) ← digits_loop (S (length mem)) mem buf value radix;
    mem ← store mem newbuf 0;
    strrev mem buf.

(** [puts]: the bytes put, from [s] to the NUL. *)
Fixpoint puts_loop (fuel : nat) (mem : list Z) (s index : Z) : option (list Z) :=
  match fuel with
  | O => None
  | S fuel =>
      c ← load mem (s + index);
      if c =? 0 then Some []
      else out ← puts_loop fuel mem s (index + 1); Some (c :: out)
  end.
Definition puts (mem : list Z) (s : Z) : option (list Z) := puts_loop (S (length mem)) mem s 0.

(** [strcpy]: the loop copies up to the NUL, which is stored behind it. *)
Fixpoint strcpy_loop (fuel : nat) (mem : list Z) (dest src i : Z) : option (list Z) :=
  match fuel with
  | O => None
  | S fuel =>
      c ← load mem (src + i);
      if c =? 0 then store mem (dest + i) 0
      else mem ← store mem (dest + i) c; strcpy_loop fuel mem dest src (i + 1)
  end.
Definition strcpy (mem : list Z) (dest src : Z) : option (list Z) := strcpy_loop (S (length mem)) mem dest src 0.

(** ** [printf] *)

(** The arguments are the words on the stack after the format. [mem] is the memory that
    the pointers among them point to, [conv] the bytes a fresh [conv_buf] happens to hold. *)
Section printf.
Context (mem conv : list Z).

(** A word of the stack. *)
Definition next_arg (args : list Z) : option (Z * list Z) :=
  match args with [] => None | v :: args => Some (v, args) end.

(** [while (i < 8) conv_buf[i++] = '0'] *)
Definition zero_pad (buf : list Z) (i : Z) : option (list Z) :=
  for_opt (Z.to_nat (8 - i)) i (fun i buf => store buf i 48) buf.

Definition print_hex (alternate : bool) (v : Z) : option (list Z) :=
  if alternate then
    buf ← itoa (u32 v) conv 8 16;
    starting_index ← strlen buf 8;
    buf ← zero_pad buf starting_index;
    puts buf starting_index
  else buf ← itoa (u32 v) conv 0 16; puts buf 0.

Definition print_unsigned (v : Z) : option (list Z) :=
  buf ← itoa (u32 v) (take 36 conv) 0 10; puts buf 0.

Definition print_signed (v : Z) : option (list Z) :=
  let value := s32 v in
  if value <? 0 then
    buf ← store (take 36 conv) 0 45;
    buf ← itoa (u32 (- value)) buf 1 10;
    puts buf 0
  else buf ← itoa (u32 value) (take 36 conv) 0 10; puts buf 0.

(** The switch after a percent sign, at the position [p] of the format: the bytes put, the
    arguments left and the position of the last character used. *)
Fixpoint conversion (fuel : nat) (format : list Z) (p : Z) (alternate : bool) (args : list Z)
    : option (list Z * list Z * Z) :=
  match fuel with
  | O => None
  | S fuel =>
      c ← load format p;
      if c =? 37 then Some ([37], args, p)
      else if c =? 35 then conversion fuel format (p + 1) true args
      else if c =? 120 then
        '(v, args) ← next_arg args; out ← print_hex alternate v; Some (out, args, p)
      else if c =? 117 then
        '(v, args) ← next_arg args; out ← print_unsigned v; Some (out, args, p)
      else if c =? 100 then
        '(v, args) ← next_arg args; out ← print_signed v; Some (out, args, p)
      else if c =? 99 then
        '(v, args) ← next_arg args; Some ([u8 v], args, p)
      else if c =? 115 then
        '(v, args) ← next_arg args; out ← puts mem v; Some (out, args, p)
      else Some ([], args, p)
  end.

(** The loop over the format; the answer is the bytes put and [buf - format]. *)
Fixpoint printf_loop (fuel : nat) (format : list Z) (p : Z) (args : list Z) : option (list Z * Z) :=
  match fuel with
  | O => None
  | S fuel =>
      c ← load format p;
      if c =? 0 then Some ([], p)
      else if c =? 37 then
        '(out, args, p) ← conversion (S (length format)) format (p + 1) false args;
        '(rest, q) ← printf_loop fuel format (p + 1) args;
        Some (out ++ rest, q)
      else
        '(rest, q) ← printf_loop fuel format (p + 1) args;
        Some (c :: rest, q)
  end.
Definition printf (format : list Z) (args : list Z) : option (list Z * Z) :=
  printf_loop (S (length format)) format 0 args.
End printf.

(** ** The fallback console *)

Definition NUM_COLS : Z := 80.
Definition NUM_ROWS : Z := 25.
Definition ATTRIB : Z := 0x7.

(** The text memory as a function of the offset, and the cursor. *)
Record console := mk_console { vmem : Z -> Z; screen_x : Z; screen_y : Z }.
Definition upd (m : Z -> Z) (a v : Z) : Z -> Z := fun b => if b =? a then v else m b.

Definition orig_putc (s : console) (c : Z) : console :=
  if (c =? 10) || (c =? 13) then mk_console (vmem s) 0 (s32 (screen_y s + 1))
  else
    let p := (NUM_COLS * screen_y s + screen_x s) * 2 in
    let x := Z.rem (screen_x s + 1) NUM_COLS in
    mk_console (upd (upd (vmem s) p c) (p + 1) ATTRIB) x
      (Z.rem (screen_y s + Z.quot x NUM_COLS) NUM_ROWS).

Definition orig_clear (s : console) : console :=
  mk_console (for_range 0 (NUM_ROWS * NUM_COLS) (fun i m => upd (upd m (i * 2) 32) (i * 2 + 1) ATTRIB) (vmem s))
    (screen_x s) (screen_y s).

Definition test_interrupts (s : console) : console :=
  mk_console (for_range 0 (NUM_ROWS * NUM_COLS) (fun i m => upd m (i * 2) (u8 (m (i * 2) + 1))) (vmem s))
    (screen_x s) (screen_y s).

(** ** Memory routines

    The registers of the loops as arguments. [rep stos] and [rep movs] of dwords are
    loops of their own; the direction flag is clear on entry. *)

Notation memory := (Z -> Z).

(** [stosl]: the four bytes of [eax]. *)
Definition store32 (m : memory) (a v : Z) : memory :=
  upd (upd (upd (upd m a (u8 v)) (a + 1) (u8 (v / 2 ^ 8))) (a + 2) (u8 (v / 2 ^ 16))) (a + 3) (u8 (v / 2 ^ 24)).
(** A dword of memory, for [movsl]. *)
Definition load32 (m : memory) (a : Z) : Z := m a + m (a + 1) * 2 ^ 8 + m (a + 2) * 2 ^ 16 + m (a + 3) * 2 ^ 24.

Fixpoint stosl (n : nat) (m : memory) (edi eax : Z) : memory * Z :=
  match n with O => (m, edi) | S n => stosl n (store32 m edi eax) (edi + 4) eax end.
Fixpoint stosb (n : nat) (m : memory) (edi eax : Z) : memory :=
  match n with O => m | S n => stosb n (upd m edi (u8 eax)) (edi + 1) eax end.
Fixpoint stosw (n : nat) (m : memory) (edi eax : Z) : memory :=
  match n with O => m | S n => stosw n (upd (upd m edi (u8 eax)) (edi + 1) (u8 (eax / 2 ^ 8))) (edi + 2) eax end.
Fixpoint movsl (n : nat) (m : memory) (edi esi : Z) : memory * Z * Z :=
  match n with O => (m, edi, esi) | S n => movsl n (store32 m edi (load32 m esi)) (edi + 4) (esi + 4) end.
Fixpoint movsb (n : nat) (m : memory) (edi esi step : Z) : memory :=
  match n with O => m | S n => movsb n (upd m edi (m esi)) (edi + step) (esi + step) step end.

(** [.memset_top]: bytes up to an aligned address, then dwords, then what is left. Here and
    in [memcpy_top] the pointers [edi] and [esi] are integers without bound: the wrap of
    the registers at 2^32 is not modelled, so what is said is about blocks that end below
    it. *)
Fixpoint memset_top (ecx : nat) (m : memory) (edi eax : Z) : memory :=
  match ecx with
  | O => m
  | S ecx' =>
      if Z.land edi 3 =? 0 then
        let '(m, edi) := stosl (ecx / 4) m edi eax in
        stosb (ecx mod 4) m edi eax
      else memset_top ecx' (upd m edi (u8 eax)) (edi + 1) eax
  end.
Definition memset (m : memory) (s c n : Z) : memory :=
  let c := Z.land c 0xFF in
  memset_top (Z.to_nat n) m s
    (Z.lor (Z.lor (Z.lor (Z.shiftl c 24) (Z.shiftl c 16)) (Z.shiftl c 8)) c).

Definition memset_word (m : memory) (s c n : Z) : memory := stosw (Z.to_nat n) m s c.
Definition memset_dword (m : memory) (s c n : Z) : memory := (stosl (Z.to_nat n) m s c).1.

Fixpoint memcpy_top (ecx : nat) (m : memory) (edi esi : Z) : memory :=
  match ecx with
  | O => m
  | S ecx' =>
      if Z.land edi 3 =? 0 then
        let '(m, edi, esi) := movsl (ecx / 4) m edi esi in
        movsb (ecx mod 4) m edi esi 1
      else memcpy_top ecx' (upd m edi (m esi)) (edi + 1) (esi + 1)
  end.
Definition memcpy (m : memory) (dest src n : Z) : memory := memcpy_top (Z.to_nat n) m dest src.

(** [memmove]: from the end when the source lies below. The second component is the
    direction flag it leaves. *)
Definition memmove (m : memory) (dest src n : Z) : memory * bool :=
  if dest <=? src then (movsb (Z.to_nat n) m dest src 1, false)
  else (movsb (Z.to_nat n) m (dest + n - 1) (src + n - 1) (-1), true).

(** ** Numerals *)

(** The character of a digit, and the numeral of a number: the reference for [itoa]. *)
Definition digit (i : Z) : Z := if i <? 10 then 48 + i else 55 + i.
Fixpoint lsb (k : nat) (radix v : Z) : list Z :=
  match k with
  | O => []
  | S k => if 0 <? v then digit (v mod radix) :: lsb k radix (v / radix) else []
  end.
Definition digits (radix v : Z) : list Z := if v =? 0 then [48] else reverse (lsb 32 radix v).

Lemma load_digit i : 0 <= i < 36 -> load lookup i = Some (digit i).
Proof. intros Hi. split_range i; reflexivity. Qed.
Lemma digit_range i : 0 <= i < 36 -> 48 <= digit i <= 90.
Proof. intros Hi. unfold digit. case_cmp; lia. Qed.
Lemma digit_value_digit i : 0 <= i < 36 -> digit_value (digit i) = i.
Proof. intros Hi. unfold digit_value, digit. case_cmp; lia. Qed.

Lemma lsb_range k radix v : 2 <= radix <= 36 -> Forall (fun c => 48 <= c <= 90) (lsb k radix v).
Proof.
  intros Hr. revert v. induction k as [|k IH]; intros v; cbn [lsb]; [constructor|].
  destruct (0 <? v); [|constructor]. constructor; [|apply IH]. apply digit_range.
  pose proof (Z.mod_pos_bound v radix). lia.
Qed.
Lemma lsb_length radix n : 2 <= radix -> forall k v, v < radix ^ Z.of_nat n -> (length (lsb k radix v) <= n)%nat.
Proof.
  intros Hr. induction n as [|n IH]; intros k v Hv; destruct k as [|k]; cbn [lsb length]; try lia.
  - destruct (Z.ltb_spec 0 v); [|cbn; lia]. change (radix ^ Z.of_nat 0) with 1 in Hv. lia.
  - destruct (Z.ltb_spec 0 v); cbn [length]; [|lia]. apply le_n_S, IH.
    rewrite Nat2Z.inj_succ, Z.pow_succ_r in Hv by lia. apply Z.div_lt_upper_bound; lia.
Qed.
Lemma lsb_nonempty k radix v : 0 < v -> lsb (S k) radix v <> [].
Proof. intros Hv. cbn [lsb]. by rewrite (proj2 (Z.ltb_lt 0 v)). Qed.

(** A numeral reads back as its number. *)
Lemma lsb_numeral radix : 2 <= radix <= 36 -> forall k v, 0 <= v < 2 ^ Z.of_nat k -> numeral radix (reverse (lsb k radix v)) = v.
Proof.
  intros Hr. induction k as [|k IH]; intros v Hv; cbn [lsb]; [change (0 = v); cbn in Hv; lia|].
  destruct (Z.ltb_spec 0 v); [|change (0 = v); lia].
  pose proof (Z.mod_pos_bound v radix). pose proof (Z.div_mod v radix).
  rewrite reverse_cons. unfold numeral in *. rewrite foldl_app, IH; cbn.
  - rewrite digit_value_digit by lia. lia.
  - split; [apply Z.div_pos; lia|]. apply Z.div_lt_upper_bound; [lia|].
    rewrite Nat2Z.inj_succ, Z.pow_succ_r in Hv by lia. nia.
Qed.

Lemma digits_spec radix v : 2 <= radix <= 36 -> 0 <= v < 2 ^ 32 ->
  numeral radix (digits radix v) = v /\ Forall (fun c => 48 <= c <= 90) (digits radix v) /\ 1 <= alen (digits radix v) <= 32.
Proof.
  intros Hr Hv. unfold digits. destruct (Z.eqb_spec v 0) as [->|]; [split; [done|]; split; [apply list.Forall_singleton; lia|unfold alen; cbn [length]; lia]|].
  split; [by apply lsb_numeral|]. split; [apply Forall_reverse, lsb_range; lia|].
  unfold alen. rewrite length_reverse. pose proof (lsb_nonempty 31 radix v ltac:(lia)).
  assert (Hl : forall k, (length (lsb k radix v) <= k)%nat).
  { intros k. clear. revert v. induction k as [|k IH]; intros v; cbn [lsb]; [done|]. destruct (0 <? v); cbn; [apply le_n_S, IH|lia]. }
  specialize (Hl 32%nat). destruct (lsb 32 radix v); [done|]. cbn [length] in *. lia.
Qed.

(** ** [itoa] writes the numeral *)

Lemma digits_loop_spec radix : 2 <= radix <= 36 -> forall fuel k mem nb v,
  (k < fuel)%nat -> 0 <= v < 2 ^ Z.of_nat k -> 0 <= nb -> nb + Z.of_nat k <= alen mem ->
  let ds := lsb k radix v in
  digits_loop fuel mem nb v radix =
    Some (take (Z.to_nat nb) mem ++ ds ++ drop (Z.to_nat (nb + alen ds)) mem, nb + alen ds).
Proof.
  intros Hr. induction fuel as [|fuel IH]; intros k mem nb v Hk Hv Hnb Hroom; [lia|]. cbn [digits_loop].
  destruct k as [|k].
  { cbn in Hv. assert (v = 0) as -> by lia. cbn. unfold alen. cbn. by rewrite Z.add_0_r, take_drop. }
  cbn [lsb]. destruct (Z.ltb_spec 0 v) as [Hpos|Hz].
  2:{ unfold alen. cbn. by rewrite Z.add_0_r, take_drop. }
  rewrite (u32_small radix) by lia. destruct (Z.eqb_spec radix 0); [lia|].
  pose proof (Z.mod_pos_bound v radix ltac:(lia)). rewrite s32_small by lia. rewrite load_digit by lia. cbn [mbind option_bind].
  rewrite store_Some by lia. cbn [mbind option_bind].
  assert (Hdiv : 0 <= v / radix < 2 ^ Z.of_nat k).
  { split; [apply Z.div_pos; lia|]. apply Z.div_lt_upper_bound; [lia|].
    rewrite Nat2Z.inj_succ, Z.pow_succ_r in Hv by lia. nia. }
  rewrite (IH k) by (rewrite ?alen_aset; lia). cbv zeta. unfold alen in *. cbn [length].
  f_equal. f_equal; [|lia]. replace (Z.to_nat (nb + 1)) with (S (Z.to_nat nb)) by lia. unfold aset.
  rewrite take_insert_snoc, <- app_assoc by lia. cbn [app]. rewrite drop_insert_lt by lia. do 4 f_equal. lia.
Qed.

Lemma krev_spec pre w post : Forall (fun c => c <> 0) w -> alen w < 2 ^ 31 ->
  strrev (pre ++ w ++ 0 :: post) (alen pre) = Some (pre ++ reverse w ++ 0 :: post).
Proof.
  intros Hw Hb. unfold strrev, strlen.
  rewrite (strlen_loop_spec w); [|by apply cstr_app|rewrite !length_app; cbn; lia|lia|lia]. cbn [mbind option_bind].
  apply strrev_loop_spec; [lia| |rewrite !length_app; cbn; lia].
  destruct w as [|a w]; [done|]. rewrite Z.add_0_l, s32_small by (unfold alen in *; cbn [length] in *; lia). lia.
Qed.

Lemma kitoa_spec v radix mem buf : 0 <= v < 2 ^ 32 -> 2 <= radix <= 36 -> 0 <= buf -> buf + 33 <= alen mem ->
  exists mem', itoa v mem buf radix = Some mem' /\ alen mem' = alen mem /\
    take (Z.to_nat buf) mem' = take (Z.to_nat buf) mem /\ cstr mem' buf (digits radix v).
Proof.
  intros Hv Hr Hb Hroom. set (pre := take (Z.to_nat buf) mem).
  assert (Hpre : alen pre = buf) by (unfold pre, alen in *; rewrite length_take; lia).
  destruct (digits_spec radix v Hr Hv) as (_ & Hd & Hl).
  assert (Hd0 : Forall (fun c => c <> 0) (digits radix v)) by (eapply List.Forall_impl; [|exact Hd]; cbn; lia).
  assert (Hfin : exists post, itoa v mem buf radix = Some (pre ++ digits radix v ++ 0 :: post) /\
    alen (pre ++ digits radix v ++ 0 :: post) = alen mem).
  2:{ destruct Hfin as (post & E & El). exists (pre ++ digits radix v ++ 0 :: post). split; [done|]. split; [done|].
      assert (Z.to_nat buf = length pre) as -> by (unfold alen in *; lia). split; [by rewrite take_app_length|].
      pose proof (cstr_app pre (digits radix v) post Hd0) as C. by rewrite Hpre in C. }
  assert (Hsplit : forall n : nat, 0 <= buf + Z.of_nat n < alen mem -> exists x post, drop (Z.to_nat (buf + Z.of_nat n)) mem = x :: post /\
    Z.of_nat (length post) + buf + Z.of_nat n + 1 = alen mem).
  { intros n Hn. destruct (drop (Z.to_nat (buf + Z.of_nat n)) mem) as [|x post] eqn:Ed; apply (f_equal length) in Ed;
      rewrite length_drop in Ed; unfold alen in *; cbn [length] in Ed; [lia|]. exists x, post. split; [done|lia]. }
  unfold itoa, digits in *. destruct (Z.eqb_spec v 0) as [->|Hne].
  - destruct (Hsplit 0%nat) as (x & post & Ed & Lp); [lia|]. rewrite Z.add_0_r in Ed.
    destruct post as [|y post]; [cbn in Lp; lia|]. exists post.
    assert (Em : mem = pre ++ x :: y :: post) by (unfold pre; by rewrite <- Ed, take_drop).
    assert (E1 : store mem buf 48 = Some (pre ++ 48 :: y :: post)).
    { rewrite Em. transitivity (store (pre ++ x :: y :: post) (alen pre) 48); [by rewrite Hpre|apply store_middle]. }
    rewrite E1. cbn [mbind option_bind]. rewrite <- Hpre.
    replace (alen pre + 1) with (alen (pre ++ [48])) by (unfold alen; rewrite length_app; cbn; lia).
    replace (pre ++ 48 :: y :: post) with ((pre ++ [48]) ++ y :: post) by by rewrite <- app_assoc.
    rewrite store_middle, <- app_assoc. split; [done|]. rewrite Em. unfold alen. rewrite !length_app. cbn. lia.
  - rewrite (digits_loop_spec radix Hr (S (length mem)) 32) by (unfold alen in *; lia). cbn [mbind option_bind].
    set (ds := lsb 32 radix v) in *. unfold alen in Hl. rewrite length_reverse in Hl.
    destruct (Hsplit (length ds)) as (x & post & Ed & Lp); [lia|]. exists post. fold (alen ds) in Ed. rewrite Ed. fold pre.
    rewrite app_assoc. replace (buf + alen ds) with (alen (pre ++ ds)) by (unfold alen in *; rewrite length_app; lia).
    rewrite store_middle. cbn [mbind option_bind]. rewrite <- app_assoc, <- Hpre. split.
    + apply krev_spec; [|unfold alen; lia]. apply Forall_reverse in Hd0. by rewrite reverse_involutive in Hd0.
    + unfold alen in *. rewrite !length_app, length_reverse. cbn [length]. lia.
Qed.

Lemma kputs_spec mem s w : cstr mem s w -> puts mem s = Some w.
Proof.
  intros C. pose proof (cstr_length _ _ _ C) as Hl. assert (Hs : 0 <= s) by apply C. unfold puts.
  assert (Hf : (length w < S (length mem))%nat) by (unfold alen in *; lia). clear Hl.
  replace s with (s + 0) in C by lia. assert (Hi : 0 <= 0) by lia. revert Hi C Hf. generalize 0 at 1 3 4. generalize (S (length mem)).
  intros fuel i _. revert fuel i. induction w as [|c w IH]; intros [|fuel] i C Hf; cbn [length] in Hf; try lia; cbn [puts_loop].
  - by rewrite (cstr_nil _ _ C).
  - apply cstr_cons in C as (-> & Hc & C). cbn [mbind option_bind]. rewrite (proj2 (Z.eqb_neq c 0)) by done.
    rewrite <- Z.add_assoc in C. by rewrite (IH fuel (i + 1) C) by lia.
Qed.

(** ** What [printf] prints *)

(** A format string by its parts, each with its argument. *)
Inductive item :=
  | Lit (c : Z)            (* any other character *)
  | Percent                (* %% *)
  | Hex (v : Z)            (* %x *)
  | HexPad (v : Z)         (* %#x *)
  | Unsigned (v : Z)       (* %u *)
  | Signed (v : Z)         (* %d *)
  | Char (v : Z)           (* %c *)
  | Str (p : Z) (w : list Z).  (* %s, of the string [w] at [p] *)

Definition format_of (i : item) : list Z :=
  match i with
  | Lit c => [c] | Percent => [37; 37] | Hex _ => [37; 120] | HexPad _ => [37; 35; 120] | Unsigned _ => [37; 117]
  | Signed _ => [37; 100] | Char _ => [37; 99] | Str _ _ => [37; 115]
  end.
Definition args_of (i : item) : list Z :=
  match i with
  | Lit _ | Percent => []
  | Hex v | HexPad v | Unsigned v | Signed v | Char v => [v]
  | Str p _ => [p]
  end.

(** What the comment over [printf] says each part prints. *)
Definition text_of (i : item) : list Z :=
  match i with
  | Lit c => [c]
  | Percent => [37]
  | Hex v => digits 16 (u32 v)
  | HexPad v => replicate (8 - length (digits 16 (u32 v))) 48 ++ digits 16 (u32 v)
  | Unsigned v => digits 10 (u32 v)
  | Signed v => if s32 v <? 0 then 45 :: digits 10 (- s32 v) else digits 10 (s32 v)
  | Char v => [u8 v]
  | Str _ w => w
  end.

Definition item_ok (mem : list Z) (i : item) : Prop :=
  match i with Lit c => c <> 0 /\ c <> 37 | Str p w => cstr mem p w | _ => True end.

Lemma zero_pad_spec buf i : 0 <= i <= 8 -> 8 <= alen buf ->
  zero_pad buf i = Some (take (Z.to_nat i) buf ++ replicate (Z.to_nat (8 - i)) 48 ++ drop 8 buf).
Proof.
  intros Hi Hb. unfold zero_pad.
  destruct (for_opt_ind (fun j b => b = take (Z.to_nat i) buf ++ replicate (Z.to_nat (j - i)) 48 ++ drop (Z.to_nat j) buf)
    (Z.to_nat (8 - i)) i (fun i b => store b i 48) buf) as (b & E & ->).
  - rewrite Z.sub_diag. change (replicate (Z.to_nat 0) 48) with (@nil Z). cbn [app]. by rewrite take_drop.
  - intros j b Hj ->. eexists. split; [|reflexivity].
    destruct (drop (Z.to_nat j) buf) as [|x post] eqn:Ed.
    { apply (f_equal length) in Ed. rewrite length_drop in Ed. unfold alen in *. cbn in Ed. lia. }
    set (pre := take (Z.to_nat i) buf ++ replicate (Z.to_nat (j - i)) 48). rewrite app_assoc. fold pre.
    assert (Hp : alen pre = j) by (unfold pre, alen in *; rewrite length_app, length_take, length_replicate; lia).
    rewrite <- Hp at 1. rewrite store_middle. unfold pre. rewrite <- app_assoc. do 2 f_equal.
    replace (Z.to_nat (j + 1 - i)) with (Z.to_nat (j - i) + 1)%nat by lia. rewrite replicate_add, <- app_assoc. cbn [replicate app].
    do 2 f_equal. replace (Z.to_nat (j + 1)) with (Z.to_nat j + 1)%nat by lia. by rewrite <- drop_drop, Ed.
  - rewrite E. replace (i + Z.of_nat (Z.to_nat (8 - i))) with 8 by lia. done.
Qed.

Section conversions.
Context (mem conv : list Z) (Hconv : alen conv = 64).

Lemma take_conv : alen (take 36 conv) = 36.
Proof. unfold alen in *. rewrite length_take. lia. Qed.

Lemma print_plain v radix buf : 0 <= v < 2 ^ 32 -> 2 <= radix <= 36 -> 33 <= alen buf ->
  (b ← itoa v buf 0 radix; puts b 0) = Some (digits radix v).
Proof.
  intros Hv Hr Hb. destruct (kitoa_spec v radix buf 0) as (b & -> & _ & _ & C); [lia..|]. cbn [mbind option_bind].
  by apply kputs_spec.
Qed.

Lemma print_hex_pad v : print_hex conv true v = Some (text_of (HexPad v)).
Proof.
  unfold print_hex. pose proof (u32_range v) as Hv. set (n := u32 v) in *.
  destruct (kitoa_spec n 16 conv 8) as (b & -> & Lb & _ & C); [lia..|]. cbn [mbind option_bind].
  change (text_of (HexPad v)) with (replicate (8 - length (digits 16 n)) 48 ++ digits 16 n). set (w := digits 16 n) in *.
  assert (Hw : (length w <= 8)%nat).
  { unfold w, digits. destruct (n =? 0); [cbn; lia|]. rewrite length_reverse. apply lsb_length; [lia|]. exact (proj2 Hv). }
  pose proof (cstr_length _ _ _ C) as Hl.
  unfold strlen. rewrite (strlen_loop_spec w); [|exact C|unfold alen in *; lia|lia|unfold alen; lia].
  rewrite Z.add_0_l. cbn [mbind option_bind]. rewrite zero_pad_spec by (unfold alen in *; lia). cbn [mbind option_bind].
  apply kputs_spec. destruct C as (_ & Hnz & E). split; [unfold alen; lia|]. split.
  { apply list.Forall_app. split; [|done]. apply Forall_replicate. lia. }
  unfold alen. rewrite Nat2Z.id.
  assert (Ht : length (take (length w) b) = length w) by (rewrite length_take; unfold alen in *; lia).
  rewrite drop_app_ge, Ht, Nat.sub_diag, drop_0 by lia.
  replace (Z.to_nat (8 - Z.of_nat (length w))) with (8 - length w)%nat by lia.
  rewrite length_app, length_replicate. rewrite take_app_ge by (rewrite length_replicate; lia).
  rewrite length_replicate, <- app_assoc. f_equal.
  replace (S (8 - length w + length w) - (8 - length w))%nat with (S (length w)) by lia. exact E.
Qed.

Lemma print_signed_spec v : print_signed conv v = Some (text_of (Signed v)).
Proof.
  unfold print_signed. cbv zeta. cbn [text_of]. pose proof (s32_bounds v) as Hv. destruct (Z.ltb_spec (s32 v) 0).
  - rewrite store_Some by (rewrite take_conv; lia). cbn [mbind option_bind].
    rewrite (u32_small (- s32 v)) by lia.
    destruct (kitoa_spec (- s32 v) 10 (aset (take 36 conv) 0 45) 1) as (b & -> & Lb & Tb & C);
      [lia|lia|lia|rewrite alen_aset, take_conv; lia|]. cbn [mbind option_bind].
    apply kputs_spec. destruct C as (_ & Hnz & E). split; [lia|]. split; [by constructor|].
    rewrite alen_aset, take_conv in Lb. destruct b as [|c b]; [discriminate Lb|].
    change (take 1 (c :: b) = take 1 (aset (take 36 conv) 0 45)) in Tb. destruct conv as [|c0 conv']; [done|].
    cbn in Tb. injection Tb as ->. change (drop (Z.to_nat 1) (45 :: b)) with (drop 0 b) in E. rewrite drop_0 in E.
    change (45 :: take (S (length (digits 10 (- s32 v)))) b = 45 :: (digits 10 (- s32 v) ++ [0])). by rewrite E.
  - rewrite (u32_small (s32 v)) by lia. apply print_plain; [lia|lia|rewrite take_conv; lia].
Qed.

Lemma conversion_spec i fuel pre post more : item_ok mem i -> (2 <= fuel)%nat ->
  (forall c, i <> Lit c) ->
  conversion mem conv fuel (pre ++ format_of i ++ post) (alen pre + 1) false (args_of i ++ more) =
    Some (text_of i, more, alen pre + alen (format_of i) - 1).
Proof.
  intros Hok Hf Hlit.
  assert (L : forall c d l, load (pre ++ c :: d :: l) (alen pre + 1) = Some d).
  { intros c d l. replace (alen pre + 1) with (alen (pre ++ [c])) by (unfold alen; rewrite length_app; cbn; lia).
    replace (pre ++ c :: d :: l) with ((pre ++ [c]) ++ d :: l) by by rewrite <- app_assoc. apply load_middle. }
  destruct fuel as [|[|fuel]]; [lia|lia|].
  destruct i as [c| |v|v|v|v|v|p w]; [by destruct (Hlit c)|..]; cbn [format_of args_of app conversion];
    rewrite L; cbn [mbind option_bind Z.eqb Pos.eqb next_arg].
  - repeat f_equal; unfold alen; cbn; lia.
  - unfold print_hex. rewrite print_plain by (rewrite ?Hconv; pose proof (u32_range v); lia). cbn [mbind option_bind].
    repeat f_equal; unfold alen; cbn; lia.
  - replace (alen pre + 1 + 1) with (alen (pre ++ [37]) + 1) by (unfold alen; rewrite length_app; cbn; lia).
    assert (load (pre ++ 37 :: 35 :: 120 :: post) (alen (pre ++ [37]) + 1) = Some 120) as ->.
    { replace (alen (pre ++ [37]) + 1) with (alen (pre ++ [37; 35])) by (unfold alen; rewrite !length_app; cbn; lia).
      replace (pre ++ 37 :: 35 :: 120 :: post) with ((pre ++ [37; 35]) ++ 120 :: post) by by rewrite <- app_assoc. apply load_middle. }
    cbn [mbind option_bind Z.eqb Pos.eqb next_arg]. rewrite print_hex_pad. cbn [mbind option_bind].
    do 2 f_equal. unfold alen. rewrite length_app. cbn. lia.
  - unfold print_unsigned. rewrite print_plain by (rewrite ?take_conv; pose proof (u32_range v); lia). cbn [mbind option_bind].
    repeat f_equal; unfold alen; cbn; lia.
  - rewrite print_signed_spec. cbn [mbind option_bind]. repeat f_equal; unfold alen; cbn; lia.
  - repeat f_equal; unfold alen; cbn; lia.
  - rewrite (kputs_spec _ _ w Hok). cbn [mbind option_bind]. repeat f_equal; unfold alen; cbn; lia.
Qed.

Lemma printf_loop_spec its : Forall (item_ok mem) its -> forall fuel pre post more, (length (flat_map format_of its) < fuel)%nat ->
  printf_loop mem conv fuel (pre ++ flat_map format_of its ++ 0 :: post) (alen pre) (flat_map args_of its ++ more) =
    Some (flat_map text_of its, alen pre + alen (flat_map format_of its)).
Proof.
  induction 1 as [|i its Hi His IH]; intros [|fuel] pre post more Hf; cbn [flat_map] in *; try (cbn in Hf; lia).
  - cbn [app printf_loop]. rewrite load_middle. cbn. unfold alen. cbn. by rewrite Z.add_0_r.
  - rewrite length_app in Hf. cbn [printf_loop]. rewrite <- !app_assoc.
    assert (Hnext : forall fuel', (length (flat_map format_of its) < fuel')%nat ->
      printf_loop mem conv fuel' (pre ++ format_of i ++ flat_map format_of its ++ 0 :: post) (alen (pre ++ format_of i))
        (flat_map args_of its ++ more) = Some (flat_map text_of its, alen pre + alen (format_of i) + alen (flat_map format_of its))).
    { intros fuel' Hf'. rewrite app_assoc. rewrite IH by done. f_equal. f_equal. unfold alen. rewrite length_app. lia. }
    assert (Hal : alen (pre ++ format_of i) = alen pre + alen (format_of i)) by (unfold alen; rewrite length_app; lia).
    rewrite Hal in Hnext. rewrite alen_app, Z.add_assoc.
    assert (Hcase : (exists c, i = Lit c) \/ forall c, i <> Lit c) by (destruct i; [left; eauto|right; done..]).
    destruct Hcase as [(c & ->)|Hl].
    + destruct Hi as [H0 H37]. cbn [format_of args_of text_of app] in *. rewrite load_middle. cbn [mbind option_bind].
      rewrite (proj2 (Z.eqb_neq c 0)), (proj2 (Z.eqb_neq c 37)) by done. change (alen [c]) with 1 in Hnext.
      rewrite Hnext by (cbn in Hf; lia). done.
    + assert (H37 : exists r, format_of i = 37 :: r /\ r <> []).
      { destruct i as [c| | | | | | |]; [by destruct (Hl c)|..]; by eexists. }
      destruct H37 as (r & Er & Hr). assert (load (pre ++ format_of i ++ flat_map format_of its ++ 0 :: post) (alen pre) = Some 37) as ->.
      { rewrite Er. apply load_middle. }
      cbn [mbind option_bind Z.eqb Pos.eqb].
      rewrite conversion_spec by (done || (rewrite length_app, Er; destruct r; cbn; [done|]; lia) || (rewrite length_app, length_app, Er; destruct r; [done|]; cbn; lia)).
      cbn [mbind option_bind]. replace (alen pre + alen (format_of i) - 1 + 1) with (alen pre + alen (format_of i)) by lia.
      rewrite Hnext by (rewrite Er in Hf; cbn in Hf; lia). done.
Qed.
End conversions.

(** C34: ** [printf] prints what its comment says

    For any sequence of parts, with the words of their arguments on the stack: literal
    characters, [%%], numbers in hexadecimal, padded to eight digits with [#], unsigned
    and signed (the least integer included), characters and strings. The answer is the
    length of the format; the conversion buffers are large enough. *)
Theorem printf_prints (mem conv : list Z) (its : list item) (post more : list Z) :
  alen conv = 64 -> Forall (item_ok mem) its ->
  printf mem conv (flat_map format_of its ++ 0 :: post) (flat_map args_of its ++ more) =
    Some (flat_map text_of its, alen (flat_map format_of its)) /\
  (forall v, 0 <= v < 2 ^ 32 -> numeral 16 (digits 16 v) = v /\ numeral 10 (digits 10 v) = v).
Proof.
  intros Hc Hok. split.
  - apply (printf_loop_spec mem conv Hc its Hok (S (length (flat_map format_of its ++ 0 :: post))) [] post more).
    rewrite length_app. lia.
  - intros v Hv. split; apply digits_spec; lia.
Qed.

Lemma printf_prints_witness :
  printf [104; 105; 0] (replicate 64 1) [120; 61; 37; 35; 120; 32; 37; 100; 37; 115; 0; 9] [255; -2147483648; 0] =
    Some ([120; 61; 48; 48; 48; 48; 48; 48; 70; 70; 32; 45; 50; 49; 52; 55; 52; 56; 51; 54; 52; 56; 104; 105], 10).
Proof.
  destruct (printf_prints [104; 105; 0] (replicate 64 1)
    [Lit 120; Lit 61; HexPad 255; Lit 32; Signed (-2147483648); Str 0 [104; 105]] [9] []) as [E _].
  - reflexivity.
  - repeat first [apply list.Forall_nil | apply list.Forall_cons; split]; cbn; try lia; try done.
    split; [lia|]. split; [|reflexivity]. repeat first [apply list.Forall_nil | apply list.Forall_cons; split]; lia.
  - exact E.
Defined.

(** [strcpy] is that of the programs, which store the NUL in the loop. *)
Lemma strcpy_same mem dest src : strcpy mem dest src = UserLib.strcpy mem dest src.
Proof.
  assert (L : forall fuel mem i, strcpy_loop fuel mem dest src i = UserLib.strcpy_loop fuel mem (dest + i) (src + i)).
  { induction fuel as [|fuel IH]; intros m i; [done|]. cbn [strcpy_loop UserLib.strcpy_loop].
    destruct (load m (src + i)) as [c|]; [|done]. cbn [mbind option_bind]. destruct (Z.eqb_spec c 0) as [->|].
    - by destruct (store m (dest + i) 0).
    - destruct (store m (dest + i) c) as [m'|]; [|done]. cbn [mbind option_bind]. by rewrite IH, !Z.add_assoc. }
  unfold strcpy, UserLib.strcpy. by rewrite L, !Z.add_0_r.
Qed.

(** A percent sign at the end of a format: the switch takes the NUL, and the loop goes on
    behind it. *)
Lemma trailing_percent_overruns mem conv args : printf mem conv [37; 0] args = None.
Proof. reflexivity. Qed.

(** The fallback console never goes to the next line by itself: the column is reduced
    before it is divided. *)
Lemma orig_putc_never_wraps s c : c <> 10 -> c <> 13 -> 0 <= screen_x s < NUM_COLS -> 0 <= screen_y s < NUM_ROWS ->
  screen_y (orig_putc s c) = screen_y s.
Proof.
  unfold orig_putc, NUM_COLS, NUM_ROWS. intros H1 H2 Hx Hy.
  rewrite (proj2 (Z.eqb_neq c 10)), (proj2 (Z.eqb_neq c 13)) by done. cbn [orb screen_y].
  pose proof (Z.rem_bound_pos (screen_x s + 1) 80). rewrite Z.quot_small, Z.add_0_r by lia. by apply Z.rem_small.
Qed.

(** ** The memory routines do what they stand for *)

(** The references: filling and copying byte by byte, by address. *)
Definition filled (m : memory) (s c n : Z) (a : Z) : Z := if decide (s <= a < s + n) then u8 c else m a.
Definition copied (m : memory) (dest src n : Z) (a : Z) : Z :=
  if decide (dest <= a < dest + n) then m (src + (a - dest)) else m a.

Lemma store32_spec m a v b : store32 m a v b =
  if decide (a <= b < a + 4) then u8 (v / 2 ^ (8 * (b - a))) else m b.
Proof.
  unfold store32, upd. case_decide as Hb; [|case_cmp; lia || done].
  assert (b = a + 0 \/ b = a + 1 \/ b = a + 2 \/ b = a + 3) as [->|[->|[->| ->]]] by lia;
    case_cmp; try lia; rewrite Z.add_simpl_l; [by rewrite Z.div_1_r|reflexivity..].
Qed.

Lemma stosl_spec n : forall m edi eax, (forall k, 0 <= k < 4 -> u8 (eax / 2 ^ (8 * k)) = u8 eax) ->
  (stosl n m edi eax).2 = edi + 4 * Z.of_nat n /\ forall a, (stosl n m edi eax).1 a = filled m edi eax (4 * Z.of_nat n) a.
Proof.
  induction n as [|n IH]; intros m edi eax He; cbn [stosl].
  - split; [cbn; lia|]. intros a. unfold filled. by rewrite decide_False by lia.
  - destruct (IH (store32 m edi eax) (edi + 4) eax He) as [E1 E2]. split; [rewrite E1; lia|]. intros a. rewrite E2.
    unfold filled. rewrite store32_spec. repeat case_decide; try lia; try done. apply He. lia.
Qed.

Lemma stosb_spec n : forall m edi eax a, stosb n m edi eax a = filled m edi eax (Z.of_nat n) a.
Proof.
  induction n as [|n IH]; intros m edi eax a; cbn [stosb]; unfold filled.
  - by rewrite decide_False by lia.
  - rewrite IH. unfold filled, upd. repeat case_decide; case_cmp; try lia; done.
Qed.

Lemma memset_top_spec ecx : forall m edi eax a, (forall k, 0 <= k < 4 -> u8 (eax / 2 ^ (8 * k)) = u8 eax) ->
  memset_top ecx m edi eax a = filled m edi eax (Z.of_nat ecx) a.
Proof.
  induction ecx as [|ecx IH]; intros m edi eax a He; cbn [memset_top]; [by unfold filled; rewrite decide_False by lia|].
  destruct (Z.land edi 3 =? 0).
  - pose proof (Nat.div_mod_eq (S ecx) 4) as Hdm. set (q := (S ecx / 4)%nat) in *. set (r := (S ecx mod 4)%nat) in *.
    destruct (stosl_spec q m edi eax He) as [E1 E2]. destruct (stosl q m edi eax) as [m' edi']. cbn [fst snd] in *. subst edi'.
    rewrite stosb_spec. unfold filled in *. rewrite E2. repeat case_decide; try lia; done.
  - rewrite IH by done. unfold filled, upd. repeat case_decide; case_cmp; try lia; done.
Qed.

Lemma memset_eax c k : 0 <= c < 256 -> 0 <= k < 4 ->
  let eax := Z.lor (Z.lor (Z.lor (Z.shiftl c 24) (Z.shiftl c 16)) (Z.shiftl c 8)) c in u8 (eax / 2 ^ (8 * k)) = c.
Proof.
  intros Hc Hk. cbv zeta.
  pose (f c k := u8 (Z.lor (Z.lor (Z.lor (Z.shiftl c 24) (Z.shiftl c 16)) (Z.shiftl c 8)) c / 2 ^ (8 * k)) =? c).
  assert (Hf : forallb (fun c => forallb (f c) (seqZ 0 4)) (seqZ 0 256) = true) by (vm_compute; reflexivity).
  assert (Hin : In c (seqZ 0 256)) by (apply list_elem_of_In, elem_of_seqZ; lia).
  rewrite forallb_forall in Hf. specialize (Hf c Hin). clear Hin.
  assert (Hin : In k (seqZ 0 4)) by (apply list_elem_of_In, elem_of_seqZ; lia).
  rewrite forallb_forall in Hf. specialize (Hf k Hin).
  by apply Z.eqb_eq.
Qed.

Lemma load32_byte m a k : (forall a, 0 <= m a < 256) -> 0 <= k < 4 -> u8 (load32 m a / 2 ^ (8 * k)) = m (a + k).
Proof.
  intros Hm Hk. pose proof (Hm a). pose proof (Hm (a + 1)). pose proof (Hm (a + 2)). pose proof (Hm (a + 3)).
  unfold load32, u8. assert (k = 0 \/ k = 1 \/ k = 2 \/ k = 3) as [->|[->|[->| ->]]] by lia;
    rewrite ?Z.add_0_r; cbn [Z.mul Pos.mul]; zdiv.
Qed.

(** Dword by dword from an aligned or unaligned source, as long as the destination is not
    ahead of the source within the block. *)
Lemma movsl_spec n : forall m edi esi, (forall a, 0 <= m a < 256) ->
  edi + 4 * Z.of_nat n <= esi \/ esi + 4 * Z.of_nat n <= edi ->
  (movsl n m edi esi).1.2 = edi + 4 * Z.of_nat n /\ (movsl n m edi esi).2 = esi + 4 * Z.of_nat n /\
  forall a, (movsl n m edi esi).1.1 a = copied m edi esi (4 * Z.of_nat n) a.
Proof.
  induction n as [|n IH]; intros m edi esi Hm Hd; cbn [movsl].
  - split; [cbn; lia|]. split; [cbn; lia|]. intros a. unfold copied. by rewrite decide_False by lia.
  - assert (Hs : forall a, store32 m edi (load32 m esi) a = copied m edi esi 4 a).
    { intros a. rewrite store32_spec. unfold copied. case_decide; [|done]. apply load32_byte; [done|lia]. }
    destruct (IH (store32 m edi (load32 m esi)) (edi + 4) (esi + 4)) as (E1 & E2 & E3); [|lia|].
    { intros a. rewrite Hs. unfold copied. case_decide; apply Hm. }
    split; [rewrite E1; lia|]. split; [rewrite E2; lia|]. intros a. rewrite E3. unfold copied at 1. rewrite !Hs.
    unfold copied. repeat case_decide; try lia; f_equal; lia.
Qed.

Lemma movsb_spec n : forall m edi esi, edi + Z.of_nat n <= esi \/ esi + Z.of_nat n <= edi \/ edi <= esi ->
  forall a, movsb n m edi esi 1 a = copied m edi esi (Z.of_nat n) a.
Proof.
  induction n as [|n IH]; intros m edi esi Hd a; cbn [movsb]; unfold copied.
  - by rewrite decide_False by lia.
  - rewrite IH by lia. unfold copied, upd. repeat case_decide; case_cmp; try lia; try done; f_equal; lia.
Qed.

Lemma movsb_back n : forall m edi esi, esi < edi ->
  forall a, movsb n m edi esi (-1) a = copied m (edi - Z.of_nat n + 1) (esi - Z.of_nat n + 1) (Z.of_nat n) a.
Proof.
  induction n as [|n IH]; intros m edi esi Hd a; cbn [movsb]; unfold copied.
  - by rewrite decide_False by lia.
  - rewrite IH by lia. unfold copied, upd. repeat case_decide; case_cmp; try lia; try done; f_equal; lia.
Qed.

Lemma memcpy_top_spec ecx : forall m edi esi, (forall a, 0 <= m a < 256) ->
  edi + Z.of_nat ecx <= esi \/ esi + Z.of_nat ecx <= edi ->
  forall a, memcpy_top ecx m edi esi a = copied m edi esi (Z.of_nat ecx) a.
Proof.
  induction ecx as [|ecx IH]; intros m edi esi Hm Hd a; cbn [memcpy_top]; [by unfold copied; rewrite decide_False by lia|].
  destruct (Z.land edi 3 =? 0).
  - pose proof (Nat.div_mod_eq (S ecx) 4) as Hdm. set (q := (S ecx / 4)%nat) in *. set (r := (S ecx mod 4)%nat) in *.
    destruct (movsl_spec q m edi esi Hm ltac:(lia)) as (E1 & E2 & E3). destruct (movsl q m edi esi) as [[m' edi'] esi'].
    cbn [fst snd] in *. subst edi' esi'. rewrite movsb_spec by lia. unfold copied in *. rewrite !E3.
    repeat case_decide; try lia; try done; f_equal; lia.
  - rewrite IH; [|intros b; unfold upd; case_cmp; apply Hm|lia].
    unfold copied, upd. repeat case_decide; case_cmp; try lia; try done; f_equal; lia.
Qed.

(** C33: ** The routines in assembly are the plain loops

    Whatever the alignment: [memset] stores the low byte of its argument in [n] bytes and
    nowhere else, [memcpy] copies between blocks that do not overlap, and [memmove] copies
    between any two, as if the whole source were read first. Going backwards it leaves the
    direction flag set. *)
Theorem memory_routines (m : memory) (dest src c n : Z) :
  (forall a, 0 <= m a < 256) -> 0 <= n < 2 ^ 32 ->
  (forall a, memset m dest c n a = filled m dest c n a) /\
  (dest + n <= src \/ src + n <= dest -> forall a, memcpy m dest src n a = copied m dest src n a) /\
  (forall a, (memmove m dest src n).1 a = copied m dest src n a) /\
  ((memmove m dest src n).2 = true <-> src < dest).
Proof.
  intros Hm Hn. split; [|split; [|split]].
  - intros a. unfold memset. cbv zeta. set (b := Z.land c 0xFF).
    assert (Hb : b = u8 c) by (unfold b, u8; change 0xFF with (Z.ones 8); by apply Z.land_ones).
    pose proof (u8_range c) as Hc. rewrite <- Hb in Hc. change (2 ^ 8) with 256 in Hc.
    pose proof (fun k Hk => memset_eax b k Hc Hk) as He. cbv zeta in He.
    set (eax := Z.lor _ b) in *. assert (He0 : u8 eax = b) by (specialize (He 0 ltac:(lia)); by rewrite Z.div_1_r in He).
    rewrite memset_top_spec by (intros k Hk; by rewrite He, He0). unfold filled.
    rewrite Z2Nat.id, He0, Hb by lia. done.
  - intros Hd a. unfold memcpy. rewrite memcpy_top_spec by (rewrite ?Z2Nat.id by lia; done || lia). by rewrite Z2Nat.id by lia.
  - intros a. unfold memmove. destruct (Z.leb_spec dest src); cbn [fst].
    + rewrite movsb_spec by lia. by rewrite Z2Nat.id by lia.
    + rewrite movsb_back by lia. rewrite Z2Nat.id by lia.
      replace (dest + n - 1 - n + 1) with dest by lia. by replace (src + n - 1 - n + 1) with src by lia.
  - unfold memmove. destruct (Z.leb_spec dest src); cbn [snd]; split; intros; try done; lia.
Qed.

Lemma memory_routines_witness :
  (forall a, memset (fun a => a mod 256) 5 0x141 9 a = filled (fun a => a mod 256) 5 0x141 9 a) /\
  (forall a, memcpy (fun a => a mod 256) 5 100 9 a = copied (fun a => a mod 256) 5 100 9 a) /\
  (forall a, (memmove (fun a => a mod 256) 7 5 9).1 a = copied (fun a => a mod 256) 7 5 9 a).
Proof.
  assert (Hm : forall a : Z, 0 <= (fun a => a mod 256) a < 256) by (intros a; apply Z.mod_pos_bound; lia).
  split; [|split].
  - apply (memory_routines (fun a => a mod 256) 5 100 0x141 9 Hm); lia.
  - apply (memory_routines (fun a => a mod 256) 5 100 0x141 9 Hm); lia.
  - apply (memory_routines (fun a => a mod 256) 7 5 0 9 Hm); lia.
Defined.

End KLib.
