(* ===== verification/ArrFile.v ===== *)
(** * Files of arrays (student-distrib/klibs/arrFile.cpp)

    The assets of the user interface are files that hold an array of byte arrays. The
    parser reads the file in memory: a byte at an address, nothing outside of what was
    allocated. Pointers are 32-bit words. *)
From stdpp Require Import prelude list numbers.
From Stdlib Require Import ZArith Lia.
From S2P Require Import Prelude.

Module ArrFile.

(** "\1carray\1file\1" and "\x55\xaa", with their NULs. *)
Definition magic : list Z := [1; 99; 97; 114; 114; 97; 121; 1; 102; 105; 108; 101; 1; 0].
Definition ending : list Z := [0x55; 0xaa; 0].

(** [ArrFile]: the arrays of lengths and of pointers; [nullptr] is [None]. *)
Record t := mk {
  _length : Z;
  _subArrLength : list Z;
  _subArr : list (option Z) }.

Section parser.
Context (rd : Z -> option Z).

(** [strncmp(s, p, n)] (klibs/lib.cpp) of a constant string, from index [i] on. *)
Fixpoint strncmp (n : nat) (s : list Z) (p i : Z) : option Z :=
  match n with
  | O => Some 0
  | S n =>
      a ← anth s i; b ← rd (u32 (p + i));
      if negb (a =? b) || (a =? 0) then Some (s8 a - s8 b) else strncmp n s p (i + 1)
  end.

(** [*((uint32_t * ) p)] *)
Definition word (p : Z) : option Z :=
  b0 ← rd p; b1 ← rd (u32 (p + 1)); b2 ← rd (u32 (p + 2)); b3 ← rd (u32 (p + 3));
  Some (b0 + b1 * 2 ^ 8 + b2 * 2 ^ 16 + b3 * 2 ^ 24).

(** The loop over the objects: the lengths and pointers so far. [Some None] is the return
    of [nullptr] at a missing ending. *)
Fixpoint objects_loop (n : nat) (ptr : Z) (lengths : list Z) (subs : list (option Z))
    : option (option (list Z * list (option Z))) :=
  match n with
  | O => Some (Some (lengths, subs))
  | S n =>
      len ← word ptr;
      let ptr := u32 (ptr + 4) in
      let sub := if len =? 0 then None else Some ptr in
      let ptr := u32 (ptr + len) in
      e ← strncmp 2 ending ptr 0;
      if negb (e =? 0) then Some None
      else objects_loop n (u32 (ptr + 2)) (lengths ++ [len]) (subs ++ [sub])
  end.

Definition getInstance (ptr : Z) : option (option t) :=
  e ← strncmp 13 magic ptr 0;
  if negb (e =? 0) then Some None
  else
    let ptr := u32 (ptr + 13) in
    n ← word ptr;
    let ptr := u32 (ptr + 4) in
    r ← objects_loop (Z.to_nat n) ptr [] [];
    Some (match r with Some (lengths, subs) => Some (mk n lengths subs) | None => None end).
End parser.

(** [operator []] *)
Definition index (a : t) (idx : Z) : option (option Z) :=
  if u32 (_length a - 1) <? idx then Some None else anth (_subArr a) idx.

Definition length (a : t) : Z := _length a.

(** [copy] onto an object whose [_length] is [len]: it is not set from [rhs]. Reading past
    the arrays of [rhs] is a fault. *)
Definition copy (len : Z) (rhs : t) : option t :=
  if (len <=? alen (_subArrLength rhs)) && (len <=? alen (_subArr rhs))
  then Some (mk len (take (Z.to_nat len) (_subArrLength rhs)) (take (Z.to_nat len) (_subArr rhs)))
  else None.

Definition assign (a rhs : t) : option t := copy (_length a) rhs.

(** ** The format *)

Definition le32 (v : Z) : list Z := [u8 v; u8 (v / 2 ^ 8); u8 (v / 2 ^ 16); u8 (v / 2 ^ 24)].
Definition encode_object (o : list Z) : list Z := le32 (alen o) ++ o ++ [0x55; 0xaa].
Definition encode (objs : list (list Z)) : list Z :=
  take 13 magic ++ le32 (alen objs) ++ flat_map encode_object objs.

(** The bytes [l] are at the address [p]. *)
Definition holds (rd : Z -> option Z) (p : Z) (l : list Z) : Prop :=
  forall i : nat, (i < List.length l)%nat -> rd (p + Z.of_nat i) = l !! i.

Section laws.
Context (rd : Z -> option Z).

Lemma holds_app p l k : holds rd p (l ++ k) <-> holds rd p l /\ holds rd (p + alen l) k.
Proof.
  unfold holds, alen. split.
  - intros Ha. split; intros i Hi.
    + rewrite Ha by (rewrite length_app; lia). by apply lookup_app_l.
    + replace (p + Z.of_nat (List.length l) + Z.of_nat i) with (p + Z.of_nat (List.length l + i)) by lia.
      rewrite Ha by (rewrite length_app; lia). rewrite lookup_app_r by lia. f_equal. lia.
  - intros [Hl Hk] i Hi. rewrite length_app in Hi. destruct (decide (i < List.length l)%nat).
    + rewrite Hl by done. by rewrite lookup_app_l.
    + rewrite lookup_app_r by lia. rewrite <- Hk by lia. f_equal. lia.
Qed.

Lemma holds_cons p b l : holds rd p (b :: l) -> rd p = Some b /\ holds rd (p + 1) l.
Proof.
  intros Hb. apply (holds_app p [b] l) in Hb as [H1 H2]. split; [|exact H2].
  specialize (H1 O ltac:(cbn; lia)). by rewrite Z.add_0_r in H1.
Qed.

Lemma strncmp_same n : forall s p i, Forall (fun c => c <> 0) (take n (drop (Z.to_nat i) s)) ->
  holds rd (p + i) (take n (drop (Z.to_nat i) s)) -> 0 <= i -> (Z.to_nat i + n <= List.length s)%nat ->
  0 <= p -> p + i + Z.of_nat n <= 2 ^ 32 -> strncmp rd n s p i = Some 0.
Proof.
  induction n as [|n IH]; intros s p i Hnz Hh Hi Hl Hp Hb; cbn [strncmp]; [done|].
  destruct (drop (Z.to_nat i) s) as [|c l] eqn:Ed.
  { apply (f_equal List.length) in Ed. rewrite length_drop in Ed. cbn in Ed. lia. }
  assert (Hc : s !! Z.to_nat i = Some c) by (rewrite <- (Nat.add_0_r (Z.to_nat i)), <- lookup_drop, Ed; done).
  cbn [take] in *. apply list.Forall_cons in Hnz as [Hc0 Hnz]. apply holds_cons in Hh as [Hr Hh].
  unfold anth. rewrite (proj2 (Z.leb_le 0 i)), Hc by lia. cbn [mbind option_bind].
  rewrite u32_small, Hr by lia. cbn [mbind option_bind]. rewrite Z.eqb_refl, (proj2 (Z.eqb_neq c 0)) by done. cbn [negb orb].
  assert (Ed' : drop (Z.to_nat (i + 1)) s = l).
  { replace (Z.to_nat (i + 1)) with (Z.to_nat i + 1)%nat by lia. by rewrite <- drop_drop, Ed. }
  apply IH; rewrite ?Ed'; [done| |lia..]. by replace (p + (i + 1)) with (p + i + 1) by lia.
Qed.

Lemma word_le32 p v : holds rd p (le32 v) -> 0 <= v < 2 ^ 32 -> 0 <= p -> p + 4 <= 2 ^ 32 -> word rd p = Some v.
Proof.
  intros Hh Hv Hp Hb. unfold le32 in Hh. apply holds_cons in Hh as [E0 Hh]. apply holds_cons in Hh as [E1 Hh].
  apply holds_cons in Hh as [E2 Hh]. apply holds_cons in Hh as [E3 _]. unfold word. rewrite E0. cbn [mbind option_bind].
  rewrite (u32_small (p + 1)), E1 by lia. cbn [mbind option_bind].
  rewrite (u32_small (p + 2)) by lia. replace (p + 2) with (p + 1 + 1) by lia. rewrite E2. cbn [mbind option_bind].
  rewrite (u32_small (p + 3)) by lia. replace (p + 3) with (p + 1 + 1 + 1) by lia. rewrite E3. cbn [mbind option_bind].
  f_equal. unfold u8. zdiv.
Qed.

Lemma alen_le32 v : alen (le32 v) = 4.
Proof. done. Qed.

(** Where the objects lie. *)
Fixpoint places (p : Z) (objs : list (list Z)) : list (option Z) :=
  match objs with
  | [] => []
  | o :: objs => (if alen o =? 0 then None else Some (p + 4)) :: places (p + 4 + alen o + 2) objs
  end.

Lemma objects_loop_spec objs : forall p lengths subs, holds rd p (flat_map encode_object objs) ->
  0 <= p -> p + alen (flat_map encode_object objs) < 2 ^ 32 -> Forall (fun o => alen o < 2 ^ 32) objs ->
  objects_loop rd (List.length objs) p lengths subs = Some (Some (lengths ++ (alen <$> objs), subs ++ places p objs)).
Proof.
  induction objs as [|o objs IH]; intros p lengths subs Hh Hp Hb Hs; cbn [List.length objects_loop places fmap list_fmap].
  - by rewrite !app_nil_r.
  - cbn [flat_map] in Hh, Hb. apply list.Forall_cons in Hs as [Ho Hs]. rewrite alen_app in Hb.
    unfold encode_object in Hh, Hb. fold encode_object in Hh, Hb. rewrite !alen_app, alen_le32 in Hb.
    change (alen [0x55; 0xaa]) with 2 in Hb. pose proof (alen_nonneg o). pose proof (alen_nonneg (flat_map encode_object objs)).
    rewrite <- !app_assoc in Hh. apply holds_app in Hh as [H1 Hh]. apply holds_app in Hh as [H2 Hh]. apply holds_app in Hh as [H3 Hh].
    rewrite alen_le32 in *. change (alen [0x55; 0xaa]) with 2 in Hh.
    rewrite (word_le32 p (alen o)) by (done || lia). cbn [mbind option_bind]. cbv zeta.
    rewrite (u32_small (p + 4)), (u32_small (p + 4 + alen o)) by lia.
    rewrite (strncmp_same 2 ending (p + 4 + alen o) 0);
      [|cbn; repeat (constructor; [lia|]); constructor|by rewrite Z.add_0_r|lia|cbn; lia|lia|lia].
    cbn [mbind option_bind negb Z.eqb]. rewrite (u32_small (p + 4 + alen o + 2)) by lia.
    rewrite IH by (done || lia). by rewrite <- !app_assoc.
Qed.

Lemma places_spec objs : forall p i o, holds rd p (flat_map encode_object objs) -> objs !! i = Some o ->
  exists sub, places p objs !! i = Some sub /\
    match sub with None => o = [] | Some q => o <> [] /\ holds rd q o end.
Proof.
  induction objs as [|o' objs IH]; intros p [|i] o Hh Hi; try done; cbn in Hi; cbn [places lookup list_lookup flat_map] in *;
    unfold encode_object in Hh; fold encode_object in Hh; rewrite <- !app_assoc in Hh;
    apply holds_app in Hh as [H1 Hh]; apply holds_app in Hh as [H2 Hh]; apply holds_app in Hh as [H3 Hh];
    rewrite alen_le32 in *.
  - injection Hi as ->. eexists. split; [done|]. destruct (Z.eqb_spec (alen o) 0) as [E|E].
    + by destruct o.
    + split; [by intros ->|done].
  - apply (IH _ i o Hh Hi).
Qed.
End laws.

(** C40: ** The parser reads the format

    A file that holds the arrays [objs] in the format that the header describes is
    accepted, wherever it lies in memory and whatever follows it: it has as many elements,
    and each element is a pointer to its bytes, [nullptr] for an empty one. When there is
    at least one array, an index past the end gives [nullptr]; without any, the bound wraps
    and the index operator reads past the table ([empty_file_index_faults]). *)
Theorem arrfile_roundtrip (rd : Z -> option Z) (p : Z) (objs : list (list Z)) :
  holds rd p (encode objs) -> 0 <= p -> p + alen (encode objs) < 2 ^ 32 ->
  exists a, getInstance rd p = Some (Some a) /\ length a = alen objs /\
    (forall i o, objs !! i = Some o -> exists sub, index a (Z.of_nat i) = Some sub /\
       match sub with None => o = [] | Some q => o <> [] /\ holds rd q o end) /\
    (objs <> [] -> forall idx, alen objs <= idx < 2 ^ 32 -> index a idx = Some None).
Proof.
  intros Hh Hp Hb. unfold encode in *. apply holds_app in Hh as [H1 Hh]. apply holds_app in Hh as [H2 Hh].
  rewrite !alen_app in Hb. change (alen (take 13 magic)) with 13 in *. rewrite alen_le32 in *.
  assert (Hn : alen objs <= alen (flat_map encode_object objs)).
  { clear. induction objs as [|o objs IH]; [done|]. cbn [flat_map]. rewrite alen_app. unfold encode_object at 1.
    rewrite !alen_app, alen_le32. change (alen [0x55; 0xaa]) with 2. pose proof (alen_nonneg o).
    change (o :: objs) with ([o] ++ objs). rewrite alen_app. change (alen [o]) with 1. lia. }
  assert (Hs : Forall (fun o => alen o < 2 ^ 32) objs).
  { assert (Hm : alen (flat_map encode_object objs) < 2 ^ 32) by lia. clear -Hm.
    induction objs as [|o objs IH]; [constructor|]. cbn [flat_map] in Hm. rewrite alen_app in Hm.
    pose proof (alen_nonneg (encode_object o)). pose proof (alen_nonneg (flat_map encode_object objs)).
    constructor; [|apply IH; lia]. unfold encode_object in Hm at 1. rewrite !alen_app, alen_le32 in Hm.
    change (alen [0x55; 0xaa]) with 2 in Hm. lia. }
  pose proof (alen_nonneg objs) as Hn0.
  exists (mk (alen objs) (alen <$> objs) (places (p + 13 + 4) objs)). split; [|split; [done|split]].
  - unfold getInstance. rewrite (strncmp_same rd 13 magic p 0);
      [|cbn; repeat (constructor; [lia|]); constructor|by rewrite Z.add_0_r|lia|cbn; lia|lia|lia].
    cbn [mbind option_bind negb Z.eqb]. rewrite (u32_small (p + 13)) by lia.
    rewrite (word_le32 rd (p + 13) (alen objs)) by (done || lia). cbn [mbind option_bind].
    rewrite (u32_small (p + 13 + 4)) by lia.
    assert (Z.to_nat (alen objs) = List.length objs) as -> by (unfold alen; lia).
    rewrite (objects_loop_spec rd objs (p + 13 + 4) [] [] Hh) by (done || lia). done.
  - intros i o Hi. unfold index. cbn [_length _subArr]. pose proof (lookup_lt_Some _ _ _ Hi) as Hlt.
    rewrite u32_small by (unfold alen in *; lia). rewrite (proj2 (Z.ltb_ge _ _)) by (unfold alen in *; lia).
    unfold anth. rewrite (proj2 (Z.leb_le 0 _)) by lia. rewrite Nat2Z.id. by apply places_spec.
  - intros Hne idx Hidx. unfold index. cbn [_length].
    assert (0 < alen objs) by (destruct objs; [done|unfold alen; cbn; lia]).
    rewrite u32_small by lia. by rewrite (proj2 (Z.ltb_lt _ _)) by lia.
Qed.

Lemma arrfile_roundtrip_witness :
  let rd := fun a => anth (replicate 3 9 ++ encode [[7; 8]; []]) a in
  exists a, getInstance rd 3 = Some (Some a) /\ length a = 2 /\
    (forall i o, [[7; 8]; []] !! i = Some o -> exists sub, index a (Z.of_nat i) = Some sub /\
       match sub with None => o = [] | Some q => o <> [] /\ holds rd q o end) /\
    ([[7; 8]; []] <> [] -> forall idx, 2 <= idx < 2 ^ 32 -> index a idx = Some None).
Proof.
  intros rd. apply (arrfile_roundtrip rd 3 [[7; 8]; []]); [|lia|reflexivity].
  intros i Hi. unfold rd, anth. rewrite (proj2 (Z.leb_le 0 _)) by lia.
  replace (Z.to_nat (3 + Z.of_nat i)) with (3 + i)%nat by lia. reflexivity.
Defined.

(** ** What goes wrong *)

(** The parser has no size: a file cut off is read past its end. *)
Lemma truncated_file_reads_past_end : getInstance (anth (take 17 (encode [[7; 8]]))) 0 = None.
Proof. reflexivity. Qed.

(** An empty file: the bound of the index wraps around. *)
Lemma empty_file_index_faults : exists a, getInstance (anth (encode [])) 0 = Some (Some a) /\ index a 0 = None.
Proof. by eexists. Qed.

(** Assignment keeps the old length. *)
Lemma assign_keeps_length a b c : assign a b = Some c -> _length c = _length a.
Proof. unfold assign, copy. destruct (_ && _); [|done]. by intros [= <-]. Qed.

End ArrFile.
