(* ===== verification/Windows.v ===== *)
(** * Making a window (student-distrib/ui/title_bar.cpp, ui/window.cpp, createWindow)

    The title bar paints its pixels from the arrays of its asset file; a window is made of
    a title bar and a body and put on the desktop, all of it through the operations of
    Compositor.v. *)
From stdpp Require Import prelude gmap list numbers.
From Stdlib Require Import ZArith Lia.
From S2P Require Import Prelude Deque UserLib Container Compositor ArrFile.

Module TitleBar.
Import UserLib.

Definition LightSideLength : Z := 16.
Definition LightVerticalOffset : Z := 6.
Definition SideDecoratorWidth : Z := 10.
Definition LightOffsets : list Z := [10; 34; 58].

(** [AssetId] *)
Definition RedLight : Z := 0.
Definition YellowLight : Z := 1.
Definition GreenLight : Z := 2.
Definition DecoratorLeft : Z := 3.
Definition DecoratorCenter : Z := 4.
Definition DecoratorRight : Z := 5.
Definition LightIds : list Z := [RedLight; YellowLight; GreenLight].

Section paint.
Context (F : Blend.format) (rd : Z -> option Z).

(** [for (z = 0; z < 4; z++) pix[z] = srcPix[z]] *)
Definition copy_pixel (pix srcPix : Z) (buf : list Z) : option (list Z) :=
  for_opt 4 0 (fun z buf => b ← rd (srcPix + z); store buf (pix + z) b) buf.

Definition background_row (width left right center y : Z) (buf : list Z) : option (list Z) :=
  buf ← for_opt (Z.to_nat SideDecoratorWidth) 0 (fun x buf =>
    copy_pixel ((y * width + x) * 4) (left + (y * SideDecoratorWidth + x) * 4) buf) buf;
  buf ← for_opt (Z.to_nat SideDecoratorWidth) 0 (fun x buf =>
    copy_pixel ((y * width + x + (width - SideDecoratorWidth)) * 4) (right + (y * SideDecoratorWidth + x) * 4) buf) buf;
  for_opt (Z.to_nat (width - SideDecoratorWidth * 2)) 0 (fun x buf =>
    copy_pixel ((y * width + x + SideDecoratorWidth) * 4) (center + y * 4) buf) buf.

(** A pixel of a light over the background. *)
Definition blend_pixel (pix srcPix : Z) (buf : list Z) : option (list Z) :=
  for_opt 3 0 (fun z buf =>
    p ← load buf (pix + z); b ← rd (srcPix + z); alpha ← rd (srcPix + 3);
    store buf (pix + z) (Blend.blend F alpha p b)) buf.

Definition lights_row (width : Z) (lights : list Z) (y : Z) (buf : list Z) : option (list Z) :=
  for_opt 3 0 (fun i buf =>
    for_opt (Z.to_nat LightSideLength) 0 (fun x buf =>
      light ← anth lights i; offset ← anth LightOffsets i;
      blend_pixel (((y + LightVerticalOffset) * width + x + offset) * 4)
        (light + (y * LightSideLength + x) * 4) buf) buf) buf.

(** A pointer of the file; a null one is a fault where it is used. *)
Definition asset (file : ArrFile.t) (i : Z) : option Z := mjoin (ArrFile.index file i).

(** [TitleBar::TitleBar] on the parsed file; [buf] is the fresh pixel buffer. *)
Definition paint (file : ArrFile.t) (width : Z) (buf : list Z) : option (list Z) :=
  left ← asset file DecoratorLeft;
  right ← asset file DecoratorRight;
  center ← asset file DecoratorCenter;
  buf ← for_opt (Z.to_nat Compositor.DecoratorHeight) 0 (background_row width left right center) buf;
  red ← asset file RedLight; yellow ← asset file YellowLight; green ← asset file GreenLight;
  for_opt (Z.to_nat LightSideLength) 0 (lights_row width [red; yellow; green]) buf.
End paint.

(** ** What is painted *)

Section laws.
Context (F : Blend.format) (rd : Z -> option Z).

(** A buffer of [n] bytes; a block of the asset memory; a byte of it. *)
Definition bytes_buf (n : Z) (buf : list Z) : Prop := alen buf = n /\ Forall (fun b => 0 <= b < 256) buf.
Definition block (p n : Z) : Prop := forall i, 0 <= i < n -> exists b, rd (p + i) = Some b /\ 0 <= b < 256.
Definition byte (p : Z) : Z := default 0 (rd p).

Lemma block_sub p n q k : block p n -> p <= q -> q + k <= p + n -> block q k.
Proof. intros Hb H1 H2 i Hi. replace (q + i) with (p + (q - p + i)) by lia. apply Hb. lia. Qed.
Lemma block_byte p n i : block p n -> 0 <= i < n -> rd (p + i) = Some (byte (p + i)) /\ 0 <= byte (p + i) < 256.
Proof. intros Hb Hi. destruct (Hb i Hi) as (b & E & R). unfold byte. by rewrite E. Qed.

(** The bar that the asset file describes, byte [z] of the pixel at [x], [y]: the left
    decorator in the first ten columns, the right one in the last ten, one colour for each
    row of the middle; over them three lights of 16 by 16, six pixels below the border, the
    red one at 10, the yellow one at 34, the green one at 58. *)
Definition bar_background (left center right width x y z : Z) : Z :=
  if x <? 10 then byte (left + (y * 10 + x) * 4 + z)
  else if width - 10 <=? x then byte (right + (y * 10 + (x - (width - 10))) * 4 + z)
  else byte (center + y * 4 + z).
Definition lit (light offset x y : Z) (under : Z -> Z) (z : Z) : Z :=
  let p := light + ((y - 6) * 16 + (x - offset)) * 4 in
  if z <? 3 then Blend.blend F (byte (p + 3)) (under z) (byte (p + z)) else under z.
Definition bar_pixel (red yellow green left center right width x y z : Z) : Z :=
  let under := bar_background left center right width x y in
  if (6 <=? y) && (y <? 22) then
    if (10 <=? x) && (x <? 26) then lit red 10 x y under z
    else if (34 <=? x) && (x <? 50) then lit yellow 34 x y under z
    else if (58 <=? x) && (x <? 74) then lit green 58 x y under z
    else under z
  else under z.

(** The buffer is the picture [g]. *)
Record image (w : Z) (g : Z -> Z -> Z -> Z) (buf : list Z) : Prop := {
  im_bytes : bytes_buf (w * 31 * 4) buf;
  im_at x y z : 0 <= x < w -> 0 <= y < 31 -> 0 <= z < 4 -> aget buf ((y * w + x) * 4 + z) = g x y z }.

Lemma image_ext w g g' buf : image w g buf ->
  (forall x y z, 0 <= x < w -> 0 <= y < 31 -> 0 <= z < 4 -> g' x y z = g x y z) -> image w g' buf.
Proof. intros [B A] E. split; [done|]. intros x y z Hx Hy Hz. by rewrite E, A. Qed.

Lemma pixel_in w x y z : 0 <= x < w -> 0 <= y < 31 -> 0 <= z < 4 -> 0 <= (y * w + x) * 4 + z < w * 31 * 4.
Proof. intros Hx Hy Hz. assert (0 <= y * w <= 30 * w) by nia. lia. Qed.
Lemma pixel_inj w x y z x' y' z' : 0 <= x < w -> 0 <= x' < w -> 0 <= z < 4 -> 0 <= z' < 4 ->
  (y * w + x) * 4 + z = (y' * w + x') * 4 + z' -> x = x' /\ y = y' /\ z = z'.
Proof.
  intros Hx Hx' Hz Hz' E. assert (E' : y * w + x = y' * w + x') by lia.
  assert (y = y') as -> by nia. lia.
Qed.

(** The first [k] bytes of one pixel are set. *)
Lemma set_bytes w g buf (k : nat) x0 y0 (u : Z -> Z) f : image w g buf -> 0 <= x0 < w -> 0 <= y0 < 31 -> (k <= 4)%nat ->
  (forall z b, 0 <= z < Z.of_nat k -> aget b ((y0 * w + x0) * 4 + z) = g x0 y0 z -> alen b = w * 31 * 4 ->
    f z b = Some (aset b ((y0 * w + x0) * 4 + z) (u z)) /\ 0 <= u z < 256) ->
  exists buf', for_opt k 0 f buf = Some buf' /\
    image w (fun x y z => if decide (x = x0 /\ y = y0 /\ z < Z.of_nat k) then u z else g x y z) buf'.
Proof.
  intros I Hx Hy Hk Hf.
  destruct (for_opt_ind (fun i b => image w (fun x y z => if decide (x = x0 /\ y = y0 /\ z < i) then u z else g x y z) b) k 0 f buf)
    as (b' & E & I'); [| |by exists b'].
  - apply (image_ext _ _ _ _ I). intros x y z _ _ Hz. rewrite decide_False; [done|lia].
  - intros i b Hi [[Lb Bb] A]. destruct (Hf i b ltac:(lia)) as [-> Hu]; [rewrite A by lia; rewrite decide_False; [done|lia]|done|].
    pose proof (pixel_in w x0 y0 i Hx Hy ltac:(lia)) as Hp. eexists. split; [done|]. split.
    + split; [by rewrite alen_aset|]. unfold aset. by apply Forall_insert.
    + intros x y z Hx' Hy' Hz. pose proof (pixel_in w x y z Hx' Hy' Hz). rewrite aget_aset by lia.
      destruct (decide _) as [E|E].
      * apply pixel_inj in E as (-> & -> & ->); [|lia..]. rewrite decide_True; [done|lia].
      * rewrite A by done. destruct (decide (x = x0 /\ y = y0 /\ z < i)) as [Hd|Hd], (decide (x = x0 /\ y = y0 /\ z < i + 1)) as [Hd'|Hd'];
          try done; [lia|]. destruct Hd' as (-> & -> & Hz'). destruct E. assert (z = i) as -> by lia. done.
Qed.

Lemma copy_pixel_spec w g buf x0 y0 src : image w g buf -> 0 <= x0 < w -> 0 <= y0 < 31 -> block src 4 ->
  exists buf', copy_pixel rd ((y0 * w + x0) * 4) src buf = Some buf' /\
    image w (fun x y z => if decide (x = x0 /\ y = y0) then byte (src + z) else g x y z) buf'.
Proof.
  intros I Hx Hy Hs. destruct (set_bytes w g buf 4 x0 y0 (fun z => byte (src + z))
    (fun z buf => b ← rd (src + z); store buf ((y0 * w + x0) * 4 + z) b) I Hx Hy ltac:(lia)) as (b & E & I').
  - intros z b Hz _ Lb. destruct (block_byte src 4 z Hs ltac:(lia)) as [-> Hb]. cbn [mbind option_bind].
    split; [|done]. apply store_Some. rewrite Lb. apply pixel_in; lia.
  - exists b. split; [exact E|]. apply (image_ext _ _ _ _ I'). intros x y z _ _ Hz.
    destruct (decide (x = x0 /\ y = y0)) as [?|?]; [rewrite decide_True by lia|rewrite decide_False by lia]; done.
Qed.

Lemma blend_pixel_spec w g buf x0 y0 src : image w g buf -> 0 <= x0 < w -> 0 <= y0 < 31 -> block src 4 ->
  exists buf', blend_pixel F rd ((y0 * w + x0) * 4) src buf = Some buf' /\
    image w (fun x y z => if decide (x = x0 /\ y = y0) then
      (if z <? 3 then Blend.blend F (byte (src + 3)) (g x0 y0 z) (byte (src + z)) else g x0 y0 z) else g x y z) buf'.
Proof.
  intros I Hx Hy Hs. unfold blend_pixel.
  destruct (set_bytes w g buf 3 x0 y0 (fun z => Blend.blend F (byte (src + 3)) (g x0 y0 z) (byte (src + z)))
    (fun z buf => p ← load buf ((y0 * w + x0) * 4 + z); b ← rd (src + z); alpha ← rd (src + 3);
      store buf ((y0 * w + x0) * 4 + z) (Blend.blend F alpha p b)) I Hx Hy ltac:(lia)) as (b & E & I').
  - intros z b Hz Hg Lb. pose proof (pixel_in w x0 y0 z Hx Hy ltac:(lia)) as Hp. unfold load.
    rewrite anth_aget by lia. cbn [mbind option_bind]. rewrite Hg.
    destruct (block_byte src 4 z Hs ltac:(lia)) as [-> _]. cbn [mbind option_bind].
    destruct (block_byte src 4 3 Hs ltac:(lia)) as [-> _]. cbn [mbind option_bind].
    split; [|apply Blend.blend_range]. apply store_Some. lia.
  - exists b. split; [exact E|]. apply (image_ext _ _ _ _ I'). intros x y z _ _ Hz.
    destruct (decide (x = x0 /\ y = y0)) as [[-> ->]|?]; [|rewrite decide_False by lia; done].
    case_cmp; [rewrite decide_True by lia|rewrite decide_False by lia]; done.
Qed.

(** A span of [k] pixels of row [y0] from column [a]; the pixel [x] is changed by [u x]. *)
Lemma draw_span w g buf (k : nat) a y0 (u : Z -> (Z -> Z) -> Z -> Z) f : image w g buf ->
  0 <= a -> a + Z.of_nat k <= w -> 0 <= y0 < 31 ->
  (forall x g b, 0 <= x < Z.of_nat k -> image w g b -> exists b', f x b = Some b' /\
    image w (fun X Y z => if decide (X = a + x /\ Y = y0) then u x (g (a + x) y0) z else g X Y z) b') ->
  exists buf', for_opt k 0 f buf = Some buf' /\
    image w (fun x y => if decide (y = y0 /\ a <= x < a + Z.of_nat k) then u (x - a) (g x y) else g x y) buf'.
Proof.
  intros I Ha Hk Hy Hf.
  destruct (for_opt_ind (fun i b => image w (fun x y => if decide (y = y0 /\ a <= x < a + i) then u (x - a) (g x y) else g x y) b) k 0 f buf)
    as (b' & E & I'); [| |by exists b'].
  - apply (image_ext _ _ _ _ I). intros x y z _ _ _. rewrite decide_False; [done|lia].
  - intros i b Hi Ib. destruct (Hf i _ b ltac:(lia) Ib) as (b' & -> & I'). exists b'. split; [done|].
    apply (image_ext _ _ _ _ I'). intros x y z _ _ _. cbv beta. rewrite (decide_False (P := y0 = y0 /\ a <= a + i < a + i)) by lia.
    destruct (decide (x = a + i /\ y = y0)) as [[-> ->]|Hne].
    + rewrite decide_True by lia. by replace (a + i - a) with i by lia.
    + destruct (decide (y = y0 /\ a <= x < a + (i + 1))) as [?|?], (decide (y = y0 /\ a <= x < a + i)) as [?|?]; done || lia.
Qed.

(** Rows [a], [a + 1], ... *)
Lemma draw_rows w g h buf (k : nat) a f : image w g buf -> 0 <= a -> a + Z.of_nat k <= 31 ->
  (forall y g' b, 0 <= y < Z.of_nat k -> (forall x z, g' x (a + y) z = g x (a + y) z) -> image w g' b ->
    exists b', f y b = Some b' /\ image w (fun x Y z => if decide (Y = a + y) then h x Y z else g' x Y z) b') ->
  exists buf', for_opt k 0 f buf = Some buf' /\
    image w (fun x y z => if decide (a <= y < a + Z.of_nat k) then h x y z else g x y z) buf'.
Proof.
  intros I Ha Hk Hf.
  destruct (for_opt_ind (fun i b => image w (fun x y z => if decide (a <= y < a + i) then h x y z else g x y z) b) k 0 f buf)
    as (b' & E & I'); [| |by exists b'].
  - apply (image_ext _ _ _ _ I). intros x y z _ _ _. rewrite decide_False; [done|lia].
  - intros i b Hi Ib. destruct (Hf i (fun x y z => if decide (a <= y < a + i) then h x y z else g x y z) b ltac:(lia))
      as (b' & -> & I'); [|exact Ib|].
    { intros x z. rewrite decide_False; [done|lia]. }
    exists b'. split; [done|]. apply (image_ext _ _ _ _ I'). intros x y z _ _ _. cbv beta.
    destruct (decide (a <= y < a + (i + 1))) as [?|?], (decide (y = a + i)) as [?|?], (decide (a <= y < a + i)) as [?|?]; done || lia.
Qed.

Lemma background_row_spec w l r c y0 g buf : 20 <= w -> 0 <= y0 < 31 ->
  block l (10 * 31 * 4) -> block r (10 * 31 * 4) -> block c (31 * 4) -> image w g buf ->
  exists buf', background_row rd w l r c y0 buf = Some buf' /\
    image w (fun x y z => if decide (y = y0) then bar_background l c r w x y z else g x y z) buf'.
Proof.
  intros Hw Hy Bl Br Bc I. unfold background_row, SideDecoratorWidth.
  destruct (draw_span w g buf (Z.to_nat 10) 0 y0 (fun x _ z => byte (l + (y0 * 10 + x) * 4 + z))
    (fun x buf => copy_pixel rd ((y0 * w + x) * 4) (l + (y0 * 10 + x) * 4) buf) I) as (b1 & -> & I1); [lia..| |].
  { intros x g' b Hx Ib. apply copy_pixel_spec; [done|lia|done|]. apply (block_sub l (10 * 31 * 4)); [done|lia|lia]. }
  cbn [mbind option_bind].
  destruct (draw_span w _ b1 (Z.to_nat 10) (w - 10) y0 (fun x _ z => byte (r + (y0 * 10 + x) * 4 + z))
    (fun x buf => copy_pixel rd ((y0 * w + x + (w - 10)) * 4) (r + (y0 * 10 + x) * 4) buf) I1) as (b2 & -> & I2); [lia..| |].
  { intros x g' b Hx Ib. replace (y0 * w + x + (w - 10)) with (y0 * w + (w - 10 + x)) by lia.
    apply copy_pixel_spec; [done|lia|done|]. apply (block_sub r (10 * 31 * 4)); [done|lia|lia]. }
  cbn [mbind option_bind].
  destruct (draw_span w _ b2 (Z.to_nat (w - 10 * 2)) 10 y0 (fun _ _ z => byte (c + y0 * 4 + z))
    (fun x buf => copy_pixel rd ((y0 * w + x + 10) * 4) (c + y0 * 4) buf) I2) as (b3 & -> & I3); [lia..| |].
  { intros x g' b Hx Ib. replace (y0 * w + x + 10) with (y0 * w + (10 + x)) by lia.
    apply copy_pixel_spec; [done|lia|done|]. apply (block_sub c (31 * 4)); [done|lia|lia]. }
  exists b3. split; [done|]. apply (image_ext _ _ _ _ I3). intros x y z Hx _ _. cbv beta. unfold bar_background.
  destruct (decide (y = y0)) as [->|Hne].
  - repeat case_decide; case_cmp; try lia; by rewrite ?Z.sub_0_r.
  - rewrite !decide_False by lia. done.
Qed.

Lemma lights_row_spec w l0 l1 l2 y0 g buf : 74 <= w -> 0 <= y0 < 16 ->
  block l0 (16 * 16 * 4) -> block l1 (16 * 16 * 4) -> block l2 (16 * 16 * 4) -> image w g buf ->
  exists buf', lights_row F rd w [l0; l1; l2] y0 buf = Some buf' /\
    image w (fun x y z => if decide (y = 6 + y0) then
      (if (10 <=? x) && (x <? 26) then lit l0 10 x y (g x y) z
       else if (34 <=? x) && (x <? 50) then lit l1 34 x y (g x y) z
       else if (58 <=? x) && (x <? 74) then lit l2 58 x y (g x y) z else g x y z) else g x y z) buf'.
Proof.
  intros Hw Hy B0 B1 B2 I. unfold lights_row, LightSideLength, LightVerticalOffset.
  assert (Hspan : forall i light offset g b, anth [l0; l1; l2] i = Some light -> anth LightOffsets i = Some offset ->
    block light (16 * 16 * 4) -> 0 <= offset <= 58 -> image w g b ->
    exists b', for_opt (Z.to_nat 16) 0 (fun x buf =>
      light ← anth [l0; l1; l2] i; offset ← anth LightOffsets i;
      blend_pixel F rd (((y0 + 6) * w + x + offset) * 4) (light + (y0 * 16 + x) * 4) buf) b = Some b' /\
    image w (fun x y z => if decide (y = 6 + y0 /\ offset <= x < offset + 16) then lit light offset x y (g x y) z else g x y z) b').
  { intros i light offset g' b El Eo Bl Ho Ib. rewrite El, Eo. cbn [mbind option_bind].
    destruct (draw_span w g' b (Z.to_nat 16) offset (6 + y0) (fun x old => lit light offset (offset + x) (6 + y0) old)
      (fun x buf => blend_pixel F rd (((y0 + 6) * w + x + offset) * 4) (light + (y0 * 16 + x) * 4) buf) Ib) as (b' & -> & I'); [lia..| |].
    - intros x g2 b2 Hx Ib2. replace ((y0 + 6) * w + x + offset) with ((6 + y0) * w + (offset + x)) by lia.
      destruct (blend_pixel_spec w g2 b2 (offset + x) (6 + y0) (light + (y0 * 16 + x) * 4) Ib2) as (b3 & -> & I3);
        [lia|lia|apply (block_sub light (16 * 16 * 4)); [done|lia|lia]|].
      exists b3. split; [done|]. apply (image_ext _ _ _ _ I3). intros X Y z _ _ _. cbv beta. unfold lit.
      replace (6 + y0 - 6) with y0 by lia. replace (offset + x - offset) with x by lia. done.
    - exists b'. split; [done|]. apply (image_ext _ _ _ _ I'). intros x y z _ _ _. cbv beta.
      change (Z.of_nat (Z.to_nat 16)) with 16. case_decide as Hd; [|done]. destruct Hd as [-> Hd].
      by replace (offset + (x - offset)) with x by lia. }
  cbn [for_opt]. change (0 + 1) with 1. change (1 + 1) with 2.
  destruct (Hspan 0 l0 10 g buf) as (b1 & -> & I1); [done..|lia|done|]. cbn [mbind option_bind].
  destruct (Hspan 1 l1 34 _ b1 eq_refl eq_refl B1 ltac:(lia) I1) as (b2 & -> & I2). cbn [mbind option_bind].
  destruct (Hspan 2 l2 58 _ b2 eq_refl eq_refl B2 ltac:(lia) I2) as (b3 & -> & I3). cbn [mbind option_bind].
  exists b3. split; [done|]. apply (image_ext _ _ _ _ I3). intros x y z _ _ _. cbv beta.
  destruct (decide (y = 6 + y0)) as [->|Hne]; [|rewrite !decide_False by lia; done].
  repeat case_decide; case_cmp; try lia; done.
Qed.

(** The asset file has its six images. *)
Record assets (file : ArrFile.t) : Prop := {
  as_left : exists p, asset file DecoratorLeft = Some p /\ block p (10 * 31 * 4);
  as_right : exists p, asset file DecoratorRight = Some p /\ block p (10 * 31 * 4);
  as_center : exists p, asset file DecoratorCenter = Some p /\ block p (31 * 4);
  as_lights : forall i, i ∈ LightIds -> exists p, asset file i = Some p /\ block p (16 * 16 * 4) }.

(** The buffer shows the bar of the file: image 0 is the red light, 1 the yellow one, 2 the
    green one, 3 the left, 4 the central and 5 the right decorator. *)
Definition shows_bar (file : ArrFile.t) (width : Z) (buf : list Z) : Prop :=
  exists red yellow green left center right,
    asset file 0 = Some red /\ asset file 1 = Some yellow /\ asset file 2 = Some green /\
    asset file 3 = Some left /\ asset file 4 = Some center /\ asset file 5 = Some right /\
    alen buf = width * 31 * 4 /\
    forall x y z, 0 <= x < width -> 0 <= y < 31 -> 0 <= z < 4 ->
      aget buf ((y * width + x) * 4 + z) = bar_pixel red yellow green left center right width x y z.

Lemma paint_spec file w buf : assets file -> 74 <= w -> bytes_buf (w * 31 * 4) buf ->
  exists buf', paint F rd file w buf = Some buf' /\ bytes_buf (w * 31 * 4) buf' /\ shows_bar file w buf'.
Proof.
  intros [(pl & Epl & Bl) (pr & Epr & Br) (pc & Epc & Bc) Hli] Hw Hb. unfold paint.
  rewrite Epl, Epr, Epc. cbn [mbind option_bind].
  destruct (Hli RedLight) as (p0 & E0 & L0); [left|]. destruct (Hli YellowLight) as (p1 & E1 & L1); [right; left|].
  destruct (Hli GreenLight) as (p2 & E2 & L2); [right; right; left|].
  assert (I0 : image w (fun x y z => aget buf ((y * w + x) * 4 + z)) buf) by (by split).
  destruct (draw_rows w _ (fun x y z => bar_background pl pc pr w x y z) buf (Z.to_nat Compositor.DecoratorHeight) 0
    (background_row rd w pl pr pc) I0) as (b1 & -> & I1); [done|done| |].
  { intros y g' b Hy _ Ib. change (0 + y) with y. unfold Compositor.DecoratorHeight in Hy. apply background_row_spec; [lia|lia|done..]. }
  cbn [mbind option_bind]. rewrite E0, E1, E2. cbn [mbind option_bind].
  assert (I1' : image w (bar_background pl pc pr w) b1).
  { apply (image_ext _ _ _ _ I1). intros x y z _ Hy _. rewrite decide_True; [done|]. unfold Compositor.DecoratorHeight. lia. }
  destruct (draw_rows w _ (bar_pixel p0 p1 p2 pl pc pr w) b1 (Z.to_nat LightSideLength) 6
    (lights_row F rd w [p0; p1; p2]) I1') as (b2 & -> & I2); [done|unfold LightSideLength; lia| |].
  { intros y g' b Hy Hg Ib. unfold LightSideLength in Hy. destruct (lights_row_spec w p0 p1 p2 y g' b Hw) as (b' & -> & I'); [lia|done..|].
    exists b'. split; [done|]. apply (image_ext _ _ _ _ I'). intros x Y z _ _ _. cbv beta. case_decide as Hd; [|done].
    subst Y. unfold bar_pixel. rewrite (proj2 (Z.leb_le 6 _)), (proj2 (Z.ltb_lt _ 22)) by lia. cbn [andb].
    unfold lit. by rewrite !Hg. }
  exists b2. split; [done|]. split; [apply I2|]. exists p0, p1, p2, pl, pc, pr.
  do 6 (split; [done|]). split; [apply I2|]. intros x y z Hx Hy Hz. rewrite (im_at _ _ _ I2) by done.
  unfold LightSideLength. case_decide as Hd; [done|]. unfold bar_pixel.
  destruct (Z.leb_spec 6 y), (Z.ltb_spec y 22); try done; lia.
Qed.
End laws.

End TitleBar.

Module Windows.
Import Rectangle Container Compositor.

Section windows.
Context (F : Blend.format).

Lemma wf_frame s T h' : wf s T -> (forall q, q ∈ ptrs T -> h' !! q = objs s !! q) -> wf (set_objs s h') T.
Proof.
  intros [W1 W2 W3 W4 W5 W6 W7 W8 W9] E. split; try done; cbn [objs set_objs].
  - apply (reps_ext (objs s)); [done|]. intros q c Hq Hc. exists c. by rewrite E.
  - by apply (nested_frame (objs s)).
  - intros q c Hq. rewrite E by done. by apply W6.
  - by rewrite E by apply top_ptr.
Qed.

Lemma current_frame s T h' : current F s T -> (forall q, q ∈ ptrs T -> h' !! q = objs s !! q) -> current F (set_objs s h') T.
Proof. intros [C M] E. split; [|exact M]. intros x y Hs. cbn [objs set_objs]. rewrite (scene_frame F (objs s)) by done. by apply C. Qed.

Lemma hidden_scene h p ts o x y v : h !! p = Some o -> visible o = false -> scene F h (Node p ts) x y v = v.
Proof. intros Ho Hv. unfold scene. cbn [layers]. by rewrite Ho, Hv. Qed.

(** [Container::addChild] of a hidden leaf to an element that is not on the screen yet. *)
Lemma add_hidden fuel s T p d c o l :
  wf s T -> current F s T -> p ∉ ptrs T -> d ∉ ptrs T -> p <> d -> (1 < fuel)%nat ->
  objs s !! p = Some c -> Deque.rep (children c) l -> alen l + 1 < 2 ^ 30 ->
  objs s !! d = Some o -> visible o = false -> Deque.rep (children o) [] ->
  let o' := set_abs (set_parent o (Some p)) (s32 (absX c + relX o)) (s32 (absY c + relY o)) in painted o' ->
  exists q s', addChild_container F fuel s p d = Some s' /\ Deque.rep q (l ++ [d]) /\
    objs s' = <[d := o']> (<[p := set_children c q]> (objs s)) /\ wf s' T /\ current F s' T.
Proof.
  intros W C Hp Hd Hpd Hf Hc Rc Hl Ho Hv Ro o' Po.
  destruct (Deque.push_back_spec (children c) l d Rc Hl) as (q & Eq & Rq).
  unfold addChild_container. rewrite Hc. cbn [mbind option_bind]. rewrite Eq. cbn [mbind option_bind].
  unfold setParent. rewrite (lookup_insert_ne _ p d) by done. rewrite Ho. cbn [mbind option_bind].
  rewrite lookup_insert_eq. cbn [mbind option_bind absX absY set_children]. fold o'.
  rewrite lookup_insert_eq. cbn [mbind option_bind]. set (h := <[d := o']> (<[p := set_children c q]> (objs s))).
  assert (Out : forall z, z ∈ ptrs T -> h !! z = objs s !! z).
  { intros z Hz. unfold h. rewrite !lookup_insert_ne by (intros ->; done). done. }
  pose proof (wf_frame s T h W Out) as W1. pose proof (current_frame s T h C Out) as C1.
  assert (Hd' : objs (set_objs s h) !! d = Some o') by apply lookup_insert_eq.
  destruct (drawSingle_spec F fuel (set_objs s h) (Node d []) (getBoundingRectangle o') EmptyRectangle)
    as (s' & E & S' & M' & P & _).
  - apply (reps_node _ _ _ o'); [done|exact Ro|constructor].
  - constructor; [constructor|]. intros u x y Hu. by apply not_elem_of_nil in Hu.
  - intros z e Hz. apply list_elem_of_singleton in Hz as ->. rewrite Hd'. by intros [= <-].
  - cbn. lia.
  - exact Hf.
  - apply (wf_helper _ _ W1).
  - apply C1.
  - exists q, s'. split; [exact E|]. split; [done|]. pose proof (screen_only_objs _ _ S') as O'. split; [done|].
    assert (Px : forall x y, on_screen x y -> pixel (buildBuffer s') x y = pixel (buildBuffer s) x y).
    { intros x y Hs. rewrite (P x y Hs). unfold except. rewrite hasPoint_Empty.
      rewrite (hidden_scene _ d [] o') by done. by case_decide. }
    split.
    + apply (wf_screen (set_objs s h)); [done..|]. intros x y Hs. rewrite (Px x y Hs). by apply (wf_bytes _ _ W).
    + split; [|done]. intros x y Hs. rewrite (Px x y Hs), O'. by apply C1.
Qed.

(** ** The window that [createWindow] makes *)

Definition window_tree (wind bar body : Z) : tree := Node wind [Node body []; Node bar []].

(** Sizes that leave room for the decorations and pixel buffers of less than 2 GB. *)
Definition window_size (width height : Z) : Prop := 74 <= width <= 2 ^ 13 /\ 35 <= height <= 2 ^ 13.

Lemma white_textured w h x y : 0 <= w <= 2 ^ 13 -> 0 <= h <= 2 ^ 13 ->
  textured (Container.make WindowBody (white w h) w h x y).
Proof.
  intros Hw Hh. assert (0 <= w * h <= 2 ^ 26) by nia. split; cbn [width height Container.make pixelBuffer]; [lia|].
  intros a Ha. unfold white. rewrite u32_small by lia.
  rewrite (proj2 (Z.leb_le 0 a)), (proj2 (Z.ltb_lt a _)) by lia. cbn. exists 255. split; [done|lia].
Qed.

Lemma newWindow_spec fuel s T wind bar body barPixels w h :
  wf s T -> current F s T -> (nodes T < fuel)%nat -> (1 < fuel)%nat ->
  wind ∉ ptrs T -> bar ∉ ptrs T -> body ∉ ptrs T -> wind <> bar -> wind <> body -> bar <> body ->
  window_size w h -> textured (Container.make TitleBar barPixels w DecoratorHeight 0 0) ->
  exists s' q, newWindow F fuel s wind bar body barPixels w h 150 150 = Some s' /\ wf s' T /\ current F s' T /\
    Deque.rep q [body; bar] /\
    objs s' !! wind = Some (set_children (Container.make (Window bar body) (fun _ => None) w h 150 150) q) /\
    objs s' !! body = Some (set_visible (set_abs (set_parent
       (Container.make WindowBody (white (w - 4) (h - 35)) (w - 4) (h - 35) 2 27) (Some wind)) 152 177) true) /\
    objs s' !! bar = Some (set_visible (set_abs (set_parent
       (Container.make TitleBar barPixels w DecoratorHeight 0 0) (Some wind)) 150 150) true) /\
    forall z, z <> wind -> z <> bar -> z <> body -> objs s' !! z = objs s !! z.
Proof.
  intros W C Hf Hf1 Nw Nr Nb Ewr Ewb Erb [Hw Hh] Tbar. unfold newWindow, DecoratorHeight. cbv zeta.
  rewrite (s32_id (w - 4)), (s32_id (h - 31 - 4)) by lia. replace (h - 31 - 4) with (h - 35) by lia.
  set (B0 := Container.make WindowBody (white (w - 4) (h - 35)) (w - 4) (h - 35) 2 (31 - 4)).
  set (A0 := Container.make TitleBar barPixels w 31 0 0).
  set (W0 := Container.make (Window bar body) (fun _ => None) w h 150 150).
  set (h1 := <[body := B0]> (<[bar := A0]> (<[wind := W0]> (objs s)))).
  assert (Out : forall z, z ∈ ptrs T -> h1 !! z = objs s !! z).
  { intros z Hz. unfold h1. by rewrite !lookup_insert_ne by (intros ->; done). }
  pose proof (wf_frame s T h1 W Out) as W1. pose proof (current_frame s T h1 C Out) as C1.
  set (B1 := set_abs (set_parent B0 (Some wind)) 152 177). set (A1 := set_abs (set_parent A0 (Some wind)) 150 150).
  assert (PB : textured B1) by (destruct (white_textured (w - 4) (h - 35) 2 27) as [t1 t2]; [lia|lia|by split]).
  assert (PA : textured A1) by (destruct Tbar; by split).
  destruct (add_hidden fuel (set_objs s h1) T wind body W0 B0 []) as (q1 & s1 & -> & R1 & O1 & W2 & C2); try done.
  { unfold h1. cbn [objs set_objs]. rewrite !lookup_insert_ne by done. apply lookup_insert_eq. }
  all: try apply lookup_insert_eq; try apply Deque.init_rep.
  { change (painted B1). apply textured_painted; [exact PB|]. unfold near, B1. cbn. lia. }
  cbn [mbind option_bind]. cbn [objs set_objs app] in O1, R1.
  destruct (add_hidden fuel s1 T wind bar (set_children W0 q1) A0 [body]) as (q2 & s2 & -> & R2 & O2 & W3 & C3); try done.
  { rewrite O1. rewrite lookup_insert_ne by done. apply lookup_insert_eq. }
  { rewrite O1. rewrite !lookup_insert_ne by done. unfold h1. rewrite lookup_insert_ne by done. apply lookup_insert_eq. }
  all: try apply Deque.init_rep.
  { change (painted A1). apply textured_painted; [exact PA|]. unfold near, A1. cbn. lia. }
  cbn [mbind option_bind]. rewrite O1 in O2.
  assert (Hb2 : objs s2 !! body = Some B1).
  { rewrite O2. rewrite !lookup_insert_ne by done. apply lookup_insert_eq. }
  assert (Ha2 : objs s2 !! bar = Some A1) by (rewrite O2; apply lookup_insert_eq).
  unfold show. rewrite Hb2. cbn [mbind option_bind].
  destruct (set_visible_current F fuel s2 T body B1 true W3 C3 Hf Hb2) as (s3 & -> & W4 & C4 & O3); [done|].
  cbn [mbind option_bind]. rewrite O3, lookup_insert_ne, Ha2 by done. cbn [mbind option_bind]. rewrite <- O3.
  assert (Ha3 : objs s3 !! bar = Some A1) by by rewrite O3, lookup_insert_ne.
  destruct (set_visible_current F fuel s3 T bar A1 true W4 C4 Hf Ha3) as (s4 & E4 & W5 & C5 & O4); [done|].
  exists s4, q2. split; [exact E4|]. split; [done|]. split; [done|]. split; [exact R2|]. rewrite O4, O3, O2. split; [|split; [|split]].
  - rewrite !lookup_insert_ne by done. apply lookup_insert_eq.
  - rewrite lookup_insert_ne by done. apply lookup_insert_eq.
  - apply lookup_insert_eq.
  - intros z H1 H2 H3. rewrite !lookup_insert_ne by done. unfold h1. by rewrite !lookup_insert_ne by done.
Qed.

(** The window as [newWindow] leaves it. *)
Definition window_el (bar body w h : Z) (q : Deque.t Z) : Container.t :=
  set_children (Container.make (Window bar body) (fun _ => None) w h 150 150) q.
Definition body_el (wind w h : Z) : Container.t :=
  set_visible (set_abs (set_parent
    (Container.make WindowBody (white (w - 4) (h - 35)) (w - 4) (h - 35) 2 27) (Some wind)) 152 177) true.
Definition bar_el (wind : Z) (barPixels : Z -> option Z) (w : Z) : Container.t :=
  set_visible (set_abs (set_parent (Container.make TitleBar barPixels w DecoratorHeight 0 0) (Some wind)) 150 150) true.

(** The screen point lies in the part of the body that the title bar leaves free. *)
Definition in_body (w h x y : Z) : Prop := 152 <= x < 148 + w /\ 181 <= y < 142 + h.

Lemma body_covers wind w h x y : window_size w h ->
  covers (body_el wind w h) x y <-> 152 <= x < 148 + w /\ 177 <= y < 142 + h.
Proof.
  intros [Hw Hh]. unfold covers, inside, getBoundingRectangle, body_el; cbn. rewrite !s32_id by lia. lia.
Qed.
Lemma bar_covers wind px w h x y : window_size w h ->
  covers (bar_el wind px w) x y <-> 150 <= x < 150 + w /\ 150 <= y < 181.
Proof.
  intros [Hw Hh]. unfold covers, inside, getBoundingRectangle, bar_el, DecoratorHeight; cbn. rewrite !s32_id by lia. lia.
Qed.
Lemma window_covers bar body q w h x y : window_size w h ->
  covers (window_el bar body w h q) x y <-> 150 <= x < 150 + w /\ 150 <= y < 150 + h.
Proof.
  intros [Hw Hh]. unfold covers, inside, getBoundingRectangle, window_el; cbn. rewrite !s32_id by lia. lia.
Qed.

Lemma body_texel wind w h x y : window_size w h -> covers (body_el wind w h) x y ->
  texel (body_el wind w h) x y = Some (RGB 255 255 255, 255).
Proof.
  intros Hs Hc%body_covers; [|done]. destruct Hs as [Hw Hh].
  assert (E : forall k, 0 <= k < 4 -> white (w - 4) (h - 35)
    (s32 ((s32 (y - 177) * (w - 4) + s32 (x - 152)) * 4 + k)) = Some 255).
  { intros k Hk. rewrite (s32_id (y - 177)), (s32_id (x - 152)) by lia.
    assert (0 <= (y - 177) * (w - 4) + (x - 152) < (w - 4) * (h - 35)) by nia. assert ((w - 4) * (h - 35) <= 2 ^ 26) by nia.
    rewrite s32_id by lia. unfold white. rewrite u32_small by lia.
    by rewrite (proj2 (Z.leb_le 0 _)), (proj2 (Z.ltb_lt _ _)) by lia. }
  unfold texel, getAlpha, getRed, getGreen, getBlue, body_el. cbn [absX absY width pixelBuffer set_visible set_abs set_parent Container.make].
  by rewrite !E by lia.
Qed.

(** The tree of the new window can be put on the desktop. *)
Lemma window_attachable s T wind bar body barPixels w h q c : let u := window_tree wind bar body in
  objs s !! top T = Some c -> class c = Desktop -> absX c = 0 -> absY c = 0 ->
  objs s !! wind = Some (window_el bar body w h q) -> Deque.rep q [body; bar] ->
  objs s !! body = Some (body_el wind w h) -> objs s !! bar = Some (bar_el wind barPixels w) ->
  window_size w h -> textured (Container.make TitleBar barPixels w DecoratorHeight 0 0) ->
  NoDup (ptrs T) -> wind ∉ ptrs T -> bar ∉ ptrs T -> body ∉ ptrs T -> wind <> bar -> wind <> body -> bar <> body ->
  (need (Node (top T) (below_last (subtrees T) u)) <= 20)%nat -> Z.of_nat (length (subtrees T)) + 1 < 2 ^ 30 ->
  attachable s T u.
Proof.
  intros u Hc Hk HX HY Hwi Rq Hbo Hba Hsz Tb ND Nw Nr Nb Ewr Ewb Erb Hfit Hsm.
  assert (Hpt : ptrs u = [wind; body; bar]) by done. split; try done.
  - exists c. split; [done|]. split; [done|]. eexists. split; [exact Hwi|]. split; [done|]. rewrite HX, HY. split; reflexivity.
  - apply (reps_node _ _ _ (window_el bar body w h q)); [exact Hwi|exact Rq|].
    constructor; [|constructor; [|constructor]].
    + by apply (reps_node _ _ _ (body_el wind w h)); [|apply Deque.init_rep|constructor].
    + by apply (reps_node _ _ _ (bar_el wind barPixels w)); [|apply Deque.init_rep|constructor].
  - rewrite Hpt. apply list.NoDup_app. split; [done|]. split.
    + intros z Hz. rewrite !elem_of_cons. intros [->|[->|[->|H%elem_of_nil]]]; done.
    + repeat (apply list.NoDup_cons; split); [..|constructor]; rewrite ?elem_of_cons, ?elem_of_nil; intuition congruence.
  - constructor.
    + constructor; [|constructor; [|constructor]]; (constructor; [constructor|]; intros z x y Hz; by apply not_elem_of_nil in Hz).
    + intros z x y Hz Hs (d & Hd & Hcv). exists (window_el bar body w h q). split; [done|]. apply window_covers; [done|].
      pose proof (proj2 Hsz) as Hh. pose proof (proj1 Hsz) as Hw.
      rewrite !elem_of_cons, elem_of_nil in Hz. destruct Hz as [->|[->|[]]]; cbn [top] in Hd.
      * assert (d = body_el wind w h) as -> by congruence. apply body_covers in Hcv; [lia|done].
      * assert (d = bar_el wind barPixels w) as -> by congruence. apply (bar_covers _ _ w h) in Hcv; [lia|done].
  - intros z d Hz Hd. rewrite Hpt, !elem_of_cons, elem_of_nil in Hz. destruct Hz as [->|[->|[->|[]]]].
    + assert (d = window_el bar body w h q) as -> by congruence. by intros [=].
    + assert (d = body_el wind w h) as -> by congruence. intros _ x y Hs Hcv. exists (RGB 255 255 255), 255.
      split; [by apply body_texel|unfold byte_rgb; cbn; lia].
    + assert (d = bar_el wind barPixels w) as -> by congruence. apply textured_painted; [destruct Tb; by split|].
      split; cbn; lia.
Qed.

(** A shown window on the desktop, where the last child does not lie over it: the title bar
    over the body over what was there. *)
Lemma window_scene hs r ts c wind bar body barPixels w h q x y v :
  hs !! r = Some c -> visible c = true ->
  hs !! wind = Some (set_visible (window_el bar body w h q) true) ->
  hs !! body = Some (body_el wind w h) -> hs !! bar = Some (bar_el wind barPixels w) -> byte_rgb v ->
  (forall u p, u ∈ drop (length ts - 1) ts -> p ∈ ptrs u -> ~ covers_at hs p x y) ->
  exists v1, byte_rgb v1 /\ scene F hs (Node r (below_last ts (window_tree wind bar body))) x y v =
    shade F (bar_el wind barPixels w) x y (shade F (body_el wind w h) x y v1).
Proof.
  intros Hr Hv Hwi Hbo Hba Hb Hcl. unfold scene. cbn [layers]. rewrite Hr, Hv. unfold below_last.
  rewrite flat_map_app. cbn [flat_map]. rewrite app_comm_cons, !over_app.
  assert (layers hs (window_tree wind bar body) = [wind; body; bar]) as ->.
  { unfold window_tree. cbn [layers flat_map]. rewrite Hwi, Hbo, Hba. done. }
  rewrite (over_uncovered F hs (flat_map _ _)).
  - eexists. split; [|unfold over at 1; cbn [foldl]; unfold paint; rewrite Hwi, Hbo, Hba;
      rewrite (shade_plain F (set_visible (window_el _ _ _ _ _) _)) by done; reflexivity]. by apply over_byte.
  - intros p Hp. rewrite list_elem_of_In, in_flat_map in Hp. destruct Hp as (u & Hu%list_elem_of_In & Hp%list_elem_of_In).
    apply (Hcl u p Hu). by apply layers_ptrs in Hp.
Qed.

(** The body is white where the title bar is not. *)
Lemma shown_body wind px w h x y v : window_size w h -> in_body w h x y -> byte_rgb v ->
  shade F (bar_el wind px w) x y (shade F (body_el wind w h) x y v) = RGB 255 255 255.
Proof.
  intros Hsz [Hx Hy] Hb. rewrite (shade_uncovered F (bar_el _ _ _)); [|intros Hcv; apply (bar_covers _ _ w h) in Hcv; [lia|exact Hsz]].
  assert (Hc : covers (body_el wind w h) x y) by (apply body_covers; [done|lia]).
  apply shade_opaque; [done|done|by apply body_texel|done|unfold byte_rgb; cbn; lia].
Qed.

(** The title bar has the opaque pixels of its buffer. *)
Lemma shown_bar wind buf w h x y v : window_size w h -> 150 <= x < 150 + w -> 150 <= y < 181 -> byte_rgb v ->
  TitleBar.bytes_buf (w * 31 * 4) buf -> let a := ((y - 150) * w + (x - 150)) * 4 in
  aget buf (a + 3) = 255 ->
  shade F (bar_el wind (fun a => anth buf a) w) x y v = RGB (aget buf (a + 0)) (aget buf (a + 1)) (aget buf (a + 2)).
Proof.
  intros Hsz Hx Hy Hb [Lb Bb] a Ha.
  assert (Hr : forall k, 0 <= k < 4 -> 0 <= a + k < w * 31 * 4).
  { intros k Hk. apply TitleBar.pixel_in; lia. }
  assert (Hw : w * 31 * 4 < 2 ^ 31) by (destruct Hsz; lia).
  assert (E : forall k, 0 <= k < 4 -> anth buf (s32 ((s32 (y - 150) * w + s32 (x - 150)) * 4 + k)) = Some (aget buf (a + k))).
  { intros k Hk. specialize (Hr k Hk). destruct Hsz as [Hw' _]. rewrite (s32_id (y - 150)), (s32_id (x - 150)) by lia. fold a.
    rewrite s32_id by lia. apply anth_aget. lia. }
  assert (HB : forall k, 0 <= k < 4 -> 0 <= aget buf (a + k) < 256).
  { intros k Hk. specialize (Hr k Hk). unfold aget. apply (Forall_lookup_total_1 (fun b => 0 <= b < 256)); [done|].
    unfold alen in Lb. lia. }
  apply shade_opaque; [done|by apply (bar_covers _ _ w h)| |done|].
  - unfold texel, getAlpha, getRed, getGreen, getBlue, bar_el. cbn [absX absY width pixelBuffer set_visible set_abs set_parent Container.make].
    rewrite !E by lia. cbn [mbind option_bind]. by rewrite Ha.
  - unfold byte_rgb. cbn [red green blue]. split_and!; apply HB; lia.
Qed.

Lemma alike_insert h h' p c c' : alike h h' -> looks c c' -> alike (<[p := c]> h) (<[p := c']> h').
Proof.
  intros A L q. destruct (decide (q = p)) as [->|Hq].
  - rewrite !lookup_insert_eq. by constructor.
  - rewrite !lookup_insert_ne by done. apply A.
Qed.

Lemma nodes_attached T u : nodes (Node (top T) (below_last (subtrees T) u)) = (nodes T + nodes u)%nat.
Proof.
  destruct T as [r ts]. cbn [top subtrees]. rewrite !nodes_node, below_last_ptrs, length_app. unfold nodes. lia.
Qed.

(** [createWindow] on a title bar with all its pixels. *)
Lemma createWindow_spec fuel s T c wind bar body barPixels w h :
  let T' := Node (top T) (below_last (subtrees T) (window_tree wind bar body)) in
  wf s T -> current F s T -> objs s !! top T = Some c -> class c = Desktop -> absX c = 0 -> absY c = 0 ->
  wind ∉ ptrs T -> bar ∉ ptrs T -> body ∉ ptrs T -> wind <> bar -> wind <> body -> bar <> body ->
  window_size w h -> textured (Container.make TitleBar barPixels w DecoratorHeight 0 0) ->
  (need T' <= 20)%nat -> Z.of_nat (length (subtrees T)) + 1 < 2 ^ 30 -> (nodes T' < fuel)%nat ->
  exists s1 s2 q, createWindow F fuel s wind bar body barPixels w h = Some s1 /\ wf s1 T' /\ current F s1 T' /\
    alike (objs s2) (objs s1) /\
    objs s2 !! wind = Some (window_el bar body w h q) /\ objs s2 !! body = Some (body_el wind w h) /\
    objs s2 !! bar = Some (bar_el wind barPixels w) /\ (forall z, z ∈ ptrs T -> objs s2 !! z = objs s !! z) /\
    (forall x y, on_screen x y -> pixel (buildBuffer s1) x y = pixel (buildBuffer s) x y).
Proof.
  intros T' W C Hc Hk HX HY Nw Nr Nb Ewr Ewb Erb Hsz Tb Hfit Hsm Hf.
  unfold T' in Hf. rewrite nodes_attached in Hf. change (nodes (window_tree wind bar body)) with 3%nat in Hf.
  destruct (newWindow_spec fuel s T wind bar body barPixels w h) as (s2 & q & E & W2 & C2 & Rq & Owi & Obo & Oba & Oth); try done.
  { lia. } { lia. }
  assert (Hin : forall z, z ∈ ptrs T -> objs s2 !! z = objs s !! z) by (intros z Hz; apply Oth; intros ->; done).
  assert (A : attachable s2 T (window_tree wind bar body)).
  { apply (window_attachable s2 T wind bar body barPixels w h q c); try done; [by rewrite Hin by apply top_ptr|apply W]. }
  unfold createWindow. rewrite E. cbn [mbind option_bind]. rewrite (wf_root _ _ W2). cbn [mbind option_bind].
  destruct (addChild_spec F fuel s2 T _ W2 A) as (s1 & E1 & (hs & -> & Al) & W1).
  exists (set_objs s2 hs), s2, q. split; [exact E1|]. split; [done|]. destruct C2 as [C2 M2]. destruct C as [C M]. split; [|split; [done|]].
  - split; [|exact M2]. intros x y Hs. cbn [objs set_objs buildBuffer]. unfold T'.
    rewrite (alike_scene F (objs s2) hs) by done. by rewrite (attach_scene F s2 T _ A), (C2 x y Hs).
  - repeat (split; [done|]). intros x y Hs. cbn [buildBuffer set_objs]. rewrite (C2 x y Hs), (C x y Hs).
    by apply scene_frame.
Qed.

(** ** A new window is seen *)

(** C18: On a screen that is up to date, [createWindow] paints the title bar from its asset
    file, pixel for pixel the picture [TitleBar.bar_pixel] describes (the left decorator,
    image 3, in the first ten columns, the right one, image 5, in the last ten, the rows
    of image 4 between them, and over them the red, yellow and green lights, images 0, 1
    and 2, at 10, 34 and 58), puts the hidden window under the last child of the desktop
    and leaves every pixel as it was; [showElement] then brings the white body to the
    screen, and the title bar over it with the colours of its opaque pixels, wherever the
    last child (the pointer) does not lie over them. *)
Theorem createWindow_shows rd file fuel s T c wind bar body buf w h :
  let T' := Node (top T) (below_last (subtrees T) (window_tree wind bar body)) in
  wf s T -> current F s T -> objs s !! top T = Some c -> class c = Desktop -> absX c = 0 -> absY c = 0 ->
  NoDup [wind; bar; body] -> (forall p, p ∈ [wind; bar; body] -> p ∉ ptrs T) ->
  window_size w h -> TitleBar.assets rd file -> TitleBar.bytes_buf (w * 31 * 4) buf ->
  (need T' <= 20)%nat -> Z.of_nat (length (subtrees T)) + 1 < 2 ^ 30 -> (nodes T' < fuel)%nat ->
  exists buf' s1 s2, TitleBar.paint F rd file w buf = Some buf' /\ TitleBar.shows_bar F rd file w buf' /\
    createWindow F fuel s wind bar body (fun a => anth buf' a) w h = Some s1 /\ wf s1 T' /\ current F s1 T' /\
    (forall x y, on_screen x y -> pixel (buildBuffer s1) x y = pixel (buildBuffer s) x y) /\
    showElement F fuel s1 wind = Some (s2, 0) /\ wf s2 T' /\ current F s2 T' /\
    forall x y, on_screen x y ->
      (forall u p, u ∈ drop (length (subtrees T) - 1) (subtrees T) -> p ∈ ptrs u -> ~ covers_at (objs s) p x y) ->
      let a := ((y - 150) * w + (x - 150)) * 4 in
      (in_body w h x y -> pixel (buildBuffer s2) x y = RGB 255 255 255) /\
      (150 <= x < 150 + w -> 150 <= y < 181 -> aget buf' (a + 3) = 255 ->
         pixel (buildBuffer s2) x y = RGB (aget buf' (a + 0)) (aget buf' (a + 1)) (aget buf' (a + 2))) /\
      (displayMode s2 = Video -> pixel (videoMemory s2) x y = swap (pixel (buildBuffer s2) x y)).
Proof.
  intros T' W C Hc Hk HX HY ND Nin Hsz HA HB Hfit Hsm Hf.
  destruct (TitleBar.paint_spec F rd file w buf) as (buf' & Eb & HB' & Hshow); [done|apply Hsz|done|].
  assert (Tb : textured (Container.make TitleBar (fun a => anth buf' a) w DecoratorHeight 0 0)).
  { destruct Hsz as [Hw _]. destruct HB' as [Lb Bb]. unfold DecoratorHeight. split; cbn [width height Container.make pixelBuffer]; [lia|].
    intros a Ha. rewrite anth_aget by lia. eexists. split; [done|]. unfold aget.
    apply (Forall_lookup_total_1 (fun b => 0 <= b < 256)); [done|]. unfold alen in Lb. lia. }
  apply list.NoDup_cons in ND as [N1 ND]. apply list.NoDup_cons in ND as [N2 _].
  rewrite !elem_of_cons, elem_of_nil in N1. rewrite elem_of_cons, elem_of_nil in N2.
  destruct (createWindow_spec fuel s T c wind bar body (fun a => anth buf' a) w h)
    as (s1 & s0 & q & E1 & W1 & C1 & Al & Owi & Obo & Oba & Oth & Px); try done; try (by apply Nin; set_solver); try tauto.
  pose proof (Al wind) as Aw. rewrite Owi in Aw. inversion Aw as [? o Lo E0 E2|]; subst. symmetry in E2.
  assert (wind ∉ ptrs T) as Nw by (apply Nin; set_solver).
  destruct (set_visible_current F fuel s1 T' wind o true W1 C1 Hf E2) as (s2 & E3 & W2 & C2 & O2); [done|].
  exists buf', s1, s2. split; [done|]. split; [done|]. split; [done|]. split; [done|]. split; [done|]. split; [done|].
  split; [unfold showElement, show; rewrite E2; cbn [mbind option_bind]; by rewrite E3|]. split; [done|]. split; [done|].
  intros x y Hs Hcl a. destruct C2 as [C2 M2].
  set (hs := <[wind := set_visible (window_el bar body w h q) true]> (objs s0)).
  assert (E : exists v1, byte_rgb v1 /\ pixel (buildBuffer s2) x y =
    shade F (bar_el wind (fun a => anth buf' a) w) x y (shade F (body_el wind w h) x y v1)).
  { rewrite (C2 x y Hs), O2.
    rewrite (alike_scene F hs); [|apply alike_insert; [done|]; destruct Lo as (? & ? & ? & ? & ? & ? & ?); by split_and!].
    assert (Hout : forall z, z ∈ ptrs T -> hs !! z = objs s !! z).
    { intros z Hz. unfold hs. rewrite lookup_insert_ne by (intros ->; done). by apply Oth. }
    destruct (wf_base _ _ W) as (c0 & Hc0 & Hv0 & _). unfold T'.
    apply (window_scene hs (top T) (subtrees T) c0 wind bar body (fun a => anth buf' a) w h q).
    - by rewrite Hout by apply top_ptr.
    - done.
    - apply lookup_insert_eq.
    - unfold hs. rewrite lookup_insert_ne by tauto. done.
    - unfold hs. rewrite lookup_insert_ne by tauto. done.
    - apply byte_black.
    - intros u p Hu Hp (d & Hd & Hcv). apply (Hcl u p Hu Hp). exists d. split; [|done]. rewrite <- Hout; [done|].
      destruct T as [r ts]. eapply ptrs_sub; [|exact Hp]. cbn [subtrees] in Hu. rewrite <- (take_drop (length ts - 1) ts).
      apply elem_of_app. by right. }
  destruct E as (v1 & V1 & E). rewrite E. split; [|split].
  - intros Hin. by apply shown_body.
  - intros Hx Hy Ha. apply (shown_bar _ _ w h); try done. by apply shade_byte.
  - intros Hv. by rewrite (M2 Hv x y Hs), E.
Qed.
End windows.

(** An asset memory with six images of one opaque colour each: 10, 20, ..., 60. *)
Definition demo_assets : ArrFile.t :=
  ArrFile.mk 6 (replicate 6 1240) [Some 0; Some 2000; Some 4000; Some 6000; Some 8000; Some 10000].
Definition demo_memory (a : Z) : option Z := Some (if a mod 4 =? 3 then 255 else 10 * (a / 2000 + 1)).

(** The corners show the decorators, the lights are red, yellow and green from the left. *)
Lemma createWindow_shows_witness :
  let T' := Node 1 [window_tree 10 11 12; Node 2 []] in
  exists buf' s1 s2, TitleBar.paint Blend.Single demo_memory demo_assets 200 (replicate (Z.to_nat 24800) 0) = Some buf' /\
    createWindow Blend.Single 10 Demo.screen0 10 11 12 (fun a => anth buf' a) 200 100 = Some s1 /\
    showElement Blend.Single 10 s1 10 = Some (s2, 0) /\ wf s2 T' /\ current Blend.Single s2 T' /\
    pixel (buildBuffer s2) 150 150 = RGB 40 40 40 /\ pixel (buildBuffer s2) 349 150 = RGB 60 60 60 /\
    pixel (buildBuffer s2) 250 150 = RGB 50 50 50 /\ pixel (buildBuffer s2) 165 160 = RGB 10 10 10 /\
    pixel (buildBuffer s2) 190 160 = RGB 20 20 20 /\ pixel (buildBuffer s2) 220 160 = RGB 30 30 30 /\
    pixel (buildBuffer s2) 200 200 = RGB 255 255 255.
Proof.
  intros T'.
  destruct (createWindow_shows Blend.Single demo_memory demo_assets 10 Demo.screen0 Demo.tree0 Demo.desktop 10 11 12
    (replicate (Z.to_nat 24800) 0) 200 100) as (buf' & s1 & s2 & E0 & Hsh & E1 & _ & _ & _ & E2 & W2 & C2 & Hp);
    [apply Demo.wf0|apply Demo.current0|exact Demo.objs1|reflexivity|reflexivity|reflexivity|..].
  - by apply (bool_decide_unpack (NoDup [10; 11; 12])).
  - intros p Hp Hq. cbn in Hp, Hq. rewrite !elem_of_cons in Hp. rewrite !elem_of_cons in Hq. rewrite elem_of_nil in Hp, Hq. lia.
  - unfold window_size. lia.
  - assert (B : forall p n, 0 <= p -> p + n <= 48000 -> TitleBar.block demo_memory p n).
    { intros p n H1 H2 i Hi. eexists. split; [reflexivity|]. destruct (Z.eqb_spec ((p + i) mod 4) 3); [lia|].
      assert (0 <= (p + i) / 2000 < 24); [|lia]. split; [apply Z.div_pos; lia|apply Z.div_lt_upper_bound; lia]. }
    split; try (eexists; split; [reflexivity|apply B; lia]).
    intros i Hi. unfold TitleBar.LightIds in Hi. rewrite !elem_of_cons, elem_of_nil in Hi.
    destruct Hi as [->|[->|[->|[]]]]; (eexists; split; [reflexivity|apply B; lia]).
  - split; [unfold alen; rewrite length_replicate; lia|]. apply Forall_replicate. lia.
  - vm_compute. lia.
  - cbn. lia.
  - vm_compute. lia.
  - exists buf', s1, s2. split; [exact E0|]. split; [exact E1|]. split; [exact E2|]. split; [exact W2|]. split; [exact C2|].
    assert (Hfree : forall x y, x < 512 -> forall u p, u ∈ drop (length (subtrees Demo.tree0) - 1) (subtrees Demo.tree0) ->
      p ∈ ptrs u -> ~ covers_at (objs Demo.screen0) p x y).
    { intros x y Hx u p Hu Hpu (d & Hd & Hcv). apply list_elem_of_singleton in Hu as ->. apply list_elem_of_singleton in Hpu as ->.
      rewrite Demo.objs2 in Hd. injection Hd as <-. unfold covers, inside in Hcv.
      rewrite (eq_refl : getBoundingRectangle Demo.pointer = Rectangle.mk 512 384 542 428) in Hcv. cbn [x1 x2 y1 y2] in Hcv. clear -Hx Hcv. lia. }
    destruct Hsh as (r & ye & g & l & c & ri & F0 & F1 & F2 & F3 & F4 & F5 & _ & Hat).
    injection F0 as <-. injection F1 as <-. injection F2 as <-. injection F3 as <-. injection F4 as <-. injection F5 as <-.
    assert (Hbar : forall x y v, 150 <= x < 350 -> 150 <= y < 181 ->
      (forall z, 0 <= z < 4 -> TitleBar.bar_pixel Blend.Single demo_memory 0 2000 4000 6000 8000 10000 200 (x - 150) (y - 150) z =
         (if z =? 3 then 255 else v)) -> pixel (buildBuffer s2) x y = RGB v v v).
    { intros x y v Hx Hy Hv. assert (Hs : on_screen x y) by (clear -Hx Hy; unfold on_screen, ScreenWidth, ScreenHeight; lia).
      assert (Hb : forall z, 0 <= z < 4 -> aget buf' (((y - 150) * 200 + (x - 150)) * 4 + z) = if z =? 3 then 255 else v).
      { intros z Hz. rewrite Hat; [exact (Hv z Hz)|clear -Hx; lia|clear -Hy; lia|exact Hz]. }
      assert (H0 : 0 <= 0 < 4) by (clear; lia). assert (H1 : 0 <= 1 < 4) by (clear; lia).
      assert (H2 : 0 <= 2 < 4) by (clear; lia). assert (H3 : 0 <= 3 < 4) by (clear; lia).
      destruct (Hp x y Hs (Hfree x y ltac:(clear -Hx; lia))) as (_ & HB & _). rewrite HB; [|exact Hx|exact Hy|exact (Hb 3 H3)].
      rewrite (Hb 0 H0), (Hb 1 H1), (Hb 2 H2). reflexivity. }
    assert (Hc : forall (P : Z -> Prop), P 0 -> P 1 -> P 2 -> P 3 -> forall z, 0 <= z < 4 -> P z).
    { clear. intros P H0 H1 H2 H3 z Hz. assert (z = 0 \/ z = 1 \/ z = 2 \/ z = 3) as [->|[->|[->| ->]]] by lia; assumption. }
    do 6 (split; [apply Hbar; [clear; lia|clear; lia|apply Hc; vm_compute; reflexivity]|]).
    destruct (Hp 200 200 ltac:(clear; unfold on_screen, ScreenWidth, ScreenHeight; lia) (Hfree 200 200 ltac:(clear; lia))) as (HB & _).
    apply HB. clear. unfold in_body. lia.
Defined.

End Windows.
