(* ===== verification/MouseDrv.v ===== *)
(** * The mouse driver and dragging (student-distrib/drivers/mouse.cpp)

    A packet of the mouse is three bytes. The handler of its interrupt decodes them and
    calls the pointer of the user interface: it moves, clicks, drags and releases. The
    handler is written against the interface [Pointer]; Compositor.v is an instance. *)
From stdpp Require Import prelude gmap list numbers.
From Stdlib Require Import ZArith Lia.
From S2P Require Import Prelude Stack Deque Container Compositor.

Module MouseDriver.

Definition LEFT_BUTTON : Z := Z.shiftl 1 0.
Definition RIGHT_BUTTON : Z := Z.shiftl 1 1.
Definition MIDDLE_BUTTON : Z := Z.shiftl 1 2.
Definition MOVEMENT_ONE : Z := Z.shiftl 1 3.
Definition X_SIGN : Z := Z.shiftl 1 4.
Definition Y_SIGN : Z := Z.shiftl 1 5.
Definition X_OVERFLOW : Z := Z.shiftl 1 6.
Definition Y_OVERFLOW : Z := Z.shiftl 1 7.

(** What the driver calls: [moveMouse] and the three handlers of ui/mouse.cpp. *)
Class Pointer (U : Type) := {
  moveMouse : U -> Z -> Z -> option U;
  leftClickHandler : U -> option U;
  leftReleaseHandler : U -> option U;
  dragHandler : U -> option U }.

(** The globals of the driver. [hasMove] is [moveMouse != nullptr]. *)
Record t := mk {
  last_read : bool;
  left_botton_pressed : bool;
  right_botton_pressed : bool;
  mouse_moved : bool;
  click_tick : Z;
  hasMove : bool }.

(** After the driver's start. *)
Definition init : t := mk false false false false 0 false.
Definition registerMouseMovementHandler (d : t) : t :=
  mk (last_read d) (left_botton_pressed d) (right_botton_pressed d) (mouse_moved d) (click_tick d) true.

Section driver.
Context {U : Type} `{Pointer U}.

(** The bytes the controller has for the driver, in order; [None] of [read_byte] is the
    loop that waits for one. *)
Definition read_byte (q : list Z) : option (Z * list Z) :=
  match q with b :: q => Some (b, q) | [] => None end.
Definition try_read_byte (q : list Z) : bool * Z * list Z :=
  match q with b :: q => (true, b, q) | [] => (false, 0, []) end.

Definition set_last_read (d : t) (b : bool) : t :=
  mk b (left_botton_pressed d) (right_botton_pressed d) (mouse_moved d) (click_tick d) (hasMove d).
Definition set_moved (d : t) (b : bool) : t :=
  mk (last_read d) (left_botton_pressed d) (right_botton_pressed d) b (click_tick d) (hasMove d).
Definition set_left (d : t) (b : bool) (tick : Z) : t :=
  mk (last_read d) b (right_botton_pressed d) (mouse_moved d) tick (hasMove d).
Definition set_right (d : t) (b : bool) : t :=
  mk (last_read d) (left_botton_pressed d) b (mouse_moved d) (click_tick d) (hasMove d).

(** A movement byte with the sign bit of the flags. *)
Definition delta (flags sign b : Z) : Z :=
  if negb (Z.land flags sign =? 0) then s32 (Z.lor b 0xFFFFFF00) else b.

(** The left button: press, drag, release. [tick] is [pit_gettick ()]; the handler of
    double clicks is not written, only the time of the click is kept. *)
Definition left_button (tick flags : Z) (d : t) (u : U) : option (t * U) :=
  if negb (Z.land flags LEFT_BUTTON =? 0) then
    let d := set_left d true (click_tick d) in
    u ← leftClickHandler u;
    if mouse_moved d then u ← dragHandler u; Some (d, u) else Some (d, u)
  else if left_botton_pressed d then
    let d := set_left d false (click_tick d) in
    u ← leftReleaseHandler u;
    if negb (mouse_moved d) then Some (set_left d false tick, u) else Some (d, u)
  else Some (d, u).

Definition right_button (flags : Z) (d : t) : t :=
  if negb (Z.land flags RIGHT_BUTTON =? 0) then set_right d true
  else if right_botton_pressed d then set_right d false else d.

Definition mouse_handler (tick : Z) (q : list Z) (d : t) (u : U) : option (list Z * t * U) :=
  let '(ok, flags, q) := try_read_byte q in
  let d := set_last_read d ok in
  if ok then
    if flags =? 0xFA then Some (q, d, u)
    else if negb (Z.land flags MOVEMENT_ONE =? 0) && (Z.land flags X_OVERFLOW =? 0) && (Z.land flags Y_OVERFLOW =? 0)
    then
      '(x, q) ← read_byte q;
      let deltax := delta flags X_SIGN x in
      '(y, q) ← read_byte q;
      let deltay := delta flags Y_SIGN y in
      u ← (if hasMove d then moveMouse u deltax deltay else Some u);
      let d := set_moved d (negb (deltax =? 0) || negb (deltay =? 0)) in
      '(d, u) ← left_button tick flags d u;
      Some (q, right_button flags d, u)
    else Some (q, d, u)
  else Some (q, d, u).

(** Interrupts at the ticks [ticks], one after the other. *)
Fixpoint interrupts (ticks : list Z) (q : list Z) (d : t) (u : U) : option (list Z * t * U) :=
  match ticks with
  | [] => Some (q, d, u)
  | tick :: ticks => '(q, d, u) ← mouse_handler tick q d u; interrupts ticks q d u
  end.

(** ** Packets *)

(** What a mouse sends: buttons, and a movement of nine bits in each direction. *)
Definition packet (left right middle : bool) (dx dy : Z) : list Z :=
  [Z.b2z left + 2 * Z.b2z right + 4 * Z.b2z middle + 8 + 16 * Z.b2z (dx <? 0) + 32 * Z.b2z (dy <? 0);
   dx mod 256; dy mod 256].
Definition in_packet (d : Z) : Prop := -256 <= d < 256.

Lemma delta_packet flags sign d : in_packet d -> (Z.land flags sign =? 0) = negb (d <? 0) ->
  delta flags sign (d mod 256) = d.
Proof.
  intros Hd Hs. unfold delta. rewrite Hs, negb_involutive. unfold in_packet in Hd. destruct (Z.ltb_spec d 0).
  - assert (Hb : forall b, In b (seqZ 0 256) -> s32 (Z.lor b 0xFFFFFF00) = b - 256).
    { assert (E : forallb (fun b => s32 (Z.lor b 0xFFFFFF00) =? b - 256) (seqZ 0 256) = true) by by vm_compute.
      intros b Hb. rewrite forallb_forall in E. by apply Z.eqb_eq, E. }
    assert (d mod 256 = d + 256) as -> by (symmetry; apply (Z.mod_unique _ _ (-1)); lia).
    rewrite Hb; [lia|]. apply list_elem_of_In, elem_of_seqZ. lia.
  - apply Z.mod_small. lia.
Qed.

(** The handler on a packet, whatever the buttons: the pointer moves by what the mouse
    sent, then the left button acts. *)
Lemma handler_packet tick l r m dx dy q d u : in_packet dx -> in_packet dy ->
  mouse_handler tick (packet l r m dx dy ++ q) d u =
  (u ← (if hasMove d then moveMouse u dx dy else Some u);
   '(d, u) ← left_button tick (Z.b2z l) (set_moved (set_last_read d true) (negb (dx =? 0) || negb (dy =? 0))) u;
   Some (q, right_button (2 * Z.b2z r) d, u)).
Proof.
  intros Hx Hy. unfold mouse_handler, packet. cbn [app try_read_byte read_byte mbind option_bind].
  set (flags := Z.b2z l + _ + _ + _ + _ + _).
  assert (E : (flags =? 0xFA) = false /\
    negb (Z.land flags MOVEMENT_ONE =? 0) && (Z.land flags X_OVERFLOW =? 0) && (Z.land flags Y_OVERFLOW =? 0) = true /\
    (Z.land flags X_SIGN =? 0) = negb (dx <? 0) /\ (Z.land flags Y_SIGN =? 0) = negb (dy <? 0) /\
    (Z.land flags LEFT_BUTTON =? 0) = (Z.land (Z.b2z l) LEFT_BUTTON =? 0) /\
    (Z.land flags RIGHT_BUTTON =? 0) = (Z.land (2 * Z.b2z r) RIGHT_BUTTON =? 0)).
  { unfold flags. destruct l, r, m, (dx <? 0), (dy <? 0); vm_compute; auto 10. }
  destruct E as (-> & -> & EX & EY & EL & ER). rewrite !delta_packet by done.
  unfold left_button, right_button. by rewrite EL, ER.
Qed.

Lemma right_button_keeps flags d : hasMove (right_button flags d) = hasMove d /\
  left_botton_pressed (right_button flags d) = left_botton_pressed d.
Proof. unfold right_button. destruct (negb _); [done|]. by destruct (right_botton_pressed d). Qed.
End driver.

End MouseDriver.

Module Drag.
Import Rectangle Container Compositor MouseDriver.

(** [moveOurMouse], [leftClickHandler], [leftReleaseHandler] and [dragHandler]. *)
Definition compositor_pointer (F : Blend.format) (fuel : nat) : Pointer Compositor.t := {|
  moveMouse := Compositor.moveMouse F fuel;
  leftClickHandler := Compositor.leftClick fuel;
  leftReleaseHandler s := Some (Compositor.leftRelease s);
  dragHandler := Compositor.drag F fuel |}.

(** ** Elements inside their parents *)

Definition small (c : Container.t) : Prop := 0 <= width c <= 2 ^ 13 /\ 0 <= height c <= 2 ^ 13.

(** Children lie in their parents wherever these are; what is drawn has its pixels. *)
Inductive fitted (h : gmap Z Container.t) : tree -> Prop :=
  | fitted_node p ts c : h !! p = Some c -> small c -> (isDrawable c = true -> textured c) ->
      (forall u d, u ∈ ts -> h !! top u = Some d ->
         0 <= relX d /\ relX d + width d <= width c /\ 0 <= relY d /\ relY d + height d <= height c) ->
      Forall (fitted h) ts -> fitted h (Node p ts).

(** Equal in what [fitted] reads. *)
Definition same_size (c d : Container.t) : Prop :=
  width d = width c /\ height d = height c /\ class d = class c /\ pixelBuffer d = pixelBuffer c.

Lemma fitted_ext h h' t : fitted h t ->
  (forall q c, q ∈ ptrs t -> h !! q = Some c -> exists d, h' !! q = Some d /\ same_size c d /\
     (q <> top t -> relX d = relX c /\ relY d = relY c)) ->
  NoDup (ptrs t) -> fitted h' t.
Proof.
  induction t as [p ts IH] using tree_ind. intros Ft E Hn. inversion Ft as [? ? c Hc Hsm Htx Hin Hts]; subst.
  cbn [ptrs] in Hn. apply list.NoDup_cons in Hn as [Hp Hn].
  destruct (E p c (top_ptr (Node p ts)) Hc) as (d & Hd & (E1 & E2 & E3 & E4) & _).
  assert (Hne : forall u q, u ∈ ts -> q ∈ ptrs u -> q <> p).
  { intros u q Hu Hq ->. apply Hp, elem_of_forest. by exists u. }
  apply (fitted_node _ _ _ d); [done| | | |].
  - unfold small. by rewrite E1, E2.
  - unfold isDrawable. rewrite E3. intros Hdr. destruct (Htx Hdr) as [T1 T2]. split; rewrite ?E1, ?E2, ?E4; done.
  - intros u e Hu He. rewrite list.Forall_forall in Hts. pose proof (Hts u Hu) as Fu.
    assert (exists e0, h !! top u = Some e0) as (e0 & He0) by (inversion Fu; eauto).
    assert (top u ∈ ptrs (Node p ts)) as Hq by (eapply ptrs_sub; [exact Hu|apply top_ptr]).
    destruct (E (top u) e0 Hq He0) as (e1 & He1 & (F1 & F2 & _) & Hr). assert (e1 = e) as -> by congruence.
    destruct Hr as [R1 R2]; [apply (Hne u); [done|apply top_ptr]|].
    rewrite E1, E2, F1, F2, R1, R2. by apply Hin with (u := u).
  - rewrite list.Forall_forall in Hts, IH |- *. intros u Hu. apply (IH u Hu); [by apply Hts| |].
    + intros q e Hq He. assert (q ∈ ptrs (Node p ts)) as Hq' by (by eapply ptrs_sub).
      destruct (E q e Hq' He) as (e1 & He1 & S1 & Hr). exists e1. split; [done|]. split; [done|].
      intros _. apply Hr. by apply (Hne u).
    + apply list_elem_of_lookup in Hu as [i Hi]. by destruct (forest_nodup ts Hn _ _ Hi).
Qed.

(** Away from the ends of the coordinates. *)
Definition central (c : Container.t) : Prop :=
  - 2 ^ 20 <= absX c /\ absX c + width c <= 2 ^ 20 /\ - 2 ^ 20 <= absY c /\ absY c + height c <= 2 ^ 20.

Lemma covers_plain c x y : small c -> central c ->
  covers c x y <-> absX c <= x < absX c + width c /\ absY c <= y < absY c + height c.
Proof.
  intros [Hw Hh] (H1 & H2 & H3 & H4). unfold covers, inside, getBoundingRectangle; cbn. rewrite !s32_id by lia. done.
Qed.

(** A fitted tree whose top is central: every element is, and covers no more than its parent. *)
Lemma fitted_central h t : forall px py, fitted h t -> placed h px py t ->
  (forall c, h !! top t = Some c -> central c) ->
  nested h t /\ forall q c, q ∈ ptrs t -> h !! q = Some c -> central c /\ small c /\ painted c.
Proof.
  induction t as [p ts IH] using tree_ind. intros px py Ft Pt Hc.
  inversion Ft as [? ? c Hp Hsm Htx Hin Hts]; subst. inversion Pt as [? ? c0 Hp0 HX HY Pts]; subst.
  assert (c0 = c) as -> by congruence. cbn [top] in Hc. pose proof (Hc c Hp) as Cc.
  rewrite list.Forall_forall in IH, Hts, Pts.
  assert (Hch : forall u d, u ∈ ts -> h !! top u = Some d -> central d /\ small d /\
    absX d = absX c + relX d /\ absY d = absY c + relY d).
  { intros u d Hu Hd. destruct (Hin u d Hu Hd) as (R1 & R2 & R3 & R4).
    pose proof (Pts u Hu) as Pu. inversion Pu as [p1 ts1 d1 Hd1 DX DY _]; subst. cbn [top] in Hd.
    assert (d1 = d) as -> by congruence. pose proof (Hts _ Hu) as Fu. inversion Fu as [? ? d2 Hd2 Hs2 _ _ _]; subst.
    assert (d2 = d) as -> by congruence. destruct Cc as (C1 & C2 & C3 & C4), Hsm as [Hw Hh], Hs2 as [Hw2 Hh2].
    rewrite s32_id in DX by lia. rewrite s32_id in DY by lia. unfold central, small. lia. }
  split.
  - constructor.
    + apply list.Forall_forall. intros u Hu. apply (IH u Hu (absX c) (absY c)); [by apply Hts|by apply Pts|].
      intros d Hd. by apply (Hch u d Hu Hd).
    + intros u x y Hu _ (d & Hd & Hcv). exists c. split; [done|].
      destruct (Hch u d Hu Hd) as (Cd & Sd & EX & EY). destruct (Hin u d Hu Hd) as (R1 & R2 & R3 & R4).
      apply covers_plain in Hcv; [|done..]. apply covers_plain; [done..|]. lia.
  - intros q d Hq Hd. cbn [ptrs] in Hq. rewrite elem_of_cons in Hq. destruct Hq as [->|Hq].
    + assert (d = c) as -> by congruence. split; [done|]. split; [done|]. intros Hdr.
      apply textured_painted; [by apply Htx| |done]. destruct Cc as (C1 & C2 & C3 & C4), Hsm as [Hw Hh]. split; lia.
    + apply elem_of_forest in Hq as (u & Hu & Hq).
      apply (IH u Hu (absX c) (absY c)) with (q := q); [by apply Hts|by apply Pts| |done|done].
      intros e He. by apply (Hch u e Hu He).
Qed.

Lemma child_apart T u : NoDup (ptrs T) -> u ∈ subtrees T -> NoDup (ptrs u) /\ top T ∉ ptrs u /\
  forall w, w ∈ subtrees T -> w = u \/ forall q, q ∈ ptrs w -> q ∉ ptrs u.
Proof.
  destruct T as [r ts]. cbn [ptrs subtrees top]. intros [Hr Hn]%list.NoDup_cons Hu.
  apply list_elem_of_lookup in Hu as [i Hi]. destruct (forest_nodup ts Hn _ _ Hi) as [Nu D]. split; [done|]. split.
  - intros Hq. apply Hr, elem_of_forest. exists u. split; [by eapply list_elem_of_lookup_2|done].
  - intros w Hw. apply list_elem_of_lookup in Hw as [j Hj]. destruct (decide (j = i)) as [->|Hne]; [left; congruence|].
    right. intros q Hq Hq'. by apply (D j w Hj Hne q).
Qed.

Lemma need_child T u : u ∈ subtrees T -> (need u <= need T)%nat.
Proof.
  destruct T as [r ts]. cbn [subtrees]. rewrite need_node. intros Hu.
  cut (need u <= needs ts)%nat; [lia|]. induction Hu as [u ts|u w ts Hu IH]; cbn [needs]; lia.
Qed.
Lemma nodes_child T u : u ∈ subtrees T -> (nodes u < nodes T)%nat.
Proof.
  destruct T as [r ts]. cbn [subtrees]. rewrite nodes_node. intros Hu. unfold nodes.
  cut (length (ptrs u) <= length (flat_map ptrs ts))%nat; [lia|].
  induction Hu as [u ts|u w ts Hu IH]; cbn [flat_map]; rewrite length_app; lia.
Qed.
Lemma depth_nodes T : (depth T <= nodes T)%nat.
Proof.
  induction T as [p ts IH] using tree_ind. rewrite nodes_node. cbn [depth]. apply le_n_S.
  induction IH as [|u ts Hu _ IH]; [cbn; lia|]. cbn [flat_map]. rewrite length_app.
  change (list_max (depth <$> u :: ts)) with (Nat.max (depth u) (list_max (depth <$> ts))). unfold nodes in Hu. lia.
Qed.

Section moves.
Context (F : Blend.format).

(** A fitted child of the desktop at another place: the elements stay in good order. *)
Lemma wf_relocated s T u c X Y h : wf s T -> u ∈ subtrees T -> fitted (objs s) u -> objs s !! top u = Some c ->
  relocated (objs s) h u c X Y -> reps h T -> placed h 0 0 T ->
  - 2 ^ 19 <= X <= 2 ^ 19 -> - 2 ^ 19 <= Y <= 2 ^ 19 -> wf (set_objs s h) T /\ fitted h u.
Proof.
  intros W Hu Ft Hc (Htop & Hout & Habs) R P HX HY.
  destruct (child_apart T u (wf_nodup _ _ W) Hu) as (Nu & Hr & Hw).
  assert (Fh : fitted h u).
  { apply (fitted_ext (objs s)); [done| |done]. intros q d Hq Hd. destruct (decide (q = top u)) as [->|Hne].
    - rewrite Htop. eexists. split; [done|]. assert (d = c) as -> by congruence. by repeat split.
    - destruct (Habs q d Hne Hd) as (x & y & ->). eexists. split; [done|]. by repeat split. }
  split; [|done]. assert (Pu : exists px py, placed h px py u).
  { destruct T as [r ts]. inversion P as [? ? d _ _ _ Ps]; subst. rewrite list.Forall_forall in Ps. eauto. }
  destruct Pu as (px & py & Pu).
  assert (Cu : forall d, h !! top u = Some d -> central d).
  { intros d. rewrite Htop. intros [= <-]. inversion Ft as [? ? d0 Hd0 [Sw Sh] _ _ _]; subst. cbn [top] in Hc.
    assert (d0 = c) as -> by congruence. unfold central. cbn [absX absY width height set_rel set_abs]. lia. }
  destruct (fitted_central h u px py Fh Pu Cu) as [Nst El].
  destruct W as [W1 W2 W3 W4 W5 W6 (cr & Hcr & Hvr & Hor) W8 W9]. split; try done; cbn [objs set_objs].
  - destruct T as [r ts]. cbn [subtrees top] in *. inversion W5 as [? ? Hn5 Hc5]; subst. constructor.
    + rewrite list.Forall_forall in Hn5 |- *. intros w Hw'. destruct (Hw w Hw') as [->|Hd]; [done|].
      apply (nested_frame (objs s)); [by apply Hn5|]. intros q Hq. by apply Hout, Hd.
    + intros w x y _ Hs _. exists cr. rewrite Hout by done. split; [done|]. by apply Hor.
  - intros q d Hq Hd. destruct (decide (q ∈ ptrs u)) as [Hin|Hnin]; [by apply (El q d)|].
    rewrite Hout in Hd by done. by apply (W6 q).
  - exists cr. by rewrite Hout.
Qed.

(** The state of the compositor, its elements in good order and in their places. *)
Record ready (s : Compositor.t) (T : tree) : Prop := {
  rd_wf : wf s T;
  rd_mirrors : mirrors s;
  rd_placed : placed (objs s) 0 0 T }.

(** [s'] is [s] with other elements and another picture. *)
Definition same_drag (s s' : Compositor.t) : Prop :=
  theMouse s' = theMouse s /\ isDragging s' = isDragging s /\
  dragOffsetX s' = dragOffsetX s /\ dragOffsetY s' = dragOffsetY s.

Lemma move_child fuel s T u c X Y : ready s T -> u ∈ subtrees T -> fitted (objs s) u ->
  objs s !! top u = Some c -> - 2 ^ 19 <= X <= 2 ^ 19 -> - 2 ^ 19 <= Y <= 2 ^ 19 -> (nodes T < fuel)%nat ->
  exists s', updateLocation_container F fuel s (top u) X Y = Some s' /\ ready s' T /\
    relocated (objs s) (objs s') u c X Y /\ fitted (objs s') u /\ same_drag s s'.
Proof.
  intros [W M P] Hu Ft Hc HX HY Hf.
  destruct (relocate_spec fuel (objs s) T u c X Y 0 0 (wf_reps _ _ W) (wf_nodup _ _ W)) as (h & E & R' & P' & Re);
    [|done| |done|lia|lia|].
  { destruct T as [r ts]. apply (sub_child u r ts u); [done|constructor]. }
  { pose proof (depth_nodes T). lia. }
  destruct (wf_relocated s T u c X Y h W Hu Ft Hc Re R' P' HX HY) as [W1 F1].
  unfold updateLocation_container. rewrite Hc. cbn [mbind option_bind]. rewrite E. cbn [mbind option_bind].
  destruct (redraw_spec F fuel (set_objs s h) T (getBoundingRectangle c) W1 M Hf) as (s2 & -> & S2 & M2 & P2).
  cbn [mbind option_bind]. pose proof (screen_only_objs _ _ S2) as O2. cbn [objs set_objs] in O2. rewrite O2.
  destruct Re as [Htop Re]. rewrite Htop. cbn [mbind option_bind].
  assert (W2 : wf s2 T).
  { apply (wf_screen (set_objs s h)); [done..|]. intros x y Hs. rewrite (P2 x y Hs).
    case_decide; [apply over_byte, byte_black|by apply (wf_bytes _ _ W)]. }
  assert (Ru : reps h u /\ nested h u).
  { pose proof (wf_nested _ _ W1) as N1. destruct T as [r ts]. inversion R' as [? ? d _ _ Rs]; subst.
    inversion N1 as [? ? Ns _]; subst. rewrite list.Forall_forall in Rs, Ns. cbn [objs set_objs] in Ns. auto. }
  match goal with |- context [drawSingle F fuel s2 _ ?rect ?old] =>
    destruct (drawSingle_spec F fuel s2 u rect old) as (s3 & E3 & S3 & M3 & P3) end.
  - rewrite O2. apply Ru.
  - rewrite O2. apply Ru.
  - intros q d Hq. apply (wf_painted _ _ W2). destruct T as [r ts]. by eapply ptrs_sub.
  - pose proof (need_child T u Hu). pose proof (wf_fits _ _ W). lia.
  - pose proof (nodes_child T u Hu). lia.
  - apply (wf_helper _ _ W2).
  - done.
  - pose proof (screen_only_objs _ _ S3) as O3. rewrite O2 in O3. exists s3. split; [exact E3|]. split.
    + split; [|done|by rewrite O3]. apply (wf_screen s2); [done..|]. intros x y Hs. destruct P3 as [P3 _].
      rewrite (P3 x y Hs). pose proof (wf_bytes _ _ W2 x y Hs) as Hb. unfold except, scene.
      destruct (decide _); [|done]. destruct (hasPoint _ _ _); [done|by apply over_byte].
    + rewrite O3. split; [by split|]. split; [done|]. unfold same_drag. rewrite S3, S2. done.
Qed.

(** ** Holding a window *)

(** The element under the pointer moves the window [u]: it is the window itself or its
    title bar. *)
Inductive grip (h : gmap Z Container.t) (u : tree) : Z -> Prop :=
  | grip_window o a b : h !! top u = Some o -> class o = Window a b -> grip h u (top u)
  | grip_bar e o w a b : Node e [] ∈ subtrees u -> h !! e = Some o -> class o = TitleBar ->
      parent o = Some (top u) -> relX o = 0 -> relY o = 0 ->
      h !! top u = Some w -> class w = Window a b -> grip h u e.

Definition in_range (c : Container.t) : Prop :=
  - ClickPointOffsetX <= absX c <= ScreenWidth - ClickPointOffsetX /\
  - ClickPointOffsetY <= absY c <= ScreenHeight - ClickPointOffsetY.

(** The pointer [m] holds the element [e] of the window [u] at the place that it took it. *)
Record held (s : Compositor.t) (T u : tree) (m e : Z) (c o : Container.t) : Prop := {
  hd_ready : ready s T;
  hd_mouse : theMouse s = Some m /\ Node m [] ∈ subtrees T /\ fitted (objs s) (Node m []);
  hd_window : u ∈ subtrees T /\ m ∉ ptrs u /\ fitted (objs s) u;
  hd_grip : grip (objs s) u e;
  hd_pointer : objs s !! m = Some c /\ class c = Mouse /\ in_range c;
  hd_elem : objs s !! e = Some o;
  hd_drag : isDragging s = Some (Some e);
  hd_offset : absX c - absX o = dragOffsetX s /\ absY c - absY o = dragOffsetY s;
  hd_reach : - 2 ^ 14 <= dragOffsetX s <= 2 ^ 14 /\ - 2 ^ 14 <= dragOffsetY s <= 2 ^ 14 }.

Lemma grip_ptrs h u e : grip h u e -> e ∈ ptrs u.
Proof.
  destruct u as [p ts]. inversion 1; subst; [apply top_ptr|]. eapply ptrs_sub; [done|]. by left.
Qed.

(** Where the pointer goes. *)
Definition clampX (x : Z) : Z := Z.max (- ClickPointOffsetX) (Z.min (ScreenWidth - ClickPointOffsetX) x).
Definition clampY (y : Z) : Z := Z.max (- ClickPointOffsetY) (Z.min (ScreenHeight - ClickPointOffsetY) y).

Lemma clamp_range x y : - 6 <= clampX x <= 1018 /\ - 8 <= clampY y <= 760.
Proof. unfold clampX, clampY, ClickPointOffsetX, ClickPointOffsetY, ScreenWidth, ScreenHeight. lia. Qed.

Lemma frame_fitted h h' u : fitted h u -> NoDup (ptrs u) -> (forall q, q ∈ ptrs u -> h' !! q = h !! q) -> fitted h' u.
Proof.
  intros Ft Hn E. apply (fitted_ext h); [done| |done]. intros q c Hq Hc. exists c. rewrite E by done.
  split; [done|]. split; [by repeat split|done].
Qed.

Lemma grip_frame h h' u e : grip h u e -> (forall q, q ∈ ptrs u -> h' !! q = h !! q) -> grip h' u e.
Proof.
  intros G E. pose proof (grip_ptrs _ _ _ G) as He. destruct G as [o a b Ho Hk|e o w a b Hin Ho Hk Hp HX HY Hw Hkw].
  - apply (grip_window _ _ o a b); [|done]. rewrite E; [done|apply top_ptr].
  - apply (grip_bar _ _ e o w a b); try done; rewrite E; auto using top_ptr.
Qed.

(** The pointer moves; the window it holds stays for now. *)
Lemma held_moveMouse fuel s T u m e c o dx dy : held s T u m e c o -> in_packet dx -> in_packet dy -> (nodes T < fuel)%nat ->
  exists s' c', Compositor.moveMouse F fuel s dx dy = Some s' /\ ready s' T /\
    objs s' !! m = Some c' /\ class c' = Mouse /\ fitted (objs s') (Node m []) /\
    absX c' = clampX (absX c + dx) /\ absY c' = clampY (absY c - dy) /\
    (forall q, q <> m -> objs s' !! q = objs s !! q) /\ same_drag s s'.
Proof.
  intros [Hrd (Hm & Hin & Fm) _ _ (Hc & Hk & [RX RY]) _ _ _ _] Hdx Hdy Hf. unfold in_packet in *.
  pose proof (clamp_range (absX c + dx) (absY c - dy)) as [BX BY].
  destruct (move_child fuel s T (Node m []) c (clampX (absX c + dx)) (clampY (absY c - dy)) Hrd Hin Fm Hc)
    as (s' & E & Hrd' & (Htop & Hout & _) & Fm' & Sd); [lia|lia|done|]. cbn [top] in *.
  unfold ClickPointOffsetX, ClickPointOffsetY, ScreenWidth, ScreenHeight in RX, RY.
  eexists s', _. split; [|split; [done|split; [exact Htop|split; [exact Hk|split; [done|split; [done|split; [done|split; [|done]]]]]]]].
  - rewrite <- E. unfold Compositor.moveMouse. rewrite Hm. cbn [mbind option_bind]. rewrite Hc. cbn [mbind option_bind]. cbv zeta.
    rewrite !(s32_id (_ + dx)), !(s32_id (_ - dy)) by lia.
    unfold updateLocation. rewrite Hc. cbn [mbind option_bind]. rewrite Hk.
    by rewrite !clamp_spec by (unfold ClickPointOffsetX, ClickPointOffsetY, ScreenWidth, ScreenHeight; lia).
  - intros q Hq. apply Hout. cbn. by rewrite list_elem_of_singleton.
Qed.

Lemma placed_at h px py t p : placed h px py t -> Node p [] ∈ subtrees t ->
  exists c d, h !! top t = Some c /\ h !! p = Some d /\ absX d = s32 (absX c + relX d) /\ absY d = s32 (absY c + relY d).
Proof.
  intros P Hin. destruct t as [r ts]. inversion P as [? ? c Hc _ _ Ps]; subst. rewrite list.Forall_forall in Ps.
  pose proof (Ps _ Hin) as Pp. inversion Pp as [? ? d Hd DX DY _]; subst. by exists c, d.
Qed.

(** [drag] brings the window under the pointer: the element held is at the pointer's
    position less the offset. *)
Lemma held_drag fuel s T u m e c : ready s T -> (nodes T < fuel)%nat ->
  theMouse s = Some m -> objs s !! m = Some c -> in_range c ->
  u ∈ subtrees T -> fitted (objs s) u -> grip (objs s) u e -> isDragging s = Some (Some e) ->
  - 2 ^ 14 <= dragOffsetX s <= 2 ^ 14 -> - 2 ^ 14 <= dragOffsetY s <= 2 ^ 14 ->
  exists s' o', Compositor.drag F fuel s = Some s' /\ ready s' T /\ fitted (objs s') u /\ grip (objs s') u e /\
    objs s' !! e = Some o' /\ absX o' = absX c - dragOffsetX s /\ absY o' = absY c - dragOffsetY s /\
    (forall q, q ∉ ptrs u -> objs s' !! q = objs s !! q) /\ same_drag s s'.
Proof.
  intros Hrd Hf Hm Hc [RX RY] Hu Fu G Hdr OX OY.
  unfold ClickPointOffsetX, ClickPointOffsetY, ScreenWidth, ScreenHeight in RX, RY.
  assert (Hw : exists w, objs s !! top u = Some w) by (destruct G; eauto). destruct Hw as (w & Hw).
  destruct (move_child fuel s T u w (absX c - dragOffsetX s) (absY c - dragOffsetY s) Hrd Hu Fu Hw)
    as (s' & E & Hrd' & (Htop & Hout & Habs) & Fu' & Sd); [lia|lia|done|].
  assert (Es : set_drag s (Some (Some e)) (dragOffsetX s) (dragOffsetY s) = s) by (rewrite <- Hdr; by destruct s).
  assert (ED : forall o, objs s !! e = Some o -> isMovable o = true -> Compositor.drag F fuel s =
    updateLocation F 1 fuel s e (s32 (absX c - dragOffsetX s)) (s32 (absY c - dragOffsetY s))).
  { intros o Ho Hmv. unfold Compositor.drag. rewrite Hm. cbn [mbind option_bind]. rewrite Hc. cbn [mbind option_bind].
    rewrite Hdr. cbn [mbind option_bind]. rewrite Es, Ho. cbn [mbind option_bind]. by rewrite Hmv. }
  rewrite (s32_id (absX c - _)), (s32_id (absY c - _)) in ED by lia.
  destruct G as [o a b Ho Hk|e o w' a b Hin Ho Hk Hp HX HY Hw' Hkw].
  - assert (o = w) as -> by congruence. eexists s', _. split.
    { rewrite (ED w Ho); [|unfold isMovable; by rewrite Hk]. cbn [updateLocation]. rewrite Ho. cbn [mbind option_bind]. rewrite Hk. exact E. }
    split; [done|]. split; [done|]. split; [by apply (grip_window _ _ _ a b Htop)|]. split; [exact Htop|].
    split; [done|]. split; [done|]. by split.
  - assert (w' = w) as -> by congruence.
    assert (Hne : e <> top u).
    { pose proof (proj1 (child_apart T u (wf_nodup _ _ (rd_wf _ _ Hrd)) Hu)) as Nu. destruct u as [p ts]. cbn [ptrs subtrees top] in *.
      apply list.NoDup_cons in Nu as [Np _]. intros ->. apply Np, elem_of_forest. exists (Node p []). split; [done|by left]. }
    destruct (Habs e o Hne Ho) as (x & y & He').
    destruct T as [r ts]. pose proof (rd_placed _ _ Hrd') as P'. inversion P' as [? ? cr _ _ _ Ps]; subst.
    rewrite list.Forall_forall in Ps. destruct (placed_at _ _ _ u e (Ps u Hu) Hin) as (w1 & d & Hw1 & Hd & DX & DY).
    rewrite Htop in Hw1. injection Hw1 as <-. rewrite He' in Hd. injection Hd as <-. cbn [absX absY relX relY set_abs set_rel] in DX, DY.
    rewrite HX, Z.add_0_r, s32_id in DX by lia. rewrite HY, Z.add_0_r, s32_id in DY by lia.
    eexists s', _. split.
    { rewrite (ED o Ho); [|unfold isMovable; by rewrite Hk]. cbn [updateLocation]. rewrite Ho. cbn [mbind option_bind]. rewrite Hk, Hp.
      cbn [mbind option_bind]. rewrite Hw. cbn [mbind option_bind]. rewrite Hkw. exact E. }
    split; [done|]. split; [done|]. split; [by apply (grip_bar _ _ e _ _ a b Hin He' Hk Hp HX HY Htop)|].
    split; [exact He'|]. split; [done|]. split; [done|]. by split.
Qed.

(** One packet with the left button down. *)
Lemma held_packet fuel tick s T u m e c o d r md dx dy q : held s T u m e c o -> in_packet dx -> in_packet dy ->
  (nodes T < fuel)%nat -> hasMove d = true ->
  exists d' s' c' o', mouse_handler (H := compositor_pointer F fuel) tick (packet true r md dx dy ++ q) d s = Some (q, d', s') /\
    held s' T u m e c' o' /\ absX c' = clampX (absX c + dx) /\ absY c' = clampY (absY c - dy) /\
    absX c' - absX o' = absX c - absX o /\ absY c' - absY o' = absY c - absY o /\
    (forall z, z ∉ ptrs u -> z <> m -> objs s' !! z = objs s !! z) /\
    hasMove d' = true /\ left_botton_pressed d' = true.
Proof.
  intros Hh Hdx Hdy Hf Hmv. rewrite handler_packet by done. rewrite Hmv.
  destruct (held_moveMouse fuel s T u m e c o dx dy Hh Hdx Hdy Hf)
    as (s1 & c1 & E1 & Hrd1 & Hc1 & Hk1 & Fm1 & CX & CY & Out1 & (D1 & D2 & D3 & D4)).
  destruct Hh as [_ (Hm & Hin & _) (Hu & Hmu & Fu) G (Hc & Hk & HR) Ho Hdr (OX & OY) (LX & LY)].
  cbn [moveMouse compositor_pointer]. rewrite E1. cbn [mbind option_bind].
  pose proof (child_apart T u (wf_nodup _ _ (rd_wf _ _ Hrd1)) Hu) as (Nu & _).
  assert (Eu : forall z, z ∈ ptrs u -> objs s1 !! z = objs s !! z) by (intros z Hz; apply Out1; intros ->; done).
  assert (R1 : in_range c1).
  { unfold in_range. rewrite CX, CY. pose proof (clamp_range (absX c + dx) (absY c - dy)).
    unfold ClickPointOffsetX, ClickPointOffsetY, ScreenWidth, ScreenHeight. lia. }
  pose proof (frame_fitted _ _ _ Fu Nu Eu) as Fu1. pose proof (grip_frame _ _ _ _ G Eu) as G1.
  set (d1 := set_moved (set_last_read d true) (negb (dx =? 0) || negb (dy =? 0))).
  unfold left_button. change (negb (Z.land (Z.b2z true) LEFT_BUTTON =? 0)) with true. cbv iota.
  cbn [leftClickHandler dragHandler compositor_pointer].
  assert (EL : Compositor.leftClick fuel s1 = Some s1).
  { unfold Compositor.leftClick. rewrite D1, Hm. cbn [mbind option_bind]. rewrite Hc1. cbn [mbind option_bind]. by rewrite D2, Hdr. }
  rewrite EL. cbn [mbind option_bind].
  destruct (mouse_moved (set_left d1 true (click_tick d1))) eqn:Emv.
  - destruct (held_drag fuel s1 T u m e c1) as (s2 & o2 & E2 & Hrd2 & Fu2 & G2 & Ho2 & AX & AY & Out2 & (B1 & B2 & B3 & B4));
      try done; try congruence.
    rewrite E2. cbn [mbind option_bind]. eexists _, s2, c1, o2. split; [done|].
    assert (Hm2 : objs s2 !! m = objs s1 !! m) by by apply Out2.
    assert (Fm2 : fitted (objs s2) (Node m [])).
    { apply (frame_fitted (objs s1)); [done|apply list.NoDup_singleton|]. intros z Hz%list_elem_of_singleton. by subst z. }
    split; [split|]; try done.
    + rewrite B1, D1. done.
    + by rewrite Hm2.
    + by rewrite B2, D2.
    + rewrite B3, B4. lia.
    + rewrite B3, B4, D3, D4. done.
    + split; [done|]. split; [done|]. split; [lia|]. split; [lia|]. split; [|destruct (right_button_keeps (2 * Z.b2z r) (set_left d1 true (click_tick d1))) as [-> ->]; done].
      intros z Hz Hzm. rewrite Out2 by done. by apply Out1.
  - assert (dx = 0 /\ dy = 0) as [-> ->].
    { cbn in Emv. apply orb_false_iff in Emv as [E2%negb_false_iff%Z.eqb_eq E3%negb_false_iff%Z.eqb_eq]. done. }
    assert (EX : absX c1 = absX c /\ absY c1 = absY c).
    { destruct HR as [HX HY]. rewrite CX, CY. unfold clampX, clampY. lia. }
    destruct EX as [EX EY]. eexists _, s1, c1, o. split; [done|].
    assert (He : objs s1 !! e = Some o) by (rewrite Eu; [done|by apply (grip_ptrs _ _ _ G)]).
    split; [split|]; try done.
    + by rewrite D1.
    + by rewrite D2.
    + rewrite D3, D4. lia.
    + by rewrite D3, D4.
    + split; [done|]. split; [done|]. split; [lia|]. split; [lia|]. split; [|destruct (right_button_keeps (2 * Z.b2z r) (set_left d1 true (click_tick d1))) as [-> ->]; done].
      intros z _ Hzm. by apply Out1.
Qed.

Definition held_moves (moves : list (Z * Z)) : list Z := flat_map (fun '(dx, dy) => packet true false false dx dy) moves.
Definition travel (moves : list (Z * Z)) (p : Z * Z) : Z * Z :=
  foldl (fun '(x, y) '(dx, dy) => (clampX (x + dx), clampY (y - dy))) p moves.

Lemma held_run fuel moves : forall ticks rest s T u m e c o d, held s T u m e c o ->
  Forall (fun v => in_packet v.1 /\ in_packet v.2) moves -> length ticks = length moves ->
  (nodes T < fuel)%nat -> hasMove d = true -> left_botton_pressed d = true ->
  exists d' s' c' o', interrupts (H := compositor_pointer F fuel) ticks (held_moves moves ++ rest) d s = Some (rest, d', s') /\
    held s' T u m e c' o' /\ (absX c', absY c') = travel moves (absX c, absY c) /\
    absX c' - absX o' = absX c - absX o /\ absY c' - absY o' = absY c - absY o /\
    (forall z, z ∉ ptrs u -> z <> m -> objs s' !! z = objs s !! z) /\
    hasMove d' = true /\ left_botton_pressed d' = true.
Proof.
  induction moves as [|[dx dy] moves IH]; intros [|tick ticks] rest s T u m e c o d Hh Hin Hlen Hf Hmv Hl; try done.
  - exists d, s, c, o. by split_and!.
  - apply list.Forall_cons in Hin as [[Hdx Hdy] Hin]. cbn [held_moves flat_map interrupts]. rewrite <- app_assoc.
    destruct (held_packet fuel tick s T u m e c o d false false dx dy (held_moves moves ++ rest) Hh Hdx Hdy Hf Hmv)
      as (d1 & s1 & c1 & o1 & E1 & H1 & CX & CY & RX & RY & Out1 & M1 & L1).
    change (flat_map _ moves) with (held_moves moves). rewrite E1. cbn [mbind option_bind].
    destruct (IH ticks rest s1 T u m e c1 o1 d1 H1 Hin) as (d2 & s2 & c2 & o2 & E2 & H2 & P2 & RX2 & RY2 & Out2 & M2 & L2);
      [by injection Hlen|done..|].
    exists d2, s2, c2, o2. split; [exact E2|]. split; [done|]. split; [by rewrite P2, CX, CY|].
    split; [lia|]. split; [lia|]. split; [|done]. intros z Hz Hzm. by rewrite Out2, Out1.
Qed.

(** The press: the pointer takes hold of what the hit test finds. *)
Lemma press_holds fuel s T u m e c o : ready s T ->
  theMouse s = Some m -> Node m [] ∈ subtrees T -> fitted (objs s) (Node m []) ->
  u ∈ subtrees T -> m ∉ ptrs u -> fitted (objs s) u -> grip (objs s) u e ->
  objs s !! m = Some c -> class c = Mouse -> in_range c -> objs s !! e = Some o ->
  - 2 ^ 14 <= absX c - absX o <= 2 ^ 14 -> - 2 ^ 14 <= absY c - absY o <= 2 ^ 14 ->
  isDragging s = None -> getElementAtPosition fuel s (absX c) (absY c) = Some (Some e) ->
  exists s', Compositor.leftClick fuel s = Some s' /\ held s' T u m e c o /\ objs s' = objs s.
Proof.
  intros [W M P] Hm Hin Fm Hu Hmu Fu G Hc Hk HR Ho HX HY Hd Hhit. unfold Compositor.leftClick.
  rewrite Hm. cbn [mbind option_bind]. rewrite Hc. cbn [mbind option_bind]. rewrite Hd, Hhit. cbn [mbind option_bind].
  rewrite Ho. cbn [mbind option_bind]. rewrite !s32_id by lia. eexists. split; [done|]. split; [|done].
  split; try done. split; [|exact M|exact P]. destruct W as [W1 W2 W3 W4 W5 W6 W7 W8 W9]. by split.
Qed.

(** C19: ** Dragging a window

    The pointer is over the title bar (or the frame) of a window on the desktop. The
    button goes down, the mouse sends any sequence of movements with the button down, then
    the button goes up. Every packet is decoded and handled; the pointer ends where the
    movements take it, clamped to the screen at every step, the window's bar is at the
    same place under the pointer as when it was taken, nothing but the window and the
    pointer moved, and the window is released. *)
Theorem drag_carries_window fuel s T u m e c o d moves ticks tick :
  ready s T -> (nodes T < fuel)%nat ->
  theMouse s = Some m -> Node m [] ∈ subtrees T -> fitted (objs s) (Node m []) ->
  u ∈ subtrees T -> m ∉ ptrs u -> fitted (objs s) u -> grip (objs s) u e ->
  objs s !! m = Some c -> class c = Mouse -> in_range c -> objs s !! e = Some o ->
  - 2 ^ 14 <= absX c - absX o <= 2 ^ 14 -> - 2 ^ 14 <= absY c - absY o <= 2 ^ 14 ->
  isDragging s = None -> getElementAtPosition fuel s (absX c) (absY c) = Some (Some e) ->
  hasMove d = true -> left_botton_pressed d = true ->
  Forall (fun v => in_packet v.1 /\ in_packet v.2) moves -> length ticks = length moves ->
  exists s1 d' s' c' o', Compositor.leftClick fuel s = Some s1 /\
    interrupts (H := compositor_pointer F fuel) (ticks ++ [tick]) (held_moves moves ++ packet false false false 0 0) d s1 =
      Some ([], d', s') /\
    isDragging s' = None /\ left_botton_pressed d' = false /\ wf s' T /\ mirrors s' /\
    objs s' !! m = Some c' /\ objs s' !! e = Some o' /\
    (absX c', absY c') = travel moves (absX c, absY c) /\
    absX c' - absX o' = absX c - absX o /\ absY c' - absY o' = absY c - absY o /\
    (forall z, z ∉ ptrs u -> z <> m -> objs s' !! z = objs s !! z).
Proof.
  intros Hrd Hf Hm Hin Fm Hu Hmu Fu G Hc Hk HR Ho HX HY Hd Hhit Hmv Hl Hmoves Hlen.
  destruct (press_holds fuel s T u m e c o) as (s1 & E1 & H1 & O1); [done..|].
  destruct (held_run fuel moves ticks (packet false false false 0 0) s1 T u m e c o d H1 Hmoves Hlen Hf Hmv Hl)
    as (d2 & s2 & c2 & o2 & E2 & H2 & P2 & RX2 & RY2 & Out2 & M2 & L2).
  destruct (held_moveMouse fuel s2 T u m e c2 o2 0 0 H2) as (s3 & c3 & E3 & Hrd3 & Hc3 & _ & _ & CX & CY & Out3 & _);
    [unfold in_packet; lia..|done|].
  pose proof H2 as [_ _ (_ & Hmu2 & _) G2 (Hc2 & _ & [RX RY]) Ho2 _ _ _].
  assert (He3 : objs s3 !! e = Some o2).
  { rewrite Out3; [done|]. intros ->. apply Hmu2. by apply (grip_ptrs (objs s2)). }
  assert (EC : absX c3 = absX c2 /\ absY c3 = absY c2) by (rewrite CX, CY; unfold clampX, clampY; lia). destruct EC as [EX EY].
  assert (ER : forall ts q d0 u0, interrupts (H := compositor_pointer F fuel) (ts ++ [tick]) q d0 u0 =
    ('(q, d0, u0) ← interrupts (H := compositor_pointer F fuel) ts q d0 u0; mouse_handler (H := compositor_pointer F fuel) tick q d0 u0)).
  { induction ts as [|t0 ts IH]; intros q d0 u0; cbn [app interrupts mbind option_bind].
    - destruct (mouse_handler tick q d0 u0) as [[[? ?] ?]|]; done.
    - destruct (mouse_handler t0 q d0 u0) as [[[? ?] ?]|]; [|done]. cbn [mbind option_bind]. apply IH. }
  exists s1. eexists _, (Compositor.leftRelease s3), c3, o2. split; [done|]. split.
  { rewrite ER, E2. cbn [mbind option_bind]. rewrite <- (app_nil_r (packet _ _ _ _ _)), handler_packet by (unfold in_packet; lia).
    rewrite M2. cbn [moveMouse compositor_pointer]. rewrite E3. cbn [mbind option_bind].
    unfold left_button. change (negb (Z.land (Z.b2z false) LEFT_BUTTON =? 0)) with false. cbv iota.
    change (left_botton_pressed (set_moved _ _)) with (left_botton_pressed d2). rewrite L2. cbn. done. }
  destruct Hrd3 as [W3 M3 P3]. split; [done|]. split; [|split; [|split; [exact M3|]]].
  - by rewrite (proj2 (right_button_keeps _ _)).
  - destruct W3 as [A1 A2 A3 A4 A5 A6 A7 A8 A9]. by split.
  - split; [exact Hc3|]. split; [exact He3|]. split; [by rewrite EX, EY, P2|]. split; [lia|]. split; [lia|].
    intros z Hz Hzm. change (objs (Compositor.leftRelease s3)) with (objs s3). rewrite Out3, Out2 by done. by rewrite O1.
Qed.
End moves.

(** ** A desktop with a window *)

Module Demo.
Definition push (ps : list Z) : Deque.t Z :=
  foldl (fun q p => default q (Deque.push_back q p)) Deque.init ps.
Definition desktop : Container.t :=
  Container.mk ScreenWidth ScreenHeight 0 0 0 0 true (push [10; 2]) None Desktop (Compositor.Demo.flat 3145728 7).
Definition pointer : Container.t :=
  Container.mk MouseWidth MouseHeight 200 160 200 160 true Deque.init (Some 1) Mouse (Compositor.Demo.flat 5280 255).
Definition window : Container.t :=
  Container.mk 200 100 150 150 150 150 true (push [12; 11]) (Some 1) (Window 11 12) (fun _ => None).
Definition bar : Container.t :=
  Container.mk 200 31 150 150 0 0 true Deque.init (Some 10) TitleBar (Compositor.Demo.flat 24800 99).
Definition body : Container.t :=
  Container.mk 196 65 152 177 2 27 true Deque.init (Some 10) WindowBody (Compositor.Demo.flat 50960 255).
Definition win : tree := Node 10 [Node 12 []; Node 11 []].
Definition tree1 : tree := Node 1 [win; Node 2 []].
Definition objs1 : gmap Z Container.t := {[ 1 := desktop; 2 := pointer; 10 := window; 11 := bar; 12 := body ]}.
Definition screen1 : Compositor.t :=
  Compositor.mk objs1 (Some 1) (Some 2) (fun _ => 0) (fun _ => 0) Text HelpBGR None 0 0.
Definition driver : MouseDriver.t := MouseDriver.mk true true false false 0 true.

Lemma push_rep a b : Deque.rep (push [a; b]) [a; b].
Proof.
  unfold push. cbn [foldl]. destruct (Deque.push_back_spec Deque.init [] a Deque.init_rep) as (q & -> & R); [done|].
  cbn [from_option]. change (id q) with q. destruct (Deque.push_back_spec q ([] ++ [a]) b R) as (q' & -> & R'); [done|]. exact R'.
Qed.

Lemma at1 : objs1 !! 1 = Some desktop. Proof. reflexivity. Qed.
Lemma at2 : objs1 !! 2 = Some pointer. Proof. reflexivity. Qed.
Lemma at10 : objs1 !! 10 = Some window. Proof. reflexivity. Qed.
Lemma at11 : objs1 !! 11 = Some bar. Proof. reflexivity. Qed.
Lemma at12 : objs1 !! 12 = Some body. Proof. reflexivity. Qed.

Lemma flat_fitted p c n v : objs1 !! p = Some c -> pixelBuffer c = Compositor.Demo.flat n v -> 0 <= v < 256 ->
  n = width c * height c * 4 -> small c -> fitted objs1 (Node p []).
Proof.
  intros Hp Hf Hv Hn Hs. apply (fitted_node _ _ _ c); [done|done| | |constructor].
  - intros _. destruct Hs. apply (Compositor.Demo.flat_textured c n v); try done; try lia; nia.
  - intros u d Hu. by apply not_elem_of_nil in Hu.
Qed.
Lemma fitted_win : fitted objs1 win.
Proof.
  apply (fitted_node _ _ _ window); [exact at10|split; cbn; lia|done| |].
  - intros u d Hu. rewrite !elem_of_cons, elem_of_nil in Hu. destruct Hu as [->|[->|[]]]; cbn [top].
    + rewrite at12. intros [= <-]. cbn. lia.
    + rewrite at11. intros [= <-]. cbn. lia.
  - constructor; [|constructor; [|constructor]].
    + apply (flat_fitted 12 body 50960 255); [exact at12|reflexivity|lia|reflexivity|split; cbn; lia].
    + apply (flat_fitted 11 bar 24800 99); [exact at11|reflexivity|lia|reflexivity|split; cbn; lia].
Qed.
Lemma fitted_pointer : fitted objs1 (Node 2 []).
Proof. apply (flat_fitted 2 pointer 5280 255); [exact at2|reflexivity|lia|reflexivity|unfold small; cbn; unfold MouseWidth, MouseHeight; lia]. Qed.

Lemma placed1 : placed objs1 0 0 tree1.
Proof.
  apply (placed_node _ _ _ _ _ desktop); [exact at1|reflexivity|reflexivity|]. constructor; [|constructor; [|constructor]].
  - apply (placed_node _ _ _ _ _ window); [exact at10|reflexivity|reflexivity|]. constructor; [|constructor; [|constructor]].
    + apply (placed_node _ _ _ _ _ body); [exact at12|reflexivity|reflexivity|constructor].
    + apply (placed_node _ _ _ _ _ bar); [exact at11|reflexivity|reflexivity|constructor].
  - apply (placed_node _ _ _ _ _ pointer); [exact at2|reflexivity|reflexivity|constructor].
Qed.

Lemma desktop_base x y : on_screen x y -> covers desktop x y /\ texel desktop x y = Some (RGB 7 7 7, 255).
Proof.
  intros Hs. destruct (Compositor.Demo.desktop_opaque x y Hs) as [A B]. split; [exact A|exact B].
Qed.

Lemma reps1 : reps objs1 tree1.
Proof.
  apply (reps_node _ _ _ desktop); [exact at1|apply push_rep|]. constructor; [|constructor; [|constructor]].
  - apply (reps_node _ _ _ window); [exact at10|apply push_rep|]. constructor; [|constructor; [|constructor]].
    + apply (reps_node _ _ _ body); [exact at12|exact Deque.init_rep|constructor].
    + apply (reps_node _ _ _ bar); [exact at11|exact Deque.init_rep|constructor].
  - apply (reps_node _ _ _ pointer); [exact at2|exact Deque.init_rep|constructor].
Qed.

Lemma ready1 : ready screen1 tree1.
Proof.
  assert (Cw : forall c, objs1 !! 10 = Some c -> central c) by (intros c; rewrite at10; intros [= <-]; unfold central; cbn; lia).
  assert (Cp : forall c, objs1 !! 2 = Some c -> central c).
  { intros c. rewrite at2. intros [= <-]. unfold central, MouseWidth, MouseHeight; cbn. unfold MouseWidth, MouseHeight. lia. }
  pose proof placed1 as P1. inversion P1 as [? ? c1 Hc1 _ _ Ps]; subst. rewrite list.Forall_forall in Ps.
  destruct (fitted_central objs1 win _ _ fitted_win (Ps win ltac:(left)) Cw) as [Nw Ew].
  destruct (fitted_central objs1 (Node 2 []) _ _ fitted_pointer (Ps (Node 2 []) ltac:(right; left)) Cp) as [Np Ep].
  split; [|intros H; discriminate H|exact placed1]. split; [reflexivity|exact reps1|..|reflexivity].
  - by apply (bool_decide_unpack (NoDup (ptrs tree1))).
  - vm_compute. lia.
  - constructor; [by constructor; [|constructor; [|constructor]]|]. intros u x y _ Hs _. exists desktop.
    split; [exact at1|]. by apply desktop_base.
  - intros q c Hq Hc. cbn [ptrs tree1 flat_map] in Hq. rewrite elem_of_cons, elem_of_app, app_nil_r in Hq.
    destruct Hq as [->|[Hq|Hq]]; [|by apply (Ew q c)|by apply (Ep q c)].
    assert (c = desktop) as -> by (change (objs1 !! 1 = Some c) in Hc; rewrite at1 in Hc; congruence). intros _ x y Hs _.
    destruct (desktop_base x y Hs) as [_ B]. exists (RGB 7 7 7), 255. split; [exact B|unfold byte_rgb; cbn; lia].
  - exists desktop. split; [exact at1|]. split; [reflexivity|]. intros x y Hs. destruct (desktop_base x y Hs) as [A B].
    split; [reflexivity|]. split; [exact A|]. by exists (RGB 7 7 7).
  - intros x y _. unfold byte_rgb, pixel; cbn. lia.
Qed.
End Demo.

Lemma drag_carries_window_witness :
  exists s1 d' s' c' o', Compositor.leftClick 10 Demo.screen1 = Some s1 /\
    interrupts (H := compositor_pointer Blend.Single 10) ([1; 2] ++ [3])
      (held_moves [(-255, 100); (40, -3)] ++ packet false false false 0 0) Demo.driver s1 = Some ([], d', s') /\
    isDragging s' = None /\ left_botton_pressed d' = false /\ wf s' Demo.tree1 /\ mirrors s' /\
    objs s' !! 2 = Some c' /\ objs s' !! 11 = Some o' /\
    (absX c', absY c') = (34, 63) /\
    absX c' - absX o' = 50 /\ absY c' - absY o' = 10 /\
    (forall z, z ∉ ptrs Demo.win -> z <> 2 -> objs s' !! z = objs Demo.screen1 !! z).
Proof.
  apply (drag_carries_window Blend.Single 10 Demo.screen1 Demo.tree1 Demo.win 2 11 Demo.pointer Demo.bar Demo.driver
    [(-255, 100); (40, -3)] [1; 2] 3).
  - apply Demo.ready1.
  - vm_compute. lia.
  - reflexivity.
  - right. left.
  - exact Demo.fitted_pointer.
  - left.
  - cbn. rewrite !elem_of_cons, elem_of_nil. lia.
  - exact Demo.fitted_win.
  - apply (grip_bar _ _ _ Demo.bar Demo.window 11 12); try reflexivity. right. left.
  - exact Demo.at2.
  - reflexivity.
  - unfold in_range, ClickPointOffsetX, ClickPointOffsetY, ScreenWidth, ScreenHeight; cbn. lia.
  - exact Demo.at11.
  - cbn. lia.
  - cbn. lia.
  - reflexivity.
  - vm_compute. reflexivity.
  - reflexivity.
  - reflexivity.
  - constructor; [unfold in_packet; cbn; lia|]. constructor; [unfold in_packet; cbn; lia|constructor].
  - reflexivity.
Defined.

End Drag.
