(* ===== verification/Pci.v ===== *)
(** * The PCI scan and the timer (student-distrib/drivers/pci.cpp, scan_pci.cpp, pit.cpp)

    The configuration space is read through an address port and a data port: a function
    from addresses to words here. The scan visits the functions that answer and keeps the
    disk controllers. The timer's rate register is computed from a frequency. *)
From stdpp Require Import prelude list numbers.
From Stdlib Require Import ZArith Lia.
From S2P Require Import Prelude Deque.

Module Pci.

Definition PCI_NUM_BUS : Z := 256.
Definition PCI_NUM_DEVICE : Z := 32.
Definition PCI_NUM_FUNC : Z := 8.

Record UnitDev := mk { busId : Z; devId : Z; funcId : Z }.

(** [Register::Register] *)
Definition configAddr (bus device func registerId : Z) : Z :=
  u32 (Z.lor (Z.lor (Z.lor (Z.lor (Z.shiftl bus 16) (Z.shiftl device 11)) (Z.shiftl func 8))
         (Z.land registerId 0xfc)) 0x80000000).

Lemma configAddr_sum bus device func reg : 0 <= bus < 256 -> 0 <= device < 32 -> 0 <= func < 8 -> 0 <= reg < 256 ->
  configAddr bus device func reg = 2 ^ 31 + bus * 2 ^ 16 + device * 2 ^ 11 + func * 2 ^ 8 + (reg / 4) * 4.
Proof.
  intros Hb Hd Hf Hr. unfold configAddr.
  assert (Er : Z.land reg 0xfc = reg / 4 * 4).
  { assert (E : forallb (fun r => Z.land r 0xfc =? r / 4 * 4) (seqZ 0 256) = true) by by vm_compute.
    rewrite forallb_forall in E. apply Z.eqb_eq, E, list_elem_of_In, elem_of_seqZ. lia. }
  assert (E1 : Z.lor (Z.shiftl bus 16) (Z.shiftl device 11) = Z.shiftl (bus * 2 ^ 5 + device) 11).
  { rewrite (Z.shiftl_mul_pow2 device), lor_shiftl_add, Z.shiftl_mul_pow2 by lia. lia. }
  assert (E2 : Z.lor (Z.shiftl (bus * 2 ^ 5 + device) 11) (Z.shiftl func 8) =
    Z.shiftl ((bus * 2 ^ 5 + device) * 2 ^ 3 + func) 8).
  { rewrite (Z.shiftl_mul_pow2 func), lor_shiftl_add, Z.shiftl_mul_pow2 by lia. lia. }
  assert (Hr4 : 0 <= reg / 4 * 4 < 2 ^ 8) by (Z.div_mod_to_equations; lia).
  rewrite E1, E2, Er, lor_shiftl_add by lia. rewrite Z.lor_comm. change 0x80000000 with (Z.shiftl 1 31).
  rewrite lor_shiftl_add, u32_small by lia. lia.
Qed.

(** Different registers have different addresses. *)
Lemma configAddr_inj b d f r b' d' f' r' : 0 <= b < 256 -> 0 <= d < 32 -> 0 <= f < 8 -> 0 <= r < 64 ->
  0 <= b' < 256 -> 0 <= d' < 32 -> 0 <= f' < 8 -> 0 <= r' < 64 ->
  configAddr b d f (4 * r) = configAddr b' d' f' (4 * r') -> b = b' /\ d = d' /\ f = f' /\ r = r'.
Proof.
  intros. rewrite !configAddr_sum in * by lia. rewrite !(Z.mul_comm 4), !Z.div_mul in * by lia. lia.
Qed.

Section scan.
Context (config : Z -> Z).

(** [Register(bus, device, func, registerId).get()] *)
Definition get (bus device func registerId : Z) : Z := config (configAddr bus device func registerId).

Definition findDevOn {A} (bus device : Z) (callback : Z -> Z -> Z -> A -> option A) (a : A) : option A :=
  let vendorID := Z.land (get bus device 0 0) 0xffff in
  if vendorID =? 0xFFFF then Some a
  else
    let headerType := Z.land (Z.shiftr (get bus device 0 0xC) 16) 0xff in
    if negb (Z.land headerType 0x80 =? 0) then
      for_opt (Z.to_nat PCI_NUM_FUNC) 0 (fun func a =>
        if Z.land (get bus device func 0) 0xffff =? 0xffff then Some a
        else callback bus device func a) a
    else callback bus device 0 a.

Definition findAllFunctions {A} (func : Z -> Z -> Z -> A -> option A) (a : A) : option A :=
  for_opt (Z.to_nat PCI_NUM_BUS) 0 (fun i a =>
    for_opt (Z.to_nat PCI_NUM_DEVICE) 0 (fun j a => findDevOn i j func a) a) a.

(** The callback of the driver [scanpci], less its prints. *)
Definition scan_callback (bus device func : Z) (PATAControllers : Deque.t UnitDev) : option (Deque.t UnitDev) :=
  let classInfo := get bus device func 0x8 in
  if Z.shiftr classInfo 16 =? 0x0101 then Deque.push_back PATAControllers (mk bus device func)
  else Some PATAControllers.
Definition scanpci : option (Deque.t UnitDev) := findAllFunctions scan_callback Deque.init.

(** ** What is to be found *)

Definition present (bus device func : Z) : Prop := Z.land (get bus device func 0) 0xffff <> 0xffff.
Definition multifunction (bus device : Z) : Prop := Z.testbit (get bus device 0 0xC) 23 = true.

(** A function answers; functions beyond the first count only on a device that says it
    has them. *)
Definition exists_at (u : UnitDev) : Prop :=
  present (busId u) (devId u) 0 /\ present (busId u) (devId u) (funcId u) /\
  (funcId u = 0 \/ multifunction (busId u) (devId u)).
#[local] Instance exists_at_dec u : Decision (exists_at u).
Proof. unfold exists_at, present, multifunction. apply _. Defined.

(** Every place of the bus, in the order of the scan. *)
Definition places_on (bus device : Z) : list UnitDev := mk bus device <$> seqZ 0 PCI_NUM_FUNC.
Definition places_of (bus : Z) : list UnitDev := flat_map (places_on bus) (seqZ 0 PCI_NUM_DEVICE).
Definition places : list UnitDev := flat_map places_of (seqZ 0 PCI_NUM_BUS).

(** The callback over a list of functions. *)
Fixpoint over {A} (f : Z -> Z -> Z -> A -> option A) (us : list UnitDev) (a : A) : option A :=
  match us with [] => Some a | u :: us => a ← f (busId u) (devId u) (funcId u) a; over f us a end.

Lemma visit_app {A} (f : Z -> Z -> Z -> A -> option A) us vs a : over f (us ++ vs) a = (a ← over f us a; over f vs a).
Proof.
  revert a. induction us as [|u us IH]; intros a; [done|]. cbn [app over].
  destruct (f (busId u) (devId u) (funcId u) a); [apply IH|done].
Qed.


Lemma for_opt_over {A} (f : Z -> Z -> Z -> A -> option A) (g : Z -> list UnitDev) step (n : nat) :
  (forall i a, step i a = over f (g i) a) ->
  forall lo a, for_opt n lo step a = over f (flat_map g (seqZ lo (Z.of_nat n))) a.
Proof.
  intros E. induction n as [|n IH]; intros lo a; cbn [for_opt]; [done|].
  rewrite (seqZ_cons lo) by lia. cbn [flat_map]. rewrite visit_app, E.
  replace (Z.succ lo) with (lo + 1) by lia. replace (Z.pred (Z.of_nat (S n))) with (Z.of_nat n) by lia.
  destruct (over f (g lo) a); [apply IH|done].
Qed.

Lemma filter_flat {B} (g : B -> list UnitDev) bs : filter exists_at (flat_map g bs) = flat_map (fun b => filter exists_at (g b)) bs.
Proof. induction bs as [|b bs IH]; [done|]. cbn [flat_map]. by rewrite list.filter_app, IH. Qed.

Lemma header_bit w : negb (Z.land (Z.land (Z.shiftr w 16) 0xff) 0x80 =? 0) = Z.testbit w 23.
Proof.
  rewrite <- Z.land_assoc. change (Z.land 0xff 0x80) with (2 ^ 7).
  destruct (Z.testbit w 23) eqn:E.
  - apply negb_true_iff, Z.eqb_neq. intros H. apply (f_equal (fun v => Z.testbit v 7)) in H.
    rewrite Z.land_spec, Z.shiftr_spec, Z.pow2_bits_true, Z.testbit_0_l in H by lia. change (7 + 16) with 23 in H. by rewrite E in H.
  - apply negb_false_iff, Z.eqb_eq, Z.bits_inj'. intros n Hn. rewrite Z.land_spec, Z.testbit_0_l, Z.pow2_bits_eqb by lia.
    destruct (Z.eqb_spec 7 n) as [<-|]; [|apply andb_false_r]. rewrite Z.shiftr_spec by lia. change (7 + 16) with 23. by rewrite E.
Qed.

Lemma places_on_elem bus device u : u ∈ places_on bus device -> busId u = bus /\ devId u = device.
Proof. unfold places_on. rewrite list_elem_of_fmap. by intros (func & -> & _). Qed.

Lemma filter_nothing us : (forall u, u ∈ us -> ~ exists_at u) -> filter exists_at us = [].
Proof.
  induction us as [|u us IH]; intros Hn; [done|]. rewrite filter_cons_False by (apply Hn; left).
  apply IH. intros v Hv. apply Hn. by right.
Qed.

Lemma findDevOn_over {A} (f : Z -> Z -> Z -> A -> option A) bus device a :
  findDevOn bus device f a = over f (filter exists_at (places_on bus device)) a.
Proof.
  unfold findDevOn. destruct (Z.eqb_spec (Z.land (get bus device 0 0) 0xffff) 0xFFFF) as [E|E].
  { rewrite filter_nothing; [done|]. intros u (E1 & E2)%places_on_elem (Hp & _). unfold present in Hp. by rewrite E1, E2 in Hp. }
  rewrite header_bit. destruct (Z.testbit (get bus device 0 0xC) 23) eqn:Em.
  - rewrite (for_opt_over f (fun func => filter exists_at [mk bus device func])).
    + f_equal. unfold places_on. rewrite Z2Nat.id by done. induction (seqZ 0 PCI_NUM_FUNC) as [|x l IH]; [done|].
      cbn [flat_map fmap list_fmap]. rewrite IH. change (mk bus device x :: (mk bus device <$> l)) with ([mk bus device x] ++ (mk bus device <$> l)).
      by rewrite list.filter_app.
    + intros func b. destruct (Z.eqb_spec (Z.land (get bus device func 0) 0xffff) 0xffff) as [E'|E'].
      * rewrite filter_cons_False; [done|]. by intros (_ & Hp & _).
      * rewrite filter_cons_True; [|split; [done|]; split; [done|right; done]]. cbn. by destruct (f bus device func b).
  - unfold places_on. rewrite seqZ_cons by done. rewrite fmap_cons, filter_cons_True; [|split; [done|]; split; [done|by left]].
    rewrite filter_nothing; [cbn; by destruct (f bus device 0 a)|]. intros u Hu (_ & _ & [H0|Hm]).
    + apply list_elem_of_fmap in Hu as (x & -> & Hx%elem_of_seqZ). cbn in H0. lia.
    + apply list_elem_of_fmap in Hu as (x & -> & Hx). unfold multifunction in Hm. cbn [busId devId] in Hm. congruence.
Qed.

Lemma findAllFunctions_over {A} (f : Z -> Z -> Z -> A -> option A) a :
  findAllFunctions f a = over f (filter exists_at places) a.
Proof.
  unfold findAllFunctions, places. rewrite filter_flat.
  rewrite (for_opt_over f (fun i => filter exists_at (places_of i))); [by rewrite Z2Nat.id|]. intros i b.
  unfold places_of. rewrite filter_flat.
  rewrite (for_opt_over f (fun j => filter exists_at (places_on i j))); [by rewrite Z2Nat.id|]. intros j c. apply findDevOn_over.
Qed.

Definition is_pata (u : UnitDev) : Prop := Z.shiftr (get (busId u) (devId u) (funcId u) 0x8) 16 = 0x0101.
#[local] Instance is_pata_dec u : Decision (is_pata u).
Proof. unfold is_pata. apply _. Defined.

Lemma scan_step u q : scan_callback (busId u) (devId u) (funcId u) q =
  if decide (is_pata u) then Deque.push_back q u else Some q.
Proof.
  unfold scan_callback, is_pata. destruct (Z.eqb_spec (Z.shiftr (get (busId u) (devId u) (funcId u) 8) 16) 257).
  - rewrite decide_True by done. by destruct u.
  - by rewrite decide_False.
Qed.

Lemma scan_over us : forall q l, Deque.rep q l -> alen l + Z.of_nat (length us) < 2 ^ 30 ->
  exists q', over scan_callback us q = Some q' /\ Deque.rep q' (l ++ filter is_pata us).
Proof.
  induction us as [|u us IH]; intros q l R Hl; cbn [over].
  - exists q. by rewrite app_nil_r.
  - cbn [length] in Hl. rewrite scan_step. destruct (decide (is_pata u)) as [E|E].
    + destruct (Deque.push_back_spec q l u R) as (q1 & -> & R1); [lia|]. cbn [mbind option_bind].
      rewrite filter_cons_True by done. destruct (IH q1 _ R1) as (q2 & E2 & R2); [unfold alen in *; rewrite length_app; cbn [length]; lia|].
      exists q2. split; [done|]. by rewrite <- app_assoc in R2.
    + cbn [mbind option_bind]. rewrite filter_cons_False by done. apply IH; [done|lia].
Qed.

Lemma places_length : length places = 65536%nat.
Proof.
  unfold places. assert (E : forall bs, length (flat_map places_of bs) = (256 * length bs)%nat).
  { induction bs as [|b bs IH]; [done|]. cbn [flat_map]. rewrite length_app, IH. cbn [length].
    assert (length (places_of b) = 256%nat) as -> by reflexivity. lia. }
  rewrite E, length_seqZ. reflexivity.
Qed.

Lemma flat_elem {B} (g : B -> list UnitDev) bs u : u ∈ flat_map g bs <-> exists b, b ∈ bs /\ u ∈ g b.
Proof.
  rewrite list_elem_of_In, in_flat_map. split; intros (b & H1 & H2); exists b; split; by apply list_elem_of_In.
Qed.

Lemma places_elem u : u ∈ places <-> 0 <= busId u < 256 /\ 0 <= devId u < 32 /\ 0 <= funcId u < 8.
Proof.
  unfold places. rewrite flat_elem. split.
  - intros (b & Hb%elem_of_seqZ & Hu). unfold places_of in Hu. apply flat_elem in Hu as (d & Hd%elem_of_seqZ & Hu).
    unfold places_on in Hu. apply list_elem_of_fmap in Hu as (f & -> & Hf%elem_of_seqZ). cbn [busId devId funcId].
    unfold PCI_NUM_BUS, PCI_NUM_DEVICE, PCI_NUM_FUNC in *. lia.
  - intros (Hb & Hd & Hf). exists (busId u). split; [apply elem_of_seqZ; unfold PCI_NUM_BUS; lia|].
    apply flat_elem. exists (devId u). split; [apply elem_of_seqZ; unfold PCI_NUM_DEVICE; lia|].
    apply list_elem_of_fmap. exists (funcId u). split; [by destruct u|]. apply elem_of_seqZ. unfold PCI_NUM_FUNC. lia.
Qed.

Lemma nodup_flat {B} (g : B -> list UnitDev) bs : NoDup bs -> (forall b, NoDup (g b)) ->
  (forall b b' u, u ∈ g b -> u ∈ g b' -> b = b') -> NoDup (flat_map g bs).
Proof.
  intros Hn Hg Hd. induction Hn as [|b bs Hb _ IH]; cbn [flat_map]; [constructor|]. apply list.NoDup_app.
  split; [done|]. split; [|done]. intros u Hu (b' & Hb' & Hu')%flat_elem. by rewrite (Hd b b' u Hu Hu') in Hb.
Qed.

Lemma places_nodup : NoDup places.
Proof.
  apply nodup_flat; [apply NoDup_seqZ|intros b; apply nodup_flat; [apply NoDup_seqZ| |]|].
  - intros d. apply NoDup_fmap_2; [|apply NoDup_seqZ]. by intros x y [= ->].
  - intros d d' u (_ & <-)%places_on_elem (_ & E)%places_on_elem. done.
  - intros b b' u (d & _ & (<- & _)%places_on_elem)%flat_elem (d' & _ & (E & _)%places_on_elem)%flat_elem. done.
Qed.

(** ** The scan

    Whatever the configuration space holds, the scan gives the deque of the disk
    controllers (class 1, subclass 1) among the functions that exist, each once, in the
    order of bus, device and function. *)
Theorem scan_finds_controllers :
  exists q, scanpci = Some q /\ Deque.rep q (filter is_pata (filter exists_at places)) /\
    NoDup (filter is_pata (filter exists_at places)) /\
    forall u, u ∈ filter is_pata (filter exists_at places) <->
      is_pata u /\ exists_at u /\ 0 <= busId u < 256 /\ 0 <= devId u < 32 /\ 0 <= funcId u < 8.
Proof.
  unfold scanpci. rewrite findAllFunctions_over.
  destruct (scan_over (filter exists_at places) Deque.init [] Deque.init_rep) as (q & E & R).
  { pose proof (length_filter exists_at places) as Hl. rewrite places_length in Hl. unfold alen; cbn [length].
    change 65536%nat with (Z.to_nat 65536) in Hl. lia. }
  exists q. split; [done|]. split; [exact R|]. split.
  - by apply list.NoDup_filter, list.NoDup_filter, places_nodup.
  - intros u. rewrite !list_elem_of_filter, places_elem. done.
Qed.
End scan.

End Pci.

(** ** The timer (drivers/pit.cpp) *)

Module Pit.

Definition PIT_MAX_FREQ : Z := 1193182.
Definition PIT_MIN_FREQ : Z := 19.
Definition PIT_CMD_PORT : Z := 0x43.
Definition PIT_DATA_PORT (channel : Z) : Z := 0x40 + channel.

(** Conversion to [int16_t]. *)
Definition s16 (x : Z) : Z := let y := u16 x in if y <? 2 ^ 15 then y else y - 2 ^ 16.

(** The new [freq_copy], the bytes written to ports in order, and the result. *)
Definition pit_config (channel mode freq : Z) : Z * list (Z * Z) * Z :=
  if negb (channel =? 0) && negb (channel =? 2) then (freq, [], -1)
  else if negb (mode =? 2) && negb (mode =? 3) then (freq, [], -1)
  else
    let rate := s16 (if freq <? PIT_MIN_FREQ then 0
                     else if PIT_MAX_FREQ <? freq then 2
                     else u32 (PIT_MAX_FREQ + freq / 2) / freq) in
    let data := s16 (Z.lor (Z.lor (Z.shiftl channel 6) 0x30) (Z.shiftl mode 1)) in
    (freq, [(PIT_CMD_PORT, u8 data); (PIT_DATA_PORT channel, u8 rate);
            (PIT_DATA_PORT channel, u8 (Z.shiftr rate 8))], 0).

Definition pit_init (freq : Z) : Z * list (Z * Z) * Z := pit_config 0 2 freq.

Lemma u8_split x : u8 (s16 x) + 2 ^ 8 * u8 (Z.shiftr (s16 x) 8) = u16 x.
Proof.
  unfold s16, u8, u16. rewrite Z.shiftr_div_pow2 by lia.
  pose proof (Z.mod_pos_bound x (2 ^ 16) ltac:(lia)). set (y := x mod 2 ^ 16) in *.
  destruct (Z.ltb_spec y (2 ^ 15)); Z.div_mod_to_equations; lia.
Qed.

(** The divisor that reaches the timer is the one nearest to the exact quotient. *)
Lemma pit_rate_nearest channel mode freq : channel = 0 \/ channel = 2 -> mode = 2 \/ mode = 3 ->
  PIT_MIN_FREQ <= freq <= PIT_MAX_FREQ ->
  exists cmd lo hi, pit_config channel mode freq =
    (freq, [(PIT_CMD_PORT, cmd); (PIT_DATA_PORT channel, lo); (PIT_DATA_PORT channel, hi)], 0) /\
    2 * Z.abs ((lo + 2 ^ 8 * hi) * freq - PIT_MAX_FREQ) <= freq.
Proof.
  intros Hc Hm [H1 H2]. unfold PIT_MIN_FREQ, PIT_MAX_FREQ in *. eexists _, _, _. split.
  - unfold pit_config. destruct Hc as [->| ->], Hm as [->| ->]; reflexivity.
  - unfold PIT_MIN_FREQ, PIT_MAX_FREQ. rewrite (proj2 (Z.ltb_ge _ _)), (proj2 (Z.ltb_ge _ _)) by lia. rewrite u8_split.
    rewrite u32_small by (Z.div_mod_to_equations; lia).
    assert (Hq : 0 <= (1193182 + freq / 2) / freq < 2 ^ 16).
    { split; [apply Z.div_pos; Z.div_mod_to_equations; lia|]. apply Z.div_lt_upper_bound; Z.div_mod_to_equations; lia. }
    rewrite u16_small by done. set (q := (1193182 + freq / 2) / freq) in *.
    pose proof (Z.div_mod (1193182 + freq / 2) freq ltac:(lia)) as D. pose proof (Z.mod_pos_bound (1193182 + freq / 2) freq ltac:(lia)) as B.
    fold q in D. Z.div_mod_to_equations. lia.
Qed.

(** The highest frequencies get the rate 1. *)
Lemma pit_rate_one : pit_init PIT_MAX_FREQ = (PIT_MAX_FREQ, [(PIT_CMD_PORT, 0x34); (PIT_DATA_PORT 0, 1); (PIT_DATA_PORT 0, 0)], 0).
Proof. reflexivity. Qed.

End Pit.
