(* ===== verification/Sound.v ===== *)
(** * The sound driver (drivers/sb16.cpp)

    The driver programs the DMA controller to walk round a buffer of two blocks, starts
    the card, and refills at every interrupt the block that was just played. The file
    comes from the dispatcher (class [Disp], with the kernel of Kernel.v as an instance)
    and the card is behind the class [Card], whose laws are the parts of the data sheets
    of the Sound Blaster 16 and of the 8237 that the driver relies on. Waiting for a
    ready bit of the card is taken to end, [new] to succeed. *)
From stdpp Require Import prelude list numbers.
From Stdlib Require Import ZArith Lia.
From S2P Require Import Prelude LPHash KissFS FileDesc Sys Kernel.

(** ** What the driver asks of the dispatcher (fs/filesystem.cpp) *)

(** [None] is a fault. An [open] that fails leaves a [File] without a file. *)
Class Disp (S F : Type) := {
  d_open : S -> list Z -> option (option F * S);
  d_read : S -> F -> Z -> option (Z * list Z * F * S);
  d_close : S -> F -> bool * S }.

(** From position [p] of a file of length [L], a read of [n] bytes gives [piece p n],
    as many bytes as were asked for or are left. *)
Class ReadsAs {S F} `{Disp S F} (L : Z) (piece : Z -> Z -> list Z) (at_ : S -> F -> Z -> Prop) : Prop := {
  piece_len p n : 0 <= p <= L -> 0 <= n -> alen (piece p n) = Z.min n (L - p);
  read_piece s f p n : at_ s f p -> 0 <= p <= L -> 0 <= n < 2 ^ 31 ->
    exists f' s', d_read s f n = Some (alen (piece p n), piece p n, f', s') /\
      at_ s' f' (p + alen (piece p n)) }.

(** ** The card and the DMA controllers *)

(** Port writes and reads. *)
Inductive io := Out (data port : Z) | In (port : Z).

(** What the card plays: samples of [width] bits, the mode byte, the sample rate; the
    DMA buffer, the length of a block, the place of the next one; whether it stops after
    it. *)
Record playback := mk_playback {
  width : Z; format : Z; rate : Z; buf_addr : Z; buf_size : Z; block : Z; pos : Z; last : bool }.

(** [Busy]: in the middle of a command. *)
Inductive dsp := Quiet | Plays (p : playback) | Busy.

Definition next_block (p : playback) : playback :=
  mk_playback (width p) (format p) (rate p) (buf_addr p) (buf_size p) (block p)
    ((pos p + block p) mod buf_size p) (last p).
Definition ends_here (p : playback) : playback :=
  mk_playback (width p) (format p) (rate p) (buf_addr p) (buf_size p) (block p) (pos p) true.

(** [play_block]: what is heard until the next interrupt, from the memory it is read
    from; [None] if the card is quiet. *)
Class Card (C : Type) := {
  io_step : io -> C -> C;
  play_block : (Z -> Z) -> C -> option (list Z * C);
  loaded : C -> Z -> option (Z * Z);
  dsp_of : C -> dsp;
  rate_of : C -> Z;
  irq_of : C -> bool }.

Definition ios {C} `{Card C} (l : list io) (c : C) : C := fold_left (fun c i => io_step i c) l c.
Definition command (bytes : list Z) : list io := (fun b => Out b 0x22c) <$> bytes.

(** The writes that give channel 1 (bytes) and channel 5 (words) an auto-initialised
    playback buffer. *)
Definition load1 (a n : Z) : list io :=
  [Out 5 0x0a; Out 0 0x0c; Out 0x59 0x0b; Out (a / 2 ^ 16) 0x83;
   Out (a mod 256) 0x02; Out (a / 256 mod 256) 0x02;
   Out ((n - 1) mod 256) 0x03; Out ((n - 1) / 256 mod 256) 0x03; Out 1 0x0a].
Definition load5 (a n : Z) : list io :=
  [Out 5 0xd4; Out 0 0xd8; Out 0x59 0xd6; Out (a / 2 ^ 17 * 2) 0x8b;
   Out (a / 2 mod 256) 0xc4; Out (a / 2 / 256 mod 256) 0xc4;
   Out ((n / 2 - 1) mod 256) 0xc6; Out ((n / 2 - 1) / 256 mod 256) 0xc6; Out 1 0xd4].

(** A command that leaves everything but the playback alone. *)
Definition turns {C} `{Card C} (c : C) (l : list io) (d : dsp) : Prop :=
  dsp_of (ios l c) = d /\ irq_of (ios l c) = irq_of c.

Class CardLaws (C : Type) `{Card C} : Prop := {
  law_load1 c a n : dsp_of c = Quiet -> 0 <= a -> a + n <= 2 ^ 24 -> 0 < n <= 2 ^ 16 ->
    a / 2 ^ 16 = (a + n - 1) / 2 ^ 16 ->
    turns c (load1 a n) Quiet /\ loaded (ios (load1 a n) c) 1 = Some (a, n) /\
    rate_of (ios (load1 a n) c) = rate_of c;
  law_load5 c a n : dsp_of c = Quiet -> 0 <= a -> a + n <= 2 ^ 24 -> 0 < n <= 2 ^ 17 ->
    a mod 2 = 0 -> n mod 2 = 0 -> a / 2 ^ 17 = (a + n - 1) / 2 ^ 17 ->
    turns c (load5 a n) Quiet /\ loaded (ios (load5 a n) c) 5 = Some (a, n) /\
    rate_of (ios (load5 a n) c) = rate_of c;
  law_rate c hz : dsp_of c = Quiet -> 0 <= hz < 2 ^ 16 ->
    turns c (command [0x41; hz / 256; hz mod 256]) Quiet /\
    rate_of (ios (command [0x41; hz / 256; hz mod 256]) c) = hz;
  law_start8 c a n m k : dsp_of c = Quiet -> loaded c 1 = Some (a, n) -> 0 <= k < 2 ^ 16 ->
    turns c (command [0xc6; m; k mod 256; k / 256])
      (Plays (mk_playback 8 m (rate_of c) a n (k + 1) 0 false));
  law_start16 c a n m k : dsp_of c = Quiet -> loaded c 5 = Some (a, n) -> 0 <= k < 2 ^ 16 ->
    turns c (command [0xb6; m; k mod 256; k / 256])
      (Plays (mk_playback 16 m (rate_of c) a n (2 * (k + 1)) 0 false));
  law_stop c p : dsp_of c = Plays p -> width p = 8 \/ width p = 16 ->
    turns c (command [if width p =? 8 then 0xd0 else 0xd5]) Quiet;
  law_stopped c b : dsp_of c = Quiet -> b = 0xd0 \/ b = 0xd5 -> turns c (command [b]) Quiet;
  law_stop_after c p : dsp_of c = Plays p -> width p = 8 \/ width p = 16 ->
    turns c (command [if width p =? 8 then 0xda else 0xd9]) (Plays (ends_here p));
  law_quiet c mem : dsp_of c = Quiet -> play_block mem c = None;
  law_play c mem p : dsp_of c = Plays p -> irq_of c = false ->
    exists c', play_block mem c = Some (mem <$> seqZ (buf_addr p + pos p) (block p), c') /\
      irq_of c' = true /\ dsp_of c' = if last p then Quiet else Plays (next_block p);
  law_ack c : dsp_of (ios [In 0x22e; In 0x22f] c) = dsp_of c /\ irq_of (ios [In 0x22e; In 0x22f] c) = false }.

(** A card that obeys the laws: the registers of the two controllers (page, address,
    count, byte pointer) and the commands of the card the driver uses. *)
Module SimCard.

Record t := mk {
  page1 : Z; addr1 : Z; count1 : Z; high1 : bool;
  page5 : Z; addr5 : Z; count5 : Z; high5 : bool;
  pending : list Z; ph : dsp; hz : Z; irq : bool }.
Definition init : t := mk 0 0 0 false 0 0 0 false [] Quiet 0 false.

(** A register of 16 bits written byte by byte. *)
Definition half_write (high : bool) (r d : Z) : Z := if high then r mod 256 + 256 * d else r / 256 * 256 + d.

Definition set1 (c : t) (p a n : Z) (h : bool) : t :=
  mk p a n h (page5 c) (addr5 c) (count5 c) (high5 c) (pending c) (ph c) (hz c) (irq c).
Definition set5 (c : t) (p a n : Z) (h : bool) : t :=
  mk (page1 c) (addr1 c) (count1 c) (high1 c) p a n h (pending c) (ph c) (hz c) (irq c).
Definition set_dsp (c : t) (l : list Z) (d : dsp) (r : Z) (i : bool) : t :=
  mk (page1 c) (addr1 c) (count1 c) (high1 c) (page5 c) (addr5 c) (count5 c) (high5 c) l d r i.

Definition buffer (c : t) (ch : Z) : option (Z * Z) :=
  if ch =? 1 then Some (page1 c * 2 ^ 16 + addr1 c, count1 c + 1)
  else if ch =? 5 then Some (page5 c / 2 * 2 ^ 17 + addr5 c * 2, (count5 c + 1) * 2)
  else None.

Definition start (c : t) (w m k ch : Z) : t :=
  match buffer c ch with
  | Some (a, n) => set_dsp c [] (Plays (mk_playback w m (hz c) a n (if w =? 8 then k + 1 else 2 * (k + 1)) 0 false)) (hz c) (irq c)
  | None => c
  end.

(** A byte of a command. *)
Definition dsp_write (c : t) (d : Z) : t :=
  match pending c ++ [d] with
  | [0x41; h; l] => set_dsp c [] (ph c) (256 * h + l) (irq c)
  | [0xc6; m; l; h] => start c 8 m (l + 256 * h) 1
  | [0xb6; m; l; h] => start c 16 m (l + 256 * h) 5
  | [0xd0] | [0xd5] => set_dsp c [] Quiet (hz c) (irq c)
  | [0xda] | [0xd9] => set_dsp c [] (match ph c with Plays p => Plays (ends_here p) | d => d end) (hz c) (irq c)
  | l => set_dsp c l (ph c) (hz c) (irq c)
  end.

Definition step (i : io) (c : t) : t :=
  match i with
  | Out d 0x22c => dsp_write c d
  | Out d 0x0c => set1 c (page1 c) (addr1 c) (count1 c) false
  | Out d 0x83 => set1 c d (addr1 c) (count1 c) (high1 c)
  | Out d 0x02 => set1 c (page1 c) (half_write (high1 c) (addr1 c) d) (count1 c) (negb (high1 c))
  | Out d 0x03 => set1 c (page1 c) (addr1 c) (half_write (high1 c) (count1 c) d) (negb (high1 c))
  | Out d 0xd8 => set5 c (page5 c) (addr5 c) (count5 c) false
  | Out d 0x8b => set5 c d (addr5 c) (count5 c) (high5 c)
  | Out d 0xc4 => set5 c (page5 c) (half_write (high5 c) (addr5 c) d) (count5 c) (negb (high5 c))
  | Out d 0xc6 => set5 c (page5 c) (addr5 c) (half_write (high5 c) (count5 c) d) (negb (high5 c))
  | In 0x22f => set_dsp c (pending c) (ph c) (hz c) false
  | _ => c
  end.

Definition play (mem : Z -> Z) (c : t) : option (list Z * t) :=
  match pending c, ph c with
  | [], Plays p =>
      if irq c then None
      else Some (mem <$> seqZ (buf_addr p + pos p) (block p),
                 set_dsp c [] (if last p then Quiet else Plays (next_block p)) (hz c) true)
  | _, _ => None
  end.

#[global] Instance card : Card t := {|
  io_step := step; play_block := play; loaded := buffer;
  dsp_of c := match pending c with [] => ph c | _ => Busy end;
  rate_of := hz; irq_of := irq |}.

Lemma half_writes r lo hi : 0 <= lo < 256 -> half_write true (half_write false r lo) hi = lo + 256 * hi.
Proof. intros Hl. unfold half_write. f_equal. rewrite Z.add_comm, Z.mod_add by lia. by apply Z.mod_small. Qed.
Lemma two_bytes x : 0 <= x < 2 ^ 16 -> x mod 256 + 256 * (x / 256 mod 256) = x.
Proof. intros Hx. change (2 ^ 16) with 65536 in Hx. zdiv. Qed.

#[global] Instance laws : CardLaws t.
Proof.
  split; intros [p1 a1 n1 h1 p5 a5 n5 h5 l d r i]; unfold turns; cbn -[Z.div Z.modulo Z.mul Z.add Z.pow half_write].
  all: try (destruct l as [|? l]; [|discriminate]).
  - intros a n -> Ha Hn Hn2 Hp. rewrite !half_writes by zdiv. change (2 ^ 16) with 65536 in *.
    rewrite !(two_bytes (n - 1)) by (change (2 ^ 16) with 65536; lia). split; [done|split; [|done]]. do 2 f_equal; [zdiv|lia].
  - intros a n -> Ha Hn Hn2 Ha2 Hn3 Hp. rewrite !half_writes by zdiv. change (2 ^ 17) with 131072 in *.
    rewrite !(two_bytes (n / 2 - 1)) by (change (2 ^ 16) with 65536; zdiv). split; [done|split; [|done]].
    rewrite Z.div_mul by lia. do 2 f_equal; zdiv.
  - intros k -> Hk. repeat split. cbn -[Z.div Z.modulo Z.mul Z.add]. zdiv.
  - intros a n m k -> [= <- <-] Hk. cbn -[Z.div Z.modulo Z.mul Z.add]. split; [|done].
    replace (k mod 256 + 256 * (k / 256)) with k by zdiv. done.
  - intros a n m k -> [= <- <-] Hk. cbn -[Z.div Z.modulo Z.mul Z.add]. split; [|done].
    replace (k mod 256 + 256 * (k / 256)) with k by zdiv. done.
  - intros p -> Hw. by destruct (width p =? 8).
  - intros b -> [-> | ->]; done.
  - intros p -> Hw. by destruct (width p =? 8).
  - intros mem ->. done.
  - intros mem p -> ->. eexists. split; [reflexivity|]. done.
  - done.
Qed.

End SimCard.

Module Sound.

(** Bytes stored in a buffer from an offset on. *)
Definition blit (buf : list Z) (off : Z) (bs : list Z) : list Z :=
  take (Z.to_nat off) buf ++ bs ++ drop (Z.to_nat (off + alen bs)) buf.

Section driver.
Context {S F C : Type} `{Disp S F} `{Card C}.

(** Where the linker put [dma_buffer]. *)
Variable base : Z.

(** [playback_status_t], the static data, and the world. [current_block] is an offset in
    [dma_buffer]. *)
Record t := mk {
  fd : option F; channel : Z; mode : Z; playing : Z;
  dma_buffer : list Z; current_block : Z;
  sys : S; card : C }.

Definition CHUNK_SIZE : Z := 16 * 1024.
Definition DMA_BUFFER_SIZE : Z := 2 * CHUNK_SIZE.
Definition first_block : Z := 0.
Definition second_block : Z := CHUNK_SIZE.

Definition STATUS_8BIT : Z := Z.shiftl 1 1.
Definition STATUS_SIGNED : Z := Z.shiftl 1 2.
Definition STATUS_MONO : Z := Z.shiftl 1 3.

Definition set_status (st : t) (c m p : Z) : t :=
  mk (fd st) c m p (dma_buffer st) (current_block st) (sys st) (card st).
Definition set_file (st : t) (f : option F) (s : S) : t :=
  mk f (channel st) (mode st) (playing st) (dma_buffer st) (current_block st) s (card st).
Definition set_buffer (st : t) (b : list Z) : t :=
  mk (fd st) (channel st) (mode st) (playing st) b (current_block st) (sys st) (card st).
Definition set_current (st : t) (b : Z) : t :=
  mk (fd st) (channel st) (mode st) (playing st) (dma_buffer st) b (sys st) (card st).
Definition set_card (st : t) (c : C) : t :=
  mk (fd st) (channel st) (mode st) (playing st) (dma_buffer st) (current_block st) (sys st) c.
Definition emit (st : t) (l : list io) : t := set_card st (ios l (card st)).

Definition store (st : t) (off : Z) (bs : list Z) : t := set_buffer st (blit (dma_buffer st) off bs).

(** *** Ports *)

Definition LO_BYTE (data : Z) : Z := Z.land data 0xff.
Definition HI_BYTE (data : Z) : Z := Z.land (Z.shiftr data 8) 0xff.

Definition DMA1Mask : Z := 0xa.
Definition DMA1Mode : Z := 0xb.
Definition DMA1ClrBytePtr : Z := 0xc.
Definition DMA2Mask : Z := 0xd4.
Definition DMA2Mode : Z := 0xd6.
Definition DMA2ClrBytePtr : Z := 0xd8.
Definition DMA1Base : Z := 0x00.
Definition DMA2Base : Z := 0xc0.
Definition DMA_MODE_AI : Z := Z.lor 0x48 0x10.
Definition DSPReset : Z := 0x6.
Definition DSPWrite : Z := 0xc.
Definition DSPReadStatus : Z := 0xe.
Definition DSPIntAck : Z := 0xf.
Definition page_port : list Z := [0x87; 0x83; 0x81; 0x82; 0x8f; 0x8b; 0x89; 0x8a].

Definition sb16_outb (data offset : Z) : list io := [Out (u8 data) (0x220 + offset)].
Definition sb16_inb (offset : Z) : list io := [In (0x220 + offset)].
Definition dma_outb (data port : Z) : list io := [Out (u8 data) port].

(** The bytes sent; the wait before each is left out. *)
Definition sb16_dsp_write (byte : Z) : list io := sb16_outb byte DSPWrite.

Definition enable_dma (dmanr : Z) : list io :=
  if dmanr <=? 3 then dma_outb dmanr DMA1Mask else dma_outb (Z.land dmanr 3) DMA2Mask.
Definition disable_dma (dmanr : Z) : list io :=
  if dmanr <=? 3 then dma_outb (Z.lor dmanr 4) DMA1Mask
  else dma_outb (Z.lor (Z.land dmanr 3) 4) DMA2Mask.
Definition clear_dma_ff (dmanr : Z) : list io :=
  if dmanr <=? 3 then dma_outb 0 DMA1ClrBytePtr else dma_outb 0 DMA2ClrBytePtr.
Definition set_dma_mode (dmanr mode : Z) : list io :=
  if dmanr <=? 3 then dma_outb (Z.lor mode dmanr) DMA1Mode
  else dma_outb (Z.lor mode (Z.land dmanr 3)) DMA2Mode.
(** [pagenr] is a [char]. *)
Definition set_dma_page (dmanr pagenr : Z) : list io :=
  if dmanr <=? 3 then dma_outb pagenr (aget page_port dmanr)
  else dma_outb (Z.land pagenr 0xfe) (aget page_port dmanr).
Definition set_dma_addr (dmanr addr : Z) : list io :=
  set_dma_page dmanr (s8 (u8 (Z.shiftr addr 16))) ++
  if dmanr <=? 3 then
    dma_outb (LO_BYTE addr) (Z.shiftl (Z.land dmanr 3) 1 + DMA1Base) ++
    dma_outb (HI_BYTE addr) (Z.shiftl (Z.land dmanr 3) 1 + DMA1Base)
  else
    dma_outb (LO_BYTE (addr / 2)) (Z.shiftl (Z.land dmanr 3) 2 + DMA2Base) ++
    dma_outb (HI_BYTE (addr / 2)) (Z.shiftl (Z.land dmanr 3) 2 + DMA2Base).
Definition set_dma_count (dmanr count : Z) : list io :=
  let count := u32 (count - 1) in
  if dmanr <=? 3 then
    dma_outb (LO_BYTE count) (Z.shiftl (Z.land dmanr 3) 1 + 1 + DMA1Base) ++
    dma_outb (HI_BYTE count) (Z.shiftl (Z.land dmanr 3) 1 + 1 + DMA1Base)
  else
    dma_outb (LO_BYTE (count / 2)) (Z.shiftl (Z.land dmanr 3) 2 + 2 + DMA2Base) ++
    dma_outb (HI_BYTE (count / 2)) (Z.shiftl (Z.land dmanr 3) 2 + 2 + DMA2Base).

Definition dma_start (channel addr size mode : Z) : list io :=
  if 8 <=? channel then []
  else disable_dma channel ++ clear_dma_ff channel ++ set_dma_mode channel mode ++
       set_dma_addr channel addr ++ set_dma_count channel size ++ enable_dma channel.

(** *** Commands to the card *)

(** [status.mode & bit] *)
Definition has (st : t) (bit : Z) : bool := negb (Z.land (mode st) bit =? 0).

Definition sb16_reset : list io := sb16_outb 1 DSPReset ++ sb16_outb 0 DSPReset.
Definition sb16_init (st : t) : t := set_status (emit st sb16_reset) 1 0 0.

Definition sb16_start_playback (st : t) (size : Z) : list io :=
  let '(command, size) := if has st STATUS_8BIT then (0xc0, size) else (0xb0, size / 2) in
  let mode := 0 in
  let mode := if has st STATUS_MONO then Z.lor mode 0x00 else mode in
  let mode := if has st STATUS_SIGNED then Z.lor mode 0x10 else mode in
  let size := u16 (size - 1) in
  sb16_dsp_write (Z.lor command 0x06) ++ sb16_dsp_write mode ++
  sb16_dsp_write (LO_BYTE size) ++ sb16_dsp_write (HI_BYTE size).

Definition sb16_pause_playback (st : t) : Z * t :=
  if playing st =? 0 then (-1, st)
  else (0, emit st (sb16_dsp_write (if has st STATUS_8BIT then 0xd0 else 0xd5))).
Definition sb16_resume_playback (st : t) : Z * t :=
  if playing st =? 0 then (-1, st)
  else (0, emit st (sb16_dsp_write (if has st STATUS_8BIT then 0xd4 else 0xd6))).

(** [theDispatcher->close(status.fd)] *)
Definition close_fd (st : t) : option t :=
  f ← fd st; Some (set_file st (fd st) (d_close (sys st) f).2).

Definition reset_playback (st : t) : option t :=
  close_fd (set_current (set_status st (channel st) (mode st) 0) first_block).

Definition sb16_stop_playback (st : t) : option t :=
  reset_playback (emit st (sb16_dsp_write (if has st STATUS_8BIT then 0xd0 else 0xd5))).
Definition sb16_stop_playback_after (st : t) : t :=
  emit st (sb16_dsp_write (if has st STATUS_8BIT then 0xda else 0xd9)).
Definition sb16_set_sample_rate (hz : Z) : list io :=
  sb16_dsp_write 0x41 ++ sb16_dsp_write (HI_BYTE hz) ++ sb16_dsp_write (LO_BYTE hz).

(** [theDispatcher->read(status.fd, ...)]: the result and the bytes stored. *)
Definition read_fd (st : t) (n : Z) : option (Z * list Z * t) :=
  f ← fd st;
  '(r, bs, f, s) ← d_read (sys st) f n;
  Some (r, bs, set_file st (Some f) s).

(** *** Playing *)

(** The format of the samples, in [status]. *)
Definition set_format (st : t) (bits is_signed : Z) : t :=
  let st := if bits =? 8 then set_status st 1 (Z.lor (mode st) STATUS_8BIT) (playing st)
            else set_status st 5 (mode st) (playing st) in
  let st := set_status st (channel st) (mode st) 1 in
  if is_signed =? 0 then st
  else set_status st (channel st) (Z.lor (mode st) STATUS_SIGNED) (playing st).

(** [fd] is [status.fd]. *)
Definition play_file (st : t) (bits is_signed sample_rate : Z) : option (Z * t) :=
  if negb (playing st =? 0) then Some (-1, st)
  else if negb (bits =? 8) && negb (bits =? 16) then Some (-1, st)
  else
    let st := set_format st bits is_signed in
    let st := emit st (sb16_set_sample_rate sample_rate) in
    let st := set_buffer st (replicate (Z.to_nat DMA_BUFFER_SIZE) 0) in
    let st := set_current st first_block in
    '(r, bs, st) ← read_fd st DMA_BUFFER_SIZE;
    let st := store st 0 bs in
    let bytes_read := u32 r in
    let st := emit st (dma_start (channel st) base DMA_BUFFER_SIZE DMA_MODE_AI) in
    let st := emit st (sb16_start_playback st CHUNK_SIZE) in
    let st := if bytes_read <? CHUNK_SIZE then sb16_stop_playback_after st else st in
    Some (0, st).

(** [memset] of [CHUNK_SIZE - bytes_read] zeros after the bytes read. *)
Definition silence (st : t) (bytes_read : Z) : t :=
  store st (current_block st + bytes_read) (replicate (Z.to_nat (CHUNK_SIZE - bytes_read)) 0).

Definition sb16_handler (st : t) : option t :=
  st ← (if playing st =? 0 then Some st
        else
          '(r, bs, st) ← read_fd st CHUNK_SIZE;
          let st := store st (current_block st) bs in
          let bytes_read := u32 r in
          if 0 <? bytes_read then
            st ← (if bytes_read <? CHUNK_SIZE then
                    let st := sb16_stop_playback_after st in
                    reset_playback (silence st bytes_read)
                  else Some st);
            Some (set_current st (if current_block st =? first_block then second_block else first_block))
          else
            st ← reset_playback st;
            sb16_stop_playback st);
  Some (emit st (sb16_inb DSPReadStatus ++ sb16_inb DSPIntAck)).

(** *** Wave files *)

Definition RIFF : Z := 0x46464952.
Definition WAVE : Z := 0x45564157.
Definition FMT : Z := 0x20746d66.
Definition DATA : Z := 0x61746164.
Definition FACT : Z := 0x74636166.

(** A word of a zeroed buffer that [bs] was read into. *)
Definition word_at (bs : list Z) (i : Z) : Z :=
  let b k := default 0 (bs !! Z.to_nat (i + k)) in
  b 0 + b 1 * 2 ^ 8 + b 2 * 2 ^ 16 + b 3 * 2 ^ 24.

(** The chunk's id and [data_size]. *)
Definition wav_read_chunk_header (st : t) : option (Z * Z * t) :=
  '(r, bs, st) ← read_fd st 8;
  if r <? 8 then Some (0, 0, st)
  else
    let chunk_id := word_at bs 0 in
    let data_size := word_at bs 4 in
    if chunk_id =? RIFF then
      '(_, bs, st) ← read_fd st 4;
      if negb (word_at bs 0 =? WAVE) then Some (0, 0, st) else Some (chunk_id, data_size, st)
    else Some (chunk_id, data_size, st).

(** [None]: a byte outside the buffer, or one that was not read. *)
Definition get_int16 (buf : list Z) (offset : Z) : option Z :=
  lo ← anth buf offset; hi ← anth buf (offset + 1); Some (lo + hi * 2 ^ 8).

(** [close] and [return -1]. *)
Definition give_back (st : t) : option (Z * t) := st ← close_fd st; Some (-1, st).

(** [filename]: [None] is [NULL]. What [open] returns is not looked at. *)
Definition play_wav (st : t) (filename : option (list Z)) : option (Z * t) :=
  match filename with
  | None => Some (-1, st)
  | Some filename =>
      if negb (playing st =? 0) then Some (-1, st)
      else
        '(f, s) ← d_open (sys st) filename;
        let st := set_file st f s in
        '(chunk_id, data_size, st) ← wav_read_chunk_header st;
        if negb (chunk_id =? RIFF) then give_back st
        else
          '(chunk_id, data_size, st) ← wav_read_chunk_header st;
          if negb (chunk_id =? FMT) then give_back st
          else
            '(r, format, st) ← read_fd st (s32 data_size);
            if u32 r <? data_size then give_back st
            else
              pcm ← get_int16 format 0;
              if negb (pcm =? 1) then give_back st
              else
                channels ← get_int16 format 2;
                if negb (channels =? 1) then give_back st
                else
                  b ← get_int16 format 14;
                  let bits := s8 (u8 b) in
                  let is_signed := if bits =? 16 then 1 else 0 in
                  sample_rate ← get_int16 format 4;
                  '(chunk_id, data_size, st) ← wav_read_chunk_header st;
                  '(chunk_id, data_size, st) ←
                    (if chunk_id =? FACT then
                       '(_, _, st) ← read_fd st (s32 data_size);
                       wav_read_chunk_header st
                     else Some (chunk_id, data_size, st));
                  if negb (chunk_id =? DATA) then give_back st
                  else play_file st bits is_signed sample_rate
  end.

(** *** Listening *)

(** The memory the card reads. *)
Definition mem (st : t) : Z -> Z := fun p => aget (dma_buffer st) (p - base).

(** At most [n] blocks are played, the handler runs after each: the blocks heard.
    [None] is a fault of the handler. *)
Fixpoint listen (n : nat) (st : t) : option (list (list Z) * t) :=
  match n with
  | O => Some ([], st)
  | Datatypes.S n =>
      match play_block (mem st) (card st) with
      | None => Some ([], st)
      | Some (bs, c) =>
          st ← sb16_handler (set_card st c);
          '(l, st) ← listen n st;
          Some (bs :: l, st)
      end
  end.

End driver.
#[global] Arguments t S F C : clear implicits.

(** ** What the driver writes *)

Lemma LO_BYTE_mod x : LO_BYTE x = x mod 256.
Proof. apply (Z.land_ones x 8). lia. Qed.
Lemma HI_BYTE_mod x : HI_BYTE x = x / 256 mod 256.
Proof. unfold HI_BYTE. rewrite (Z.land_ones _ 8), Z.shiftr_div_pow2 by lia. done. Qed.
Lemma u8_mod x : u8 (x mod 256) = x mod 256.
Proof. apply Z.mod_mod. lia. Qed.
Lemma u8_s8 x : 0 <= x < 256 -> u8 (s8 x) = x.
Proof. unfold u8, s8. intros. destruct (Z.ltb_spec x 128); zdiv. Qed.
Lemma page_even x : 0 <= x < 256 -> u8 (Z.land (s8 x) 0xfe) = x / 2 * 2.
Proof.
  intros Hx. apply Z.eqb_eq.
  assert (E : forallb (fun x => u8 (Z.land (s8 x) 0xfe) =? x / 2 * 2) (seqZ 0 256) = true) by (vm_compute; done).
  rewrite forallb_forall in E. apply E. apply list_elem_of_In, elem_of_seqZ. lia.
Qed.

Lemma dma_start_loads1 a n : 0 <= a < 2 ^ 24 -> 0 < n <= 2 ^ 16 -> dma_start 1 a n DMA_MODE_AI = load1 a n.
Proof.
  intros Ha Hn. unfold dma_start, set_dma_addr, set_dma_page, set_dma_count. cbn -[Z.shiftr Z.div Z.modulo u8 s8 LO_BYTE HI_BYTE u32].
  rewrite (u32_small (n - 1)) by lia. rewrite !HI_BYTE_mod, !LO_BYTE_mod, !u8_mod.
  rewrite Z.shiftr_div_pow2 by lia. rewrite u8_s8 by apply u8_range. rewrite (u8_small (a / 2 ^ 16)) by zdiv. done.
Qed.
Lemma dma_start_loads5 a n : 0 <= a < 2 ^ 24 -> 0 < n <= 2 ^ 17 -> n mod 2 = 0 ->
  dma_start 5 a n DMA_MODE_AI = load5 a n.
Proof.
  intros Ha Hn Hn2. unfold dma_start, set_dma_addr, set_dma_page, set_dma_count. cbn -[Z.shiftr Z.div Z.modulo u8 s8 LO_BYTE HI_BYTE u32 Z.land].
  rewrite (u32_small (n - 1)) by lia. rewrite !HI_BYTE_mod, !LO_BYTE_mod, !u8_mod.
  rewrite Z.shiftr_div_pow2 by lia. rewrite page_even by apply u8_range. rewrite (u8_small (a / 2 ^ 16)) by zdiv.
  replace ((n - 1) / 2) with (n / 2 - 1) by zdiv. replace (a / 2 ^ 16 / 2 * 2) with (a / 2 ^ 17 * 2) by by rewrite Z.div_div. done.
Qed.

Lemma set_rate_command hz : 0 <= hz < 2 ^ 16 ->
  sb16_set_sample_rate hz = command [0x41; hz / 256; hz mod 256].
Proof.
  intros Hh. unfold sb16_set_sample_rate, sb16_dsp_write, sb16_outb, command. cbn -[Z.div Z.modulo u8 LO_BYTE HI_BYTE].
  rewrite HI_BYTE_mod, LO_BYTE_mod, !u8_mod. rewrite (Z.mod_small (hz / 256)) by zdiv. done.
Qed.

(** ** The buffer *)

Definition half (buf : list Z) (o : Z) : list Z := take (Z.to_nat CHUNK_SIZE) (drop (Z.to_nat o) buf).

Lemma alen_blit buf off bs : 0 <= off -> off + alen bs <= alen buf -> alen (blit buf off bs) = alen buf.
Proof.
  intros Ho Hl. unfold blit. rewrite !alen_app. unfold alen in *.
  rewrite length_take, length_drop. lia.
Qed.
Lemma alen_replicate {A} n (x : A) : 0 <= n -> alen (replicate (Z.to_nat n) x) = n.
Proof. intros Hn. unfold alen. rewrite length_replicate. lia. Qed.
Lemma blit_same buf off bs : 0 <= off -> off + alen bs <= alen buf ->
  take (length bs) (drop (Z.to_nat off) (blit buf off bs)) = bs.
Proof.
  intros Ho Hl. unfold blit, alen in *. rewrite drop_app_length' by (rewrite length_take; lia).
  by rewrite take_app_length.
Qed.
Lemma blit_other buf off bs o n : 0 <= off -> off + alen bs <= alen buf -> 0 <= o -> 0 <= n ->
  o + n <= off \/ off + alen bs <= o ->
  take (Z.to_nat n) (drop (Z.to_nat o) (blit buf off bs)) = take (Z.to_nat n) (drop (Z.to_nat o) buf).
Proof.
  intros Ho Hl Ho2 Hn Hd. apply list_eq. intros i.
  destruct (decide (i < Z.to_nat n)%nat); [|rewrite !lookup_take_ge by lia; done].
  rewrite !lookup_take_lt, !lookup_drop by lia. unfold blit, alen in *. destruct Hd.
  - rewrite lookup_app_l by (rewrite length_take; lia). apply lookup_take_lt. lia.
  - rewrite lookup_app_r by (rewrite length_take; lia). rewrite lookup_app_r by (rewrite length_take; lia).
    rewrite lookup_drop, length_take. f_equal. lia.
Qed.

Lemma mem_slice (base : Z) (buf : list Z) o n : 0 <= o -> 0 <= n -> o + n <= alen buf ->
  (fun p => aget buf (p - base)) <$> seqZ (base + o) n = take (Z.to_nat n) (drop (Z.to_nat o) buf).
Proof.
  intros Ho Hn Hl. apply list_eq. intros i. unfold alen in Hl.
  destruct (decide (i < Z.to_nat n)%nat).
  - rewrite list_lookup_fmap, lookup_seqZ_lt by lia. rewrite lookup_take_lt, lookup_drop by lia. cbn.
    unfold aget. rewrite list_lookup_lookup_total_lt by lia. do 2 f_equal. lia.
  - rewrite lookup_take_ge by lia. rewrite list_lookup_fmap, lookup_seqZ_ge by lia. done.
Qed.

(** ** Playing a stream *)

Section playing.
Context {S F C : Type} `{Disp S F} `{CardLaws C}.
Variable base : Z.
Context (L : Z) (piece : Z -> Z -> list Z) (at_ : S -> F -> Z -> Prop) `{!ReadsAs L piece at_}.

Notation t := (t S F C).

(** The card is about to play the half [pos pb]; the file is at [p]. *)
Record running (st : t) (p : Z) (pb : playback) : Prop := {
  run_playing : playing st <> 0;
  run_fd : exists f, fd st = Some f /\ at_ (sys st) f p;
  run_buf : alen (dma_buffer st) = DMA_BUFFER_SIZE;
  run_dsp : dsp_of (card st) = Plays pb;
  run_irq : irq_of (card st) = false;
  run_has : has st STATUS_8BIT = (width pb =? 8);
  run_cur : current_block st = pos pb;
  run_width : width pb = 8 \/ width pb = 16;
  run_where : buf_addr pb = base /\ buf_size pb = DMA_BUFFER_SIZE /\ block pb = CHUNK_SIZE;
  run_pos : pos pb = first_block \/ pos pb = second_block }.

Lemma block_plays (st : t) pb : dsp_of (card st) = Plays pb -> irq_of (card st) = false ->
  alen (dma_buffer st) = DMA_BUFFER_SIZE ->
  buf_addr pb = base /\ buf_size pb = DMA_BUFFER_SIZE /\ block pb = CHUNK_SIZE ->
  pos pb = first_block \/ pos pb = second_block ->
  exists c, play_block (mem base st) (card st) = Some (half (dma_buffer st) (pos pb), c) /\
    irq_of c = true /\ dsp_of c = if last pb then Quiet else Plays (next_block pb).
Proof.
  intros Hd Hi Hb (Ha & Hs & Hk) Hp. destruct (law_play (card st) (mem base st) pb Hd Hi) as (c & E & Hc).
  exists c. split; [|done]. rewrite E, Ha, Hk. do 2 f_equal. unfold mem, half.
  apply mem_slice; [by destruct Hp as [-> | ->]|done|rewrite Hb; by destruct Hp as [-> | ->]].
Qed.

Lemma next_pos pb : buf_size pb = DMA_BUFFER_SIZE -> block pb = CHUNK_SIZE ->
  pos pb = first_block \/ pos pb = second_block ->
  pos (next_block pb) = CHUNK_SIZE - pos pb.
Proof. intros Hs Hk Hp. cbn. rewrite Hs, Hk. by destruct Hp as [-> | ->]. Qed.

Lemma close_fd_some (st : t) : fd st <> None -> exists s, close_fd st = Some (set_file st (fd st) s).
Proof. intros Hf. unfold close_fd. destruct (fd st) eqn:E; [|done]. eexists. cbn. done. Qed.

Lemma reset_playback_some (st : t) : fd st <> None -> exists s,
  reset_playback st = Some (set_file (set_current (set_status st (channel st) (mode st) 0) first_block) (fd st) s).
Proof. intros Hf. unfold reset_playback.
  by apply (close_fd_some (set_current (set_status st (channel st) (mode st) 0) first_block)). Qed.

(** The driver's reads. *)
Lemma read_fd_spec (st : t) f p n : fd st = Some f -> at_ (sys st) f p -> 0 <= p <= L -> 0 <= n < 2 ^ 31 ->
  exists f' s', read_fd st n = Some (alen (piece p n), piece p n, set_file st (Some f') s') /\
    at_ s' f' (p + alen (piece p n)) /\ alen (piece p n) = Z.min n (L - p).
Proof.
  intros Hf Ha Hp Hn. destruct (read_piece (sys st) f p n Ha Hp Hn) as (f' & s' & E & Ha').
  exists f', s'. unfold read_fd. rewrite Hf. cbn. rewrite E. cbn. split; [done|]. split; [done|].
  apply piece_len; lia.
Qed.

(** What the handler does with the status registers at its end. *)
Lemma ack_spec (st : t) :
  let st' := emit st (sb16_inb DSPReadStatus ++ sb16_inb DSPIntAck) in
  dsp_of (card st') = dsp_of (card st) /\ irq_of (card st') = false.
Proof. exact (law_ack (card st)). Qed.

Lemma stop_after_spec (st : t) pb : dsp_of (card st) = Plays pb -> has st STATUS_8BIT = (width pb =? 8) ->
  width pb = 8 \/ width pb = 16 ->
  exists c, sb16_stop_playback_after st = set_card st c /\ dsp_of c = Plays (ends_here pb) /\ irq_of c = irq_of (card st).
Proof.
  intros Hd Hh Hw. destruct (law_stop_after (card st) pb Hd Hw) as [E1 E2].
  unfold sb16_stop_playback_after, emit. rewrite Hh. eexists. split; [done|].
  destruct (width pb =? 8); done.
Qed.
Lemma stop_spec (st : t) : fd st <> None ->
  dsp_of (card st) = Quiet \/ (exists pb, dsp_of (card st) = Plays pb /\ has st STATUS_8BIT = (width pb =? 8) /\
    (width pb = 8 \/ width pb = 16)) ->
  exists st', sb16_stop_playback st = Some st' /\ playing st' = 0 /\ dsp_of (card st') = Quiet.
Proof.
  intros Hf Hd. unfold sb16_stop_playback.
  edestruct (reset_playback_some (emit st (sb16_dsp_write (if has st STATUS_8BIT then 0xd0 else 0xd5)))) as [s ->]; [done|].
  eexists. split; [done|]. split; [done|]. cbn. unfold sb16_dsp_write, sb16_outb.
  destruct Hd as [Hd|(pb & Hd & -> & Hw)].
  - destruct (has st STATUS_8BIT); (eapply law_stopped; [done|auto]).
  - destruct (law_stop (card st) pb Hd Hw) as [E1 E2]. destruct (width pb =? 8); done.
Qed.

(** An interrupt with a full block of the file left. *)
Lemma handler_refills (st : t) p pb c : running st p pb -> last pb = false -> 0 <= p -> p + CHUNK_SIZE <= L ->
  irq_of c = true -> dsp_of c = Plays (next_block pb) ->
  exists st', sb16_handler (set_card st c) = Some st' /\ running st' (p + CHUNK_SIZE) (next_block pb) /\
    half (dma_buffer st') (pos pb) = piece p CHUNK_SIZE /\
    half (dma_buffer st') (CHUNK_SIZE - pos pb) = half (dma_buffer st) (CHUNK_SIZE - pos pb).
Proof.
  intros R Hlast Hp HL Hc Hd. destruct R as [Rp (f & Rf & Ra) Rb Rd Ri Rh Rc Rw (Rwa & Rwb & Rwc) Ro].
  destruct (read_fd_spec (set_card st c) f p CHUNK_SIZE Rf Ra ltac:(unfold CHUNK_SIZE in *; lia) ltac:(done))
    as (f' & s' & E & Ha & Hlen).
  assert (Hlen' : alen (piece p CHUNK_SIZE) = CHUNK_SIZE) by (rewrite Hlen; lia). clear Hlen.
  unfold sb16_handler. change (playing (set_card st c)) with (playing st).
  rewrite (proj2 (Z.eqb_neq _ _) Rp), E. cbn [mbind option_bind]. rewrite Hlen', u32_small by done.
  change (0 <? CHUNK_SIZE) with true. change (CHUNK_SIZE <? CHUNK_SIZE) with false. cbn [mbind option_bind].
  eexists. split; [reflexivity|]. rewrite Hlen' in Ha.
  set (st1 := set_current _ _). destruct (ack_spec st1) as [A1 A2].
  assert (Hbl : 0 <= pos pb /\ pos pb + alen (piece p CHUNK_SIZE) <= alen (dma_buffer st))
    by (rewrite Hlen', Rb; destruct Ro as [-> | ->]; done).
  split; [split|].
  - done.
  - by exists f'.
  - cbn. change (current_block _) with (current_block st). rewrite Rc, alen_blit by apply Hbl. done.
  - by rewrite A1.
  - done.
  - done.
  - rewrite next_pos by done. cbn. change (current_block _) with (current_block st). rewrite Rc.
    by destruct Ro as [-> | ->].
  - done.
  - done.
  - rewrite next_pos by done. by destruct Ro as [-> | ->]; [right|left].
  - cbn. change (current_block _) with (current_block st). rewrite Rc. unfold half. split.
    + replace (Z.to_nat CHUNK_SIZE) with (length (piece p CHUNK_SIZE)) by (unfold alen in Hlen'; lia).
      apply blit_same; apply Hbl.
    + apply blit_other; try apply Hbl; [by destruct Ro as [-> | ->]|done|].
      rewrite Hlen'. destruct Ro as [-> | ->]; unfold first_block, second_block, CHUNK_SIZE; lia.
Qed.

(** Playback was told to end, and the card plays its last block. *)
Record ending (st : t) (pb : playback) : Prop := {
  end_playing : playing st = 0;
  end_buf : alen (dma_buffer st) = DMA_BUFFER_SIZE;
  end_dsp : dsp_of (card st) = Plays pb;
  end_last : last pb = true;
  end_irq : irq_of (card st) = false;
  end_where : buf_addr pb = base /\ buf_size pb = DMA_BUFFER_SIZE /\ block pb = CHUNK_SIZE;
  end_pos : pos pb = first_block \/ pos pb = second_block }.

(** An interrupt with less than a block of the file left. *)
Lemma handler_tail (st : t) p pb c : running st p pb -> 0 <= p -> p < L < p + CHUNK_SIZE ->
  irq_of c = true -> dsp_of c = Plays (next_block pb) ->
  exists st', sb16_handler (set_card st c) = Some st' /\ ending st' (ends_here (next_block pb)) /\
    half (dma_buffer st') (CHUNK_SIZE - pos pb) = half (dma_buffer st) (CHUNK_SIZE - pos pb).
Proof.
  intros R Hp HL Hc Hd. destruct R as [Rp (f & Rf & Ra) Rb Rd Ri Rh Rc Rw (Rwa & Rwb & Rwc) Ro].
  destruct (read_fd_spec (set_card st c) f p CHUNK_SIZE Rf Ra ltac:(unfold CHUNK_SIZE in *; lia) ltac:(done))
    as (f' & s' & E & Ha & Hlen).
  set (bs := piece p CHUNK_SIZE) in *. set (m := alen bs) in *.
  assert (Hm : 0 < m < CHUNK_SIZE) by lia.
  unfold sb16_handler. change (playing (set_card st c)) with (playing st).
  rewrite (proj2 (Z.eqb_neq _ _) Rp), E. cbn [mbind option_bind].
  rewrite u32_small by (unfold CHUNK_SIZE in *; lia).
  rewrite (proj2 (Z.ltb_lt 0 m)), (proj2 (Z.ltb_lt m CHUNK_SIZE)) by lia.
  set (st1 := store (set_file (set_card st c) (Some f') s') _ bs).
  destruct (stop_after_spec st1 (next_block pb) Hd Rh Rw) as (c2 & -> & Hd2 & _).
  edestruct (reset_playback_some (silence (set_card st1 c2) m)) as [s2 ->]; [done|].
  cbn [mbind option_bind]. eexists. split; [reflexivity|].
  set (st2 := set_current _ _). destruct (ack_spec st2) as [A1 A2].
  assert (Hbl : 0 <= pos pb /\ pos pb + CHUNK_SIZE <= alen (dma_buffer st)) by (rewrite Rb; destruct Ro as [-> | ->]; done).
  assert (Hz : alen (replicate (Z.to_nat (CHUNK_SIZE - m)) 0) = CHUNK_SIZE - m)
    by (unfold alen at 1; rewrite length_replicate; lia).
  assert (Eb : dma_buffer st2 = blit (blit (dma_buffer st) (pos pb) bs) (pos pb + m) (replicate (Z.to_nat (CHUNK_SIZE - m)) 0))
    by (rewrite <- Rc; done).
  change (dma_buffer (emit st2 _)) with (dma_buffer st2). rewrite Eb. split; [split|].
  - done.
  - change (dma_buffer (emit st2 _)) with (dma_buffer st2).
    rewrite Eb, !alen_blit; [done|lia|fold m; lia|lia|]. rewrite alen_blit by (fold m; lia). lia.
  - by rewrite A1.
  - done.
  - done.
  - done.
  - change (pos (ends_here (next_block pb))) with (pos (next_block pb)). rewrite next_pos by done.
    by destruct Ro as [-> | ->]; [right|left].
  - unfold half. assert (0 <= CHUNK_SIZE - pos pb) by (destruct Ro as [-> | ->]; done).
    assert (Hd1 : CHUNK_SIZE - pos pb + CHUNK_SIZE <= pos pb \/ pos pb + CHUNK_SIZE <= CHUNK_SIZE - pos pb)
      by (destruct Ro as [-> | ->]; unfold first_block, second_block, CHUNK_SIZE; lia).
    rewrite !blit_other; rewrite ?alen_blit; fold m; try done; lia.
Qed.

(** An interrupt at the end of the file. *)
Lemma handler_end (st : t) f c : playing st <> 0 -> fd st = Some f -> at_ (sys st) f L -> 0 <= L ->
  dsp_of c = Quiet \/ (exists pb, dsp_of c = Plays pb /\ has st STATUS_8BIT = (width pb =? 8) /\ (width pb = 8 \/ width pb = 16)) ->
  exists st', sb16_handler (set_card st c) = Some st' /\ playing st' = 0 /\ dsp_of (card st') = Quiet.
Proof.
  intros Rp Rf Ra HL Hd.
  destruct (read_fd_spec (set_card st c) f L CHUNK_SIZE Rf Ra ltac:(lia) ltac:(done)) as (f' & s' & E & Ha & Hlen).
  rewrite Z.sub_diag in Hlen. change (Z.min CHUNK_SIZE 0) with 0 in Hlen.
  unfold sb16_handler. change (playing (set_card st c)) with (playing st).
  rewrite (proj2 (Z.eqb_neq _ _) Rp), E. cbn [mbind option_bind]. rewrite Hlen. change (0 <? u32 0) with false.
  set (st1 := store (set_file (set_card st c) (Some f') s') _ _).
  destruct (reset_playback_some st1) as [s2 ->]; [done|]. cbn [mbind option_bind].
  edestruct (stop_spec (set_file (set_current (set_status st1 (channel st1) (mode st1) 0) first_block) (fd st1) s2))
    as (st2 & -> & Hp2 & Hd2); [done|exact Hd|].
  cbn [mbind option_bind]. eexists. split; [reflexivity|]. split; [done|]. by rewrite (proj1 (ack_spec st2)).
Qed.

(** The interrupt after the last block. *)
Lemma handler_done (st : t) c : playing st = 0 -> dsp_of c = Quiet ->
  exists st', sb16_handler (set_card st c) = Some st' /\ playing st' = 0 /\ dsp_of (card st') = Quiet.
Proof.
  intros Hp Hd. unfold sb16_handler. change (playing (set_card st c)) with (playing st). rewrite Hp.
  change (0 =? 0) with true. cbn [mbind option_bind].
  eexists. split; [reflexivity|]. split; [done|]. by rewrite (proj1 (ack_spec (set_card st c))).
Qed.

(** A quiet card: nothing is heard. *)
Lemma listen_quiet n (st : t) : dsp_of (card st) = Quiet -> listen base n st = Some ([], st).
Proof. intros Hd. destruct n; [done|]. cbn. by rewrite law_quiet. Qed.

(** One block, then the rest. *)
Lemma listen_cons n (st st1 st' : t) bs c l : play_block (mem base st) (card st) = Some (bs, c) ->
  sb16_handler (set_card st c) = Some st1 -> listen base n st1 = Some (l, st') ->
  listen base (Datatypes.S n) st = Some (bs :: l, st').
Proof. intros E1 E2 E3. cbn. rewrite E1. cbn. rewrite E2. cbn. by rewrite E3. Qed.

(** From some number of blocks on, [l] is heard, and the driver and the card rest. *)
Definition hears (st : t) (l : list (list Z)) : Prop :=
  exists st', playing st' = 0 /\ dsp_of (card st') = Quiet /\
    forall n, (length l <= n)%nat -> listen base n st = Some (l, st').

Lemma hears_last (st st1 : t) bs c : play_block (mem base st) (card st) = Some (bs, c) ->
  sb16_handler (set_card st c) = Some st1 -> playing st1 = 0 -> dsp_of (card st1) = Quiet -> hears st [bs].
Proof.
  intros E1 E2 Hp Hd. exists st1. split; [done|]. split; [done|]. intros [|n] Hn; [simpl in Hn; lia|].
  eapply listen_cons; [done..|]. by apply listen_quiet.
Qed.
Lemma hears_cons (st st1 : t) bs c l : play_block (mem base st) (card st) = Some (bs, c) ->
  sb16_handler (set_card st c) = Some st1 -> hears st1 l -> hears st (bs :: l).
Proof.
  intros E1 E2 (st' & Hp & Hd & Hl). exists st'. split; [done|]. split; [done|].
  intros [|n] Hn; [simpl in Hn; lia|]. eapply listen_cons; [done..|]. apply Hl. simpl in Hn. lia.
Qed.

Lemma ending_hears (st : t) pb : ending st pb -> hears st [half (dma_buffer st) (pos pb)].
Proof.
  intros [Ep Eb Ed El Ei Ew Eo]. destruct (block_plays st pb Ed Ei Eb Ew Eo) as (c & E & _ & Hd).
  rewrite El in Hd. destruct (handler_done st c Ep Hd) as (st1 & E1 & Hp1 & Hd1). by eapply hears_last.
Qed.

(** The blocks of a file whose sound is [R] bytes from [p0] on: the first two as the
    first read left them in the buffer, and those of the later reads. *)
Definition first_fill (p0 : Z) : list Z := blit (replicate (Z.to_nat DMA_BUFFER_SIZE) 0) 0 (piece p0 DMA_BUFFER_SIZE).
Definition blk (p0 k : Z) : list Z :=
  if k <? 2 then half (first_fill p0) (k * CHUNK_SIZE) else piece (p0 + k * CHUNK_SIZE) CHUNK_SIZE.
Definition nblocks (R : Z) : Z :=
  if R <? 2 * CHUNK_SIZE then 1
  else if R mod CHUNK_SIZE =? 0 then R / CHUNK_SIZE - 1 else R / CHUNK_SIZE.
Definition heard (p0 : Z) : list (list Z) := blk p0 <$> seqZ 0 (nblocks (L - p0)).

Lemma blk_0 p0 : blk p0 0 = half (first_fill p0) first_block.
Proof. unfold blk. change (0 <? 2) with true. cbn iota. by rewrite Z.mul_0_l. Qed.
Lemma blk_1 p0 : blk p0 (0 + 1) = half (first_fill p0) second_block.
Proof. unfold blk. change (0 + 1 <? 2) with true. cbn iota. by rewrite Z.mul_1_l. Qed.
Lemma first_fill_len p0 : 0 <= p0 <= L -> alen (first_fill p0) = DMA_BUFFER_SIZE.
Proof.
  intros Hp. unfold first_fill. rewrite alen_blit; rewrite ?alen_replicate by done; [done|done|].
  rewrite piece_len by (done || lia). lia.
Qed.
#[local] Opaque half first_fill.

Lemma heard_from p0 k n : 0 < n -> blk p0 <$> seqZ k n = blk p0 k :: (blk p0 <$> seqZ (k + 1) (n - 1)).
Proof. intros Hn. rewrite seqZ_cons by done. rewrite fmap_cons. by rewrite <- Z.add_1_r, Z.sub_1_r. Qed.

Lemma nblocks_last R k : 0 <= k -> (k + 2) * CHUNK_SIZE <= R < (k + 3) * CHUNK_SIZE ->
  nblocks R = if R =? (k + 2) * CHUNK_SIZE then k + 1 else k + 2.
Proof.
  unfold nblocks, CHUNK_SIZE. intros Hk HR. rewrite (proj2 (Z.ltb_ge _ _)) by lia.
  destruct (Z.eqb_spec R ((k + 2) * (16 * 1024))), (Z.eqb_spec (R mod (16 * 1024)) 0); zdiv.
Qed.
Lemma nblocks_more R k : 0 <= k -> (k + 3) * CHUNK_SIZE <= R -> k + 2 <= nblocks R.
Proof.
  unfold nblocks, CHUNK_SIZE. intros Hk HR. rewrite (proj2 (Z.ltb_ge _ _)) by lia.
  destruct (Z.eqb_spec (R mod (16 * 1024)) 0); zdiv.
Qed.

(** The card is about to play block [k], and block [k + 1] is in the other half. *)
Record streaming (p0 k : Z) (st : t) (pb : playback) : Prop := {
  str_run : running st (p0 + (k + 2) * CHUNK_SIZE) pb;
  str_last : last pb = false;
  str_left : (k + 2) * CHUNK_SIZE <= L - p0;
  str_this : half (dma_buffer st) (pos pb) = blk p0 k;
  str_next : half (dma_buffer st) (CHUNK_SIZE - pos pb) = blk p0 (k + 1) }.

Lemma streaming_step p0 k st pb : 0 <= p0 -> 0 <= k -> streaming p0 k st pb ->
  ((k + 3) * CHUNK_SIZE <= L - p0 -> forall st1, streaming p0 (k + 1) st1 (next_block pb) ->
    hears st1 (blk p0 <$> seqZ (k + 1) (nblocks (L - p0) - (k + 1)))) ->
  hears st (blk p0 <$> seqZ k (nblocks (L - p0) - k)).
Proof.
  intros Hp0 Hk [R Hl HR Hb1 Hb2] Hnext.
  pose proof R as [Rp (f & Rf & Ra) Rb Rd Ri Rh Rc Rw Rwh Ro].
  destruct (block_plays st pb Rd Ri Rb Rwh Ro) as (c & E & Hc & Hd). rewrite Hl in Hd. rewrite Hb1 in E.
  assert (Hpos : pos (next_block pb) = CHUNK_SIZE - pos pb) by (apply next_pos; [apply Rwh|apply Rwh|done]).
  assert (HC : 0 < CHUNK_SIZE) by done.
  destruct (decide ((k + 3) * CHUNK_SIZE <= L - p0)) as [Hm|Hm].
  - destruct (handler_refills st _ pb c R Hl ltac:(lia) ltac:(lia) Hc Hd) as (st1 & E1 & R1 & Hh1 & Hh2).
    pose proof (nblocks_more (L - p0) k Hk Hm). rewrite heard_from by lia.
    eapply hears_cons; [done..|]. replace (nblocks (L - p0) - k - 1) with (nblocks (L - p0) - (k + 1)) by lia.
    apply (Hnext Hm). replace (p0 + (k + 2) * CHUNK_SIZE + CHUNK_SIZE) with (p0 + (k + 1 + 2) * CHUNK_SIZE) in R1 by lia.
    split; [done|done|lia| |].
    + by rewrite Hpos, Hh2.
    + rewrite Hpos. replace (CHUNK_SIZE - (CHUNK_SIZE - pos pb)) with (pos pb) by lia. rewrite Hh1. unfold blk.
      rewrite (proj2 (Z.ltb_ge _ _)) by lia. f_equal. lia.
  - rewrite (nblocks_last _ k) by lia. destruct (Z.eqb_spec (L - p0) ((k + 2) * CHUNK_SIZE)) as [Eq|Ne].
    + replace (p0 + (k + 2) * CHUNK_SIZE) with L in Ra by lia.
      destruct (handler_end st f c Rp Rf Ra ltac:(lia)) as (st1 & E1 & Hp1 & Hd1); [right; by exists (next_block pb)|].
      replace (k + 1 - k) with 1 by lia. rewrite heard_from by lia. by eapply hears_last.
    + destruct (handler_tail st _ pb c R ltac:(lia) ltac:(lia) Hc Hd) as (st1 & E1 & R1 & Hh2).
      replace (k + 2 - k) with 2 by lia. rewrite !heard_from by lia. eapply hears_cons; [done..|].
      rewrite <- Hb2, <- Hh2, <- Hpos. change (seqZ (k + 1 + 1) (2 - 1 - 1)) with (@nil Z). by apply (ending_hears st1 _ R1).
Qed.

Lemma streaming_hears p0 (m : nat) : forall k st pb, 0 <= p0 -> 0 <= k -> streaming p0 k st pb ->
  L - p0 < (k + 3 + Z.of_nat m) * CHUNK_SIZE -> hears st (blk p0 <$> seqZ k (nblocks (L - p0) - k)).
Proof.
  induction m as [|m IH]; intros k st pb Hp0 Hk Hs Hm; (eapply streaming_step; [done..|]); intros Hle st1 Hs1.
  - lia.
  - eapply IH; [done|lia|exact Hs1|lia].
Qed.

(** *** Starting *)

Hypothesis base_ok : 0 <= base /\ base + DMA_BUFFER_SIZE <= 2 ^ 24 /\ base mod DMA_BUFFER_SIZE = 0.

Lemma ios_app {K} `{Card K} l1 l2 (c : K) : ios (l1 ++ l2) c = ios l2 (ios l1 c).
Proof. apply fold_left_app. Qed.

Lemma start_command (st : t) : 
  sb16_start_playback st CHUNK_SIZE =
    command [if has st STATUS_8BIT then 0xc6 else 0xb6; if has st STATUS_SIGNED then 0x10 else 0;
             ((if has st STATUS_8BIT then CHUNK_SIZE else CHUNK_SIZE / 2) - 1) mod 256;
             ((if has st STATUS_8BIT then CHUNK_SIZE else CHUNK_SIZE / 2) - 1) / 256].
Proof. unfold sb16_start_playback. destruct (has st STATUS_8BIT), (has st STATUS_MONO), (has st STATUS_SIGNED); done. Qed.

(** What the card is told: the rate, the buffer, and to play its blocks. *)
Lemma card_starts (c : C) hz (eight : bool) fmt : dsp_of c = Quiet -> irq_of c = false -> 0 <= hz < 2 ^ 16 ->
  let c' := ios (command [if eight then 0xc6 else 0xb6; fmt;
             ((if eight then CHUNK_SIZE else CHUNK_SIZE / 2) - 1) mod 256;
             ((if eight then CHUNK_SIZE else CHUNK_SIZE / 2) - 1) / 256])
           (ios (dma_start (if eight then 1 else 5) base DMA_BUFFER_SIZE DMA_MODE_AI)
             (ios (sb16_set_sample_rate hz) c)) in
  dsp_of c' = Plays (mk_playback (if eight then 8 else 16) fmt hz base DMA_BUFFER_SIZE CHUNK_SIZE 0 false) /\
  irq_of c' = false.
Proof.
  intros Hd Hi Hhz. cbv zeta. rewrite set_rate_command by done.
  destruct (law_rate c hz Hd Hhz) as [[D1 I1] R1]. set (c1 := ios _ c) in *.
  unfold DMA_BUFFER_SIZE, CHUNK_SIZE in *. destruct base_ok as (B1 & B2 & B3). destruct eight.
  - rewrite dma_start_loads1 by lia.
    destruct (law_load1 c1 base (2 * (16 * 1024)) D1) as [[D2 I2] [L2 R2]]; [lia|lia|lia|zdiv|].
    destruct (law_start8 _ base (2 * (16 * 1024)) fmt (16 * 1024 - 1) D2 L2 ltac:(lia)) as [D3 I3].
    rewrite D3, I3, I2, I1, R2, R1. done.
  - rewrite dma_start_loads5 by (lia || done).
    destruct (law_load5 c1 base (2 * (16 * 1024)) D1) as [[D2 I2] [L2 R2]]; [lia|lia|lia|zdiv|done|zdiv|].
    destruct (law_start16 _ base (2 * (16 * 1024)) fmt (8 * 1024 - 1) D2 L2 ltac:(lia)) as [D3 I3].
    change (16 * 1024 / 2 - 1) with (8 * 1024 - 1).
    rewrite D3, I3, I2, I1, R2, R1. done.
Qed.

Definition playback_of (bits is_signed hz : Z) (l : bool) : playback :=
  mk_playback bits (if is_signed =? 0 then 0 else 0x10) hz base DMA_BUFFER_SIZE CHUNK_SIZE 0 l.

Lemma set_format_spec (st : t) bits is_signed : mode st = 0 -> bits = 8 \/ bits = 16 ->
  exists st1 m, set_format st bits is_signed = st1 /\ st1 = set_status st (if bits =? 8 then 1 else 5) m 1 /\
    has st1 STATUS_8BIT = (bits =? 8) /\ has st1 STATUS_SIGNED = negb (is_signed =? 0).
Proof.
  intros Hm Hb. unfold set_format. rewrite Hm.
  destruct Hb as [-> | ->]; cbn -[Z.lor]; destruct (is_signed =? 0); do 2 eexists;
    (split; [reflexivity|]; split; [reflexivity|]; split; reflexivity).
Qed.

(** The first block is about to be played. *)
Lemma started_hears (st : t) p0 pb : 0 <= p0 <= L -> running st (p0 + Z.min DMA_BUFFER_SIZE (L - p0)) pb ->
  pos pb = first_block -> last pb = false -> dma_buffer st = first_fill p0 -> CHUNK_SIZE <= L - p0 ->
  hears st (heard p0).
Proof.
  intros Hp0 R Ho Hl Hb HR. assert (E0 : half (dma_buffer st) (pos pb) = blk p0 0) by (by rewrite Hb, Ho, blk_0).
  unfold heard. rewrite <- (Z.sub_0_r (nblocks (L - p0))).
  destruct (decide (L - p0 < DMA_BUFFER_SIZE)) as [Hs|Hs].
  - pose proof R as [Rp (f & Rf & Ra) Rb Rd Ri Rh Rc Rw Rwh Rpos].
    destruct (block_plays st pb Rd Ri Rb Rwh Rpos) as (c & E & Hc & Hd). rewrite Hl in Hd.
    replace (p0 + Z.min DMA_BUFFER_SIZE (L - p0)) with L in Ra by lia.
    destruct (handler_end st f c Rp Rf Ra ltac:(lia)) as (st1 & E1 & Hp1 & Hd1); [right; by exists (next_block pb)|].
    unfold nblocks. rewrite (proj2 (Z.ltb_lt _ _)) by (unfold DMA_BUFFER_SIZE in Hs; lia).
    rewrite heard_from by lia. rewrite E0 in E. by eapply hears_last.
  - unfold DMA_BUFFER_SIZE in *. apply (streaming_hears p0 (Z.to_nat (L - p0)) 0 st pb); [lia|done| |unfold CHUNK_SIZE; lia].
    replace (p0 + Z.min (2 * CHUNK_SIZE) (L - p0)) with (p0 + (0 + 2) * CHUNK_SIZE) in R by lia.
    split; [exact R|exact Hl|lia|exact E0|by rewrite Hb, Ho, blk_1].
Qed.

(** The first block is the last one. *)
Lemma short_hears (st : t) p0 pb : 0 <= p0 <= L -> L - p0 < CHUNK_SIZE ->
  running st L pb -> pos pb = first_block -> last pb = true ->
  dma_buffer st = first_fill p0 -> hears st (heard p0).
Proof.
  intros Hp0 HR [Rp (f & Rf & Ra) Rb Rd Ri Rh Rc Rw Rwh Rpos] Ho Hl Hb.
  destruct (block_plays st pb Rd Ri Rb Rwh Rpos) as (c & E & Hc & Hd).
  rewrite Hl in Hd. rewrite Hb, Ho, <- blk_0 in E.
  destruct (handler_end st f c Rp Rf Ra ltac:(lia)) as (st1 & E1 & Hp1 & Hd1); [by left|].
  unfold heard, nblocks. rewrite (proj2 (Z.ltb_lt _ _)) by (unfold CHUNK_SIZE in *; lia). by eapply hears_last.
Qed.

Lemma play_file_hears (st : t) f p0 bits is_signed hz :
  playing st = 0 -> mode st = 0 -> fd st = Some f -> at_ (sys st) f p0 -> 0 <= p0 <= L -> L < 2 ^ 31 ->
  dsp_of (card st) = Quiet -> irq_of (card st) = false -> bits = 8 \/ bits = 16 -> 0 <= hz < 2 ^ 16 ->
  exists st1, play_file base st bits is_signed hz = Some (0, st1) /\
    dsp_of (card st1) = Plays (playback_of bits is_signed hz (L - p0 <? CHUNK_SIZE)) /\
    hears st1 (heard p0).
Proof.
  intros Hp Hm Hf Ha Hp0 HL Hd Hi Hbits Hhz. unfold play_file. rewrite Hp. change (negb (0 =? 0)) with false. cbn iota.
  replace (negb (bits =? 8) && negb (bits =? 16)) with false by (by destruct Hbits as [-> | ->]). cbv zeta.
  destruct (set_format_spec st bits is_signed Hm Hbits) as (st2 & m & -> & Est2 & H8 & Hs).
  set (st3 := set_current _ first_block).
  destruct (read_fd_spec st3 f p0 DMA_BUFFER_SIZE) as (f' & s' & E & Ha' & Hlen);
    [by unfold st3; rewrite Est2..|lia|done|].
  rewrite E. cbn [mbind option_bind].
  set (st4 := store _ 0 _). set (st5 := emit (emit st4 _) _).
  assert (Ed : dsp_of (card st5) = Plays (playback_of bits is_signed hz false) /\ irq_of (card st5) = false).
  { unfold st5. rewrite start_command. change (has (emit st4 _)) with (has st2). rewrite H8, Hs.
    destruct (card_starts (card st) hz (bits =? 8) (if negb (is_signed =? 0) then 0x10 else 0) Hd Hi Hhz) as [D I].
    subst st2. unfold playback_of. destruct Hbits as [-> | ->]; destruct (is_signed =? 0); (split; [exact D|exact I]). }
  destruct Ed as [Ed Ei]. rewrite Hlen in *.
  assert (R : running st5 (p0 + Z.min DMA_BUFFER_SIZE (L - p0)) (playback_of bits is_signed hz false)).
  { split.
    - change (playing st5) with (playing st2). by rewrite Est2.
    - exists f'. split; [reflexivity|exact Ha'].
    - apply (first_fill_len p0 Hp0).
    - exact Ed.
    - exact Ei.
    - exact H8.
    - reflexivity.
    - exact Hbits.
    - by split_and!.
    - by left. }
  rewrite u32_small by (unfold DMA_BUFFER_SIZE, CHUNK_SIZE in *; lia).
  replace (Z.min DMA_BUFFER_SIZE (L - p0) <? CHUNK_SIZE) with (L - p0 <? CHUNK_SIZE)
    by (unfold DMA_BUFFER_SIZE, CHUNK_SIZE; destruct (Z.ltb_spec (L - p0) (16 * 1024)); case_cmp; lia).
  destruct (Z.ltb_spec (L - p0) CHUNK_SIZE) as [Hc|Hc].
  - destruct (stop_after_spec st5 _ Ed (run_has _ _ _ R) (run_width _ _ _ R)) as (c & -> & Hd6 & Hi6).
    eexists. split; [reflexivity|]. split; [done|].
    replace (p0 + Z.min DMA_BUFFER_SIZE (L - p0)) with L in * by (unfold DMA_BUFFER_SIZE, CHUNK_SIZE in *; lia).
    eapply (short_hears _ p0 (ends_here (playback_of bits is_signed hz false)) Hp0 Hc); [|reflexivity..].
    destruct R as [R1 R2 R3 _ _ R6 R7 R8 R9 R10]. split; [exact R1|exact R2|exact R3|exact Hd6| |exact R6|exact R7|exact R8|exact R9|exact R10].
    exact (eq_trans Hi6 Ei).
  - eexists. split; [reflexivity|]. split; [done|]. by eapply started_hears.
Qed.

(** *** The file's header *)

Definition bytes32 (v : Z) : list Z := [u8 v; u8 (v / 2 ^ 8); u8 (v / 2 ^ 16); u8 (v / 2 ^ 24)].

(** A wave file up to its samples: the sizes of the [RIFF] and [data] chunks are not
    looked at, the [fact] chunk need not be there. *)
Definition wav_header (riff_size data_size : Z) (fmt : list Z) (fact : option (list Z)) : list Z :=
  (bytes32 RIFF ++ bytes32 riff_size) ++ bytes32 WAVE ++ (bytes32 FMT ++ bytes32 (alen fmt)) ++ fmt ++
  match fact with None => [] | Some b => (bytes32 FACT ++ bytes32 (alen b)) ++ b end ++
  (bytes32 DATA ++ bytes32 data_size).

Lemma bytes32_value v : 0 <= v < 2 ^ 32 ->
  u8 v + u8 (v / 2 ^ 8) * 2 ^ 8 + u8 (v / 2 ^ 16) * 2 ^ 16 + u8 (v / 2 ^ 24) * 2 ^ 24 = v.
Proof.
  intros Hv. unfold u8. change (2 ^ 16) with (2 ^ 8 * 2 ^ 8). change (2 ^ 24) with (2 ^ 8 * 2 ^ 8 * 2 ^ 8).
  rewrite <- !Z.div_div by lia. change (2 ^ 8) with 256. change (2 ^ 32) with 4294967296 in Hv. zdiv.
Qed.
Lemma word_bytes32 v rest : 0 <= v < 2 ^ 32 -> word_at (bytes32 v ++ rest) 0 = v.
Proof. exact (bytes32_value v). Qed.
Lemma word_bytes32_snd u v : 0 <= v < 2 ^ 32 -> word_at (bytes32 u ++ bytes32 v) 4 = v.
Proof. exact (bytes32_value v). Qed.

Variable hdr : list Z.
Hypothesis header_read : forall a b c, hdr = a ++ b ++ c -> piece (alen a) (alen b) = b.
Hypothesis header_inside : alen hdr <= L < 2 ^ 31.

Lemma read_part (st : t) s f a b c : hdr = a ++ b ++ c -> at_ s f (alen a) ->
  exists f' s', read_fd (set_file st (Some f) s) (alen b) = Some (alen b, b, set_file st (Some f') s') /\
    at_ s' f' (alen (a ++ b)).
Proof.
  intros Hh Ha. pose proof (f_equal alen Hh) as Hl. rewrite !alen_app in Hl.
  pose proof (alen_nonneg a). pose proof (alen_nonneg b). pose proof (alen_nonneg c).
  destruct (read_fd_spec (set_file st (Some f) s) f (alen a) (alen b)) as (f' & s' & E & Ha' & _); [done|done|lia|lia|].
  rewrite (header_read a b c Hh) in *. exists f', s'. rewrite alen_app. done.
Qed.

Lemma read_chunk (st : t) s f a id v c : hdr = a ++ (bytes32 id ++ bytes32 v) ++ c -> at_ s f (alen a) ->
  0 <= id < 2 ^ 32 -> 0 <= v < 2 ^ 32 -> id <> RIFF ->
  exists f' s', wav_read_chunk_header (set_file st (Some f) s) = Some (id, v, set_file st (Some f') s') /\
    at_ s' f' (alen (a ++ bytes32 id ++ bytes32 v)).
Proof.
  intros Hh Ha Hid Hv Hne. destruct (read_part st s f a _ c Hh Ha) as (f' & s' & E & Ha').
  exists f', s'. split; [|done]. unfold wav_read_chunk_header. change 8 with (alen (bytes32 id ++ bytes32 v)).
  rewrite E. cbn [mbind option_bind]. rewrite Z.ltb_irrefl, word_bytes32 by done.
  rewrite word_bytes32_snd by done.
  by rewrite (proj2 (Z.eqb_neq _ _) Hne).
Qed.

Lemma read_riff (st : t) s f v c : hdr = (bytes32 RIFF ++ bytes32 v) ++ bytes32 WAVE ++ c -> at_ s f 0 -> 0 <= v < 2 ^ 32 ->
  exists f' s', wav_read_chunk_header (set_file st (Some f) s) = Some (RIFF, v, set_file st (Some f') s') /\
    at_ s' f' (alen ((bytes32 RIFF ++ bytes32 v) ++ bytes32 WAVE)).
Proof.
  intros Hh Ha Hv. destruct (read_part st s f [] _ _ Hh Ha) as (f1 & s1 & E1 & Ha1).
  destruct (read_part st s1 f1 _ _ c Hh Ha1) as (f2 & s2 & E2 & Ha2). exists f2, s2. split; [|done].
  unfold wav_read_chunk_header. change 8 with (alen (bytes32 RIFF ++ bytes32 v)).
  rewrite E1. cbn [mbind option_bind]. rewrite Z.ltb_irrefl, word_bytes32 by done.
  rewrite word_bytes32_snd by done.
  change (RIFF =? RIFF) with true. cbn iota. change 4 with (alen (bytes32 WAVE)). rewrite E2. done.
Qed.

Lemma play_wav_hears (st : t) name s f riff_size data_size fmt fact bits hz :
  hdr = wav_header riff_size data_size fmt fact ->
  0 <= riff_size < 2 ^ 32 -> 0 <= data_size < 2 ^ 32 ->
  get_int16 fmt 0 = Some 1 -> get_int16 fmt 2 = Some 1 -> get_int16 fmt 14 = Some bits -> get_int16 fmt 4 = Some hz ->
  bits = 8 \/ bits = 16 -> 0 <= hz < 2 ^ 16 ->
  playing st = 0 -> mode st = 0 -> dsp_of (card st) = Quiet -> irq_of (card st) = false ->
  d_open (sys st) name = Some (Some f, s) -> at_ s f 0 ->
  exists st1, play_wav base st (Some name) = Some (0, st1) /\
    dsp_of (card st1) = Plays (playback_of bits (if bits =? 16 then 1 else 0) hz (L - alen hdr <? CHUNK_SIZE)) /\
    hears st1 (heard (alen hdr)).
Proof.
  intros Hh Hr Hds G0 G2 G14 G4 Hbits Hhz Hp Hm Hd Hi Ho Ha.
  assert (Hl : 20 + alen fmt + match fact with None => 0 | Some b => 8 + alen b end + 8 = alen hdr).
  { rewrite Hh. unfold wav_header. rewrite !alen_app. destruct fact; rewrite ?alen_app; unfold bytes32, alen; simpl; lia. }
  pose proof (alen_nonneg fmt).
  assert (Hf : alen fmt < 2 ^ 31) by (destruct fact as [b|]; [pose proof (alen_nonneg b)|]; lia).
  unfold play_wav. rewrite Hp. change (negb (0 =? 0)) with false. cbn iota. rewrite Ho. cbn [mbind option_bind].
  unfold wav_header in Hh.
  destruct (read_riff st s f riff_size _ Hh Ha Hr) as (f1 & s1 & E1 & A1). rewrite E1. cbn [mbind option_bind].
  change (negb (RIFF =? RIFF)) with false. cbn iota. rewrite app_assoc in Hh.
  destruct (read_chunk st s1 f1 _ _ _ _ Hh A1) as (f2 & s2 & E2 & A2); [done|lia|done|].
  rewrite E2. cbn [mbind option_bind]. change (negb (FMT =? FMT)) with false. cbn iota.
  rewrite app_assoc in Hh. rewrite s32_small by lia.
  destruct (read_part st s2 f2 _ _ _ Hh A2) as (f3 & s3 & E3 & A3). rewrite E3. cbn [mbind option_bind].
  rewrite u32_small, Z.ltb_irrefl by lia. rewrite G0. cbn [mbind option_bind]. change (negb (1 =? 1)) with false. cbn iota.
  rewrite G2. cbn [mbind option_bind]. change (negb (1 =? 1)) with false. cbn iota.
  rewrite G14. cbn [mbind option_bind]. rewrite G4. cbn [mbind option_bind].
  replace (s8 (u8 bits)) with bits by (by destruct Hbits as [-> | ->]).
  rewrite app_assoc in Hh.
  assert (Hdata : forall s f a, hdr = a ++ bytes32 DATA ++ bytes32 data_size -> at_ s f (alen a) ->
    exists f' s', wav_read_chunk_header (set_file st (Some f) s) = Some (DATA, data_size, set_file st (Some f') s') /\
      at_ s' f' (alen hdr)).
  { intros s' f' a Hh' A'. rewrite <- (app_nil_r (_ ++ bytes32 data_size)) in Hh'.
    destruct (read_chunk st s' f' a DATA data_size [] Hh' A') as (f4 & s4 & E4 & A4); [done..|].
    exists f4, s4. split; [done|]. rewrite Hh', app_nil_r. done. }
  assert (Hplay : forall s f, at_ s f (alen hdr) -> exists st1,
    play_file base (set_file st (Some f) s) bits (if bits =? 16 then 1 else 0) hz = Some (0, st1) /\
    dsp_of (card st1) = Plays (playback_of bits (if bits =? 16 then 1 else 0) hz (L - alen hdr <? CHUNK_SIZE)) /\
    hears st1 (heard (alen hdr))).
  { intros s' f' A'. pose proof (alen_nonneg hdr). eapply play_file_hears; try done; lia. }
  destruct fact as [b|].
  - pose proof (alen_nonneg b). rewrite <- (app_assoc (_ ++ bytes32 (alen b))) in Hh.
    destruct (read_chunk st s3 f3 _ _ _ _ Hh A3) as (f4 & s4 & E4 & A4); [done|lia|done|]. rewrite E4. cbn [mbind option_bind].
    change (FACT =? FACT) with true. cbn iota. rewrite app_assoc in Hh. rewrite s32_small by lia.
    destruct (read_part st s4 f4 _ _ _ Hh A4) as (f5 & s5 & E5 & A5). rewrite E5. cbn [mbind option_bind].
    rewrite app_assoc in Hh. destruct (Hdata _ _ _ Hh A5) as (f6 & s6 & E6 & A6). rewrite E6. cbn [mbind option_bind].
    by apply Hplay.
  - rewrite app_nil_l in Hh. destruct (Hdata _ _ _ Hh A3) as (f6 & s6 & E6 & A6). rewrite E6. cbn [mbind option_bind].
    change (DATA =? FACT) with false. cbn iota. cbn [mbind option_bind]. by apply Hplay.
Qed.

End playing.

(** *** What is heard of a file that reads well *)

Section exact.
Context (L : Z) (piece : Z -> Z -> list Z).
Variable content : list Z.
Hypothesis content_len : alen content = L.
Hypothesis content_read : forall q n, 0 <= q <= L -> 0 <= n -> piece q n = take (Z.to_nat n) (drop (Z.to_nat q) content).

#[local] Transparent half first_fill.
Lemma blk_exact p0 k : 0 <= p0 <= L -> 0 <= k -> (k + 1) * CHUNK_SIZE <= L - p0 ->
  blk piece p0 k = take (Z.to_nat CHUNK_SIZE) (drop (Z.to_nat (p0 + k * CHUNK_SIZE)) content).
Proof.
  intros Hp Hk Hl. assert (HC : 0 < CHUNK_SIZE) by done. unfold blk. destruct (Z.ltb_spec k 2).
  - unfold half, first_fill, blit. rewrite content_read by (done || lia).
    assert (EC : DMA_BUFFER_SIZE = 2 * CHUNK_SIZE) by done. assert (k * CHUNK_SIZE + CHUNK_SIZE <= 2 * CHUNK_SIZE) by nia.
    assert (0 <= k * CHUNK_SIZE) by nia.
    change (Z.to_nat 0) with 0%nat. rewrite take_0, app_nil_l, drop_app_le.
    + rewrite skipn_firstn_comm, drop_drop, take_app_le by (rewrite length_take, length_drop; unfold alen in *; lia).
      rewrite take_take. f_equal; [lia|]. f_equal. lia.
    + rewrite length_take, length_drop. unfold alen in *. lia.
  - rewrite content_read by lia. done.
Qed.

Lemma concat_blks p0 (n : nat) : 0 <= p0 <= L -> Z.of_nat n * CHUNK_SIZE <= L - p0 ->
  concat (blk piece p0 <$> seqZ 0 (Z.of_nat n)) =
    take (n * Z.to_nat CHUNK_SIZE) (drop (Z.to_nat p0) content).
Proof.
  intros Hp. assert (HC : 0 < CHUNK_SIZE) by done. induction n as [|n IH]; intros Hl; [done|].
  rewrite seqZ_S, fmap_app, concat_app, IH by lia. cbn [fmap list_fmap concat]. rewrite app_nil_r, Z.add_0_l.
  rewrite blk_exact by lia. replace (Z.to_nat (p0 + Z.of_nat n * CHUNK_SIZE)) with (Z.to_nat p0 + n * Z.to_nat CHUNK_SIZE)%nat by lia.
  rewrite <- drop_drop, take_take_drop. f_equal. lia.
Qed.

Lemma nblocks_fit R : CHUNK_SIZE <= R -> 0 < nblocks R /\ nblocks R * CHUNK_SIZE <= R < nblocks R * CHUNK_SIZE + DMA_BUFFER_SIZE.
Proof.
  unfold nblocks, DMA_BUFFER_SIZE, CHUNK_SIZE. intros HR. destruct (Z.ltb_spec R (2 * (16 * 1024))); [lia|].
  destruct (Z.eqb_spec (R mod (16 * 1024)) 0); zdiv.
Qed.

(** Of a file with at least a block of samples whole blocks are heard, from the start. *)
Lemma heard_exact p0 : 0 <= p0 -> CHUNK_SIZE <= L - p0 ->
  concat (heard L piece p0) = take (Z.to_nat (nblocks (L - p0) * CHUNK_SIZE)) (drop (Z.to_nat p0) content).
Proof.
  intros Hp Hl. assert (HC : 0 < CHUNK_SIZE) by done. destruct (nblocks_fit (L - p0) Hl) as [Hn Hf]. unfold heard.
  rewrite <- (Z2Nat.id (nblocks (L - p0))) by lia. rewrite concat_blks by lia. f_equal. lia.
Qed.

End exact.

(** ** A file of the image through the kernel's dispatcher *)

#[global] Instance kernel_disp {W D} `{IFOps W D} : Disp (Kernel.t W D) (Kernel.file D) := {|
  d_open := Kernel.dispatch_open; d_read k f n := Kernel.dispatch_read k f n; d_close := Kernel.dispatch_close |}.

(** What a read of [n] bytes at [p] stores. *)
Definition kiss_piece (fs : KissFS.t) (ino p n : Z) : list Z :=
  match KissFS.readData fs ino p n with Some (_, bs) => bs | None => [] end.
Definition kiss_at {W D} (fs : KissFS.t) (ino : Z) (k : Kernel.t W D) (f : Kernel.file D) (p : Z) : Prop :=
  Kernel.kiss k = fs /\ f = Kernel.mk_file p (Kernel.KissData (KissFS.FdFile KissFS.NORMAL_FILE ino)).

Lemma kiss_reads {W D} `{IFOps W D} fs ino nd :
  anth (KissFS.inodes fs) ino = Some nd -> ino <= KissFS.numInodes fs -> KissFS.valid fs nd ->
  ReadsAs (KissFS.size nd) (kiss_piece fs ino) (kiss_at (W := W) (D := D) fs ino).
Proof.
  intros Hn Hi V. split.
  - intros p n Hp Hl. destruct (KissFS.readData_count fs ino nd p n Hn Hi V Hp Hl) as (bs & E & Hb).
    unfold kiss_piece. by rewrite E.
  - intros k f p n [Hk ->] Hp Hl. destruct (KissFS.readData_count fs ino nd p n Hn Hi V Hp ltac:(lia)) as (bs & E & Hb).
    pose proof (KissFS.valid_size _ _ V). unfold kiss_piece. rewrite E. do 2 eexists. split.
    + cbn [d_read kernel_disp]. unfold Kernel.dispatch_read. cbn [Kernel.data Kernel.offset].
      unfold KissFS.read. cbn [KissFS.fd_filetype]. change (KissFS.NORMAL_FILE =? KissFS.DIRECTORY) with false. cbn iota.
      rewrite Hk, u32_small, E by lia. cbn [mbind option_bind].
      rewrite (proj2 (Z.eqb_neq _ (-1))) by (pose proof (alen_nonneg bs); lia). rewrite u32_small by (pose proof (alen_nonneg bs); lia). done.
    + done.
Qed.

(** The header of a file, in its first block. *)
Lemma kiss_header fs ino nd hdr rest a b c :
  anth (KissFS.inodes fs) ino = Some nd -> ino <= KissFS.numInodes fs -> KissFS.valid fs nd ->
  KissFS.content fs nd = hdr ++ rest -> alen hdr <= 4096 -> hdr = a ++ b ++ c ->
  kiss_piece fs ino (alen a) (alen b) = b.
Proof.
  intros Hn Hi V Hc Hh Ha. pose proof (alen_nonneg a). pose proof (alen_nonneg b). pose proof (alen_nonneg c).
  pose proof (alen_nonneg rest). pose proof (KissFS.valid_size _ _ V).
  assert (Hs : KissFS.size nd = alen (hdr ++ rest)).
  { rewrite <- Hc. unfold KissFS.content, KissFS.slice. rewrite alen_fmap_seqZ by lia. done. }
  pose proof (f_equal alen Ha) as Hl. rewrite !alen_app in *.
  unfold kiss_piece. rewrite (KissFS.readData_spec fs ino nd) by (done || unfold KissFS.BlockSize; zdiv || lia).
  rewrite KissFS.slice_content by lia. rewrite Hc, Ha, <- !app_assoc.
  rewrite drop_app_length' by (unfold alen; lia). rewrite take_app_length' by (unfold alen in *; lia). done.
Qed.

(** C28: A wave file of the image (mono PCM, 8 or 16 bits, its header in the first 4096
    bytes) is played by [play_wav] when the driver is fresh (it plays nothing and no format
    was chosen before, see [format_sticks]) and the card quiet: the card is told the file's
    format and rate, and then, with the driver's handler at every interrupt, plays the
    first [nblocks] blocks of what the reads of the file gave, in their order, and driver
    and card rest. These are the blocks the code plays; of a file with more than one block
    the samples of the last reads are not among them ([samples_lost]). *)
Theorem wav_file_is_played {C} `{CardLaws C} (base : Z) (st : t Kernel.K (Kernel.file Console.fops) C)
    nm ino nd riff_size data_size fmt fact rest bits hz :
  let fs := Kernel.kiss (sys st) in
  let hdr := wav_header riff_size data_size fmt fact in
  0 <= base /\ base + DMA_BUFFER_SIZE <= 2 ^ 24 /\ base mod DMA_BUFFER_SIZE = 0 ->
  Kernel.mounted (sys st) -> Kernel.plain_name nm ->
  KissFS.open fs nm = Some (Some (KissFS.FdFile KissFS.NORMAL_FILE ino)) ->
  anth (KissFS.inodes fs) ino = Some nd -> ino <= KissFS.numInodes fs -> KissFS.valid fs nd -> KissFS.size nd < 2 ^ 31 ->
  KissFS.content fs nd = hdr ++ rest -> alen hdr <= 4096 ->
  0 <= riff_size < 2 ^ 32 -> 0 <= data_size < 2 ^ 32 ->
  get_int16 fmt 0 = Some 1 -> get_int16 fmt 2 = Some 1 -> get_int16 fmt 4 = Some hz -> get_int16 fmt 14 = Some bits ->
  bits = 8 \/ bits = 16 -> 0 <= hz < 2 ^ 16 ->
  playing st = 0 -> mode st = 0 -> dsp_of (card st) = Quiet -> irq_of (card st) = false ->
  exists st1, play_wav base st (Some nm) = Some (0, st1) /\
    dsp_of (card st1) = Plays (mk_playback bits (if bits =? 16 then 0x10 else 0) hz base
      DMA_BUFFER_SIZE CHUNK_SIZE 0 (alen rest <? CHUNK_SIZE)) /\
    exists st', playing st' = 0 /\ dsp_of (card st') = Quiet /\
      forall n, nblocks (alen rest) <= Z.of_nat n ->
        listen base n st1 = Some (blk (kiss_piece fs ino) (alen hdr) <$> seqZ 0 (nblocks (alen rest)), st').
Proof.
  intros fs hdr Hbase [I G] Hnm Ho Hn Hi V Hsz Hc Hh Hr Hd G0 G2 G4 G14 Hbits Hhz Hp Hm Hq Hirq.
  assert (Hs : KissFS.size nd = alen hdr + alen rest).
  { pose proof (KissFS.valid_size _ _ V). rewrite <- alen_app, <- Hc. unfold KissFS.content, KissFS.slice.
    by rewrite alen_fmap_seqZ by lia. }
  pose proof (kiss_reads (W := Console.t) (D := Console.fops) fs ino nd Hn Hi V) as HR.
  pose proof (alen_nonneg rest).
  destruct (play_wav_hears (C := C) base (KissFS.size nd) (kiss_piece fs ino) (kiss_at fs ino) Hbase hdr
    (fun a b c E => kiss_header fs ino nd hdr rest a b c Hn Hi V Hc Hh E) ltac:(lia)
    st nm (sys st) (Kernel.mk_file 0 (Kernel.KissData (KissFS.FdFile KissFS.NORMAL_FILE ino)))
    riff_size data_size fmt fact bits hz eq_refl) as (st1 & E1 & Hd1 & st' & Hp' & Hq' & Hl'); try done.
  { cbn [d_open kernel_disp]. rewrite Kernel.dispatch_plain by done. fold fs. by rewrite Ho. }
  replace (KissFS.size nd - alen hdr) with (alen rest) in * by lia.
  exists st1. split; [done|]. split; [by destruct Hbits as [-> | ->]|].
  exists st'. split; [done|]. split; [done|]. intros n Hle. unfold heard in Hl'.
  replace (KissFS.size nd - alen hdr) with (alen rest) in Hl' by lia. apply Hl'.
  rewrite length_fmap, length_seqZ. lia.
Qed.

(** A file of four 16-bit samples called "duang.wav". *)
Definition demo_fmt : list Z := [1; 0; 1; 0; 0x40; 0x1f; 0; 0; 0x80; 0x3e; 0; 0; 2; 0; 16; 0].
Definition demo_samples : list Z := [1; 2; 3; 4; 5; 6; 7; 8].
Definition demo_wav : list Z := wav_header 44 8 demo_fmt None ++ demo_samples.
Definition duang : list Z := [100; 117; 97; 110; 103; 46; 119; 97; 118].
Definition wav_fs (size : Z) (blocks : list Z) (image : memory) : KissFS.t :=
  KissFS.mk (default [] (LPHash.puts KissFS.TableSize (LPHash.init KissFS.TableSize) [(Kernel.pad32 duang, 0)]))
    [KissFS.mk_dentry (Kernel.pad32 duang) 2 0] [KissFS.mk_inode size blocks (alen blocks)] 1 1
    (alen blocks) image (2 + alen blocks).
Definition demo_wav_fs : KissFS.t := wav_fs 52 [0] (fun p => default 0 (demo_wav !! Z.to_nat (p - 8192))).

Lemma duang_plain : Kernel.plain_name duang.
Proof. split_and!; [repeat constructor; lia|done|done|by vm_compute|by intros [r [=]]]. Qed.

Lemma demo_wav_valid : KissFS.valid demo_wav_fs (KissFS.mk_inode 52 [0] 1).
Proof.
  unfold demo_wav_fs, wav_fs. generalize (default [] (LPHash.puts KissFS.TableSize (LPHash.init KissFS.TableSize) [(Kernel.pad32 duang, 0)])).
  intros tab. split; cbn; [lia|done| |done|done]. apply list.Forall_singleton. by repeat split.
Qed.
Lemma wav_file_is_played_witness :
  exists k st1 st', Kernel.boot demo_wav_fs None [] = Some k /\
    play_wav 0x408000 (mk None 1 0 0 (replicate (Z.to_nat DMA_BUFFER_SIZE) 0) 0 k SimCard.init) (Some duang) = Some (0, st1) /\
    dsp_of (card st1) = Plays (mk_playback 16 0x10 8000 0x408000 DMA_BUFFER_SIZE CHUNK_SIZE 0 true) /\
    listen 0x408000 1 st1 = Some ([blk (kiss_piece demo_wav_fs 0) 44 0], st') /\ playing st' = 0.
Proof.
  destruct (Kernel.boot_spec demo_wav_fs None []) as (k & E & [I _] & Hk & _ & _).
  destruct (wav_file_is_played (C := SimCard.t) 0x408000
    (mk None 1 0 0 (replicate (Z.to_nat DMA_BUFFER_SIZE) 0) 0 k SimCard.init)
    duang 0 (KissFS.mk_inode 52 [0] 1) 44 8 demo_fmt None demo_samples 16 8000)
    as (st1 & E1 & Hd & st' & Hp & _ & Hl); cbn [sys]; rewrite ?Hk.
  - split_and!; done.
  - apply I.
  - apply duang_plain.
  - vm_compute. reflexivity.
  - done.
  - done.
  - exact demo_wav_valid.
  - done.
  - vm_compute. reflexivity.
  - done.
  - lia.
  - lia.
  - done.
  - done.
  - done.
  - done.
  - by right.
  - lia.
  - done.
  - done.
  - done.
  - done.
  - cbn [sys] in Hl. rewrite Hk in Hl. exists k, st1, st'. split; [exact E|]. split; [exact E1|]. split; [exact Hd|]. split; [|exact Hp].
    apply (Hl 1%nat). vm_compute. discriminate.
Defined.

(** *** Refusals *)

(** Only the file and the file system changed. *)
Definition untouched {S F C} (st st' : t S F C) : Prop := st' = set_file st (fd st') (sys st').

Section refusing.
Context {S F C : Type} `{Disp S F} `{Card C}.
Notation t := (t S F C).

Lemma untouched_refl (st : t) : untouched st st.
Proof. by destruct st. Qed.
Lemma untouched_file (st : t) f s : untouched st (set_file st f s).
Proof. done. Qed.
Lemma untouched_trans (a b c : t) : untouched a b -> untouched b c -> untouched a c.
Proof. unfold untouched. intros -> ->. done. Qed.

Lemma read_fd_untouched (st : t) n r bs st' : read_fd st n = Some (r, bs, st') -> untouched st st'.
Proof.
  unfold read_fd. destruct (fd st) as [f|]; cbn [mbind option_bind]; [|done].
  destruct (d_read (sys st) f n) as [[[[? ?] ?] ?]|]; cbn [mbind option_bind]; [|done].
  intros [= <- <- <-]. apply untouched_file.
Qed.
Lemma close_fd_untouched (st st' : t) : close_fd st = Some st' -> untouched st st'.
Proof.
  unfold close_fd. destruct (fd st); cbn [mbind option_bind]; [|done]. intros [= <-]. apply untouched_file.
Qed.
Lemma give_back_untouched (st : t) r st' : give_back st = Some (r, st') -> r = -1 /\ untouched st st'.
Proof.
  unfold give_back. destruct (close_fd st) as [st1|] eqn:E; cbn [mbind option_bind]; [|done].
  intros [= <- <-]. split; [done|]. by apply close_fd_untouched.
Qed.
Lemma chunk_untouched (st : t) id n st' : wav_read_chunk_header st = Some (id, n, st') -> untouched st st'.
Proof.
  unfold wav_read_chunk_header. destruct (read_fd st 8) as [[[r bs] st1]|] eqn:E1; cbn [mbind option_bind]; [|done].
  apply read_fd_untouched in E1. destruct (r <? 8); [by intros [= _ _ <-]|].
  destruct (_ =? RIFF); [|by intros [= _ _ <-]].
  destruct (read_fd st1 4) as [[[r2 bs2] st2]|] eqn:E2; cbn [mbind option_bind]; [|done].
  apply read_fd_untouched in E2. destruct (negb _); intros [= _ _ <-]; by eapply untouched_trans.
Qed.
End refusing.

(** The outcomes of [play_wav] from [st] on. *)
Definition refusal {S F C} (st : t S F C) (m : option (Z * t S F C)) : Prop :=
  forall r st', m = Some (r, st') -> r = 0 \/ (r = -1 /\ untouched st st').

Section refusals.
Context {S F C : Type} `{Disp S F} `{Card C}.
Notation t := (t S F C).

Lemma refusal_return (st st1 : t) : untouched st st1 -> refusal st (Some (-1, st1)).
Proof. intros U r st' [= <- <-]. by right. Qed.
Lemma refusal_give_back (st st1 : t) : untouched st st1 -> refusal st (give_back st1).
Proof. intros U r st' [-> U']%give_back_untouched. right. split; [done|by eapply untouched_trans]. Qed.
Lemma refusal_chunk (st st1 : t) k : untouched st st1 ->
  (forall id n st2, untouched st st2 -> refusal st (k (id, n, st2))) -> refusal st (wav_read_chunk_header st1 ≫= k).
Proof.
  intros U Hk. destruct (wav_read_chunk_header st1) as [[[id n] st2]|] eqn:E; [|done].
  apply Hk. eapply untouched_trans; [exact U|]. by eapply chunk_untouched.
Qed.
Lemma refusal_read (st st1 : t) n k : untouched st st1 ->
  (forall r bs st2, untouched st st2 -> refusal st (k (r, bs, st2))) -> refusal st (read_fd st1 n ≫= k).
Proof.
  intros U Hk. destruct (read_fd st1 n) as [[[r bs] st2]|] eqn:E; [|done].
  apply Hk. eapply untouched_trans; [exact U|]. by eapply read_fd_untouched.
Qed.
Lemma refusal_if (st : t) (b : bool) m m' : refusal st m -> refusal st m' -> refusal st (if b then m else m').
Proof. by destruct b. Qed.
Lemma refusal_some {A} (st : t) (o : option A) k : (forall a, refusal st (k a)) -> refusal st (o ≫= k).
Proof. intros Hk. by destruct o; [apply Hk|]. Qed.
Lemma refusal_bind {A} (st : t) (m : option A) k (Q : A -> Prop) :
  (forall a, m = Some a -> Q a) -> (forall a, Q a -> refusal st (k a)) -> refusal st (m ≫= k).
Proof. intros Hm Hk. destruct m as [a|]; [|done]. by apply Hk, Hm. Qed.

Lemma refusal_play_file base (st st1 : t) bits sg hz : untouched st st1 -> refusal st (play_file base st1 bits sg hz).
Proof.
  intros U. unfold play_file. apply refusal_if; [by apply refusal_return|]. apply refusal_if; [by apply refusal_return|].
  cbv zeta. destruct (read_fd _ DMA_BUFFER_SIZE) as [[[r bs] st2]|]; [|done]. cbn [mbind option_bind].
  intros r' st' [= <- _]. by left.
Qed.
End refusals.

(** A file that is not started leaves the card and the driver as they were, for any
    file system and any card: [play_wav] gives 0 or -1, and with -1 no port was
    written and the buffer, the status and the current block are unchanged. *)
Theorem play_wav_refuses {S F C} `{Disp S F} `{Card C} (base : Z) (st : t S F C) name r st' :
  play_wav base st name = Some (r, st') -> r = 0 \/ (r = -1 /\ untouched st st').
Proof.
  revert r st'. change (refusal st (play_wav base st name)). unfold play_wav.
  destruct name as [name|]; [|apply refusal_return, untouched_refl].
  apply refusal_if; [apply refusal_return, untouched_refl|]. apply refusal_some. intros [f s].
  apply refusal_chunk; [apply untouched_file|]. intros id n st1 U1.
  apply refusal_if; [by apply refusal_give_back|]. apply refusal_chunk; [done|]. intros id2 n2 st2 U2.
  apply refusal_if; [by apply refusal_give_back|]. apply refusal_read; [done|]. intros r fmt st3 U3.
  apply refusal_if; [by apply refusal_give_back|]. apply refusal_some. intros pcm.
  apply refusal_if; [by apply refusal_give_back|]. apply refusal_some. intros channels.
  apply refusal_if; [by apply refusal_give_back|]. apply refusal_some. intros b. apply refusal_some. intros hz.
  apply refusal_chunk; [done|]. intros id3 n3 st4 U4.
  apply refusal_bind with (Q := fun x => untouched st x.2).
  - intros [[id5 n5] st5]. cbn. destruct (id3 =? FACT); [|by intros [= _ _ <-]].
    destruct (read_fd st4 _) as [[[r6 bs6] st6]|] eqn:E6; cbn [mbind option_bind]; [|done].
    intros E5%chunk_untouched. apply read_fd_untouched in E6.
    eapply untouched_trans; [exact U4|]. by eapply untouched_trans.
  - intros [[id5 n5] st5] U5. cbn in U5. apply refusal_if; [by apply refusal_give_back|]. by apply refusal_play_file.
Qed.

(** A file system that holds one file in memory. *)
#[local] Instance list_disp (content : list Z) : Disp unit (list Z) := {|
  d_open s _ := Some (Some content, s);
  d_read s f n := Some (Z.min n (alen f), take (Z.to_nat n) f, drop (Z.to_nat n) f, s);
  d_close s _ := (true, s) |}.

Lemma play_wav_refuses_witness :
  let st := mk None 1 0 0 [] 0 tt SimCard.init in
  exists st', play_wav (H := list_disp [77; 90; 0; 0; 0; 0; 0; 0; 0]) 0 st (Some duang) = Some (-1, st') /\
    (-1 = 0 \/ (-1 = -1 /\ untouched st st')).
Proof.
  intros st. eexists. split; [reflexivity|].
  apply (play_wav_refuses (H := list_disp [77; 90; 0; 0; 0; 0; 0; 0; 0]) 0 st (Some duang)). reflexivity.
Defined.

(** ** Faults *)

(** Of a file with more samples than a block the last are never heard: a short read
    lets only the block that is being played end, and the end of the file stops the
    card with a block still unplayed. *)
Theorem samples_lost (L : Z) (piece : Z -> Z -> list Z) content p0 : alen content = L ->
  (forall q n, 0 <= q <= L -> 0 <= n -> piece q n = take (Z.to_nat n) (drop (Z.to_nat q) content)) ->
  0 <= p0 -> CHUNK_SIZE < L - p0 -> alen (concat (heard L piece p0)) < L - p0.
Proof.
  intros HL Hr Hp HR. rewrite (heard_exact L piece content) by (done || lia).
  destruct (nblocks_fit (L - p0)) as [Hn Hf]; [lia|]. assert (nblocks (L - p0) * CHUNK_SIZE < L - p0).
  { revert Hf. unfold nblocks. destruct (Z.ltb_spec (L - p0) (2 * CHUNK_SIZE)); [lia|].
    unfold CHUNK_SIZE in *. destruct (Z.eqb_spec ((L - p0) mod (16 * 1024)) 0); zdiv. }
  assert (0 < CHUNK_SIZE) by done. unfold alen. rewrite length_take. lia.
Qed.

(** At the end of the file it is closed twice: [reset_playback] is called by the handler
    and again by [sb16_stop_playback]. *)
Theorem end_closes_twice {S F C} `{Disp S F} `{Card C} (st : t S F C) f f' s' :
  playing st <> 0 -> fd st = Some f -> d_read (sys st) f CHUNK_SIZE = Some (0, [], f', s') ->
  exists st', sb16_handler st = Some st' /\ sys st' = (d_close (d_close s' f').2 f').2.
Proof.
  intros Hp Hf Hr. unfold sb16_handler, read_fd. rewrite (proj2 (Z.eqb_neq _ _) Hp), Hf.
  cbn [mbind option_bind]. rewrite Hr. cbn [mbind option_bind]. change (0 <? u32 0) with false. cbn iota.
  unfold reset_playback, sb16_stop_playback, close_fd. cbn [mbind option_bind fd set_current set_status set_file store set_buffer].
  eexists. split; reflexivity.
Qed.

(** The 8-bit flag is never cleared: after 8-bit sound the channel for 16 bits is loaded,
    but the card is told to play bytes. *)
Theorem format_sticks {S F C} `{Card C} (st : t S F C) is_signed : has st STATUS_8BIT = true ->
  has (set_format st 16 is_signed) STATUS_8BIT = true /\ channel (set_format st 16 is_signed) = 5.
Proof.
  intros Hh. unfold set_format. change (16 =? 8) with false. cbn iota.
  destruct (is_signed =? 0); (split; [|done]); [exact Hh|].
  unfold has in *. cbn [mode set_status]. rewrite Z.land_lor_distr_l.
  change (Z.land STATUS_SIGNED STATUS_8BIT) with 0. by rewrite Z.lor_0_r.
Qed.

(** [play_wav] does not look whether the file was opened. *)
Theorem missing_file_faults {S F C} `{Disp S F} `{Card C} (base : Z) (st : t S F C) name s :
  playing st = 0 -> d_open (sys st) name = Some (None, s) -> play_wav base st (Some name) = None.
Proof. intros Hp Ho. unfold play_wav. rewrite Hp. change (negb (0 =? 0)) with false. cbn iota. rewrite Ho. done. Qed.

(** A file with other samples than 8 or 16 bits is refused, but stays open. *)
Theorem refused_format_stays_open {S F C} `{Disp S F} `{Card C} (base : Z) (st : t S F C) bits is_signed hz :
  bits <> 8 -> bits <> 16 -> play_file base st bits is_signed hz = Some (-1, st).
Proof.
  intros H8 H16. unfold play_file. destruct (negb _); [done|].
  by rewrite (proj2 (Z.eqb_neq _ _) H8), (proj2 (Z.eqb_neq _ _) H16).
Qed.

(** A file of 9000 bytes whose first byte of sound is at 44: the read of the first two
    blocks repeats 44 bytes at every block of the image it passes (see
    [KissFS.unaligned_read_leaks_next_block]), so the byte heard after 4096 others is
    the one that was heard 44 before. *)
Definition ramp_fs : KissFS.t := wav_fs 9000 [0; 1; 2] (fun p => p mod 251).
Theorem samples_repeated :
  aget (kiss_piece ramp_fs 0 44 DMA_BUFFER_SIZE) 4096 = aget (KissFS.content ramp_fs (KissFS.mk_inode 9000 [0; 1; 2] 3)) 4096 /\
  aget (KissFS.content ramp_fs (KissFS.mk_inode 9000 [0; 1; 2] 3)) 4096 <>
    aget (KissFS.content ramp_fs (KissFS.mk_inode 9000 [0; 1; 2] 3)) (44 + 4096).
Proof. split; vm_compute; [reflexivity|discriminate]. Qed.

End Sound.
