(* ===== verification/Ata.v ===== *)
(** * The disk driver (drivers/ata/ata.cpp, dma.cpp, ata_priv.h)

    A read or a write programs the disk and the bus master, blocks the caller and leaves
    a closure that the interrupt of the bus runs when the transfer is over: it copies the
    data, sets the caller's result and wakes it up. The hardware is behind the class
    [Hardware], whose laws are the registers of an ATA disk and of a bus master as they
    are documented. Debug prints and locks are left out; [new] gives the address that is
    passed in. *)
From stdpp Require Import prelude list numbers strings.
From Stdlib Require Import ZArith Lia.
From S2P Require Import Prelude Deque Pci MemMap.

Module Ata.

Definition ATA_SR_BSY : Z := 0x80.
Definition ATA_SR_DF : Z := 0x20.
Definition ATA_SR_DRQ : Z := 0x08.
Definition ATA_SR_ERR : Z := 0x01.
Definition ATA_CMD_READ_DMA : Z := 0xC8.
Definition ATA_CMD_WRITE_DMA : Z := 0xCA.
Definition ATA_REG_SECCOUNT0 : Z := 0x02.
Definition ATA_REG_LBA0 : Z := 0x03.
Definition ATA_REG_LBA1 : Z := 0x04.
Definition ATA_REG_LBA2 : Z := 0x05.
Definition ATA_REG_HDDEVSEL : Z := 0x06.
Definition ATA_REG_COMMAND : Z := 0x07.
Definition ATA_REG_STATUS : Z := 0x07.
Definition ATA_REG_CONTROL : Z := 0x0C.
Definition ATA_REG_ALTSTATUS : Z := 0x0C.
Definition ATA_CMD_IDENTIFY : Z := 0xEC.
Definition ATA_SECTOR_SIZE : Z := 512.
Definition bus0_io_base : Z := 0x1F0.
Definition bus1_io_base : Z := 0x170.

(** [ata_device], less the identity, which [ata_device_init] gives as its 512 bytes. *)
Record ata_device := mk_device { io_base : Z; control : Z; slave : Z }.
Definition ata_primary_master : ata_device := mk_device 0x1F0 0x3F6 0.
Definition ata_primary_slave : ata_device := mk_device 0x1F0 0x3F6 1.
Definition ata_secondary_master : ata_device := mk_device 0x170 0x376 0.
Definition ata_secondary_slave : ata_device := mk_device 0x170 0x376 1.

(** [prd] *)
Record prd := mk_prd { prd_data : Z; prd_bytes : Z }.

Definition upd {A} (f : Z -> A) (k : Z) (v : A) : Z -> A := fun x => if x =? k then v else f x.
(** The bytes [bs] stored from [a] on. *)
Definition blit (f : Z -> Z) (a : Z) (bs : list Z) : Z -> Z :=
  fun x => if (a <=? x) && (x <? a + alen bs) then aget bs (x - a) else f x.
Definition bytes_from (f : Z -> Z) (a n : Z) : list Z := (fun i => f (a + i)) <$> seqZ 0 n.

(** ** The hardware *)

(** The registers of one bus: the task file, the status, the command that waits for its
    transfer, the bus master's command, status and table pointer, and the sectors of the
    two disks. *)
Record bus := mk_bus {
  nsector : Z; lba0 : Z; lba1 : Z; lba2 : Z; select : Z; ata_status : Z; pending : option Z;
  bm_cmd : Z; bm_status : Z; bm_prdt : Z; medium : Z -> Z -> list Z }.

Inductive reg := Task (i : Z) | Bm (i : Z).

(** What a write of a byte to a register does. A transfer keeps the disk busy, SET FEATURES
    is done at once, and another command is refused with the error bit. *)
Definition put (r : reg) (d : Z) (v : bus) : bus :=
  match r with
  | Task 2 => mk_bus d (lba0 v) (lba1 v) (lba2 v) (select v) (ata_status v) (pending v) (bm_cmd v) (bm_status v) (bm_prdt v) (medium v)
  | Task 3 => mk_bus (nsector v) d (lba1 v) (lba2 v) (select v) (ata_status v) (pending v) (bm_cmd v) (bm_status v) (bm_prdt v) (medium v)
  | Task 4 => mk_bus (nsector v) (lba0 v) d (lba2 v) (select v) (ata_status v) (pending v) (bm_cmd v) (bm_status v) (bm_prdt v) (medium v)
  | Task 5 => mk_bus (nsector v) (lba0 v) (lba1 v) d (select v) (ata_status v) (pending v) (bm_cmd v) (bm_status v) (bm_prdt v) (medium v)
  | Task 6 => mk_bus (nsector v) (lba0 v) (lba1 v) (lba2 v) d (ata_status v) (pending v) (bm_cmd v) (bm_status v) (bm_prdt v) (medium v)
  | Task 7 =>
      let '(st, p) := if (d =? 0xC8) || (d =? 0xCA) then (0xD0, Some d) else if d =? 0xEF then (0x50, None) else (0x51, None) in
      mk_bus (nsector v) (lba0 v) (lba1 v) (lba2 v) (select v) st p (bm_cmd v) (bm_status v) (bm_prdt v) (medium v)
  | Bm 0 => mk_bus (nsector v) (lba0 v) (lba1 v) (lba2 v) (select v) (ata_status v) (pending v) d (bm_status v) (bm_prdt v) (medium v)
  | Bm 2 => mk_bus (nsector v) (lba0 v) (lba1 v) (lba2 v) (select v) (ata_status v) (pending v) (bm_cmd v)
              (Z.land (bm_status v) (Z.lnot (Z.land d 6))) (bm_prdt v) (medium v)
  | _ => v
  end.
Definition set_prdt (v : bus) (p : Z) : bus :=
  mk_bus (nsector v) (lba0 v) (lba1 v) (lba2 v) (select v) (ata_status v) (pending v) (bm_cmd v) (bm_status v) p (medium v).

(** The disk, the sector and the number of bytes of a transfer; of a table entry 0 is 64
    KB. *)
Definition unit_of (v : bus) : Z := Z.land (Z.shiftr (select v) 4) 1.
Definition lba_of (v : bus) : Z := lba0 v + lba1 v * 2 ^ 8 + lba2 v * 2 ^ 16 + select v mod 16 * 2 ^ 24.
Definition length_of (v : bus) (e : prd) : Z :=
  Z.min (512 * (if nsector v =? 0 then 256 else nsector v)) (if prd_bytes e =? 0 then 65536 else prd_bytes e).

(** The bytes of [n / 512] sectors, and their replacement. *)
Definition sectors (m : Z -> list Z) (lba n : Z) : list Z :=
  (fun i => aget (m (lba + i / 512)) (i mod 512)) <$> seqZ 0 n.
Definition set_sectors (m : Z -> list Z) (lba n : Z) (bs : list Z) : Z -> list Z :=
  fun x => if (lba <=? x) && (x <? lba + n / 512) then take 512 (drop (Z.to_nat (512 * (x - lba))) bs) else m x.

(** A bus after its transfer: idle, with the interrupt bit of the bus master, or the error
    bit of the disk too. *)
Definition over (v : bus) (ok : bool) (m : Z -> Z -> list Z) : bus :=
  mk_bus (nsector v) (lba0 v) (lba1 v) (lba2 v) (select v) (if ok then 0x50 else 0x51) None (bm_cmd v)
    (Z.lor (bm_status v) 4) (bm_prdt v) m.

(** [transfer c j ok entry mem]: bus [j] makes the transfer it is ready for, with the
    table entry that is at an address, from or to the memory. *)
Class Hardware (C : Type) := {
  view : C -> Z -> bus;
  hw_outb : Z -> Z -> C -> C;
  hw_outl : Z -> Z -> C -> C;
  hw_inb : Z -> C -> Z * C;
  hw_inw : Z -> C -> Z * C;
  transfer : Z -> bool -> (Z -> option prd) -> (Z -> Z) -> C -> option ((Z -> Z) * C) }.

(** Where a port leads, with the bus master at [bm]. *)
Definition where_port (bm p : Z) : option (Z * reg) :=
  if (0x1F1 <=? p) && (p <=? 0x1F7) then Some (0, Task (p - 0x1F0))
  else if (0x171 <=? p) && (p <=? 0x177) then Some (1, Task (p - 0x170))
  else if (bm <=? p) && (p <? bm + 8) then Some (0, Bm (p - bm))
  else if (bm + 8 <=? p) && (p <? bm + 16) then Some (1, Bm (p - (bm + 8)))
  else None.

Class HardwareLaws (C : Type) `{Hardware C} (bm : Z) : Prop := {
  law_outb c d p j : p <> 0x3F6 -> p <> 0x376 -> view (hw_outb d p c) j =
    match where_port bm p with Some (i, r) => if i =? j then put r d (view c j) else view c j | None => view c j end;
  law_prdt c d i j : i = 0 \/ i = 1 -> view (hw_outl d (bm + 8 * i + 4) c) j = if i =? j then set_prdt (view c j) d else view c j;
  law_in c p j : view (hw_inb p c).2 j = view c j;
  law_status c j : j = 0 \/ j = 1 -> (hw_inb ((if j =? 0 then 0x1F0 else 0x170) + 7) c).1 = ata_status (view c j);
  law_bm_cmd c j : j = 0 \/ j = 1 -> (hw_inb (bm + 8 * j) c).1 = bm_cmd (view c j);
  law_bm_status c j k : j = 0 \/ j = 1 -> k = 1 \/ k = 2 ->
    Z.testbit (hw_inb (bm + 8 * j + 2) c).1 k = Z.testbit (bm_status (view c j)) k;
  law_read c j ok entry mem e : j = 0 \/ j = 1 ->
    pending (view c j) = Some 0xC8 -> Z.land (bm_cmd (view c j)) 9 = 9 -> entry (bm_prdt (view c j)) = Some e ->
    exists mem' c', transfer j ok entry mem c = Some (mem', c') /\
      (forall i, view c' i = if i =? j then over (view c j) ok (medium (view c j)) else view c i) /\
      mem' = if ok then blit mem (prd_data e) (sectors (medium (view c j) (unit_of (view c j))) (lba_of (view c j)) (length_of (view c j) e))
             else mem;
  law_write c j ok entry mem e : j = 0 \/ j = 1 ->
    pending (view c j) = Some 0xCA -> Z.land (bm_cmd (view c j)) 9 = 1 -> entry (bm_prdt (view c j)) = Some e ->
    exists c', transfer j ok entry mem c = Some (mem, c') /\
      (forall i, view c' i = if i =? j then over (view c j) ok
          (if ok then upd (medium (view c j)) (unit_of (view c j))
             (set_sectors (medium (view c j) (unit_of (view c j))) (lba_of (view c j)) (length_of (view c j) e)
                (bytes_from mem (prd_data e) (length_of (view c j) e)))
           else medium (view c j)) else view c i) }.

(** ** The driver *)

Section driver.
Context {C : Type} `{Hardware C}.
(** [cpu0_memmap.translate] as the page directory entry of an address, and the addresses of
    [bus0prd] and [bus1prd]. *)
Variable translate : Z -> Z.
Variable bus0prd_addr bus1prd_addr : Z.
(** A bound on how often the status is read while the disk is busy. *)
Variable spin : nat.

(** The variables that a closure of [dma_finish_read] captured. *)
Record request := mk_request {
  rq_write : bool; rq_dev : ata_device; rq_base : Z; rq_bus : Z; rq_nbytes : Z; rq_buf : Z; rq_dma : Z;
  rq_thread : Z; rq_inst : Z }.

(** The static data; [currOffset] of every [FOps]; physical memory, the memory of the
    processes by thread, the result registers of the threads and those that are blocked;
    the hardware. *)
Record t := mk {
  dma_init : bool; bmr : Z; bus0prd : prd; bus1prd : prd;
  dma_waiting_read : Z -> bool; dma_finish_read : Z -> option request;
  currOffset : Z -> Z; mem : Z -> Z; umem : Z -> Z -> Z; eax : Z -> Z; blocked : list Z; hw : C }.

Definition set_hw (s : t) (c : C) : t :=
  mk (dma_init s) (bmr s) (bus0prd s) (bus1prd s) (dma_waiting_read s) (dma_finish_read s) (currOffset s) (mem s) (umem s)
    (eax s) (blocked s) c.
Definition set_mem (s : t) (m : Z -> Z) : t :=
  mk (dma_init s) (bmr s) (bus0prd s) (bus1prd s) (dma_waiting_read s) (dma_finish_read s) (currOffset s) m (umem s)
    (eax s) (blocked s) (hw s).
Definition set_umem (s : t) (thread : Z) (m : Z -> Z) : t :=
  mk (dma_init s) (bmr s) (bus0prd s) (bus1prd s) (dma_waiting_read s) (dma_finish_read s) (currOffset s) (mem s)
    (upd (umem s) thread m) (eax s) (blocked s) (hw s).
Definition set_waiting (s : t) (b : Z) (w : bool) : t :=
  mk (dma_init s) (bmr s) (bus0prd s) (bus1prd s) (upd (dma_waiting_read s) b w) (dma_finish_read s) (currOffset s) (mem s)
    (umem s) (eax s) (blocked s) (hw s).
Definition set_finish (s : t) (b : Z) (r : request) : t :=
  mk (dma_init s) (bmr s) (bus0prd s) (bus1prd s) (dma_waiting_read s) (upd (dma_finish_read s) b (Some r)) (currOffset s)
    (mem s) (umem s) (eax s) (blocked s) (hw s).
Definition set_offset (s : t) (i o : Z) : t :=
  mk (dma_init s) (bmr s) (bus0prd s) (bus1prd s) (dma_waiting_read s) (dma_finish_read s) (upd (currOffset s) i o) (mem s)
    (umem s) (eax s) (blocked s) (hw s).
Definition set_eax (s : t) (thread v : Z) : t :=
  mk (dma_init s) (bmr s) (bus0prd s) (bus1prd s) (dma_waiting_read s) (dma_finish_read s) (currOffset s) (mem s) (umem s)
    (upd (eax s) thread v) (blocked s) (hw s).
Definition set_blocked (s : t) (l : list Z) : t :=
  mk (dma_init s) (bmr s) (bus0prd s) (bus1prd s) (dma_waiting_read s) (dma_finish_read s) (currOffset s) (mem s) (umem s)
    (eax s) l (hw s).

Definition outb (data port : Z) (s : t) : t := set_hw s (hw_outb (u8 data) port (hw s)).
Definition outl (data port : Z) (s : t) : t := set_hw s (hw_outl data port (hw s)).
Definition inb (port : Z) (s : t) : Z * t := let '(v, c) := hw_inb port (hw s) in (v, set_hw s c).

Definition ata_io_wait (dev : ata_device) (s : t) : t :=
  let s := (inb (io_base dev + ATA_REG_ALTSTATUS) s).2 in
  let s := (inb (io_base dev + ATA_REG_ALTSTATUS) s).2 in
  let s := (inb (io_base dev + ATA_REG_ALTSTATUS) s).2 in
  (inb (io_base dev + ATA_REG_ALTSTATUS) s).2.

(** [None]: the disk stays busy. *)
Fixpoint ata_wait_loop (fuel : nat) (dev : ata_device) (s : t) : option t :=
  match fuel with
  | O => None
  | S fuel =>
      let '(status, s) := inb (io_base dev + ATA_REG_STATUS) s in
      if Z.land status ATA_SR_BSY =? 0 then Some s else ata_wait_loop fuel dev s
  end.

Definition ata_wait (dev : ata_device) (advanced : bool) (s : t) : option (Z * t) :=
  s ← ata_wait_loop (S spin) dev (ata_io_wait dev s);
  if advanced then
    let '(status, s) := inb (io_base dev + ATA_REG_STATUS) s in
    if negb (Z.land status ATA_SR_ERR =? 0) then Some (1, outb 2 (io_base dev + ATA_REG_STATUS) s)
    else if negb (Z.land status ATA_SR_DF =? 0) then Some (1, s)
    else if Z.land status ATA_SR_DRQ =? 0 then Some (2, s)
    else Some (0, s)
  else Some (0, s).

Definition ata_soft_reset (dev : ata_device) (s : t) : t := outb 0x00 (control dev) (outb 0x04 (control dev) s).

(** *** Finding the disks *)

Definition inw (port : Z) (s : t) : Z * t := let '(v, c) := hw_inw port (hw s) in (v, set_hw s c).

(** [n] words from the data port, as bytes. *)
Fixpoint read_identity (n : nat) (dev : ata_device) (s : t) : list Z * t :=
  match n with
  | O => ([], s)
  | S n => let '(w, s) := inw (io_base dev) s in let '(l, s) := read_identity n dev s in (w mod 256 :: u16 w / 256 :: l, s)
  end.
(** The offset of [model] in [ata_identify_t], and the loop that swaps its bytes, for the
    [n] pairs from [i] on. *)
Definition model_at : Z := 54.
Fixpoint swap_model (n : nat) (i : Z) (ptr : list Z) : list Z :=
  match n with
  | O => ptr
  | S n =>
      let tmp := aget ptr (model_at + i + 1) in
      let ptr := aset ptr (model_at + i + 1) (aget ptr (model_at + i)) in
      swap_model n (i + 2) (aset ptr (model_at + i) tmp)
  end.

Definition ata_device_init (dev : ata_device) (s : t) : option (list Z * t) :=
  let s := outb 1 (io_base dev + 1) s in
  let s := outb 0 (control dev) s in
  let s := ata_io_wait dev (outb (Z.lor 0xA0 (Z.shiftl (slave dev) 4)) (io_base dev + ATA_REG_HDDEVSEL) s) in
  let s := ata_io_wait dev (outb ATA_CMD_IDENTIFY (io_base dev + ATA_REG_COMMAND) s) in
  let s := (inb (io_base dev + ATA_REG_COMMAND) s).2 in
  '(_, s) ← ata_wait dev false s;
  let '(buf, s) := read_identity 256 dev s in
  Some (swap_model 20 0 buf, outb 0 (io_base dev + ATA_REG_CONTROL) s).

Definition ata_device_detect (dev : ata_device) (s : t) : option (Z * option (list Z) * t) :=
  let s := ata_soft_reset dev s in
  let s := ata_io_wait dev (outb (Z.lor 0xA0 (Z.shiftl (slave dev) 4)) (io_base dev + ATA_REG_HDDEVSEL) s) in
  let '(cl, s) := inb (io_base dev + ATA_REG_LBA1) s in
  let '(ch, s) := inb (io_base dev + ATA_REG_LBA2) s in
  if (cl =? 0xFF) && (ch =? 0xFF) then Some (0, None, s)
  else if (cl =? 0x00) && (ch =? 0x00) then '(identity, s) ← ata_device_init dev s; Some (1, Some identity, s)
  else Some (0, None, s).

(** *** dma.cpp *)

Definition DMA_ON : Z := 1.
Definition DMA_READ : Z := 8.
Definition DMA_WRITE : Z := 0.

Definition startDMA (base : Z) (s : t) : t :=
  let '(cmd, s) := inb (bmr s + base) s in outb (Z.lor cmd DMA_ON) (bmr s + base) s.
Definition stopDMA (base : Z) (s : t) : t :=
  let s := (inb (bmr s + base) s).2 in outb 0 (bmr s + base) s.

Definition physaddr (ptr : Z) : Z :=
  Z.lor (Z.land (translate ptr) ALIGN_4MB_ADDR) (Z.land ptr (not32 ALIGN_4MB_ADDR)).

Definition set_bus0_prdt (addr : Z) (p : prd) (s : t) : t :=
  let s := outl (physaddr addr) (bmr s + 0x04) s in
  mk (dma_init s) (bmr s) p (bus1prd s) (dma_waiting_read s) (dma_finish_read s) (currOffset s) (mem s) (umem s)
    (eax s) (blocked s) (hw s).
Definition set_bus1_prdt (addr : Z) (p : prd) (s : t) : t :=
  let s := outl (physaddr addr) (bmr s + 0x0C) s in
  mk (dma_init s) (bmr s) (bus0prd s) p (dma_waiting_read s) (dma_finish_read s) (currOffset s) (mem s) (umem s)
    (eax s) (blocked s) (hw s).

(** [init_dma], less the binding of the interrupts; [config] holds the registers of the PCI
    bus, the two values are those of [new prd()] with their addresses. *)
Definition init_dma (PATAControllers : option (Deque.t Pci.UnitDev)) (new0 new1 : Z * prd) (config : Z -> Z) (s : t) :
    option (bool * (Z -> Z) * t) :=
  if dma_init s then Some (true, config, s)
  else
    match PATAControllers with
    | None => Some (false, config, s)
    | Some controllers =>
        if Deque.empty controllers then Some (false, config, s)
        else
          dev ← mjoin (Deque.at_ controllers 0);
          let reg := fun r => Pci.configAddr (Pci.busId dev) (Pci.devId dev) (Pci.funcId dev) r in
          let b := Z.land (config (reg 0x20)) (not32 1) in
          let cmdAndStatus := config (reg 0x04) in
          let cmd := Z.land cmdAndStatus 0xffff in
          let status := u16 (Z.shiftr cmdAndStatus 16) in
          let newcmd := u16 (Z.lor cmd 0x07) in
          let newcmd := u16 (Z.land newcmd (Z.lnot (Z.shiftl 1 10))) in
          let config := upd config (reg 0x04) (u32 (Z.lor (Z.shiftl status 16) newcmd)) in
          let s := mk (dma_init s) b (bus0prd s) (bus1prd s) (dma_waiting_read s) (dma_finish_read s) (currOffset s) (mem s) (umem s)
                     (eax s) (blocked s) (hw s) in
          let s := set_bus0_prdt new0.1 new0.2 s in
          let s := set_bus1_prdt new1.1 new1.2 s in
          Some (true, config,
            mk true (bmr s) (bus0prd s) (bus1prd s) (dma_waiting_read s) (dma_finish_read s) (currOffset s) (mem s) (umem s)
              (eax s) (blocked s) (hw s))
    end.

Definition preinit_dma (s : t) : t := set_waiting (set_waiting s 0 false) 1 false.

(** The driver's start: the disks that were found, by the name of their file, and the bus
    master. *)
Fixpoint detect_all (devs : list (string * ata_device)) (s : t) : option (list string * t) :=
  match devs with
  | [] => Some ([], s)
  | (path, dev) :: devs =>
      '(found, _, s) ← ata_device_detect dev s;
      '(paths, s) ← detect_all devs s;
      Some (if found =? 0 then paths else path :: paths, s)
  end.
Definition ata_files : list (string * ata_device) :=
  [("ata00"%string, ata_primary_master); ("ata01"%string, ata_primary_slave);
   ("ata10"%string, ata_secondary_master); ("ata11"%string, ata_secondary_slave)].
Definition pata_init (PATAControllers : option (Deque.t Pci.UnitDev)) (new0 new1 : Z * prd) (config : Z -> Z) (s : t) :
    option (list string * (Z -> Z) * t) :=
  '(paths, s) ← detect_all ata_files s;
  '(_, config, s) ← init_dma PATAControllers new0 new1 config (preinit_dma s);
  Some (paths, config, s).

(** The processor's access to a buffer of [n] bytes at [a]. *)
Definition load_buffer (m : Z -> Z) (a n : Z) : list Z := (fun i => m (physaddr (a + i))) <$> seqZ 0 n.
Fixpoint store_buffer (m : Z -> Z) (a : Z) (bs : list Z) : Z -> Z :=
  match bs with [] => m | b :: bs => store_buffer (upd m (physaddr a) b) (a + 1) bs end.

(** The two functions [dma_begin_read_sector] and [dma_begin_write_sector] after the copy to
    the buffer, in steps: the bus master is stopped and set to a direction, *)
Definition dma_prepare (dev : ata_device) (base dir : Z) (s : t) : t :=
  let s := stopDMA base s in
  let s := outb 2 (io_base dev + ATA_REG_CONTROL) s in
  let s := outb dir (bmr s + base) s in
  let '(status, s) := inb (bmr s + base + 2) s in
  outb (Z.lor (Z.lor status 2) 4) (bmr s + base + 2) s.
(** the disk gets its mode and the command. *)
Definition dma_command (dev : ata_device) (lba cmd : Z) (s : t) : t :=
  let bus := io_base dev in
  let s := outb 0 (bus + ATA_REG_CONTROL) s in
  let s := outb (Z.lor (Z.lor 0xe0 (Z.shiftl (slave dev) 4)) (Z.shiftr (Z.land lba 0x0f000000) 24)) (bus + ATA_REG_HDDEVSEL) s in
  let s := outb 0x03 (bus + 1) s in
  let s := outb 0x21 (bus + 2) s in
  let s := outb 0xEF (bus + ATA_REG_COMMAND) s in
  let s := (inb ATA_REG_STATUS s).2 in
  let s := outb 1 (bus + ATA_REG_SECCOUNT0) s in
  let s := outb (Z.shiftr (Z.land lba 0x000000ff) 0) (bus + ATA_REG_LBA0) s in
  let s := outb (Z.shiftr (Z.land lba 0x0000ff00) 8) (bus + ATA_REG_LBA1) s in
  let s := outb (Z.shiftr (Z.land lba 0x00ff0000) 16) (bus + ATA_REG_LBA2) s in
  outb cmd (bus + ATA_REG_COMMAND) s.

(** [dma_buffer] is what [new] gave, [dir] and [cmd] are where the two differ. *)
Definition dma_begin (write : bool) (dev : ata_device) (lba buf nbytes dma_buffer inst thread dir cmd : Z) (s : t) :
    option (Z * t) :=
  let p := mk_prd (physaddr dma_buffer) (u16 nbytes) in
  '(base, busId, s) ←
    (if io_base dev =? bus0_io_base then Some (0, 0, set_bus0_prdt bus0prd_addr p s)
     else if io_base dev =? bus1_io_base then Some (0x08, 1, set_bus1_prdt bus1prd_addr p s)
     else None);
  '(_, s) ← ata_wait dev false (dma_prepare dev base dir s);
  let s := startDMA base (dma_command dev lba cmd s) in
  let s := set_waiting s busId true in
  let s := set_finish s busId (mk_request write dev base busId nbytes buf dma_buffer thread inst) in
  Some (0, set_blocked s (thread :: blocked s)).

(** [new char [bufferSize]]: the allocator's answer to a size, [None] a panic. *)
Variable new : Z -> option Z.
Definition bufferSize (nbytes : Z) : Z :=
  if negb (nbytes mod 0x1000 =? 0) then u32 ((nbytes / 0x1000 + 1) * 0x1000) else nbytes.

Definition dma_begin_read_sector (dev : ata_device) (lba buf nbytes inst thread : Z) (s : t) : option (Z * t) :=
  if negb (dma_init s) then Some (-1, s)
  else if negb (nbytes mod ATA_SECTOR_SIZE =? 0) then Some (-1, s)
  else
    dma_buffer ← new (bufferSize nbytes);
    let s := set_umem s thread (blit (umem s thread) buf (replicate (Z.to_nat nbytes) 0)) in
    dma_begin false dev lba buf nbytes dma_buffer inst thread DMA_READ ATA_CMD_READ_DMA s.

Definition dma_begin_write_sector (dev : ata_device) (lba buf nbytes inst thread : Z) (s : t) : option (Z * t) :=
  if negb (dma_init s) then Some (-1, s)
  else if negb (nbytes mod ATA_SECTOR_SIZE =? 0) then Some (-1, s)
  else
    dma_buffer ← new (bufferSize nbytes);
    let s := set_mem s (store_buffer (mem s) dma_buffer (bytes_from (umem s thread) buf nbytes)) in
    dma_begin true dev lba buf nbytes dma_buffer inst thread DMA_WRITE ATA_CMD_WRITE_DMA s.

(** The closure, run by the interrupt; [stopDMA] gets the number of the bus. *)
Definition finish (r : request) (s : t) : option t :=
  let s := set_waiting s (rq_bus r) false in
  let s := outb 0 (bmr s + rq_base r) s in
  '(w, s) ← ata_wait (rq_dev r) true s;
  let '(st, s) := inb (bmr s + rq_base r + 2) s in
  let failed := (w =? 1) || negb (Z.land st 0x02 =? 0) in
  let '(retval, s) :=
    if failed then (u32 (-1), ata_soft_reset (rq_dev r) (stopDMA (rq_bus r) s))
    else
      let s := if rq_write r then s
               else set_umem s (rq_thread r) (blit (umem s (rq_thread r)) (rq_buf r) (load_buffer (mem s) (rq_dma r) (rq_nbytes r))) in
      (rq_nbytes r, set_offset s (rq_inst r) (u32 (currOffset s (rq_inst r) + rq_nbytes r))) in
  let s := set_eax s (rq_thread r) retval in
  Some (set_blocked s (filter (fun x => x <> rq_thread r) (blocked s))).

Definition run_finish (b : Z) (s : t) : option t :=
  if dma_waiting_read s b then r ← dma_finish_read s b; finish r s else Some s.

Definition dma_int_handler (s : t) : option t :=
  let '(bus0status, s) := inb (bmr s + 0x02) s in
  let '(bus1status, s) := inb (bmr s + 0x0A) s in
  s ← (if negb (Z.land bus0status 0x04 =? 0) then run_finish 0 (outb 0x04 (bmr s + 0x02) s) else Some s);
  if negb (Z.land bus1status 0x04 =? 0) then run_finish 1 (outb 0x04 (bmr s + 0x0A) s) else Some s.

(** *** [FOps] of a device *)

Definition fops_read (dev : ata_device) (inst thread buf bytes : Z) (s : t) : option (Z * t) :=
  if 1024 * 1024 <? bytes then Some (-1, s)
  else dma_begin_read_sector dev (currOffset s inst / ATA_SECTOR_SIZE) buf (u32 bytes) inst thread s.
Definition fops_write (dev : ata_device) (inst thread buf bytes : Z) (s : t) : option (Z * t) :=
  if 1024 * 1024 <? bytes then Some (-1, s)
  else dma_begin_write_sector dev (currOffset s inst / ATA_SECTOR_SIZE) buf (u32 bytes) inst thread s.
Definition seekCallback (inst newOffset : Z) (s : t) : t := set_offset s inst newOffset.
Definition canSeek : bool := true.
(** A new [FOps], at the address [inst]. *)
Definition getNewInstance (inst : Z) (s : t) : t := set_offset s inst 0.

(** The hardware makes the transfer of a bus, with the tables where the driver has them. *)
Definition entry (s : t) (p : Z) : option prd :=
  if p =? physaddr bus0prd_addr then Some (bus0prd s) else if p =? physaddr bus1prd_addr then Some (bus1prd s) else None.
Definition hw_step (j : Z) (ok : bool) (s : t) : option t :=
  '(m, c) ← transfer j ok (entry s) (mem s) (hw s); Some (set_hw (set_mem s m) c).

(** ** Bits and addresses *)

Lemma bits_6 i : Z.testbit 6 i = bool_decide (i = 1 \/ i = 2).
Proof.
  destruct (decide (i = 1)) as [->|]; [done|]. destruct (decide (i = 2)) as [->|]; [done|].
  rewrite bool_decide_eq_false_2 by lia. destruct (decide (i < 0)); [by apply Z.testbit_neg_r|].
  destruct (decide (i = 0)) as [->|]; [done|]. apply (testbit_high 6 3 i); lia.
Qed.
Lemma land_bit x k : 0 <= k -> Z.land x (2 ^ k) = 0 <-> Z.testbit x k = false.
Proof.
  intros Hk. rewrite <- (Z.shiftl_1_l k). split.
  - intros E. apply (f_equal (fun y => Z.testbit y k)) in E. rewrite Z.land_spec, Z.shiftl_spec, Z.sub_diag, Z.bits_0 in E by done.
    by rewrite andb_true_r in E.
  - intros E. apply Z.bits_inj'. intros i Hi. rewrite Z.land_spec, Z.bits_0, Z.shiftl_spec by done.
    destruct (decide (i = k)) as [->|]; [by rewrite E|].
    destruct (decide (i < k)); [rewrite (Z.testbit_neg_r 1) by lia; apply andb_false_r|].
    rewrite (testbit_high 1 1 (i - k)) by lia. apply andb_false_r.
Qed.

(** The write that clears the two latched bits of the bus master. *)
Lemma clear_latches x y i : Z.testbit (Z.land x (Z.lnot (Z.land (u8 (Z.lor (Z.lor y 2) 4)) 6))) i =
  Z.testbit x i && negb (bool_decide (i = 1 \/ i = 2)).
Proof.
  destruct (decide (i < 0)); [by rewrite !(Z.testbit_neg_r _ i) by done|].
  rewrite Z.land_spec, Z.lnot_spec, Z.land_spec, bits_6 by lia. f_equal. f_equal.
  case_bool_decide as E; [|apply andb_false_r]. unfold u8. rewrite Z.mod_pow2_bits_low, !Z.lor_spec by lia.
  destruct E as [-> | ->]; by rewrite ?orb_true_r.
Qed.

Lemma byte_of lba k m : 0 <= lba -> 0 <= k -> m = Z.shiftl 0xff k -> Z.shiftr (Z.land lba m) k = lba / 2 ^ k mod 2 ^ 8.
Proof.
  intros Hl Hk ->. rewrite Z.shiftr_land, Z.shiftr_shiftl_l, Z.sub_diag, Z.shiftl_0_r, Z.shiftr_div_pow2 by lia.
  change 0xff with (Z.ones 8). by rewrite Z.land_ones by lia.
Qed.

Lemma select_bits sl h : 0 <= sl <= 1 -> 0 <= h < 16 ->
  let d := u8 (Z.lor (Z.lor 0xe0 (Z.shiftl sl 4)) h) in Z.land (Z.shiftr d 4) 1 = sl /\ d mod 16 = h.
Proof.
  intros Hs Hh. assert (Hall : forallb (fun sl => forallb (fun h =>
    let d := u8 (Z.lor (Z.lor 0xe0 (Z.shiftl sl 4)) h) in (Z.land (Z.shiftr d 4) 1 =? sl) && (d mod 16 =? h)) (seqZ 0 16)) (seqZ 0 2) = true)
    by (vm_compute; reflexivity).
  rewrite forallb_forall in Hall. specialize (Hall sl ltac:(apply list_elem_of_In, elem_of_seqZ; lia)).
  rewrite forallb_forall in Hall. specialize (Hall h ltac:(apply list_elem_of_In, elem_of_seqZ; lia)).
  cbv zeta in *. by rewrite andb_true_iff, !Z.eqb_eq in Hall.
Qed.

(** A sector number of 28 bits in the registers. *)
Lemma lba_split lba : 0 <= lba < 2 ^ 28 ->
  lba mod 2 ^ 8 + lba / 2 ^ 8 mod 2 ^ 8 * 2 ^ 8 + lba / 2 ^ 16 mod 2 ^ 8 * 2 ^ 16 + lba / 2 ^ 24 mod 2 ^ 8 * 2 ^ 24 = lba.
Proof. change (2 ^ 28) with 268435456. change (2 ^ 24) with 16777216. change (2 ^ 16) with 65536. change (2 ^ 8) with 256. intros. zdiv. Qed.

(** The loop over the model's name swaps the bytes of every pair, as the words of the disk
    have them the other way round, and touches nothing else. *)
Lemma swap_model_range n i ptr x : 0 <= i -> model_at + i + 2 * Z.of_nat n <= alen ptr -> 0 <= x ->
  aget (swap_model n i ptr) x =
    aget ptr (if (model_at + i <=? x) && (x <? model_at + i + 2 * Z.of_nat n)
              then if Z.even (x - i) then x + 1 else x - 1 else x) /\
  alen (swap_model n i ptr) = alen ptr.
Proof using.
  revert i ptr. induction n as [|n IH]; intros i ptr Hi Hn Hx; cbn [swap_model]; unfold model_at in *.
  { split; [|done]. f_equal. destruct (Z.leb_spec (54 + i) x); [|done]. by rewrite (proj2 (Z.ltb_ge _ _)) by lia. }
  set (ptr1 := aset (aset ptr _ _) _ _). assert (E1 : alen ptr1 = alen ptr) by by unfold ptr1; rewrite !alen_aset.
  destruct (IH (i + 2) ptr1) as [-> ->]; [lia|lia|done|]. split; [|done].
  replace (54 + (i + 2) + 2 * Z.of_nat n) with (54 + i + 2 * Z.of_nat (S n)) by lia.
  assert (Ee : Z.even (x - (i + 2)) = Z.even (x - i)) by (replace (x - i) with (x - (i + 2) + 2 * 1) by lia; by rewrite Z.even_add_mul_2).
  rewrite Ee. assert (Hout : forall y, 0 <= y -> y <> 54 + i -> y <> 54 + i + 1 -> aget ptr1 y = aget ptr y).
  { intros y Hy H0 H1. unfold ptr1. by rewrite !aget_aset_ne by lia. }
  destruct (decide (x = 54 + i)) as [->|]; [|destruct (decide (x = 54 + i + 1)) as [->|]].
  - rewrite (proj2 (Z.leb_gt _ _)), (proj2 (Z.leb_le _ _)), (proj2 (Z.ltb_lt _ _)) by lia. cbn [andb].
    rewrite Z.add_simpl_r. change (Z.even 54) with true. unfold ptr1. by rewrite aget_aset_eq by (rewrite alen_aset; lia).
  - rewrite (proj2 (Z.leb_gt _ _)), (proj2 (Z.leb_le _ _)), (proj2 (Z.ltb_lt _ _)) by lia. cbn [andb].
    replace (54 + i + 1 - i) with 55 by lia. change (Z.even 55) with false. cbn iota.
    unfold ptr1. rewrite aget_aset_ne, aget_aset_eq by lia. f_equal. lia.
  - destruct (Z.leb_spec (54 + i) x), (Z.leb_spec (54 + (i + 2)) x); try lia; cbn [andb]; try (apply Hout; lia).
    destruct (x <? 54 + i + 2 * Z.of_nat (S n)); [|apply Hout; lia].
    destruct (Z.even (x - i)) eqn:Eev; [apply Hout; lia|]. apply Hout; [lia|lia|].
    intros Ex. replace (x - i) with 56 in Eev by lia. done.
Qed.

(** *** Ports *)

Variable bm : Z.
Context `{!HardwareLaws C bm}.
Hypothesis bm_high : 0x400 <= bm.

Definition io (j : Z) : Z := if j =? 0 then 0x1F0 else 0x170.
Definition a_bus (j : Z) : Prop := j = 0 \/ j = 1.

Lemma where_task j i : a_bus j -> 1 <= i <= 7 -> where_port bm (io j + i) = Some (j, Task i).
Proof using.
  intros [-> | ->] Hi; unfold where_port, io; cbn [Z.eqb].
  - rewrite (proj2 (Z.leb_le 0x1F1 _)), (proj2 (Z.leb_le _ 0x1F7)) by lia. cbn [andb]. do 3 f_equal. lia.
  - rewrite (proj2 (Z.leb_gt 0x1F1 _)) by lia. cbn [andb].
    rewrite (proj2 (Z.leb_le 0x171 _)), (proj2 (Z.leb_le _ 0x177)) by lia. cbn [andb]. do 3 f_equal. lia.
Qed.
Lemma where_bm j i : a_bus j -> 0 <= i < 8 -> where_port bm (bm + 8 * j + i) = Some (j, Bm i).
Proof using bm_high.
  intros Hj Hi. unfold where_port. rewrite (proj2 (Z.leb_gt _ 0x1F7)), (proj2 (Z.leb_gt _ 0x177)), !andb_false_r by (destruct Hj; lia).
  destruct Hj as [-> | ->].
  - rewrite (proj2 (Z.leb_le _ _)), (proj2 (Z.ltb_lt _ _)) by lia. cbn [andb]. do 3 f_equal. lia.
  - rewrite (proj2 (Z.ltb_ge _ (bm + 8))), andb_false_r by lia.
    rewrite (proj2 (Z.leb_le _ _)), (proj2 (Z.ltb_lt _ _)) by lia. cbn [andb]. do 3 f_equal. lia.
Qed.
Lemma where_none p : p = 0x1FC \/ p = 0x17C -> where_port bm p = None.
Proof using bm_high.
  intros Hp. unfold where_port. rewrite (proj2 (Z.leb_gt bm p)), (proj2 (Z.leb_gt (bm + 8) p)) by lia.
  destruct Hp as [-> | ->]; done.
Qed.

Lemma some_port p x : where_port bm p = Some x -> p <> 0x3F6 /\ p <> 0x376.
Proof using bm_high.
  intros E. split; intros ->; unfold where_port in E; rewrite (proj2 (Z.leb_gt bm _)), (proj2 (Z.leb_gt (bm + 8) _)) in E by lia; done.
Qed.

(** *** Steps of the driver on one bus *)

(** From [s0] to [s] only the hardware was touched, and bus [j] now looks like [v]. *)
Definition only (j : Z) (v : bus) (s0 s : t) : Prop :=
  s = set_hw s0 (hw s) /\ forall i, view (hw s) i = if i =? j then v else view (hw s0) i.

Lemma only_refl j s : only j (view (hw s) j) s s.
Proof using. split; [by destruct s|]. intros i. by destruct (Z.eqb_spec i j) as [->|]. Qed.
Lemma only_set j v s0 s c : only j v s0 s -> (forall i, view c i = if i =? j then v else view (hw s) i) -> only j v s0 (set_hw s c).
Proof using.
  intros [E Hv] Hc. split; [by rewrite E|]. intros i. cbn. rewrite Hc, Hv. by destruct (i =? j).
Qed.
Lemma only_view j v s0 s : only j v s0 s -> view (hw s) j = v.
Proof using. intros [_ Hv]. by rewrite Hv, Z.eqb_refl. Qed.
Lemma only_bmr j v s0 s : only j v s0 s -> bmr s = bmr s0.
Proof using. by intros [-> _]. Qed.

Lemma only_outb j v s0 s d p r : only j v s0 s -> where_port bm p = Some (j, r) -> only j (put r (u8 d) v) s0 (outb d p s).
Proof using HardwareLaws0 bm_high.
  intros Ho Hp. pose proof (only_view _ _ _ _ Ho) as Hj. destruct Ho as [E Hv]. split; [by rewrite E|].
  intros i. unfold outb. cbn. destruct (some_port p _ Hp). rewrite law_outb, Hp by done. rewrite (Z.eqb_sym j i). destruct (Z.eqb_spec i j) as [->|]; [by rewrite Hj|].
  rewrite Hv. by destruct (Z.eqb_spec i j).
Qed.
Lemma only_outb_none j v s0 s d p : only j v s0 s -> p = 0x1FC \/ p = 0x17C -> only j v s0 (outb d p s).
Proof using HardwareLaws0 bm_high.
  intros [E Hv] Hp. split; [by rewrite E|]. intros i. unfold outb. cbn. rewrite law_outb, where_none by (done || lia). apply Hv.
Qed.
Lemma inb_eq p s : inb p s = ((hw_inb p (hw s)).1, set_hw s (hw_inb p (hw s)).2).
Proof using. unfold inb. by destruct (hw_inb p (hw s)). Qed.
Lemma only_inb j v s0 s p : only j v s0 s -> only j v s0 (inb p s).2.
Proof using HardwareLaws0.
  intros [E Hv]. rewrite inb_eq. split; [by rewrite E|]. intros i. cbn. rewrite (law_in (bm := bm)). apply Hv.
Qed.

(** Reading the disk's status; the wait, when the disk is not busy. *)
Lemma inb_status j v s0 s : a_bus j -> only j v s0 s ->
  exists s', inb (io j + ATA_REG_STATUS) s = (ata_status v, s') /\ only j v s0 s'.
Proof using HardwareLaws0.
  intros Hj Ho. exists (inb (io j + ATA_REG_STATUS) s).2. split; [|by apply only_inb].
  rewrite inb_eq. cbn [fst snd]. f_equal. rewrite <- (only_view _ _ _ _ Ho). by apply (law_status (bm := bm)).
Qed.

Definition on_bus (dev : ata_device) (j : Z) : Prop :=
  io_base dev = io j /\ control dev = (if j =? 0 then 0x3F6 else 0x376) /\ 0 <= slave dev <= 1.

Lemma wait_ready dev j v s0 s : a_bus j -> on_bus dev j -> only j v s0 s -> Z.land (ata_status v) ATA_SR_BSY = 0 ->
  exists s', ata_wait_loop (S spin) dev (ata_io_wait dev s) = Some s' /\ only j v s0 s'.
Proof using HardwareLaws0.
  intros Hj (Hio & _) Ho Hb. unfold ata_io_wait. cbn [ata_wait_loop]. rewrite Hio.
  destruct (inb_status j v s0 (inb (io j + ATA_REG_ALTSTATUS) (inb (io j + ATA_REG_ALTSTATUS)
    (inb (io j + ATA_REG_ALTSTATUS) (inb (io j + ATA_REG_ALTSTATUS) s).2).2).2).2 Hj ltac:(by repeat apply only_inb)) as (s' & E & Ho').
  exists s'. rewrite E, Hb. done.
Qed.

Lemma wait_plain dev j v s0 s : a_bus j -> on_bus dev j -> only j v s0 s -> Z.land (ata_status v) ATA_SR_BSY = 0 ->
  exists s', ata_wait dev false s = Some (0, s') /\ only j v s0 s'.
Proof using HardwareLaws0.
  intros Hj Hd Ho Hb. destruct (wait_ready dev j v s0 s Hj Hd Ho Hb) as (s' & E & Ho'). exists s'. unfold ata_wait. by rewrite E.
Qed.

(** After a transfer. *)
Lemma wait_done dev j v s0 s : a_bus j -> on_bus dev j -> only j v s0 s -> ata_status v = 0x50 ->
  exists s', ata_wait dev true s = Some (2, s') /\ only j v s0 s'.
Proof using HardwareLaws0.
  intros Hj Hd Ho Hb. destruct (wait_ready dev j v s0 s Hj Hd Ho) as (s' & E & Ho'); [by rewrite Hb|].
  destruct (inb_status j v s0 s' Hj Ho') as (s'' & E' & Ho''). exists s''. split; [|done].
  unfold ata_wait. rewrite E. cbn [mbind option_bind]. destruct Hd as [-> _]. by rewrite E', Hb.
Qed.
Lemma wait_failed dev j v s0 s : a_bus j -> on_bus dev j -> only j v s0 s -> ata_status v = 0x51 ->
  exists s', ata_wait dev true s = Some (1, s') /\ only j (put (Task 7) 2 v) s0 s'.
Proof using HardwareLaws0 bm_high.
  intros Hj Hd Ho Hb. destruct (wait_ready dev j v s0 s Hj Hd Ho) as (s' & E & Ho'); [by rewrite Hb|].
  destruct (inb_status j v s0 s' Hj Ho') as (s'' & E' & Ho''). exists (outb 2 (io j + ATA_REG_STATUS) s''). split.
  - unfold ata_wait. rewrite E. cbn [mbind option_bind]. destruct Hd as [-> _]. by rewrite E', Hb.
  - apply (only_outb _ _ _ _ 2 _ (Task 7)); [done|]. by apply where_task.
Qed.

(** *** Beginning a transfer *)

Definition with_prd (j : Z) (p : prd) (s : t) : t :=
  mk (dma_init s) (bmr s) (if j =? 0 then p else bus0prd s) (if j =? 0 then bus1prd s else p) (dma_waiting_read s)
    (dma_finish_read s) (currOffset s) (mem s) (umem s) (eax s) (blocked s) (hw s).
Definition prd_addr (j : Z) : Z := if j =? 0 then bus0prd_addr else bus1prd_addr.

Lemma point_prdt j p s : a_bus j -> bmr s = bm ->
  only j (set_prdt (view (hw s) j) (physaddr (prd_addr j))) (with_prd j p s)
    (if j =? 0 then set_bus0_prdt bus0prd_addr p s else set_bus1_prdt bus1prd_addr p s).
Proof using HardwareLaws0.
  intros Hj Hb. assert (Hl : forall i, view (hw_outl (physaddr (prd_addr j)) (bm + 8 * j + 4) (hw s)) i =
    if i =? j then set_prdt (view (hw s) j) (physaddr (prd_addr j)) else view (hw s) i).
  { intros i. rewrite law_prdt by done. rewrite (Z.eqb_sym j i). by destruct (Z.eqb_spec i j) as [->|]. }
  destruct Hj as [-> | ->]; cbn [Z.eqb]; (split; [by destruct s|]); intros i; cbn; rewrite Hb;
    [replace (bm + 4) with (bm + 8 * 0 + 4) by lia|replace (bm + 12) with (bm + 8 * 1 + 4) by lia]; apply Hl.
Qed.

(** The registers when bus [j] was set to make the transfer [cmd] of sector [lba]. *)
Record programmed (v v' : bus) (dev : ata_device) (lba dir cmd : Z) : Prop := {
  pr_pending : pending v' = Some cmd;
  pr_bm_cmd : bm_cmd v' = Z.lor dir 1;
  pr_prdt : bm_prdt v' = bm_prdt v;
  pr_lba : lba_of v' = lba;
  pr_unit : unit_of v' = slave dev;
  pr_nsector : nsector v' = 1;
  pr_latches i : Z.testbit (bm_status v') i = Z.testbit (bm_status v) i && negb (bool_decide (i = 1 \/ i = 2));
  pr_medium : medium v' = medium v }.

Lemma prepare_spec j dev dir v s0 s : a_bus j -> on_bus dev j -> bmr s0 = bm -> only j v s0 s -> 0 <= dir < 256 ->
  exists v', only j v' s0 (dma_prepare dev (8 * j) dir s) /\ v' = mk_bus (nsector v) (lba0 v) (lba1 v) (lba2 v) (select v)
    (ata_status v) (pending v) dir (bm_status v') (bm_prdt v) (medium v) /\
    forall i, Z.testbit (bm_status v') i = Z.testbit (bm_status v) i && negb (bool_decide (i = 1 \/ i = 2)).
Proof using HardwareLaws0 bm_high.
  intros Hj (Hio & _) Hb Ho Hd. unfold dma_prepare, stopDMA.
  assert (H1 : only j (put (Bm 0) (u8 0) v) s0 (outb 0 (bmr (inb (bmr s + 8 * j) s).2 + 8 * j) (inb (bmr s + 8 * j) s).2)).
  { pose proof (only_inb _ _ _ _ (bmr s + 8 * j) Ho) as H1. rewrite (only_bmr _ _ _ _ H1), Hb.
    eapply only_outb; [exact H1|]. rewrite <- (Z.add_0_r (bm + 8 * j)). apply where_bm; [done|lia]. }
  set (s1 := outb 0 _ _) in *. cbv zeta.
  assert (H2 : only j (put (Bm 0) (u8 0) v) s0 (outb 2 (io_base dev + ATA_REG_CONTROL) s1)).
  { apply only_outb_none; [exact H1|]. rewrite Hio. destruct Hj as [-> | ->]; [by left|by right]. }
  set (s2 := outb 2 _ _) in *.
  assert (H3 : only j (put (Bm 0) (u8 dir) (put (Bm 0) (u8 0) v)) s0 (outb dir (bmr s2 + 8 * j) s2)).
  { rewrite (only_bmr _ _ _ _ H2), Hb. eapply only_outb; [exact H2|]. rewrite <- (Z.add_0_r (bm + 8 * j)). apply where_bm; [done|lia]. }
  set (s3 := outb dir _ _) in *. rewrite inb_eq. set (st := (hw_inb _ _).1).
  pose proof (only_inb _ _ _ _ (bmr s3 + 8 * j + 2) H3) as H4. rewrite inb_eq in H4. cbn [snd] in H4. set (s4 := set_hw s3 _) in *.
  eexists. split; [eapply (only_outb _ _ _ _ _ _ (Bm 2)); [exact H4|]; rewrite (only_bmr _ _ _ _ H4), Hb; by apply where_bm; [|lia]|].
  rewrite (u8_small dir) by lia. split; [reflexivity|]. intros i. cbn [put bm_status]. apply clear_latches.
Qed.

Lemma command_spec j dev lba cmd v s0 s : a_bus j -> on_bus dev j -> only j v s0 s -> 0 <= lba < 2 ^ 28 ->
  cmd = 0xC8 \/ cmd = 0xCA ->
  only j (mk_bus 1 (lba mod 2 ^ 8) (lba / 2 ^ 8 mod 2 ^ 8) (lba / 2 ^ 16 mod 2 ^ 8)
    (u8 (Z.lor (Z.lor 0xe0 (Z.shiftl (slave dev) 4)) (lba / 2 ^ 24 mod 2 ^ 4))) 0xD0 (Some cmd) (bm_cmd v) (bm_status v) (bm_prdt v) (medium v))
    s0 (dma_command dev lba cmd s).
Proof using HardwareLaws0 bm_high.
  intros Hj (Hio & _) Ho Hl Hc. unfold dma_command. cbv zeta. rewrite Hio.
  assert (E4 : Z.shiftr (Z.land lba 0x0f000000) 24 = lba / 2 ^ 24 mod 2 ^ 4).
  { rewrite Z.shiftr_land, Z.shiftr_div_pow2 by lia. change (Z.shiftr 0x0f000000 24) with (Z.ones 4). by rewrite Z.land_ones by lia. }
  rewrite E4, (byte_of lba 0), (byte_of lba 8), (byte_of lba 16) by (done || lia). rewrite Z.pow_0_r, Z.div_1_r.
  set (sel := Z.lor _ _). replace (mk_bus _ _ _ _ _ _ _ _ _ _ _) with
    (put (Task 7) (u8 cmd) (put (Task 5) (u8 (lba / 2 ^ 16 mod 2 ^ 8)) (put (Task 4) (u8 (lba / 2 ^ 8 mod 2 ^ 8))
      (put (Task 3) (u8 (lba mod 2 ^ 8)) (put (Task 2) (u8 1) (put (Task 7) (u8 0xEF) (put (Task 2) (u8 0x21) (put (Task 1) (u8 3)
        (put (Task 6) (u8 sel) v))))))))).
  - repeat first [apply only_outb; [|by apply where_task] | apply only_inb].
    apply only_outb_none; [exact Ho|]. destruct Hj as [-> | ->]; [by left|by right].
  - unfold u8 at 2 3 4. rewrite !Z.mod_mod by done. destruct Hc as [-> | ->]; done.
Qed.

Lemma startDMA_spec j v s0 s : a_bus j -> bmr s0 = bm -> only j v s0 s -> 0 <= bm_cmd v < 128 ->
  only j (put (Bm 0) (Z.lor (bm_cmd v) 1) v) s0 (startDMA (8 * j) s).
Proof using HardwareLaws0 bm_high.
  intros Hj Hb Ho Hr. unfold startDMA. rewrite inb_eq. rewrite (only_bmr _ _ _ _ Ho), Hb, (law_bm_cmd (bm := bm)) by done.
  rewrite (only_view _ _ _ _ Ho). cbn [bmr set_hw]. rewrite (only_bmr _ _ _ _ Ho), Hb.
  rewrite <- (u8_small (Z.lor (bm_cmd v) 1)) at 1.
  - apply only_outb; [|rewrite <- (Z.add_0_r (bm + 8 * j)); apply where_bm; [done|lia]].
    pose proof (only_inb _ _ _ _ (bm + 8 * j) Ho) as Hi. by rewrite inb_eq in Hi.
  - apply (lor_range 8); lia.
Qed.

Definition p_of (dma nbytes : Z) : prd := mk_prd (physaddr dma) (u16 nbytes).

Lemma begin_spec write dev j lba buf nbytes dma inst thread dir cmd s :
  a_bus j -> on_bus dev j -> bmr s = bm -> Z.land (ata_status (view (hw s) j)) ATA_SR_BSY = 0 -> 0 <= lba < 2 ^ 28 ->
  (cmd = 0xC8 \/ cmd = 0xCA) -> dir = 0 \/ dir = 8 ->
  exists sx v', only j v' (with_prd j (p_of dma nbytes) s) sx /\
    programmed (set_prdt (view (hw s) j) (physaddr (prd_addr j))) v' dev lba dir cmd /\
    dma_begin write dev lba buf nbytes dma inst thread dir cmd s =
      Some (0, set_blocked (set_finish (set_waiting sx j true) j (mk_request write dev (8 * j) j nbytes buf dma thread inst))
                 (thread :: blocked s)).
Proof using HardwareLaws0 bm_high new.
  intros Hj Hd Hb Hst Hl Hc Hdir. pose proof (point_prdt j (p_of dma nbytes) s Hj Hb) as H1.
  set (s1 := if j =? 0 then _ else _) in H1. set (s0 := with_prd j (p_of dma nbytes) s) in *. set (v := set_prdt _ _) in *.
  destruct (prepare_spec j dev dir v s0 s1 Hj Hd Hb H1 ltac:(lia)) as (v2 & H2 & Ev2 & Hlat).
  destruct (wait_plain dev j v2 s0 _ Hj Hd H2) as (s3 & E3 & H3); [by rewrite Ev2|].
  pose proof (command_spec j dev lba cmd v2 s0 s3 Hj Hd H3 Hl Hc) as H4.
  pose proof (startDMA_spec j _ s0 _ Hj Hb H4) as H5. cbn [bm_cmd] in H5.
  assert (Ed : bm_cmd v2 = dir) by by rewrite Ev2. rewrite Ed in *. specialize (H5 ltac:(lia)).
  eexists (startDMA (8 * j) (dma_command dev lba cmd s3)), _. split; [exact H5|]. split.
  - destruct (select_bits (slave dev) (lba / 2 ^ 24 mod 2 ^ 4)) as [Hs1 Hs2]; [apply Hd|apply Z.mod_pos_bound; lia|].
    split; cbn; try done.
    + by rewrite Ev2.
    + unfold lba_of. cbn [lba0 lba1 lba2 select put]. rewrite Hs2. rewrite <- (lba_split lba) at 5 by done. do 2 f_equal.
      change (2 ^ 28) with 268435456 in Hl. change (2 ^ 24) with 16777216. change (2 ^ 4) with 16. change (2 ^ 8) with 256. zdiv.
    + by rewrite Ev2.
  - unfold dma_begin. destruct Hd as [Hio _]. rewrite Hio. cbv zeta. change (mk_prd (physaddr dma) (u16 nbytes)) with (p_of dma nbytes).
    assert (Eb : (if io j =? bus0_io_base then Some (0, 0, set_bus0_prdt bus0prd_addr (p_of dma nbytes) s)
       else if io j =? bus1_io_base then Some (8, 1, set_bus1_prdt bus1prd_addr (p_of dma nbytes) s) else None) = Some (8 * j, j, s1))
      by by destruct Hj as [-> | ->].
    rewrite Eb. cbn [mbind option_bind]. rewrite E3. cbn [mbind option_bind].
    do 3 f_equal. destruct H5 as [-> _]. done.
Qed.

(** *** The transfer and the interrupt *)

(** The driver is set up, no disk is busy, no interrupt waits. *)
Record idle (s : t) : Prop := {
  idle_init : dma_init s = true;
  idle_bmr : bmr s = bm;
  idle_disk j : a_bus j -> Z.land (ata_status (view (hw s) j)) ATA_SR_BSY = 0;
  idle_irq j : a_bus j -> Z.testbit (bm_status (view (hw s) j)) 2 = false }.

(** [init_dma] makes the driver ready with the bus master of the first controller, which may
    then reach the memory and raise interrupts. *)
Lemma init_dma_ready controllers devs dev new0 new1 config s :
  let reg := fun r => Pci.configAddr (Pci.busId dev) (Pci.devId dev) (Pci.funcId dev) r in
  Deque.rep controllers (dev :: devs) -> dma_init s = false -> Z.land (config (reg 0x20)) (not32 1) = bm ->
  (forall j, a_bus j -> Z.land (ata_status (view (hw s) j)) ATA_SR_BSY = 0 /\ Z.testbit (bm_status (view (hw s) j)) 2 = false) ->
  exists config' s', init_dma (Some controllers) new0 new1 config s = Some (true, config', s') /\ idle s' /\
    (forall k, 0 <= k < 3 -> Z.testbit (config' (reg 0x04)) k = true) /\ Z.testbit (config' (reg 0x04)) 10 = false /\
    (forall r, r <> reg 0x04 -> config' r = config r).
Proof using HardwareLaws0.
  intros reg R Hi Hbm Hs. assert (Hsz : alen (dev :: devs) <> 0) by (unfold alen; cbn; lia).
  unfold init_dma. rewrite Hi. unfold Deque.empty. destruct R as [R Hc]. rewrite (Deque.rep_size _ _ R), (proj2 (Z.eqb_neq _ _)) by done.
  rewrite (Deque.at_spec _ _ _ (conj R Hc)) by done. change ((dev :: devs) !! Z.to_nat 0) with (Some dev). cbn [mjoin option_join mbind option_bind].
  cbv zeta. subst reg. cbv beta in *. rewrite Hbm. set (a4 := Pci.configAddr _ _ _ 0x04) in *. do 2 eexists. split; [reflexivity|]. split; [|split; [|split]].
  - assert (Hv : forall c d e j, a_bus j -> ata_status (view (hw_outl d (bm + 0x0C) (hw_outl e (bm + 0x04) c)) j) = ata_status (view c j) /\
      bm_status (view (hw_outl d (bm + 0x0C) (hw_outl e (bm + 0x04) c)) j) = bm_status (view c j)).
    { intros c d e j Hj. replace (bm + 0x0C) with (bm + 8 * 1 + 4) by lia. replace (bm + 0x04) with (bm + 8 * 0 + 4) by lia.
      rewrite !law_prdt by first [by left|by right]. by destruct Hj as [-> | ->]. }
    split; [done|done| |]; intros j Hj; cbn; [rewrite (proj1 (Hv _ _ _ _ Hj))|rewrite (proj2 (Hv _ _ _ _ Hj))]; by apply Hs.
  - intros k Hk. unfold upd. rewrite Z.eqb_refl. unfold u32, u16. rewrite Z.mod_pow2_bits_low, Z.lor_spec, Z.shiftl_spec_low, Z.mod_pow2_bits_low by lia.
    rewrite Z.land_spec, Z.mod_pow2_bits_low, Z.lor_spec, Z.lnot_spec by lia.
    assert (Hk' : k = 0 \/ k = 1 \/ k = 2) by lia. destruct Hk' as [-> | [-> | ->]]; by rewrite orb_true_r.
  - unfold upd. rewrite Z.eqb_refl. unfold u32, u16. rewrite Z.mod_pow2_bits_low, Z.lor_spec, Z.shiftl_spec_low, Z.mod_pow2_bits_low by lia.
    rewrite Z.land_spec, (Z.lnot_spec _ 10) by lia. apply andb_false_r.
  - intros r Hr. unfold upd. by rewrite (proj2 (Z.eqb_neq _ _)).
Qed.

Hypothesis prds_apart : physaddr bus0prd_addr <> physaddr bus1prd_addr.

Lemma entry_of s j p : a_bus j -> entry (with_prd j p s) (physaddr (prd_addr j)) = Some p.
Proof using prds_apart.
  intros [-> | ->]; unfold entry, prd_addr; cbn; [by rewrite Z.eqb_refl|].
  rewrite (proj2 (Z.eqb_neq _ _)) by done. by rewrite Z.eqb_refl.
Qed.

Lemma inb_bm_status j v s0 s : a_bus j -> bmr s0 = bm -> only j v s0 s ->
  exists st s', inb (bmr s + 8 * j + 2) s = (st, s') /\ only j v s0 s' /\
    forall k, k = 1 \/ k = 2 -> Z.testbit st k = Z.testbit (bm_status v) k.
Proof using HardwareLaws0.
  intros Hj Hb Ho. eexists _, (inb (bmr s + 8 * j + 2) s).2. split; [by rewrite inb_eq|]. split; [by apply only_inb|].
  intros k Hk. rewrite (only_bmr _ _ _ _ Ho), Hb, <- (only_view _ _ _ _ Ho). by apply (law_bm_status (bm := bm)).
Qed.

(** The closure, when the transfer succeeded. *)
Lemma finish_ok r j s : a_bus j -> rq_bus r = j -> rq_base r = 8 * j -> on_bus (rq_dev r) j -> bmr s = bm ->
  ata_status (view (hw s) j) = 0x50 -> Z.testbit (bm_status (view (hw s) j)) 1 = false ->
  exists c, (forall i, view c i = if i =? j then put (Bm 0) 0 (view (hw s) j) else view (hw s) i) /\
    let s1 := set_hw (set_waiting s j false) c in
    let s2 := if rq_write r then s1
              else set_umem s1 (rq_thread r) (blit (umem s1 (rq_thread r)) (rq_buf r) (load_buffer (mem s1) (rq_dma r) (rq_nbytes r))) in
    finish r s = Some (set_blocked (set_eax (set_offset s2 (rq_inst r) (u32 (currOffset s2 (rq_inst r) + rq_nbytes r))) (rq_thread r) (rq_nbytes r))
      (filter (fun x => x <> rq_thread r) (blocked s))).
Proof using HardwareLaws0 bm_high.
  intros Hj Hbus Hbase Hd Hb Hst Hbit. set (s0 := set_waiting s j false). set (v := put (Bm 0) (u8 0) (view (hw s0) j)).
  assert (H1 : only j v s0 (outb 0 (bmr s0 + 8 * j) s0)).
  { apply only_outb; [apply only_refl|]. change (bmr s0) with (bmr s). rewrite Hb, <- (Z.add_0_r (bm + 8 * j)). apply where_bm; [done|lia]. }
  destruct (wait_done (rq_dev r) j v s0 _ Hj Hd H1 Hst) as (s2 & E2 & H2).
  destruct (inb_bm_status j v s0 s2 Hj Hb H2) as (st & s3 & E3 & H3 & Hbits).
  pose proof H3 as [E Hv]. exists (hw s3). split; [exact Hv|]. cbv zeta. unfold finish. cbv zeta. rewrite Hbus, Hbase. fold s0.
  rewrite E2. cbn [mbind option_bind]. rewrite E3.
  replace ((2 =? 1) || negb (Z.land st 2 =? 0)) with false.
  - rewrite E. by destruct (rq_write r).
  - symmetry. apply negb_false_iff, Z.eqb_eq. apply (land_bit _ 1); [lia|]. rewrite Hbits by (by left). exact Hbit.
Qed.

(** The handler, when one bus has an interrupt. *)
Lemma handler_runs j r s : a_bus j -> bmr s = bm -> dma_waiting_read s j = true -> dma_finish_read s j = Some r ->
  Z.testbit (bm_status (view (hw s) j)) 2 = true ->
  Z.testbit (bm_status (view (hw s) (1 - j))) 2 = false ->
  exists c, (forall i, view c i = if i =? j then put (Bm 2) 4 (view (hw s) j) else view (hw s) i) /\
    dma_int_handler s = finish r (set_hw s c).
Proof using HardwareLaws0 bm_high.
  intros Hj Hb Hw Hf H1 H0. unfold dma_int_handler. rewrite !inb_eq. cbn [bmr set_hw hw]. rewrite Hb.
  set (c1 := (hw_inb (bm + 2) (hw s)).2). set (c2 := (hw_inb (bm + 10) c1).2).
  assert (Hc1 : forall i, view c1 i = view (hw s) i) by (intros i; apply (law_in (bm := bm))).
  assert (Hc2 : forall i, view c2 i = view (hw s) i) by (intros i; unfold c2; by rewrite (law_in (bm := bm))).
  assert (E0 : Z.testbit (hw_inb (bm + 2) (hw s)).1 2 = Z.testbit (bm_status (view (hw s) 0)) 2).
  { replace (bm + 2) with (bm + 8 * 0 + 2) by lia. apply (law_bm_status (bm := bm)); [by left|by right]. }
  assert (E1 : Z.testbit (hw_inb (bm + 10) c1).1 2 = Z.testbit (bm_status (view (hw s) 1)) 2).
  { replace (bm + 10) with (bm + 8 * 1 + 2) by lia. rewrite (law_bm_status (bm := bm)), Hc1; [done|by right|by right]. }
  assert (Hbit : forall x, (negb (Z.land x 4 =? 0)) = Z.testbit x 2).
  { intros x. destruct (Z.testbit x 2) eqn:Ex.
    - apply negb_true_iff, Z.eqb_neq. intros E%(land_bit x 2); [congruence|lia].
    - apply negb_false_iff, Z.eqb_eq. by apply (land_bit x 2). }
  rewrite !Hbit, E0, E1. exists (hw_outb 4 (bm + 8 * j + 2) c2). split.
  { intros i. pose proof (where_bm j 2 Hj ltac:(lia)) as Ep. destruct (some_port _ _ Ep). rewrite law_outb, Ep by done. rewrite (Z.eqb_sym j i). rewrite Hc2. by destruct (Z.eqb_spec i j) as [->|]. }
  destruct Hj as [-> | ->].
  - change (1 - 0) with 1 in H0. rewrite H1, H0. unfold run_finish, outb. cbn [set_hw bmr hw dma_waiting_read dma_finish_read]. rewrite Hw, Hf. cbn [mbind option_bind].
    replace (bm + 8 * 0 + 2) with (bm + 2) by lia. by destruct (finish _ _).
  - change (1 - 1) with 0 in H0. rewrite H1, H0. cbn [mbind option_bind]. unfold run_finish, outb. cbn [set_hw bmr hw dma_waiting_read dma_finish_read].
    rewrite Hb, Hw, Hf. cbn [mbind option_bind]. replace (bm + 8 * 1 + 2) with (bm + 10) by lia. reflexivity.
Qed.

(** *** A whole request *)

(** What one descriptor of [nbytes] lets through of the single sector that is asked for. *)
Definition moved_bytes (nbytes : Z) : Z := Z.min 512 (if u16 nbytes =? 0 then 65536 else u16 nbytes).

(** The transfer of a request that was begun. *)
Lemma hw_moves (write ok : bool) dev j lba p sx v' s s1 : a_bus j ->
  only j v' (with_prd j p s) sx ->
  programmed (set_prdt (view (hw s) j) (physaddr (prd_addr j))) v' dev lba (if write then DMA_WRITE else DMA_READ)
    (if write then ATA_CMD_WRITE_DMA else ATA_CMD_READ_DMA) ->
  hw s1 = hw sx -> mem s1 = mem s -> bus0prd s1 = bus0prd (with_prd j p s) -> bus1prd s1 = bus1prd (with_prd j p s) ->
  let n := Z.min 512 (if prd_bytes p =? 0 then 65536 else prd_bytes p) in
  let m := medium (view (hw s) j) in
  exists c', hw_step j ok s1 = Some (set_hw (set_mem s1
      (if write then mem s else if ok then blit (mem s) (prd_data p) (sectors (m (slave dev)) lba n) else mem s)) c') /\
    forall i, view c' i = if i =? j then over v' ok
      (if write then if ok then upd m (slave dev) (set_sectors (m (slave dev)) lba n (bytes_from (mem s) (prd_data p) n)) else m else m)
      else view (hw s) i.
Proof using HardwareLaws0 prds_apart.
  intros Hj Ho [Pp Pc Pt Pl Pu Pn _ Pm] Hhw Hmem H0 H1 n m. pose proof (only_view _ _ _ _ Ho) as Hv. destruct Ho as [Esx Hviews].
  assert (He : entry s1 (bm_prdt (view (hw s1) j)) = Some p).
  { rewrite Hhw, Hv, Pt. cbn [bm_prdt set_prdt]. pose proof (entry_of s j p Hj) as He. unfold entry in *. by rewrite H0, H1. }
  assert (Hn : length_of v' p = n) by by unfold length_of; rewrite Pn.
  change (medium (set_prdt (view (hw s) j) (physaddr (prd_addr j)))) with m in Pm.
  unfold hw_step. destruct write.
  - destruct (law_write (bm := bm) (hw s1) j ok (entry s1) (mem s1) p Hj) as (c' & -> & Hc'); [by rewrite Hhw, Hv|by rewrite Hhw, Hv, Pc|exact He|].
    exists c'. cbn [mbind option_bind]. rewrite Hmem. split; [done|]. intros i. rewrite Hc', Hhw, Hv, Pu, Pl, Hn, Pm, Hviews.
    destruct (Z.eqb_spec i j) as [->|]; [by rewrite Hmem|]. done.
  - destruct (law_read (bm := bm) (hw s1) j ok (entry s1) (mem s1) p Hj) as (m' & c' & -> & Hc' & ->); [by rewrite Hhw, Hv|by rewrite Hhw, Hv, Pc|exact He|].
    exists c'. cbn [mbind option_bind]. rewrite Hmem, Hhw, Hv, Pu, Pl, Hn, Pm. split; [done|]. intros i. rewrite Hc', Hhw, Hv, Pm, Hviews.
    by destruct (Z.eqb_spec i j).
Qed.

Lemma irq_cleared v : Z.testbit (bm_status (put (Bm 0) 0 (put (Bm 2) 4 v))) 2 = false.
Proof using.
  change (bm_status _) with (Z.land (bm_status v) (Z.lnot 4)). rewrite Z.land_spec. apply andb_false_r.
Qed.

(** The memory and the disks of the bus after the transfer of [n] bytes. *)
Definition mem_after (write ok : bool) (dev : ata_device) (j lba a n : Z) (s : t) : Z -> Z :=
  if write then mem s else if ok then blit (mem s) a (sectors (medium (view (hw s) j) (slave dev)) lba n) else mem s.
Definition medium_after (write ok : bool) (dev : ata_device) (j lba a n : Z) (s : t) : Z -> Z -> list Z :=
  let m := medium (view (hw s) j) in
  if write then if ok then upd m (slave dev) (set_sectors (m (slave dev)) lba n (bytes_from (mem s) a n)) else m else m.

(** From the request to the closure: the handler runs it in the state [s3]. *)
Lemma request_reaches (write ok : bool) dev j lba buf nbytes dma inst thread s :
  a_bus j -> on_bus dev j -> idle s -> 0 <= lba < 2 ^ 28 ->
  let rq := mk_request write dev (8 * j) j nbytes buf dma thread inst in
  exists s1 s2 s3 v',
    dma_begin write dev lba buf nbytes dma inst thread (if write then DMA_WRITE else DMA_READ)
      (if write then ATA_CMD_WRITE_DMA else ATA_CMD_READ_DMA) s = Some (0, s1) /\ blocked s1 = thread :: blocked s /\
    hw_step j ok s1 = Some s2 /\ dma_int_handler s2 = finish rq s3 /\
    (dma_init s3 = true /\ bmr s3 = bm /\ currOffset s3 = currOffset s /\ umem s3 = umem s /\ eax s3 = eax s /\
     blocked s3 = thread :: blocked s /\ mem s3 = mem_after write ok dev j lba (physaddr dma) (moved_bytes nbytes) s) /\
    (forall i, i <> j -> view (hw s3) i = view (hw s) i) /\
    view (hw s3) j = put (Bm 2) 4 (over v' ok (medium_after write ok dev j lba (physaddr dma) (moved_bytes nbytes) s)) /\
    Z.testbit (bm_status v') 1 = false.
Proof using HardwareLaws0 prds_apart bm_high new.
  intros Hj Hd [Ii Ib Id Iq] Hl rq.
  destruct (begin_spec write dev j lba buf nbytes dma inst thread (if write then DMA_WRITE else DMA_READ)
    (if write then ATA_CMD_WRITE_DMA else ATA_CMD_READ_DMA) s Hj Hd Ib (Id j Hj) Hl) as (sx & v' & Ho & Hp & E1);
    [by destruct write; [right|left]|by destruct write; [left|right]|].
  fold rq in E1. set (s1 := set_blocked _ _) in E1. pose proof Ho as [Esx _].
  destruct (hw_moves write ok dev j lba (p_of dma nbytes) sx v' s s1 Hj Ho Hp eq_refl) as (c2 & E2 & Hv2);
    [by cbn; rewrite Esx..|].
  cbn [prd_data prd_bytes p_of] in E2, Hv2. fold (moved_bytes nbytes) in E2, Hv2.
  fold (mem_after write ok dev j lba (physaddr dma) (moved_bytes nbytes) s) in E2.
  set (med := medium_after write ok dev j lba (physaddr dma) (moved_bytes nbytes) s) in *.
  set (m2 := mem_after _ _ _ _ _ _ _ _) in *. set (s2 := set_hw _ c2) in E2.
  assert (Hvj : view (hw s2) j = over v' ok med) by by cbn; rewrite Hv2, Z.eqb_refl.
  destruct (handler_runs j rq s2 Hj) as (c3 & Hv3 & E3).
  { cbn. by rewrite Esx. } { cbn. unfold upd. by rewrite Z.eqb_refl. } { cbn. unfold upd. by rewrite Z.eqb_refl. }
  { rewrite Hvj. cbn [over bm_status]. rewrite Z.lor_spec. apply orb_true_r. }
  { cbn. rewrite Hv2. rewrite (proj2 (Z.eqb_neq _ _)) by (destruct Hj; lia). apply Iq. destruct Hj as [-> | ->]; [by right|by left]. }
  exists s1, s2, (set_hw s2 c3), v'. split; [exact E1|]. split; [done|]. split; [exact E2|]. split; [exact E3|].
  split; [cbn; rewrite Esx; done|]. cbn [hw set_hw]. split; [|split].
  - intros i Hi. rewrite Hv3, (proj2 (Z.eqb_neq i j)) by done. cbn. by rewrite Hv2, (proj2 (Z.eqb_neq i j)).
  - by rewrite Hv3, Z.eqb_refl, Hvj.
  - rewrite (pr_latches _ _ _ _ _ _ Hp). apply andb_false_r.
Qed.

(** The state after a request of [thread] has been served. *)
Record served (write : bool) (dev : ata_device) (j lba buf nbytes dma inst thread : Z) (s s' : t) : Prop := {
  sv_idle : idle s';
  sv_eax : eax s' = upd (eax s) thread nbytes;
  sv_blocked : blocked s' = filter (fun x => x <> thread) (thread :: blocked s);
  sv_offset : currOffset s' = upd (currOffset s) inst (u32 (currOffset s inst + nbytes));
  sv_mem : mem s' = mem_after write true dev j lba (physaddr dma) (moved_bytes nbytes) s;
  sv_umem : umem s' = if write then umem s
    else upd (umem s) thread (blit (umem s thread) buf (load_buffer (mem s') dma nbytes));
  sv_medium : medium (view (hw s') j) = medium_after write true dev j lba (physaddr dma) (moved_bytes nbytes) s;
  sv_other i : i <> j -> view (hw s') i = view (hw s) i }.

Lemma request_served (write : bool) dev j lba buf nbytes dma inst thread s :
  a_bus j -> on_bus dev j -> idle s -> 0 <= lba < 2 ^ 28 ->
  exists s1 s2 s',
    dma_begin write dev lba buf nbytes dma inst thread (if write then DMA_WRITE else DMA_READ)
      (if write then ATA_CMD_WRITE_DMA else ATA_CMD_READ_DMA) s = Some (0, s1) /\ blocked s1 = thread :: blocked s /\
    hw_step j true s1 = Some s2 /\ dma_int_handler s2 = Some s' /\
    served write dev j lba buf nbytes dma inst thread s s'.
Proof using HardwareLaws0 prds_apart bm_high new.
  intros Hj Hd Hi Hl. destruct (request_reaches write true dev j lba buf nbytes dma inst thread s Hj Hd Hi Hl)
    as (s1 & s2 & s3 & v' & E1 & Eb & E2 & E3 & (Hi3 & Hb3 & Ho3 & Hu3 & He3 & Hl3 & Hm3) & Hv3 & Hvj & Hlat).
  destruct Hi as [Ii Ib Id Iq].
  destruct (finish_ok (mk_request write dev (8 * j) j nbytes buf dma thread inst) j s3 Hj eq_refl eq_refl Hd Hb3) as (c4 & Hv4 & E4).
  { by rewrite Hvj. }
  { rewrite Hvj. change (Z.testbit (Z.land (Z.lor (bm_status v') 4) (Z.lnot 4)) 1 = false).
    by rewrite Z.land_spec, Z.lor_spec, Hlat. }
  cbv zeta in E4. cbn [rq_write rq_thread rq_buf rq_dma rq_nbytes rq_inst] in E4.
  set (s' := set_blocked _ _) in E4. exists s1, s2, s'. split; [done|]. split; [done|]. split; [done|]. split; [by rewrite E3|].
  assert (Hw : hw s' = c4) by by destruct write.
  assert (Hvo : forall i, i <> j -> view (hw s') i = view (hw s) i).
  { intros i Hne. by rewrite Hw, Hv4, (proj2 (Z.eqb_neq i j)), Hv3. }
  assert (Hvs : view (hw s') j = put (Bm 0) 0 (view (hw s3) j)) by by rewrite Hw, Hv4, Z.eqb_refl.
  split; [| | | | | | |exact Hvo].
  - split; [by destruct write|by destruct write| |].
    + intros i Hbi. destruct (decide (i = j)) as [->|Hne]; [by rewrite Hvs, Hvj|]. rewrite Hvo by done. by apply Id.
    + intros i Hbi. destruct (decide (i = j)) as [->|Hne]; [|rewrite Hvo by done; by apply Iq].
      rewrite Hvs, Hvj. apply irq_cleared.
  - destruct write; cbn; by rewrite He3.
  - destruct write; cbn; by rewrite Hl3.
  - destruct write; cbn; by rewrite Ho3.
  - destruct write; cbn; by rewrite Hm3.
  - destruct write; cbn; by rewrite ?Hu3.
  - by rewrite Hvs, Hvj.
Qed.

(** The closure, when the disk reports an error. *)
Lemma finish_failed r j s : a_bus j -> rq_bus r = j -> rq_base r = 8 * j -> on_bus (rq_dev r) j -> bmr s = bm ->
  ata_status (view (hw s) j) = 0x51 ->
  exists s', finish r s = Some s' /\ eax s' = upd (eax s) (rq_thread r) (u32 (-1)) /\
    blocked s' = filter (fun x => x <> rq_thread r) (blocked s) /\ umem s' = umem s /\ mem s' = mem s /\ currOffset s' = currOffset s /\
    dma_waiting_read s' = upd (dma_waiting_read s) j false.
Proof using HardwareLaws0 bm_high.
  intros Hj Hbus Hbase Hd Hb Hst. set (s0 := set_waiting s j false). set (v := put (Bm 0) (u8 0) (view (hw s0) j)).
  assert (H1 : only j v s0 (outb 0 (bmr s0 + 8 * j) s0)).
  { apply only_outb; [apply only_refl|]. change (bmr s0) with (bmr s). rewrite Hb, <- (Z.add_0_r (bm + 8 * j)). apply where_bm; [done|lia]. }
  destruct (wait_failed (rq_dev r) j v s0 _ Hj Hd H1 Hst) as (s2 & E2 & H2).
  destruct (inb_bm_status j _ s0 s2 Hj Hb H2) as (st & s3 & E3 & H3 & _).
  unfold finish. cbv zeta. rewrite Hbus, Hbase. fold s0. rewrite E2. cbn [mbind option_bind]. rewrite E3.
  change (1 =? 1) with true. cbn [orb]. eexists. split; [reflexivity|].
  unfold ata_soft_reset, stopDMA, outb. rewrite inb_eq. cbn. destruct H3 as [-> _]. done.
Qed.

Lemma request_failed (write : bool) dev j lba buf nbytes dma inst thread s :
  a_bus j -> on_bus dev j -> idle s -> 0 <= lba < 2 ^ 28 ->
  exists s1 s2 s',
    dma_begin write dev lba buf nbytes dma inst thread (if write then DMA_WRITE else DMA_READ)
      (if write then ATA_CMD_WRITE_DMA else ATA_CMD_READ_DMA) s = Some (0, s1) /\ blocked s1 = thread :: blocked s /\
    hw_step j false s1 = Some s2 /\ dma_int_handler s2 = Some s' /\
    eax s' = upd (eax s) thread (u32 (-1)) /\ blocked s' = filter (fun x => x <> thread) (thread :: blocked s) /\
    umem s' = umem s /\ mem s' = mem s /\ currOffset s' = currOffset s.
Proof using HardwareLaws0 prds_apart bm_high new.
  intros Hj Hd Hi Hl. destruct (request_reaches write false dev j lba buf nbytes dma inst thread s Hj Hd Hi Hl)
    as (s1 & s2 & s3 & v' & E1 & Eb & E2 & E3 & (Hi3 & Hb3 & Ho3 & Hu3 & He3 & Hl3 & Hm3) & Hv3 & Hvj & Hlat).
  destruct (finish_failed (mk_request write dev (8 * j) j nbytes buf dma thread inst) j s3 Hj eq_refl eq_refl Hd Hb3)
    as (s' & E4 & G1 & G2 & G3 & G4 & G5 & _); [by rewrite Hvj|].
  exists s1, s2, s'. rewrite E3, E4, G1, G2, G3, G4, G5, He3, Hl3, Hu3, Hm3, Ho3. by destruct write.
Qed.

(** *** Buffers *)

(** The buffer of [n] bytes at [a] lies in one page of 4 MB. *)
Definition one_page (a n : Z) : Prop :=
  0 <= a /\ a mod 2 ^ 22 + n <= 2 ^ 22 /\ a + n <= 2 ^ 32 /\ forall i, 0 <= i < n -> translate (a + i) = translate a.

Lemma physaddr_offset a n i : one_page a n -> 0 <= i < n -> physaddr (a + i) = physaddr a + i.
Proof using.
  clear new. intros (Ha & Hp & Hn & Ht) Hi. unfold physaddr. rewrite Ht by done.
  assert (Hmask : forall x, Z.land x (not32 ALIGN_4MB_ADDR) = x mod 2 ^ 22).
  { intros x. change (not32 ALIGN_4MB_ADDR) with (Z.ones 22). by rewrite Z.land_ones by lia. }
  assert (Hsum : forall x, Z.lor (Z.land (translate a) ALIGN_4MB_ADDR) (x mod 2 ^ 22) = Z.land (translate a) ALIGN_4MB_ADDR + x mod 2 ^ 22).
  { intros x. rewrite <- Z.lxor_lor, Z.add_nocarry_lxor; [done| |]; rewrite <- Z.land_assoc, <- (Z.land_ones x 22) by lia;
      rewrite (Z.land_comm x), (Z.land_assoc ALIGN_4MB_ADDR); by change (Z.land ALIGN_4MB_ADDR (Z.ones 22)) with 0; rewrite Z.land_0_l, Z.land_0_r. }
  rewrite !Hmask, !Hsum. change (2 ^ 22) with 4194304 in *. enough ((a + i) mod 4194304 = a mod 4194304 + i) by lia. zdiv.
Qed.

Lemma bytes_from_ext f g a n : (forall i, 0 <= i < n -> f (a + i) = g (a + i)) -> bytes_from f a n = bytes_from g a n.
Proof using. intros Hfg. apply fmap_seqZ_ext. intros i Hi. rewrite !Z.add_0_l. by apply Hfg. Qed.

Lemma load_buffer_bytes m a n k : one_page a n -> k <= n -> load_buffer m a k = bytes_from m (physaddr a) k.
Proof using.
  intros Hp Hk. apply fmap_seqZ_ext. intros i Hi. rewrite Z.add_0_l. f_equal. apply (physaddr_offset _ n); [done|lia].
Qed.

Lemma alen_bytes_from f a n : 0 <= n -> alen (bytes_from f a n) = n.
Proof using. intros. unfold alen, bytes_from. rewrite length_fmap, length_seqZ. lia. Qed.
Lemma aget_bytes_from f a n i : 0 <= i < n -> aget (bytes_from f a n) i = f (a + i).
Proof using.
  intros Hi. unfold aget, bytes_from. apply list_lookup_total_correct. rewrite list_lookup_fmap, lookup_seqZ_lt by lia. cbn. do 2 f_equal. lia.
Qed.
Lemma bytes_from_split f a n k : 0 <= k <= n -> bytes_from f a n = bytes_from f a k ++ bytes_from f (a + k) (n - k).
Proof using.
  intros Hk. unfold bytes_from. replace n with (k + (n - k)) at 1 by lia. rewrite seqZ_app, fmap_app by lia. f_equal.
  apply fmap_seqZ_ext. intros i Hi. f_equal. lia.
Qed.
Lemma bytes_from_list bs : bytes_from (aget bs) 0 (alen bs) = bs.
Proof using.
  apply list_eq. intros i. destruct (bs !! i) as [b|] eqn:Eb.
  - pose proof (lookup_lt_Some _ _ _ Eb). unfold bytes_from. rewrite list_lookup_fmap, lookup_seqZ_lt by (unfold alen; lia).
    cbn. f_equal. rewrite !Z.add_0_l. by apply aget_lookup.
  - apply lookup_ge_None in Eb. apply lookup_ge_None. unfold bytes_from. rewrite length_fmap, length_seqZ. unfold alen. lia.
Qed.

Lemma blit_bytes f a bs : bytes_from (blit f a bs) a (alen bs) = bs.
Proof using.
  rewrite <- (bytes_from_list bs) at 3. apply fmap_seqZ_ext. intros i Hi. unfold blit.
  rewrite (proj2 (Z.leb_le _ _)), (proj2 (Z.ltb_lt _ _)) by lia. cbn. f_equal. lia.
Qed.
Lemma blit_out f a bs x : x < a \/ a + alen bs <= x -> blit f a bs x = f x.
Proof using.
  intros Hx. unfold blit. destruct (Z.leb_spec a x); [|done]. by rewrite (proj2 (Z.ltb_ge _ _)) by lia.
Qed.
Lemma blit_prefix f a bs n : alen bs <= n -> bytes_from (blit f a bs) a n = bs ++ bytes_from f (a + alen bs) (n - alen bs).
Proof using.
  intros Hn. rewrite (bytes_from_split _ _ _ (alen bs)) by (split; [unfold alen|]; lia). rewrite blit_bytes. f_equal.
  apply bytes_from_ext. intros i Hi. apply blit_out. lia.
Qed.
Lemma blit_blit f a l k : alen l = alen k -> forall x, blit (blit f a l) a k x = blit f a k x.
Proof using. intros E x. unfold blit. rewrite E. by destruct (_ && _). Qed.

(** What the processor stored in a buffer is there for the bus master. *)
Lemma store_buffer_keeps bs m a x : (forall i, 0 <= i < alen bs -> physaddr (a + i) <> x) -> store_buffer m a bs x = m x.
Proof using.
  revert m a. induction bs as [|b bs IH]; intros m a Hx; [done|]. cbn [store_buffer].
  assert (El : alen (b :: bs) = alen bs + 1) by (unfold alen; cbn; lia). rewrite IH.
  - unfold upd. rewrite (proj2 (Z.eqb_neq _ _)); [done|]. intros ->. apply (Hx 0); [unfold alen in *; lia|by rewrite Z.add_0_r].
  - intros i Hi. replace (a + 1 + i) with (a + (i + 1)) by lia. apply Hx. lia.
Qed.
Lemma store_buffer_at bs m a i : (forall k, 0 <= k < alen bs -> physaddr (a + k) = physaddr a + k) -> 0 <= i < alen bs ->
  store_buffer m a bs (physaddr a + i) = aget bs i.
Proof using.
  revert m a i. induction bs as [|b bs IH]; intros m a i Hp Hi; [unfold alen in Hi; cbn in Hi; lia|].
  assert (El : alen (b :: bs) = alen bs + 1) by (unfold alen; cbn; lia). cbn [store_buffer].
  assert (Hp' : forall k, 0 <= k < alen bs -> physaddr (a + 1 + k) = physaddr (a + 1) + k).
  { intros k Hk. replace (a + 1 + k) with (a + (k + 1)) by lia. rewrite !Hp by lia. lia. }
  destruct (decide (i = 0)) as [->|Hne].
  - rewrite store_buffer_keeps, Z.add_0_r; [unfold upd; by rewrite Z.eqb_refl|].
    intros k Hk. rewrite Hp' by done. rewrite (Hp 1) by (unfold alen in *; lia). lia.
  - replace (physaddr a + i) with (physaddr (a + 1) + (i - 1)) by (rewrite (Hp 1) by lia; lia). rewrite IH by (done || lia).
    unfold aget. by replace (Z.to_nat i) with (S (Z.to_nat (i - 1))) by lia.
Qed.
Lemma store_buffer_bytes bs m a n : one_page a n -> alen bs <= n -> bytes_from (store_buffer m a bs) (physaddr a) (alen bs) = bs.
Proof using.
  intros Hp Hn. rewrite <- (bytes_from_list bs) at 3. apply fmap_seqZ_ext. intros i Hi. rewrite !Z.add_0_l.
  apply store_buffer_at; [|done]. intros k Hk. apply (physaddr_offset _ n); [done|lia].
Qed.

(** A disk after a sector was replaced. *)
Lemma alen_sectors m lba n : 0 <= n -> alen (sectors m lba n) = n.
Proof using. intros. unfold alen, sectors. rewrite length_fmap, length_seqZ. lia. Qed.
Lemma sectors_one m lba : alen (m lba) = 512 -> sectors m lba 512 = m lba.
Proof using.
  intros El. rewrite <- (bytes_from_list (m lba)), El. apply fmap_seqZ_ext. intros i Hi. rewrite !Z.add_0_l.
  by rewrite Z.div_small, Z.add_0_r, Z.mod_small by lia.
Qed.
Lemma set_sectors_one m lba bs x : alen bs = 512 -> set_sectors m lba 512 bs x = if x =? lba then bs else m x.
Proof using.
  intros El. unfold set_sectors. change (512 / 512) with 1. destruct (Z.eqb_spec x lba) as [->|Hne].
  - rewrite (proj2 (Z.leb_le _ _)), (proj2 (Z.ltb_lt _ _)) by lia. cbn [andb]. rewrite Z.sub_diag. cbn [drop]. apply take_ge.
    unfold alen in El. lia.
  - destruct (Z.leb_spec lba x); [|done]. by rewrite (proj2 (Z.ltb_ge _ _)) by lia.
Qed.

Lemma moved_one nbytes : 0 < nbytes -> nbytes mod 512 = 0 -> moved_bytes nbytes = 512.
Proof using.
  clear new. intros Hn Hm. unfold moved_bytes, u16. destruct (Z.eqb_spec (nbytes mod 2 ^ 16) 0); [done|].
  change (2 ^ 16) with 65536 in *. apply Z.min_l. zdiv.
Qed.
Lemma buffer_holds nbytes : 0 <= nbytes <= 1024 * 1024 -> nbytes <= bufferSize nbytes.
Proof using.
  clear new. intros Hn. unfold bufferSize. change 0x1000 with 4096. destruct (Z.eqb_spec (nbytes mod 4096) 0); cbn [negb]; [lia|].
  rewrite u32_small; zdiv.
Qed.

(** *** The two calls *)

(** What the caller of [read] or [write] gets when the transfer of bus [j] is over. *)
Definition complete (j : Z) (ok : bool) (call : option (Z * t)) : option t :=
  '(_, s) ← call; s ← hw_step j ok s; dma_int_handler s.

(** A request that the driver takes. *)
Record request_ok (dev : ata_device) (j bytes dma : Z) : Prop := {
  ro_bus : a_bus j;
  ro_dev : on_bus dev j;
  ro_bytes : 0 < bytes <= 1024 * 1024;
  ro_sector : bytes mod 512 = 0;
  ro_new : new (bufferSize bytes) = Some dma;
  ro_page : one_page dma (bufferSize bytes) }.

Lemma read_is_begin dev j inst thread buf bytes dma s : request_ok dev j bytes dma -> idle s ->
  fops_read dev inst thread buf bytes s =
    dma_begin false dev (currOffset s inst / 512) buf bytes dma inst thread DMA_READ ATA_CMD_READ_DMA
      (set_umem s thread (blit (umem s thread) buf (replicate (Z.to_nat bytes) 0))).
Proof using.
  intros [_ _ Hb Hm Hn _] [Hi _ _ _]. unfold fops_read, dma_begin_read_sector. rewrite (proj2 (Z.ltb_ge _ _)) by lia.
  rewrite u32_small by lia. rewrite Hi. change ATA_SECTOR_SIZE with 512. by rewrite Hm, Hn.
Qed.
Lemma write_is_begin dev j inst thread buf bytes dma s : request_ok dev j bytes dma -> idle s ->
  fops_write dev inst thread buf bytes s =
    dma_begin true dev (currOffset s inst / 512) buf bytes dma inst thread DMA_WRITE ATA_CMD_WRITE_DMA
      (set_mem s (store_buffer (mem s) dma (bytes_from (umem s thread) buf bytes))).
Proof using.
  intros [_ _ Hb Hm Hn _] [Hi _ _ _]. unfold fops_write, dma_begin_write_sector. rewrite (proj2 (Z.ltb_ge _ _)) by lia.
  rewrite u32_small by lia. rewrite Hi. change ATA_SECTOR_SIZE with 512. by rewrite Hm, Hn.
Qed.
Lemma lba_small o : 0 <= o < 2 ^ 32 -> 0 <= o / 512 < 2 ^ 28.
Proof using. clear new. change (2 ^ 32) with 4294967296. change (2 ^ 28) with 268435456. intros. zdiv. Qed.

(** A read that is served. *)
Lemma read_served dev j inst thread buf bytes dma s : request_ok dev j bytes dma -> idle s -> 0 <= currOffset s inst < 2 ^ 32 ->
  exists s', complete j true (fops_read dev inst thread buf bytes s) = Some s' /\ idle s' /\
    eax s' = upd (eax s) thread bytes /\ blocked s' = filter (fun x => x <> thread) (thread :: blocked s) /\
    currOffset s' = upd (currOffset s) inst (u32 (currOffset s inst + bytes)) /\
    bytes_from (umem s' thread) buf bytes =
      sectors (medium (view (hw s) j) (slave dev)) (currOffset s inst / 512) 512 ++ bytes_from (mem s) (physaddr dma + 512) (bytes - 512) /\
    (forall x, x < buf \/ buf + bytes <= x -> umem s' thread x = umem s thread x) /\
    (forall i, i <> thread -> umem s' i = umem s i) /\
    medium (view (hw s') j) = medium (view (hw s) j) /\ (forall i, i <> j -> view (hw s') i = view (hw s) i).
Proof using HardwareLaws0 prds_apart bm_high.
  intros Hr Hi Ho. rewrite (read_is_begin _ j _ _ _ _ dma) by done. set (s0 := set_umem s _ _).
  assert (Hi0 : idle s0) by (destruct Hi; by split). pose proof Hr as [Hj Hd Hb Hm _ Hp].
  destruct (request_served false dev j (currOffset s inst / 512) buf bytes dma inst thread s0 Hj Hd Hi0 (lba_small _ Ho))
    as (s1 & s2 & s' & E1 & _ & E2 & E3 & [Gi Ge Gb Go Gm Gu Gd Gv]).
  exists s'. unfold complete. rewrite E1. cbn [mbind option_bind]. rewrite E2. cbn [mbind option_bind].
  split; [done|]. split; [done|]. split; [done|]. split; [done|]. split; [done|].
  pose proof (buffer_holds bytes ltac:(lia)) as Hbuf. rewrite (load_buffer_bytes _ _ (bufferSize bytes)) in Gu by (done || lia).
  rewrite moved_one in Gm by (done || lia). unfold mem_after in Gm. change (medium (view (hw s0) j)) with (medium (view (hw s) j)) in *.
  change (mem s0) with (mem s) in *. set (sec := sectors _ _ 512) in *. assert (El : alen sec = 512) by by apply alen_sectors.
  assert (Hb5 : 512 <= bytes) by zdiv.
  rewrite Gm in Gu. rewrite blit_prefix, El in Gu by lia. set (data := sec ++ _) in *.
  assert (Ed : alen data = bytes).
  { unfold data, alen. rewrite length_app. fold (alen sec). pose proof (alen_bytes_from (mem s) (physaddr dma + 512) (bytes - 512)).
    unfold alen in *. lia. }
  assert (Et : umem s' thread = blit (umem s0 thread) buf data) by (rewrite Gu; unfold upd; by rewrite Z.eqb_refl).
  split; [|split; [|split; [|split; [exact Gd|exact Gv]]]].
  - rewrite Et. rewrite <- Ed at 1. apply blit_bytes.
  - intros x Hx. rewrite Et, blit_out by lia. unfold s0. cbn. unfold upd at 1. rewrite Z.eqb_refl. apply blit_out.
    unfold alen. rewrite length_replicate. lia.
  - intros i Hne. rewrite Gu. unfold upd at 1. rewrite (proj2 (Z.eqb_neq _ _)) by done. cbn. unfold upd. by rewrite (proj2 (Z.eqb_neq _ _)).
Qed.

(** A write that is served. *)
Lemma write_served dev j inst thread buf bytes dma s : request_ok dev j bytes dma -> idle s -> 0 <= currOffset s inst < 2 ^ 32 ->
  let lba := currOffset s inst / 512 in
  exists s', complete j true (fops_write dev inst thread buf bytes s) = Some s' /\ idle s' /\
    eax s' = upd (eax s) thread bytes /\ blocked s' = filter (fun x => x <> thread) (thread :: blocked s) /\
    currOffset s' = upd (currOffset s) inst (u32 (currOffset s inst + bytes)) /\ umem s' = umem s /\
    (forall u x, medium (view (hw s') j) u x =
       if (u =? slave dev) && (x =? lba) then bytes_from (umem s thread) buf 512 else medium (view (hw s) j) u x) /\
    (forall i, i <> j -> view (hw s') i = view (hw s) i).
Proof using HardwareLaws0 prds_apart bm_high.
  intros Hr Hi Ho lba. rewrite (write_is_begin _ j _ _ _ _ dma) by done. set (s0 := set_mem s _).
  assert (Hi0 : idle s0) by (destruct Hi; by split). pose proof Hr as [Hj Hd Hb Hm _ Hp].
  destruct (request_served true dev j lba buf bytes dma inst thread s0 Hj Hd Hi0 (lba_small _ Ho))
    as (s1 & s2 & s' & E1 & _ & E2 & E3 & [Gi Ge Gb Go Gm Gu Gd Gv]).
  exists s'. unfold complete. fold lba. rewrite E1. cbn [mbind option_bind]. rewrite E2. cbn [mbind option_bind].
  split; [done|]. split; [done|]. split; [done|]. split; [done|]. split; [done|]. split; [done|]. split; [|exact Gv].
  intros u x. rewrite Gd. unfold medium_after. cbv zeta. rewrite moved_one by (done || lia).
  change (medium (view (hw s0) j)) with (medium (view (hw s) j)). unfold s0 at 1. cbn [mem set_mem].
  set (bs := bytes_from (umem s thread) buf bytes). assert (El : alen bs = bytes) by (apply alen_bytes_from; lia).
  assert (Hb5 : 512 <= bytes) by zdiv. pose proof (buffer_holds bytes ltac:(lia)) as Hbuf.
  assert (Es : bytes_from (store_buffer (mem s) dma bs) (physaddr dma) 512 = bytes_from (umem s thread) buf 512).
  { pose proof (store_buffer_bytes bs (mem s) dma (bufferSize bytes) Hp ltac:(lia)) as Hs. rewrite El in Hs. unfold bs in Hs at 2.
    rewrite (bytes_from_split _ (physaddr dma) _ 512), (bytes_from_split _ buf _ 512) in Hs by lia.
    apply app_inj_1 in Hs; [apply Hs|]. unfold bytes_from. by rewrite !length_fmap, !length_seqZ. }
  rewrite Es. unfold upd. destruct (Z.eqb_spec u (slave dev)) as [->|]; [|done]. cbn [andb].
  rewrite set_sectors_one by (by apply alen_bytes_from). done.
Qed.

(** [n] calls of [read], a sector each. *)
Fixpoint read_sectors (n : nat) (dev : ata_device) (j inst thread buf : Z) (s : t) : option t :=
  match n with
  | O => Some s
  | S n => s ← complete j true (fops_read dev inst thread buf 512 s); read_sectors n dev j inst thread (buf + 512) s
  end.

Lemma sectors_split m lba n : 0 <= n -> sectors m lba (512 + n) = sectors m lba 512 ++ sectors m (lba + 1) n.
Proof using.
  clear new. intros Hn. unfold sectors. rewrite seqZ_app, fmap_app by lia. f_equal. apply fmap_seqZ_ext. intros i Hi.
  assert (E1 : (0 + 512 + i) / 512 = 1 + i / 512) by zdiv. assert (E2 : (0 + 512 + i) mod 512 = i mod 512) by zdiv.
  rewrite !Z.add_0_l in *. rewrite E1, E2. f_equal. f_equal. lia.
Qed.

Lemma read_sectors_spec n dev j inst thread buf dma s :
  request_ok dev j 512 dma -> idle s -> 0 <= currOffset s inst -> currOffset s inst + 512 * Z.of_nat n < 2 ^ 32 ->
  exists s', read_sectors n dev j inst thread buf s = Some s' /\
    bytes_from (umem s' thread) buf (512 * Z.of_nat n) =
      sectors (medium (view (hw s) j) (slave dev)) (currOffset s inst / 512) (512 * Z.of_nat n) /\
    (forall x, x < buf \/ buf + 512 * Z.of_nat n <= x -> umem s' thread x = umem s thread x) /\
    currOffset s' inst = currOffset s inst + 512 * Z.of_nat n /\
    medium (view (hw s') j) = medium (view (hw s) j).
Proof using HardwareLaws0 prds_apart bm_high.
  intros Hr. revert buf s. induction n as [|n IH]; intros buf s Hi Ho Hn.
  { exists s. split; [done|]. split; [done|]. split; [done|]. split; [lia|done]. }
  destruct (read_served dev j inst thread buf 512 dma s Hr Hi ltac:(lia))
    as (s1 & E1 & Hi1 & _ & _ & Ho1 & Hb1 & Hout1 & _ & Hm1 & _).
  assert (Eo : currOffset s1 inst = currOffset s inst + 512).
  { rewrite Ho1. unfold upd. rewrite Z.eqb_refl, u32_small; lia. }
  destruct (IH (buf + 512) s1 Hi1 ltac:(lia) ltac:(lia)) as (s' & E & Hb & Hout & Hoff & Hm). exists s'.
  cbn [read_sectors]. rewrite E1. cbn [mbind option_bind]. split; [exact E|]. split; [|split; [|split; [lia|by rewrite Hm]]].
  - replace (512 * Z.of_nat (S n)) with (512 + 512 * Z.of_nat n) by lia. rewrite sectors_split by lia.
    rewrite (bytes_from_split _ _ _ 512), Z.add_simpl_l by lia. f_equal.
    + rewrite app_nil_r in Hb1. rewrite <- Hb1. apply bytes_from_ext. intros i Hx. apply Hout. lia.
    + rewrite Hb, Hm1, Eo. f_equal. zdiv.
  - intros x Hx. rewrite Hout, Hout1 by lia. done.
Qed.

(** ** Theorems *)

(** C29: reading one sector per call delivers the disk: [n] calls of [read] with 512 bytes,
    each followed by the transfer of the bus and its interrupt, fill the caller's buffer
    with the [n] sectors from the file position on and leave the rest of its memory
    alone; the position moves past them, and the disk is as it was. *)
Theorem sector_reads_deliver n dev j inst thread buf dma s lba :
  request_ok dev j 512 dma -> idle s -> 0 <= lba -> currOffset s inst = 512 * lba -> 512 * (lba + Z.of_nat n) < 2 ^ 32 ->
  exists s', read_sectors n dev j inst thread buf s = Some s' /\
    bytes_from (umem s' thread) buf (512 * Z.of_nat n) =
      sectors (medium (view (hw s) j) (slave dev)) lba (512 * Z.of_nat n) /\
    (forall x, x < buf \/ buf + 512 * Z.of_nat n <= x -> umem s' thread x = umem s thread x) /\
    currOffset s' inst = 512 * (lba + Z.of_nat n) /\
    medium (view (hw s') j) = medium (view (hw s) j).
Proof using HardwareLaws0 prds_apart bm_high.
  intros Hr Hi Hl Ho Hn.
  destruct (read_sectors_spec n dev j inst thread buf dma s Hr Hi ltac:(lia) ltac:(lia)) as (s' & E & Hb & Hout & Hoff & Hm).
  assert (Hdiv : 512 * lba / 512 = lba) by (rewrite Z.mul_comm; by apply Z.div_mul).
  exists s'. rewrite Ho, Hdiv in Hb. split; [done|]. split; [done|]. split; [done|]. split; [lia|done].
Qed.

(** C9: what was written to a disk is read back: after a [write] of a sector and a seek to
    the same position, a [read] of any thread through any open file of the disk gives the
    bytes that were written and the count 512, both callers are awake, and no other
    sector of the two disks of the bus, nor the other bus, has changed. *)
Theorem disk_roundtrip dev j inst thread buf inst' thread' buf' dma s lba :
  request_ok dev j 512 dma -> idle s -> 0 <= lba < 2 ^ 23 -> currOffset s inst = 512 * lba ->
  alen (medium (view (hw s) j) (slave dev) lba) = 512 ->
  exists s1 s2, complete j true (fops_write dev inst thread buf 512 s) = Some s1 /\
    complete j true (fops_read dev inst' thread' buf' 512 (seekCallback inst' (512 * lba) s1)) = Some s2 /\
    bytes_from (umem s2 thread') buf' 512 = bytes_from (umem s thread) buf 512 /\
    eax s1 thread = 512 /\ eax s2 thread' = 512 /\ ~ thread ∈ blocked s1 /\ ~ thread' ∈ blocked s2 /\
    (forall u x, u <> slave dev \/ x <> lba -> medium (view (hw s2) j) u x = medium (view (hw s) j) u x) /\
    (forall i, i <> j -> view (hw s2) i = view (hw s) i).
Proof using HardwareLaws0 prds_apart bm_high.
  intros Hr Hi Hl Ho El. assert (Hdiv : 512 * lba / 512 = lba) by (rewrite Z.mul_comm; by apply Z.div_mul).
  destruct (write_served dev j inst thread buf 512 dma s Hr Hi ltac:(lia)) as (s1 & E1 & Hi1 & He1 & Hb1 & _ & _ & Hm1 & Hv1).
  rewrite Ho, Hdiv in Hm1. set (s1' := seekCallback inst' (512 * lba) s1).
  assert (Hi1' : idle s1') by (destruct Hi1; by split).
  assert (Ho1 : currOffset s1' inst' = 512 * lba) by (unfold s1', seekCallback; cbn; unfold upd; by rewrite Z.eqb_refl).
  destruct (read_served dev j inst' thread' buf' 512 dma s1' Hr Hi1' ltac:(lia)) as (s2 & E2 & _ & He2 & Hb2 & _ & Hu2 & _ & _ & Hm2 & Hv2).
  exists s1, s2. split; [done|]. split; [done|]. rewrite Ho1, Hdiv, app_nil_r in Hu2.
  change (medium (view (hw s1') j)) with (medium (view (hw s1) j)) in *.
  assert (Es : medium (view (hw s1) j) (slave dev) lba = bytes_from (umem s thread) buf 512) by by rewrite Hm1, !Z.eqb_refl.
  rewrite sectors_one, Es in Hu2 by (rewrite Es; by apply alen_bytes_from).
  split; [done|]. rewrite He1, He2, Hb1, Hb2. unfold upd. rewrite !Z.eqb_refl. split; [done|]. split; [done|].
  split; [by intros [Hn _]%list_elem_of_filter|]. split; [by intros [Hn _]%list_elem_of_filter|]. split.
  - intros u x Hux. rewrite Hm2, Hm1. destruct (Z.eqb_spec u (slave dev)), (Z.eqb_spec x lba); try done. lia.
  - intros i Hne. rewrite Hv2 by done. by apply Hv1.
Qed.

(** C30: a transfer that fails is reported: when the disk answers a [read] or a [write] with
    its error bit, the interrupt wakes the caller with the result -1, the position of
    the file stays, the memory of every other thread stays, and the caller's memory stays
    but for the buffer of a [read], which is cleared. *)
Theorem failed_transfer_reports (write : bool) dev j inst thread buf bytes dma s :
  request_ok dev j bytes dma -> idle s -> 0 <= currOffset s inst < 2 ^ 32 ->
  exists s', complete j false (if write then fops_write dev inst thread buf bytes s else fops_read dev inst thread buf bytes s) = Some s' /\
    eax s' = upd (eax s) thread 0xffffffff /\ blocked s' = filter (fun x => x <> thread) (blocked s) /\ currOffset s' = currOffset s /\
    (forall i x, umem s' i x = if negb write && (i =? thread) && (buf <=? x) && (x <? buf + bytes) then 0 else umem s i x).
Proof using HardwareLaws0 prds_apart bm_high.
  intros Hr Hi Ho. set (s0 := if write then set_mem s (store_buffer (mem s) dma (bytes_from (umem s thread) buf bytes))
    else set_umem s thread (blit (umem s thread) buf (replicate (Z.to_nat bytes) 0))).
  assert (Hi0 : idle s0) by (destruct Hi; destruct write; by split). pose proof Hr as [Hj Hd Hb Hm _ _].
  destruct (request_failed write dev j (currOffset s inst / 512) buf bytes dma inst thread s0 Hj Hd Hi0 (lba_small _ Ho))
    as (s1 & s2 & s' & E1 & _ & E2 & E3 & Ge & Gb & Gu & _ & Go).
  exists s'. split.
  { assert (Ec : (if write then fops_write dev inst thread buf bytes s else fops_read dev inst thread buf bytes s) = Some (0, s1)).
    { destruct write; [rewrite (write_is_begin _ j _ _ _ _ dma) by done|rewrite (read_is_begin _ j _ _ _ _ dma) by done]; exact E1. }
    unfold complete. rewrite Ec. cbn [mbind option_bind]. by rewrite E2. }
  rewrite Ge, Gb, Gu, Go. split; [by destruct write|]. split.
  { rewrite filter_cons_False by (intros Hn; by apply Hn). by destruct write. }
  split; [by destruct write|]. intros i x. destruct write; [done|]. cbn. unfold upd. destruct (Z.eqb_spec i thread) as [->|]; [|done].
  unfold blit, alen. rewrite length_replicate, Z2Nat.id by lia. cbn [andb].
  destruct (Z.leb_spec buf x), (Z.ltb_spec x (buf + bytes)); try done. cbn. apply aget_replicate. lia.
Qed.

(** A call that asks for more than a sector gets one: the rest of the buffer is what the
    allocator's memory held, and the call reports all of it as read. *)
Lemma one_call_one_sector dev j inst thread buf bytes dma s : request_ok dev j bytes dma -> idle s -> 0 <= currOffset s inst < 2 ^ 32 ->
  exists s', complete j true (fops_read dev inst thread buf bytes s) = Some s' /\ eax s' thread = bytes /\
    bytes_from (umem s' thread) buf bytes =
      sectors (medium (view (hw s) j) (slave dev)) (currOffset s inst / 512) 512 ++ bytes_from (mem s) (physaddr dma + 512) (bytes - 512).
Proof using HardwareLaws0 prds_apart bm_high.
  intros Hr Hi Ho. destruct (read_served dev j inst thread buf bytes dma s Hr Hi Ho) as (s' & E & _ & He & _ & _ & Hb & _).
  exists s'. split; [done|]. split; [|done]. rewrite He. unfold upd. by rewrite Z.eqb_refl.
Qed.

End driver.
(** ** Two disks on two buses, to run the driver on *)

Definition sim_base : Z := 0xC000.
Definition sim_outb (p d : Z) (c : Z -> bus) : Z -> bus :=
  match where_port sim_base p with Some (i, r) => upd c i (put r d (c i)) | None => c end.
Definition sim_outl (d p : Z) (c : Z -> bus) : Z -> bus :=
  if p =? sim_base + 4 then upd c 0 (set_prdt (c 0) d) else if p =? sim_base + 12 then upd c 1 (set_prdt (c 1) d) else c.
Definition sim_inb (p : Z) (c : Z -> bus) : Z * (Z -> bus) :=
  (match where_port sim_base p with
   | Some (i, Task 7) => ata_status (c i)
   | Some (i, Bm 0) => bm_cmd (c i)
   | Some (i, Bm 2) => bm_status (c i)
   | _ => 0xff
   end, c).
Definition sim_transfer (j : Z) (ok : bool) (entry : Z -> option prd) (mem : Z -> Z) (c : Z -> bus) : option ((Z -> Z) * (Z -> bus)) :=
  let v := c j in
  let m := medium v in
  cmd ← pending v; e ← entry (bm_prdt v);
  let n := length_of v e in
  if (cmd =? 0xC8) && (Z.land (bm_cmd v) 9 =? 9) then
    Some (if ok then blit mem (prd_data e) (sectors (m (unit_of v)) (lba_of v) n) else mem, upd c j (over v ok m))
  else if (cmd =? 0xCA) && (Z.land (bm_cmd v) 9 =? 1) then
    Some (mem, upd c j (over v ok (if ok then upd m (unit_of v) (set_sectors (m (unit_of v)) (lba_of v) n (bytes_from mem (prd_data e) n)) else m)))
  else None.

#[export] Instance SimDisk : Hardware (Z -> bus) :=
  {| view c := c; hw_outb d p := sim_outb p d; hw_outl d p := sim_outl d p; hw_inb := sim_inb; hw_inw p c := (0, c); transfer := sim_transfer |}.
#[export] Instance SimDisk_laws : HardwareLaws (Z -> bus) sim_base.
Proof.
  assert (Hbm : 0x400 <= sim_base) by done.
  split; cbn.
  - intros c d p j _ _. unfold sim_outb. destruct (where_port sim_base p) as [[i r]|]; [|done]. unfold upd.
    rewrite (Z.eqb_sym j i). by destruct (Z.eqb_spec i j) as [->|].
  - intros c d i j Hi. unfold sim_outl. assert (Hu : forall k v, upd c k v j = if k =? j then v else c j) by (intros k v; unfold upd; by rewrite (Z.eqb_sym j)).
    destruct Hi as [-> | ->]; [change (sim_base + 8 * 0 + 4 =? sim_base + 4) with true
      |change (sim_base + 8 * 1 + 4 =? sim_base + 4) with false; change (sim_base + 8 * 1 + 4 =? sim_base + 12) with true];
      cbn iota; rewrite Hu; [destruct (Z.eqb_spec 0 j) as [<-|]|destruct (Z.eqb_spec 1 j) as [<-|]]; done.
  - done.
  - intros c j Hj. pose proof (where_task sim_base j 7 Hj ltac:(lia)) as E. unfold io in E. by rewrite E.
  - intros c j Hj. pose proof (where_bm sim_base Hbm j 0 Hj ltac:(lia)) as E. rewrite Z.add_0_r in E. by rewrite E.
  - intros c j k Hj _. by rewrite (where_bm sim_base Hbm j 2 Hj ltac:(lia)).
  - intros c j ok entry mem e Hj Hp Hc He. unfold sim_transfer. rewrite Hp. cbn [mbind option_bind]. rewrite He, Hc. cbn.
    do 2 eexists. split; [reflexivity|]. split; [|by destruct ok]. intros i. unfold upd at 1. by destruct (Z.eqb_spec i j).
  - intros c j ok entry mem e Hj Hp Hc He. unfold sim_transfer. rewrite Hp. cbn [mbind option_bind]. rewrite He, Hc. cbn.
    eexists. split; [reflexivity|]. intros i. unfold upd at 1. by destruct (Z.eqb_spec i j).
Qed.

(** A machine whose addresses are the physical ones; every sector holds bytes of its
    number, the buffer of the driver old data. *)
Definition sim_bus : bus := mk_bus 0 0 0 0 0 0x50 None 0 0 0 (fun u x => replicate 512 ((16 * u + x) mod 256)).
Definition sim_start : t (C := Z -> bus) :=
  mk true sim_base (mk_prd 0 0) (mk_prd 0 0) (fun _ => false) (fun _ => None) (fun i => if i =? 7 then 512 * 3 else 0)
    (fun _ => 99) (fun th x => if th =? 1 then x mod 7 else 0) (fun _ => 0) [5] (fun _ => sim_bus).
Definition sim_new (n : Z) : option Z := Some 0x800000.

Definition sim_translate (a : Z) : Z := a / 2 ^ 22 * 2 ^ 22.

Lemma sim_idle : idle sim_base sim_start.
Proof. by split. Qed.
Lemma sim_request dev j bytes : a_bus j -> on_bus dev j -> 0 < bytes <= 4096 -> bytes mod 512 = 0 ->
  request_ok sim_translate sim_new dev j bytes 0x800000.
Proof.
  intros Hj Hd Hb Hm. split; try done; [lia|]. assert (Eb : bufferSize bytes = 4096).
  { unfold bufferSize. change 0x1000 with 4096. destruct (Z.eqb_spec (bytes mod 4096) 0); cbn [negb]; [zdiv|]. rewrite u32_small; zdiv. }
  rewrite Eb. split; [done|]. split; [done|]. split; [done|]. intros i Hi. unfold sim_translate.
  change (2 ^ 22) with 4194304. f_equal. zdiv.
Qed.

Lemma primary_slave_on : on_bus ata_primary_slave 0.
Proof. by split. Qed.
Lemma secondary_master_on : on_bus ata_secondary_master 1.
Proof. by split. Qed.

Lemma sector_reads_deliver_witness : exists s',
  read_sectors sim_translate 0x1000 0x1008 0 sim_new 3 ata_primary_slave 0 7 1 0x40 sim_start = Some s' /\
  bytes_from (umem s' 1) 0x40 (512 * Z.of_nat 3) = sectors (medium sim_bus 1) 3 (512 * Z.of_nat 3) /\
  (forall x, x < 0x40 \/ 0x40 + 512 * Z.of_nat 3 <= x -> umem s' 1 x = umem sim_start 1 x) /\
  currOffset s' 7 = 512 * (3 + Z.of_nat 3) /\ medium (hw s' 0) = medium sim_bus.
Proof.
  apply (sector_reads_deliver sim_translate 0x1000 0x1008 0 sim_new sim_base ltac:(done) ltac:(done) 3 ata_primary_slave 0 7 1 0x40 0x800000 sim_start 3).
  - apply sim_request; [by left|exact primary_slave_on|done|done].
  - exact sim_idle.
  - done.
  - done.
  - done.
Defined.

Lemma disk_roundtrip_witness : exists s1 s2,
  complete sim_translate 0x1000 0x1008 0 1 true (fops_write sim_translate 0x1000 0x1008 0 sim_new ata_secondary_master 7 1 0x40 512 sim_start) = Some s1 /\
  complete sim_translate 0x1000 0x1008 0 1 true
    (fops_read sim_translate 0x1000 0x1008 0 sim_new ata_secondary_master 8 2 0x90 512 (seekCallback 8 (512 * 3) s1)) = Some s2 /\
  bytes_from (umem s2 2) 0x90 512 = bytes_from (fun x => x mod 7) 0x40 512 /\ eax s1 1 = 512 /\ eax s2 2 = 512 /\
  ~ 1 ∈ blocked s1 /\ ~ 2 ∈ blocked s2 /\
  (forall u x, u <> 0 \/ x <> 3 -> medium (hw s2 1) u x = medium sim_bus u x) /\ (forall i, i <> 1 -> hw s2 i = sim_bus).
Proof.
  apply (disk_roundtrip sim_translate 0x1000 0x1008 0 sim_new sim_base ltac:(done) ltac:(done) ata_secondary_master 1 7 1 0x40 8 2 0x90
    0x800000 sim_start 3).
  - apply sim_request; [by right|exact secondary_master_on|done|done].
  - exact sim_idle.
  - done.
  - done.
  - done.
Defined.

Lemma failed_transfer_reports_witness : exists s',
  complete sim_translate 0x1000 0x1008 0 0 false (fops_read sim_translate 0x1000 0x1008 0 sim_new ata_primary_slave 7 1 0x40 1024 sim_start) = Some s' /\
  eax s' = upd (fun _ => 0) 1 0xffffffff /\ blocked s' = filter (fun x => x <> 1) [5] /\ currOffset s' = currOffset sim_start /\
  (forall i x, umem s' i x = if negb false && (i =? 1) && (0x40 <=? x) && (x <? 0x40 + 1024) then 0 else umem sim_start i x).
Proof.
  apply (failed_transfer_reports sim_translate 0x1000 0x1008 0 sim_new sim_base ltac:(done) ltac:(done) false ata_primary_slave 0 7 1 0x40 1024
    0x800000 sim_start).
  - apply sim_request; [by left|exact primary_slave_on|done|done].
  - exact sim_idle.
  - done.
Defined.

End Ata.
