(* ===== verification/Fish.v ===== *)
(** * The fish (fish/fish.c, fish/blink.S)

    Characters that blink on the text screen: a linked list of [mp1_blink_struct] in an
    array, in assembly, and the program that fills it from two text files and ticks it
    with the clock. The list is proved to implement operations on a plain list of blinks
    ([blinks_refine]), a blink to show its two characters in turn for the times it was
    given ([blink_shows_phase]), and the reading of the two files to add a blink for every
    place where one of the frames is not blank ([frames_are_added]). A pointer to an
    element of the array is its index, the null pointer [None]. *)
From stdpp Require Import prelude list numbers strings.
From Stdlib Require Import ZArith Lia.
From S2P Require Import Prelude UserLib LPHash KissFS Sys Kernel UserProgs Grep.

Module Fish.

(** [mp1_blink_struct] *)
Record blink := mk_blink {
  location : Z; on_char : Z; off_char : Z; on_length : Z; off_length : Z; countdown : Z; status : Z; next : option Z }.
#[export] Instance blink_inhabited : Inhabited blink := populate (mk_blink 0 0 0 0 0 0 0 None).
(** An element after [ece391_memset]. *)
Definition zeroed : blink := mk_blink 0 0 0 0 0 0 0 None.

Definition set_next (b : blink) (n : option Z) : blink :=
  mk_blink (location b) (on_char b) (off_char b) (on_length b) (off_length b) (countdown b) (status b) n.
Definition set_phase (b : blink) (c st : Z) : blink :=
  mk_blink (location b) (on_char b) (off_char b) (on_length b) (off_length b) c st (next b).
Definition set_lengths (b : blink) (on off : Z) : blink :=
  mk_blink (location b) (on_char b) (off_char b) on off (countdown b) (status b) (next b).

(** [blink_array], the head, and the bytes from [vmem_base_addr] on. *)
Record t := mk { blink_array : list blink; mp1_list_head : option Z; vmem : list Z }.
Definition BLINKS : Z := 80 * 25.
Definition start (video : list Z) : t := mk (replicate (Z.to_nat BLINKS) zeroed) None video.

Definition node (s : t) (i : Z) : option blink := anth (blink_array s) i.
Definition set_node (s : t) (i : Z) (b : blink) : t := mk (aset (blink_array s) i b) (mp1_list_head s) (vmem s).
Definition set_head (s : t) (h : option Z) : t := mk (blink_array s) h (vmem s).

(** [None]: a store outside the window. *)
Definition mp1_poke (eax cl : Z) (s : t) : option t :=
  _ ← anth (vmem s) eax; Some (mk (blink_array s) (mp1_list_head s) (aset (vmem s) eax cl)).

(** [jg] after [cmpw $0]. *)
Definition jg (x : Z) : bool := (0 <? x) && (x <? 2 ^ 15).

(** One element of [tasklet_loop]. *)
Definition tasklet_node (ebx : Z) (s : t) : option t :=
  b ← node s ebx;
  let b := set_phase b (u16 (countdown b - 1)) (status b) in
  let s := set_node s ebx b in
  if jg (countdown b) then Some s
  else
    let '(cl, dx) := if Z.land (status b) 1 =? 0 then (on_char b, on_length b) else (off_char b, off_length b) in
    s ← mp1_poke (2 * location b) cl s;
    Some (set_node s ebx (set_phase b dx (Z.lxor (status b) 1))).
Fixpoint tasklet_loop (fuel : nat) (ebx : option Z) (s : t) : option t :=
  match ebx with
  | None => Some s
  | Some i =>
      match fuel with
      | O => None
      | S fuel => s ← tasklet_node i s; b ← node s i; tasklet_loop fuel (next b) s
      end
  end.
(** Fuel for a list that visits every element of the array at most once. *)
Definition walk : nat := S (Z.to_nat BLINKS).
Definition mp1_rtc_tasklet (s : t) : option t := tasklet_loop walk (mp1_list_head s) s.

Fixpoint find_loop (fuel : nat) (ax : Z) (ebx : option Z) (s : t) : option (option Z) :=
  match ebx with
  | None => Some None
  | Some i =>
      match fuel with
      | O => None
      | S fuel => b ← node s i; if location b =? ax then Some (Some i) else find_loop fuel ax (next b) s
      end
  end.
Definition mp1_find_helper (ax : Z) (s : t) : option (option Z) := find_loop walk (u16 ax) (mp1_list_head s) s.

(** [mp1_malloc] (fish.c): the first element whose location is 0. *)
Definition mp1_malloc (s : t) : option Z :=
  '(i, _) ← list_find (fun b => location b = 0) (blink_array s); Some (Z.of_nat i).
Definition mp1_free (i : Z) (s : t) : t := set_node s i zeroed.

Definition mp1_ioctl_add (user : blink) (s : t) : option (Z * t) :=
  if BLINKS <=? location user then Some (-1, s)
  else
    let b := set_phase user (on_length user) 1 in
    match mp1_malloc s with
    | None => Some (-1, s)
    | Some edx =>
        let s := set_head (set_node s edx (set_next b (mp1_list_head s))) (Some edx) in
        s ← mp1_poke (2 * location b) (on_char b) s;
        Some (0, s)
    end.

(** [remove_find_prev]: [edx] is the element whose [next] is looked at, or the head. *)
Fixpoint unlink_loop (fuel : nat) (eax : Z) (edx : option Z) (s : t) : option t :=
  p ← (match edx with None => Some (mp1_list_head s) | Some i => b ← node s i; Some (next b) end);
  if decide (p = Some eax) then
    n ← (b ← node s eax; Some (next b));
    match edx with
    | None => Some (set_head s n)
    | Some i => b ← node s i; Some (set_node s i (set_next b n))
    end
  else
    match fuel with O => None | S fuel => p ← p; unlink_loop fuel eax (Some p) s end.
Definition mp1_ioctl_remove (loc : Z) (s : t) : option (Z * t) :=
  found ← mp1_find_helper loc s;
  match found with
  | None => Some (-1, s)
  | Some eax => s ← unlink_loop walk eax None s; Some (0, mp1_free eax s)
  end.

(** [cmovl] after [testb $1]: the sign flag is bit 7 of the result, the overflow flag is
    clear. *)
Definition cmovl (st : Z) : bool := Z.testbit (Z.land st 1) 7.
Definition mp1_ioctl_sync (arg : Z) (s : t) : option (Z * t) :=
  from ← mp1_find_helper (Z.shiftr arg 16) s;
  match from with
  | None => Some (-1, s)
  | Some esi =>
      to ← mp1_find_helper (Z.land arg 0xffff) s;
      match to with
      | None => Some (-1, s)
      | Some edi =>
          a ← node s esi; b ← node s edi;
          let b := set_phase (set_lengths b (on_length a) (off_length a)) (countdown a) (status a) in
          s ← mp1_poke (2 * location b) (if cmovl (status b) then on_char b else off_char b) (set_node s edi b);
          Some (0, s)
      end
  end.

(** The structure that is copied back, if one is. *)
Definition mp1_ioctl_find (loc : Z) (s : t) : option (Z * option blink) :=
  found ← mp1_find_helper loc s;
  match found with
  | None => Some (-1, None)
  | Some eax => b ← node s eax; Some (0, Some b)
  end.

(** [mp1_ioctl] through [call_table], by what the second argument selects, and the
    interrupt. *)
Inductive op := Add (user : blink) | Remove (loc : Z) | Find (loc : Z) | Sync (arg : Z) | Tick.
Definition step (o : op) (s : t) : option (Z * option blink * t) :=
  match o with
  | Add user => '(r, s) ← mp1_ioctl_add user s; Some (r, None, s)
  | Remove loc => '(r, s) ← mp1_ioctl_remove loc s; Some (r, None, s)
  | Find loc => '(r, b) ← mp1_ioctl_find loc s; Some (r, b, s)
  | Sync arg => '(r, s) ← mp1_ioctl_sync arg s; Some (r, None, s)
  | Tick => s ← mp1_rtc_tasklet s; Some (0, None, s)
  end.
Fixpoint run (os : list op) (s : t) : option (list (Z * option blink) * t) :=
  match os with
  | [] => Some ([], s)
  | o :: os => '(r, s) ← step o s; '(rs, s) ← run os s; Some (r :: rs, s)
  end.

(** ** The program *)

Section program.
Context {S : Type} `{Sys S, ProcSys S}.

(** A character of a file, unless the row is over: the character and whether the file
    ended. *)
Definition frame_char (fd c eof : Z) : prog S (Z * Z) :=
  if negb (c =? 10) then
    '(num_bytes, buf) ← ece391_read fd [c] 0 1;
    c ← lift (anth buf 0);
    if num_bytes =? 0 then mret (10, 1) else mret (c, eof)
  else mret (c, eof).

Definition blink_of (c0 c1 row col : Z) (user : blink) : blink :=
  mk_blink (u16 (row * 80 + col + 40)) (if c0 =? 10 then 32 else c0) (if c1 =? 10 then 32 else c1) 15 15
    (countdown user) (status user) (next user).

(** The inner loop; [user] is the structure on the stack. *)
Fixpoint row_loop (fuel : nat) (fd0 fd1 row col c0 c1 eof0 eof1 : Z) (user : blink) (f : t) :
    prog S (Z * Z * blink * t) :=
  match fuel with
  | O => stuck
  | Datatypes.S fuel =>
      '(c0, eof0) ← frame_char fd0 c0 eof0;
      '(c1, eof1) ← frame_char fd1 c1 eof1;
      if (c0 =? 10) && (c1 =? 10) then mret (eof0, eof1, user, f)
      else
        let shown := negb (c0 =? 32) && negb (c0 =? 10) || negb (c1 =? 32) && negb (c1 =? 10) in
        let user := if (shown : bool) then blink_of c0 c1 row col user else user in
        f ← (if (shown : bool) then '(_, f) ← lift (mp1_ioctl_add user f); mret f else mret f);
        row_loop fuel fd0 fd1 row (col + 1) c0 c1 eof0 eof1 user f
  end.

Fixpoint rows_loop (fuel : nat) (fd0 fd1 row c0 c1 eof0 eof1 : Z) (user : blink) (f : t) : prog S t :=
  match fuel with
  | O => stuck
  | Datatypes.S fuel =>
      if negb ((eof0 =? 0) || (eof1 =? 0)) then mret f
      else
        '(eof0, eof1, user, f) ← row_loop fuel fd0 fd1 row 0 c0 c1 eof0 eof1 user f;
        c0 ← (if negb (eof0 =? 0) then sys_close fd0;; mret 10 else mret 48);
        c1 ← (if negb (eof1 =? 0) then sys_close fd1;; mret 10 else mret 48);
        rows_loop fuel fd0 fd1 (row + 1) c0 c1 eof0 eof1 user f
  end.

Definition add_frames (fuel : nat) (file0 file1 : list Z) (user : blink) (f : t) : prog S t :=
  fd0 ← ece391_open file0 0;
  (if fd0 <? 0 then _ ← sys_halt (-1); mret tt else mret tt);;
  fd1 ← ece391_open file1 0;
  (if fd1 <? 0 then _ ← sys_halt (-1); mret tt else mret tt);;
  rows_loop fuel fd0 fd1 0 48 48 0 0 user f.

(** [n] ticks of the clock. *)
Fixpoint ticks (n : nat) (rtc_fd : Z) (f : t) : prog S t :=
  match n with
  | O => mret f
  | Datatypes.S n =>
      '(_, _) ← ece391_read rtc_fd [0; 0; 0; 0] 0 4;
      f ← lift (mp1_rtc_tasklet f);
      ticks n rtc_fd f
  end.

Definition WAIT : Z := 200.
(** [video]: the text window that [vidmap] gave, [None] when it failed. *)
Definition main (fuel : nat) (video : option (list Z)) (user user' : blink) : prog S (Z * option t) :=
  match video with
  | None => mret (-1, None)
  | Some video =>
      rtc_fd ← ece391_open (lit "rtc") 0;
      f ← add_frames fuel (lit "frame0.txt") (lit "frame1.txt") user (start video);
      _ ← ece391_write rtc_fd [32; 0; 0; 0] 0 4;
      f ← ticks (Z.to_nat WAIT) rtc_fd f;
      let user := mk_blink (6 * 80 + 60) 73 77 7 6 (countdown user') (status user') (next user') in
      '(_, f) ← lift (mp1_ioctl_add user f);
      f ← ticks (Z.to_nat WAIT) rtc_fd f;
      '(_, f) ← lift (mp1_ioctl_sync (Z.lor (Z.shiftl 40 16) (6 * 80 + 60)) f);
      f ← ticks (Z.to_nat WAIT) rtc_fd f;
      '(_, f) ← lift (mp1_ioctl_remove WAIT f);
      f ← ticks (Z.to_nat BLINKS) rtc_fd f;
      _ ← sys_close rtc_fd;
      mret (0, Some f)
  end.
End program.

(** ** A list of blinks *)

(** A blink without its link. *)
Definition bare (b : blink) : blink := set_next b None.

Definition tick (b : blink) (v : list Z) : blink * list Z :=
  let b := set_phase b (u16 (countdown b - 1)) (status b) in
  if jg (countdown b) then (b, v)
  else if Z.land (status b) 1 =? 0
  then (set_phase b (on_length b) (Z.lxor (status b) 1), aset v (2 * location b) (on_char b))
  else (set_phase b (off_length b) (Z.lxor (status b) 1), aset v (2 * location b) (off_char b)).
Fixpoint tick_all (bs : list blink) (v : list Z) : list blink * list Z :=
  match bs with
  | [] => ([], v)
  | b :: bs => let '(b, v) := tick b v in let '(bs, v) := tick_all bs v in (b :: bs, v)
  end.

Definition search (loc : Z) (bs : list blink) : option (nat * blink) := list_find (fun b => location b = u16 loc) bs.

(** What the operations do to the blinks, the last added first, and to the screen. *)
Definition spec_step (o : op) (bs : list blink) (v : list Z) : Z * option blink * list blink * list Z :=
  match o with
  | Add user =>
      if (BLINKS <=? location user) || (BLINKS <=? alen bs) then (-1, None, bs, v)
      else (0, None, bare (set_phase user (on_length user) 1) :: bs, aset v (2 * location user) (on_char user))
  | Remove loc =>
      match search loc bs with None => (-1, None, bs, v) | Some (k, _) => (0, None, delete k bs, v) end
  | Find loc =>
      match search loc bs with None => (-1, None, bs, v) | Some (_, b) => (0, Some b, bs, v) end
  | Sync arg =>
      match search (Z.shiftr arg 16) bs with
      | None => (-1, None, bs, v)
      | Some (_, a) =>
          match search (Z.land arg 0xffff) bs with
          | None => (-1, None, bs, v)
          | Some (k, b) =>
              (0, None, <[k := set_phase (set_lengths b (on_length a) (off_length a)) (countdown a) (status a)]> bs,
                aset v (2 * location b) (off_char b))
          end
      end
  | Tick => let '(bs, v) := tick_all bs v in (0, None, bs, v)
  end.
Fixpoint spec_run (os : list op) (bs : list blink) (v : list Z) : list (Z * option blink) * list blink * list Z :=
  match os with
  | [] => ([], bs, v)
  | o :: os => let '(r, b, bs, v) := spec_step o bs v in let '(rs, bs, v) := spec_run os bs v in ((r, b) :: rs, bs, v)
  end.

(** The elements from [h] on. *)
Fixpoint chain (arr : list blink) (h : option Z) (l : list Z) : Prop :=
  match l with
  | [] => h = None
  | i :: l => h = Some i /\ 0 <= i < alen arr /\ chain arr (next (aget arr i)) l
  end.

(** The list holds the blinks [bs] in the elements [l]; the others are free. *)
Record linked (s : t) (l : list Z) (bs : list blink) : Prop := {
  lk_size : alen (blink_array s) = BLINKS;
  lk_window : 2 * BLINKS <= alen (vmem s);
  lk_chain : chain (blink_array s) (mp1_list_head s) l;
  lk_once : NoDup l;
  lk_free i : 0 <= i < BLINKS -> i ∉ l -> location (aget (blink_array s) i) = 0;
  lk_blinks : bs = (fun i => bare (aget (blink_array s) i)) <$> l;
  lk_places : Forall (fun b => 0 < location b < BLINKS) bs }.
Definition rep (s : t) (bs : list blink) : Prop := exists l, linked s l bs.

(** *** Chains *)

Lemma chain_range arr h l i : chain arr h l -> i ∈ l -> 0 <= i < alen arr.
Proof.
  revert h. induction l as [|j l IH]; intros h Hc Hi; [by apply not_elem_of_nil in Hi|]. destruct Hc as (_ & Hj & Hc).
  apply elem_of_cons in Hi as [->|Hi]; [done|]. by eapply IH.
Qed.
Lemma chain_ext arr arr' h l : alen arr' = alen arr -> (forall i, i ∈ l -> next (aget arr' i) = next (aget arr i)) ->
  chain arr h l -> chain arr' h l.
Proof.
  revert h. induction l as [|i l IH]; intros h Ha He Hc; [done|]. destruct Hc as (-> & Hi & Hc). split; [done|]. rewrite Ha. split; [done|].
  rewrite He by by left. apply IH; [done| |done]. intros j Hj. apply He. by right.
Qed.

Lemma linked_small s l bs : linked s l bs -> (length l < walk)%nat.
Proof.
  intros L. assert (Hsub : l ⊆+ seqZ 0 BLINKS).
  { apply NoDup_submseteq; [apply L|]. intros i Hi. apply elem_of_seqZ. pose proof (chain_range _ _ _ _ (lk_chain _ _ _ L) Hi) as Hr.
    rewrite (lk_size _ _ _ L) in Hr. lia. }
  apply submseteq_length in Hsub. rewrite length_seqZ in Hsub. unfold walk. lia.
Qed.

(** The search. *)
Lemma find_loop_spec s ax l : forall fuel h, chain (blink_array s) h l -> (length l <= fuel)%nat ->
  find_loop fuel ax h s = Some (snd <$> list_find (fun i => location (aget (blink_array s) i) = ax) l).
Proof.
  induction l as [|i l IH]; intros fuel h Hc Hf; [by destruct fuel; cbn in Hc; subst|].
  destruct Hc as (-> & Hi & Hc). destruct fuel as [|fuel]; [cbn in Hf; lia|]. cbn [find_loop]. unfold node.
  rewrite anth_aget by done. cbn [mbind option_bind]. cbn [list_find]. destruct (Z.eqb_spec (location (aget (blink_array s) i)) ax) as [E|E].
  - by rewrite decide_True.
  - rewrite decide_False by done. rewrite (IH fuel _ Hc) by (cbn in Hf; lia). by destruct (list_find _ _) as [[? ?]|].
Qed.
Lemma helper_spec s l bs loc : linked s l bs ->
  match search loc bs with
  | None => mp1_find_helper loc s = Some None
  | Some (k, b) => exists i, mp1_find_helper loc s = Some (Some i) /\ l !! k = Some i /\ b = bare (aget (blink_array s) i) /\
      bs !! k = Some b /\ 0 <= i < BLINKS
  end.
Proof.
  intros L. unfold mp1_find_helper. rewrite (find_loop_spec s _ l) by (apply L || (pose proof (linked_small _ _ _ L); lia)).
  set (f := fun i => bare (aget (blink_array s) i)). pose proof (lk_blinks _ _ _ L) as Eb. fold f in Eb.
  assert (Es : search loc bs = prod_map id f <$> list_find (fun i => location (aget (blink_array s) i) = u16 loc) l)
    by (unfold search; rewrite Eb; apply list_find_fmap).
  rewrite Es. destruct (list_find _ l) as [[k i]|] eqn:E; [|done]. cbn. exists i. apply list_find_Some in E as (Hk & _ & _).
  split; [done|]. split; [done|]. split; [done|]. split; [by rewrite Eb, list_lookup_fmap, Hk|].
  rewrite <- (lk_size _ _ _ L). eapply chain_range; [apply L|]. by eapply list_elem_of_lookup_2.
Qed.

(** *** Adding *)

Lemma malloc_spec s l bs : linked s l bs ->
  match mp1_malloc s with
  | Some i => 0 <= i < BLINKS /\ i ∉ l /\ alen bs < BLINKS
  | None => alen bs = BLINKS
  end.
Proof.
  intros L. pose proof (lk_size _ _ _ L) as Hsz. assert (Hlen : length bs = length l) by by rewrite (lk_blinks _ _ _ L), length_fmap.
  assert (Hplace : forall i, i ∈ l -> location (aget (blink_array s) i) <> 0).
  { intros i Hi. pose proof (lk_places _ _ _ L) as Hp. rewrite (lk_blinks _ _ _ L), Forall_fmap, Forall_forall in Hp. specialize (Hp i Hi). cbn in Hp. lia. }
  assert (Hsub : l ⊆+ seqZ 0 BLINKS).
  { apply NoDup_submseteq; [apply L|]. intros i Hi. apply elem_of_seqZ. pose proof (chain_range _ _ _ _ (lk_chain _ _ _ L) Hi). lia. }
  unfold mp1_malloc. destruct (list_find _ _) as [[i b]|] eqn:E; cbn [mbind option_bind].
  - apply list_find_Some in E as (Hi & Hb & _). pose proof (lookup_lt_Some _ _ _ Hi) as Hlt.
    assert (Hr : 0 <= Z.of_nat i < BLINKS) by (unfold alen in Hsz; lia). split; [done|].
    assert (Hn : Z.of_nat i ∉ l) by (intros Hl; apply (Hplace _ Hl); by rewrite (aget_lookup _ _ _ Hi)). split; [done|].
    apply submseteq_length in Hsub as Hle. rewrite length_seqZ in Hle. unfold alen. rewrite Hlen.
    destruct (decide (length l = Z.to_nat BLINKS)) as [Ee|]; [|lia]. exfalso. apply Hn.
    assert (Hp : l ≡ₚ seqZ 0 BLINKS) by (apply submseteq_length_Permutation; [done|rewrite length_seqZ; lia]).
    rewrite Hp. apply elem_of_seqZ. lia.
  - assert (Hs : seqZ 0 BLINKS ⊆+ l).
    { apply NoDup_submseteq; [apply NoDup_seqZ|]. intros i Hi%elem_of_seqZ. destruct (decide (i ∈ l)) as [|Hn]; [done|].
      exfalso. pose proof (lk_free _ _ _ L i ltac:(lia) Hn) as H0. apply list_find_None in E. rewrite Forall_forall in E.
      apply (E (aget (blink_array s) i)); [|done]. apply list_elem_of_lookup_2 with (Z.to_nat i).
      unfold aget. apply list_lookup_lookup_total_lt. unfold alen in Hsz. lia. }
    apply submseteq_length in Hs, Hsub. rewrite length_seqZ in *. unfold alen. assert (0 <= BLINKS) by done. lia.
Qed.

Lemma poke_spec s a c : 0 <= a < alen (vmem s) -> mp1_poke a c s = Some (mk (blink_array s) (mp1_list_head s) (aset (vmem s) a c)).
Proof. intros Ha. unfold mp1_poke. by rewrite anth_aget. Qed.

Lemma add_spec s bs user : rep s bs -> 0 < location user ->
  let '(r, _, bs', v') := spec_step (Add user) bs (vmem s) in
  exists s', mp1_ioctl_add user s = Some (r, s') /\ rep s' bs' /\ vmem s' = v'.
Proof.
  intros [l L] Hu. cbn [spec_step]. unfold mp1_ioctl_add. destruct (Z.leb_spec BLINKS (location user)) as [|Hlt]; cbn [orb].
  { exists s. split; [done|]. split; [by exists l|done]. }
  pose proof (malloc_spec s l bs L) as Hm. destruct (mp1_malloc s) as [i|].
  2:{ rewrite (proj2 (Z.leb_le _ _)) by lia. exists s. split; [done|]. split; [by exists l|done]. }
  destruct Hm as (Hi & Hn & Hb). rewrite (proj2 (Z.leb_gt _ _)) by lia.
  pose proof (lk_size _ _ _ L) as Hsz. pose proof (lk_window _ _ _ L) as Hw. cbv zeta.
  rewrite poke_spec by (cbn; lia). cbn [mbind option_bind]. eexists. split; [reflexivity|]. split; [|done].
  set (b := set_next _ _). exists (i :: l).
  assert (Hout : forall j, j ∈ l -> aget (aset (blink_array s) i b) j = aget (blink_array s) j).
  { intros j Hj. apply aget_aset_ne; [lia| |by intros ->]. pose proof (chain_range _ _ _ _ (lk_chain _ _ _ L) Hj). lia. }
  assert (Hnew : aget (aset (blink_array s) i b) i = b) by (apply aget_aset_eq; lia).
  split; cbn [blink_array mp1_list_head vmem set_head set_node].
  - by rewrite alen_aset.
  - by rewrite alen_aset.
  - split; [done|]. rewrite alen_aset. split; [lia|]. rewrite Hnew. apply (chain_ext (blink_array s)); [apply alen_aset| |apply L].
    intros j Hj. by rewrite Hout.
  - constructor; [done|apply L].
  - intros j Hj Hnj. apply not_elem_of_cons in Hnj as [Hne Hnj]. rewrite aget_aset_ne by (lia || done). by apply (lk_free _ _ _ L).
  - cbn [fmap list_fmap]. rewrite Hnew. f_equal. rewrite (lk_blinks _ _ _ L). apply list_fmap_ext. intros k j Hk. rewrite Hout; [done|].
    by eapply list_elem_of_lookup_2.
  - constructor; [cbn; lia|apply L].
Qed.

(** *** Removing *)

Definition cell (s : t) (edx : option Z) : option Z :=
  match edx with None => mp1_list_head s | Some i => next (aget (blink_array s) i) end.
Definition link (s : t) (edx n : option Z) : t :=
  match edx with None => set_head s n | Some i => set_node s i (set_next (aget (blink_array s) i) n) end.
(** The last of [l], or [edx]. *)
Definition last_or (edx : option Z) (l : list Z) : option Z := match last l with Some i => Some i | None => edx end.

Lemma unlink_spec s i l2 : forall l1 fuel edx, chain (blink_array s) (cell s edx) (l1 ++ i :: l2) -> i ∉ l1 ->
  (forall j, edx = Some j -> 0 <= j < alen (blink_array s)) -> (length l1 <= fuel)%nat ->
  unlink_loop fuel i edx s = Some (link s (last_or edx l1) (next (aget (blink_array s) i))).
Proof.
  induction l1 as [|j l1 IH]; intros fuel edx Hc Hn He Hf.
  - destruct Hc as (Eh & Hi & _). assert (Ec : (match edx with None => Some (mp1_list_head s) | Some k => b ← node s k; Some (next b) end) = Some (Some i)).
    { destruct edx as [k|]; [|by rewrite <- Eh]. unfold node. rewrite anth_aget by by apply He. by rewrite <- Eh. }
    assert (En : node s i = Some (aget (blink_array s) i)) by by apply anth_aget.
    destruct fuel; cbn [unlink_loop]; rewrite Ec; cbn [mbind option_bind]; rewrite decide_True by done; rewrite En; cbn [mbind option_bind];
      (destruct edx as [k|]; [|done]); unfold node; by rewrite anth_aget by by apply He.
  - apply not_elem_of_cons in Hn as [Hne Hn]. destruct Hc as (Eh & Hj & Hc). destruct fuel as [|fuel]; [cbn in Hf; lia|].
    assert (Ec : (match edx with None => Some (mp1_list_head s) | Some k => b ← node s k; Some (next b) end) = Some (Some j)).
    { destruct edx as [k|]; [|by rewrite <- Eh]. unfold node. rewrite anth_aget by by apply He. by rewrite <- Eh. }
    cbn [unlink_loop]. rewrite Ec. cbn [mbind option_bind]. rewrite decide_False by congruence.
    rewrite (IH fuel (Some j)); [|exact Hc|done|by intros ? [= <-]|cbn in Hf; lia].
    do 2 f_equal. unfold last_or. rewrite last_cons. by destruct (last l1).
Qed.

(** What a link that jumps over an element leaves of the chain. *)
Lemma link_chain s l1 i l2 : chain (blink_array s) (mp1_list_head s) (l1 ++ i :: l2) -> NoDup (l1 ++ i :: l2) ->
  let s' := link s (last_or None l1) (next (aget (blink_array s) i)) in
  chain (blink_array s') (mp1_list_head s') (l1 ++ l2) /\ alen (blink_array s') = alen (blink_array s) /\ vmem s' = vmem s /\
  (forall j, 0 <= j < alen (blink_array s) -> bare (aget (blink_array s') j) = bare (aget (blink_array s) j)).
Proof.
  intros Hc Hnd. destruct l1 as [|k l1 _] using rev_ind.
  { destruct Hc as (_ & _ & Hc). by repeat split. }
  unfold last_or. rewrite last_snoc. cbn zeta. cbn [link blink_array mp1_list_head vmem set_node].
  assert (Hk : 0 <= k < alen (blink_array s)).
  { eapply chain_range; [exact Hc|]. apply elem_of_app; left. apply elem_of_app; right. by left. }
  set (b := set_next _ _). assert (Hin : next (aget (aset (blink_array s) k b) k) = next (aget (blink_array s) i)) by by rewrite aget_aset_eq.
  assert (Hout : forall j, 0 <= j -> j <> k -> aget (aset (blink_array s) k b) j = aget (blink_array s) j) by (intros j Hj Hne; apply aget_aset_ne; lia).
  split; [|split; [apply alen_aset|split; [done|]]].
  - rewrite <- app_assoc in Hc, Hnd |- *. cbn [app] in *. revert Hc. generalize (mp1_list_head s) as h.
    induction l1 as [|j l1 IH]; intros h Hc.
    + destruct Hc as (-> & _ & Hc). destruct Hc as (_ & _ & Hc). cbn [app] in *. apply list.NoDup_cons in Hnd as [Hnk Hnd].
      split; [done|]. rewrite alen_aset. split; [done|]. rewrite Hin. apply (chain_ext (blink_array s)); [apply alen_aset| |done].
      intros j Hj. rewrite Hout; [done| |].
      * pose proof (chain_range _ _ _ _ Hc Hj). lia.
      * intros ->. apply Hnk. by right.
    + destruct Hc as (-> & Hj & Hc). cbn [app] in *. apply list.NoDup_cons in Hnd as [Hnj Hnd].
      split; [done|]. rewrite alen_aset. split; [done|]. rewrite Hout; [by apply IH|lia|].
      intros ->. apply Hnj. apply elem_of_app; right. by left.
  - intros j Hj. destruct (decide (j = k)) as [->|]; [by rewrite aget_aset_eq|]. by rewrite Hout by lia.
Qed.

Lemma remove_spec s bs loc : rep s bs ->
  let '(r, _, bs', v') := spec_step (Remove loc) bs (vmem s) in
  exists s', mp1_ioctl_remove loc s = Some (r, s') /\ rep s' bs' /\ vmem s' = v'.
Proof.
  intros [l L]. pose proof (helper_spec s l bs loc L) as Hh. cbn [spec_step]. unfold mp1_ioctl_remove.
  destruct (search loc bs) as [[k b]|].
  2:{ rewrite Hh. cbn [mbind option_bind]. exists s. split; [done|]. split; [by exists l|done]. }
  destruct Hh as (i & -> & Hk & _ & _ & Hi). cbn [mbind option_bind]. pose proof (lk_size _ _ _ L) as Hsz.
  pose proof (lk_chain _ _ _ L) as Hc. pose proof (lk_once _ _ _ L) as Hnd. pose proof (linked_small _ _ _ L) as Hsm.
  set (l1 := take k l). set (l2 := drop (S k) l). assert (El : l = l1 ++ i :: l2) by (symmetry; by apply take_drop_middle).
  assert (Ed : delete k l = l1 ++ l2) by by rewrite delete_take_drop.
  rewrite El in Hc, Hnd. apply list.NoDup_app in Hnd as Hnd'. destruct Hnd' as (_ & Hd & Hnd2). apply list.NoDup_cons in Hnd2 as [Hi2 _].
  assert (Hi1 : i ∉ l1) by (intros H1; apply (Hd i H1); by left).
  rewrite (unlink_spec s i l2 l1 walk None); [|exact Hc|done|done|unfold l1; rewrite length_take; lia].
  cbn [mbind option_bind]. eexists. split; [reflexivity|].
  pose proof (link_chain s l1 i l2 Hc Hnd) as (Hc' & Ha' & Hv' & Hb'). set (s' := link _ _ _) in *. unfold mp1_free.
  split; [|done]. exists (delete k l). rewrite Ed.
  assert (Hout : forall j, j ∈ l1 ++ l2 -> aget (aset (blink_array s') i zeroed) j = aget (blink_array s') j).
  { intros j Hj. pose proof (chain_range _ _ _ _ Hc' Hj). apply aget_aset_ne; [lia|lia|]. intros ->. by apply elem_of_app in Hj as [|]. }
  split; cbn [blink_array mp1_list_head vmem set_node].
  - by rewrite alen_aset, Ha'.
  - rewrite Hv'. apply L.
  - apply (chain_ext (blink_array s')); [apply alen_aset| |done]. intros j Hj. by rewrite Hout.
  - rewrite <- Ed. eapply sublist_NoDup; [apply L|]. apply sublist_delete.
  - intros j Hj Hn. destruct (decide (j = i)) as [->|Hne]; [by rewrite aget_aset_eq by lia|]. rewrite aget_aset_ne by lia.
    rewrite <- (lk_free _ _ _ L j Hj); [by apply (f_equal location (Hb' j ltac:(lia)))|]. rewrite El.
    intros [H1|[->|H2]%elem_of_cons]%elem_of_app; [by apply Hn, elem_of_app; left|done|by apply Hn, elem_of_app; right].
  - pose proof (lk_blinks _ _ _ L) as Eb. rewrite Eb, <- list_fmap_delete, Ed. apply list_fmap_ext. intros m j Hj%list_elem_of_lookup_2.
    rewrite Hout by done. symmetry. apply Hb'. pose proof (chain_range _ _ _ _ Hc' Hj). lia.
  - apply Forall_delete, L.
Qed.

(** *** The other operations *)

Lemma ioctl_find_spec s bs loc : rep s bs ->
  let '(r, b, bs', v') := spec_step (Find loc) bs (vmem s) in
  bs' = bs /\ v' = vmem s /\ exists b', mp1_ioctl_find loc s = Some (r, b') /\ bare <$> b' = b.
Proof.
  intros [l L]. pose proof (helper_spec s l bs loc L) as Hh. cbn [spec_step]. unfold mp1_ioctl_find.
  destruct (search loc bs) as [[k b]|]; (split; [done|]); (split; [done|]).
  - destruct Hh as (i & -> & _ & -> & _ & Hi). cbn [mbind option_bind]. unfold node.
    rewrite anth_aget by (rewrite (lk_size _ _ _ L); lia). cbn [mbind option_bind]. by eexists.
  - rewrite Hh. by eexists.
Qed.

(** An element is replaced, its link kept. *)
Lemma linked_set s l bs k i b v : linked s l bs -> l !! k = Some i -> next b = next (aget (blink_array s) i) -> 0 < location b < BLINKS ->
  alen v = alen (vmem s) ->
  linked (mk (aset (blink_array s) i b) (mp1_list_head s) v) l (<[k := bare b]> bs).
Proof.
  intros L Hk Hn Hb Hv. pose proof (lk_size _ _ _ L) as Hsz. pose proof (list_elem_of_lookup_2 _ _ _ Hk) as Hin.
  pose proof (chain_range _ _ _ _ (lk_chain _ _ _ L) Hin) as Hi.
  assert (Hlen : length bs = length l) by (pose proof (lk_blinks _ _ _ L) as E; by rewrite E, length_fmap).
  split; cbn [blink_array mp1_list_head vmem].
  - by rewrite alen_aset.
  - rewrite Hv. apply L.
  - apply (chain_ext (blink_array s)); [apply alen_aset| |apply L]. intros j Hj. destruct (decide (j = i)) as [->|]; [by rewrite aget_aset_eq|].
    pose proof (chain_range _ _ _ _ (lk_chain _ _ _ L) Hj). by rewrite aget_aset_ne by lia.
  - apply L.
  - intros j Hj Hnj. assert (j <> i) by by intros ->. rewrite aget_aset_ne by lia. by apply (lk_free _ _ _ L).
  - apply list_eq. intros m. rewrite list_lookup_fmap. destruct (decide (m = k)) as [->|Hne].
    + rewrite list_lookup_insert_eq, Hk by (rewrite Hlen; by eapply lookup_lt_Some). cbn. by rewrite aget_aset_eq.
    + rewrite list_lookup_insert_ne by done. pose proof (lk_blinks _ _ _ L) as E. rewrite E, list_lookup_fmap.
      destruct (l !! m) as [j|] eqn:Ej; [|done]. cbn. rewrite aget_aset_ne; [done|lia| |].
      * pose proof (chain_range _ _ _ _ (lk_chain _ _ _ L) (list_elem_of_lookup_2 _ _ _ Ej)). lia.
      * intros <-. apply Hne. eapply NoDup_lookup; [apply L|done|done].
  - apply Forall_insert; [apply L|done].
Qed.

(** [cmovl] never moves: the copied blink is shown by its second character. *)
Lemma cmovl_never st : cmovl st = false.
Proof. unfold cmovl. rewrite Z.land_spec. apply andb_false_r. Qed.

Lemma sync_spec s bs arg : rep s bs ->
  let '(r, _, bs', v') := spec_step (Sync arg) bs (vmem s) in
  exists s', mp1_ioctl_sync arg s = Some (r, s') /\ rep s' bs' /\ vmem s' = v'.
Proof.
  intros [l L]. pose proof (helper_spec s l bs (Z.shiftr arg 16) L) as Hf. pose proof (helper_spec s l bs (Z.land arg 0xffff) L) as Ht.
  cbn [spec_step]. unfold mp1_ioctl_sync. pose proof (lk_size _ _ _ L) as Hsz. pose proof (lk_window _ _ _ L) as Hw.
  destruct (search (Z.shiftr arg 16) bs) as [[ka a]|].
  2:{ rewrite Hf. cbn [mbind option_bind]. exists s. split; [done|]. split; [by exists l|done]. }
  destruct Hf as (esi & -> & _ & -> & _ & Hesi). cbn [mbind option_bind]. destruct (search (Z.land arg 0xffff) bs) as [[k b]|].
  2:{ rewrite Ht. cbn [mbind option_bind]. exists s. split; [done|]. split; [by exists l|done]. }
  destruct Ht as (edi & -> & Hk & -> & Hbk & Hedi). cbn [mbind option_bind].
  assert (Hp : 0 < location (aget (blink_array s) edi) < BLINKS).
  { pose proof (lk_places _ _ _ L) as Hp. rewrite Forall_lookup in Hp. exact (Hp _ _ Hbk). }
  unfold node. rewrite !anth_aget by lia. cbn [mbind option_bind]. cbv zeta. rewrite cmovl_never, poke_spec by (cbn; lia).
  cbn [mbind option_bind]. eexists. split; [reflexivity|]. split; [|done]. exists l.
  refine (linked_set s l bs k edi _ _ L Hk _ _ _); [done|done|apply alen_aset].
Qed.

(** One element of the tick, and all. *)
Lemma tick_node s i : 0 <= i < alen (blink_array s) -> 0 < location (aget (blink_array s) i) < BLINKS -> 2 * BLINKS <= alen (vmem s) ->
  let b := aget (blink_array s) i in
  exists b' v', tasklet_node i s = Some (mk (aset (blink_array s) i b') (mp1_list_head s) v') /\
    next b' = next b /\ tick (bare b) (vmem s) = (bare b', v') /\ location b' = location b /\ alen v' = alen (vmem s).
Proof.
  intros Hi Hb Hw b. unfold tasklet_node, node, tick. rewrite anth_aget by done. cbn [mbind option_bind]. cbv zeta. fold b in Hb |- *.
  change (countdown (bare b)) with (countdown b). change (countdown (set_phase b (u16 (countdown b - 1)) (status b))) with (u16 (countdown b - 1)).
  cbn [countdown set_phase bare set_next status location on_length off_length on_char off_char next].
  assert (Hset : forall x y, aset (aset (blink_array s) i x) i y = aset (blink_array s) i y) by (intros; apply list_insert_insert_eq).
  destruct (jg (u16 (countdown b - 1))).
  { eexists _, _. split; [reflexivity|]. done. }
  destruct (Z.land (status b) 1 =? 0); rewrite poke_spec by (cbn; lia); cbn [mbind option_bind];
    (eexists _, _; split; [unfold set_node; cbn [blink_array mp1_list_head vmem]; rewrite Hset; reflexivity|]);
    (split; [done|]); (split; [done|]); (split; [done|]); apply alen_aset.
Qed.

Lemma tasklet_spec l : forall fuel s h, chain (blink_array s) h l -> NoDup l -> (length l <= fuel)%nat ->
  Forall (fun i => 0 < location (aget (blink_array s) i) < BLINKS) l -> 2 * BLINKS <= alen (vmem s) ->
  exists arr' v', tasklet_loop fuel h s = Some (mk arr' (mp1_list_head s) v') /\ alen arr' = alen (blink_array s) /\
    (forall j, 0 <= j -> j ∉ l -> aget arr' j = aget (blink_array s) j) /\
    (forall j, j ∈ l -> next (aget arr' j) = next (aget (blink_array s) j) /\ location (aget arr' j) = location (aget (blink_array s) j)) /\
    tick_all ((fun i => bare (aget (blink_array s) i)) <$> l) (vmem s) = ((fun i => bare (aget arr' i)) <$> l, v') /\
    alen v' = alen (vmem s).
Proof.
  induction l as [|i l IH]; intros fuel s h Hc Hnd Hf Hp Hw.
  { cbn in Hc. subst h. exists (blink_array s), (vmem s). split; [by destruct fuel, s|]. split; [done|]. split; [done|]. split; [by intros j ?%not_elem_of_nil|done]. }
  destruct Hc as (-> & Hi & Hc). apply list.NoDup_cons in Hnd as [Hni Hnd]. apply list.Forall_cons in Hp as [Hpi Hp].
  destruct fuel as [|fuel]; [cbn in Hf; lia|]. cbn [tasklet_loop].
  destruct (tick_node s i Hi Hpi Hw) as (b' & v1 & E1 & Hn1 & Ht1 & Hl1 & Hv1). rewrite E1. cbn [mbind option_bind].
  set (s1 := mk _ _ _). assert (Ei : aget (blink_array s1) i = b') by by apply aget_aset_eq.
  assert (Ej : forall j, j ∈ l -> aget (blink_array s1) j = aget (blink_array s) j).
  { intros j Hj. pose proof (chain_range _ _ _ _ Hc Hj). apply aget_aset_ne; [lia|lia|]. by intros ->. }
  unfold node. rewrite anth_aget by (unfold s1; cbn; by rewrite alen_aset). cbn [mbind option_bind]. rewrite Ei, Hn1.
  destruct (IH fuel s1 (next (aget (blink_array s) i))) as (arr' & v' & E & Ha & Hout & Hin & Ht & Hv).
  - apply (chain_ext (blink_array s)); [apply alen_aset|by intros j Hj; rewrite Ej|done].
  - done.
  - cbn in Hf; lia.
  - rewrite Forall_forall in Hp |- *. intros j Hj. rewrite Ej by done. by apply Hp.
  - cbn. by rewrite Hv1.
  - exists arr', v'. split; [exact E|]. split; [rewrite Ha; apply alen_aset|].
    assert (Ei' : aget arr' i = b') by by rewrite Hout by (done || lia). split; [|split; [|split]].
    + intros j Hj [Hne Hnj]%not_elem_of_cons. rewrite Hout by done. apply aget_aset_ne; lia.
    + intros j [->|Hj]%elem_of_cons; [by rewrite Ei'|]. rewrite <- (Ej j Hj). by apply Hin.
    + rewrite !fmap_cons. cbn [tick_all]. rewrite Ht1, Ei'. change v1 with (vmem s1).
      replace ((fun i0 => bare (aget (blink_array s) i0)) <$> l) with ((fun i0 => bare (aget (blink_array s1) i0)) <$> l); [by rewrite Ht|].
      apply list_fmap_ext. intros m j Hj%list_elem_of_lookup_2. by rewrite Ej.
    + rewrite Hv. exact Hv1.
Qed.

Lemma rtc_spec s bs : rep s bs ->
  let '(_, _, bs', v') := spec_step Tick bs (vmem s) in
  exists s', mp1_rtc_tasklet s = Some s' /\ rep s' bs' /\ vmem s' = v'.
Proof.
  intros [l L]. cbn [spec_step]. pose proof (linked_small _ _ _ L) as Hsm. pose proof (lk_blinks _ _ _ L) as Eb.
  assert (Hp : Forall (fun i => 0 < location (aget (blink_array s) i) < BLINKS) l).
  { pose proof (lk_places _ _ _ L) as Hp. rewrite Eb, Forall_fmap in Hp. exact Hp. }
  destruct (tasklet_spec l walk s (mp1_list_head s) (lk_chain _ _ _ L) (lk_once _ _ _ L) ltac:(lia) Hp (lk_window _ _ _ L))
    as (arr' & v' & E & Ha & Hout & Hin & Ht & Hv).
  rewrite Eb, Ht. eexists. split; [exact E|]. split; [|done]. exists l.
  split; cbn [blink_array mp1_list_head vmem].
  - rewrite Ha. apply L.
  - rewrite Hv. apply L.
  - apply (chain_ext (blink_array s)); [done|by intros j Hj; apply Hin|apply L].
  - apply L.
  - intros j Hj Hn. rewrite Hout by (done || lia). by apply (lk_free _ _ _ L).
  - done.
  - rewrite Forall_fmap. rewrite Forall_forall in Hp |- *. intros j Hj. cbn. destruct (Hin j Hj) as [_ ->]. by apply Hp.
Qed.

Lemma start_rep video : 2 * BLINKS <= alen video -> rep (start video) [].
Proof.
  intros Hv. exists []. split.
  - change (alen (replicate (Z.to_nat BLINKS) zeroed) = BLINKS). unfold alen. rewrite length_replicate. by apply Z2Nat.id.
  - exact Hv.
  - exact eq_refl.
  - constructor.
  - intros i Hi _. change (location (aget (replicate (Z.to_nat BLINKS) zeroed) i) = 0). by rewrite aget_replicate by lia.
  - exact eq_refl.
  - constructor.
Qed.

(** What a caller may ask for: the location 0 marks the free elements. *)
Definition op_ok (o : op) : Prop := match o with Add user => 0 < location user | _ => True end.
Definition bare_result (r : Z * option blink) : Z * option blink := (r.1, bare <$> r.2).

Lemma op_step_spec o s bs : rep s bs -> op_ok o ->
  let '(r, b, bs', v') := spec_step o bs (vmem s) in
  exists b' s', step o s = Some (r, b', s') /\ bare <$> b' = b /\ rep s' bs' /\ vmem s' = v'.
Proof.
  intros R Ho. destruct o as [user|loc|loc|arg|]; cbn [step].
  - pose proof (add_spec s bs user R Ho) as Hs. cbn [spec_step] in *. destruct (_ || _); destruct Hs as (s' & -> & R' & Hv);
      cbn [mbind option_bind]; by exists None, s'.
  - pose proof (remove_spec s bs loc R) as Hs. cbn [spec_step] in *. destruct (search loc bs) as [[k b]|]; destruct Hs as (s' & -> & R' & Hv);
      cbn [mbind option_bind]; by exists None, s'.
  - pose proof (ioctl_find_spec s bs loc R) as Hs. cbn [spec_step] in *. destruct (search loc bs) as [[k b]|];
      destruct Hs as (_ & _ & b' & -> & Hb); cbn [mbind option_bind]; by exists b', s.
  - pose proof (sync_spec s bs arg R) as Hs. cbn [spec_step] in *. destruct (search (Z.shiftr arg 16) bs) as [[ka a]|];
      [destruct (search (Z.land arg 0xffff) bs) as [[k b]|]|]; destruct Hs as (s' & -> & R' & Hv); cbn [mbind option_bind]; by exists None, s'.
  - pose proof (rtc_spec s bs R) as Hs. cbn [spec_step] in *. destruct (tick_all bs (vmem s)) as [bs' v'];
      destruct Hs as (s' & -> & R' & Hv); cbn [mbind option_bind]; by exists None, s'.
Qed.

(** *** The phase of a blink *)

Definition tick_blink (b : blink) : blink :=
  let b := set_phase b (u16 (countdown b - 1)) (status b) in
  if jg (countdown b) then b
  else if Z.land (status b) 1 =? 0 then set_phase b (on_length b) (Z.lxor (status b) 1) else set_phase b (off_length b) (Z.lxor (status b) 1).
(** The character that a tick shows, if it shows one. *)
Definition tick_char (b : blink) : option Z :=
  if jg (u16 (countdown b - 1)) then None else if Z.land (status b) 1 =? 0 then Some (on_char b) else Some (off_char b).
Lemma tick_split b v : tick b v = (tick_blink b, match tick_char b with Some c => aset v (2 * location b) c | None => v end).
Proof.
  unfold tick, tick_blink, tick_char. cbv zeta. cbn [countdown set_phase status]. destruct (jg _); [done|]. by destruct (_ =? 0).
Qed.
Lemma tick_location b : location (tick_blink b) = location b.
Proof. unfold tick_blink. cbv zeta. destruct (jg _); [done|]. by destruct (_ =? 0). Qed.

Lemma tick_all_spec bs : forall v, Forall (fun b => 0 < location b < BLINKS) bs -> NoDup (location <$> bs) -> 2 * BLINKS <= alen v ->
  exists v', tick_all bs v = (tick_blink <$> bs, v') /\ alen v' = alen v /\
    (forall b, b ∈ bs -> aget v' (2 * location b) = default (aget v (2 * location b)) (tick_char b)) /\
    (forall x, 0 <= x -> (forall b, b ∈ bs -> x <> 2 * location b) -> aget v' x = aget v x).
Proof.
  induction bs as [|b bs IH]; intros v Hp Hnd Hv.
  { exists v. split; [done|]. split; [done|]. split; [by intros b ?%not_elem_of_nil|done]. }
  apply list.Forall_cons in Hp as [Hb Hp]. rewrite fmap_cons in Hnd. apply list.NoDup_cons in Hnd as [Hn Hnd]. cbn [tick_all]. rewrite tick_split.
  set (v1 := match tick_char b with Some c => aset v (2 * location b) c | None => v end).
  assert (Ha1 : alen v1 = alen v) by (unfold v1; destruct (tick_char b); [apply alen_aset|done]).
  assert (Hb1 : aget v1 (2 * location b) = default (aget v (2 * location b)) (tick_char b)).
  { unfold v1. destruct (tick_char b); [cbn; apply aget_aset_eq; lia|done]. }
  assert (Ho1 : forall x, 0 <= x -> x <> 2 * location b -> aget v1 x = aget v x).
  { intros x Hx Hne. unfold v1. destruct (tick_char b); [apply aget_aset_ne; lia|done]. }
  destruct (IH v1 Hp Hnd ltac:(lia)) as (v' & -> & Ha & Hin & Hout). exists v'. split; [done|]. split; [lia|].
  assert (Hne : forall b', b' ∈ bs -> location b <> location b') by (intros b' Hb' E; apply Hn; rewrite E; by apply list_elem_of_fmap_2).
  split.
  - intros b' [->|Hb']%elem_of_cons.
    + rewrite Hout; [done|lia|]. intros b' Hb'. pose proof (Hne b' Hb'). lia.
    + rewrite Hin by done. f_equal. rewrite Forall_forall in Hp. specialize (Hp b' Hb'). specialize (Hne b' Hb'). apply Ho1; lia.
  - intros x Hx Hall. rewrite Hout; [|done|intros b' Hb'; apply Hall; by right]. apply Ho1; [done|]. apply Hall. by left.
Qed.

(** The blink [b], just added, after [n] ticks, and the character it shows then. *)
Definition at_tick (n : Z) (b : blink) : blink :=
  let m := n mod (on_length b + off_length b) in
  if m <? on_length b then set_phase b (on_length b - m) 1 else set_phase b (on_length b + off_length b - m) 0.
Definition char_at (n : Z) (b : blink) : Z :=
  if n mod (on_length b + off_length b) <? on_length b then on_char b else off_char b.
(** A blink as it is added, with times that a signed 16-bit counter can count down. *)
Definition just_added (b : blink) : Prop :=
  0 < on_length b < 2 ^ 15 /\ 0 < off_length b < 2 ^ 15 /\ countdown b = on_length b /\ status b = 1.

Lemma at_tick_0 b : just_added b -> at_tick 0 b = b.
Proof.
  intros (Ha & Ho & Hc & Hs). unfold at_tick. rewrite Z.mod_0_l by lia. rewrite (proj2 (Z.ltb_lt _ _)) by lia.
  destruct b. cbn in *. rewrite Z.sub_0_r. by subst.
Qed.
Lemma at_tick_location n b : location (at_tick n b) = location b.
Proof. unfold at_tick. cbv zeta. by destruct (_ <? _). Qed.

Lemma next_mod n m k : 0 <= n -> 1 < k -> m = n mod k -> (n + 1) mod k = if m + 1 =? k then 0 else m + 1.
Proof.
  intros Hn Hk ->. pose proof (Z.mod_pos_bound n k ltac:(lia)). rewrite <- Z.add_mod_idemp_l by lia.
  destruct (Z.eqb_spec (n mod k + 1) k) as [->|]; [apply Z.mod_same; lia|apply Z.mod_small; lia].
Qed.

Lemma tick_phase n b : just_added b -> 0 <= n ->
  tick_blink (at_tick n b) = at_tick (n + 1) b /\ default (char_at n b) (tick_char (at_tick n b)) = char_at (n + 1) b.
Proof.
  intros (Ha & Ho & Hc & Hs) Hn. set (k := on_length b + off_length b). pose proof (Z.mod_pos_bound n k ltac:(lia)) as Hm.
  change (2 ^ 15) with 32768 in *. unfold at_tick, char_at. cbv zeta. fold k. rewrite (next_mod n (n mod k) k) by (done || lia).
  assert (Hu : forall c, 0 < c < 32768 -> u16 (c - 1) = c - 1) by (intros c Hcc; apply u16_small; lia).
  assert (Hj : forall c, 0 < c < 32768 -> jg (c - 1) = negb (c =? 1)).
  { intros c Hcc. unfold jg. change (2 ^ 15) with 32768. rewrite (proj2 (Z.ltb_lt (c - 1) _)) by lia. rewrite andb_true_r.
    destruct (Z.eqb_spec c 1), (Z.ltb_spec 0 (c - 1)); try done; lia. }
  destruct (Z.ltb_spec (n mod k) (on_length b)) as [Hlt|Hge].
  - unfold tick_blink, tick_char. cbn [countdown set_phase status on_char off_char on_length off_length]. rewrite Hu, Hj by lia.
    rewrite (proj2 (Z.eqb_neq (n mod k + 1) k)) by lia. destruct (Z.eqb_spec (on_length b - n mod k) 1) as [E|E]; cbn [negb].
    + rewrite (proj2 (Z.ltb_ge (n mod k + 1) _)) by lia. split; [|done]. cbn. unfold set_phase. cbn. f_equal. lia.
    + rewrite (proj2 (Z.ltb_lt (n mod k + 1) _)) by lia. split; [|done]. unfold set_phase. cbn. f_equal. lia.
  - unfold tick_blink, tick_char. cbn [countdown set_phase status on_char off_char on_length off_length]. rewrite Hu, Hj by lia.
    fold k. destruct (Z.eqb_spec (k - n mod k) 1) as [E|E]; cbn [negb].
    + rewrite (proj2 (Z.eqb_eq (n mod k + 1) k)) by lia. rewrite (proj2 (Z.ltb_lt 0 _)) by lia. split; [|done]. unfold set_phase. cbn. f_equal. lia.
    + rewrite (proj2 (Z.eqb_neq (n mod k + 1) k)) by lia. rewrite (proj2 (Z.ltb_ge (n mod k + 1) _)) by lia.
      split; [|done]. unfold set_phase. cbn. f_equal. lia.
Qed.

(** [n] ticks of a list of blinks that were just added. *)
Lemma ticks_spec n s bs : rep s bs -> NoDup (location <$> bs) -> Forall just_added bs ->
  (forall b, b ∈ bs -> aget (vmem s) (2 * location b) = on_char b) ->
  exists rs s', run (replicate n Tick) s = Some (rs, s') /\ rep s' (at_tick (Z.of_nat n) <$> bs) /\ alen (vmem s') = alen (vmem s) /\
    (forall b, b ∈ bs -> aget (vmem s') (2 * location b) = char_at (Z.of_nat n) b) /\
    (forall x, 0 <= x -> (forall b, b ∈ bs -> x <> 2 * location b) -> aget (vmem s') x = aget (vmem s) x).
Proof.
  intros R Hnd Hj Hc.
  assert (Hgen : forall n (k : Z) s, 0 <= k -> rep s (at_tick k <$> bs) -> (forall b, b ∈ bs -> aget (vmem s) (2 * location b) = char_at k b) ->
    exists rs s', run (replicate n Tick) s = Some (rs, s') /\ rep s' (at_tick (k + Z.of_nat n) <$> bs) /\ alen (vmem s') = alen (vmem s) /\
    (forall b, b ∈ bs -> aget (vmem s') (2 * location b) = char_at (k + Z.of_nat n) b) /\
    (forall x, 0 <= x -> (forall b, b ∈ bs -> x <> 2 * location b) -> aget (vmem s') x = aget (vmem s) x)).
  { clear n s R Hc. induction n as [|n IH]; intros k s Hk R Hc.
    - exists [], s. rewrite Z.add_0_r. done.
    - pose proof (rtc_spec s _ R) as Ht. cbn [spec_step] in Ht. pose proof R as [l L].
      destruct (tick_all_spec (at_tick k <$> bs) (vmem s)) as (v1 & E & Ha & Hin & Hout).
      + apply L.
      + rewrite <- list_fmap_compose. rewrite (list_fmap_ext _ location); [done|]. intros i b _. apply at_tick_location.
      + apply L.
      + rewrite E in Ht. destruct Ht as (s1 & E1 & R1 & Hv1). rewrite <- list_fmap_compose in R1.
        assert (Et : tick_blink ∘ at_tick k <$> bs = at_tick (k + 1) <$> bs).
        { apply list_fmap_ext. intros i b Hb. apply tick_phase; [|done]. rewrite Forall_lookup in Hj. by eapply Hj. }
        rewrite Et in R1. destruct (IH (k + 1) s1 ltac:(lia) R1) as (rs & s' & E' & R' & Ha' & Hin' & Hout').
        * intros b Hb. rewrite Forall_forall in Hj. rewrite Hv1, <- (at_tick_location k b), Hin by by apply list_elem_of_fmap_2.
          rewrite at_tick_location, Hc by done. by apply tick_phase; [apply Hj|].
        * eexists _, s'. cbn [replicate run step]. rewrite E1. cbn [mbind option_bind]. rewrite E'. cbn [mbind option_bind]. split; [reflexivity|].
          replace (k + Z.of_nat (S n)) with (k + 1 + Z.of_nat n) by lia. split; [done|]. split; [by rewrite Ha', Hv1|]. split; [done|].
          intros x Hx Hne. rewrite Hout', Hv1 by done. apply Hout; [done|]. intros b (b' & -> & Hb')%list_elem_of_fmap. rewrite at_tick_location. by apply Hne. }
  destruct (Hgen n 0 s) as (rs & s' & Hrest); [done| | |by exists rs, s'].
  - replace (at_tick 0 <$> bs) with bs; [done|]. rewrite <- (list_fmap_id bs) at 1. apply list_fmap_ext. intros i b Hb. symmetry. apply at_tick_0.
    rewrite Forall_lookup in Hj. by eapply Hj.
  - intros b Hb. rewrite Hc by done. rewrite Forall_forall in Hj. destruct (Hj b Hb) as (Ha & Ho & _). unfold char_at.
    rewrite Z.mod_0_l by lia. by rewrite (proj2 (Z.ltb_lt _ _)) by lia.
Qed.

(** ** Reading the frames *)

(** The lines of a text, put together again. *)
Fixpoint join (ls : list (list Z)) : list Z :=
  match ls with [] => [] | [l] => l | l :: ls => l ++ 10 :: join ls end.
Lemma join_cons l ls : ls <> [] -> join (l :: ls) = l ++ 10 :: join ls.
Proof. by destruct ls. Qed.
Lemma join_all_lines text : join (Grep.all_lines text) = text.
Proof.
  unfold Grep.all_lines. induction text as [|c text IH]; [done|]. cbn [Grep.scan]. destruct (Grep.scan text) as [ls tl]. cbn [fst snd] in *.
  destruct (Z.eqb_spec c 10) as [->|]; cbn [fst snd app].
  - rewrite join_cons by (by destruct ls). by rewrite IH.
  - destruct ls as [|l ls]; cbn [fst snd app] in *; [by rewrite <- IH|].
    rewrite join_cons in IH |- * by (by destruct ls). cbn [app]. by rewrite IH.
Qed.
Lemma all_lines_whole text : Forall (fun l => 10 ∉ l) (Grep.all_lines text).
Proof.
  unfold Grep.all_lines. induction text as [|c text IH]; [repeat constructor; apply not_elem_of_nil|]. cbn [Grep.scan].
  destruct (Grep.scan text) as [ls tl]. cbn [fst snd] in *. destruct (Z.eqb_spec c 10) as [->|Hc]; cbn [fst snd app].
  - constructor; [apply not_elem_of_nil|done].
  - destruct ls as [|l ls]; cbn [fst snd app] in *; apply list.Forall_cons in IH as [Hl IH]; (constructor; [|done]);
      by apply not_elem_of_cons.
Qed.

(** The blink for a place, if one of the two characters is visible. *)
Definition visible (c0 c1 : Z) : bool := negb (c0 =? 32) && negb (c0 =? 10) || negb (c1 =? 32) && negb (c1 =? 10).
Definition shape (c0 c1 row col : Z) : blink :=
  mk_blink (row * 80 + col + 40) (if c0 =? 10 then 32 else c0) (if c1 =? 10 then 32 else c1) 15 15 15 1 None.
Definition first_char (l : list Z) : Z := default 10 (head l).
Fixpoint row_blinks (n : nat) (row col : Z) (l0 l1 : list Z) : list blink :=
  match n with
  | O => []
  | S n =>
      (if visible (first_char l0) (first_char l1) then [shape (first_char l0) (first_char l1) row col] else []) ++
      row_blinks n row (col + 1) (tail l0) (tail l1)
  end.
Definition line_blinks (row : Z) (l0 l1 : list Z) : list blink := row_blinks (max (length l0) (length l1)) row 0 l0 l1.
Fixpoint frame_blinks (row : Z) (ls0 ls1 : list (list Z)) : list blink :=
  match ls0, ls1 with
  | l0 :: ls0, l1 :: ls1 => line_blinks row l0 l1 ++ frame_blinks (row + 1) ls0 ls1
  | _, _ => []
  end.

Lemma row_blinks_elem b n : forall row col l0 l1, b ∈ row_blinks n row col l0 l1 <->
  exists j : nat, (j < n)%nat /\ let c0 := default 10 (l0 !! j) in let c1 := default 10 (l1 !! j) in
    visible c0 c1 = true /\ b = shape c0 c1 row (col + Z.of_nat j).
Proof.
  induction n as [|n IH]; intros row col l0 l1; cbn [row_blinks].
  { split; [by intros ?%not_elem_of_nil|]. intros (j & Hj & _). lia. }
  assert (Hh : forall l : list Z, default 10 (l !! 0%nat) = first_char l) by by intros [|].
  assert (Ht : forall (l : list Z) j, tail l !! j = l !! S j) by by intros [|].
  rewrite elem_of_app, IH. split.
  - intros [Hb|(j & Hj & Hb)].
    + destruct (visible (first_char l0) (first_char l1)) eqn:Ev; [|by apply not_elem_of_nil in Hb]. apply list_elem_of_singleton in Hb.
      exists 0%nat. split; [lia|]. cbv zeta. rewrite !Hh, Z.add_0_r. done.
    + exists (S j). split; [lia|]. cbv zeta in *. rewrite !Ht in Hb. replace (col + Z.of_nat (S j)) with (col + 1 + Z.of_nat j) by lia. done.
  - intros (j & Hj & Hb). cbv zeta in *. destruct j as [|j].
    + left. rewrite !Hh, Z.add_0_r in Hb. destruct Hb as [-> ->]. by left.
    + right. exists j. split; [lia|]. rewrite !Ht. replace (col + 1 + Z.of_nat j) with (col + Z.of_nat (S j)) by lia. done.
Qed.
Lemma frame_blinks_elem b : forall row ls0 ls1, b ∈ frame_blinks row ls0 ls1 <->
  exists (i j : nat) l0 l1, ls0 !! i = Some l0 /\ ls1 !! i = Some l1 /\ (j < max (length l0) (length l1))%nat /\
    let c0 := default 10 (l0 !! j) in let c1 := default 10 (l1 !! j) in
    visible c0 c1 = true /\ b = shape c0 c1 (row + Z.of_nat i) (Z.of_nat j).
Proof.
  intros row ls0. revert row. induction ls0 as [|l0 ls0 IH]; intros row ls1.
  { cbn. split; [by intros ?%not_elem_of_nil|]. by intros (i & j & l0 & l1 & E & _). }
  destruct ls1 as [|l1 ls1]; cbn [frame_blinks].
  { split; [by intros ?%not_elem_of_nil|]. by intros (i & j & l0' & l1 & _ & E & _). }
  rewrite elem_of_app, IH. unfold line_blinks. rewrite row_blinks_elem. split.
  - intros [(j & Hj & Hb)|(i & j & l0' & l1' & E0 & E1 & Hj & Hb)].
    + exists 0%nat, j, l0, l1. rewrite Z.add_0_r. rewrite Z.add_0_l in Hb. done.
    + exists (S i), j, l0', l1'. replace (row + Z.of_nat (S i)) with (row + 1 + Z.of_nat i) by lia. done.
  - intros (i & j & l0' & l1' & E0 & E1 & Hj & Hb). destruct i as [|i].
    + left. injection E0 as <-. injection E1 as <-. exists j. rewrite Z.add_0_r in Hb. rewrite Z.add_0_l. done.
    + right. exists i, j, l0', l1'. replace (row + 1 + Z.of_nat i) with (row + Z.of_nat (S i)) by lia. done.
Qed.

(** The list after some of these blinks were added, the places below [lim]. *)
Record filled (f : t) (bs : list blink) (video : list Z) (lim : Z) : Prop := {
  fi_rep : rep f bs;
  fi_once : NoDup (location <$> bs);
  fi_below : Forall (fun b => location b < lim) bs;
  fi_count : alen bs <= lim;
  fi_added : Forall just_added bs;
  fi_shown b : b ∈ bs -> aget (vmem f) (2 * location b) = on_char b;
  fi_other x : 0 <= x -> (forall b, b ∈ bs -> x <> 2 * location b) -> aget (vmem f) x = aget video x }.

Lemma filled_lim f bs video lim lim' : lim <= lim' -> filled f bs video lim -> filled f bs video lim'.
Proof.
  intros Hl [R O B Ct A Sh Ot]. split; try done; [|lia]. eapply List.Forall_impl; [|exact B]. cbn. lia.
Qed.

Lemma filled_add f bs video row col c0 c1 user : 0 <= row -> 0 <= col -> row * 80 + col + 40 < BLINKS ->
  filled f bs video (row * 80 + col + 40) ->
  exists f', mp1_ioctl_add (blink_of c0 c1 row col user) f = Some (0, f') /\
    filled f' (shape c0 c1 row col :: bs) video (row * 80 + (col + 1) + 40).
Proof.
  intros Hr Hcl Hlim [R O B Ct A Sh Ot]. set (u := blink_of c0 c1 row col user).
  assert (Hu : location u = row * 80 + col + 40) by (cbn; apply u16_small; unfold BLINKS in Hlim; lia).
  pose proof (add_spec f bs u R ltac:(lia)) as Hs. cbn [spec_step] in Hs. rewrite Hu in Hs.
  rewrite (proj2 (Z.leb_gt _ _)), (proj2 (Z.leb_gt _ _)) in Hs by lia. destruct Hs as (f' & E & R' & Hv). cbn [orb] in *.
  assert (Eb : bare (set_phase u (on_length u) 1) = shape c0 c1 row col).
  { unfold bare, set_next, set_phase, shape. cbn [location on_char off_char on_length off_length countdown status next].
    rewrite Hu. done. }
  rewrite Eb in R'. exists f'. split; [done|]. set (x := row * 80 + col + 40) in *. pose proof R as [l L]. pose proof (lk_window _ _ _ L) as Hw.
  assert (Hne : forall b, b ∈ bs -> location b <> x).
  { intros b Hb. rewrite Forall_forall in B. specialize (B b Hb). lia. }
  assert (Hp : forall b, b ∈ bs -> 0 < location b) by (intros b Hb; pose proof (lk_places _ _ _ L) as Hp; rewrite Forall_forall in Hp; by apply Hp).
  split.
  - done.
  - rewrite fmap_cons. constructor; [|done]. intros (b & E' & Hb)%list_elem_of_fmap. by apply (Hne b Hb).
  - constructor; [cbn; lia|]. eapply List.Forall_impl; [|exact B]. cbn. lia.
  - unfold alen in *. cbn [length]. lia.
  - constructor; [|done]. by repeat split.
  - intros b [->|Hb]%elem_of_cons; rewrite Hv.
    + cbn [location shape]. fold x. rewrite aget_aset_eq by lia. done.
    + specialize (Hne b Hb). specialize (Hp b Hb). rewrite aget_aset_ne by lia. by apply Sh.
  - intros y Hy Hall. rewrite Hv, aget_aset_ne; [|lia|lia|].
    + apply Ot; [done|]. intros b Hb. apply Hall. by right.
    + specialize (Hall (shape c0 c1 row col) ltac:(by left)). cbn [location shape] in Hall. fold x in Hall. lia.
Qed.

(** *** On the system *)

Section reading.
Context {S : Type} `{Sys S, ProcSys S, !FileView S, !FileSys S}.

(** What follows a line: a new line and more text, or the end. *)
Definition rest_of (t : option (list Z)) : list Z := match t with Some r => 10 :: r | None => [] end.
Definition eof_of (t : option (list Z)) : Z := match t with Some _ => 0 | None => 1 end.

(** The file [fd] in the middle of a row: [w] is what is left of its line, [None] when the
    row is over for it; [t] is what follows the line. *)
Definition reading (s : S) (fd : Z) (text : list Z) (w t : option (list Z)) (c eof : Z) : Prop :=
  exists off, is_open s fd text off /\ 0 <= off <= alen text /\
    match w with
    | Some l => c <> 10 /\ eof = 0 /\ 10 ∉ l /\ drop (Z.to_nat off) text = l ++ rest_of t
    | None => c = 10 /\ eof = eof_of t /\ drop (Z.to_nat off) text = default [] t
    end.
Definition ahead (w : option (list Z)) : option (list Z) := match w with Some (_ :: l) => Some l | _ => None end.
Definition line_of (w : option (list Z)) : list Z := default [] w.

Lemma reading_frame s s' fd' fd text w t c eof : frame fd' s s' -> fd' <> fd -> reading s fd text w t c eof -> reading s' fd text w t c eof.
Proof. intros F Hne (off & Ho & Hr & Hw). exists off. split; [|done]. by apply F. Qed.

Lemma drop_more (text : list Z) off x r : 0 <= off <= alen text -> drop (Z.to_nat off) text = x :: r ->
  off + 1 <= alen text /\ drop (Z.to_nat (off + 1)) text = r.
Proof.
  intros Ho E. pose proof (f_equal length E) as El. rewrite length_drop in El. cbn in El. split; [unfold alen in *; lia|].
  replace (Z.to_nat (off + 1)) with (Z.to_nat off + 1)%nat by lia. rewrite <- drop_drop, E. done.
Qed.

Lemma frame_char_spec s fd text w t c eof out : reading s fd text w t c eof -> terminal s out ->
  exists s', frame_char fd c eof s = Done (first_char (line_of w), match ahead w with Some _ => eof | None => eof_of t end) s' /\
    reading s' fd text (ahead w) t (first_char (line_of w)) (match ahead w with Some _ => eof | None => eof_of t end) /\
    terminal s' out /\ frame fd s s'.
Proof.
  intros (off & Ho & Hr & Hw) Ht. unfold frame_char. destruct w as [l|].
  2:{ destruct Hw as (-> & -> & Hd). rewrite Z.eqb_refl. cbn [negb]. exists s. split; [done|]. split; [by exists off|]. split; [done|apply frame_refl]. }
  destruct Hw as (Hc & -> & Hl & Hd). rewrite (proj2 (Z.eqb_neq _ _) Hc). cbn [negb].
  destruct (read_spec s fd text off 1 [c] out Ho Ht Hr) as (s' & E & Hg & Ho' & Ht' & F & _); [lia|done|zdiv|].
  set (got := take _ _) in *. exists s'. rewrite (prog_bind_done _ _ _ _ _ E). cbn beta iota.
  destruct (drop (Z.to_nat off) text) as [|x r] eqn:Ed.
  - assert (El : l = [] /\ t = None) by by destruct l, t. destruct El as [-> ->].
    assert (Egot : got = []) by (unfold got; by rewrite take_nil). rewrite Egot in *. cbn [app length drop].
    rewrite (lift_bind _ _ _ c) by done. cbn. split; [done|]. split; [|done]. exists off. change (alen []) with 0 in Ho'. rewrite Z.add_0_r in Ho'.
    split; [done|]. split; [done|]. by rewrite Ed.
  - destruct (drop_more _ _ _ _ Hr Ed) as [Hr' Ed'].
    assert (Egot : got = [x]) by (unfold got; by replace (Z.to_nat (Z.min 1 (alen text - off))) with 1%nat by lia). rewrite Egot in *.
    cbn [app length drop]. rewrite (lift_bind _ _ _ x) by done. change (alen [x]) with 1 in *. change (1 =? 0) with false. cbn iota.
    destruct l as [|y l]; cbn [app rest_of line_of default ahead first_char head] in *.
    + destruct t as [r'|]; [|done]. injection Hd as -> ->. cbn. split; [done|]. split; [|done]. exists (off + 1). split; [done|]. split; [lia|]. done.
    + injection Hd as -> ->. split; [done|]. split; [|done]. apply not_elem_of_cons in Hl as [Hy Hl]. exists (off + 1).
      split; [done|]. split; [lia|]. split; [exact (not_eq_sym Hy)|done].
Qed.

Lemma line_ahead w : line_of (ahead w) = tail (line_of w).
Proof. by destruct w as [[|x l]|]. Qed.
Lemma first_char_ne w c eof s fd text t : reading s fd text w t c eof -> line_of w <> [] -> first_char (line_of w) <> 10.
Proof.
  intros (off & _ & _ & Hw) Hne. destruct w as [[|x l]|]; [done| |done]. destruct Hw as (_ & _ & Hl & _).
  apply not_elem_of_cons in Hl as [Hx _]. exact (not_eq_sym Hx).
Qed.

Lemma row_loop_spec video fd0 fd1 text0 text1 t0 t1 row out : fd0 <> fd1 -> 0 <= row ->
  forall n fuel col w0 w1 c0 c1 eof0 eof1 user f bs s,
  n = max (length (line_of w0)) (length (line_of w1)) -> (n < fuel)%nat -> 0 <= col -> row * 80 + col + 40 + Z.of_nat n <= BLINKS ->
  reading s fd0 text0 w0 t0 c0 eof0 -> reading s fd1 text1 w1 t1 c1 eof1 -> terminal s out ->
  filled f bs video (row * 80 + col + 40) ->
  exists user' f' s', row_loop fuel fd0 fd1 row col c0 c1 eof0 eof1 user f s = Done (eof_of t0, eof_of t1, user', f') s' /\
    reading s' fd0 text0 None t0 10 (eof_of t0) /\ reading s' fd1 text1 None t1 10 (eof_of t1) /\ terminal s' out /\
    filled f' (reverse (row_blinks n row col (line_of w0) (line_of w1)) ++ bs) video (row * 80 + col + 40 + Z.of_nat n).
Proof.
  intros Hne Hrow. induction n as [|n IH]; intros fuel col w0 w1 c0 c1 eof0 eof1 user f bs s Hn Hf Hcol Hlim R0 R1 T F;
    (destruct fuel as [|fuel]; [lia|]); cbn [row_loop];
    destruct (frame_char_spec s fd0 text0 w0 t0 c0 eof0 out R0 T) as (s1 & E1 & R0' & T1 & F1);
    rewrite (prog_bind_done _ _ _ _ _ E1); cbn beta iota;
    pose proof (reading_frame _ _ _ _ _ _ _ _ _ F1 Hne R1) as R1a;
    destruct (frame_char_spec s1 fd1 text1 w1 t1 c1 eof1 out R1a T1) as (s2 & E2 & R1' & T2 & F2);
    rewrite (prog_bind_done _ _ _ _ _ E2); cbn beta iota;
    pose proof (reading_frame _ _ _ _ _ _ _ _ _ F2 (not_eq_sym Hne) R0') as R0a.
  - assert (Ew : line_of w0 = [] /\ line_of w1 = []) by (destruct (line_of w0), (line_of w1); cbn in Hn; try lia; done).
    destruct Ew as [Ew0 Ew1]. rewrite Ew0, Ew1 in *. assert (Ea : ahead w0 = None /\ ahead w1 = None) by (by destruct w0 as [[|]|], w1 as [[|]|]).
    destruct Ea as [Ea0 Ea1]. rewrite Ea0, Ea1 in *. change (first_char []) with 10 in *. cbn [Z.eqb Pos.eqb andb].
    exists user, f, s2. split; [done|]. split; [done|]. split; [done|]. split; [done|]. rewrite Z.add_0_r. exact F.
  - assert (Hstop : (first_char (line_of w0) =? 10) && (first_char (line_of w1) =? 10) = false).
    { apply andb_false_iff. destruct (decide (line_of w0 = [])) as [E0|E0].
      - right. apply Z.eqb_neq. eapply first_char_ne; [exact R1|]. intros E1'. rewrite E0, E1' in Hn. cbn in Hn. lia.
      - left. apply Z.eqb_neq. by eapply first_char_ne. }
    rewrite Hstop. cbv zeta. fold (visible (first_char (line_of w0)) (first_char (line_of w1))).
    set (k0 := first_char (line_of w0)) in *. set (k1 := first_char (line_of w1)) in *.
    assert (Hn' : n = max (length (line_of (ahead w0))) (length (line_of (ahead w1)))).
    { rewrite !line_ahead. destruct (line_of w0), (line_of w1); cbn in *; lia. }
    assert (Hnext : exists user1 f1, (f ← (if visible k0 k1 then '(_, f) ← lift (mp1_ioctl_add (if visible k0 k1 then blink_of k0 k1 row col user else user) f); mret f else mret f);
        row_loop fuel fd0 fd1 row (col + 1) k0 k1 (match ahead w0 with Some _ => eof0 | None => eof_of t0 end)
          (match ahead w1 with Some _ => eof1 | None => eof_of t1 end) (if visible k0 k1 then blink_of k0 k1 row col user else user) f) s2 =
        row_loop fuel fd0 fd1 row (col + 1) k0 k1 (match ahead w0 with Some _ => eof0 | None => eof_of t0 end)
          (match ahead w1 with Some _ => eof1 | None => eof_of t1 end) user1 f1 s2 /\
        filled f1 (reverse (if visible k0 k1 then [shape k0 k1 row col] else []) ++ bs) video (row * 80 + (col + 1) + 40)).
    { destruct (visible k0 k1).
      - destruct (filled_add f bs video row col k0 k1 user Hrow Hcol ltac:(lia) F) as (f1 & E & F').
        exists (blink_of k0 k1 row col user), f1. split; [|exact F']. unfold mbind at 1, prog_bind at 1. by rewrite (lift_bind _ _ _ _ E).
      - exists user, f. split; [done|]. cbn [reverse rev_append app]. apply (filled_lim _ _ _ (row * 80 + col + 40)); [lia|exact F]. }
    destruct Hnext as (user1 & f1 & -> & F').
    destruct (IH fuel (col + 1) (ahead w0) (ahead w1) k0 k1 _ _ user1 f1 _ s2 Hn' ltac:(lia) ltac:(lia) ltac:(lia) R0a R1' T2 F')
      as (user' & f' & s' & E & Q0 & Q1 & T' & F'').
    exists user', f', s'. split; [exact E|]. split; [done|]. split; [done|]. split; [done|]. cbn [row_blinks]. fold k0 k1.
    rewrite reverse_app, <- app_assoc, <- !line_ahead. replace (row * 80 + col + 40 + Z.of_nat (Datatypes.S n)) with (row * 80 + (col + 1) + 40 + Z.of_nat n) by lia.
    exact F''.
Qed.

Definition after_line (ls : list (list Z)) : option (list Z) := match ls with [] => None | _ => Some (join ls) end.
Lemma join_after l ls : join (l :: ls) = l ++ rest_of (after_line ls).
Proof. destruct ls; [by rewrite app_nil_r|done]. Qed.

(** Before a row the file is at the beginning of the line [l], which [ls] follow. *)
Lemma reading_line s fd text l ls : reading s fd text None (Some (join (l :: ls))) 10 0 -> 10 ∉ l ->
  reading s fd text (Some l) (after_line ls) 48 0.
Proof. intros (off & Ho & Hr & _ & _ & Hd) Hl. exists off. rewrite <- join_after. done. Qed.

Lemma frame_close_spec s fd text w t c eof out : reading s fd text w t c eof -> 1 < fd -> terminal s out ->
  exists s', sys_close fd s = Done 0 s' /\ terminal s' out /\ frame fd s s'.
Proof.
  intros (off & Ho & _) Hfd T. destruct (fs_close s fd text off out Ho Hfd T) as (s' & E & T' & F & _). by exists s'.
Qed.

(** The frames of two texts of as many lines, in the right half of the screen. *)
Definition fits (rows : Z) (ls : list (list Z)) : Prop := alen ls <= rows /\ Forall (fun l => 10 ∉ l /\ alen l <= 40) ls.

Lemma row_step video fd0 fd1 text0 text1 out l0 l1 ls0 ls1 fuel row user f bs s : fd0 <> fd1 -> 0 <= row <= 24 -> (41 <= fuel)%nat ->
  alen l0 <= 40 -> alen l1 <= 40 ->
  reading s fd0 text0 (Some l0) (after_line ls0) 48 0 -> reading s fd1 text1 (Some l1) (after_line ls1) 48 0 -> terminal s out ->
  filled f bs video (row * 80 + 40) ->
  exists user' f' s', row_loop fuel fd0 fd1 row 0 48 48 0 0 user f s = Done (eof_of (after_line ls0), eof_of (after_line ls1), user', f') s' /\
    reading s' fd0 text0 None (after_line ls0) 10 (eof_of (after_line ls0)) /\
    reading s' fd1 text1 None (after_line ls1) 10 (eof_of (after_line ls1)) /\ terminal s' out /\
    filled f' (reverse (line_blinks row l0 l1) ++ bs) video ((row + 1) * 80 + 40).
Proof.
  intros Hne Hrow Hfuel Ha0 Ha1 R0 R1 T F. set (n := max (length l0) (length l1)). assert (Hn : (n <= 40)%nat) by (unfold n, alen in *; lia).
  rewrite <- (Z.add_0_r (row * 80)) in F.
  destruct (row_loop_spec video fd0 fd1 text0 text1 (after_line ls0) (after_line ls1) row out Hne ltac:(lia) n fuel 0 (Some l0) (Some l1) 48 48 0 0
    user f bs s eq_refl ltac:(lia) ltac:(lia) ltac:(unfold BLINKS; lia) R0 R1 T F) as (user' & f' & s' & E & Q0 & Q1 & T' & F').
  exists user', f', s'. split; [done|]. split; [done|]. split; [done|]. split; [done|]. eapply filled_lim; [|exact F']. lia.
Qed.

Lemma rows_loop_spec video fd0 fd1 text0 text1 out : fd0 <> fd1 -> 1 < fd0 -> 1 < fd1 ->
  forall ls0 ls1 l0 l1 fuel row user f bs s, length ls0 = length ls1 -> fits (25 - row) (l0 :: ls0) -> fits (25 - row) (l1 :: ls1) ->
  0 <= row -> (length ls0 + 43 <= fuel)%nat ->
  reading s fd0 text0 (Some l0) (after_line ls0) 48 0 -> reading s fd1 text1 (Some l1) (after_line ls1) 48 0 -> terminal s out ->
  filled f bs video (row * 80 + 40) ->
  exists f' s', rows_loop fuel fd0 fd1 row 48 48 0 0 user f s = Done f' s' /\ terminal s' out /\
    filled f' (reverse (frame_blinks row (l0 :: ls0) (l1 :: ls1)) ++ bs) video ((row + alen (l0 :: ls0)) * 80 + 40).
Proof.
  intros Hne Hfd0 Hfd1 ls0. induction ls0 as [|l0' ls0 IH]; intros ls1 l0 l1 fuel row user f bs s Hlen [Ha0 Hl0] [Ha1 Hl1] Hrow Hfuel R0 R1 T F;
    (destruct fuel as [|fuel]; [lia|]); cbn [rows_loop]; change (negb ((0 =? 0) || (0 =? 0))) with false; cbn iota;
    apply list.Forall_cons in Hl0 as [[Hn0 Hs0] Hl0]; apply list.Forall_cons in Hl1 as [[Hn1 Hs1] Hl1];
    assert (Hrow24 : row <= 24) by (unfold alen in *; cbn [length] in *; lia);
    destruct (row_step _ _ _ _ _ out l0 l1 _ ls1 fuel row user f bs s Hne ltac:(lia) ltac:(lia) Hs0 Hs1 R0 R1 T F)
      as (user' & f1 & s1 & E & Q0 & Q1 & T1 & F1); rewrite (prog_bind_done _ _ _ _ _ E); cbn beta iota.
  - destruct ls1; [|done]. cbn [after_line eof_of] in *. change (negb (1 =? 0)) with true. cbn iota.
    destruct (frame_close_spec _ _ _ _ _ _ _ _ Q0 Hfd0 T1) as (s2 & E2 & T2 & F2).
    assert (Q1' : reading s2 fd1 text1 None None 10 1) by (eapply reading_frame; [exact F2|exact Hne|exact Q1]).
    destruct (frame_close_spec _ _ _ _ _ _ _ _ Q1' Hfd1 T2) as (s3 & E3 & T3 & F3).
    exists f1, s3. split; [|split; [done|]].
    + unfold mbind, prog_bind. rewrite E2. unfold mret, prog_ret. cbn beta iota. rewrite E3. destruct fuel; [lia|]. done.
    + cbn [frame_blinks]. rewrite app_nil_r. exact F1.
  - destruct ls1 as [|l1' ls1]; [done|]. cbn [after_line eof_of] in *. change (negb (0 =? 0)) with false. cbn iota.
    assert (Hp0 : 10 ∉ l0' ) by (apply list.Forall_cons in Hl0 as [[? _] _]; done).
    assert (Hp1 : 10 ∉ l1' ) by (apply list.Forall_cons in Hl1 as [[? _] _]; done).
    apply reading_line in Q0; [|done]. apply reading_line in Q1; [|done].
    destruct (IH ls1 l0' l1' fuel (row + 1) user' f1 (reverse (line_blinks row l0 l1) ++ bs) s1) as (f' & s' & E' & T' & F'); try done.
    + by injection Hlen.
    + split; [unfold alen in *; cbn [length] in *; lia|done].
    + split; [unfold alen in *; cbn [length] in *; lia|done].
    + lia.
    + cbn [length] in Hfuel. lia.
    + exists f', s'. split; [exact E'|]. split; [done|]. cbn [frame_blinks] in *. rewrite reverse_app, <- app_assoc.
      replace (row + alen (l0 :: l0' :: ls0)) with (row + 1 + alen (l0' :: ls0)) by (unfold alen; cbn [length]; lia). exact F'.
Qed.

Lemma lines_fit text : alen (Grep.all_lines text) <= 25 -> Forall (fun l => alen l <= 40) (Grep.all_lines text) ->
  exists l ls, Grep.all_lines text = l :: ls /\ fits 25 (l :: ls).
Proof.
  intros Ha Hl. destruct (Grep.all_lines text) as [|l ls] eqn:E.
  { unfold Grep.all_lines in E. by apply app_eq_nil in E as [_ E]. }
  exists l, ls. split; [done|]. split; [done|]. rewrite <- E in *. apply Forall_and. split; [apply all_lines_whole|exact Hl].
Qed.

Lemma open_frame s name x out text : named s name text -> x = name ++ [0] -> Forall (fun c => c <> 0) name -> alen name < 2 ^ 32 ->
  room s 1 -> terminal s out ->
  exists fd s', ece391_open x 0 s = Done fd s' /\ 1 < fd < 2 ^ 31 /\ fresh fd s /\ is_open s' fd text 0 /\ terminal s' out /\ frame fd s s' /\
    (forall n, room s n -> room s' (n - 1)).
Proof. intros Hn -> Hz Hl Hr T. exact (open_spec s [] name [] text out Hz Hl Hn T Hr). Qed.

Lemma add_frames_spec video text0 text1 fuel user s out :
  named s (bytes_of "frame0.txt") text0 -> named s (bytes_of "frame1.txt") text1 -> room s 2 -> terminal s out ->
  length (Grep.all_lines text0) = length (Grep.all_lines text1) ->
  alen (Grep.all_lines text0) <= 25 -> Forall (fun l => alen l <= 40) (Grep.all_lines text0 ++ Grep.all_lines text1) ->
  2 * BLINKS <= alen video -> (68 <= fuel)%nat ->
  exists f s', add_frames fuel (lit "frame0.txt") (lit "frame1.txt") user (start video) s = Done f s' /\ terminal s' out /\
    filled f (reverse (frame_blinks 0 (Grep.all_lines text0) (Grep.all_lines text1))) video (BLINKS + 40).
Proof.
  intros N0 N1 Rm T Hlen Hrows Hw Hv Hfuel. apply list.Forall_app in Hw as [Hw0 Hw1].
  destruct (lines_fit text0 Hrows Hw0) as (l0 & ls0 & E0 & Hf0).
  destruct (lines_fit text1) as (l1 & ls1 & E1 & Hf1); [unfold alen in *; lia|done|].
  assert (Hplain : forall x, x = bytes_of "frame0.txt" \/ x = bytes_of "frame1.txt" -> Forall (fun c => c <> 0) x /\ alen x < 2 ^ 32)
    by (intros x [-> | ->]; (split; [repeat constructor; discriminate|reflexivity])).
  destruct (open_frame s _ (lit "frame0.txt") out text0 N0 eq_refl) as (fd0 & s1 & O0 & Hr0 & Fr0 & I0 & T1 & F1 & Rm1);
    [apply Hplain; by left|apply Hplain; by left|apply (fs_room s 2); [exact Rm|lia]|exact T|].
  assert (N1' : named s1 (bytes_of "frame1.txt") text1) by (eapply frame_named; [exact F1|exact N1]).
  destruct (open_frame s1 _ (lit "frame1.txt") out text1 N1' eq_refl) as (fd1 & s2 & O1 & Hr1 & Fr1 & I1 & T2 & F2 & _);
    [apply Hplain; by right|apply Hplain; by right|exact (Rm1 2 Rm)|exact T1|].
  assert (Hne : fd0 <> fd1) by (intros ->; by apply (proj1 Fr1 text0 0)).
  assert (I0' : is_open s2 fd0 text0 0) by by apply F2.
  assert (Hread : forall fd text l ls, is_open s2 fd text 0 -> Grep.all_lines text = l :: ls -> reading s2 fd text (Some l) (after_line ls) 48 0).
  { intros fd text l ls Ho El. exists 0. split; [done|]. split; [unfold alen; lia|]. split; [done|]. split; [done|].
    pose proof (all_lines_whole text) as Hp. rewrite El in Hp. apply list.Forall_cons in Hp as [Hp _]. split; [done|].
    rewrite <- join_after, <- El. symmetry. apply join_all_lines. }
  assert (F0 : filled (start video) [] video (0 * 80 + 40)).
  { split; [by apply start_rep|constructor|constructor|done|constructor|by intros b ?%not_elem_of_nil|done]. }
  destruct (rows_loop_spec video fd0 fd1 text0 text1 out Hne ltac:(lia) ltac:(lia) ls0 ls1 l0 l1 fuel 0 user (start video) [] s2)
    as (f & s' & E & T' & F'); [rewrite E0, E1 in Hlen; by injection Hlen|exact Hf0|exact Hf1|done| |by apply Hread|by apply Hread|done|done|].
  { destruct Hf0 as [Hf0 _]. unfold alen in Hf0. cbn [length] in Hf0. lia. }
  exists f, s'. split; [|split; [done|]].
  - unfold add_frames. rewrite (prog_bind_done _ _ _ _ _ O0). rewrite (proj2 (Z.ltb_ge fd0 0)) by lia.
    unfold mbind at 1, prog_bind at 1, mret at 1, prog_ret at 1. rewrite (prog_bind_done _ _ _ _ _ O1). rewrite (proj2 (Z.ltb_ge fd1 0)) by lia. exact E.
  - rewrite app_nil_r in F'. rewrite E0, E1. eapply filled_lim; [|exact F']. destruct Hf0 as [Hf0 _]. unfold BLINKS. lia.
Qed.

(** The character of a text at the row [y] and the column [x] of the screen, a new line
    past the end of the line, and how it looks. *)
Definition char_of (text : list Z) (y x : Z) : Z := default 10 (Grep.all_lines text !! Z.to_nat y ≫= fun l => l !! Z.to_nat (x - 40)).
Definition glyph (c : Z) : Z := if c =? 10 then 32 else c.

Lemma visible_elem text0 text1 y x : length (Grep.all_lines text0) = length (Grep.all_lines text1) -> 0 <= y -> 40 <= x ->
  visible (char_of text0 y x) (char_of text1 y x) = true ->
  shape (char_of text0 y x) (char_of text1 y x) y (x - 40) ∈ frame_blinks 0 (Grep.all_lines text0) (Grep.all_lines text1).
Proof.
  intros Hlen Hy Hx Hv. apply frame_blinks_elem. unfold char_of in *.
  destruct (Grep.all_lines text0 !! Z.to_nat y) as [l0|] eqn:E0, (Grep.all_lines text1 !! Z.to_nat y) as [l1|] eqn:E1.
  - exists (Z.to_nat y), (Z.to_nat (x - 40)), l0, l1. split; [done|]. split; [done|]. cbn [mbind option_bind] in *. split.
    + destruct (decide (Z.to_nat (x - 40) < max (length l0) (length l1))%nat); [done|].
      rewrite !lookup_ge_None_2 in Hv by lia. discriminate Hv.
    + split; [exact Hv|]. rewrite !Z2Nat.id by lia. done.
  - apply lookup_lt_Some in E0. apply lookup_ge_None in E1. lia.
  - apply lookup_lt_Some in E1. apply lookup_ge_None in E0. lia.
  - discriminate Hv.
Qed.

(** C25: The fish moves: when the program has read two frames of as many lines, which fit into
    the right half of the screen, every tick of the clock keeps the screen as follows. In
    the right half, where one of the two characters is visible, it has that of the first
    frame for fifteen ticks and then that of the second for fifteen, over and over; every
    other place, and every attribute, is as it was. *)
Theorem fish_moves video text0 text1 fuel user s out :
  named s (bytes_of "frame0.txt") text0 -> named s (bytes_of "frame1.txt") text1 -> room s 2 -> terminal s out ->
  length (Grep.all_lines text0) = length (Grep.all_lines text1) ->
  alen (Grep.all_lines text0) <= 25 -> Forall (fun l => alen l <= 40) (Grep.all_lines text0 ++ Grep.all_lines text1) ->
  2 * BLINKS <= alen video -> (68 <= fuel)%nat ->
  exists f s', add_frames fuel (lit "frame0.txt") (lit "frame1.txt") user (start video) s = Done f s' /\ terminal s' out /\
    forall n, exists rs f', run (replicate n Tick) f = Some (rs, f') /\
      (forall y x, 0 <= y < 25 -> 0 <= x < 80 ->
        aget (vmem f') (2 * (80 * y + x)) =
          if (40 <=? x) && visible (char_of text0 y x) (char_of text1 y x)
          then if Z.of_nat n mod 30 <? 15 then glyph (char_of text0 y x) else glyph (char_of text1 y x)
          else aget video (2 * (80 * y + x))) /\
      (forall k, 0 <= k -> aget (vmem f') (2 * k + 1) = aget video (2 * k + 1)).
Proof.
  intros N0 N1 Rm T Hlen Hrows Hw Hv Hfuel.
  destruct (add_frames_spec video text0 text1 fuel user s out N0 N1 Rm T Hlen Hrows Hw Hv Hfuel) as (f & s' & E & T' & F).
  exists f, s'. split; [done|]. split; [done|]. intros n. set (bs := reverse _) in F. destruct F as [R O _ _ A Sh Ot].
  destruct (ticks_spec n f bs R O A Sh) as (rs & f' & Er & _ & _ & Hin & Hout). exists rs, f'. split; [done|].
  assert (Hbs : forall b, b ∈ bs -> exists (i j : nat), (j < 40)%nat /\
    let c0 := char_of text0 (Z.of_nat i) (Z.of_nat j + 40) in let c1 := char_of text1 (Z.of_nat i) (Z.of_nat j + 40) in
    visible c0 c1 = true /\ b = shape c0 c1 (Z.of_nat i) (Z.of_nat j)).
  { intros b Hb. unfold bs in Hb. rewrite elem_of_reverse, frame_blinks_elem in Hb. destruct Hb as (i & j & l0 & l1 & E0 & E1 & Hj & Hb).
    apply list.Forall_app in Hw as [Hw0 Hw1]. rewrite Forall_lookup in Hw0, Hw1. pose proof (Hw0 _ _ E0). pose proof (Hw1 _ _ E1).
    exists i, j. split; [unfold alen in *; lia|]. unfold char_of. rewrite Nat2Z.id, E0, E1. cbn [mbind option_bind].
    rewrite Z.add_simpl_r, Nat2Z.id. exact Hb. }
  split.
  - intros y x Hy Hx. destruct ((40 <=? x) && visible (char_of text0 y x) (char_of text1 y x)) eqn:Ev.
    + apply andb_true_iff in Ev as [H40%Z.leb_le Ev]. set (c0 := char_of text0 y x) in *. set (c1 := char_of text1 y x) in *.
      assert (Hb : shape c0 c1 y (x - 40) ∈ bs) by (unfold bs; rewrite elem_of_reverse; apply visible_elem; done || lia).
      transitivity (aget (vmem f') (2 * location (shape c0 c1 y (x - 40)))); [f_equal; cbn; lia|exact (Hin _ Hb)].
    + assert (Hfree : forall b, b ∈ bs -> 2 * (80 * y + x) <> 2 * location b).
      { intros b Hb Eq. destruct (Hbs b Hb) as (i & j & Hj & Hvis & ->). cbn [location shape] in Eq.
        assert (Ey : y = Z.of_nat i) by lia. assert (Ex : x = Z.of_nat j + 40) by lia. subst y x.
        rewrite Hvis, (proj2 (Z.leb_le _ _)) in Ev by lia. done. }
      rewrite Hout by (done || lia). apply Ot; [lia|done].
  - intros k Hk. rewrite Hout; [apply Ot; [lia|]|lia|]; intros b Hb; lia.
Qed.

End reading.

(** C26: The linked list in assembly is a list of blinks: whatever is added (not at the place 0),
    removed, looked for, synchronised or ticked, in any order, the calls return what the
    plain list says, the elements of the array hold that list and no other blink, and the
    screen gets the characters that the plain list shows. What an addition at the place 0,
    which the code accepts, leads to is [blink_at_zero_loops] below. *)
Theorem blinks_refine os : forall s bs, rep s bs -> Forall op_ok os ->
  let '(rs, bs', v') := spec_run os bs (vmem s) in
  exists rs' s', run os s = Some (rs', s') /\ bare_result <$> rs' = rs /\ rep s' bs' /\ vmem s' = v'.
Proof.
  induction os as [|o os IH]; intros s bs R Ho; [by exists [], s|]. apply list.Forall_cons in Ho as [Ho Hos]. cbn [spec_run run].
  pose proof (op_step_spec o s bs R Ho) as Hs. destruct (spec_step o bs (vmem s)) as [[[r b] bs1] v1].
  destruct Hs as (b' & s1 & -> & Hb & R1 & Hv1). cbn [mbind option_bind]. specialize (IH s1 bs1 R1 Hos). rewrite Hv1 in IH.
  destruct (spec_run os bs1 v1) as [[rs bs'] v']. destruct IH as (rs' & s' & -> & Hrs & R' & Hv'). cbn [mbind option_bind].
  eexists _, s'. split; [reflexivity|]. split; [|done]. rewrite fmap_cons, Hrs. unfold bare_result at 1. cbn. by rewrite Hb.
Qed.

(** *** A blink at the place 0 *)

Lemma add_at_zero s b0 rest user : blink_array s = b0 :: rest -> location b0 = 0 -> 0 < alen (vmem s) -> location user = 0 ->
  exists s', mp1_ioctl_add user s = Some (0, s') /\ mp1_list_head s' = Some 0 /\ alen (vmem s') = alen (vmem s) /\
    blink_array s' = set_next (set_phase user (on_length user) 1) (mp1_list_head s) :: rest.
Proof.
  intros Ea H0 Hv Hu. unfold mp1_ioctl_add. rewrite Hu. change (BLINKS <=? 0) with false. cbn iota.
  assert (Em : mp1_malloc s = Some 0) by (unfold mp1_malloc; rewrite Ea; cbn [list_find]; by rewrite decide_True). rewrite Em. cbv zeta.
  rewrite poke_spec by (cbn; lia). cbn [mbind option_bind]. eexists. split; [reflexivity|]. split; [done|]. split; [apply alen_aset|].
  cbn [blink_array set_head set_node]. by rewrite Ea.
Qed.

Lemma self_loop fuel : forall s b rest, blink_array s = b :: rest -> location b = 0 -> next b = Some 0 -> 0 < alen (vmem s) ->
  tasklet_loop fuel (Some 0) s = None.
Proof.
  induction fuel as [|fuel IH]; intros s b rest Ea Hb Hn Hv; [done|]. cbn [tasklet_loop]. unfold tasklet_node, node. rewrite Ea.
  change (anth (b :: rest) 0) with (Some b). cbn [mbind option_bind]. cbv zeta. cbn [countdown set_phase status location].
  assert (Hset : forall b' v, next b' = Some 0 -> location b' = 0 -> 0 < alen v ->
    (b1 ← anth (b' :: rest) 0; tasklet_loop fuel (next b1) (mk (b' :: rest) (mp1_list_head s) v)) = None).
  { intros b' v Hn' Hb' Hv'. change (anth (b' :: rest) 0) with (Some b'). cbn [mbind option_bind]. rewrite Hn'. by eapply IH. }
  destruct (jg _).
  - unfold set_node. cbn [mbind option_bind blink_array mp1_list_head vmem]. rewrite Ea. by apply Hset.
  - destruct (_ =? 0); rewrite poke_spec by (cbn; lia); cbn [mbind option_bind]; unfold set_node;
      cbn [blink_array mp1_list_head vmem]; rewrite Ea; (apply Hset; [done|done|by rewrite alen_aset]).
Qed.

(** An element with the location 0 counts as free: the second blink at the first place of
    the screen takes the element of the first, which becomes its own successor, and the
    next tick never ends. *)
Theorem blink_at_zero_loops video user : 0 < alen video -> location user = 0 ->
  exists s1 s2, mp1_ioctl_add user (start video) = Some (0, s1) /\ mp1_ioctl_add user s1 = Some (0, s2) /\
    forall fuel, tasklet_loop fuel (mp1_list_head s2) s2 = None.
Proof.
  intros Hv Hu. destruct (add_at_zero (start video) zeroed (replicate 1999 zeroed) user) as (s1 & E1 & Hh1 & Hv1 & Ha1); [exact eq_refl|exact eq_refl|done|done|].
  destruct (add_at_zero s1 _ _ user Ha1 Hu) as (s2 & E2 & Hh2 & Hv2 & Ha2); [by rewrite Hv1|done|].
  exists s1, s2. split; [done|]. split; [done|]. intros fuel. rewrite Hh2. eapply self_loop; [exact Ha2|exact Hu|exact Hh1|].
  rewrite Hv2, Hv1. exact Hv.
Qed.

(** *** A small fish *)

Definition frame_text0 : list Z := bytes_of "><>" ++ [10] ++ bytes_of " o".
Definition frame_text1 : list Z := bytes_of ">-" ++ [10].
Definition fish_fs : KissFS.t :=
  KissFS.mk (default [] (LPHash.puts KissFS.TableSize (LPHash.init KissFS.TableSize)
      [(Kernel.pad32 (bytes_of "frame0.txt"), 0); (Kernel.pad32 (bytes_of "frame1.txt"), 1)]))
    [KissFS.mk_dentry (Kernel.pad32 (bytes_of "frame0.txt")) 2 0; KissFS.mk_dentry (Kernel.pad32 (bytes_of "frame1.txt")) 2 1]
    [KissFS.mk_inode (alen frame_text0) [0] 1; KissFS.mk_inode (alen frame_text1) [1] 1] 2 2 2
    (fun p => if p <? 4 * 4096 then default 0 (frame_text0 !! Z.to_nat (p - 3 * 4096)) else default 0 (frame_text1 !! Z.to_nat (p - 4 * 4096))) 5.

Lemma fish_serves i text : (i = 0 /\ text = frame_text0) \/ (i = 1 /\ text = frame_text1) -> Kernel.serves fish_fs i text.
Proof.
  intros Hi. assert (E : text = KissFS.content fish_fs (KissFS.mk_inode (alen text) [i] 1)) by (destruct Hi as [[-> ->] | [-> ->]]; vm_compute; reflexivity).
  rewrite E. apply Kernel.serves_valid; [|by destruct Hi as [[-> ->] | [-> ->]]|by destruct Hi as [[-> _] | [-> _]]].
  destruct Hi as [[-> ->] | [-> ->]]; split; try done; repeat constructor; done.
Qed.
Lemma fish_named k i name text : Kernel.kiss k = fish_fs ->
  (i = 0 /\ name = bytes_of "frame0.txt" /\ text = frame_text0) \/ (i = 1 /\ name = bytes_of "frame1.txt" /\ text = frame_text1) ->
  named k name text.
Proof.
  intros E Hi. split.
  - destruct Hi as [(_ & -> & _) | (_ & -> & _)]; (split_and!; [repeat constructor; lia|done|done|by vm_compute|by intros [r [=]]]).
  - exists i. rewrite E. split; [destruct Hi as [(-> & -> & _) | (-> & -> & _)]; vm_compute; reflexivity|]. apply fish_serves.
    destruct Hi as [(-> & _ & ->) | (-> & _ & ->)]; [by left|by right].
Qed.

(** [halt] ends the program. *)
#[local] Instance halts : ProcSys Kernel.K :=
  {| sys_halt st := fun s => Halted st s; sys_execute _ := mret (-1); sys_vidmap _ := mret (-1); sys_set_handler _ := mret (-1);
     sys_other _ := mret (-1) |}.

Lemma fish_moves_witness : exists k f k',
  Kernel.boot fish_fs None [] = Some k /\
  add_frames 100 (lit "frame0.txt") (lit "frame1.txt") zeroed (start (replicate 4096 7)) k = Done f k' /\ terminal k' [] /\
  forall n, exists rs f', run (replicate n Tick) f = Some (rs, f') /\
    (forall y x, 0 <= y < 25 -> 0 <= x < 80 ->
      aget (vmem f') (2 * (80 * y + x)) =
        if (40 <=? x) && visible (char_of frame_text0 y x) (char_of frame_text1 y x)
        then if Z.of_nat n mod 30 <? 15 then glyph (char_of frame_text0 y x) else glyph (char_of frame_text1 y x)
        else aget (replicate 4096 7) (2 * (80 * y + x))) /\
    (forall k, 0 <= k -> aget (vmem f') (2 * k + 1) = aget (replicate 4096 7) (2 * k + 1)).
Proof.
  destruct (Kernel.boot_spec fish_fs None []) as (k & E & Ht & Hk & _ & Hr).
  destruct (fish_moves (replicate 4096 7) frame_text0 frame_text1 100 zeroed k []) as (f & k' & Ea & Hrest).
  - apply (fish_named k 0); [exact Hk|left; exact (conj eq_refl (conj eq_refl eq_refl))].
  - apply (fish_named k 1); [exact Hk|right; exact (conj eq_refl (conj eq_refl eq_refl))].
  - eapply fs_room; [exact Hr|lia].
  - exact Ht.
  - vm_compute; reflexivity.
  - vm_compute; discriminate.
  - vm_compute. repeat constructor; discriminate.
  - vm_compute; discriminate.
  - lia.
  - exists k, f, k'. split; [exact E|]. split; [exact Ea|exact Hrest].
Defined.

(** All the calls on a small list. *)
Definition demo_ops : list op :=
  let b := fun l => mk_blink l 65 66 2 3 0 0 None in
  [Add (b 5); Add (b 9); Tick; Tick; Sync (Z.lor (Z.shiftl 5 16) 9); Find 9; Remove 5; Remove 5; Add (b 3000); Tick].
Lemma blinks_refine_witness : exists rs' s',
  run demo_ops (start (replicate 4000 0)) = Some (rs', s') /\
  bare_result <$> rs' = (spec_run demo_ops [] (replicate 4000 0)).1.1 /\ rep s' (spec_run demo_ops [] (replicate 4000 0)).1.2 /\
  vmem s' = (spec_run demo_ops [] (replicate 4000 0)).2.
Proof.
  pose proof (blinks_refine demo_ops (start (replicate 4000 0)) []) as Hw.
  assert (Hr : rep (start (replicate 4000 0)) []) by (apply start_rep; vm_compute; discriminate).
  assert (Ho : Forall op_ok demo_ops) by (repeat constructor).
  specialize (Hw Hr Ho). change (vmem (start (replicate 4000 0))) with (replicate 4000 0) in Hw.
  destruct (spec_run demo_ops [] (replicate 4000 0)) as [[rs bs] v]. exact Hw.
Defined.

End Fish.
