(* ===== verification/TicTacToe.v ===== *)
(** * The game (userland/tictactoe/tictactoe.cpp)

    The board and the loop over the messages of the nine buttons; the calls of the user
    interface are the list of images that are drawn. [game_stops_at_line]: a game on
    distinct squares is over at the first line of three, and not before. *)
From stdpp Require Import prelude list numbers.
From Stdlib Require Import ZArith Lia.
From S2P Require Import Prelude.

Module TicTacToe.

Definition Space : Z := 32.
Definition ODrop : Z := 79.
Definition XDrop : Z := 88.
(** [{ {Space}, {Space}, {Space} }]: the elements that are not named are 0. *)
Definition init_board : list Z := [Space; 0; 0; Space; 0; 0; Space; 0; 0].

(** [board], [isOTerm] and what was drawn: row, column and whether it is the O. *)
Record t := mk { board : list Z; isOTerm : bool; drawn : list (Z * Z * bool) }.
Definition init : t := mk init_board true [].

(** [board[row][col]] *)
Definition at_ (b : list Z) (row col : Z) : option Z := anth b (3 * row + col).
Definition eq3 (b : list Z) (r0 c0 r1 c1 r2 c2 : Z) : option bool :=
  x ← at_ b r0 c0; y ← at_ b r1 c1; z ← at_ b r2 c2; Some ((x =? y) && (x =? z)).

Definition checkWin (b : list Z) (row col : Z) : option bool :=
  x ← at_ b row col;
  by_row ← eq3 b row 0 row 1 row 2;
  by_col ← eq3 b 0 col 1 col 2 col;
  if negb (x =? Space) && (by_row || by_col) then Some true
  else
    m ← at_ b 1 1;
    down ← eq3 b 1 1 0 0 2 2;
    up ← eq3 b 1 1 0 2 2 0;
    if negb (m =? Space) && (down || up) then Some true else Some false.

Definition drawDrop (row col : Z) (s : t) : option t :=
  x ← at_ (board s) row col;
  if x =? Space then Some s else Some (mk (board s) (isOTerm s) (drawn s ++ [(row, col, isOTerm s)])).

(** One message. The result says whether the game is won. *)
Definition turn (buttonTag : Z) (s : t) : option (bool * t) :=
  let buttonRow := Z.quot buttonTag 3 in
  let buttonCol := Z.rem buttonTag 3 in
  _ ← at_ (board s) buttonRow buttonCol;
  let s := mk (aset (board s) (3 * buttonRow + buttonCol) (if isOTerm s then ODrop else XDrop)) (isOTerm s) (drawn s) in
  s ← drawDrop buttonRow buttonCol s;
  w ← checkWin (board s) buttonRow buttonCol;
  if (w : bool) then Some (true, s) else Some (false, mk (board s) (negb (isOTerm s)) (drawn s)).
(** The loop, on the messages that come: whether it was left by the [break]. *)
Fixpoint loop (n : nat) (messages : list Z) (s : t) : option (bool * t) :=
  match n, messages with
  | O, _ => Some (false, s)
  | S _, [] => None
  | S n, m :: messages => '(w, s) ← turn m s; if (w : bool) then Some (true, s) else loop n messages s
  end.
(** [isDraw] is false from the start, and no branch sets it. *)
Inductive ending := Draw | Winner.
Definition runGame (messages : list Z) : option (ending * t) :=
  '(broke, s) ← loop 9 messages init;
  let isDraw := if (broke : bool) then false else false in
  Some (if isDraw then Draw else Winner, s).

(** ** Lines *)

Definition lines : list (Z * Z * Z) :=
  [(0, 1, 2); (3, 4, 5); (6, 7, 8); (0, 3, 6); (1, 4, 7); (2, 5, 8); (0, 4, 8); (2, 4, 6)].
Definition mark (x : Z) : bool := (x =? ODrop) || (x =? XDrop).
Definition three (b : list Z) (l : Z * Z * Z) : bool :=
  let '(i, j, k) := l in mark (aget b i) && (aget b i =? aget b j) && (aget b i =? aget b k).
Definition has_line (b : list Z) : bool := existsb (three b) lines.

(** The board after some moves, the O first. *)
Fixpoint play (o : bool) (tags : list Z) (b : list Z) : list Z :=
  match tags with [] => b | m :: tags => play (negb o) tags (aset b m (if o then ODrop else XDrop)) end.

(** A board on which every square is as it was or marked. *)
Definition legal (b : list Z) : Prop := length b = 9%nat /\ forall i, 0 <= i < 9 -> aget b i = aget init_board i \/ mark (aget b i) = true.

(** The comparisons of [checkWin] on a line with a mark, and on the two diagonals, which
    meet the first column, where an empty square is a space. *)
Lemma three_row x y z : mark x || mark y || mark z = true -> mark x && (x =? y) && (x =? z) = (x =? y) && (x =? z).
Proof.
  intros Hm. destruct (Z.eqb_spec x y) as [Ey|]; [|by rewrite andb_false_r]. destruct (Z.eqb_spec x z) as [Ez|]; [|by rewrite andb_false_r].
  rewrite <- Ey, <- Ez, !orb_diag in Hm. by rewrite Hm.
Qed.
Lemma three_diag x y z : (x = Space \/ mark x = true) \/ (z = Space \/ mark z = true) ->
  mark x && (x =? y) && (x =? z) = negb (y =? Space) && ((y =? x) && (y =? z)).
Proof.
  intros Hm. destruct (Z.eqb_spec x y) as [E|E]; [|rewrite (proj2 (Z.eqb_neq y x)) by congruence; by rewrite !andb_false_r].
  subst y. rewrite Z.eqb_refl. destruct (Z.eqb_spec x z) as [E|E]; [|by rewrite !andb_false_r]. subst z.
  assert (Hs : x = Space \/ mark x = true) by by destruct Hm. rewrite !andb_true_r.
  destruct Hs as [->|Hs]; [done|]. rewrite Hs. destruct (Z.eqb_spec x Space) as [E|]; [by rewrite E in Hs|done].
Qed.
Lemma win_cases (r1 r2 k p q : bool) :
  (if r1 || r2 then Some true else if k && (p || q) then Some true else Some false) = Some (r1 || (r2 || (k && p || (k && q || false)))).
Proof. by destruct r1, r2, k, p, q. Qed.

(** A marked square more on a board without a line: [checkWin] sees a new line. *)
Lemma checkWin_spec b m (o : bool) : legal b -> has_line b = false -> 0 <= m < 9 ->
  let b' := aset b m (if o then ODrop else XDrop) in checkWin b' (Z.quot m 3) (Z.rem m 3) = Some (has_line b').
Proof.
  intros [Hlen Hc] Hl Hm. set (v := if o then ODrop else XDrop). assert (Hv : mark v = true) by (unfold v; by destruct o).
  assert (Hs : (v =? Space) = false) by (unfold v; by destruct o).
  assert (Hcol : forall i, i = 0 \/ i = 3 \/ i = 6 -> aget b i = Space \/ mark (aget b i) = true).
  { intros i Hi. destruct (Hc i ltac:(lia)) as [E|E]; [left|by right]. rewrite E. by destruct Hi as [-> | [-> | ->]]. }
  pose proof (Hcol 0 ltac:(lia)) as H0. pose proof (Hcol 3 ltac:(lia)) as H3. pose proof (Hcol 6 ltac:(lia)) as H6. clear Hc Hcol. clearbody v.
  destruct b as [|c0 [|c1 [|c2 [|c3 [|c4 [|c5 [|c6 [|c7 [|c8 [|]]]]]]]]]]; try discriminate Hlen. clear Hlen.
  cbv -[Z.eqb orb andb negb mark Space] in Hl, H0, H3, H6. rewrite !orb_false_iff in Hl. destruct Hl as (L1 & L2 & L3 & L4 & L5 & L6 & L7 & L8 & _).
  assert (Em : m = 0 \/ m = 1 \/ m = 2 \/ m = 3 \/ m = 4 \/ m = 5 \/ m = 6 \/ m = 7 \/ m = 8) by lia.
  cbv zeta. destruct Em as [-> | [-> | [-> | [-> | [-> | [-> | [-> | [-> | ->]]]]]]]];
    cbv -[Z.eqb orb andb negb mark Space]; rewrite ?L1, ?L2, ?L3, ?L4, ?L5, ?L6, ?Hs; cbn [negb orb andb].
  all: match goal with |- context [mark ?x && (?x =? ?y) && (?x =? ?z) || (mark ?a && (?a =? ?y) && (?a =? ?c) || false)] =>
    rewrite (three_diag x y z), (three_diag a y c) by (first [left; exact H0|left; right; exact Hv|right; exact H6|right; right; exact Hv]) end.
  all: rewrite !three_row by (rewrite Hv, ?orb_true_r; reflexivity); rewrite ?Hs; cbn [negb andb];
    first [apply win_cases|apply (win_cases _ _ true)].
Qed.


Lemma legal_mark b m v : legal b -> mark v = true -> 0 <= m < 9 -> legal (aset b m v).
Proof.
  intros [Hl Hc] Hv Hm. split; [by rewrite length_aset|]. intros i Hi. destruct (decide (i = m)) as [->|].
  - rewrite aget_aset_eq by (unfold alen; lia). by right.
  - rewrite aget_aset_ne by lia. by apply Hc.
Qed.

(** One turn. *)
Lemma turn_spec m s : legal (board s) -> has_line (board s) = false -> 0 <= m < 9 ->
  let b' := aset (board s) m (if isOTerm s then ODrop else XDrop) in
  exists s', turn m s = Some (has_line b', s') /\ board s' = b' /\ (has_line b' = false -> isOTerm s' = negb (isOTerm s)).
Proof.
  intros Hb Hl Hm b'. assert (Em : 3 * Z.quot m 3 + Z.rem m 3 = m) by (symmetry; apply Z.quot_rem').
  assert (Hlen : alen (board s) = 9) by (destruct Hb as [Hn _]; unfold alen; lia).
  unfold turn, drawDrop, at_. rewrite Em; rewrite !(anth_aget (board s) m) by lia. cbn [mbind option_bind]. cbv zeta. cbn [board isOTerm drawn]. fold b'.
  rewrite anth_aget by (unfold b'; rewrite alen_aset; lia). cbn [mbind option_bind].
  assert (Hv : (aget b' m =? Space) = false) by (unfold b'; rewrite aget_aset_eq by lia; by destruct (isOTerm s)).
  rewrite Hv. cbn [mbind option_bind board isOTerm]. pose proof (checkWin_spec (board s) m (isOTerm s) Hb Hl Hm) as Hc. cbv zeta in Hc.
  fold b' in Hc. rewrite Hc. cbn [mbind option_bind]. destruct (has_line b') eqn:E; eexists; (split; [reflexivity|]); done.
Qed.

Lemma mark_of (o : bool) : mark (if o then ODrop else XDrop) = true.
Proof. by destruct o. Qed.

Lemma loop_spec : forall tags s n, legal (board s) -> has_line (board s) = false -> length tags = n ->
  Forall (fun m => 0 <= m < 9) tags ->
  exists (k : nat) won s', loop n tags s = Some (won, s') /\ (k <= n)%nat /\ board s' = play (isOTerm s) (take k tags) (board s) /\
    (forall j, (j < k)%nat -> has_line (play (isOTerm s) (take j tags) (board s)) = false) /\
    won = has_line (board s') /\ (won = false -> k = n).
Proof.
  induction tags as [|m tags IH]; intros s n Hb Hl Hlen Ht; cbn [length] in Hlen; subst n.
  { exists 0%nat, false, s. split; [done|]. split; [done|]. split; [done|]. split; [lia|]. by rewrite Hl. }
  apply list.Forall_cons in Ht as [Hr Ht].
  destruct (turn_spec m s Hb Hl Hr) as (s1 & E & Hb1 & Ho1). cbn [loop]. rewrite E. cbn [mbind option_bind].
  set (b' := aset _ _ _) in *. destruct (has_line b') eqn:El.
  - exists 1%nat, true, s1. split; [done|]. split; [lia|]. cbn [take play]. fold b'. split; [done|]. split; [|by rewrite Hb1].
    intros j Hj. by replace j with 0%nat by lia.
  - destruct (IH s1 (length tags)) as (k & won & s' & E' & Hk & Hb' & Hj & Hw & Hfin).
    + rewrite Hb1. apply legal_mark; [done|apply mark_of|done].
    + by rewrite Hb1.
    + done.
    + done.
    + exists (S k), won, s'. split; [done|]. split; [lia|]. cbn [take play]. fold b'. rewrite <- (Ho1 eq_refl), <- Hb1. split; [done|].
      split; [|split; [done|intros Hwf; by rewrite Hfin]]. intros [|j] Hjk; [done|]. cbn [take play]. fold b'. rewrite <- (Ho1 eq_refl), <- Hb1.
      apply Hj. lia.
Qed.

(** A game on nine squares, taken or not, ends after [k] of them: there was no line of
    three before the last of these, and there is one then unless there were nine. What
    the game reports is a winner in every case. *)
Theorem game_stops_at_line tags : length tags = 9%nat -> Forall (fun m => 0 <= m < 9) tags ->
  exists (k : nat) s, runGame tags = Some (Winner, s) /\ (k <= 9)%nat /\ board s = play true (take k tags) init_board /\
    (forall j, (j < k)%nat -> has_line (play true (take j tags) init_board) = false) /\
    (has_line (board s) = true \/ k = 9%nat).
Proof.
  intros Hlen Hr. destruct (loop_spec tags init 9) as (k & won & s & E & Hk & Hb & Hj & Hw & Hfin); [|done|done|done|].
  - split; [done|]. by left.
  - exists k, s. unfold runGame. rewrite E. cbn [mbind option_bind]. split; [by destruct won|]. split; [done|]. split; [done|]. split; [done|].
    destruct won; [by left|right; by apply Hfin].
Qed.

(** A square that is taken can be taken over: with the buttons 0, 1, 0 the X on the first
    square replaces the O. *)
Example square_taken_over : board <$> (snd <$> loop 2 [0; 0] init) = Some (XDrop :: drop 1 init_board).
Proof. reflexivity. Qed.
End TicTacToe.
